(* ===== verification/_CoqProject ===== *)
-Q . S2P
Prelude.v
Sdk.v
Float.v
SupernodeTypes.v
Supernode.v
SupernodeMsg.v
FloatFmt.v
SupernodeParams.v
Metrics.v
RegistryClients.v
SupernodeInv.v
SupernodeThm.v
SupernodeRank.v
Merkle.v
Bank.v
ActionTypes.v
Svc.v
ActionStore.v
ActionKeeper.v
ActionMsg.v
ActionIndex.v
ActionInv.v
ActionThm.v
ActionExamples.v
AuditParam.v
AuditTypes.v
Epoch.v
EpochThm.v
GoHash.v
Scoring.v
Assign.v
AssignThm.v
AuditKeys.v
AuditFacts.v
ScoreKeeper.v
HealOps.v
HealMsg.v
AuditReport.v
AuditEvidence.v
Enforcement.v
AuditEnd.v
ScoreInv.v
AuditSys.v
HealInv.v
HealEpoch.v
AuditThm.v
PruneThm.v
ReportThm.v
EnforceThm.v
AuditExamples.v
Uint128.v
Field127.v
Residue.v
LegRoast.v
LegTree.v
LegOpen.v
LegRound.v
LegRoastThm.v
LegExamples.v
FloatPos.v
Reward.v
RewardThm.v
RewardPay.v
RewardRun.v
RewardExamples.v
GoTime.v
Claim.v
ClaimThm.v
ClaimRun.v
ClaimExamples.v
EvProof.v
EvKeepers.v
EvMigrate.v
EvValidator.v
EvThm.v
EvRun.v
EvStake.v
EvRefs.v
EvAccount.v
EvExamples.v
