(* ===== verification/Prelude.v ===== *)
(** * Lumera: a verification development of the Lumera chain modules

    Lumera is a Cosmos SDK chain.  Validators register _supernodes_
    (x/supernode), users pay supernodes to do work on data (_actions_, x/action),
    and the supernodes watch each other and are punished and repaired at the end
    of every _epoch_ (x/audit).  The action module asks the supernode registry who
    may finalize an action and tells the audit module about bad finalizations and
    about the artifacts of finalized actions; the audit module postpones and
    recovers supernodes in the registry.  Every payment period the supernode module
    divides its pool among the supernodes by the bytes they report to store.  Clients
    sign with a post-quantum scheme, LegRoast (x/lumeraid/legroast), under a key
    derived from their keyring.  Holders of coins of the old chain claim them with a
    signature of their old key (x/claim).  An account or a validator moves once to an
    address of the EVM key type (x/evmigration): its coins, stake, actions and supernode
    follow it.

    ** How the code is modelled

    A module's store is a record of finite maps, one per key prefix; an operation
    is a function in the state and error monad [M] of this file (one Go function,
    one definition, of the same name where Rocq allows it).  An operation that
    fails may have changed the store; a transaction ([run_tx]) then discards the
    changes, as the SDK does with a cached store, and a handler that swallows an
    error ([attempt]) keeps them.  Events are kept in order.  Machine integers are
    integers with explicit wrap-around ([u32], [u64], [i64]); math.Int is [Z] and
    LegacyDec an interface.  Iterators read keys in byte order from the store as it
    was when the iterator was opened.

    Code outside the repository is an interface: a class of operations, and a
    class of laws with the documented behaviour the theorems use.  Every theorem
    with a hypothesis has a witness in which all interfaces are instantiated by
    concrete functions.  The interfaces are: the address codec ([SdkAddress]),
    decimals ([LegacyDecOps], [DecQuo]), the bank ([BankKeeper], [PayoutBank],
    [CoinParser]), semantic versions ([Semver]), BLAKE3, the
    protobuf and JSON codecs of the metadata ([MetadataCodec], [EvidenceCodec],
    [ParamsCodec]), base58, zstd and the key types behind the signatures
    ([KademliaLibs], [PubKeys], [ActionCrypto]), and, between the modules, what
    the action module expects of the audit module ([AuditKeeper]).  LegRoast uses
    the 128-bit words of lukechampine.com/uint128 ([Uint128Lib]), SHAKE-128
    ([Shake128]), the keyring and argon2 ([Keyring]).  Claims use RIPEMD-160, base58 and
    secp256k1 ([ClaimCrypto]), the accounts of x/auth ([AuthTypes], [AccountKeeper]) and
    the parser of integers ([IntParser]).  Migrations use the two key types
    ([MigrationKeys]) and the keepers of x/auth, x/bank, x/staking, x/distribution,
    x/authz and x/feegrant ([Auth], [CoinSender], [StakingStore], [ValidatorStore],
    [Distribution], [ValidatorDistribution], [Authz], [Feegrant]).  Validators and
    delegations are functions in the context of the block ([StakingKeeper]).

    ** Files

    - Prelude: errors, the monad with its weakest-precondition ([wp]) and
      preservation ([keeps]) calculus, machine integers, ordered iteration,
      sort.Search, stable sorting, sums over maps.
    - Sdk, Float, Bank, GoHash: what the modules use of the SDK and of the Go
      standard library: addresses, the context, decimals, float64 as sign, mantissa
      and exponent, coins and the bank, FNV-1a and SHA-256.
    - SupernodeTypes, Supernode, SupernodeMsg: x/supernode/v1 (types/super_node.go,
      keeper/supernode.go, keeper/hooks.go and the keeper/msg_server files).
      RegistryClients: what the epoch reports of x/audit (keeper/state.go) and the
      migrations of x/evmigration (migrate_supernode.go, migrate_validator.go) write to
      its store.  SupernodeInv and SupernodeThm: its invariant and its theorems.
      SupernodeRank: the distance ranking and the top supernodes of a block
      (keeper/query_get_top_super_nodes_for_block.go).
    - SupernodeParams, Metrics, Reward: the rest of x/supernode/v1: parameters
      (types/params.go, keeper/params.go, msg_update_params.go), metrics reports
      (metrics_validation.go, msg_server_report_supernode_metrics.go,
      metrics_staleness.go) and the distribution of the reward pool (distribution.go,
      state.go, audit_metrics.go, abci.go, query_get_reward_eligibility.go).
      FloatFmt and FloatPos: the text of a float64 and error bounds of its
      arithmetic.  RewardThm, RewardPay, RewardRun: the reports that stop a payment,
      the division of the pool, the run of a payment; RewardExamples: witnesses.
    - Merkle, Svc: x/action/v1/merkle and the availability commitment and
      storage-verification challenge of keeper/svc.go, with keeper/crypto.go.
    - ActionTypes, ActionStore, ActionKeeper, ActionMsg: x/action/v1/keeper:
      action.go, action_cascade.go, action_sense.go, expiration, fee distribution,
      the message server.  ActionIndex, ActionInv, ActionThm, ActionExamples:
      invariants, theorems, witnesses.
    - AuditParam, AuditTypes, Epoch, Scoring, Assign, AuditKeys, AuditFacts,
      ScoreKeeper, HealOps, HealMsg, AuditReport, AuditEvidence, Enforcement,
      AuditEnd: x/audit/v1: parameters, epochs and anchors, score arithmetic, the
      assignment of probers and challengers, the key layout of the store, fact
      indexes, score states, heal operations, reports, evidence, enforcement and
      recovery, pruning and the end blocker.  AuditSys composes them into a
      transition system; ScoreInv, HealInv, HealEpoch prove its invariants.
      EpochThm, AssignThm, AuditThm, PruneThm, ReportThm, EnforceThm hold the
      theorems and AuditExamples their witnesses.

    - Uint128, Residue, LegRoast: x/lumeraid/legroast (uint128_utils.go,
      power_residue_symbols.go; params.go, seedtree.go, legroast.go, signing.go).
      Field127: the field of 2^127 - 1 elements.  LegTree, LegOpen, LegRound,
      LegRoastThm: the seed trees, the openings, the rounds and the whole protocol;
      LegExamples: witnesses.
    - GoTime: instants, the calendar of Date and AddDate, the text of a time.
      Claim: x/claim (keeper/msg_server_claim.go, msg_server_delayed_claim.go,
      claim_record.go, claim_count_per_block.go, abci.go, params.go,
      msg_update_params.go, keeper/crypto/utils.go, module/genesis.go).  ClaimThm: when a
      claim is accepted and what it does; ClaimRun: sequences of operations from
      genesis; ClaimExamples: witnesses.
    - EvProof: the proofs of x/evmigration (types/proof.go, types/sigverify,
      keeper/verify.go).  EvKeepers: the keepers it calls and its store.  EvMigrate: the
      migration of an account (keeper/msg_server_claim_legacy.go and its steps in
      migrate_distribution.go, migrate_staking.go, migrate_auth.go, migrate_bank.go,
      migrate_authz.go, migrate_feegrant.go, migrate_supernode.go, migrate_action.go),
      parameters and genesis.  EvValidator: the migration of a validator
      (msg_server_migrate_validator.go, migrate_validator.go, migrate_validator_scoped.go,
      migrate_validator_finalize.go) and ante.go.  EvThm: what a verified proof says;
      EvRun: authorisation, sequences of migrations, genesis; EvStake, EvRefs, EvAccount:
      where stake, references and coins end up; EvExamples: witnesses.

    ** What the theorems show

    - Registry: each message, hook and keeper call, and each direct write of the audit
      and migration modules, is a transition of a small state machine; in every
      reachable state the account index is exactly the
      set of accounts of the stored records and the histories are well formed; who
      may send what; when a first registration is accepted; that the top
      supernodes of a block are the selected records in order of distance.
    - Rewards: a due payment pays every supernode its part of the pool up to two
      units and never more than the pool, when the bank accepts the payees; the eligibility queries agree with the
      payments; a report that is not a number, or an account that the bank refuses,
      makes the end blocker fail.
    - Actions: each call is a step of the life cycle; the module account always
      covers the fees of the open actions; every index agrees with the records;
      due actions are closed at the end of a block, unless the bank blocks the creator;
      how a fee is split.
    - Merkle proofs: generated proofs verify, full paths bind the chunk at their place, and an
      empty path is accepted for any leaf equal to the root, which forged chunk
      proofs exploit.
    - Audit: epochs partition the heights from epoch zero on; assignments are exact, exclusive and do
      not depend on map order; store keys are injective and range scans return one
      epoch's entries; accepted reports are valid, are stored and indexed, and touch
      nothing else but scores, transcripts and one record; the heal operations keep their invariants in every reachable
      state and end by their deadline; scores stay in range; pruning is invisible
      to the enforcement decisions; only supernodes with
      recorded faults are postponed by storage truth.

    - LegRoast: 2^127 - 1 is prime (Lucas-Lehmer), the residue symbols are the
      mathematical ones and homomorphic, seed trees are recovered from the released
      seeds, and whatever is signed is verified.
    - Claims: when a claim is paid and what changes; a record is paid once; the
      module account covers the unclaimed records from genesis until the end of the
      period, when it is burnt and claims are disabled, whatever the parameter updates;
      a block is limited; delayed
      claims vest for six calendar months per tier; the signature of a claim can be
      used by anyone for a delayed claim.
    - Migrations: a migration that succeeds was signed by both sides for exactly these
      addresses; in every reachable state migrated and new addresses are one to one;
      stake, coins and vesting schedule of a migrated account are at the new address and
      nothing is left at the old one; actions and supernodes name the new address, also
      after the migration of a validator; the records survive genesis.

    ** Bounds and conventions

    float64 operations round each on its own, as on amd64.  Loops over lists are
    structural; the loops that are not have fuel that is
    proved enough (binary search: the length; the levels of a Merkle tree: the
    number of leaves; probing in the assignment: the number of targets).  Error
    texts in events and reasons are abbreviated, sentinels are kept.  A Go map
    iterated by the code is iterated in an order that is an argument of the model,
    or in order of first appearance where the code's result does not depend on it.
    sort.Slice, which is not stable, is an argument where ties matter.  Accounts
    hold neither a slash nor a zero byte.  Strings handled by JSON are valid UTF-8,
    strings.TrimSpace and ToUpper act on ASCII.  Sizes and offsets of LegRoast
    buffers are natural numbers: none of the six parameter sets comes near 2^32.

    ** Not modelled

    Generated protobuf code, CLI, autocli, simulation, module wiring and app
    upgrades have no behaviour of their own.  gRPC queries apart from those that
    the modules call, and genesis import and export other than that of x/claim and
    x/evmigration, only read or write the store; the reachable states of the registry
    and of x/audit start from a genesis that carries parameters only.  Gas, telemetry and logs are left out.
    The key exchange of x/lumeraid, x/erc20policy, the precompiles and the decorators of
    the ante handler are not modelled. *)
From Stdlib Require Import ZArith Lia Ascii.
From stdpp Require Import base numbers strings list gmap sorting pretty.

#[export] Set Default Goal Selector "!".

Declare Scope lumera_scope.
Delimit Scope lumera_scope with lumera.
Open Scope lumera_scope.
Open Scope Z_scope.

(** ** Errors

    Go errors are wrapped sentinels; the model keeps the sentinel and drops the
    formatted message.  [Panic] is a Go run-time panic. *)
Inductive error : Set :=
(* cosmos-sdk types/errors *)
| ErrInvalidRequest
| ErrInvalidAddress
| ErrNotFound
| ErrUnauthorized
| ErrIO
| ErrInsufficientFunds
(* x/supernode/v1/types/errors.go *)
| ErrEmptyIPAddress
| ErrInvalidSuperNodeState
| ErrSupernodeAccountUnspecified
| ErrInvalidSupernodeAddress
(* x/action/v1/types/errors.go; its own invalid-address error has a name here *)
| ErrActionExpired
| ErrInvalidActionType
| ErrActionNotFound
| ErrInvalidMetadata
| ErrInvalidActionState
| ErrInvalidSignature
| ErrInternalError
| ErrInvalidID
| ErrUnauthorizedSN
| ErrInvalidExpiration
| ErrInvalidPrice
| ErrActionInvalidAddress
| ErrFinalizationError
| ErrInvalidFileSize
| ErrInvalidAppPubKey
| ErrWrongProofCount
| ErrWrongChallengeIndex
| ErrInvalidMerkleProof
(* x/audit/v1/types/errors.go *)
| ErrInvalidSigner
| ErrInvalidEpochID
| ErrDuplicateReport
| ErrInvalidPeerObservations
| ErrInvalidPortStatesLength
| ErrReporterNotFound
| ErrInvalidReporterState
| ErrInvalidStorageProofs
| ErrInvalidRecheckEvidence
| ErrHealOpNotFound
| ErrHealOpUnauthorized
| ErrHealOpInvalidState
| ErrHealOpTicketMismatch
| ErrHealVerificationExists
| ErrTicketArtifactMismatch
| ErrInvalidHealVerification
| ErrInvalidHostMetric
| ErrInvalidEvidenceType
| ErrInvalidEvidenceMetadata
| ErrInvalidSubject
| ErrInvalidReporter
| ErrInvalidActionID
(* an error built with fmt.Errorf, or returned by a package outside the repository *)
| ErrOther (msg : string)
| Panic (msg : string).

#[export] Instance error_eq_dec : EqDecision error.
Proof. solve_decision. Defined.

Inductive result (A : Type) : Type :=
| Ok (a : A)
| Err (e : error).
Arguments Ok {A} a.
Arguments Err {A} e.

Definition is_ok {A} (r : result A) : bool :=
  match r with Ok _ => true | Err _ => false end.

(** ** Stateful, fallible code

    A keeper method reads and writes a key-value store, appends to the event
    manager of the context, and returns [(value, error)].  Writes made before
    an error stay visible to a caller that swallows the error, so the state is
    returned on both outcomes; [run_tx] adds the rollback the message router
    performs when a handler fails. *)
Record event := Event { ev_type : string; ev_attrs : list (string * string) }.

Record st (S : Type) := St { store : S; events : list event }.
Arguments St {S} _ _.
Arguments store {S} _.
Arguments events {S} _.

Definition M (S A : Type) : Type := st S → result A * st S.

#[export] Instance M_ret {S} : MRet (M S) := λ A a s, (Ok a, s).
#[export] Instance M_bind {S} : MBind (M S) := λ A B k m s,
  match m s with
  | (Ok a, s') => k a s'
  | (Err e, s') => (Err e, s')
  end.

Section Monad.
Context {S : Type}.

Definition fail {A} (e : error) : M S A := λ s, (Err e, s).
Definition ensure (b : bool) (e : error) : M S unit :=
  if b then mret tt else fail e.
Definition gets {A} (f : S → A) : M S A := λ s, (Ok (f (store s)), s).
Definition modify (f : S → S) : M S unit :=
  λ s, (Ok tt, St (f (store s)) (events s)).
Definition emit (ev : event) : M S unit :=
  λ s, (Ok tt, St (store s) (events s ++ [ev])).
Definition of_option {A} (e : error) (o : option A) : M S A :=
  match o with Some a => mret a | None => fail e end.
Definition of_result {A} (r : result A) : M S A :=
  match r with Ok a => mret a | Err e => fail e end.

(** Run [m], keep its writes, and hand its error to the caller as a value; a
    panic is not an error value and goes through. *)
Definition attempt {A} (m : M S A) : M S (result A) :=
  λ s, match m s with
       | (Err (Panic p), s') => (Err (Panic p), s')
       | (r, s') => (Ok r, s')
       end.

(** Replace the error of [m] (errorsmod.Wrapf with another sentinel). *)
Definition wrap_with (f : error → error) (e : error) : error :=
  match e with Panic p => Panic p | _ => f e end.
Definition map_err {A} (f : error → error) (m : M S A) : M S A :=
  λ s, match m s with (Err e, s') => (Err (wrap_with f e), s') | r => r end.
Definition wrap_err {A} (e : error) (m : M S A) : M S A := map_err (λ _, e) m.

(** Run a program of a component on the part of the state it owns. *)
Definition lift {T A} (get : S → T) (put : T → S → S) (m : T → result A * T) : M S A :=
  λ s, let '(r, t) := m (get (store s)) in (r, St (put t (store s)) (events s)).

(** The same for a program that emits events as well. *)
Definition zoom {T A} (get : S → T) (put : T → S → S) (m : M T A) : M S A :=
  λ s, let '(r, t) := m (St (get (store s)) (events s)) in
       (r, St (put (store t) (store s)) (events t)).

Fixpoint for_each {A} (f : A → M S unit) (l : list A) : M S unit :=
  match l with
  | [] => mret tt
  | x :: l' => _ ← f x; for_each f l'
  end.

Definition run_tx {A} (m : M S A) (s : st S) : result A * st S :=
  match m s with
  | (Ok a, s') => (Ok a, s')
  | (Err e, _) => (Err e, s)
  end.

(** *** Weakest preconditions *)
Definition wp {A} (m : M S A) (s : st S) (Q : result A → st S → Prop) : Prop :=
  Q (m s).1 (m s).2.

Lemma wp_bind {A B} (m : M S A) (k : A → M S B) s Q :
  wp m s (λ r s', match r with Ok a => wp (k a) s' Q | Err e => Q (Err e) s' end) →
  wp (m ≫= k) s Q.
Proof. unfold wp, mbind, M_bind. by destruct (m s) as [[a|e] s']. Qed.

Lemma wp_ret {A} (a : A) s Q : Q (Ok a) s → wp (mret a) s Q.
Proof. done. Qed.
Lemma wp_fail {A} e s (Q : result A → st S → Prop) : Q (Err e) s → wp (fail e) s Q.
Proof. done. Qed.
Lemma wp_gets {A} (f : S → A) s Q : Q (Ok (f (store s))) s → wp (gets f) s Q.
Proof. done. Qed.
Lemma wp_modify f s Q : Q (Ok tt) (St (f (store s)) (events s)) → wp (modify f) s Q.
Proof. done. Qed.
Lemma wp_emit ev s Q : Q (Ok tt) (St (store s) (events s ++ [ev])) → wp (emit ev) s Q.
Proof. done. Qed.
Lemma wp_ensure b e s (Q : result unit → st S → Prop) :
  (b = true → Q (Ok tt) s) → (b = false → Q (Err e) s) → wp (ensure b e) s Q.
Proof. destruct b; unfold wp; simpl; auto. Qed.
Lemma wp_of_option {A} e (o : option A) s Q :
  (∀ a, o = Some a → Q (Ok a) s) → (o = None → Q (Err e) s) → wp (of_option e o) s Q.
Proof. destruct o; unfold wp; simpl; auto. Qed.
Lemma wp_of_result {A} (r : result A) s Q :
  (∀ a, r = Ok a → Q (Ok a) s) → (∀ e, r = Err e → Q (Err e) s) → wp (of_result r) s Q.
Proof. destruct r; unfold wp; simpl; auto. Qed.
Lemma wp_attempt {A} (m : M S A) s Q :
  wp m s (λ r s', match r with Err (Panic p) => Q (Err (Panic p)) s' | _ => Q (Ok r) s' end) →
  wp (attempt m) s Q.
Proof. unfold wp, attempt. destruct (m s) as [[|[]]]; done. Qed.
Lemma wp_map_err {A} f (m : M S A) s Q :
  wp m s (λ r s', Q (match r with Ok a => Ok a | Err e => Err (wrap_with f e) end) s') →
  wp (map_err f m) s Q.
Proof. unfold wp, map_err. by destruct (m s) as [[]]. Qed.
Lemma wp_wrap_err {A} e (m : M S A) s Q :
  wp m s (λ r s', Q (match r with Ok a => Ok a | Err e' => Err (wrap_with (λ _, e) e') end) s') →
  wp (wrap_err e m) s Q.
Proof. apply wp_map_err. Qed.
Lemma wp_mono {A} (m : M S A) s (Q Q' : result A → st S → Prop) :
  wp m s Q → (∀ r s', Q r s' → Q' r s') → wp m s Q'.
Proof. unfold wp. auto. Qed.
Lemma wp_run {A} (m : M S A) s (Q : result A → st S → Prop) r s' :
  wp m s Q → m s = (r, s') → Q r s'.
Proof. unfold wp. intros H E. by rewrite E in H. Qed.

Lemma wp_lift {T A} (get : S → T) put (m : T → result A * T) s Q :
  (∀ r t, m (get (store s)) = (r, t) → Q r (St (put t (store s)) (events s))) →
  wp (lift get put m) s Q.
Proof. unfold wp, lift. destruct (m (get (store s))) as [r t]. intros HQ. by apply HQ. Qed.

(** *** Running a program forwards *)
Lemma bind_ok {A B} (m : M S A) (k : A → M S B) s a s' :
  m s = (Ok a, s') → (m ≫= k) s = k a s'.
Proof. unfold mbind, M_bind. by intros ->. Qed.
Lemma bind_err {A B} (m : M S A) (k : A → M S B) s e s' :
  m s = (Err e, s') → (m ≫= k) s = (Err e, s').
Proof. unfold mbind, M_bind. by intros ->. Qed.
Lemma bind_gets {A B} (f : S → A) (k : A → M S B) s : (gets f ≫= k) s = k (f (store s)) s.
Proof. done. Qed.
Lemma bind_gets_option {A B} (f : S → option A) e a (k : A → M S B) s :
  f (store s) = Some a → ((gets f ≫= of_option e) ≫= k) s = k a s.
Proof. unfold mbind, M_bind, gets. simpl. by intros ->. Qed.
Lemma bind_of_option {A B} e (o : option A) a (k : A → M S B) s :
  o = Some a → (of_option e o ≫= k) s = k a s.
Proof. by intros ->. Qed.
Lemma bind_of_result {A B} (r : result A) a (k : A → M S B) s :
  r = Ok a → (of_result r ≫= k) s = k a s.
Proof. by intros ->. Qed.
Lemma bind_ensure {B} b e (k : unit → M S B) s :
  b = true → (ensure b e ≫= k) s = k tt s.
Proof. by intros ->. Qed.
Lemma bind_modify {B} f (k : unit → M S B) s :
  (modify f ≫= k) s = k tt (St (f (store s)) (events s)).
Proof. done. Qed.
Lemma wrap_err_ok {A} e (m : M S A) s a s' :
  m s = (Ok a, s') → wrap_err e m s = (Ok a, s').
Proof. unfold wrap_err, map_err. by intros ->. Qed.

(** *** Store invariants, kept on success and on failure *)
Definition keeps {A} (I : S → Prop) (m : M S A) : Prop :=
  ∀ s, I (store s) → I (store (m s).2).

Lemma keeps_bind {A B} I (m : M S A) (k : A → M S B) :
  keeps I m → (∀ a, keeps I (k a)) → keeps I (m ≫= k).
Proof.
  intros Hm Hk s HI. unfold mbind, M_bind. specialize (Hm s HI).
  destruct (m s) as [[a|e] s']; simpl in *; [by apply Hk|done].
Qed.
Lemma keeps_ret {A} I (a : A) : keeps I (mret a). Proof. intros s; auto. Qed.
Lemma keeps_fail {A} I e : keeps I (fail e : M S A). Proof. intros s; auto. Qed.
Lemma keeps_gets {A} I (f : S → A) : keeps I (gets f). Proof. intros s; auto. Qed.
Lemma keeps_emit I ev : keeps I (emit ev). Proof. intros s; auto. Qed.
Lemma keeps_ensure I b e : keeps I (ensure b e). Proof. intros s; by destruct b. Qed.
Lemma keeps_of_option {A} I e (o : option A) : keeps I (of_option e o).
Proof. intros s; by destruct o. Qed.
Lemma keeps_of_result {A} I (r : result A) : keeps I (of_result r).
Proof. intros s; by destruct r. Qed.
Lemma keeps_modify I f : (∀ s, I s → I (f s)) → keeps I (modify f).
Proof. intros H s HI. by apply H. Qed.
Lemma keeps_attempt {A} I (m : M S A) : keeps I m → keeps I (attempt m).
Proof. intros H s HI. specialize (H s HI). unfold attempt. destruct (m s) as [[|[]]]; done. Qed.
Lemma keeps_map_err {A} I f (m : M S A) : keeps I m → keeps I (map_err f m).
Proof. intros H s HI. specialize (H s HI). unfold map_err. by destruct (m s) as [[]]. Qed.
Lemma keeps_wrap_err {A} I e (m : M S A) : keeps I m → keeps I (wrap_err e m).
Proof. apply keeps_map_err. Qed.
Lemma keeps_for_each {A} I (f : A → M S unit) l :
  (∀ x, keeps I (f x)) → keeps I (for_each f l).
Proof.
  intros H. induction l as [|x l IH]; simpl; [apply keeps_ret|].
  apply keeps_bind; auto.
Qed.
Lemma keeps_run_tx {A} I (m : M S A) s :
  keeps I m → I (store s) → I (store (run_tx m s).2).
Proof.
  intros H HI. specialize (H s HI). unfold run_tx. by destruct (m s) as [[]].
Qed.

Lemma wp_keeps {A} I (m : M S A) s (Q : result A → st S → Prop) :
  keeps I m → I (store s) → (∀ r s', I (store s') → Q r s') → wp m s Q.
Proof. intros Hm HI HQ. apply HQ, Hm, HI. Qed.
Lemma wp_and {A} (m : M S A) s (Q Q' : result A → st S → Prop) :
  wp m s Q → wp m s Q' → wp m s (λ r s', Q r s' ∧ Q' r s').
Proof. by split. Qed.
Lemma wp_run_tx {A} (m : M S A) s (Q : st S → Prop) :
  wp m s (λ r s', is_ok r = true → Q s') → Q s → Q (run_tx m s).2.
Proof.
  unfold wp, run_tx. destruct (m s) as [[a|e] s']; simpl; auto.
Qed.
End Monad.

Lemma wp_zoom {S T A} (get : S → T) put (m : M T A) (s : st S) Q :
  wp m (St (get (store s)) (events s)) (λ r t, Q r (St (put (store t) (store s)) (events t))) →
  wp (zoom get put m) s Q.
Proof. unfold wp, zoom. by destruct (m _) as [r t]. Qed.

Lemma keeps_zoom {S T A} (I : S → Prop) (J : T → Prop) (get : S → T) put (m : M T A) :
  (∀ x, I x → J (get x)) → (∀ x t, I x → J t → I (put t x)) →
  keeps J m → keeps I (zoom get put m).
Proof.
  intros HJ HI Hm s Hs. unfold zoom.
  specialize (Hm (St (get (store s)) (events s)) (HJ _ Hs)).
  destruct (m _) as [r t]. simpl in *. by apply HI.
Qed.

(** A program of another part of the state keeps what that part does not change. *)
Lemma keeps_zoom_frame {S T A} (I : S → Prop) (get : S → T) put (m : M T A) :
  (∀ x t, I x → I (put t x)) → keeps I (zoom get put m).
Proof. intros HI. apply (keeps_zoom I (λ _, True)); [done|auto|done]. Qed.

(** What the invariant says of a value that was read. *)
Lemma keeps_bind_gets {S A B} I (f : S → A) (k : A → M S B) :
  (∀ x, I x → keeps I (k (f x))) → keeps I (gets f ≫= k).
Proof. intros Hk s Hs. by apply (Hk (store s)). Qed.
Lemma keeps_bind_of_result {S A B} (I : S → Prop) (r : result A) (k : A → M S B) :
  (∀ a, r = Ok a → keeps I (k a)) → keeps I (of_result r ≫= k).
Proof. intros Hk. destruct r; [by apply Hk|]. intros s Hs. done. Qed.
Lemma keeps_bind_ensure {S B} (I : S → Prop) b e (k : unit → M S B) :
  (b = true → keeps I (k tt)) → keeps I (ensure b e ≫= k).
Proof. intros Hk. destruct b; [by apply Hk|]. intros s Hs. done. Qed.

Create HintDb keeps discriminated.
#[export] Hint Resolve keeps_bind keeps_ret keeps_fail keeps_gets keeps_emit
  keeps_ensure keeps_of_option keeps_of_result keeps_attempt keeps_map_err keeps_wrap_err
  keeps_for_each : keeps.

(** Split a program into its commands, for an invariant that each one keeps. *)
Ltac keeps_step :=
  match goal with
  | |- keeps _ (mbind _ _) => apply keeps_bind; [|intros ?]
  | |- keeps _ (mret _) => apply keeps_ret
  | |- keeps _ (fail _) => apply keeps_fail
  | |- keeps _ (gets _) => apply keeps_gets
  | |- keeps _ (emit _) => apply keeps_emit
  | |- keeps _ (ensure _ _) => apply keeps_ensure
  | |- keeps _ (of_option _ _) => apply keeps_of_option
  | |- keeps _ (of_result _) => apply keeps_of_result
  | |- keeps _ (attempt _) => apply keeps_attempt
  | |- keeps _ (map_err _ _) => apply keeps_map_err
  | |- keeps _ (wrap_err _ _) => apply keeps_wrap_err
  | |- keeps _ (for_each _ _) => apply keeps_for_each; intros ?
  | |- keeps _ (match ?x with _ => _ end) => destruct x
  | |- keeps _ _ => solve [auto with keeps]
  end; cbv beta iota zeta.
Ltac keeps_steps := repeat keeps_step.

(** Apply the weakest-precondition rule of the head command. *)
Ltac wp_step :=
  lazymatch goal with
  | |- wp (mbind _ _) _ _ => apply wp_bind
  | |- wp (mret _) _ _ => apply wp_ret
  | |- wp (fail _) _ _ => apply wp_fail
  | |- wp (gets _) _ _ => apply wp_gets
  | |- wp (modify _) _ _ => apply wp_modify
  | |- wp (emit _) _ _ => apply wp_emit
  | |- wp (ensure _ _) _ _ => apply wp_ensure; intros ?
  | |- wp (of_option _ _) _ _ => apply wp_of_option; [intros ? ?|intros ?]
  | |- wp (attempt _) _ _ => apply wp_attempt
  | |- wp (wrap_err _ _) _ _ => apply wp_wrap_err
  | |- wp (map_err _ _) _ _ => apply wp_map_err
  | |- wp (of_result _) _ _ => apply wp_of_result; intros ? ?
  | |- wp (zoom _ _ _) _ _ => apply wp_zoom
  | |- wp (match ?x with _ => _ end) _ _ => destruct x eqn:?
  end; cbv beta iota; cbn [store events fst snd].
Ltac wp_steps := repeat wp_step.

(** ** Machine integers *)
Definition u8 (z : Z) : Z := z mod 2 ^ 8.
Definition u32 (z : Z) : Z := z mod 2 ^ 32.
Definition u64 (z : Z) : Z := z mod 2 ^ 64.
Definition i32 (z : Z) : Z := (z + 2 ^ 31) mod 2 ^ 32 - 2 ^ 31.
Definition i64 (z : Z) : Z := (z + 2 ^ 63) mod 2 ^ 64 - 2 ^ 63.
Definition MaxUint64 : Z := 2 ^ 64 - 1.
Definition MaxInt64 : Z := 2 ^ 63 - 1.

Definition in_u32 (z : Z) : Prop := 0 ≤ z < 2 ^ 32.
Definition in_u64 (z : Z) : Prop := 0 ≤ z < 2 ^ 64.
Definition in_i64 (z : Z) : Prop := - 2 ^ 63 ≤ z < 2 ^ 63.

Lemma u32_small z : in_u32 z → u32 z = z.
Proof. intros. by apply Z.mod_small. Qed.
Lemma u64_small z : in_u64 z → u64 z = z.
Proof. intros. by apply Z.mod_small. Qed.
Lemma i64_small z : in_i64 z → i64 z = z.
Proof. unfold in_i64, i64. intros. rewrite Z.mod_small; lia. Qed.
Lemma u64_range z : in_u64 (u64 z).
Proof. apply Z.mod_pos_bound. lia. Qed.
Lemma u32_range z : in_u32 (u32 z).
Proof. apply Z.mod_pos_bound. lia. Qed.
Lemma i64_range z : in_i64 (i64 z).
Proof. unfold in_i64, i64. pose proof (Z.mod_pos_bound (z + 2 ^ 63) (2 ^ 64)). lia. Qed.

(** strconv.FormatInt(z, 10), and the %d verb. *)
Definition FormatInt (z : Z) : string := pretty z.

(** strings.Join *)
Fixpoint strings_Join (l : list string) (sep : string) : string :=
  match l with
  | [] => ""
  | [s] => s
  | s :: l' => s +:+ sep +:+ strings_Join l' sep
  end%string.

(** ** Byte slices and their order *)
Abbreviation bytes := (list Z) (only parsing).

Fixpoint string_bytes (s : string) : bytes :=
  match s with
  | EmptyString => []
  | String c s' => Z.of_nat (Ascii.nat_of_ascii c) :: string_bytes s'
  end.

Lemma string_bytes_inj : Inj (=) (=) string_bytes.
Proof.
  intros s. induction s as [|c s IH]; intros [|c' s']; simpl; intros E; try done.
  injection E as E1 E2. apply Nat2Z.inj in E1.
  f_equal; [|by apply IH].
  by rewrite <- (Ascii.ascii_nat_embedding c), <- (Ascii.ascii_nat_embedding c'), E1.
Qed.

(** bytes.Compare(a, b) <= 0; Go compares strings the same way. *)
Fixpoint bytes_leb (a b : bytes) : bool :=
  match a, b with
  | [], _ => true
  | _ :: _, [] => false
  | x :: a', y :: b' => (x <? y) || ((x =? y) && bytes_leb a' b')
  end.

Definition bytes_le (a b : bytes) : Prop := bytes_leb a b = true.

#[export] Instance bytes_le_dec : RelDecision bytes_le.
Proof. intros a b. unfold bytes_le. apply _. Defined.

#[export] Instance bytes_le_total : Total bytes_le.
Proof.
  intros a. unfold bytes_le. induction a as [|x a IH]; intros [|y b]; simpl; auto.
  destruct (Z.lt_trichotomy x y) as [H|[->|H]].
  - left. apply orb_true_iff. left. by apply Z.ltb_lt.
  - destruct (IH b) as [H|H]; rewrite H, Z.eqb_refl, orb_true_r; auto.
  - right. apply orb_true_iff. left. by apply Z.ltb_lt.
Qed.

#[export] Instance bytes_le_trans : Transitive bytes_le.
Proof.
  intros a. unfold bytes_le. induction a as [|x a IH]; intros [|y b] [|z c]; simpl; try done.
  rewrite !orb_true_iff, !andb_true_iff, !Z.ltb_lt, !Z.eqb_eq.
  intros [H1|[-> H1]] [H2|[-> H2]]; [left; lia..|right; eauto].
Qed.

#[export] Instance bytes_le_antisym : AntiSymm (=) bytes_le.
Proof.
  intros a. unfold bytes_le. induction a as [|x a IH]; intros [|y b]; simpl; try done.
  rewrite !orb_true_iff, !andb_true_iff, !Z.ltb_lt, !Z.eqb_eq.
  intros [H1|[-> H1]] [H2|[H3 H2]]; try lia. f_equal; auto.
Qed.

#[export] Instance bytes_le_refl : Reflexive bytes_le.
Proof. intros a. destruct (total bytes_le a a); done. Qed.

(** The order of store keys given as strings. *)
Definition string_le (a b : string) : Prop := bytes_le (string_bytes a) (string_bytes b).
#[export] Instance string_le_dec : RelDecision string_le.
Proof. intros a b. unfold string_le. apply _. Defined.

(** A KVStore iterator visits the keys in byte order. *)
Section KvIter.
Context {K V : Type} `{Countable K} (key_bytes : K → bytes).
Definition kv_le (p q : K * V) : Prop := bytes_le (key_bytes p.1) (key_bytes q.1).
#[export] Instance kv_le_dec : RelDecision kv_le.
Proof. intros p q. unfold kv_le. apply _. Defined.
Definition kv_iter (m : gmap K V) : list (K * V) := merge_sort kv_le (map_to_list m).

Lemma kv_iter_perm m : kv_iter m ≡ₚ map_to_list m.
Proof. apply merge_sort_Permutation. Qed.

Lemma elem_of_kv_iter m k v : (k, v) ∈ kv_iter m ↔ m !! k = Some v.
Proof. rewrite kv_iter_perm. apply elem_of_map_to_list. Qed.

Lemma NoDup_kv_iter_keys m : NoDup (kv_iter m).*1.
Proof. rewrite kv_iter_perm. apply NoDup_fst_map_to_list. Qed.

#[local] Instance kv_le_total : Total kv_le.
Proof. intros p q. unfold kv_le. apply (total bytes_le). Qed.
#[local] Instance kv_le_trans : Transitive kv_le.
Proof. intros p q r. unfold kv_le. apply transitivity. Qed.

Lemma kv_iter_sorted m : StronglySorted kv_le (kv_iter m).
Proof. apply (StronglySorted_merge_sort kv_le). Qed.
End KvIter.

(** ** sort.Search

    The binary search of Go's sort package; [n] iterations suffice because every
    iteration shrinks [j - i]. *)
Fixpoint search_loop (fuel : nat) (f : nat → bool) (i j : nat) : nat :=
  match fuel with
  | O => i
  | S fuel' =>
      if (i <? j)%nat then
        let h := ((i + j) / 2)%nat in
        if f h then search_loop fuel' f i h else search_loop fuel' f (S h) j
      else i
  end.
Definition sort_Search (n : nat) (f : nat → bool) : nat := search_loop n f 0 n.

Lemma search_loop_spec fuel f n i j :
  (∀ a b, (a ≤ b)%nat → (b < n)%nat → f a = true → f b = true) →
  (i ≤ j ≤ n)%nat → (j - i ≤ fuel)%nat →
  (∀ k, (k < i)%nat → f k = false) → (∀ k, (j ≤ k < n)%nat → f k = true) →
  let r := search_loop fuel f i j in
  (r ≤ n)%nat ∧ (∀ k, (k < r)%nat → f k = false) ∧ (∀ k, (r ≤ k < n)%nat → f k = true).
Proof.
  intros Hmono. revert i j. induction fuel as [|fuel IH]; intros i j Hij Hf Hlo Hhi; cbn -[Nat.div Nat.ltb].
  - split; [lia|]. split; [done|]. intros k Hk. apply Hhi. lia.
  - destruct (Nat.ltb_spec i j) as [Hlt|Hge].
    + assert (i ≤ (i + j) / 2 < j)%nat as Hh.
      { split; [apply Nat.div_le_lower_bound|apply Nat.Div0.div_lt_upper_bound]; lia. }
      destruct (f ((i + j) / 2)%nat) eqn:Ef.
      * apply IH; [lia|lia|done|]. intros k Hk.
        apply (Hmono ((i + j) / 2)%nat); [lia|lia|done].
      * apply IH; [lia|lia| |done]. intros k Hk.
        destruct (f k) eqn:Ek; [|done].
        rewrite (Hmono k ((i + j) / 2)%nat) in Ef; [done|lia|lia|done].
    + split; [lia|]. split; [done|]. intros k Hk. apply Hhi. lia.
Qed.

Lemma sort_Search_spec n f :
  (∀ a b, (a ≤ b)%nat → (b < n)%nat → f a = true → f b = true) →
  let r := sort_Search n f in
  (r ≤ n)%nat ∧ (∀ k, (k < r)%nat → f k = false) ∧ (∀ k, (r ≤ k < n)%nat → f k = true).
Proof. intros H. apply search_loop_spec; [done|lia..]. Qed.

(** ** Sums over maps *)
Section MapSum.
Context {K A : Type} `{Countable K}.
Implicit Types (m : gmap K A) (f : A → Z).

Definition map_sum f m : Z := map_fold (λ _ a acc, f a + acc) 0 m.

Lemma map_sum_empty f : map_sum f ∅ = 0.
Proof. apply map_fold_empty. Qed.

Lemma map_sum_insert_new f m k a :
  m !! k = None → map_sum f (<[k:=a]> m) = f a + map_sum f m.
Proof.
  intros Hk. unfold map_sum.
  rewrite (map_fold_insert_L (λ _ a acc, f a + acc)); [done|intros; lia|done].
Qed.

Lemma map_sum_delete f m k a :
  m !! k = Some a → map_sum f m = f a + map_sum f (delete k m).
Proof.
  intros Hk. rewrite <- (map_sum_insert_new f (delete k m) k a) by apply lookup_delete_eq.
  by rewrite insert_delete_id.
Qed.

Lemma map_sum_update f m k a b :
  m !! k = Some a → map_sum f (<[k:=b]> m) = map_sum f m - f a + f b.
Proof.
  intros Hk. rewrite <- insert_delete_eq.
  rewrite map_sum_insert_new by apply lookup_delete_eq.
  rewrite (map_sum_delete f m k a Hk). lia.
Qed.

Lemma map_sum_nonneg f m : (∀ k a, m !! k = Some a → 0 ≤ f a) → 0 ≤ map_sum f m.
Proof.
  induction m as [|k a m Hk _ IH] using map_first_key_ind; intros Hf.
  - by rewrite map_sum_empty.
  - rewrite map_sum_insert_new by done.
    assert (0 ≤ f a) by (apply (Hf k); apply lookup_insert_eq).
    enough (0 ≤ map_sum f m) by lia. apply IH. intros k' a' Hk'.
    apply (Hf k'). rewrite lookup_insert_ne; [done|]. intros ->. congruence.
Qed.

Lemma map_sum_lookup_le f m k a :
  (∀ k a, m !! k = Some a → 0 ≤ f a) → m !! k = Some a → f a ≤ map_sum f m.
Proof.
  intros Hf Hk. rewrite (map_sum_delete f m k a Hk).
  enough (0 ≤ map_sum f (delete k m)) by lia.
  apply map_sum_nonneg. intros k' a' [_ Hk']%lookup_delete_Some. by apply (Hf k').
Qed.
End MapSum.

(** ** sort.SliceStable

    A stable sort by a strict order [less]; the result of a stable sort is
    determined by the order, so insertion sort stands for Go's algorithm. *)
Section StableSort.
Context {A : Type} (less : A → A → bool).

Fixpoint insert_stable (x : A) (l : list A) : list A :=
  match l with
  | [] => [x]
  | y :: l' => if less y x then y :: insert_stable x l' else x :: l
  end.
Definition sort_stable (l : list A) : list A := foldr insert_stable [] l.

Lemma insert_stable_perm x l : insert_stable x l ≡ₚ x :: l.
Proof.
  induction l as [|y l IH]; simpl; [done|]. destruct (less y x); [|done].
  rewrite IH. apply Permutation_swap.
Qed.
Lemma sort_stable_perm l : sort_stable l ≡ₚ l.
Proof. induction l as [|x l IH]; simpl; [done|]. by rewrite insert_stable_perm, IH. Qed.

(** No later element is smaller than an earlier one. *)
Definition in_order (x y : A) : Prop := less y x = false.

Hypothesis less_trans : ∀ x y z, less x y = true → less y z = true → less x z = true.
Hypothesis less_irrefl : ∀ x, less x x = false.
Hypothesis in_order_trans : ∀ x y z, in_order x y → in_order y z → in_order x z.

Lemma less_in_order x y : less x y = true → in_order x y.
Proof.
  unfold in_order. intros Hxy. destruct (less y x) eqn:Hyx; [|done].
  pose proof (less_irrefl x) as Hi. by rewrite (less_trans x y x Hxy Hyx) in Hi.
Qed.

Lemma sort_stable_sorted l : StronglySorted in_order (sort_stable l).
Proof.
  induction l as [|x l IH]; simpl; [constructor|].
  induction IH as [|y l' Hs IH' HF]; simpl; [by repeat constructor|].
  destruct (less y x) eqn:Hyx.
  - constructor; [done|]. rewrite insert_stable_perm. constructor; [by apply less_in_order|done].
  - constructor; [by constructor|]. constructor; [done|].
    eapply Forall_impl; [done|]. intros z Hz. by apply in_order_trans with y.
Qed.

(** Where the order is total, the result does not depend on the input order. *)
Lemma sort_stable_unique l1 l2 :
  (∀ x y, x ∈ l1 → y ∈ l1 → in_order x y → in_order y x → x = y) →
  l1 ≡ₚ l2 → sort_stable l1 = sort_stable l2.
Proof.
  intros Hanti Hp.
  assert (sort_stable l1 ≡ₚ sort_stable l2) as Hp' by by rewrite !sort_stable_perm.
  pose proof (sort_stable_sorted l1) as S1. pose proof (sort_stable_sorted l2) as S2.
  assert (∀ x y, x ∈ sort_stable l1 → y ∈ sort_stable l1 → in_order x y → in_order y x → x = y)
    as Ha by (intros x y; rewrite sort_stable_perm; apply Hanti).
  clear Hanti Hp. revert S1 S2 Hp' Ha. generalize (sort_stable l1) (sort_stable l2).
  clear l1 l2. intros l1. induction l1 as [|x l1 IH]; intros l2 S1 S2 Hp Ha.
  - by apply Permutation_nil_l in Hp.
  - destruct l2 as [|y l2]; [by apply Permutation_nil_r in Hp|].
    apply StronglySorted_inv in S1 as [S1 F1], S2 as [S2 F2].
    rewrite Forall_forall in F1, F2.
    assert (x = y) as ->.
    { assert (x ∈ y :: l2) as Hx by (rewrite <- Hp; left).
      assert (y ∈ x :: l1) as Hy by (rewrite Hp; left).
      apply elem_of_cons in Hx as [?|Hx], Hy as [?|Hy]; try done.
      apply Ha; [left|by right|by apply F1|by apply F2]. }
    f_equal. apply IH; [done|done|by apply Permutation_cons_inv in Hp|].
    intros a b Hxa Hxb. by apply Ha; right.
Qed.
End StableSort.

(** ** Small list facts *)
Lemma last_take {A} (l : list A) n : (S n ≤ length l)%nat → last (take (S n) l) = l !! n.
Proof.
  intros Hn. rewrite last_lookup, length_take, Nat.min_l by done.
  apply lookup_take_lt. simpl. lia.
Qed.

Lemma StronglySorted_lookup {A} (R : A → A → Prop) l i j x y :
  StronglySorted R l → l !! i = Some x → l !! j = Some y → (i < j)%nat → R x y.
Proof.
  intros Hs. revert i j. induction Hs as [|z l Hs IH HF]; intros i j Hi Hj Hij; [done|].
  destruct j as [|j]; [lia|]. destruct i as [|i]; simplify_eq/=.
  - rewrite Forall_forall in HF. apply HF. by eapply list_elem_of_lookup_2.
  - eapply IH; [done..|lia].
Qed.

Section Filter.
Context {A : Type} (P : A → Prop) `{∀ x, Decision (P x)}.
Implicit Types l : list A.
Lemma list_filter_all l : (∀ x, x ∈ l → P x) → filter P l = l.
Proof.
  induction l as [|x l IH]; intros HP; [done|]. rewrite filter_cons_True by (apply HP; left).
  f_equal. apply IH. intros y Hy. apply HP. by right.
Qed.
Lemma list_filter_none l : (∀ x, x ∈ l → ¬ P x) → filter P l = [].
Proof.
  induction l as [|x l IH]; intros HP; [done|]. rewrite filter_cons_False by (apply HP; left).
  apply IH. intros y Hy. apply HP. by right.
Qed.
(** A filter that holds exactly on the first [n] elements takes them. *)
Lemma filter_take l n :
  (∀ k x, l !! k = Some x → (k < n)%nat → P x) →
  (∀ k x, l !! k = Some x → (n ≤ k)%nat → ¬ P x) →
  filter P l = take n l.
Proof.
  intros Hlo Hhi. rewrite <- (take_drop n l) at 1. rewrite filter_app.
  rewrite (list_filter_all (take n l)); [rewrite (list_filter_none (drop n l))|].
  - by rewrite app_nil_r.
  - intros x [k Hk]%list_elem_of_lookup_1. rewrite lookup_drop in Hk.
    apply (Hhi _ _ Hk). lia.
  - intros x [k Hk]%list_elem_of_lookup_1. rewrite lookup_take_Some in Hk.
    destruct Hk as [Hk Hlt]. by apply (Hlo k).
Qed.
End Filter.

Lemma elem_of_List_filter {A} (f : A → bool) l x :
  x ∈ List.filter f l ↔ f x = true ∧ x ∈ l.
Proof. rewrite !list_elem_of_In, filter_In. tauto. Qed.

(** The length of a Go slice. *)
Definition zlen {A} (l : list A) : Z := Z.of_nat (length l).

(** ** Trimming and case of strings *)
Definition is_space (c : ascii) : bool :=
  let n := nat_of_ascii c in ((9 <=? n) && (n <=? 13) || (n =? 32))%nat.
Fixpoint trim_left (s : string) : string :=
  match s with
  | String c s' => if is_space c then trim_left s' else s
  | EmptyString => s
  end.
Fixpoint trim_right (s : string) : string :=
  match s with
  | EmptyString => EmptyString
  | String c s' =>
      match trim_right s' with
      | EmptyString => if is_space c then EmptyString else String c EmptyString
      | r => String c r
      end
  end.
(** strings.TrimSpace and strings.ToUpper, on ASCII text. *)
Definition strings_TrimSpace (s : string) : string := trim_right (trim_left s).
Definition upper (c : ascii) : ascii :=
  let n := nat_of_ascii c in
  if ((97 <=? n) && (n <=? 122))%nat then ascii_of_nat (n - 32) else c.
Fixpoint strings_ToUpper (s : string) : string :=
  match s with
  | EmptyString => EmptyString
  | String c s' => String (upper c) (strings_ToUpper s')
  end.
