(* ===== verification/Sdk.v ===== *)
(** * What the modules use of the Cosmos SDK

    The SDK is not part of the repository.  Its address codec, decimal type,
    staking view and bank are interfaces here: a class of operations, and a
    class of the documented laws the theorems rely on.  The last sections give
    one concrete instance of each, which shows that the laws can hold and lets
    the witnesses run. *)
From S2P Require Import Prelude.
From Stdlib Require Import ZArith Lia Ascii.
From stdpp Require Import base numbers strings list gmap.
Open Scope Z_scope.

(** ** Addresses: bech32 text and raw bytes *)
Class SdkAddress := {
  ValAddressFromBech32 : string → option bytes;
  AccAddressFromBech32 : string → option bytes;
  ValAddress_String : bytes → string
}.

Class SdkAddressLaws `{SdkAddress} : Prop := {
  (** the empty string is refused, and so is an empty address *)
  val_decode_empty : ValAddressFromBech32 "" = None;
  acc_decode_empty : AccAddressFromBech32 "" = None;
  val_decode_nonempty s a : ValAddressFromBech32 s = Some a → a ≠ [];
  (** printing the result of a decoding decodes to the same bytes *)
  val_roundtrip s a :
    ValAddressFromBech32 s = Some a → ValAddressFromBech32 (ValAddress_String a) = Some a
}.

(** ** lukechampine.com/blake3 *)
Class Blake3 := { blake3_Sum256 : bytes → bytes }.
Definition is_byte (b : Z) : Prop := 0 ≤ b < 256.
Class Blake3Laws `{Blake3} : Prop := {
  (** a digest is 32 bytes *)
  blake3_length b : length (blake3_Sum256 b) = 32%nat;
  blake3_bytes b : Forall is_byte (blake3_Sum256 b)
}.

(** ** LegacyDec: fixed-point decimals with 18 places *)
Class LegacyDecOps := {
  Dec : Type;
  dec_FromInt : Z → Dec;
  dec_FromStr : string → option Dec;
  dec_IsZero : Dec → bool;
  dec_IsNegative : Dec → bool;
  dec_Equal : Dec → Dec → bool;
  dec_Add : Dec → Dec → Dec;
  dec_Mul : Dec → Dec → Dec;
  dec_TruncateInt : Dec → Z
}.

Definition decPrecision : Z := 10 ^ 18.

Class LegacyDecLaws `{LegacyDecOps} := {
  (** the value of a decimal, in units of 10^-18 *)
  dec_raw : Dec → Z;
  raw_FromInt z : dec_raw (dec_FromInt z) = z * decPrecision;
  raw_IsZero d : dec_IsZero d = true ↔ dec_raw d = 0;
  raw_IsNegative d : dec_IsNegative d = true ↔ dec_raw d < 0;
  raw_Equal d e : dec_Equal d e = true ↔ dec_raw d = dec_raw e;
  raw_Add d e : dec_raw (dec_Add d e) = dec_raw d + dec_raw e;
  (** a product whose exact value has at most 18 places is exact *)
  raw_Mul_exact d e r :
    dec_raw d * dec_raw e = r * decPrecision → dec_raw (dec_Mul d e) = r;
  raw_TruncateInt d : dec_TruncateInt d = Z.quot (dec_raw d) decPrecision
}.

(** ** The staking view of a block *)
Record ValidatorI `{LegacyDecOps} := {
  IsJailed : bool;
  GetDelegatorShares : Dec;
  TokensFromShares : Dec → Dec
}.

Section Context_.
Context `{LegacyDecOps}.

(** [sk_Validator] and [sk_Delegation] return a Go pair [(pointer, error)]; the
    pointer may be nil. *)
Record StakingKeeper := {
  sk_Validator : bytes → result (option ValidatorI);
  sk_Delegation : bytes → bytes → result (option Dec)
}.

(** ** sdk.Context: the block being executed *)
Record Ctx := {
  BlockHeight : Z;
  BlockTime : Z;
  HeaderHash : bytes;
  stakingKeeper : StakingKeeper
}.
End Context_.

(** ** Concrete instances

    An address codec with one-letter prefixes that, like bech32, accepts an
    upper-case spelling of an address as well, and decimals as scaled integers
    with banker's rounding. *)
Fixpoint bytes_string (l : bytes) : string :=
  match l with
  | [] => EmptyString
  | b :: l' => String (Ascii.ascii_of_nat (Z.to_nat b)) (bytes_string l')
  end.

Lemma string_bytes_string s : bytes_string (string_bytes s) = s.
Proof.
  induction s as [|c s IH]; simpl; [done|].
  by rewrite Nat2Z.id, Ascii.ascii_nat_embedding, IH.
Qed.

Module Concrete.

Definition decode_with (lower upper : Ascii.ascii) (s : string) : option bytes :=
  match s with
  | String c (String d r) =>
      if decide (c = lower ∨ c = upper) then Some (string_bytes (String d r)) else None
  | _ => None
  end.

#[export] Instance address : SdkAddress := {
  ValAddressFromBech32 := decode_with "v"%char "V"%char;
  AccAddressFromBech32 := decode_with "a"%char "A"%char;
  ValAddress_String a := String "v"%char (bytes_string a)
}.

#[export] Instance address_laws : SdkAddressLaws.
Proof.
  split; [done..| |].
  - intros [|c [|d r]] a; simpl; try done. case_decide; [|done]. by injection 1 as <-.
  - intros [|c [|d r]] a; simpl; try done. case_decide; [|done]. injection 1 as <-.
    simpl. rewrite Nat2Z.id, Ascii.ascii_nat_embedding, string_bytes_string. done.
Qed.

(** Division by 10^18, rounding half to even, on magnitudes. *)
Definition chop_round (z : Z) : Z :=
  let q := Z.quot (Z.abs z) decPrecision in
  let r := Z.rem (Z.abs z) decPrecision in
  let half := decPrecision / 2 in
  Z.sgn z * (if r <? half then q else
             if half <? r then q + 1 else
             if Z.even q then q else q + 1).

#[export] Instance dec : LegacyDecOps := {
  Dec := Z;
  dec_FromInt z := z * decPrecision;
  dec_FromStr s :=
    if decide (s = "0.000000000000000000") then Some 0 else
    if decide (s = "0.250000000000000000") then Some (decPrecision / 4) else
    if decide (s = "0.750000000000000000") then Some (3 * (decPrecision / 4)) else
    if decide (s = "1.000000000000000000") then Some decPrecision else None;
  dec_IsZero d := d =? 0;
  dec_IsNegative d := d <? 0;
  dec_Equal d e := d =? e;
  dec_Add := Z.add;
  dec_Mul d e := chop_round (d * e);
  dec_TruncateInt d := Z.quot d decPrecision
}.

Lemma chop_round_exact r : chop_round (r * decPrecision) = r.
Proof.
  unfold chop_round. rewrite Z.abs_mul, (Z.abs_eq decPrecision), Z.sgn_mul by done.
  rewrite Z.quot_mul, Z.rem_mul by done. simpl (Z.sgn decPrecision). rewrite Z.mul_1_r.
  simpl. lia.
Qed.

#[export] Instance dec_laws : LegacyDecLaws.
Proof.
  refine (@Build_LegacyDecLaws dec (λ d : Z, d) _ _ _ _ _ _ _).
  - done.
  - intros d. apply Z.eqb_eq.
  - intros d. apply Z.ltb_lt.
  - intros d e. apply Z.eqb_eq.
  - done.
  - intros d e r Hr. simpl in *. rewrite Hr. apply chop_round_exact.
  - done.
Defined.

(** A validator with as many tokens as shares, not jailed, and a staking view in
    which everybody delegates [shares] to everybody. *)
Definition validator : ValidatorI :=
  {| IsJailed := false; GetDelegatorShares := 10 ^ 6 * decPrecision; TokensFromShares d := d |}.
Definition staking (shares : Z) : StakingKeeper :=
  {| sk_Validator _ := Ok (Some validator); sk_Delegation _ _ := Ok (Some (shares : @Dec dec)) |}.
Definition ctx_at (height time : Z) : Ctx :=
  {| BlockHeight := height; BlockTime := time; HeaderHash := [];
     stakingKeeper := staking (500 * decPrecision) |}.

(** A 32-byte checksum in place of BLAKE3. *)
Definition checksum (b : bytes) (i : nat) : Z :=
  foldl (λ acc x, acc * 31 + x * 7 + 1) (Z.of_nat i) b mod 256.
#[export] Instance hash : Blake3 := { blake3_Sum256 b := checksum b <$> seq 0 32 }.
#[export] Instance hash_laws : Blake3Laws.
Proof.
  split; intros b.
  - done.
  - apply Forall_fmap, Forall_true. intros i. by apply Z.mod_pos_bound.
Qed.

End Concrete.
