(* ===== verification/Float.v ===== *)
(** * float64

    Go's float64 arithmetic as the correctly rounded binary64 operations of the
    Standard Library's [SpecFloat]. *)
From Stdlib Require Import ZArith Lia SpecFloat.
From stdpp Require Import base numbers.
From S2P Require Import Prelude.
Open Scope Z_scope.

Abbreviation float64 := spec_float (only parsing).

Definition f64_of_Z (z : Z) : float64 := binary_normalize 53 1024 z 0 false.
Definition f64_add : float64 → float64 → float64 := SFadd 53 1024.
Definition f64_sub : float64 → float64 → float64 := SFsub 53 1024.
Definition f64_mul : float64 → float64 → float64 := SFmul 53 1024.
Definition f64_div : float64 → float64 → float64 := SFdiv 53 1024.
Definition f64_ltb : float64 → float64 → bool := SFltb.
Definition f64_leb : float64 → float64 → bool := SFleb.
Definition f64_eqb : float64 → float64 → bool := SFeqb.
Definition f64_isNaN (f : float64) : bool := match f with S754_nan => true | _ => false end.
Definition f64_isInf (f : float64) : bool := match f with S754_infinity _ => true | _ => false end.

(** The integer part, rounding toward zero; 0 for NaN and infinities. *)
Definition f64_trunc (f : float64) : Z :=
  match f with
  | S754_finite s m e =>
      let a := if 0 <=? e then Zpos m * 2 ^ e else Zpos m / 2 ^ (- e) in
      if s then - a else a
  | _ => 0
  end.

(** time.Duration.Seconds(), and its conversion to int64. *)
Definition Duration_Seconds (d : Z) : float64 :=
  f64_add (f64_of_Z (Z.quot d (10 ^ 9)))
    (f64_div (f64_of_Z (Z.rem d (10 ^ 9))) (f64_of_Z (10 ^ 9))).
Definition Duration_Seconds_int64 (d : Z) : Z := i64 (f64_trunc (Duration_Seconds d)).
