(* ===== verification/SupernodeTypes.v ===== *)
(** * x/supernode/v1/types: the data of the supernode module

    Records and enums of the protobuf types, and [SuperNode.Validate].  A Go
    [float64] is a binary64 number of the Standard Library's [SpecFloat]. *)
From S2P Require Import Prelude Sdk Float.
From Stdlib Require Import ZArith Lia.
From stdpp Require Import base numbers strings list gmap.
Open Scope Z_scope.

Inductive SuperNodeState : Set :=
| SuperNodeStateUnspecified
| SuperNodeStateActive
| SuperNodeStateDisabled
| SuperNodeStateStopped
| SuperNodeStatePenalized
| SuperNodeStatePostponed
| SuperNodeStateStorageFull.

#[export] Instance SuperNodeState_eq_dec : EqDecision SuperNodeState.
Proof. solve_decision. Defined.

Definition SuperNodeState_String (s : SuperNodeState) : string :=
  match s with
  | SuperNodeStateUnspecified => "SUPERNODE_STATE_UNSPECIFIED"
  | SuperNodeStateActive => "SUPERNODE_STATE_ACTIVE"
  | SuperNodeStateDisabled => "SUPERNODE_STATE_DISABLED"
  | SuperNodeStateStopped => "SUPERNODE_STATE_STOPPED"
  | SuperNodeStatePenalized => "SUPERNODE_STATE_PENALIZED"
  | SuperNodeStatePostponed => "SUPERNODE_STATE_POSTPONED"
  | SuperNodeStateStorageFull => "SUPERNODE_STATE_STORAGE_FULL"
  end.

Record SuperNodeStateRecord := StateRecord {
  State : SuperNodeState;
  Height : Z;
  Reason : string
}.

Record Evidence := {
  ev_ReporterAddress : string;
  ev_ValidatorAddress : string;
  ev_ActionId : string;
  ev_EvidenceType : string;
  ev_Description : string;
  ev_Severity : Z;
  ev_Height : Z
}.

Record IPAddressHistory := IPHistory { ip_Address : string; ip_Height : Z }.

Record SupernodeAccountHistory := AccountHistory { ah_Account : string; ah_Height : Z }.

Record MetricsAggregate := {
  agg_Metrics : list (string * float64);
  agg_ReportCount : Z;
  agg_Height : Z
}.

Record SuperNode := mkSuperNode {
  ValidatorAddress : string;
  States : list SuperNodeStateRecord;
  EvidenceList : list Evidence;
  PrevIpAddresses : list IPAddressHistory;
  Note : string;
  AggregateMetrics : option MetricsAggregate;
  SupernodeAccount : string;
  P2PPort : string;
  PrevSupernodeAccounts : list SupernodeAccountHistory
}.

(** Field assignments [sn.F = x]. *)
Definition with_States (sn : SuperNode) (l : list SuperNodeStateRecord) : SuperNode :=
  mkSuperNode (ValidatorAddress sn) l (EvidenceList sn) (PrevIpAddresses sn) (Note sn)
    (AggregateMetrics sn) (SupernodeAccount sn) (P2PPort sn) (PrevSupernodeAccounts sn).
Definition with_PrevIpAddresses (sn : SuperNode) (l : list IPAddressHistory) : SuperNode :=
  mkSuperNode (ValidatorAddress sn) (States sn) (EvidenceList sn) l (Note sn)
    (AggregateMetrics sn) (SupernodeAccount sn) (P2PPort sn) (PrevSupernodeAccounts sn).
Definition with_Note (sn : SuperNode) (n : string) : SuperNode :=
  mkSuperNode (ValidatorAddress sn) (States sn) (EvidenceList sn) (PrevIpAddresses sn) n
    (AggregateMetrics sn) (SupernodeAccount sn) (P2PPort sn) (PrevSupernodeAccounts sn).
Definition with_Account (sn : SuperNode) (a : string) (h : list SupernodeAccountHistory)
    : SuperNode :=
  mkSuperNode (ValidatorAddress sn) (States sn) (EvidenceList sn) (PrevIpAddresses sn) (Note sn)
    (AggregateMetrics sn) a (P2PPort sn) h.
Definition with_P2PPort (sn : SuperNode) (p : string) : SuperNode :=
  mkSuperNode (ValidatorAddress sn) (States sn) (EvidenceList sn) (PrevIpAddresses sn) (Note sn)
    (AggregateMetrics sn) (SupernodeAccount sn) p (PrevSupernodeAccounts sn).

(** [sn.States[len(sn.States)-1].State], when there is one. *)
Definition LastState (sn : SuperNode) : option SuperNodeState := State <$> last (States sn).

Definition DefaultP2PPort : string := "4445".
Definition DefaultVersion : string := "1.0.0".

Section Validate.
Context `{SdkAddress}.

Definition SuperNode_ValidatorAddr (s : SuperNode) : option bytes :=
  ValAddressFromBech32 (ValidatorAddress s).

Definition is_unspecified (r : SuperNodeStateRecord) : bool :=
  bool_decide (State r = SuperNodeStateUnspecified).

(** [Validate] has a pointer receiver and fills in [Note] and [P2PPort]; the
    model returns the receiver as [Validate] leaves it. *)
Definition SuperNode_Validate (s : SuperNode) : result SuperNode :=
  match SuperNode_ValidatorAddr s with
  | None => Err (ErrOther "bech32")
  | Some _ =>
      if decide (SupernodeAccount s = "") then Err ErrSupernodeAccountUnspecified else
      match AccAddressFromBech32 (SupernodeAccount s) with
      | None => Err ErrInvalidSupernodeAddress
      | Some _ =>
          let s := if decide (Note s = "") then with_Note s DefaultVersion else s in
          if decide (States s = []) then Err ErrInvalidSuperNodeState else
          if existsb is_unspecified (States s) then Err ErrInvalidSuperNodeState else
          match PrevIpAddresses s with
          | [] => Err ErrEmptyIPAddress
          | ip :: _ =>
              if decide (ip_Address ip = "") then Err ErrEmptyIPAddress else
              Ok (if decide (P2PPort s = "") then with_P2PPort s DefaultP2PPort else s)
          end
      end
  end.

(** What [Validate] accepts, as a predicate. *)
Definition record_valid (s : SuperNode) : Prop :=
  is_Some (ValAddressFromBech32 (ValidatorAddress s)) ∧
  SupernodeAccount s ≠ "" ∧ is_Some (AccAddressFromBech32 (SupernodeAccount s)) ∧
  States s ≠ [] ∧ Forall (λ r, State r ≠ SuperNodeStateUnspecified) (States s) ∧
  ∃ ip l, PrevIpAddresses s = ip :: l ∧ ip_Address ip ≠ "".

(** The defaults [Validate] fills in. *)
Definition with_defaults (s : SuperNode) : SuperNode :=
  let s := if decide (Note s = "") then with_Note s DefaultVersion else s in
  if decide (P2PPort s = "") then with_P2PPort s DefaultP2PPort else s.

Lemma existsb_unspecified l :
  existsb is_unspecified l = false ↔ Forall (λ r, State r ≠ SuperNodeStateUnspecified) l.
Proof.
  induction l as [|r l IH]; simpl; [by split|].
  rewrite orb_false_iff, Forall_cons, IH. unfold is_unspecified.
  by rewrite bool_decide_eq_false.
Qed.

Lemma SuperNode_Validate_Ok s s' :
  SuperNode_Validate s = Ok s' ↔ record_valid s ∧ s' = with_defaults s.
Proof.
  unfold SuperNode_Validate, SuperNode_ValidatorAddr, record_valid, with_defaults.
  destruct s as [va stl evl ips note agg acct port hist]; simpl.
  destruct (ValAddressFromBech32 va) eqn:?; [|split; [done|by intros [[[? ?] _] _]]].
  destruct (decide (acct = "")); [split; [done|naive_solver]|].
  destruct (AccAddressFromBech32 acct) eqn:?;
    [|split; [done|by intros [(_&_&[? ?]&_) _]]].
  destruct (decide (note = "")); simpl;
    (destruct (decide (stl = [])); [split; [done|naive_solver]|]);
    (destruct (existsb is_unspecified stl) eqn:Eu;
      [split; [done|]; intros [(_&_&_&_&HF&_) _]; apply existsb_unspecified in HF; congruence|]);
    apply existsb_unspecified in Eu;
    (destruct ips as [|ip ips]; [split; [done|naive_solver]|]);
    (destruct (decide (ip_Address ip = "")); [split; [done|naive_solver]|]);
    (split; [injection 1 as <-; split; [|done]; repeat split; eauto|by intros [_ ->]]).
Qed.

Lemma with_defaults_idem s : with_defaults (with_defaults s) = with_defaults s.
Proof.
  unfold with_defaults. destruct s; simpl.
  repeat (case_decide; simpl in *; try done).
Qed.

Lemma with_defaults_fields s :
  ValidatorAddress (with_defaults s) = ValidatorAddress s ∧
  States (with_defaults s) = States s ∧
  SupernodeAccount (with_defaults s) = SupernodeAccount s ∧
  PrevIpAddresses (with_defaults s) = PrevIpAddresses s ∧
  PrevSupernodeAccounts (with_defaults s) = PrevSupernodeAccounts s ∧
  EvidenceList (with_defaults s) = EvidenceList s.
Proof. unfold with_defaults. by repeat case_decide. Qed.

Lemma with_defaults_States s l :
  with_defaults (with_States s l) = with_States (with_defaults s) l.
Proof. unfold with_defaults. destruct s; simpl. by repeat (case_decide; simpl in *). Qed.

(** A record that went through [Validate] validates again, unchanged. *)
Lemma SuperNode_Validate_idem s s' :
  SuperNode_Validate s = Ok s' → SuperNode_Validate s' = Ok s'.
Proof.
  rewrite !SuperNode_Validate_Ok. intros [Hv ->]. rewrite with_defaults_idem. split; [|done].
  unfold record_valid in *.
  by destruct (with_defaults_fields s) as (-> & -> & -> & -> & _).
Qed.
End Validate.
