(* ===== verification/Supernode.v ===== *)
(** * x/supernode/v1/keeper: the supernode registry and its state machine

    The store under the prefixes "sn_" (records), "sna_" (index by account) and
    "snm_" (metrics), the keeper methods of supernode.go and metrics_state.go,
    the staking hooks of hooks.go and the message handlers. *)
From S2P Require Import Prelude Sdk Float SupernodeTypes.
From Stdlib Require Import ZArith Lia.
From stdpp Require Import base numbers strings list gmap.
Open Scope Z_scope.

(** ** State *)

(** The module parameters.  [MinimumStakeForSn] is the amount of the coin. *)
Record RewardDistribution := {
  PaymentPeriodBlocks : Z;
  RegistrationFeeShareBps : Z;
  MinCascadeBytesForPayment : Z;
  NewSnRampUpPeriods : Z;
  MeasurementSmoothingPeriods : Z;
  UsageGrowthCapBpsPerPeriod : Z
}.

Record Params := {
  MinimumStakeForSn : Z;
  MinimumStakeDenom : string;
  ReportingThreshold : Z;
  SlashingThreshold : Z;
  MetricsThresholds : string;
  EvidenceRetentionPeriod : string;
  SlashingFraction : string;
  InactivityPenaltyPeriod : string;
  MetricsUpdateIntervalBlocks : Z;
  MetricsGracePeriodBlocks : Z;
  MetricsFreshnessMaxBlocks : Z;
  MinSupernodeVersion : string;
  MinCpuCores : Z;
  MaxCpuUsagePercent : Z;
  MinMemGb : Z;
  MaxMemUsagePercent : Z;
  MinStorageGb : Z;
  MaxStorageUsagePercent : Z;
  RequiredOpenPorts : list Z;
  RewardDistributionParams : option RewardDistribution
}.

Inductive PortState : Set := PORT_STATE_UNKNOWN | PORT_STATE_OPEN | PORT_STATE_CLOSED.
#[export] Instance PortState_eq_dec : EqDecision PortState.
Proof. solve_decision. Defined.

Record SupernodeMetrics := {
  VersionMajor : Z;
  VersionMinor : Z;
  VersionPatch : Z;
  CpuCoresTotal : float64;
  CpuUsagePercent : float64;
  MemTotalGb : float64;
  MemUsagePercent : float64;
  MemFreeGb : float64;
  DiskTotalGb : float64;
  DiskUsagePercent : float64;
  DiskFreeGb : float64;
  UptimeSeconds : float64;
  PeersCount : Z;
  OpenPorts : list (Z * PortState);
  CascadeKademliaDbBytes : float64
}.

Record SupernodeMetricsState := {
  ms_ValidatorAddress : string;
  ms_Metrics : option SupernodeMetrics;
  ms_ReportCount : Z;
  ms_Height : Z
}.

Record sn_store := SnStore {
  sn_records : gmap bytes SuperNode;
  sn_accounts : gmap string bytes;
  sn_metrics : gmap bytes SupernodeMetricsState;
  sn_params : Params
}.

Definition set_records (f : gmap bytes SuperNode → gmap bytes SuperNode) (s : sn_store)
    : sn_store :=
  SnStore (f (sn_records s)) (sn_accounts s) (sn_metrics s) (sn_params s).
Definition set_accounts (f : gmap string bytes → gmap string bytes) (s : sn_store) : sn_store :=
  SnStore (sn_records s) (f (sn_accounts s)) (sn_metrics s) (sn_params s).
Definition set_metrics
    (f : gmap bytes SupernodeMetricsState → gmap bytes SupernodeMetricsState) (s : sn_store)
    : sn_store :=
  SnStore (sn_records s) (sn_accounts s) (f (sn_metrics s)) (sn_params s).

Definition set_params (p : Params) (s : sn_store) : sn_store :=
  SnStore (sn_records s) (sn_accounts s) (sn_metrics s) p.

(** ** Event types and attribute keys (types/events.go) *)
Definition EventTypeSupernodeRegistered : string := "supernode_registered".
Definition EventTypeSupernodeDeRegistered : string := "supernode_deregistered".
Definition EventTypeSupernodeStarted : string := "supernode_started".
Definition EventTypeSupernodeStopped : string := "supernode_stopped".
Definition EventTypeSupernodeUpdated : string := "supernode_updated".
Definition EventTypeSupernodePostponed : string := "supernode_postponed".
Definition EventTypeSupernodeRecovered : string := "supernode_recovered".
Definition EventTypeSupernodeStorageFull : string := "supernode_storage_full".
Definition EventTypeSupernodeStorageRecovered : string := "supernode_storage_recovered".
Definition AttributeKeyValidatorAddress : string := "validator_address".
Definition AttributeKeyIPAddress : string := "ip_address".
Definition AttributeKeyReason : string := "reason".
Definition AttributeKeyOldAccount : string := "old_account".
Definition AttributeKeyNewAccount : string := "new_account".
Definition AttributeKeySupernodeAccount : string := "supernode_account".
Definition AttributeKeyOldP2PPort : string := "old_p2p_port".
Definition AttributeKeyP2PPort : string := "p2p_port".
Definition AttributeKeyReRegistered : string := "re_registered".
Definition AttributeKeyOldState : string := "old_state".
Definition AttributeKeyOldIPAddress : string := "old_ip_address".
Definition AttributeKeyHeight : string := "height".
Definition AttributeKeyFieldsUpdated : string := "fields_updated".

(** ** Messages *)
Record MsgRegisterSupernode := {
  reg_Creator : string;
  reg_ValidatorAddress : string;
  reg_IpAddress : string;
  reg_SupernodeAccount : string;
  reg_P2PPort : string
}.
Record MsgDeregisterSupernode := { dereg_Creator : string; dereg_ValidatorAddress : string }.
Record MsgStartSupernode := { start_Creator : string; start_ValidatorAddress : string }.
Record MsgStopSupernode := {
  stop_Creator : string;
  stop_ValidatorAddress : string;
  stop_Reason : string
}.
Record MsgUpdateSupernode := {
  upd_Creator : string;
  upd_ValidatorAddress : string;
  upd_IpAddress : string;
  upd_Note : string;
  upd_SupernodeAccount : string;
  upd_P2PPort : string
}.

Definition stringHeight (height : Z) : string := FormatInt height.

Definition stateIn (state : SuperNodeState) (stateFilters : list SuperNodeState) : bool :=
  existsb (λ sf, bool_decide (sf = state)) stateFilters.

Definition shouldFilter (stateFilters : list SuperNodeState) : bool :=
  match stateFilters with
  | [] => false
  | _ => negb (existsb (λ sf, bool_decide (sf = SuperNodeStateUnspecified)) stateFilters)
  end.

Section Keeper.
Context `{SdkAddress} `{LegacyDecOps}.

(** ** supernode.go *)
Definition QuerySuperNode (valOperAddr : bytes) (s : sn_store) : option SuperNode :=
  sn_records s !! valOperAddr.

Definition SetSuperNode (supernode : SuperNode) : M sn_store unit :=
  supernode ← of_result (SuperNode_Validate supernode);
  valOperAddr ← of_option (ErrOther "invalid validator address")
                  (ValAddressFromBech32 (ValidatorAddress supernode));
  existing ← gets (QuerySuperNode valOperAddr);
  _ ← (if decide (SupernodeAccount supernode = "") then mret tt else
        existingVal ← gets (λ s, sn_accounts s !! SupernodeAccount supernode);
        ensure (match existingVal with
                | None => true
                | Some v => bool_decide (v = valOperAddr)
                end) ErrInvalidRequest);
  _ ← modify (set_records <[valOperAddr := supernode]>);
  _ ← (match existing with
       | Some ex =>
           if decide (SupernodeAccount ex ≠ "" ∧ SupernodeAccount ex ≠ SupernodeAccount supernode)
           then modify (set_accounts (delete (SupernodeAccount ex)))
           else mret tt
       | None => mret tt
       end);
  if decide (SupernodeAccount supernode = "") then mret tt
  else modify (set_accounts <[SupernodeAccount supernode := valOperAddr]>).

Definition DeleteSuperNode (valOperAddr : bytes) : M sn_store unit :=
  existing ← gets (QuerySuperNode valOperAddr);
  _ ← (match existing with
       | Some ex => if decide (SupernodeAccount ex = "") then mret tt
                    else modify (set_accounts (delete (SupernodeAccount ex)))
       | None => mret tt
       end);
  modify (set_records (delete valOperAddr)).

Definition GetAllSuperNodes (stateFilters : list SuperNodeState) (s : sn_store)
    : list SuperNode :=
  let filtering := shouldFilter stateFilters in
  List.filter (λ sn,
    match LastState sn with
    | None => false
    | Some st => negb filtering || stateIn st stateFilters
    end) (kv_iter id (sn_records s)).*2.

Definition GetSuperNodeByAccount (supernodeAccount : string) (s : sn_store) : option SuperNode :=
  match sn_accounts s !! supernodeAccount with
  | None => None
  | Some valOperAddr =>
      match QuerySuperNode valOperAddr s with
      | None => None
      | Some sn => if decide (SupernodeAccount sn = supernodeAccount) then Some sn else None
      end
  end.

Definition IsSuperNodeActive (valAddr : bytes) (s : sn_store) : bool :=
  match QuerySuperNode valAddr s with
  | None => false
  | Some sn => bool_decide (LastState sn = Some SuperNodeStateActive)
  end.

Definition VerifyValidatorOperator (valOperAddr : bytes) (creator : string) : result unit :=
  match AccAddressFromBech32 creator with
  | None => Err ErrInvalidAddress
  | Some creatorAddr => if decide (creatorAddr = valOperAddr) then Ok tt else Err ErrUnauthorized
  end.

(** The tokens that [acct] delegates to the validator; zero when the address
    does not parse or there is no delegation. *)
Definition delegatedTokens (ctx : Ctx) (validator : ValidatorI) (valOperAddr : bytes)
    (acct : string) : Z :=
  match AccAddressFromBech32 acct with
  | None => 0
  | Some acc =>
      match sk_Delegation (stakingKeeper ctx) acc valOperAddr with
      | Ok (Some shares) => dec_TruncateInt (TokensFromShares validator shares)
      | _ => 0
      end
  end.

Definition CheckValidatorSupernodeEligibility (ctx : Ctx) (validator : ValidatorI)
    (valAddr supernodeAccount : string) (s : sn_store) : result unit :=
  let minStake := MinimumStakeForSn (sn_params s) in
  match ValAddressFromBech32 valAddr with
  | None => Err ErrInvalidAddress
  | Some valOperatorAddr =>
      match sk_Delegation (stakingKeeper ctx) valOperatorAddr valOperatorAddr with
      | Ok (Some selfShares) =>
          if dec_IsZero (GetDelegatorShares validator) then Err ErrInvalidRequest else
          let selfTokens := dec_TruncateInt (TokensFromShares validator selfShares) in
          let snTokens :=
            if decide (supernodeAccount ≠ "") then
              delegatedTokens ctx validator valOperatorAddr supernodeAccount
            else
              match QuerySuperNode valOperatorAddr s with
              | Some sn =>
                  if decide (SupernodeAccount sn = "") then 0
                  else delegatedTokens ctx validator valOperatorAddr (SupernodeAccount sn)
              | None => 0
              end in
          if selfTokens + snTokens <? minStake then Err ErrInvalidRequest else Ok tt
      | _ => Err ErrInvalidRequest
      end
  end.

Definition IsEligibleAndNotJailedValidator (ctx : Ctx) (valAddr : bytes) (s : sn_store) : bool :=
  match sk_Validator (stakingKeeper ctx) valAddr with
  | Ok (Some validator) =>
      if IsJailed validator then false
      else is_ok (CheckValidatorSupernodeEligibility ctx validator
                    (ValAddress_String valAddr) "" s)
  | _ => false
  end.

(** [append(sn.States, &SuperNodeStateRecord{State: state, Height: ctx.BlockHeight()})] *)
Definition append_state (ctx : Ctx) (sn : SuperNode) (state : SuperNodeState) (reason : string)
    : SuperNode :=
  with_States sn (States sn ++ [StateRecord state (BlockHeight ctx) reason]).

Definition state_event (ctx : Ctx) (ty : string) (sn : SuperNode) (old : SuperNodeState)
    (reason : string) : event :=
  Event ty ([(AttributeKeyValidatorAddress, ValidatorAddress sn);
             (AttributeKeyOldState, SuperNodeState_String old);
             (AttributeKeyHeight, FormatInt (BlockHeight ctx))] ++
            (if decide (reason = "") then [] else [(AttributeKeyReason, reason)])).

Definition SetSuperNodeActive (ctx : Ctx) (valAddr : bytes) (reason : string)
    : M sn_store unit :=
  supernode ← gets (QuerySuperNode valAddr) ≫= of_option ErrNotFound;
  currentState ← of_option ErrInvalidRequest (LastState supernode);
  match currentState with
  | SuperNodeStateStopped =>
      _ ← wrap_err ErrIO
            (SetSuperNode (append_state ctx supernode SuperNodeStateActive ""));
      emit (state_event ctx EventTypeSupernodeStarted supernode currentState reason)
  | _ => mret tt
  end.

Definition SetSuperNodeStopped (ctx : Ctx) (valAddr : bytes) (reason : string)
    : M sn_store unit :=
  supernode ← gets (QuerySuperNode valAddr) ≫= of_option ErrNotFound;
  currentState ← of_option ErrInvalidRequest (LastState supernode);
  if decide (currentState = SuperNodeStateActive) then
    _ ← wrap_err ErrIO
          (SetSuperNode (append_state ctx supernode SuperNodeStateStopped ""));
    emit (state_event ctx EventTypeSupernodeStopped supernode currentState reason)
  else mret tt.

(** ** metrics_store.go *)
Definition SetMetricsState (state : SupernodeMetricsState) : M sn_store unit :=
  valAddr ← of_option (ErrOther "invalid validator address")
              (ValAddressFromBech32 (ms_ValidatorAddress state));
  modify (set_metrics <[valAddr := state]>).

Definition GetMetricsState (valAddr : bytes) (s : sn_store) : option SupernodeMetricsState :=
  sn_metrics s !! valAddr.
Definition DeleteMetricsState (valAddr : bytes) : M sn_store unit :=
  modify (set_metrics (delete valAddr)).

(** ** metrics_state.go: postponement and storage-full transitions *)
Definition markPostponed (ctx : Ctx) (sn : SuperNode) (reason : string) : M sn_store unit :=
  last ← of_option ErrInvalidRequest (LastState sn);
  if decide (last = SuperNodeStatePostponed) then mret tt else
  _ ← SetSuperNode (append_state ctx sn SuperNodeStatePostponed reason);
  emit (Event EventTypeSupernodePostponed
          [(AttributeKeyValidatorAddress, ValidatorAddress sn);
           (AttributeKeyOldState, SuperNodeState_String last);
           (AttributeKeyReason, reason);
           (AttributeKeyHeight, stringHeight (BlockHeight ctx))]).

Definition recovery_target (target : SuperNodeState) : SuperNodeState :=
  if decide (target = SuperNodeStateUnspecified) then SuperNodeStateActive else target.

Definition recoverFromPostponed (ctx : Ctx) (sn : SuperNode) (target : SuperNodeState)
    : M sn_store unit :=
  _ ← SetSuperNode (append_state ctx sn (recovery_target target) "");
  emit (Event EventTypeSupernodeRecovered
          [(AttributeKeyValidatorAddress, ValidatorAddress sn);
           (AttributeKeyOldState, SuperNodeState_String SuperNodeStatePostponed);
           (AttributeKeyHeight, stringHeight (BlockHeight ctx))]).

Definition markStorageFull (ctx : Ctx) (sn : SuperNode) : M sn_store unit :=
  last ← of_option ErrInvalidRequest (LastState sn);
  if decide (last = SuperNodeStateStorageFull) then mret tt else
  _ ← SetSuperNode (append_state ctx sn SuperNodeStateStorageFull "");
  emit (Event EventTypeSupernodeStorageFull
          [(AttributeKeyValidatorAddress, ValidatorAddress sn);
           (AttributeKeyOldState, SuperNodeState_String last);
           (AttributeKeyHeight, stringHeight (BlockHeight ctx))]).

Definition recoverFromStorageFull (ctx : Ctx) (sn : SuperNode) (target : SuperNodeState)
    : M sn_store unit :=
  _ ← SetSuperNode (append_state ctx sn (recovery_target target) "");
  emit (Event EventTypeSupernodeStorageRecovered
          [(AttributeKeyValidatorAddress, ValidatorAddress sn);
           (AttributeKeyOldState, SuperNodeState_String SuperNodeStateStorageFull);
           (AttributeKeyHeight, stringHeight (BlockHeight ctx))]).

Definition SetSuperNodePostponed (ctx : Ctx) (valAddr : bytes) (reason : string)
    : M sn_store unit :=
  supernode ← gets (QuerySuperNode valAddr) ≫= of_option ErrNotFound;
  markPostponed ctx supernode reason.

Definition RecoverSuperNodeFromPostponed (ctx : Ctx) (valAddr : bytes) : M sn_store unit :=
  supernode ← gets (QuerySuperNode valAddr) ≫= of_option ErrNotFound;
  last ← of_option ErrInvalidRequest (LastState supernode);
  if decide (last = SuperNodeStatePostponed)
  then recoverFromPostponed ctx supernode SuperNodeStateActive
  else mret tt.

Definition MarkSuperNodeStorageFull (ctx : Ctx) (valAddr : bytes) : M sn_store unit :=
  supernode ← gets (QuerySuperNode valAddr) ≫= of_option ErrNotFound;
  markStorageFull ctx supernode.
End Keeper.
