(* ===== verification/SupernodeMsg.v ===== *)
(** * x/supernode/v1/keeper: staking hooks and message handlers

    hooks.go and the msg_server_*.go handlers of the operator messages, on top
    of the registry of [Supernode]. *)
From S2P Require Import Prelude Sdk SupernodeTypes Supernode.
From Stdlib Require Import ZArith Lia.
From stdpp Require Import base numbers strings list gmap.
Open Scope Z_scope.

Section Handlers.
Context `{SdkAddress} `{LegacyDecOps}.

(** ** hooks.go *)
Definition AfterValidatorBonded (ctx : Ctx) (valAddr : bytes) : M sn_store unit :=
  found ← gets (QuerySuperNode valAddr);
  match found with
  | None => mret tt
  | Some _ =>
      eligible ← gets (IsEligibleAndNotJailedValidator ctx valAddr);
      active ← gets (IsSuperNodeActive valAddr);
      if (eligible : bool) then
        if (active : bool) then mret tt
        else SetSuperNodeActive ctx valAddr "validator_bonded_eligible"
      else
        if (active : bool)
        then SetSuperNodeStopped ctx valAddr "validator_bonded_not_eligible"
        else mret tt
  end.

Definition AfterValidatorBeginUnbonding (ctx : Ctx) (valAddr : bytes) : M sn_store unit :=
  found ← gets (QuerySuperNode valAddr);
  match found with
  | None => mret tt
  | Some _ =>
      active ← gets (IsSuperNodeActive valAddr);
      eligible ← gets (IsEligibleAndNotJailedValidator ctx valAddr);
      if ((active : bool) && negb eligible)%bool
      then SetSuperNodeStopped ctx valAddr "validator_begin_unbonding"
      else mret tt
  end.

Definition AfterDelegationModified (ctx : Ctx) (valAddr : bytes) : M sn_store unit :=
  found ← gets (QuerySuperNode valAddr);
  match found with
  | None => mret tt
  | Some _ =>
      eligible ← gets (IsEligibleAndNotJailedValidator ctx valAddr);
      active ← gets (IsSuperNodeActive valAddr);
      if (eligible : bool) then
        if (active : bool) then mret tt
        else SetSuperNodeActive ctx valAddr "delegation_modified_eligible"
      else
        if (active : bool)
        then SetSuperNodeStopped ctx valAddr "delegation_modified_not_eligible"
        else mret tt
  end.

Definition AfterValidatorRemoved (ctx : Ctx) (valAddr : bytes) : M sn_store unit :=
  found ← gets (QuerySuperNode valAddr);
  match found with
  | None => mret tt
  | Some _ =>
      active ← gets (IsSuperNodeActive valAddr);
      if (active : bool) then SetSuperNodeStopped ctx valAddr "validator_removed" else mret tt
  end.

(** ** msg_server_register_supernode.go *)

(** [Validator(ctx, valOperAddr)], [err] turned into not-found; a nil validator
    without an error makes the next method call panic. *)
Definition get_validator (ctx : Ctx) (valOperAddr : bytes) : M sn_store ValidatorI :=
  match sk_Validator (stakingKeeper ctx) valOperAddr with
  | Err _ => fail ErrNotFound
  | Ok None => fail (Panic "nil validator")
  | Ok (Some v) => mret v
  end.

Definition currentIP (sn : SuperNode) : string :=
  match last (PrevIpAddresses sn) with None => "" | Some ip => ip_Address ip end.

Definition RegisterSupernode (ctx : Ctx) (msg : MsgRegisterSupernode) : M sn_store unit :=
  valOperAddr ← of_option ErrInvalidAddress (ValAddressFromBech32 (reg_ValidatorAddress msg));
  _ ← of_result (VerifyValidatorOperator valOperAddr (reg_Creator msg));
  found ← gets (QuerySuperNode valOperAddr);
  match found with
  | Some existing =>
      if decide (LastState existing = Some SuperNodeStateDisabled) then
        validator ← get_validator ctx valOperAddr;
        _ ← ensure (negb (IsJailed validator)) ErrInvalidRequest;
        _ ← gets (CheckValidatorSupernodeEligibility ctx validator (reg_ValidatorAddress msg)
                    (SupernodeAccount existing)) ≫= of_result;
        let updated := append_state ctx existing SuperNodeStateActive "" in
        _ ← wrap_err ErrIO (SetSuperNode updated);
        emit (Event EventTypeSupernodeRegistered
                [(AttributeKeyValidatorAddress, reg_ValidatorAddress msg);
                 (AttributeKeyIPAddress, currentIP updated);
                 (AttributeKeySupernodeAccount, SupernodeAccount updated);
                 (AttributeKeyReRegistered, "true"%string);
                 (AttributeKeyOldState, SuperNodeState_String SuperNodeStateDisabled);
                 (AttributeKeyP2PPort, P2PPort updated);
                 (AttributeKeyHeight, FormatInt (BlockHeight ctx))])
      else fail ErrInvalidRequest
  | None =>
      validator ← get_validator ctx valOperAddr;
      _ ← ensure (negb (IsJailed validator)) ErrInvalidRequest;
      _ ← gets (CheckValidatorSupernodeEligibility ctx validator (reg_ValidatorAddress msg)
                  (reg_SupernodeAccount msg)) ≫= of_result;
      let supernode :=
        mkSuperNode (reg_ValidatorAddress msg)
          [StateRecord SuperNodeStateActive (BlockHeight ctx) ""] []
          [IPHistory (reg_IpAddress msg) (BlockHeight ctx)] "" None
          (reg_SupernodeAccount msg) (reg_P2PPort msg)
          [AccountHistory (reg_SupernodeAccount msg) (BlockHeight ctx)] in
      supernode ← of_result (SuperNode_Validate supernode);
      _ ← wrap_err ErrIO (SetSuperNode supernode);
      emit (Event EventTypeSupernodeRegistered
              [(AttributeKeyValidatorAddress, reg_ValidatorAddress msg);
               (AttributeKeyIPAddress, reg_IpAddress msg);
               (AttributeKeySupernodeAccount, reg_SupernodeAccount msg);
               (AttributeKeyP2PPort, reg_P2PPort msg);
               (AttributeKeyHeight, FormatInt (BlockHeight ctx))])
  end.

(** ** msg_server_deregister_supernode.go *)
Definition DeregisterSupernode (ctx : Ctx) (msg : MsgDeregisterSupernode) : M sn_store unit :=
  valOperAddr ← of_option ErrInvalidAddress (ValAddressFromBech32 (dereg_ValidatorAddress msg));
  _ ← of_result (VerifyValidatorOperator valOperAddr (dereg_Creator msg));
  supernode ← gets (QuerySuperNode valOperAddr) ≫= of_option ErrNotFound;
  prevState ← of_option ErrInvalidRequest (LastState supernode);
  _ ← SetSuperNode (if decide (prevState = SuperNodeStateDisabled) then supernode
                    else append_state ctx supernode SuperNodeStateDisabled "");
  emit (Event EventTypeSupernodeDeRegistered
          [(AttributeKeyValidatorAddress, dereg_ValidatorAddress msg);
           (AttributeKeyOldState, SuperNodeState_String prevState);
           (AttributeKeyHeight, FormatInt (BlockHeight ctx))]).

(** ** msg_server_start_supernode.go *)
Definition StartSupernode (ctx : Ctx) (msg : MsgStartSupernode) : M sn_store unit :=
  valOperAddr ← of_option ErrInvalidAddress (ValAddressFromBech32 (start_ValidatorAddress msg));
  supernode ← gets (QuerySuperNode valOperAddr) ≫= of_option ErrNotFound;
  _ ← of_result (VerifyValidatorOperator valOperAddr (start_Creator msg));
  currentState ← of_option ErrInvalidRequest (LastState supernode);
  match currentState with
  | SuperNodeStateStopped =>
      _ ← SetSuperNode (append_state ctx supernode SuperNodeStateActive "");
      emit (Event EventTypeSupernodeStarted
              [(AttributeKeyValidatorAddress, start_ValidatorAddress msg);
               (AttributeKeyOldState, SuperNodeState_String currentState);
               (AttributeKeyHeight, FormatInt (BlockHeight ctx));
               (AttributeKeyReason, "tx_start"%string)])
  | _ => fail ErrInvalidRequest
  end.

(** ** msg_server_stop_supernode.go *)
Definition StopSupernode (ctx : Ctx) (msg : MsgStopSupernode) : M sn_store unit :=
  valOperAddr ← of_option ErrInvalidAddress (ValAddressFromBech32 (stop_ValidatorAddress msg));
  supernode ← gets (QuerySuperNode valOperAddr) ≫= of_option ErrNotFound;
  _ ← of_result (VerifyValidatorOperator valOperAddr (stop_Creator msg));
  prevState ← of_option ErrInvalidRequest (LastState supernode);
  match prevState with
  | SuperNodeStateStopped | SuperNodeStateDisabled => fail ErrInvalidRequest
  | _ =>
      _ ← SetSuperNode (append_state ctx supernode SuperNodeStateStopped "");
      emit (Event EventTypeSupernodeStopped
              [(AttributeKeyValidatorAddress, stop_ValidatorAddress msg);
               (AttributeKeyReason, stop_Reason msg);
               (AttributeKeyOldState, SuperNodeState_String prevState);
               (AttributeKeyHeight, FormatInt (BlockHeight ctx))])
  end.

(** ** msg_server_update_supernode.go *)

(** The field updates, before the record is saved; the booleans are the
    [changed*] variables. *)
Definition update_ip (ctx : Ctx) (msg : MsgUpdateSupernode) (sn : SuperNode) : SuperNode * bool :=
  if decide (upd_IpAddress msg ≠ "" ∧ currentIP sn ≠ upd_IpAddress msg)
  then (with_PrevIpAddresses sn
          (PrevIpAddresses sn ++ [IPHistory (upd_IpAddress msg) (BlockHeight ctx)]), true)
  else (sn, false).

Definition update_account (ctx : Ctx) (msg : MsgUpdateSupernode) (sn : SuperNode)
    : SuperNode * bool :=
  if decide (upd_SupernodeAccount msg ≠ "" ∧ SupernodeAccount sn ≠ upd_SupernodeAccount msg)
  then
    let hist := PrevSupernodeAccounts sn in
    let same := match last hist with
                | None => false
                | Some h => bool_decide (ah_Account h = upd_SupernodeAccount msg)
                end in
    (with_Account sn (upd_SupernodeAccount msg)
       (if same then hist
        else hist ++ [AccountHistory (upd_SupernodeAccount msg) (BlockHeight ctx)]), true)
  else (sn, false).

Definition update_note (msg : MsgUpdateSupernode) (sn : SuperNode) : SuperNode * bool :=
  if decide (upd_Note msg ≠ "" ∧ Note sn ≠ upd_Note msg)
  then (with_Note sn (upd_Note msg), true) else (sn, false).

Definition update_p2p (msg : MsgUpdateSupernode) (sn : SuperNode) : SuperNode * bool :=
  if decide (upd_P2PPort msg ≠ "" ∧ P2PPort sn ≠ upd_P2PPort msg)
  then (with_P2PPort sn (upd_P2PPort msg), true) else (sn, false).

Definition update_event (ctx : Ctx) (msg : MsgUpdateSupernode) (old new : SuperNode)
    (changedIP changedAccount changedNote changedP2P : bool) : event :=
  let fieldsUpdated :=
    (if changedIP then [AttributeKeyIPAddress] else []) ++
    (if changedAccount then [AttributeKeySupernodeAccount] else []) ++
    (if changedNote then ["note"%string] else []) ++
    (if changedP2P then [AttributeKeyP2PPort] else []) in
  Event EventTypeSupernodeUpdated
    ([(AttributeKeyValidatorAddress, upd_ValidatorAddress msg);
      (AttributeKeyFieldsUpdated, strings_Join fieldsUpdated ",");
      (AttributeKeyHeight, FormatInt (BlockHeight ctx))] ++
     (if changedAccount
      then [(AttributeKeyOldAccount, SupernodeAccount old);
            (AttributeKeyNewAccount, upd_SupernodeAccount msg)] else []) ++
     (if changedP2P
      then [(AttributeKeyOldP2PPort, P2PPort old); (AttributeKeyP2PPort, P2PPort new)] else []) ++
     (if changedIP
      then [(AttributeKeyOldIPAddress, currentIP old);
            (AttributeKeyIPAddress, upd_IpAddress msg)] else [])).

Definition UpdateSupernode (ctx : Ctx) (msg : MsgUpdateSupernode) : M sn_store unit :=
  valOperAddr ← of_option ErrInvalidAddress (ValAddressFromBech32 (upd_ValidatorAddress msg));
  supernode ← gets (QuerySuperNode valOperAddr) ≫= of_option ErrNotFound;
  _ ← of_result (VerifyValidatorOperator valOperAddr (upd_Creator msg));
  let '(sn1, changedIP) := update_ip ctx msg supernode in
  _ ← (if decide (upd_SupernodeAccount msg = "") then mret tt else
        _ ← of_option ErrInvalidAddress (AccAddressFromBech32 (upd_SupernodeAccount msg));
        mret tt);
  let '(sn2, changedAccount) := update_account ctx msg sn1 in
  let '(sn3, changedNote) := update_note msg sn2 in
  let '(sn4, changedP2P) := update_p2p msg sn3 in
  _ ← SetSuperNode sn4;
  emit (update_event ctx msg supernode sn4 changedIP changedAccount changedNote changedP2P).
End Handlers.
