(* ===== verification/FloatFmt.v ===== *)
(** * Rounding and printing float64

    The rounding error of a sum of non-negative numbers, and the shortest decimal
    that strconv.FormatFloat prints. *)
From Stdlib Require Import ZArith Lia Ascii SpecFloat.
From stdpp Require Import base numbers strings list pretty.
From S2P Require Import Prelude Float.
Open Scope Z_scope.

(** ** strconv.FormatFloat *)

(** [compare_dec m k x e] compares m * 10^k with x * 2^e. *)
Definition compare_dec (m k x e : Z) : comparison :=
  (m * 10 ^ Z.max k 0 * 2 ^ Z.max (- e) 0) ?= (x * 2 ^ Z.max e 0 * 10 ^ Z.max (- k) 0).

(** The decimals that round to M * 2^e: from 4M - 1 or 4M - 2 to 4M + 2 in units of
    2^(e-2), the ends included for an even mantissa. *)
Definition rounds_to (M e m k : Z) : bool :=
  let low := if (M =? 2 ^ 52) && (-1074 <? e) then 4 * M - 1 else 4 * M - 2 in
  let above c := match c with Gt => true | Eq => Z.even M | Lt => false end in
  above (compare_dec m k low (e - 2)) &&
  above (CompOpp (compare_dec m k (4 * M + 2) (e - 2))).

(** The multiple of 10^k that rounds to M * 2^e and is nearest to it. *)
Definition nearest_multiple (M e k : Z) : option Z :=
  let num := M * 2 ^ Z.max e 0 * 10 ^ Z.max (- k) 0 in
  let den := 2 ^ Z.max (- e) 0 * 10 ^ Z.max k 0 in
  let m := num / den in
  match rounds_to M e m k, rounds_to M e (m + 1) k with
  | true, true => Some (if 2 * (num mod den) <=? den then m else m + 1)
  | true, false => Some m
  | false, true => Some (m + 1)
  | false, false => None
  end.

(** The largest k with such a multiple gives the fewest digits.  Seventeen digits
    are always enough; the exact value closes the recursion. *)
Fixpoint shortest_from (fuel : nat) (M e k : Z) : Z * Z :=
  match fuel with
  | O => if 0 <=? e then (M * 2 ^ e, 0) else (M * 5 ^ (- e), e)
  | S fuel' =>
      match nearest_multiple M e k with
      | Some m => (m, k)
      | None => shortest_from fuel' M e (k - 1)
      end
  end.

(** The number with the mantissa and exponent of its 64 bits. *)
Definition canonical (f : float64) : float64 :=
  match f with
  | S754_finite s m e => binary_normalize 53 1024 (if s then Zneg m else Zpos m) e s
  | _ => f
  end.

(** The shortest decimal m * 10^k of a non-negative finite number. *)
Definition shortest (f : float64) : Z * Z :=
  match canonical f with
  | S754_finite _ m e =>
      shortest_from 400 (Zpos m) e ((Z.log2 (Zpos m) + e) * 30103 / 100000 + 2)
  | _ => (0, 0)
  end.

Fixpoint zeros (n : nat) : string :=
  match n with O => "" | S n' => String "0"%char (zeros n') end.
Definition pad_left (n : nat) (s : string) : string := (zeros (n - String.length s) +:+ s)%string.

(** The text of m * 10^k without an exponent. *)
Definition decimal_text (m k : Z) : string :=
  if 0 <=? k then FormatInt (m * 10 ^ k)
  else (FormatInt (m / 10 ^ (- k)) +:+ "." +:+ pad_left (Z.to_nat (- k)) (FormatInt (m mod 10 ^ (- k))))%string.

(** FormatFloat(f, 'f', -1, 64) of a non-negative finite number *)
Definition FormatFloat_shortest (f : float64) : string :=
  let '(m, k) := shortest f in decimal_text m k.

(** FormatFloat(f, 'f', 0, 64): the nearest integer, ties to even *)
Definition round_even (m e : Z) : Z :=
  if 0 <=? e then m * 2 ^ e else
  let q := m / 2 ^ (- e) in
  let r := 2 * (m mod 2 ^ (- e)) in
  if (2 ^ (- e) <? r) || ((r =? 2 ^ (- e)) && Z.odd q) then q + 1 else q.
Definition FormatFloat_int (f : float64) : string :=
  match f with
  | S754_nan => "NaN"
  | S754_infinity s => if s then "-Inf" else "+Inf"
  | S754_zero s => if s then "-0" else "0"
  | S754_finite s m e => ((if s then "-" else "") +:+ FormatInt (round_even (Zpos m) e))%string
  end.
(** %.2f: two decimals, ties to even *)
Definition FormatFloat_2 (f : float64) : string :=
  match f with
  | S754_nan => "NaN"
  | S754_infinity s => if s then "-Inf" else "+Inf"
  | S754_zero s => if s then "-0.00" else "0.00"
  | S754_finite s m e => ((if s then "-" else "") +:+ decimal_text (round_even (100 * Zpos m) e) (-2))%string
  end.

(** ** Rounding *)
Lemma digits_log2 p : Zpos (digits2_pos p) = Z.log2 (Zpos p) + 1.
Proof.
  induction p as [p IH|p IH|]; cbn [digits2_pos]; [| |done]; rewrite Pos2Z.inj_succ, IH.
  - rewrite (Pos2Z.inj_xI p), Z.log2_succ_double by lia. lia.
  - rewrite (Pos2Z.inj_xO p), Z.log2_double by lia. lia.
Qed.
Lemma digits_bounds m : 0 < m → 2 ^ (Zdigits2 m - 1) ≤ m < 2 ^ Zdigits2 m.
Proof.
  intros Hm. destruct m as [|p|p]; [lia| |lia]. cbn [Zdigits2]. rewrite digits_log2.
  pose proof (Z.log2_spec (Zpos p) Hm) as Hl. unfold Z.succ in Hl.
  replace (Z.log2 (Zpos p) + 1 - 1) with (Z.log2 (Zpos p)) by lia. lia.
Qed.
Lemma digits_nonneg m : 0 ≤ Zdigits2 m.
Proof. destruct m; cbn [Zdigits2]; lia. Qed.

Lemma iter_pos_nat {A} (f : A → A) p x : SpecFloat.iter_pos f p x = Nat.iter (Pos.to_nat p) f x.
Proof.
  revert x. induction p as [p IH|p IH|]; intros x; cbn [SpecFloat.iter_pos]; [| |done]; rewrite !IH.
  - rewrite Pos2Nat.inj_xI, <-Nat.iter_succ_r, <-Nat.iter_add. f_equal. lia.
  - rewrite Pos2Nat.inj_xO. replace (2 * Pos.to_nat p)%nat with (Pos.to_nat p + Pos.to_nat p)%nat by lia.
    by rewrite Nat.iter_add.
Qed.

(** What a record says of the number m0 after a shift by n. *)
Definition shifted (m0 : Z) (n : nat) (r : shr_record) : Prop :=
  0 ≤ shr_m r ∧ ∃ rest, 0 ≤ rest < 2 ^ Z.of_nat n ∧ m0 = shr_m r * 2 ^ Z.of_nat n + rest ∧
  match shr_r r, shr_s r with
  | false, false => rest = 0
  | false, true => 0 < 2 * rest < 2 ^ Z.of_nat n
  | true, false => 2 * rest = 2 ^ Z.of_nat n
  | true, true => 2 ^ Z.of_nat n < 2 * rest
  end.
Lemma shifted_step m0 n r : shifted m0 n r → shifted m0 (S n) (shr_1 r).
Proof.
  destruct r as [m r s]. intros (Hm & rest & Hr & E & Hloc). cbn [shr_m shr_r shr_s] in *.
  assert (2 ^ Z.of_nat (S n) = 2 * 2 ^ Z.of_nat n) as Hpow.
  { rewrite Nat2Z.inj_succ, Z.pow_succ_r by lia. done. }
  set (w := 2 ^ Z.of_nat n) in *. unfold shifted. rewrite Hpow.
  assert (∃ b : bool, m = 2 * shr_m (shr_1 (Build_shr_record m r s)) + Z.b2z b ∧
    shr_r (shr_1 (Build_shr_record m r s)) = b ∧ shr_s (shr_1 (Build_shr_record m r s)) = orb r s ∧
    0 ≤ shr_m (shr_1 (Build_shr_record m r s))) as (b & Em & -> & -> & H0).
  { destruct m as [|[p|p|]|]; [by exists false| | | |lia]; cbn [shr_1 shr_m shr_r shr_s].
    - exists true. split_and!; [simpl; lia|done|done|lia].
    - exists false. split_and!; [simpl; lia|done|done|lia].
    - by exists true. }
  set (m' := shr_m _) in *. clearbody m' w. subst m. split; [done|].
  exists (Z.b2z b * w + rest). destruct b; cbn [Z.b2z] in *; destruct r, s; cbn [orb]; nia.
Qed.
Lemma shifted_iter m n : 0 ≤ m → shifted m n (Nat.iter n shr_1 (Build_shr_record m false false)).
Proof.
  intros Hm. induction n as [|n IH]; cbn [Nat.iter]; [|by apply shifted_step].
  split; [done|]. exists 0. cbn. lia.
Qed.

Lemma shifted_round m0 n r :
  shifted m0 n r →
  let q := round_nearest_even (shr_m r) (loc_of_shr_record r) in
  0 ≤ q ∧ 2 * Z.abs (q * 2 ^ Z.of_nat n - m0) ≤ 2 ^ Z.of_nat n ∧ (q = shr_m r ∨ q = shr_m r + 1).
Proof.
  destruct r as [m r s]. intros (Hm & rest & Hr & E & Hloc) q. cbn [shr_m shr_r shr_s] in *.
  set (w := 2 ^ Z.of_nat n) in *. clearbody w.
  assert (q = m ∨ q = m + 1) as Hq.
  { unfold q. destruct r, s; cbn; try lia. destruct (Z.even m); lia. }
  split; [lia|split; [|done]]. unfold q.
  destruct r, s; cbn [loc_of_shr_record round_nearest_even shr_m].
  - replace ((m + 1) * w - m0) with (w - rest) by lia. lia.
  - destruct (Z.even m).
    + replace (m * w - m0) with (- rest) by lia. lia.
    + replace ((m + 1) * w - m0) with (w - rest) by lia. lia.
  - replace (m * w - m0) with (- rest) by lia. lia.
  - replace (m * w - m0) with (- rest) by lia. lia.
Qed.

(** The shift that rounding makes: by n bits if n is positive. *)
Lemma shr_fexp_exact m e :
  0 ≤ m →
  let n := Z.max 0 (fexp 53 1024 (Zdigits2 m + e) - e) in
  ∃ r, shr_fexp 53 1024 m e loc_Exact = (r, e + n) ∧ shifted m (Z.to_nat n) r.
Proof.
  intros Hm n. unfold shr_fexp, shr, shr_record_of_loc, n.
  destruct (fexp 53 1024 (Zdigits2 m + e) - e) as [|p|p] eqn:En.
  - eexists. split; [f_equal; lia|]. apply (shifted_iter m 0 Hm).
  - eexists. split; [f_equal; lia|]. rewrite iter_pos_nat.
    replace (Z.to_nat (Z.max 0 (Zpos p))) with (Pos.to_nat p) by lia. by apply shifted_iter.
  - eexists. split; [f_equal; lia|]. apply (shifted_iter m 0 Hm).
Qed.

(** ** Values

    The value of a non-negative number in units of 2^-1074. *)
Definition fval (f : float64) : Z :=
  match f with S754_finite false m e => Zpos m * 2 ^ (e + 1074) | _ => 0 end.
Definition nonneg_finite (f : float64) : Prop :=
  match f with
  | S754_zero _ => True
  | S754_finite false _ e => -1074 ≤ e
  | _ => False
  end.
(** A rounding of v: the relative error is at most 2^-53. *)
Definition near (v r : Z) : Prop := 2 ^ 53 * Z.abs (r - v) ≤ v.

(** [f] is a rounding of the positive v, or overflows. *)
Definition rounded (v : Z) (f : float64) : Prop :=
  match f with
  | S754_finite false m e =>
      -1074 ≤ e ∧ (2 ^ 52 ≤ Zpos m ∨ e = -1074) ∧ Zpos m < 2 ^ 53 ∧ near v (fval f)
  | S754_infinity false => 2 ^ 2000 ≤ v
  | _ => False
  end.

Lemma second_shift q e :
  0 < q ≤ 2 ^ 53 → -1074 ≤ e →
  ∃ r e2, shr_fexp 53 1024 q e loc_Exact = (r, e2) ∧ e ≤ e2 ∧ 0 < shr_m r ∧
    shr_m r * 2 ^ (e2 + 1074) = q * 2 ^ (e + 1074) ∧
    (2 ^ 52 ≤ q → 2 ^ 52 ≤ shr_m r) ∧ (e2 = e ∨ 2 ^ 52 ≤ shr_m r) ∧ shr_m r < 2 ^ 53.
Proof.
  intros Hq He. destruct (shr_fexp_exact q e ltac:(lia)) as (r & -> & _ & rest & Hrest & Eq & _).
  pose proof (digits_bounds q ltac:(lia)) as Hd. exists r. eexists. split; [reflexivity|].
  assert (emin 53 1024 = -1074) as Hmin by reflexivity. unfold fexp in *. rewrite Hmin in *.
  destruct (decide (q = 2 ^ 53)) as [E53|Hne].
  - assert (Zdigits2 q = 54) as Hdig by (subst q; reflexivity). rewrite Hdig in *.
    replace (Z.max 0 (Z.max (54 + e - 53) (-1074) - e)) with 1 in * by lia.
    change (2 ^ Z.of_nat (Z.to_nat 1)) with 2 in *.
    assert (shr_m r = 2 ^ 52) as Hm by lia. rewrite Hm.
    replace (e + 1 + 1074) with (Z.succ (e + 1074)) by lia. rewrite Z.pow_succ_r by lia.
    split_and!; [lia|done| |done|by right|done].
    subst q. ring_simplify. lia.
  - assert (Zdigits2 q ≤ 53) as Hdig.
    { apply Z.lt_succ_r, Z.nle_gt. intros H54. assert (2 ^ 53 ≤ 2 ^ (Zdigits2 q - 1)); [|lia].
      apply Z.pow_le_mono_r; lia. }
    replace (Z.max 0 (Z.max (Zdigits2 q + e - 53) (-1074) - e)) with 0 in * by lia.
    change (2 ^ Z.of_nat (Z.to_nat 0)) with 1 in *. assert (shr_m r = q) as Hm by lia. rewrite Hm.
    replace (e + 0) with e by lia. split_and!; [lia|lia|done|lia|by left|lia].
Qed.

Lemma round_aux_spec m e :
  0 < m → -1074 ≤ e → 53 ≤ Zdigits2 m ∨ e = -1074 →
  rounded (m * 2 ^ (e + 1074)) (binary_round_aux 53 1024 false m e loc_Exact).
Proof.
  intros Hm He Hcan. unfold binary_round_aux.
  destruct (shr_fexp_exact m e ltac:(lia)) as (r & -> & Hr).
  pose proof (digits_bounds m Hm) as [Hlo Hhi]. set (dg := Zdigits2 m) in *.
  set (n := Z.max 0 (fexp 53 1024 (dg + e) - e)) in *.
  assert (0 ≤ n ∧ dg - 53 ≤ n ∧ (n = 0 ∨ n = dg - 53)) as (Hn0 & Hn1 & Hn2).
  { unfold n, fexp. change (emin 53 1024) with (-1074). lia. }
  assert (e + n = -1074 ∨ n = dg - 53) as Hend.
  { unfold n, fexp in *. change (emin 53 1024) with (-1074) in *. lia. }
  destruct (shifted_round _ _ _ Hr) as (Hq0 & Herr & Hqm).
  set (q := round_nearest_even _ _) in *. destruct Hr as (_ & rest & Hrest & Em & _).
  rewrite Z2Nat.id in Herr, Hrest, Em by lia.
  assert (0 < 2 ^ n) as Hpn by (apply Z.pow_pos_nonneg; lia).
  assert (2 ^ dg ≤ 2 ^ 53 * 2 ^ n) as Hup.
  { rewrite <-Z.pow_add_r by lia. apply Z.pow_le_mono_r; lia. }
  assert (0 ≤ dg) as Hdg by apply digits_nonneg.
  assert (q ≤ 2 ^ 53) as Hq53 by nia.
  assert (n = dg - 53 → 2 ^ 52 * 2 ^ n ≤ m) as Hlow.
  { intros E. rewrite <-Z.pow_add_r by lia. replace (52 + n) with (dg - 1) by lia. done. }
  assert (n = dg - 53 → 2 ^ 52 ≤ q) as Hq52 by (intros E; specialize (Hlow E); nia).
  assert (0 < q) as Hqpos.
  { destruct Hn2 as [E0|E]; [|specialize (Hq52 E); lia]. rewrite E0, Z.pow_0_r in Herr. lia. }
  destruct (second_shift q (e + n)) as (r2 & e2 & -> & He2 & Hm2 & Ev & Hbig & Hexp & H53); [lia|lia|].
  destruct (shr_m r2) as [|M|M] eqn:EM; [lia| |lia].
  assert (near (m * 2 ^ (e + 1074)) (q * 2 ^ (e + n + 1074))) as Hnear.
  { unfold near. replace (e + n + 1074) with (n + (e + 1074)) by lia. rewrite Z.pow_add_r by lia.
    assert (0 < 2 ^ (e + 1074)) as Hpe by (apply Z.pow_pos_nonneg; lia).
    replace (q * (2 ^ n * 2 ^ (e + 1074)) - m * 2 ^ (e + 1074)) with ((q * 2 ^ n - m) * 2 ^ (e + 1074)) by ring.
    rewrite Z.abs_mul, (Z.abs_eq (2 ^ (e + 1074))) by lia.
    assert (2 ^ 53 * Z.abs (q * 2 ^ n - m) ≤ m) as Hrel;
      [|rewrite Z.mul_assoc; apply Z.mul_le_mono_nonneg_r; [lia|exact Hrel]].
    destruct Hn2 as [E0|E]; [rewrite E0, Z.pow_0_r in *; lia|specialize (Hlow E); lia]. }
  assert (2 ^ 52 ≤ Zpos M ∨ e2 = -1074) as HM.
  { destruct Hend as [E|E]; [|left; apply Hbig, Hq52, E].
    destruct Hexp as [->|Hb]; [by right|by left]. }
  destruct (Z.leb_spec e2 (1024 - 53)) as [Hfin|Hinf]; cbn [rounded fval].
  - split_and!; [lia|done|lia|by rewrite Ev].
  - unfold near in Hnear. rewrite <-Ev in Hnear.
    assert (2 ^ 52 * 2 ^ 2000 ≤ Zpos M * 2 ^ (e2 + 1074)) as Hv; [|lia].
    apply Z.mul_le_mono_nonneg; [lia|lia|lia|]. apply Z.pow_le_mono_r; lia.
Qed.

Lemma iter_double m p : Zpos (Pos.iter xO m p) = Zpos m * 2 ^ Zpos p.
Proof.
  induction p as [|p IH] using Pos.peano_ind; [cbn; lia|].
  rewrite Pos.iter_succ, Pos2Z.inj_xO, IH, Pos2Z.inj_succ, Z.pow_succ_r by lia. lia.
Qed.
Lemma shl_align_spec m e e' :
  (shl_align m e e').2 = Z.min e e' ∧ Zpos (shl_align m e e').1 = Zpos m * 2 ^ (e - Z.min e e').
Proof.
  unfold shl_align. destruct (e' - e) as [|p|p] eqn:E; cbn [fst snd].
  - rewrite Z.min_l by lia. rewrite Z.sub_diag. split; [done|]. cbn. lia.
  - rewrite Z.min_l by lia. rewrite Z.sub_diag. split; [done|]. cbn. lia.
  - rewrite Z.min_r by lia. split; [done|]. replace (e - e') with (Zpos p) by lia.
    apply iter_double.
Qed.

Lemma round_spec m e :
  -1074 ≤ e → rounded (Zpos m * 2 ^ (e + 1074)) (binary_round 53 1024 false m e).
Proof.
  intros He. unfold binary_round. set (e' := fexp _ _ _).
  pose proof (shl_align_spec m e e') as [Ee Em].
  destruct (shl_align m e e') as [mz ez]. cbn [fst snd] in *.
  assert (-1074 ≤ e') as He' by (unfold e', fexp; change (emin 53 1024) with (-1074); lia).
  replace (Zpos m * 2 ^ (e + 1074)) with (Zpos mz * 2 ^ (ez + 1074)).
  2: { rewrite Em, <-Z.mul_assoc, <-Z.pow_add_r by lia. f_equal. f_equal. lia. }
  apply round_aux_spec; [done|lia|].
  destruct (decide (ez = -1074)) as [->|Hne]; [by right|left].
  pose proof (digits_bounds (Zpos m) ltac:(done)) as Hd. cbn [Zdigits2] in Hd.
  set (dg := Zpos (digits2_pos m)) in *.
  assert (e' = dg + e - 53 ∨ e' = -1074) as He2.
  { unfold e', fexp. change (emin 53 1024) with (-1074). fold dg. lia. }
  assert (Zdigits2 (Zpos mz) = dg + (e - Z.min e e')) as ->; [|lia].
  pose proof (digits_bounds (Zpos mz) ltac:(done)) as Hd2. set (dz := Zdigits2 (Zpos mz)) in *.
  rewrite Em in Hd2. set (k := e - Z.min e e') in *. assert (0 ≤ k) as Hk by lia.
  assert (1 ≤ dg) as Hdg by (unfold dg; lia). assert (0 ≤ dz) as Hdz by apply digits_nonneg.
  assert (2 ^ (dg - 1 + k) ≤ Zpos m * 2 ^ k < 2 ^ (dg + k)) as Hb.
  { rewrite !Z.pow_add_r by lia. assert (0 < 2 ^ k) by (apply Z.pow_pos_nonneg; lia). nia. }
  assert (dg - 1 + k < dz) by (apply (Z.pow_lt_mono_r_iff 2); lia).
  assert (dz - 1 < dg + k); [|lia].
  destruct (decide (dz = 0)); [lia|]. apply (Z.pow_lt_mono_r_iff 2); lia.
Qed.

(** ** Sums *)
Lemma add_rounded x y :
  nonneg_finite x → nonneg_finite y → 0 < fval x → 0 < fval y →
  rounded (fval x + fval y) (f64_add x y).
Proof.
  destruct x as [| | |[] mx ex]; try done; destruct y as [| | |[] my ey]; try done.
  cbn [nonneg_finite fval f64_add SFadd cond_Zopp]. intros Hx Hy _ _.
  destruct (shl_align_spec mx ex (Z.min ex ey)) as [_ Ex].
  destruct (shl_align_spec my ey (Z.min ex ey)) as [_ Ey].
  set (a := (shl_align mx ex (Z.min ex ey)).1) in *.
  set (b := (shl_align my ey (Z.min ex ey)).1) in *. unfold f64_add, SFadd, cond_Zopp. fold a b.
  cbn [Z.add binary_normalize].
  replace (Zpos mx * 2 ^ (ex + 1074) + Zpos my * 2 ^ (ey + 1074))
    with (Zpos (a + b) * 2 ^ (Z.min ex ey + 1074)); [apply round_spec; lia|].
  rewrite Pos2Z.inj_add, Ex, Ey, Z.mul_add_distr_r.
  f_equal; rewrite <-Z.mul_assoc, <-Z.pow_add_r by lia; f_equal; f_equal; lia.
Qed.

(** The sum of k numbers of total value v, computed from left to right. *)
Definition partial_sum (v k : Z) (t : float64) : Prop :=
  nonneg_finite t ∧ v * (2 ^ 53 - k) ≤ 2 ^ 53 * fval t ∧ fval t * (2 ^ 53 - k) ≤ 2 ^ 53 * v.

Lemma fval_nonneg f : 0 ≤ fval f.
Proof.
  destruct f as [| | |[] m e]; cbn [fval]; try done. apply Z.mul_nonneg_nonneg; [done|].
  apply Z.pow_nonneg. done.
Qed.
Lemma fval_zero f : nonneg_finite f → fval f = 0 → ∃ s, f = S754_zero s.
Proof.
  destruct f as [s| | |[] m e]; try done; cbn [nonneg_finite fval]; intros He Hf; [by exists s|].
  assert (0 < 2 ^ (e + 1074)) by (apply Z.pow_pos_nonneg; lia). lia.
Qed.
Lemma rounded_nonneg v f : rounded v f → v < 2 ^ 2000 → nonneg_finite f ∧ near v (fval f).
Proof. destruct f as [|[]| |[] m e]; try done; cbn [rounded nonneg_finite]; [lia|]. by intros (? & _ & _ & ?). Qed.

Lemma add_zero_r x s : nonneg_finite x → fval (f64_add x (S754_zero s)) = fval x ∧
  nonneg_finite (f64_add x (S754_zero s)).
Proof. destruct x as [[]| | |[] m e], s; try done. Qed.
Lemma add_zero_l x s : nonneg_finite x → fval (f64_add (S754_zero s) x) = fval x ∧
  nonneg_finite (f64_add (S754_zero s) x).
Proof. destruct x as [[]| | |[] m e], s; try done. Qed.

Lemma partial_sum_add v k t w :
  0 ≤ k < 2 ^ 20 → 0 ≤ v → v + fval w < 2 ^ 1999 →
  partial_sum v k t → nonneg_finite w → partial_sum (v + fval w) (k + 1) (f64_add t w).
Proof.
  intros Hk Hv Hb (Ht & Hlo & Hhi) Hw. pose proof (fval_nonneg t). pose proof (fval_nonneg w).
  set (A := 2 ^ 53) in *. assert (A = 9007199254740992) as EA by reflexivity.
  destruct (decide (fval w = 0)) as [E0|Hw0].
  { destruct (fval_zero w Hw E0) as [s ->]. destruct (add_zero_r t s Ht) as [Ev Hn].
    unfold partial_sum. rewrite Ev. fold A. split_and!; [done|nia|nia]. }
  destruct (decide (fval t = 0)) as [E0|Ht0].
  { destruct (fval_zero t Ht E0) as [s ->]. destruct (add_zero_l w s Hw) as [Ev Hn].
    unfold partial_sum. rewrite Ev. cbn [fval] in Hlo, Hhi. assert (v = 0) as -> by nia. fold A.
    split_and!; [done|nia|nia]. }
  assert (fval t + fval w < 2 ^ 2000) as Hsum.
  { assert (fval t ≤ 2 * v) by nia. assert (2 ^ 2000 = 2 * 2 ^ 1999) as -> by reflexivity. lia. }
  destruct (rounded_nonneg _ _ (add_rounded t w Ht Hw ltac:(lia) ltac:(lia)) Hsum) as [Hn Hnear].
  unfold partial_sum, near in *. fold A in Hnear |- *. set (r := fval (f64_add t w)) in *.
  clearbody r A. set (T := fval t) in *. set (W := fval w) in *. clearbody T W.
  split_and!; [done| |].
  - assert ((A - 1) * (T + W) ≤ A * r) as Hr by lia.
    apply (Z.mul_le_mono_pos_l _ _ A); [lia|].
    transitivity (A * ((A - 1) * (T + W))); [|apply Z.mul_le_mono_nonneg_l; lia].
    replace (A * ((A - 1) * (T + W))) with ((A - 1) * (A * T + A * W)) by ring.
    transitivity ((A - 1) * ((A - k) * (v + W))).
    + replace (A * ((v + W) * (A - (k + 1)))) with (A * (A - (k + 1)) * (v + W)) by ring.
      rewrite Z.mul_assoc. apply Z.mul_le_mono_nonneg_r; [lia|].
      replace ((A - 1) * (A - k)) with (A * (A - (k + 1)) + k) by ring. lia.
    + apply Z.mul_le_mono_nonneg_l; [lia|].
      assert ((A - k) * W ≤ A * W) by (apply Z.mul_le_mono_nonneg_r; lia). lia.
  - assert (A * r ≤ (A + 1) * (T + W)) as Hr by lia.
    apply (Z.mul_le_mono_pos_l _ _ A); [lia|].
    replace (A * (r * (A - (k + 1)))) with ((A - (k + 1)) * (A * r)) by ring.
    transitivity ((A - (k + 1)) * ((A + 1) * (T + W))); [apply Z.mul_le_mono_nonneg_l; lia|].
    transitivity (A * ((A - k) * (T + W))).
    + rewrite !Z.mul_assoc. apply Z.mul_le_mono_nonneg_r; [lia|].
      replace (A * (A - k)) with ((A - (k + 1)) * (A + 1) + (k + 1)) by ring. lia.
    + apply Z.mul_le_mono_nonneg_l; [lia|].
      assert ((A - k) * W ≤ A * W) by (apply Z.mul_le_mono_nonneg_r; lia). lia.
Qed.

Lemma sum_of {B} (g : B → float64) (l : list B) t v k :
  0 ≤ v → 0 ≤ k → k + Z.of_nat (length l) < 2 ^ 20 →
  v + foldr (λ c acc, fval (g c) + acc) 0 l < 2 ^ 1999 →
  (∀ c, c ∈ l → nonneg_finite (g c)) → partial_sum v k t →
  partial_sum (v + foldr (λ c acc, fval (g c) + acc) 0 l) (k + Z.of_nat (length l))
    (foldl (λ acc c, f64_add acc (g c)) t l).
Proof.
  revert t v k. induction l as [|c l IH]; intros t v k Hv Hk Hlen Hb Hl Ht; cbn [foldr foldl length] in *.
  { by rewrite !Z.add_0_r. }
  assert (0 ≤ foldr (λ c acc, fval (g c) + acc) 0 l) as Hrest.
  { clear. induction l as [|d l IH]; cbn [foldr]; [done|]. pose proof (fval_nonneg (g d)). lia. }
  pose proof (fval_nonneg (g c)).
  replace (v + (fval (g c) + foldr (λ c acc, fval (g c) + acc) 0 l))
    with (v + fval (g c) + foldr (λ c acc, fval (g c) + acc) 0 l) by lia.
  replace (k + Z.of_nat (S (length l))) with (k + 1 + Z.of_nat (length l)) by lia.
  apply IH; [lia|lia|lia|lia|intros d Hd; apply Hl; by right|].
  apply partial_sum_add; [lia|done|lia|done|]. apply Hl. left.
Qed.

(** ** The shortest decimal *)
Lemma compare_dec_spec m k x e :
  -18 ≤ k → -1076 ≤ e →
  compare_dec m k x e = (m * 10 ^ (k + 18) * 2 ^ 1076 ?= x * 2 ^ (e + 1076) * 10 ^ 18).
Proof.
  intros Hk He. unfold compare_dec. set (c := 10 ^ (18 - Z.max (- k) 0) * 2 ^ (1076 - Z.max (- e) 0)).
  assert (0 < c) as Hc.
  { apply Z.mul_pos_pos; apply Z.pow_pos_nonneg; lia. }
  rewrite (Zmult_compare_compat_r _ _ c) by lia. f_equal; unfold c.
  - replace (m * 10 ^ Z.max k 0 * 2 ^ Z.max (- e) 0 * (10 ^ (18 - Z.max (- k) 0) * 2 ^ (1076 - Z.max (- e) 0)))
      with (m * (10 ^ Z.max k 0 * 10 ^ (18 - Z.max (- k) 0)) * (2 ^ Z.max (- e) 0 * 2 ^ (1076 - Z.max (- e) 0)))
      by ring.
    rewrite <-!Z.pow_add_r by lia. f_equal; [f_equal|]; f_equal; lia.
  - replace (x * 2 ^ Z.max e 0 * 10 ^ Z.max (- k) 0 * (10 ^ (18 - Z.max (- k) 0) * 2 ^ (1076 - Z.max (- e) 0)))
      with (x * (2 ^ Z.max e 0 * 2 ^ (1076 - Z.max (- e) 0)) * (10 ^ Z.max (- k) 0 * 10 ^ (18 - Z.max (- k) 0)))
      by ring.
    rewrite <-!Z.pow_add_r by lia. f_equal; [f_equal|]; f_equal; lia.
Qed.

(** A decimal that rounds to M * 2^e is at most half a unit away. *)
Lemma rounds_to_near M e m k :
  0 < M → -1074 ≤ e → -18 ≤ k → rounds_to M e m k = true →
  2 * Z.abs (m * 10 ^ (k + 18) * 2 ^ 1074 - M * 2 ^ (e + 1074) * 10 ^ 18) ≤ 2 ^ (e + 1074) * 10 ^ 18.
Proof.
  intros HM He Hk. unfold rounds_to. rewrite !compare_dec_spec by lia.
  replace (e - 2 + 1076) with (e + 1074) by lia.
  assert (2 ^ 1076 = 4 * 2 ^ 1074) as -> by reflexivity.
  set (d := m * 10 ^ (k + 18)). set (u := 2 ^ (e + 1074)). set (w := 2 ^ 1074). set (t := 10 ^ 18).
  assert (0 < u) as Hu by (apply Z.pow_pos_nonneg; lia). assert (0 < t) as Ht by done.
  clearbody d u w t. set (low := if _ && _ then _ else _).
  assert (4 * M - 2 ≤ low) as Hlow by (unfold low; case_match; lia). clearbody low.
  rewrite andb_true_iff. intros [H1 H2].
  assert (low * u * t ≤ d * (4 * w)) as Hge.
  { destruct (Z.compare_spec (d * (4 * w)) (low * u * t)); [lia|done|lia]. }
  assert (d * (4 * w) ≤ (4 * M + 2) * u * t) as Hle.
  { destruct (Z.compare_spec (d * (4 * w)) ((4 * M + 2) * u * t)); cbn in H2; [lia|lia|done]. }
  assert ((4 * M - 2) * u * t ≤ low * u * t) by nia.
  replace (d * (4 * w)) with (4 * (d * w)) in * by ring.
  replace ((4 * M + 2) * u * t) with (4 * (M * u * t) + 2 * (u * t)) in * by ring.
  replace ((4 * M - 2) * u * t) with (4 * (M * u * t) - 2 * (u * t)) in * by ring. lia.
Qed.

Lemma nearest_multiple_rounds M e k m : nearest_multiple M e k = Some m → rounds_to M e m k = true.
Proof. unfold nearest_multiple. repeat case_match; intros [= <-]; done. Qed.

(** From one half on, seventeen decimals are enough. *)
Lemma seventeen_decimals M e :
  2 ^ 52 ≤ M → -53 ≤ e → is_Some (nearest_multiple M e (-17)).
Proof.
  intros HM He. unfold nearest_multiple. set (num := M * _ * _). set (den := 2 ^ _ * _).
  assert (rounds_to M e (num / den + 1) (-17) = true) as Hr.
  { unfold rounds_to. rewrite !compare_dec_spec by lia. replace (-17 + 18) with 1 by lia.
    replace (e - 2 + 1076) with (e + 1074) by lia. rewrite Z.pow_1_r.
    assert (0 < den) as Hden by (apply Z.mul_pos_pos; apply Z.pow_pos_nonneg; lia).
    pose proof (Z.div_mod num den ltac:(lia)) as Hdm.
    pose proof (Z.mod_pos_bound num den Hden) as Hm. set (q := num / den) in *.
    set (u := 2 ^ (e + 1074)). set (w := 2 ^ 1074).
    assert (num * w = M * u * 10 ^ 17 * den) as Hval.
    { unfold num, den, u, w. change (Z.max (- -17) 0) with 17. change (Z.max (-17) 0) with 0.
      rewrite Z.pow_0_r, Z.mul_1_r.
      replace (2 ^ (e + 1074) ) with (2 ^ (Z.max e 0) * 2 ^ (1074 - Z.max (- e) 0))
        by (rewrite <-Z.pow_add_r by lia; f_equal; lia).
      replace (2 ^ 1074) with (2 ^ (1074 - Z.max (- e) 0) * 2 ^ Z.max (- e) 0)
        by (rewrite <-Z.pow_add_r by lia; f_equal; lia). ring. }
    assert (w ≤ u * 2 ^ 53) as Huw.
    { unfold u, w. rewrite <-Z.pow_add_r by lia. apply Z.pow_le_mono_r; lia. }
    assert (0 < u) as Hu by (apply Z.pow_pos_nonneg; lia).
    assert (0 < w) as Hw by done.
    (* q <= f * 10^17 < q + 1 *)
    assert (q * w ≤ M * u * 10 ^ 17) as Hq1.
    { apply (Z.mul_le_mono_pos_r _ _ den Hden). rewrite <-Hval.
      replace (q * w * den) with (den * q * w) by ring. apply Z.mul_le_mono_nonneg_r; lia. }
    assert (M * u * 10 ^ 17 < (q + 1) * w) as Hq2.
    { apply (Z.mul_lt_mono_pos_r den); [done|]. rewrite <-Hval.
      replace ((q + 1) * w * den) with ((den * q + den) * w) by ring.
      apply Z.mul_lt_mono_pos_r; lia. }
    assert (2 ^ 1076 = 4 * w) as -> by reflexivity. change (10 ^ 18) with (10 * 10 ^ 17).
    clearbody q u w. clear Hdm Hm Hval. set (t := 10 ^ 17) in *.
    assert (2 ^ 53 < t) as Ht by reflexivity. set (low := if _ && _ then _ else _).
    assert (low ≤ 4 * M) as Hlow by (unfold low; case_match; lia). clearbody low.
    apply andb_true_iff. split.
    - assert (low * u * (10 * t) < (q + 1) * 10 * (4 * w)) as Hgt.
      { apply Z.le_lt_trans with (4 * M * u * (10 * t)); [|lia].
        apply Z.mul_le_mono_nonneg_r; [lia|]. apply Z.mul_le_mono_nonneg_r; lia. }
      destruct (Z.compare_spec ((q + 1) * 10 * (4 * w)) (low * u * (10 * t))); [lia|lia|done].
    - assert ((q + 1) * 10 * (4 * w) < (4 * M + 2) * u * (10 * t)) as Hlt.
      { assert (2 * w < u * t) as Hwt; [|lia].
        assert (2 ^ 53 * 2 < t) as Ht2 by (vm_compute; reflexivity).
        assert (u * (2 ^ 53 * 2) < u * t) by (apply Z.mul_lt_mono_pos_l; lia). lia. }
      destruct (Z.compare_spec ((q + 1) * 10 * (4 * w)) ((4 * M + 2) * u * (10 * t))); [lia|done|lia]. }
  rewrite Hr. destruct (rounds_to M e (num / den) (-17)); eauto.
Qed.

Lemma nearest_multiple_nonneg M e k m : 0 < M → nearest_multiple M e k = Some m → 0 ≤ m.
Proof.
  intros HM. unfold nearest_multiple. set (num := M * _ * _). set (den := 2 ^ _ * _).
  assert (0 ≤ num / den) as Hq.
  { apply Z.div_pos; unfold num, den.
    - repeat apply Z.mul_nonneg_nonneg; [lia|apply Z.pow_nonneg; lia..].
    - apply Z.mul_pos_pos; apply Z.pow_pos_nonneg; lia. }
  repeat case_match; intros [= <-]; lia.
Qed.

(** What the search returns: a decimal that rounds to the number, or its value. *)
Definition decimal_of (M e m k : Z) : Prop :=
  0 ≤ m ∧ (-18 ≤ k →
    2 * Z.abs (m * 10 ^ (k + 18) * 2 ^ 1074 - M * 2 ^ (e + 1074) * 10 ^ 18) ≤ 2 ^ (e + 1074) * 10 ^ 18).

Lemma shortest_from_spec fuel M e k :
  0 < M → -1074 ≤ e →
  let r := shortest_from fuel M e k in
  decimal_of M e r.1 r.2 ∧
  (2 ^ 52 ≤ M → -53 ≤ e → -17 ≤ k → k + 17 < Z.of_nat fuel → -17 ≤ r.2).
Proof.
  intros HM He. revert k. induction fuel as [|fuel IH]; intros k; cbn [shortest_from].
  - assert (0 < 2 ^ (e + 1074)) as Hu by (apply Z.pow_pos_nonneg; lia).
    split; [|lia]. destruct (Z.leb_spec 0 e); cbn [fst snd]; split.
    + apply Z.mul_nonneg_nonneg; [lia|apply Z.pow_nonneg; lia].
    + intros _. change (0 + 18) with 18. set (t := 10 ^ 18).
      replace (M * 2 ^ e * t * 2 ^ 1074) with (M * (2 ^ e * 2 ^ 1074) * t) by (set (w := 2 ^ 1074); ring).
      rewrite <-Z.pow_add_r, Z.sub_diag by lia. assert (0 < t) by done. cbn [Z.abs]. lia.
    + apply Z.mul_nonneg_nonneg; [lia|apply Z.pow_nonneg; lia].
    + intros Hk. replace (M * 5 ^ (- e) * 10 ^ (e + 18) * 2 ^ 1074)
        with (M * 2 ^ (e + 1074) * 10 ^ 18); [rewrite Z.sub_diag; cbn [Z.abs]; lia|].
      replace (2 ^ 1074) with (2 ^ (e + 1074) * 2 ^ (- e)) by (rewrite <-Z.pow_add_r by lia; f_equal; lia).
      replace (10 ^ 18) with (10 ^ (e + 18) * 10 ^ (- e)) by (rewrite <-Z.pow_add_r by lia; f_equal; lia).
      assert (10 ^ (- e) = 5 ^ (- e) * 2 ^ (- e)) as -> by (rewrite <-Z.pow_mul_l; done). ring.
  - destruct (nearest_multiple M e k) as [m|] eqn:En; cbn [fst snd].
    + split; [|lia]. split; [by eapply nearest_multiple_nonneg|]. intros Hk.
      apply rounds_to_near; [done|done|done|]. by apply nearest_multiple_rounds.
    + destruct (IH (k - 1)) as [IH1 IH2]. split; [done|]. intros HM52 He53 Hk Hf. apply IH2; [done|done| |lia].
      destruct (decide (k = -17)) as [->|]; [|lia].
      destruct (seventeen_decimals M e HM52 He53) as [m Hm]. congruence.
Qed.

(** A decimal of at most 18 places of a rounding [M * 2^E] of [v] is within 2^-51 of
    [v]. *)
Lemma decimal_of_close M E v m k :
  0 < M → -1074 ≤ E → 2 ^ 52 ≤ M ∨ E = -1074 → near v (M * 2 ^ (E + 1074)) →
  decimal_of M E m k → -18 ≤ k →
  0 < m ∧ 2 ^ 51 * Z.abs (m * 10 ^ (k + 18) * 2 ^ 1074 - v * 10 ^ 18) ≤ v * 10 ^ 18.
Proof.
  intros HM0 HE Hcan Hnear [Hm Hdec] Hk. specialize (Hdec Hk). set (u := 2 ^ (E + 1074)) in *.
  assert (0 < u) as Hu by (apply Z.pow_pos_nonneg; lia).
  set (w := 2 ^ 1074) in *. set (t := 10 ^ 18) in *. unfold near in Hnear.
  assert (0 < w) as Hw by done. assert (0 < t) as Ht by done.
  set (d := m * 10 ^ (k + 18)) in *. assert (0 < 10 ^ (k + 18)) by (apply Z.pow_pos_nonneg; lia).
  assert (0 < m) as Hmpos.
  { destruct (decide (m = 0)) as [E0|]; [|lia]. exfalso. subst d. rewrite E0, !Z.mul_0_l in Hdec.
    assert (0 < u * t) by (by apply Z.mul_pos_pos). clearbody w t u. nia. }
  split; [done|]. assert (1 ≤ d) as Hd by nia.
  assert (2 ^ 52 ≤ M) as HM.
  { destruct Hcan as [?| ->]; [done|]. apply Z.nlt_ge. intros Hsmall.
    change (2 ^ (-1074 + 1074)) with 1 in u. subst u.
    assert (w ≤ d * w) by nia. assert (2 ^ 200 < w) by (vm_compute; reflexivity).
    assert (t < 2 ^ 60) by (vm_compute; reflexivity). nia. }
  set (F := M * u) in *. clearbody d w t.
  assert (2 ^ 53 * Z.abs (d * w - F * t) ≤ F * t) as H1.
  { assert (2 ^ 52 * u ≤ F) by (unfold F; nia).
    assert (2 ^ 52 * (u * t) ≤ F * t) by nia. lia. }
  assert (2 ^ 53 * Z.abs (F * t - v * t) ≤ v * t) as H2.
  { replace (F * t - v * t) with ((F - v) * t) by ring. rewrite Z.abs_mul, (Z.abs_eq t) by lia. nia. }
  assert (0 ≤ v * t) by (apply Z.mul_nonneg_nonneg; [|lia]; lia). lia.
Qed.

(** The exponents of the roundings of numbers between 1 and 2^926. *)
Lemma canonical_range M E v :
  0 < M < 2 ^ 53 → -1074 ≤ E → 2 ^ 52 ≤ M ∨ E = -1074 → near v (M * 2 ^ (E + 1074)) →
  2 ^ 1074 ≤ v < 2 ^ 2000 → 2 ^ 52 ≤ M ∧ -53 ≤ E < 1000.
Proof.
  intros HM HE Hcan Hnear [Hone Hb]. set (u := 2 ^ (E + 1074)) in *. unfold near in Hnear.
  assert (0 < u) as Hu by (apply Z.pow_pos_nonneg; lia).
  assert (-53 ≤ E) as HE53.
  { assert (2 ^ 1073 ≤ M * u) as Hbig.
    { assert (2 ^ 1074 = 2 * 2 ^ 1073) as E74 by reflexivity. rewrite E74 in Hone.
      set (c := 2 ^ 1073) in *. clearbody c u. lia. }
    apply Z.nlt_ge. intros HEs. assert (u ≤ 2 ^ 1020) by (apply Z.pow_le_mono_r; lia).
    assert (2 ^ 1073 = 2 ^ 53 * 2 ^ 1020) as E73 by reflexivity. rewrite E73 in Hbig.
    assert (M * u < 2 ^ 53 * u) by (apply Z.mul_lt_mono_pos_r; [exact Hu|apply HM]).
    assert (2 ^ 53 * u ≤ 2 ^ 53 * 2 ^ 1020) by (apply Z.mul_le_mono_nonneg_l; [done|assumption]).
    set (c := 2 ^ 1020) in *. clearbody c u. lia. }
  split; [destruct Hcan; lia|]. split; [done|].
  apply Z.nle_gt. intros HEb. assert (2 ^ 2074 ≤ u) by (apply Z.pow_le_mono_r; lia).
  assert (2 ^ 2000 < 2 ^ 2073) by (vm_compute; reflexivity).
  assert (2 ^ 2074 = 2 * 2 ^ 2073) as E74 by reflexivity.
  assert (1 * u ≤ M * u) by (apply Z.mul_le_mono_nonneg_r; lia).
  set (c := 2 ^ 2073) in *. set (b := 2 ^ 2000) in *. rewrite E74 in *. clearbody c b u. lia.
Qed.

(** The printed decimal of a number f, in units of 10^-18: within 2^-51 of f, and
    with at most 17 decimals when f is at least 1. *)
Lemma shortest_spec f :
  nonneg_finite f → fval f < 2 ^ 2000 →
  let '(m, k) := shortest f in
  0 ≤ m ∧
  (-18 ≤ k → 2 ^ 51 * Z.abs (m * 10 ^ (k + 18) * 2 ^ 1074 - fval f * 10 ^ 18) ≤ fval f * 10 ^ 18) ∧
  (2 ^ 1074 ≤ fval f → -17 ≤ k ∧ 0 < m).
Proof.
  destruct f as [s|s| |[] m0 e0]; intros Hf Hb; cbn [nonneg_finite] in Hf; [|done|done|done|].
  { change (shortest (S754_zero s)) with (0, 0). cbn [fval]. rewrite !Z.mul_0_l.
    split_and!; [done|done|]. intros Hc. exfalso. by apply Hc. }
  unfold shortest, canonical. cbn [binary_normalize].
  pose proof (round_spec m0 e0 Hf) as Hr. cbn [fval] in Hb |- *. set (v := Zpos m0 * _) in *.
  destruct (binary_round 53 1024 false m0 e0) as [|[]| |[] M E]; cbn [rounded] in Hr; try done; [lia|].
  destruct Hr as (HE & Hcan & HM53 & Hnear). cbn [fval] in Hnear.
  set (k0 := _ / _ + 2). destruct (shortest_from_spec 400 (Zpos M) E k0 ltac:(done) HE) as [Hdec Hk].
  destruct (shortest_from 400 (Zpos M) E k0) as [m k]. cbn [fst snd] in *.
  pose proof (decimal_of_close (Zpos M) E v m k ltac:(done) HE Hcan Hnear Hdec) as Hclose.
  split_and!; [apply Hdec|intros Hk18; by apply Hclose|]. intros Hone.
  destruct (canonical_range (Zpos M) E v ltac:(done) HE Hcan Hnear (conj Hone Hb)) as [HM HEr].
  assert (52 ≤ Z.log2 (Zpos M) < 53) as Hlog by (split; [apply Z.log2_le_pow2|apply Z.log2_lt_pow2]; lia).
  assert (-17 ≤ k) as Hk17; [|split; [done|]; apply Hclose; lia].
  assert (-1 ≤ k0 - 2 < 340) as Hk0; [|apply Hk; [done|lia|lia|lia]]. unfold k0. rewrite Z.add_simpl_r.
  split; [apply Z.div_le_lower_bound|apply Z.div_lt_upper_bound]; lia.
Qed.
