(* ===== verification/SupernodeParams.v ===== *)
(** * x/supernode/v1: parameters

    types/params.go, keeper/params.go and keeper/msg_update_params.go.  A zero or
    empty field of an update keeps the current value; fields that are zero after
    the merge take the module default.  The stored parameters are always valid. *)
From Stdlib Require Import ZArith Lia.
From stdpp Require Import base numbers strings list gmap.
From S2P Require Import Prelude Sdk Float SupernodeTypes Supernode.
Open Scope Z_scope.

(** ** Third-party validators: sdk.ValidateDenom and Masterminds/semver *)
Class DenomValidator := { ValidateDenom : string → bool }.
Class Semver := {
  semver_version : Type;
  semver_NewVersion : string → option semver_version;
  (** the text of the error for a string that is refused *)
  semver_error : string → string;
  semver_String : semver_version → string;
  semver_LessThan : semver_version → semver_version → bool
}.

(** ** types/params.go *)
Definition DefaultRewardDistribution : RewardDistribution :=
  {| PaymentPeriodBlocks := 100800;
     RegistrationFeeShareBps := 200;
     MinCascadeBytesForPayment := 1073741824;
     NewSnRampUpPeriods := 4;
     MeasurementSmoothingPeriods := 4;
     UsageGrowthCapBpsPerPeriod := 1000 |}.
Definition DefaultSnOpenPorts : list Z := [4444; 4445; 8002].

Definition unless_zero (v d : Z) : Z := if v =? 0 then d else v.
Definition unless_empty (v d : string) : string := if decide (v = "") then d else v.
Definition reward_with_defaults (d : RewardDistribution) : RewardDistribution :=
  let dd := DefaultRewardDistribution in
  {| PaymentPeriodBlocks := unless_zero (PaymentPeriodBlocks d) (PaymentPeriodBlocks dd);
     RegistrationFeeShareBps := RegistrationFeeShareBps d;
     MinCascadeBytesForPayment :=
       unless_zero (MinCascadeBytesForPayment d) (MinCascadeBytesForPayment dd);
     NewSnRampUpPeriods := NewSnRampUpPeriods d;
     MeasurementSmoothingPeriods :=
       unless_zero (MeasurementSmoothingPeriods d) (MeasurementSmoothingPeriods dd);
     UsageGrowthCapBpsPerPeriod :=
       unless_zero (UsageGrowthCapBpsPerPeriod d) (UsageGrowthCapBpsPerPeriod dd) |}.

Definition WithDefaults (p : Params) : Params :=
  {| MinimumStakeForSn := MinimumStakeForSn p;
     MinimumStakeDenom := MinimumStakeDenom p;
     ReportingThreshold := ReportingThreshold p;
     SlashingThreshold := SlashingThreshold p;
     MetricsThresholds := MetricsThresholds p;
     EvidenceRetentionPeriod := EvidenceRetentionPeriod p;
     SlashingFraction := SlashingFraction p;
     InactivityPenaltyPeriod := InactivityPenaltyPeriod p;
     MetricsUpdateIntervalBlocks := unless_zero (MetricsUpdateIntervalBlocks p) 400;
     MetricsGracePeriodBlocks := unless_zero (MetricsGracePeriodBlocks p) 100;
     MetricsFreshnessMaxBlocks := unless_zero (MetricsFreshnessMaxBlocks p) 5000;
     MinSupernodeVersion := unless_empty (MinSupernodeVersion p) "2.0.0";
     MinCpuCores := unless_zero (MinCpuCores p) 8;
     MaxCpuUsagePercent := unless_zero (MaxCpuUsagePercent p) 90;
     MinMemGb := unless_zero (MinMemGb p) 16;
     MaxMemUsagePercent := unless_zero (MaxMemUsagePercent p) 90;
     MinStorageGb := unless_zero (MinStorageGb p) 1000;
     MaxStorageUsagePercent := unless_zero (MaxStorageUsagePercent p) 90;
     RequiredOpenPorts :=
       match RequiredOpenPorts p with [] => DefaultSnOpenPorts | l => l end;
     RewardDistributionParams :=
       Some (match RewardDistributionParams p with
             | None => DefaultRewardDistribution
             | Some d => reward_with_defaults d
             end) |}.

Definition DefaultParams : Params :=
  WithDefaults
    {| MinimumStakeForSn := 0; MinimumStakeDenom := "ulume"; ReportingThreshold := 0;
       SlashingThreshold := 0; MetricsThresholds := ""; EvidenceRetentionPeriod := "";
       SlashingFraction := ""; InactivityPenaltyPeriod := ""; MetricsUpdateIntervalBlocks := 400;
       MetricsGracePeriodBlocks := 100; MetricsFreshnessMaxBlocks := 5000;
       MinSupernodeVersion := "2.0.0"; MinCpuCores := 8; MaxCpuUsagePercent := 90;
       MinMemGb := 16; MaxMemUsagePercent := 90; MinStorageGb := 1000;
       MaxStorageUsagePercent := 90; RequiredOpenPorts := DefaultSnOpenPorts;
       RewardDistributionParams := None |}.

Definition validatePositiveUint64 (v : Z) : bool := negb (v =? 0).
Definition validatePercentUint64 (v : Z) : bool := v <=? 100.
Definition validateRequiredPorts (ports : list Z) : bool := forallb (λ p, negb (p =? 0)) ports.

Section Keeper.
Context `{DenomValidator} `{Semver}.

Definition validateVersionString (v : string) : bool :=
  negb (bool_decide (v = "")) && match semver_NewVersion v with Some _ => true | None => false end.
(** coin.Validate *)
Definition validateMinimumStakeForSn (denom : string) (amount : Z) : bool :=
  ValidateDenom denom && (0 <=? amount).
Definition validate_reward (d : RewardDistribution) : bool :=
  negb (PaymentPeriodBlocks d =? 0) && (RegistrationFeeShareBps d <=? 10000)
  && negb (MinCascadeBytesForPayment d =? 0) && negb (MeasurementSmoothingPeriods d =? 0).

(** The thresholds and periods that the module does not use are not validated. *)
Definition Params_Validate (p : Params) : bool :=
  validateMinimumStakeForSn (MinimumStakeDenom p) (MinimumStakeForSn p)
  && validatePositiveUint64 (MetricsUpdateIntervalBlocks p)
  && validatePositiveUint64 (MetricsGracePeriodBlocks p)
  && validatePositiveUint64 (MetricsFreshnessMaxBlocks p)
  && validateVersionString (MinSupernodeVersion p)
  && validatePercentUint64 (MaxCpuUsagePercent p)
  && validatePercentUint64 (MaxMemUsagePercent p)
  && validatePercentUint64 (MaxStorageUsagePercent p)
  && validateRequiredPorts (RequiredOpenPorts p)
  && match RewardDistributionParams p with None => false | Some d => validate_reward d end.

(** ** keeper/params.go *)
Definition GetParams (s : sn_store) : Params := WithDefaults (sn_params s).
Definition SetParams (p : Params) : M sn_store unit := modify (set_params (WithDefaults p)).

(** ** keeper/msg_update_params.go *)
Definition keep_zero (old new : Z) : Z := if new =? 0 then old else new.
Definition keep_empty (old new : string) : string := if decide (new = "") then old else new.
Definition mergeParams (base incoming : Params) : Params :=
  let stake := validateMinimumStakeForSn (MinimumStakeDenom incoming) (MinimumStakeForSn incoming)
               && negb (MinimumStakeForSn incoming =? 0) in
  let z f := keep_zero (f base) (f incoming) in
  let t f := keep_empty (f base) (f incoming) in
  {| MinimumStakeForSn := MinimumStakeForSn (if stake then incoming else base);
     MinimumStakeDenom := MinimumStakeDenom (if stake then incoming else base);
     ReportingThreshold := z ReportingThreshold;
     SlashingThreshold := z SlashingThreshold;
     MetricsThresholds := t MetricsThresholds;
     EvidenceRetentionPeriod := t EvidenceRetentionPeriod;
     SlashingFraction := t SlashingFraction;
     InactivityPenaltyPeriod := t InactivityPenaltyPeriod;
     MetricsUpdateIntervalBlocks := z MetricsUpdateIntervalBlocks;
     MetricsGracePeriodBlocks := z MetricsGracePeriodBlocks;
     MetricsFreshnessMaxBlocks := z MetricsFreshnessMaxBlocks;
     MinSupernodeVersion := t MinSupernodeVersion;
     MinCpuCores := z MinCpuCores;
     MaxCpuUsagePercent := z MaxCpuUsagePercent;
     MinMemGb := z MinMemGb;
     MaxMemUsagePercent := z MaxMemUsagePercent;
     MinStorageGb := z MinStorageGb;
     MaxStorageUsagePercent := z MaxStorageUsagePercent;
     RequiredOpenPorts :=
       match RequiredOpenPorts incoming with [] => RequiredOpenPorts base | l => l end;
     RewardDistributionParams :=
       match RewardDistributionParams incoming with
       | None => RewardDistributionParams base
       | Some d => Some d
       end |}.

Record MsgUpdateParams := { up_Authority : string; up_Params : Params }.
Definition UpdateParams (authority : string) (req : MsgUpdateParams) : M sn_store unit :=
  _ ← ensure (bool_decide (authority = up_Authority req)) ErrInvalidSigner;
  current ← gets GetParams;
  let merged := WithDefaults (mergeParams current (up_Params req)) in
  _ ← ensure (Params_Validate merged) (ErrOther "invalid parameters");
  SetParams merged.
End Keeper.

(** ** Properties *)
Lemma unless_zero_idem v d : unless_zero (unless_zero v d) d = unless_zero v d.
Proof. unfold unless_zero. destruct (Z.eqb_spec v 0) as [->|]; repeat case_match; lia. Qed.
Lemma unless_empty_idem v d : unless_empty (unless_empty v d) d = unless_empty v d.
Proof. unfold unless_empty. repeat case_decide; congruence. Qed.
Lemma params_defaults_idem p : WithDefaults (WithDefaults p) = WithDefaults p.
Proof.
  unfold WithDefaults. simpl. rewrite !unless_zero_idem, unless_empty_idem.
  f_equal; [by destruct (RequiredOpenPorts p)|].
  destruct (RewardDistributionParams p) as [d|]; [|done].
  unfold reward_with_defaults. simpl. by rewrite !unless_zero_idem.
Qed.
