(* ===== verification/Metrics.v ===== *)
(** * x/supernode/v1: metrics reports

    keeper/metrics_validation.go, msg_server_report_supernode_metrics.go and
    metrics_staleness.go. *)
From Stdlib Require Import ZArith Lia SpecFloat.
From stdpp Require Import base numbers strings list gmap.
From S2P Require Import Prelude Sdk Float FloatFmt SupernodeTypes Supernode SupernodeParams.
Open Scope Z_scope.

Definition EventTypeMetricsReported : string := "supernode_metrics_reported".
Definition AttributeKeyCompliant : string := "compliant".
Definition AttributeKeyIssues : string := "issues".
Definition boolToString (v : bool) : string := if v then "true" else "false".

(** ** metrics_validation.go *)
Record ComplianceResult := { Issues : list string; StorageFull : bool }.
Definition IsCompliant (r : ComplianceResult) : bool :=
  match Issues r with [] => negb (StorageFull r) | _ => false end.
Definition AllIssues (r : ComplianceResult) : list string :=
  if StorageFull r then Issues r ++ ["disk storage full"%string] else Issues r.

Definition issue_if (b : bool) (text : string) : list string := if b then [text] else [].
Definition checkFinite (name : string) (v : float64) : list string :=
  issue_if (f64_isNaN v || f64_isInf v) ("invalid numeric value for " +:+ name).
Definition f0 : float64 := S754_zero false.
Definition f100 : float64 := f64_of_Z 100.

(** A usage of zero is not reported. *)
Definition usage_issues (name : string) (v : float64) (max : Z) : list string :=
  if f64_ltb v f0 || f64_ltb f100 v then [name +:+ ".usage_percent outside 0-100 range"]%string
  else if f64_ltb f0 v then
    issue_if (f64_ltb (f64_of_Z max) v)
      (name +:+ " usage " +:+ FormatFloat_2 v +:+ " above max " +:+ FormatInt max)
  else [].
Definition minimum_issue (name : string) (v : float64) (min : Z) : list string :=
  issue_if (f64_ltb v (f64_of_Z min))
    (name +:+ " " +:+ FormatFloat_2 v +:+ " below minimum " +:+ FormatInt min).
Definition amount_issues (name : string) (total free : float64) : list string :=
  issue_if (f64_leb total f0) (name +:+ ".total_gb must be > 0") ++
  issue_if (f64_ltb free f0) (name +:+ ".free_gb must be >= 0") ++
  issue_if (f64_ltb total free) (name +:+ ".free_gb cannot exceed " +:+ name +:+ ".total_gb").

(** A port reported twice takes the stricter state. *)
Definition port_state_of (prev : option PortState) (st : PortState) : PortState :=
  match prev, st with
  | None, _ => st
  | Some PORT_STATE_CLOSED, _ => PORT_STATE_CLOSED
  | Some _, PORT_STATE_CLOSED => PORT_STATE_CLOSED
  | Some PORT_STATE_OPEN, _ => PORT_STATE_OPEN
  | Some PORT_STATE_UNKNOWN, _ => st
  end.
Definition valid_port (port : Z) : bool := negb (port =? 0) && (port <=? 65535).
Definition add_port (acc : gmap Z PortState * list string) (p : Z * PortState)
    : gmap Z PortState * list string :=
  let '(states, issues) := acc in
  if valid_port p.1
  then (<[p.1 := port_state_of (states !! p.1) p.2]> states, issues)
  else (states, issues ++ ["invalid port value " +:+ FormatInt p.1]%string).
Definition port_states (ports : list (Z * PortState)) : gmap Z PortState * list string :=
  foldl add_port (∅, []) ports.
Definition required_issue (states : gmap Z PortState) (required : Z) : list string :=
  if valid_port required
  then issue_if (bool_decide (states !! required = Some PORT_STATE_CLOSED))
         ("required port " +:+ FormatInt required +:+ " closed")
  else ["invalid required port value " +:+ FormatInt required]%string.

Section Metrics.
Context `{SdkAddress} `{LegacyDecOps} `{Semver}.

Definition version_text (m : SupernodeMetrics) : string :=
  FormatInt (VersionMajor m) +:+ "." +:+ FormatInt (VersionMinor m) +:+ "." +:+ FormatInt (VersionPatch m).
Definition buildVersion (m : SupernodeMetrics) : option semver_version :=
  semver_NewVersion (version_text m).
Definition version_issues (params : Params) (m : SupernodeMetrics) : list string :=
  match semver_NewVersion (MinSupernodeVersion params) with
  | None => ["invalid minimum version parameter: " +:+ semver_error (MinSupernodeVersion params)]%string
  | Some minVersion =>
      match buildVersion m with
      | None => ["invalid reported version: " +:+ semver_error (version_text m)]%string
      | Some version =>
          issue_if (semver_LessThan version minVersion)
            ("version " +:+ semver_String version +:+ " below minimum " +:+ semver_String minVersion)
      end
  end.

Definition evaluateCompliance (params : Params) (m : SupernodeMetrics) : ComplianceResult :=
  let '(portStates, port_issues) := port_states (OpenPorts m) in
  {| Issues :=
       version_issues params m ++
       checkFinite "cpu.cores_total" (CpuCoresTotal m) ++
       checkFinite "cpu.usage_percent" (CpuUsagePercent m) ++
       issue_if (f64_leb (CpuCoresTotal m) f0) "cpu.cores_total must be > 0" ++
       minimum_issue "cpu cores" (CpuCoresTotal m) (MinCpuCores params) ++
       usage_issues "cpu" (CpuUsagePercent m) (MaxCpuUsagePercent params) ++
       checkFinite "mem.total_gb" (MemTotalGb m) ++
       checkFinite "mem.usage_percent" (MemUsagePercent m) ++
       checkFinite "mem.free_gb" (MemFreeGb m) ++
       amount_issues "mem" (MemTotalGb m) (MemFreeGb m) ++
       minimum_issue "mem total" (MemTotalGb m) (MinMemGb params) ++
       usage_issues "mem" (MemUsagePercent m) (MaxMemUsagePercent params) ++
       checkFinite "disk.total_gb" (DiskTotalGb m) ++
       checkFinite "disk.usage_percent" (DiskUsagePercent m) ++
       checkFinite "disk.free_gb" (DiskFreeGb m) ++
       amount_issues "disk" (DiskTotalGb m) (DiskFreeGb m) ++
       minimum_issue "disk total" (DiskTotalGb m) (MinStorageGb params) ++
       issue_if (f64_ltb (DiskUsagePercent m) f0 || f64_ltb f100 (DiskUsagePercent m))
         "disk.usage_percent outside 0-100 range" ++
       port_issues ++
       concat (required_issue portStates <$> RequiredOpenPorts params) ++
       checkFinite "uptime_seconds" (UptimeSeconds m) ++
       issue_if (f64_ltb (UptimeSeconds m) f0) "uptime_seconds must be >= 0" ++
       issue_if (PeersCount m =? 0) "peers_count must be > 0" ++
       checkFinite "cascade_kademlia_db_bytes" (CascadeKademliaDbBytes m) ++
       issue_if (f64_ltb (CascadeKademliaDbBytes m) f0) "cascade_kademlia_db_bytes must be >= 0";
     StorageFull := f64_ltb (f64_of_Z (MaxStorageUsagePercent params)) (DiskUsagePercent m) |}.

(** [states] has no nil entries here. *)
Definition lastNonDegradedState (states : list SuperNodeStateRecord) : SuperNodeState :=
  match List.find (λ r, negb (bool_decide (State r = SuperNodeStatePostponed))
                   && negb (bool_decide (State r = SuperNodeStateStorageFull))) (rev states) with
  | Some r => State r
  | None => SuperNodeStateUnspecified
  end.

(** ** msg_server_report_supernode_metrics.go *)
Record MsgReportSupernodeMetrics := {
  rep_ValidatorAddress : string;
  rep_SupernodeAccount : string;
  rep_Metrics : SupernodeMetrics
}.
Definition MsgReportSupernodeMetrics_ValidateBasic (m : MsgReportSupernodeMetrics) : bool :=
  negb (bool_decide (rep_ValidatorAddress m = ""))
  && bool_decide (is_Some (ValAddressFromBech32 (rep_ValidatorAddress m)))
  && negb (bool_decide (rep_SupernodeAccount m = ""))
  && bool_decide (is_Some (AccAddressFromBech32 (rep_SupernodeAccount m))).

Definition ReportSupernodeMetrics (ctx : Ctx) (msg : MsgReportSupernodeMetrics)
    : M sn_store (bool * list string) :=
  _ ← ensure (MsgReportSupernodeMetrics_ValidateBasic msg) (ErrOther "invalid message");
  valAddr ← of_option (ErrOther "invalid validator address")
              (ValAddressFromBech32 (rep_ValidatorAddress msg));
  sn ← gets (QuerySuperNode valAddr) ≫= of_option ErrNotFound;
  _ ← ensure (negb (bool_decide (SupernodeAccount sn = ""))) ErrUnauthorized;
  _ ← ensure (bool_decide (rep_SupernodeAccount msg = SupernodeAccount sn)) ErrUnauthorized;
  params ← gets GetParams;
  let result := evaluateCompliance params (rep_Metrics msg) in
  let compliant := IsCompliant result in
  let allIssues := AllIssues result in
  existing ← gets (GetMetricsState valAddr);
  let reportCount := u64 (match existing with Some st => ms_ReportCount st | None => 0 end + 1) in
  _ ← SetMetricsState
        (Build_SupernodeMetricsState (ValidatorAddress sn) (Some (rep_Metrics msg)) reportCount
           (BlockHeight ctx));
  _ ← SetSuperNode sn;
  _ ← emit (Event EventTypeMetricsReported
              [(AttributeKeyValidatorAddress, rep_ValidatorAddress msg);
               (AttributeKeySupernodeAccount, rep_SupernodeAccount msg);
               (AttributeKeyCompliant, boolToString compliant);
               (AttributeKeyIssues, strings_Join allIssues ";");
               (AttributeKeyHeight, stringHeight (BlockHeight ctx))]);
  mret (compliant, allIssues).

(** ** metrics_staleness.go *)

(** The height the staleness of a supernode is counted from; zero when there is
    none. *)
Definition baseline (valAddr : bytes) (sn : SuperNode) (s : sn_store) : Z * string :=
  let lastHeight := match GetMetricsState valAddr s with Some st => ms_Height st | None => 0 end in
  if lastHeight =? 0
  then (match States sn with r :: _ => Height r | [] => 0 end, "no metrics reported"%string)
  else (lastHeight, "metrics overdue"%string).

Definition check_stale (ctx : Ctx) (overdueThreshold : Z) (sn : SuperNode) : M sn_store unit :=
  match LastState sn with
  | Some SuperNodeStateActive | Some SuperNodeStateStorageFull =>
      match ValAddressFromBech32 (ValidatorAddress sn) with
      | None => mret tt
      | Some valAddr =>
          '(from, reason) ← gets (baseline valAddr sn);
          if from =? 0 then mret tt else
          if overdueThreshold <? i64 (BlockHeight ctx - from) then
            _ ← attempt (markPostponed ctx sn reason);
            mret tt
          else mret tt
      end
  | _ => mret tt
  end.
Definition HandleMetricsStaleness (ctx : Ctx) : M sn_store unit :=
  params ← gets GetParams;
  let overdueThreshold :=
    i64 (u64 (MetricsUpdateIntervalBlocks params + MetricsGracePeriodBlocks params)) in
  supernodes ← gets (GetAllSuperNodes []);
  for_each (check_stale ctx overdueThreshold) supernodes.
End Metrics.
