(* ===== verification/RegistryClients.v ===== *)
(** * Direct writes of other modules to the supernode registry

    Besides the messages and hooks of x/supernode, three places of the code change a
    record themselves and store it: the audit module when an epoch report shows how full
    the disk is (x/audit/v1/keeper/state.go, SetReport), and the migration of an account
    and of a validator (x/evmigration/keeper/migrate_supernode.go and
    migrate_validator.go).  What they do to the registry is here; AuditReport, EvMigrate
    and EvValidator run it inside their own stores. *)
From Stdlib Require Import ZArith Lia.
From stdpp Require Import base numbers strings list gmap.
From S2P Require Import Prelude Sdk Float SupernodeTypes Supernode.
Open Scope Z_scope.

(** ** x/audit/v1/keeper: epoch reports *)
Definition f64_zero : float64 := f64_of_Z 0.
Definition isValidHostUsagePercent (v : float64) : bool :=
  negb (f64_isNaN v) && negb (f64_isInf v) && f64_leb f64_zero v && f64_leb v (f64_of_Z 100).
Definition transition_event (attrs : list (string * string)) : event :=
  Event "audit_set_report_transition" attrs.

(** ** x/evmigration/keeper: names in a record *)
Definition renamed_text (legacy new a : string) : string := if bool_decide (a = legacy) then new else a.
Definition with_ValidatorAddress (sn : SuperNode) (v : string) (evidence : list Evidence) : SuperNode :=
  mkSuperNode v (States sn) evidence (PrevIpAddresses sn) (Note sn) (AggregateMetrics sn) (SupernodeAccount sn)
    (P2PPort sn) (PrevSupernodeAccounts sn).
Definition rename_evidence (old new : string) (e : Evidence) : Evidence :=
  {| ev_ReporterAddress := ev_ReporterAddress e; ev_ValidatorAddress := renamed_text old new (ev_ValidatorAddress e);
     ev_ActionId := ev_ActionId e; ev_EvidenceType := ev_EvidenceType e; ev_Description := ev_Description e;
     ev_Severity := ev_Severity e; ev_Height := ev_Height e |}.
Definition with_metrics_address (v : string) (m : SupernodeMetricsState) : SupernodeMetricsState :=
  {| ms_ValidatorAddress := v; ms_Metrics := ms_Metrics m; ms_ReportCount := ms_ReportCount m; ms_Height := ms_Height m |}.
(** The new account, also in the history, which gets an entry for the migration *)
Definition migrate_record_account (height : Z) (legacyStr newStr : string) (sn : SuperNode) : SuperNode :=
  let history := (λ h, AccountHistory (renamed_text legacyStr newStr (ah_Account h)) (ah_Height h))
                   <$> PrevSupernodeAccounts sn in
  with_Account sn newStr (history ++ [AccountHistory newStr height]).
Definition rekey_supernode (height : Z) (oldValStr newValStr legacyStr newStr : string) (sn : SuperNode) : SuperNode :=
  let evidence := rename_evidence oldValStr newValStr <$> EvidenceList sn in
  let sn' := with_ValidatorAddress sn newValStr evidence in
  if bool_decide (SupernodeAccount sn = legacyStr) then migrate_record_account height legacyStr newStr sn' else sn'.

Section Clients.
Context `{SdkAddress} `{LegacyDecOps}.

Definition at_validator (sn : SuperNode) (f : bytes → M sn_store unit) : M sn_store unit :=
  _ ← ensure (bool_decide (ValidatorAddress sn ≠ ""%string))
        (ErrOther "missing validator address for supernode");
  valAddr ← of_option (ErrOther "invalid validator address")
              (ValAddressFromBech32 (ValidatorAddress sn));
  f valAddr.

(** SetReport once the report is stored: STORAGE_FULL when the disk is too full, ACTIVE
    again when it is not *)
Definition report_transition (ctx : Ctx) (account : string) (disk : float64) : M sn_store unit :=
  if f64_eqb disk f64_zero
  then emit (transition_event [("disk_usage_percent", "0"); ("transition_skipped", "true")]%string)
  else if negb (isValidHostUsagePercent disk)
  then emit (transition_event [("transition_skipped", "true");
                               ("reason", "invalid_disk_usage_percent")]%string) else
  reporterSN ← gets (GetSuperNodeByAccount account);
  match reporterSN with
  | None => emit (transition_event [("supernode_found", "false")]%string)
  | Some sn =>
      match LastState sn with
      | None => emit (transition_event [("supernode_found", "false")]%string)
      | Some latest =>
          maxStorage ← gets (λ s, f64_of_Z (MaxStorageUsagePercent (sn_params s)));
          let isStorageFull := f64_ltb maxStorage disk in
          match latest with
          | SuperNodeStateDisabled | SuperNodeStateStopped | SuperNodeStatePenalized
          | SuperNodeStatePostponed => mret tt
          | _ =>
              if isStorageFull && bool_decide (latest ≠ SuperNodeStateStorageFull) then
                _ ← emit (transition_event [("to_state", "storage_full")]%string);
                at_validator sn (MarkSuperNodeStorageFull ctx)
              else if negb isStorageFull && bool_decide (latest = SuperNodeStateStorageFull) then
                _ ← emit (transition_event [("to_state", "active")]%string);
                SetSuperNode (append_state ctx sn SuperNodeStateActive "")
              else mret tt
          end
      end
  end.

(** The supernode of an account that migrates *)
Definition migrate_supernode_account (height : Z) (legacyStr newStr : string) : M sn_store unit :=
  sn ← gets (GetSuperNodeByAccount legacyStr);
  match sn with
  | None => mret tt
  | Some sn => SetSuperNode (migrate_record_account height legacyStr newStr sn)
  end.
(** The supernode of a validator that migrates, with its metrics *)
Definition migrate_supernode_validator (height : Z) (oldValAddr : bytes)
    (oldValStr newValStr legacyStr newStr : string) : M sn_store unit :=
  found ← gets (QuerySuperNode oldValAddr);
  match found with
  | None => mret tt
  | Some sn =>
      _ ← DeleteSuperNode oldValAddr;
      let sn := rekey_supernode height oldValStr newValStr legacyStr newStr sn in
      metrics ← gets (GetMetricsState oldValAddr);
      _ ← match metrics with
          | Some m =>
              _ ← SetMetricsState (with_metrics_address newValStr m);
              DeleteMetricsState oldValAddr
          | None => mret tt
          end;
      SetSuperNode sn
  end.
End Clients.
