(* ===== verification/SupernodeInv.v ===== *)
(** * The supernode registry as a state machine, and its invariants

    Every keeper call, and everything other modules do to the registry, is a step of
    [sn_step]: it leaves the registry alone, or it writes one record whose state history
    grew by at most one entry that the transition table of the call allows, or it moves
    one record to another validator.  The store invariant (records are
    valid, the account index is exactly the inverse of the records, histories
    are sorted by height) follows for all reachable states by induction on the
    calls. *)
From S2P Require Import Prelude Sdk Float SupernodeTypes Supernode SupernodeMsg SupernodeParams Metrics RegistryClients.
From Stdlib Require Import ZArith Lia.
From stdpp Require Import base numbers strings list gmap sorting.
Open Scope Z_scope.

(** ** The calls that change the registry

    The messages and hooks of the module, the calls of the audit module, and the writes
    of RegistryClients.  HandleMetricsStaleness is not called by any code. *)
Inductive sn_call :=
| CallRegister (msg : MsgRegisterSupernode)
| CallDeregister (msg : MsgDeregisterSupernode)
| CallStart (msg : MsgStartSupernode)
| CallStop (msg : MsgStopSupernode)
| CallUpdate (msg : MsgUpdateSupernode)
| CallBonded (v : bytes)
| CallBeginUnbonding (v : bytes)
| CallDelegationModified (v : bytes)
| CallRemoved (v : bytes)
| CallPostpone (v : bytes) (reason : string)
| CallRecover (v : bytes)
| CallStorageFull (v : bytes)
| CallDelete (v : bytes)
| CallReportMetrics (msg : MsgReportSupernodeMetrics)
| CallEpochReport (account : string) (disk : float64)
| CallMigrateAccount (legacy new : string)
| CallMigrateValidator (v : bytes) (oldVal newVal legacy new : string).

Inductive sn_op : Set :=
| OpRegister | OpDeregister | OpStart | OpStop | OpUpdate | OpHook
| OpPostpone | OpRecover | OpStorageFull | OpDelete
| OpReportMetrics | OpEpochReport | OpMigrateAccount | OpMigrateValidator.

Definition op_of (c : sn_call) : sn_op :=
  match c with
  | CallRegister _ => OpRegister
  | CallDeregister _ => OpDeregister
  | CallStart _ => OpStart
  | CallStop _ => OpStop
  | CallUpdate _ => OpUpdate
  | CallBonded _ | CallBeginUnbonding _ | CallDelegationModified _ | CallRemoved _ => OpHook
  | CallPostpone _ _ => OpPostpone
  | CallRecover _ => OpRecover
  | CallStorageFull _ => OpStorageFull
  | CallDelete _ => OpDelete
  | CallReportMetrics _ => OpReportMetrics
  | CallEpochReport _ _ => OpEpochReport
  | CallMigrateAccount _ _ => OpMigrateAccount
  | CallMigrateValidator _ _ _ _ _ => OpMigrateValidator
  end.

(** Which entry a call may append to a history that ends in [old]. *)
Definition transition_ok (op : sn_op) (old : option SuperNodeState) (new : SuperNodeState)
    : bool :=
  match op, old, new with
  | OpRegister, None, SuperNodeStateActive => true
  | OpRegister, Some SuperNodeStateDisabled, SuperNodeStateActive => true
  | OpDeregister, Some st, SuperNodeStateDisabled =>
      bool_decide (st ≠ SuperNodeStateDisabled)
  | OpStart, Some SuperNodeStateStopped, SuperNodeStateActive => true
  | OpStop, Some st, SuperNodeStateStopped =>
      bool_decide (st ≠ SuperNodeStateStopped ∧ st ≠ SuperNodeStateDisabled)
  | OpHook, Some SuperNodeStateStopped, SuperNodeStateActive => true
  | OpHook, Some SuperNodeStateActive, SuperNodeStateStopped => true
  | OpPostpone, Some st, SuperNodeStatePostponed => bool_decide (st ≠ SuperNodeStatePostponed)
  | OpRecover, Some SuperNodeStatePostponed, SuperNodeStateActive => true
  | OpStorageFull, Some st, SuperNodeStateStorageFull =>
      bool_decide (st ≠ SuperNodeStateStorageFull)
  | OpEpochReport, Some SuperNodeStateActive, SuperNodeStateStorageFull => true
  | OpEpochReport, Some SuperNodeStateStorageFull, SuperNodeStateActive => true
  | _, _, _ => false
  end.

Section Machine.
Context `{SdkAddress} `{LegacyDecOps} `{Hsv : Semver}.

Definition sn_exec (ctx : Ctx) (c : sn_call) : M sn_store unit :=
  match c with
  | CallRegister msg => RegisterSupernode ctx msg
  | CallDeregister msg => DeregisterSupernode ctx msg
  | CallStart msg => StartSupernode ctx msg
  | CallStop msg => StopSupernode ctx msg
  | CallUpdate msg => UpdateSupernode ctx msg
  | CallBonded v => AfterValidatorBonded ctx v
  | CallBeginUnbonding v => AfterValidatorBeginUnbonding ctx v
  | CallDelegationModified v => AfterDelegationModified ctx v
  | CallRemoved v => AfterValidatorRemoved ctx v
  | CallPostpone v reason => SetSuperNodePostponed ctx v reason
  | CallRecover v => RecoverSuperNodeFromPostponed ctx v
  | CallStorageFull v => MarkSuperNodeStorageFull ctx v
  | CallDelete v => DeleteSuperNode v
  | CallReportMetrics msg => _ ← ReportSupernodeMetrics ctx msg; mret tt
  | CallEpochReport account disk => report_transition ctx account disk
  | CallMigrateAccount legacy new => migrate_supernode_account (BlockHeight ctx) legacy new
  | CallMigrateValidator v oldVal newVal legacy new =>
      migrate_supernode_validator (BlockHeight ctx) v oldVal newVal legacy new
  end.

(** ** The store effect of SetSuperNode *)
Definition put_sn (v : bytes) (sn : SuperNode) (s : sn_store) : sn_store :=
  SnStore (<[v := sn]> (sn_records s))
    (<[SupernodeAccount sn := v]>
       (match sn_records s !! v with
        | Some ex =>
            if decide (SupernodeAccount ex ≠ "" ∧ SupernodeAccount ex ≠ SupernodeAccount sn)
            then delete (SupernodeAccount ex) (sn_accounts s) else sn_accounts s
        | None => sn_accounts s
        end))
    (sn_metrics s) (sn_params s).

Definition del_sn (v : bytes) (ex : SuperNode) (s : sn_store) : sn_store :=
  SnStore (delete v (sn_records s)) (delete (SupernodeAccount ex) (sn_accounts s))
    (sn_metrics s) (sn_params s).

Definition account_free (v : bytes) (a : string) (s : sn_store) : Prop :=
  ∀ w, sn_accounts s !! a = Some w → w = v.

Definition writable (v : bytes) (sn : SuperNode) (s : sn_store) : Prop :=
  SuperNode_Validate sn = Ok sn ∧ ValAddressFromBech32 (ValidatorAddress sn) = Some v ∧
  account_free v (SupernodeAccount sn) s.

Definition history_step (ctx : Ctx) (op : sn_op) (old : option SuperNode) (new : SuperNode)
    : Prop :=
  (∃ o, old = Some o ∧ States new = States o) ∨
  (∃ r, States new = from_option States [] old ++ [r] ∧ Height r = BlockHeight ctx ∧
        transition_ok op (old ≫= LastState) (State r) = true).

Inductive sn_step (ctx : Ctx) (op : sn_op) (s : sn_store) : sn_store → Prop :=
| step_stay : sn_step ctx op s s
| step_write v sn :
    writable v sn s → history_step ctx op (sn_records s !! v) sn →
    sn_step ctx op s (put_sn v sn s)
| step_delete v ex :
    op = OpDelete → sn_records s !! v = Some ex →
    sn_step ctx op s (del_sn v ex s)
| step_metrics metrics :
    op = OpReportMetrics → sn_step ctx op s (set_metrics (λ _, metrics) s)
| step_move v w ex sn metrics :
    op = OpMigrateValidator → sn_records s !! v = Some ex → States sn = States ex →
    writable w sn (del_sn v ex s) →
    sn_step ctx op s (set_metrics (λ _, metrics) (put_sn w sn (del_sn v ex s))).

(** ** The invariant *)
Definition records_ok (s : sn_store) : Prop :=
  ∀ v sn, sn_records s !! v = Some sn →
    SuperNode_Validate sn = Ok sn ∧ ValAddressFromBech32 (ValidatorAddress sn) = Some v.

Definition index_ok (s : sn_store) : Prop :=
  ∀ a v, sn_accounts s !! a = Some v ↔
    ∃ sn, sn_records s !! v = Some sn ∧ SupernodeAccount sn = a.

Definition sn_inv (s : sn_store) : Prop := records_ok s ∧ index_ok s.

(** State histories are sorted by height and do not reach past [h]. *)
Definition history_ok (h : Z) (s : sn_store) : Prop :=
  ∀ v sn, sn_records s !! v = Some sn →
    Sorted Z.le (Height <$> States sn) ∧ Forall (λ r, Height r ≤ h) (States sn).

(** ** SetSuperNode is [put_sn] *)
Lemma Validate_account_nonempty sn : SuperNode_Validate sn = Ok sn → SupernodeAccount sn ≠ "".
Proof. intros [(_ & Ha & _) _]%SuperNode_Validate_Ok. done. Qed.

Lemma wp_SetSuperNode sn s Q :
  (∀ e, Q (Err e) s) →
  (∀ v sn', SuperNode_Validate sn = Ok sn' → writable v sn' (store s) →
     Q (Ok tt) (St (put_sn v sn' (store s)) (events s))) →
  wp (SetSuperNode sn) s Q.
Proof.
  intros Herr Hok. unfold SetSuperNode. wp_step. wp_step; [|apply Herr].
  rename a into sn', H1 into Ev.
  pose proof (SuperNode_Validate_idem _ _ Ev) as Ev'.
  pose proof (Validate_account_nonempty _ Ev') as Ha.
  wp_step. wp_step; [|apply Herr]. rename a into v.
  do 2 wp_step. wp_step. rewrite decide_False by done.
  do 2 wp_step. wp_step; [|apply Herr].
  assert (writable v sn' (store s)) as Hw.
  { split_and!; [done..|]. intros w Hw. rewrite Hw in *.
    by match goal with H : bool_decide _ = true |- _ => apply bool_decide_eq_true in H end. }
  specialize (Hok v sn' Ev Hw). unfold put_sn in Hok.
  do 3 wp_step. rewrite decide_False by done. unfold QuerySuperNode.
  destruct (sn_records (store s) !! v) as [ex|]; [|done]. by case_decide.
Qed.

(** ** Every call is a step *)

Lemma with_defaults_history ctx op old sn :
  history_step ctx op old sn → history_step ctx op old (with_defaults sn).
Proof. unfold history_step. by destruct (with_defaults_fields sn) as (_ & -> & _). Qed.

Lemma wp_save ctx op s sn :
  (∀ v, ValAddressFromBech32 (ValidatorAddress sn) = Some v →
        history_step ctx op (sn_records (store s) !! v) sn) →
  wp (SetSuperNode sn) s (λ _ s', sn_step ctx op (store s) (store s')).
Proof.
  intros Hh. apply wp_SetSuperNode; [constructor|].
  intros v sn' [_ ->]%SuperNode_Validate_Ok Hw. apply step_write; [done|].
  apply with_defaults_history, Hh.
  destruct Hw as (_ & Hv & _). by destruct (with_defaults_fields sn) as (<- & _).
Qed.

Lemma wp_save_append ctx op s v sn st reason :
  records_ok (store s) → sn_records (store s) !! v = Some sn →
  transition_ok op (LastState sn) st = true →
  wp (SetSuperNode (append_state ctx sn st reason)) s
     (λ _ s', sn_step ctx op (store s) (store s')).
Proof.
  intros Hr Hv Ht. apply wp_save. intros w Hw. simpl in Hw.
  destruct (Hr _ _ Hv) as [_ Hv']. simplify_eq. rewrite Hv.
  right. by eexists.
Qed.

Lemma wp_save_same ctx op s v sn sn' :
  records_ok (store s) → sn_records (store s) !! v = Some sn →
  ValidatorAddress sn' = ValidatorAddress sn → States sn' = States sn →
  wp (SetSuperNode sn') s (λ _ s', sn_step ctx op (store s) (store s')).
Proof.
  intros Hr Hv Ha Hs. apply wp_save. intros w Hw. rewrite Ha in Hw.
  destruct (Hr _ _ Hv) as [_ Hv']. simplify_eq. rewrite Hv. left. by eexists.
Qed.

(** Saving a record, possibly with a replaced error, and then an event. *)
Lemma wp_then_emit ctx op s0 (m : M sn_store unit) ev s :
  wp m s (λ _ s', sn_step ctx op s0 (store s')) →
  wp (_ ← m; emit ev) s (λ _ s', sn_step ctx op s0 (store s')).
Proof.
  intros Hm. apply wp_bind. eapply wp_mono; [done|]. by intros [[]|e] s' Hs'.
Qed.
Lemma wp_wrap_step {A} ctx op s0 e (m : M sn_store A) s :
  wp m s (λ _ s', sn_step ctx op s0 (store s')) →
  wp (wrap_err e m) s (λ _ s', sn_step ctx op s0 (store s')).
Proof. intros Hm. by apply wp_wrap_err. Qed.

(** Walk to the first save of a record, closing the exits before it. *)
Ltac sn_walk :=
  unfold QuerySuperNode in *;
  repeat match goal with
  | |- wp (_ ← SetSuperNode _; emit _) _ _ => apply wp_then_emit
  | |- wp (_ ← wrap_err _ (SetSuperNode _); emit _) _ _ => apply wp_then_emit, wp_wrap_step
  | |- wp (SetSuperNode _) _ _ => fail 1
  | |- sn_step _ _ ?s ?s => apply step_stay
  | _ => wp_step
  end.

Lemma SetSuperNodeActive_step ctx v reason s :
  records_ok (store s) →
  wp (SetSuperNodeActive ctx v reason) s (λ _ s', sn_step ctx OpHook (store s) (store s')).
Proof.
  intros Hr. unfold SetSuperNodeActive. sn_walk.
  by eapply wp_save_append; [| |match goal with E : LastState _ = _ |- _ => rewrite E end].
Qed.

Lemma SetSuperNodeStopped_step ctx v reason s :
  records_ok (store s) →
  wp (SetSuperNodeStopped ctx v reason) s (λ _ s', sn_step ctx OpHook (store s) (store s')).
Proof.
  intros Hr. unfold SetSuperNodeStopped. sn_walk. subst.
  by eapply wp_save_append; [| |match goal with E : LastState _ = _ |- _ => rewrite E end].
Qed.

Lemma markPostponed_step ctx v sn reason s :
  records_ok (store s) → sn_records (store s) !! v = Some sn →
  wp (markPostponed ctx sn reason) s (λ _ s', sn_step ctx OpPostpone (store s) (store s')).
Proof.
  intros Hr Hv. unfold markPostponed. sn_walk.
  eapply wp_save_append; [done..|]. rewrite H1. by apply bool_decide_eq_true.
Qed.

Lemma markStorageFull_step ctx v sn s :
  records_ok (store s) → sn_records (store s) !! v = Some sn →
  wp (markStorageFull ctx sn) s (λ _ s', sn_step ctx OpStorageFull (store s) (store s')).
Proof.
  intros Hr Hv. unfold markStorageFull. sn_walk.
  eapply wp_save_append; [done..|]. rewrite H1. by apply bool_decide_eq_true.
Qed.

Lemma hooks_step ctx v s :
  records_ok (store s) →
  wp (AfterValidatorBonded ctx v) s (λ _ s', sn_step ctx OpHook (store s) (store s')) ∧
  wp (AfterValidatorBeginUnbonding ctx v) s (λ _ s', sn_step ctx OpHook (store s) (store s')) ∧
  wp (AfterDelegationModified ctx v) s (λ _ s', sn_step ctx OpHook (store s) (store s')) ∧
  wp (AfterValidatorRemoved ctx v) s (λ _ s', sn_step ctx OpHook (store s) (store s')).
Proof.
  intros Hr. unfold AfterValidatorBonded, AfterValidatorBeginUnbonding,
    AfterDelegationModified, AfterValidatorRemoved.
  split_and!; sn_walk; by (apply SetSuperNodeActive_step || apply SetSuperNodeStopped_step).
Qed.

Lemma RegisterSupernode_step ctx msg s :
  records_ok (store s) →
  wp (RegisterSupernode ctx msg) s (λ _ s', sn_step ctx OpRegister (store s) (store s')).
Proof.
  intros Hr. unfold RegisterSupernode, get_validator. sn_walk.
  - eapply wp_save_append; [done..|]. by match goal with E : LastState _ = _ |- _ => rewrite E end.
  - match goal with E : SuperNode_Validate _ = Ok _ |- _ =>
      apply SuperNode_Validate_Ok in E as [_ ->] end.
    apply wp_save. intros w Hw.
    match type of Hw with context [with_defaults ?sn] =>
      destruct (with_defaults_fields sn) as (Ea & _); rewrite Ea in Hw end.
    simpl in Hw. simplify_eq. apply with_defaults_history.
    match goal with E : sn_records _ !! _ = None |- _ => rewrite E end.
    right. by eexists.
Qed.

Lemma DeregisterSupernode_step ctx msg s :
  records_ok (store s) →
  wp (DeregisterSupernode ctx msg) s (λ _ s', sn_step ctx OpDeregister (store s) (store s')).
Proof.
  intros Hr. unfold DeregisterSupernode. sn_walk. case_decide.
  - by eapply wp_save_same.
  - eapply wp_save_append; [done..|].
    match goal with E : LastState _ = _ |- _ => rewrite E end. by apply bool_decide_eq_true.
Qed.

Lemma StartSupernode_step ctx msg s :
  records_ok (store s) →
  wp (StartSupernode ctx msg) s (λ _ s', sn_step ctx OpStart (store s) (store s')).
Proof.
  intros Hr. unfold StartSupernode. sn_walk. subst.
  eapply wp_save_append; [done..|]. by match goal with E : LastState _ = _ |- _ => rewrite E end.
Qed.

Lemma StopSupernode_step ctx msg s :
  records_ok (store s) →
  wp (StopSupernode ctx msg) s (λ _ s', sn_step ctx OpStop (store s) (store s')).
Proof.
  intros Hr. unfold StopSupernode. sn_walk; subst.
  all: eapply wp_save_append; [done..|].
  all: by match goal with E : LastState _ = _ |- _ => rewrite E end.
Qed.

(** The field updates of MsgUpdateSupernode leave identity and history alone. *)
Lemma update_fields ctx msg sn :
  let sn1 := (update_ip ctx msg sn).1 in
  let sn2 := (update_account ctx msg sn1).1 in
  let sn3 := (update_note msg sn2).1 in
  let sn4 := (update_p2p msg sn3).1 in
  ValidatorAddress sn4 = ValidatorAddress sn ∧ States sn4 = States sn ∧
  EvidenceList sn4 = EvidenceList sn ∧
  PrevIpAddresses sn `prefix_of` PrevIpAddresses sn4 ∧
  PrevSupernodeAccounts sn `prefix_of` PrevSupernodeAccounts sn4.
Proof.
  unfold update_ip, update_account, update_note, update_p2p.
  repeat (case_decide; cbn [fst]); repeat case_match; simpl; split_and!; try done;
    by apply prefix_app_r.
Qed.

Lemma UpdateSupernode_step ctx msg s :
  records_ok (store s) →
  wp (UpdateSupernode ctx msg) s (λ _ s', sn_step ctx OpUpdate (store s) (store s')).
Proof.
  intros Hr. unfold UpdateSupernode. sn_walk.
  all: match goal with E : sn_records _ !! _ = Some ?sn |- _ =>
         pose proof (update_fields ctx msg sn) as Hf end; cbv zeta in Hf.
  all: repeat (match goal with E : _ = (_, _) |- _ => rewrite E in Hf; clear E end; cbn [fst] in Hf).
  all: destruct Hf as (Ha & Hs & _); by eapply wp_save_same.
Qed.

Lemma DeleteSuperNode_step ctx v s :
  records_ok (store s) → index_ok (store s) →
  wp (DeleteSuperNode v) s (λ _ s', sn_step ctx OpDelete (store s) (store s')).
Proof.
  intros Hr Hi. unfold DeleteSuperNode. unfold QuerySuperNode. do 3 wp_step.
  destruct (sn_records (store s) !! v) as [ex|] eqn:Ev.
  - destruct (Hr _ _ Ev) as [Hval _]. rewrite decide_False by by apply Validate_account_nonempty.
    do 2 wp_step. exact (step_delete ctx OpDelete (store s) v ex eq_refl Ev).
  - do 2 wp_step. unfold set_records. rewrite delete_id by done.
    destruct (store s). apply step_stay.
Qed.

(** Writing a record back leaves the registry as it is. *)
Lemma save_same v sn (s : st sn_store) :
  sn_inv (store s) → sn_records (store s) !! v = Some sn → SetSuperNode sn s = (Ok tt, s).
Proof.
  intros [Hrec Hidx] Hv. destruct (Hrec v sn Hv) as [Hvalid Hself].
  pose proof (Validate_account_nonempty _ Hvalid) as Hne.
  assert (sn_accounts (store s) !! SupernodeAccount sn = Some v) as Hix by (apply Hidx; by exists sn).
  unfold SetSuperNode. rewrite (bind_of_result _ sn) by done. rewrite (bind_of_option _ _ v) by done.
  rewrite bind_gets. unfold QuerySuperNode. rewrite Hv. erewrite (bind_ok _ _ _ tt).
  2: { rewrite decide_False by done. rewrite bind_gets, Hix. by rewrite bool_decide_eq_true_2. }
  rewrite bind_modify. erewrite (bind_ok _ _ _ tt); [|by rewrite decide_False by tauto].
  rewrite decide_False by done. unfold modify, set_accounts, set_records.
  cbn [store events sn_records sn_accounts sn_metrics sn_params].
  rewrite (insert_id _ _ _ Hv), (insert_id _ _ _ Hix). by destruct s as [[] ?].
Qed.

Lemma ReportSupernodeMetrics_step ctx msg s :
  sn_inv (store s) →
  wp (_ ← ReportSupernodeMetrics ctx msg; mret tt) s (λ _ s', sn_step ctx OpReportMetrics (store s) (store s')).
Proof.
  intros Hinv. unfold ReportSupernodeMetrics, SetMetricsState. apply wp_bind.
  repeat match goal with
  | |- wp (_ ← SetSuperNode _; _) _ _ => fail 1
  | |- sn_step _ _ ?s ?s => apply step_stay
  | _ => wp_step
  end.
  apply wp_bind. unfold wp at 1. unfold QuerySuperNode in *.
  match goal with Hv : sn_records (store s) !! _ = Some _ |- context [SetSuperNode _ ?x] =>
    rewrite (save_same _ _ x Hinv Hv) end.
  cbn [fst snd]. repeat wp_step. by apply (step_metrics ctx OpReportMetrics (store s)).
Qed.

Lemma by_account_record a sn s : GetSuperNodeByAccount a s = Some sn → ∃ v, sn_records s !! v = Some sn.
Proof.
  unfold GetSuperNodeByAccount, QuerySuperNode. destruct (sn_accounts s !! a) as [v|]; [|done].
  destruct (sn_records s !! v) as [sn'|] eqn:Ev; [|done]. case_decide; [|done]. injection 1 as <-. eauto.
Qed.
Lemma valid_last_state sn st : SuperNode_Validate sn = Ok sn → LastState sn = Some st → st ≠ SuperNodeStateUnspecified.
Proof.
  intros [(_ & _ & _ & _ & Hst & _) _]%SuperNode_Validate_Ok. unfold LastState.
  destruct (last (States sn)) as [r|] eqn:Hl; [|done]. intros [= <-]. apply last_Some_elem_of in Hl.
  rewrite Forall_forall in Hst. by apply Hst.
Qed.

Lemma report_transition_step ctx account disk s :
  sn_inv (store s) →
  wp (report_transition ctx account disk) s (λ _ s', sn_step ctx OpEpochReport (store s) (store s')).
Proof.
  intros [Hr Hi]. unfold report_transition. destruct (f64_eqb _ _); [by apply wp_emit, step_stay|].
  destruct (negb _); [by apply wp_emit, step_stay|]. wp_step. wp_step.
  destruct (GetSuperNodeByAccount _ _) as [sn|] eqn:Hg; [|by apply wp_emit, step_stay].
  apply by_account_record in Hg as [v Hv]. destruct (Hr _ _ Hv) as [Hval Hkey].
  destruct (LastState sn) as [latest|] eqn:Hl; [|by apply wp_emit, step_stay].
  pose proof (valid_last_state _ _ Hval Hl) as Hun. do 2 wp_step.
  assert (latest ≠ SuperNodeStateStorageFull → transition_ok OpEpochReport (Some latest) SuperNodeStateStorageFull = true →
    ∀ evs, wp (at_validator sn (MarkSuperNodeStorageFull ctx)) (St (store s) evs)
      (λ _ s', sn_step ctx OpEpochReport (store s) (store s'))) as Hfull.
  { intros Hne Ht evs. unfold at_validator, MarkSuperNodeStorageFull, markStorageFull. sn_walk.
    simplify_eq/=. eapply (wp_save_append _ _ (St (store s) evs)); [done..|]. by rewrite Hl. }
  assert (∀ evs, transition_ok OpEpochReport (Some latest) SuperNodeStateActive = true →
    wp (SetSuperNode (append_state ctx sn SuperNodeStateActive "")) (St (store s) evs)
      (λ _ s', sn_step ctx OpEpochReport (store s) (store s'))) as Hback.
  { intros evs Ht. by eapply (wp_save_append _ _ (St (store s) evs)); [done..|rewrite Hl]. }
  destruct latest; try done; try (by apply wp_ret, step_stay); destruct (f64_ltb _ _); cbn;
    repeat wp_step; by first [apply Hfull | apply Hback | apply step_stay].
Qed.

Lemma migrate_account_step ctx legacy new s :
  records_ok (store s) →
  wp (migrate_supernode_account (BlockHeight ctx) legacy new) s
    (λ _ s', sn_step ctx OpMigrateAccount (store s) (store s')).
Proof.
  intros Hr. unfold migrate_supernode_account. wp_step. wp_step.
  destruct (GetSuperNodeByAccount _ _) as [sn|] eqn:Hg; [|by apply wp_ret, step_stay].
  apply by_account_record in Hg as [v Hv]. by eapply wp_save_same.
Qed.

(** A record that is stored again under another validator keeps its history. *)
Lemma rekey_fields height oldVal newVal legacy new sn :
  States (rekey_supernode height oldVal newVal legacy new sn) = States sn.
Proof. unfold rekey_supernode. by case_bool_decide. Qed.
Lemma migrate_validator_step ctx v oldVal newVal legacy new s :
  sn_inv (store s) →
  wp (migrate_supernode_validator (BlockHeight ctx) v oldVal newVal legacy new) s
    (λ r s', is_ok r = true → sn_step ctx OpMigrateValidator (store s) (store s')).
Proof.
  intros [Hr Hi]. unfold migrate_supernode_validator. wp_step. wp_step. unfold QuerySuperNode.
  destruct (sn_records (store s) !! v) as [ex|] eqn:Hv; [|by apply wp_ret; intros _; apply step_stay].
  destruct (Hr _ _ Hv) as [Hval _]. apply Validate_account_nonempty in Hval.
  unfold DeleteSuperNode, QuerySuperNode. wp_step. do 2 wp_step. rewrite Hv, decide_False by done. do 4 wp_step.
  cbv zeta. set (sn := rekey_supernode _ _ _ _ _ ex).
  assert (∀ metrics evs, wp (SetSuperNode sn) (St (set_metrics (λ _, metrics) (del_sn v ex (store s))) evs)
    (λ r s', is_ok r = true → sn_step ctx OpMigrateValidator (store s) (store s'))) as Hset.
  { intros metrics evs. apply wp_SetSuperNode; [done|]. intros w sn' [_ ->]%SuperNode_Validate_Ok Hw _.
    apply (step_move ctx OpMigrateValidator (store s) v w ex (with_defaults sn)); [done|done| |done].
    destruct (with_defaults_fields sn) as (_ & -> & _). apply rekey_fields. }
  do 2 wp_step. destruct (GetMetricsState v _) as [m|] eqn:Hm.
  - unfold SetMetricsState, DeleteMetricsState. repeat wp_step; try done. apply Hset.
  - repeat wp_step. apply (Hset (sn_metrics (store s))).
Qed.

Lemma sn_exec_step ctx c s :
  sn_inv (store s) →
  wp (sn_exec ctx c) s (λ r s', is_ok r = true → sn_step ctx (op_of c) (store s) (store s')).
Proof.
  intros Hinv. pose proof Hinv as [Hr Hi].
  destruct c; cbn [sn_exec op_of].
  all: lazymatch goal with |- wp (migrate_supernode_validator _ _ _ _ _ _) _ _ => by apply migrate_validator_step
       | _ => eapply wp_mono; [|intros r s' Hs _; exact Hs] end.
  - by apply RegisterSupernode_step.
  - by apply DeregisterSupernode_step.
  - by apply StartSupernode_step.
  - by apply StopSupernode_step.
  - by apply UpdateSupernode_step.
  - by apply hooks_step.
  - by apply hooks_step.
  - by apply hooks_step.
  - by apply hooks_step.
  - unfold SetSuperNodePostponed. sn_walk. by eapply markPostponed_step.
  - unfold RecoverSuperNodeFromPostponed, recoverFromPostponed. sn_walk. subst.
    eapply wp_save_append; [done..|]. by match goal with E : LastState _ = _ |- _ => rewrite E end.
  - unfold MarkSuperNodeStorageFull. sn_walk. by eapply markStorageFull_step.
  - by apply DeleteSuperNode_step.
  - by apply ReportSupernodeMetrics_step.
  - by apply report_transition_step.
  - by apply migrate_account_step.
Qed.

(** ** The invariant is inductive *)

Lemma put_sn_records v sn s : sn_records (put_sn v sn s) = <[v := sn]> (sn_records s).
Proof. done. Qed.
Lemma del_sn_records v ex s : sn_records (del_sn v ex s) = delete v (sn_records s).
Proof. done. Qed.

(** Away from the new account, a write only removes the entries of [v]. *)
Lemma put_sn_index_other v sn s a w :
  records_ok s → index_ok s → a ≠ SupernodeAccount sn →
  sn_accounts (put_sn v sn s) !! a = Some w ↔ w ≠ v ∧ sn_accounts s !! a = Some w.
Proof.
  intros Hr Hi Ha. unfold put_sn; simpl. rewrite lookup_insert_ne by done.
  destruct (sn_records s !! v) as [ex|] eqn:Ev.
  - destruct (Hr _ _ Ev) as [Hval _]. apply Validate_account_nonempty in Hval.
    case_decide as Hd.
    + rewrite lookup_delete_Some. split; intros [Hw Hl]; (split; [|done]).
      * intros ->. apply Hi in Hl as (sn' & Hl & <-). simplify_eq.
      * intros <-. apply Hi in Hl as (sn' & Hl & Hacc).
        assert (sn_accounts s !! SupernodeAccount ex = Some v) by (apply Hi; eauto).
        apply Hw. assert (sn_accounts s !! SupernodeAccount ex = Some w) by (apply Hi; eauto).
        congruence.
    + split; [intros Hl; split; [|done]|by intros [_ ?]].
      intros ->. apply Hi in Hl as (sn' & Hl & Hacc). simplify_eq.
      apply Hd. by split.
  - split; [intros Hl; split; [|done]|by intros [_ ?]].
    intros ->. apply Hi in Hl as (sn' & Hl & _). congruence.
Qed.

Lemma put_sn_inv v sn s : writable v sn s → sn_inv s → sn_inv (put_sn v sn s).
Proof.
  intros (Hval & Hv & Hfree) [Hr Hi]. split.
  - intros w sn'. rewrite put_sn_records. intros Hw. apply lookup_insert_Some in Hw as [[-> ->]|[_ Hw]]; [done|by apply Hr].
  - intros a w. destruct (decide (a = SupernodeAccount sn)) as [->|Ha].
    + rewrite put_sn_records. unfold put_sn at 1; cbn [sn_accounts]. rewrite lookup_insert_eq. split.
      * injection 1 as <-. exists sn. by rewrite lookup_insert_eq.
      * intros (sn' & [[<- _]|[Hne Hw]]%lookup_insert_Some & Hacc); [done|].
        f_equal. symmetry. apply Hfree, Hi. eauto.
    + rewrite put_sn_index_other, put_sn_records by done. split.
      * intros [Hne (sn' & Hw & Hacc)%Hi]. exists sn'. by rewrite lookup_insert_ne.
      * intros (sn' & [[<- <-]|[Hne Hw]]%lookup_insert_Some & Hacc); [congruence|].
        split; [done|]. apply Hi. eauto.
Qed.

Lemma del_sn_inv v ex s : sn_records s !! v = Some ex → sn_inv s → sn_inv (del_sn v ex s).
Proof.
  intros Hv [Hr Hi]. split.
  - intros w sn. rewrite del_sn_records. intros [_ Hw]%lookup_delete_Some. by apply Hr.
  - intros a w. simpl. rewrite lookup_delete_Some. setoid_rewrite lookup_delete_Some.
    split.
    + rewrite (Hi a w). intros [Ha (sn & Hw & Hacc)]. exists sn. split; [|done]. split; [|done].
      intros <-. simplify_eq.
    + intros (sn & [Hne Hw] & Hacc). split; [|apply Hi; eauto]. intros Ea. apply Hne.
      assert (sn_accounts s !! a = Some v) as E1 by (apply Hi; eauto).
      assert (sn_accounts s !! a = Some w) as E2 by (apply Hi; eauto). congruence.
Qed.

Lemma sn_step_inv ctx op s s' : sn_step ctx op s s' → sn_inv s → sn_inv s'.
Proof.
  intros [|v sn Hw _|v ex _ Hv|metrics _|v w ex sn metrics _ Hv _ Hw] Hinv; auto using put_sn_inv, del_sn_inv.
  exact (put_sn_inv w sn _ Hw (del_sn_inv v ex s Hv Hinv)).
Qed.

Lemma history_step_ok ctx op old new h :
  h ≤ BlockHeight ctx → history_step ctx op old new →
  (∀ o, old = Some o →
    Sorted Z.le (Height <$> States o) ∧ Forall (λ r, Height r ≤ h) (States o)) →
  Sorted Z.le (Height <$> States new) ∧ Forall (λ r, Height r ≤ BlockHeight ctx) (States new).
Proof.
  intros Hh Hs Hold.
  assert (Sorted Z.le (Height <$> from_option States [] old) ∧
          Forall (λ r, Height r ≤ BlockHeight ctx) (from_option States [] old)) as [H1 H2].
  { destruct old as [o|]; simpl; [|by repeat constructor].
    destruct (Hold o eq_refl) as [? HF]. split; [done|].
    eapply Forall_impl; [done|]. intros; simpl in *; lia. }
  destruct Hs as [(o & -> & ->)|(r & -> & Hr & _)]; [done|]. split.
  - rewrite fmap_app. apply StronglySorted_Sorted, StronglySorted_app.
    split_and!; [|by apply Sorted_StronglySorted; [intros ?; lia|]|repeat constructor].
    intros x y [q [-> Hq]]%list_elem_of_fmap ->%list_elem_of_singleton.
    rewrite Forall_forall in H2. specialize (H2 _ Hq). simpl in *. lia.
  - apply Forall_app. split; [done|]. repeat constructor. lia.
Qed.

Lemma sn_step_history ctx op s s' h :
  h ≤ BlockHeight ctx → sn_step ctx op s s' → history_ok h s → history_ok (BlockHeight ctx) s'.
Proof.
  intros Hh Hs Ho.
  assert (history_ok (BlockHeight ctx) s) as Ho'.
  { intros v sn Hv. destruct (Ho v sn Hv) as [? HF]. split; [done|].
    eapply Forall_impl; [done|]. intros; simpl in *; lia. }
  destruct Hs as [|v sn Hw Hst|v ex _ Hv|metrics _|v w ex sn metrics _ Hv Hst _]; [done| | |exact Ho'|].
  - intros w sn'. rewrite put_sn_records.
    intros [[<- <-]|[_ Hw']]%lookup_insert_Some; [|by eapply Ho'].
    eapply history_step_ok; [done..|]. intros o Hv. by eapply Ho.
  - intros w sn'. rewrite del_sn_records. intros [_ Hw']%lookup_delete_Some. by eapply Ho'.
  - intros u sn'. cbn. intros [[<- <-]|[_ [_ Hu]%lookup_delete_Some]]%lookup_insert_Some; [|by eapply Ho'].
    rewrite Hst. by apply (Ho' v).
Qed.
End Machine.
