(* ===== verification/SupernodeThm.v ===== *)
(** * Theorems about the supernode registry

    Reachable states, the account index, authorization, the life cycle of a
    supernode, and the exact conditions of a first registration. *)
From Stdlib Require Import ZArith Lia.
From stdpp Require Import base numbers strings list gmap sorting.
From S2P Require Import Prelude Sdk Float SupernodeTypes Supernode SupernodeMsg SupernodeParams Metrics RegistryClients SupernodeInv.
Open Scope Z_scope.

Section Theorems.
Context `{SdkAddress} `{LegacyDecOps} `{Hsv : Semver}.

(** ** Reachable registries

    The module starts empty (its genesis carries parameters only) and executes
    calls in blocks of non-decreasing height, its own and those of the audit and
    migration modules ([sn_call]: every place of the code that stores or deletes a
    record); the parameters and the metrics table may change freely in between. *)
Inductive reachable : Z → sn_store → Prop :=
| reach_init h metrics params : reachable h (SnStore ∅ ∅ metrics params)
| reach_call h ctx c s :
    reachable h (store s) → h ≤ BlockHeight ctx →
    reachable (BlockHeight ctx) (store (run_tx (sn_exec ctx c) s).2)
| reach_other h s metrics params :
    reachable h s → reachable h (SnStore (sn_records s) (sn_accounts s) metrics params).

Lemma run_tx_step ctx c s :
  sn_inv (store s) → sn_step ctx (op_of c) (store s) (store (run_tx (sn_exec ctx c) s).2).
Proof.
  intros Hinv. pose proof (sn_exec_step ctx c s Hinv) as Hs. unfold wp, run_tx in *.
  destruct (sn_exec ctx c s) as [[[]|e] s']; simpl in *; [by apply Hs|constructor].
Qed.

Lemma reachable_ok h s : reachable h s → sn_inv s ∧ history_ok h s.
Proof.
  induction 1 as [h metrics params|h ctx c s _ [Hinv Hh] Hle|h s metrics params _ IH].
  - split; [split|].
    + intros v sn Hv. simpl in Hv; by rewrite lookup_empty in Hv.
    + intros a v. split; [intros Hv|intros (sn & Hv & _)]; simpl in Hv; by rewrite lookup_empty in Hv.
    + intros v sn Hv. simpl in Hv; by rewrite lookup_empty in Hv.
  - pose proof (run_tx_step ctx c s Hinv) as Hs.
    split; [by eapply sn_step_inv|by eapply sn_step_history].
  - exact IH.
Qed.

(** C3. From a registry that satisfies its invariant, every call that changes the
    registry (operator message, metrics report, staking hook, postponement, recovery and
    epoch report of the audit module, migration of an account or a validator), run as a
    transaction, is a step of the state machine: nothing changes, or one record is written
    whose state history keeps all its entries and gains at most one, stamped with the
    current height, that the transition table of the call allows; a report may change the
    metrics, a deletion removes one record, and the migration of a validator moves one
    record, with its history, to another validator. *)
Theorem registry_calls_are_transitions ctx c s :
  sn_inv (store s) → sn_step ctx (op_of c) (store s) (store (run_tx (sn_exec ctx c) s).2).
Proof. apply run_tx_step. Qed.

(** C4. In every registry that any sequence of calls reaches from an empty one, those of
    the audit and the migration module included, all records are valid and stored under the
    bytes of their validator address, the account index is exactly the inverse
    of the records, and every state history is sorted by block height and never
    ahead of the current block. *)
Theorem reachable_registry_ok h s : reachable h s → sn_inv s ∧ history_ok h s.
Proof. apply reachable_ok. Qed.

(** Looking a supernode up by its account through the secondary index gives
    the same answer as scanning all records, and at most one validator owns an
    account. *)
Theorem account_lookup_is_scan h s a :
  reachable h s →
  (∀ sn, GetSuperNodeByAccount a s = Some sn ↔
     ∃ v, sn_records s !! v = Some sn ∧ SupernodeAccount sn = a) ∧
  (∀ v w sn sn', sn_records s !! v = Some sn → sn_records s !! w = Some sn' →
     SupernodeAccount sn = SupernodeAccount sn' → v = w).
Proof.
  intros [[Hr Hi] _]%reachable_ok. split.
  - intros sn. unfold GetSuperNodeByAccount, QuerySuperNode. split.
    + destruct (sn_accounts s !! a) as [v|] eqn:Ea; [|done].
      destruct (sn_records s !! v) as [sn'|] eqn:Ev; [|done].
      case_decide; [|done]. injection 1 as <-. eauto.
    + intros (v & Hv & Ha). assert (sn_accounts s !! a = Some v) as -> by (apply Hi; eauto).
      by rewrite Hv, decide_True.
  - intros v w sn sn' Hv Hw Ha.
    assert (sn_accounts s !! SupernodeAccount sn = Some v) as E1 by (apply Hi; eauto).
    assert (sn_accounts s !! SupernodeAccount sn = Some w) as E2 by (apply Hi; eauto).
    congruence.
Qed.

(** ** Authorization *)
Definition operator_msg (c : sn_call) : option (string * string) :=
  match c with
  | CallRegister m => Some (reg_Creator m, reg_ValidatorAddress m)
  | CallDeregister m => Some (dereg_Creator m, dereg_ValidatorAddress m)
  | CallStart m => Some (start_Creator m, start_ValidatorAddress m)
  | CallStop m => Some (stop_Creator m, stop_ValidatorAddress m)
  | CallUpdate m => Some (upd_Creator m, upd_ValidatorAddress m)
  | _ => None
  end.

(** The creator account has the bytes of the validator operator address. *)
Definition signed_by (creator valAddr : string) (v : bytes) : Prop :=
  ValAddressFromBech32 valAddr = Some v ∧ AccAddressFromBech32 creator = Some v.

Lemma VerifyValidatorOperator_Ok v creator :
  VerifyValidatorOperator v creator = Ok tt ↔ AccAddressFromBech32 creator = Some v.
Proof.
  unfold VerifyValidatorOperator. destruct (AccAddressFromBech32 creator); [|done].
  case_decide; split; congruence.
Qed.

Definition only_changes (v : bytes) (s s' : sn_store) : Prop :=
  ∀ w, w ≠ v → sn_records s' !! w = sn_records s !! w.

Lemma wp_save_at v sn s Q :
  (∀ e, Q (Err e) s) → ValAddressFromBech32 (ValidatorAddress sn) = Some v →
  (∀ sn', SuperNode_Validate sn = Ok sn' → writable v sn' (store s) →
     Q (Ok tt) (St (put_sn v sn' (store s)) (events s))) →
  wp (SetSuperNode sn) s Q.
Proof.
  intros He Hv Hok. apply wp_SetSuperNode; [done|].
  intros w sn' Hval Hw. assert (w = v) as ->; [|by apply Hok].
  apply SuperNode_Validate_Ok in Hval as [_ ->]. destruct Hw as (_ & Hw & _).
  destruct (with_defaults_fields sn) as (E & _). congruence.
Qed.

Lemma records_key v sn s :
  records_ok s → sn_records s !! v = Some sn →
  ValAddressFromBech32 (ValidatorAddress sn) = Some v.
Proof. intros Hr Hv. by apply Hr. Qed.

(** What a successful operator message establishes. *)
Definition authorized (creator : string) (v : bytes) (s : sn_store) (r : result unit)
    (s' : st sn_store) : Prop :=
  is_ok r = true → AccAddressFromBech32 creator = Some v ∧ only_changes v s (store s').

Lemma wp_save_emit v sn creator s ev :
  ValAddressFromBech32 (ValidatorAddress sn) = Some v →
  AccAddressFromBech32 creator = Some v →
  wp (_ ← SetSuperNode sn; emit ev) s (authorized creator v (store s)).
Proof.
  intros Hv Hc. apply wp_bind, (wp_save_at v); [done..|]. intros sn' _ _ _.
  split; [done|]. intros w Hw. simpl. by rewrite lookup_insert_ne.
Qed.
Lemma wp_save_wrap_emit v sn creator s ev e :
  ValAddressFromBech32 (ValidatorAddress sn) = Some v →
  AccAddressFromBech32 creator = Some v →
  wp (_ ← wrap_err e (SetSuperNode sn); emit ev) s (authorized creator v (store s)).
Proof.
  intros Hv Hc. apply wp_bind, wp_wrap_err, (wp_save_at v); [done..|]. intros sn' _ _ _.
  split; [done|]. intros w Hw. simpl. by rewrite lookup_insert_ne.
Qed.

(** Walk to the save of a record; the exits before it are failures. *)
Ltac auth_walk :=
  unfold QuerySuperNode in *;
  repeat match goal with
  | |- wp (_ ← SetSuperNode _; emit _) _ _ => fail 1
  | |- wp (_ ← wrap_err _ (SetSuperNode _); emit _) _ _ => fail 1
  | |- authorized _ _ _ (Err _) _ => by intros ?
  | E : VerifyValidatorOperator _ _ = Ok ?u |- _ =>
      destruct u; apply VerifyValidatorOperator_Ok in E
  | _ => wp_step
  end; simplify_eq.

Lemma operator_msg_auth ctx c creator valAddr v s :
  records_ok (store s) → operator_msg c = Some (creator, valAddr) →
  ValAddressFromBech32 valAddr = Some v →
  wp (sn_exec ctx c) s (authorized creator v (store s)).
Proof.
  intros Hr Hc Hv. destruct c; simplify_eq/=.
  - unfold RegisterSupernode, get_validator. auth_walk;
      apply wp_save_wrap_emit; try done; [simpl; by eapply records_key|].
    match goal with E : SuperNode_Validate ?sn = Ok _ |- _ =>
      apply SuperNode_Validate_Ok in E as [_ ->];
      by destruct (with_defaults_fields sn) as (-> & _) end.
  - unfold DeregisterSupernode. auth_walk. apply wp_save_emit; [|done].
    case_decide; simpl; by eapply records_key.
  - unfold StartSupernode. auth_walk. apply wp_save_emit; [simpl; by eapply records_key|done].
  - unfold StopSupernode. auth_walk; (apply wp_save_emit; [simpl; by eapply records_key|done]).
  - unfold UpdateSupernode. auth_walk; (apply wp_save_emit; [|done]).
    all: match goal with E : sn_records _ !! _ = Some ?sn |- _ =>
           pose proof (update_fields ctx msg sn) as Hf end; cbv zeta in Hf.
    all: repeat (match goal with E : _ = (_, _) |- _ => rewrite E in Hf; clear E end; cbn [fst] in Hf).
    all: destruct Hf as (-> & _); simpl; by eapply records_key.
Qed.

(** C26. An operator message succeeds only when its creator is the operator
    account of the validator it names, and then it changes no other
    validator's record. *)
Theorem operator_messages_authorized ctx c creator valAddr h s s' :
  reachable h (store s) → operator_msg c = Some (creator, valAddr) →
  run_tx (sn_exec ctx c) s = (Ok tt, s') →
  ∃ v, signed_by creator valAddr v ∧ only_changes v (store s) (store s').
Proof.
  intros [[Hr _] _]%reachable_ok Hc Hrun.
  assert (sn_exec ctx c s = (Ok tt, s')) as Hx.
  { unfold run_tx in Hrun. by destruct (sn_exec ctx c s) as [[]]. }
  destruct (ValAddressFromBech32 valAddr) as [v|] eqn:Hv.
  - exists v. destruct (wp_run _ _ _ _ _ (operator_msg_auth ctx c _ _ v s Hr Hc Hv) Hx eq_refl).
    by repeat split.
  - exfalso. destruct c; simplify_eq/=; revert Hx;
      unfold RegisterSupernode, DeregisterSupernode, StartSupernode, StopSupernode,
        UpdateSupernode; by rewrite Hv.
Qed.

(** ** The life cycle *)
Definition keeps_disabled (op : sn_op) : Prop :=
  op ≠ OpRegister ∧ op ≠ OpPostpone ∧ op ≠ OpStorageFull ∧ op ≠ OpDelete ∧ op ≠ OpMigrateValidator.

Lemma transition_from_disabled op new :
  keeps_disabled op → transition_ok op (Some SuperNodeStateDisabled) new = true → False.
Proof. intros (? & ? & ? & ? & ?). by destruct op, new. Qed.

Lemma LastState_append ctx sn st reason : LastState (append_state ctx sn st reason) = Some st.
Proof. unfold LastState. simpl. by rewrite last_snoc. Qed.

(** A disabled (deregistered) supernode stays disabled under every message
    other than a new registration, and under every staking hook, epoch report and
    migration of its account. *)
Theorem disabled_is_sticky h ctx c s v sn :
  reachable h (store s) → keeps_disabled (op_of c) →
  sn_records (store s) !! v = Some sn → LastState sn = Some SuperNodeStateDisabled →
  ∃ sn', sn_records (store (run_tx (sn_exec ctx c) s).2) !! v = Some sn' ∧
         LastState sn' = Some SuperNodeStateDisabled.
Proof.
  intros [Hinv _]%reachable_ok Hop Hv Hl.
  destruct (run_tx_step ctx c s Hinv) as [|w new _ Hh|w ex Hd _|metrics _|u w ex new metrics Hm _ _ _];
    [eauto| |by destruct Hop as (_ & _ & _ & ? & _)|eauto|by destruct Hop as (_ & _ & _ & _ & ?)].
  simpl. destruct (decide (w = v)) as [->|Hne]; [|exists sn; by rewrite lookup_insert_ne].
  exists new. rewrite lookup_insert_eq. split; [done|]. rewrite Hv in Hh.
  destruct Hh as [(o & [= <-] & Hs)|(r & _ & _ & Ht)].
  - unfold LastState in *. by rewrite Hs.
  - simpl in Ht. rewrite Hl in Ht. by apply transition_from_disabled in Ht.
Qed.

(** Saving a stored record with one more state always succeeds. *)
Lemma SetSuperNode_append ctx v sn st reason s :
  sn_inv (store s) → sn_records (store s) !! v = Some sn → st ≠ SuperNodeStateUnspecified →
  let sn' := append_state ctx sn st reason in
  SetSuperNode sn' s = (Ok tt, St (put_sn v sn' (store s)) (events s)) ∧
  sn_inv (put_sn v sn' (store s)).
Proof.
  intros Hinv Hv Hst sn'. destruct (Hinv) as [Hr Hi].
  destruct (Hr _ _ Hv) as [Hval Hkey].
  assert (SuperNode_Validate sn' = Ok sn') as Hval'.
  { apply SuperNode_Validate_Ok in Hval as [(H1 & H2 & H3 & H4 & H5 & H6) Hd].
    apply SuperNode_Validate_Ok. split.
    - split_and!; [done..| | |done]; simpl; [by destruct (States sn)|].
      apply Forall_app. by repeat constructor.
    - subst sn'. unfold append_state. by rewrite with_defaults_States, <- Hd. }
  assert (sn_accounts (store s) !! SupernodeAccount sn' = Some v) as Hacc.
  { apply Hi. by exists sn. }
  assert (writable v sn' (store s)) as Hw.
  { split_and!; [done..|]. intros w ?. congruence. }
  split; [|by apply put_sn_inv].
  pose proof (Validate_account_nonempty _ Hval') as Hne.
  unfold SetSuperNode. rewrite (bind_of_result _ sn'), (bind_of_option _ _ v), bind_gets by done.
  rewrite !(decide_False (P := SupernodeAccount sn' = "")) by done.
  erewrite (bind_ok _ _ s tt s); [|rewrite bind_gets; simpl in *; by rewrite Hacc, bool_decide_true].
  rewrite bind_modify. unfold QuerySuperNode. rewrite Hv.
  rewrite (decide_False (P := _ ∧ _)) by (by intros [_ ?]).
  unfold put_sn. simpl.
  by rewrite Hv, (decide_False (P := _ ∧ _)) by (by intros [_ ?]).
Qed.

(** The operator of a supernode in any state but STOPPED and DISABLED -
    PENALIZED and POSTPONED included - can bring it back to ACTIVE with a stop
    followed by a start. *)
Theorem stop_start_reactivates h ctx1 ctx2 creator val reason v sn st s :
  reachable h (store s) → signed_by creator val v →
  sn_records (store s) !! v = Some sn → LastState sn = Some st →
  st ≠ SuperNodeStateStopped → st ≠ SuperNodeStateDisabled →
  let stop := {| stop_Creator := creator; stop_ValidatorAddress := val; stop_Reason := reason |} in
  let start := {| start_Creator := creator; start_ValidatorAddress := val |} in
  ∃ s' sn', (_ ← StopSupernode ctx1 stop; StartSupernode ctx2 start) s = (Ok tt, s') ∧
    sn_records (store s') !! v = Some sn' ∧ LastState sn' = Some SuperNodeStateActive.
Proof.
  intros [Hinv _]%reachable_ok [Hval Hacc] Hv Hl Hne1 Hne2 stop start.
  destruct (SetSuperNode_append ctx1 v sn SuperNodeStateStopped "" s Hinv Hv) as [E1 Hinv1]; [done|].
  set (sn1 := append_state ctx1 sn SuperNodeStateStopped "") in *.
  assert (∃ evs, StopSupernode ctx1 stop s = (Ok tt, St (put_sn v sn1 (store s)) evs))
    as [evs Hstop].
  { unfold StopSupernode, QuerySuperNode.
    rewrite (bind_of_option _ _ v), (bind_gets_option _ _ sn), (bind_of_result _ tt),
      (bind_of_option _ _ st) by (done || by apply VerifyValidatorOperator_Ok).
    eexists. destruct st; try done; by rewrite (bind_ok _ _ _ _ _ E1). }
  set (s1 := St (put_sn v sn1 (store s)) evs) in *.
  assert (sn_records (store s1) !! v = Some sn1) as Hv1 by apply lookup_insert_eq.
  destruct (SetSuperNode_append ctx2 v sn1 SuperNodeStateActive "" s1 Hinv1 Hv1) as [E2 _]; [done|].
  eexists _, (append_state ctx2 sn1 SuperNodeStateActive "").
  rewrite (bind_ok _ _ _ _ _ Hstop). unfold StartSupernode, QuerySuperNode.
  rewrite (bind_of_option _ _ v), (bind_gets_option _ _ sn1), (bind_of_result _ tt),
    (bind_of_option _ _ SuperNodeStateStopped)
    by (done || by apply VerifyValidatorOperator_Ok || by apply LastState_append).
  rewrite (bind_ok _ _ _ _ _ E2). split; [done|]. split; [apply lookup_insert_eq|].
  apply LastState_append.
Qed.

(** ** First registration *)

(** What a first registration of [v] needs, besides a free account. *)
Definition registrable (ctx : Ctx) (msg : MsgRegisterSupernode) (v : bytes) (s : sn_store)
    : Prop :=
  signed_by (reg_Creator msg) (reg_ValidatorAddress msg) v ∧
  (∃ validator, sk_Validator (stakingKeeper ctx) v = Ok (Some validator) ∧
     IsJailed validator = false ∧
     CheckValidatorSupernodeEligibility ctx validator (reg_ValidatorAddress msg)
       (reg_SupernodeAccount msg) s = Ok tt) ∧
  reg_SupernodeAccount msg ≠ "" ∧ is_Some (AccAddressFromBech32 (reg_SupernodeAccount msg)) ∧
  reg_IpAddress msg ≠ "".

Definition message_record (ctx : Ctx) (msg : MsgRegisterSupernode) : SuperNode :=
  mkSuperNode (reg_ValidatorAddress msg)
    [StateRecord SuperNodeStateActive (BlockHeight ctx) ""] []
    [IPHistory (reg_IpAddress msg) (BlockHeight ctx)] "" None
    (reg_SupernodeAccount msg) (reg_P2PPort msg)
    [AccountHistory (reg_SupernodeAccount msg) (BlockHeight ctx)].
Definition new_record (ctx : Ctx) (msg : MsgRegisterSupernode) : SuperNode :=
  with_defaults (message_record ctx msg).

Lemma SetSuperNode_fresh v sn s :
  SuperNode_Validate sn = Ok sn → ValAddressFromBech32 (ValidatorAddress sn) = Some v →
  sn_records (store s) !! v = None → sn_accounts (store s) !! SupernodeAccount sn = None →
  SetSuperNode sn s = (Ok tt, St (put_sn v sn (store s)) (events s)).
Proof.
  intros Hval Hkey Hv Hacc. pose proof (Validate_account_nonempty _ Hval) as Hne.
  unfold SetSuperNode. rewrite (bind_of_result _ sn), (bind_of_option _ _ v), bind_gets by done.
  rewrite !(decide_False (P := SupernodeAccount sn = "")) by done.
  erewrite (bind_ok _ _ s tt s); [|by rewrite bind_gets, Hacc].
  rewrite bind_modify. unfold QuerySuperNode, put_sn. by rewrite Hv.
Qed.

Lemma message_record_valid ctx msg v s :
  registrable ctx msg v s → SuperNode_Validate (message_record ctx msg) = Ok (new_record ctx msg).
Proof.
  intros ([Hval _] & _ & Ha & Hd & Hip). apply SuperNode_Validate_Ok.
  split; [|done]. split_and!; simpl; eauto; by repeat constructor.
Qed.

Lemma register_needs ctx msg v s :
  index_ok (store s) → sn_records (store s) !! v = None →
  ValAddressFromBech32 (reg_ValidatorAddress msg) = Some v →
  wp (RegisterSupernode ctx msg) s (λ r _, is_ok r = true →
    registrable ctx msg v (store s) ∧ sn_accounts (store s) !! reg_SupernodeAccount msg = None).
Proof.
  intros Hi Hv Hval. unfold RegisterSupernode, get_validator, QuerySuperNode.
  repeat match goal with
  | |- wp (_ ← wrap_err _ _; _) _ _ => fail 1
  | E : VerifyValidatorOperator _ _ = Ok ?u |- _ =>
      destruct u; apply VerifyValidatorOperator_Ok in E
  | |- is_ok (Err _) = true → _ => done
  | _ => wp_step
  end; simplify_eq.
  match goal with E : SuperNode_Validate _ = Ok _ |- _ =>
    apply SuperNode_Validate_Ok in E as [(_ & Ha & Hd & _ & _ & ip & l & Hip & Hne) ->] end.
  simpl in *. simplify_eq/=. apply wp_bind, wp_wrap_err, wp_SetSuperNode; [done|].
  intros w sn' [_ ->]%SuperNode_Validate_Ok (_ & Hw & Hfree) _.
  revert Hw Hfree. rewrite with_defaults_idem.
  match goal with |- context [with_defaults ?sn] =>
    destruct (with_defaults_fields sn) as (-> & _ & -> & _) end.
  simpl. intros Hw Hfree. simplify_eq. split.
  - split_and!; try done. eexists. split_and!; [done|by apply negb_true_iff|].
    by match goal with E : CheckValidatorSupernodeEligibility _ _ _ _ _ = Ok ?u |- _ => destruct u end.
  - destruct (sn_accounts (store s) !! reg_SupernodeAccount msg) as [w|] eqn:Ew; [|done].
    pose proof (Hfree _ Ew) as ->. apply Hi in Ew as (? & ? & _). congruence.
Qed.

(** C27. For a validator without a record, registration succeeds exactly when the
    message is signed by the operator, the validator exists, is not jailed and
    has the stake, the account is well-formed and not in use, and an IP address
    is given; it then stores the new ACTIVE record and indexes its account. *)
Theorem first_registration_iff h ctx msg v s :
  reachable h (store s) → sn_records (store s) !! v = None →
  ValAddressFromBech32 (reg_ValidatorAddress msg) = Some v →
  let '(r, s') := run_tx (RegisterSupernode ctx msg) s in
  (is_ok r = true ↔
   registrable ctx msg v (store s) ∧ sn_accounts (store s) !! reg_SupernodeAccount msg = None) ∧
  (is_ok r = true → store s' = put_sn v (new_record ctx msg) (store s)) ∧
  (is_ok r = false → s' = s).
Proof.
  intros [[Hr Hi] _]%reachable_ok Hv Hval.
  pose proof (register_needs ctx msg v s Hi Hv Hval) as Hneeds.
  assert (registrable ctx msg v (store s) ∧
    sn_accounts (store s) !! reg_SupernodeAccount msg = None →
    ∃ evs, RegisterSupernode ctx msg s =
      (Ok tt, St (put_sn v (new_record ctx msg) (store s)) evs)) as Hsuff.
  { intros [Hreg Hfree]. pose proof (message_record_valid _ _ _ _ Hreg) as Hok.
    pose proof Hreg as ([_ Hacc] & (validator & Hvalr & Hj & Hel) & Ha & Hd & Hip).
    destruct (with_defaults_fields (message_record ctx msg)) as (Ev & _ & Ea & _).
    assert (wrap_err ErrIO (SetSuperNode (new_record ctx msg)) s =
      (Ok tt, St (put_sn v (new_record ctx msg) (store s)) (events s))) as Hset.
    { apply wrap_err_ok, SetSuperNode_fresh; unfold new_record; rewrite ?Ev, ?Ea; try done.
      by eapply SuperNode_Validate_idem. }
    eexists. unfold RegisterSupernode, get_validator, QuerySuperNode.
    rewrite (bind_of_option _ _ v), (bind_of_result _ tt), bind_gets, Hv, Hvalr
      by (done || by apply VerifyValidatorOperator_Ok).
    rewrite (bind_ok _ _ s validator s), bind_ensure by (done || by rewrite Hj).
    rewrite (bind_ok _ _ s tt s) by (rewrite bind_gets; by rewrite Hel).
    by rewrite (bind_of_result _ (new_record ctx msg)), (bind_ok _ _ _ _ _ Hset) by done. }
  unfold run_tx, wp in *. destruct (RegisterSupernode ctx msg s) as [[[]|e] s'] eqn:E; simpl in *.
  - split_and!; [split; auto|intros _|done]. destruct (Hsuff (Hneeds eq_refl)) as [evs [= ->]]. done.
  - split_and!; [split; [done|]|done|done]. intros H1. by destruct (Hsuff H1).
Qed.
End Theorems.

(** ** Instances of the theorems on a concrete chain *)
Module Examples.
Import Sdk.Concrete.

#[export] Instance versions : Semver :=
  {| semver_version := string; semver_NewVersion v := Some v; semver_error _ := "invalid";
     semver_String v := v; semver_LessThan _ _ := false |}.

Definition params : Params :=
  {| MinimumStakeForSn := 1000; MinimumStakeDenom := "ulume"; ReportingThreshold := 0;
     SlashingThreshold := 0; MetricsThresholds := ""; EvidenceRetentionPeriod := "";
     SlashingFraction := ""; InactivityPenaltyPeriod := ""; MetricsUpdateIntervalBlocks := 400;
     MetricsGracePeriodBlocks := 100; MetricsFreshnessMaxBlocks := 500;
     MinSupernodeVersion := "1.0.0"; MinCpuCores := 8; MaxCpuUsagePercent := 90;
     MinMemGb := 16; MaxMemUsagePercent := 90; MinStorageGb := 1000;
     MaxStorageUsagePercent := 90; RequiredOpenPorts := [4444; 4445; 8002];
     RewardDistributionParams := None |}.
Definition st0 : st sn_store := St (SnStore ∅ ∅ ∅ params) [].
Definition register : MsgRegisterSupernode :=
  {| reg_Creator := "aval1"; reg_ValidatorAddress := "vval1"; reg_IpAddress := "10.0.0.1";
     reg_SupernodeAccount := "asn1"; reg_P2PPort := "" |}.
Definition deregister : MsgDeregisterSupernode :=
  {| dereg_Creator := "aval1"; dereg_ValidatorAddress := "vval1" |}.
Definition val1 : bytes := string_bytes "val1".
Definition st1 : st sn_store := (run_tx (sn_exec (ctx_at 5 0) (CallRegister register)) st0).2.
Definition st2 : st sn_store :=
  (run_tx (sn_exec (ctx_at 6 0) (CallPostpone val1 "audit")) st1).2.
Definition st3 : st sn_store :=
  (run_tx (sn_exec (ctx_at 7 0) (CallDeregister deregister)) st1).2.
(** A full disk is reported, then one that is not, then the account migrates. *)
Definition st4 : st sn_store :=
  (run_tx (sn_exec (ctx_at 6 0) (CallEpochReport "asn1" (f64_of_Z 95))) st1).2.
Definition st5 : st sn_store :=
  (run_tx (sn_exec (ctx_at 7 0) (CallEpochReport "asn1" (f64_of_Z 10))) st4).2.
Definition st6 : st sn_store :=
  (run_tx (sn_exec (ctx_at 8 0) (CallMigrateAccount "asn1" "anew1")) st5).2.

Lemma st0_reachable : reachable 0 (store st0).
Proof. apply reach_init. Qed.
Lemma st1_reachable : reachable 5 (store st1).
Proof. apply (reach_call 0 (ctx_at 5 0) (CallRegister register) st0 st0_reachable). by simpl. Qed.
Lemma st2_reachable : reachable 6 (store st2).
Proof. apply (reach_call 5 (ctx_at 6 0) (CallPostpone val1 "audit") st1 st1_reachable). by simpl. Qed.
Lemma st3_reachable : reachable 7 (store st3).
Proof. apply (reach_call 5 (ctx_at 7 0) (CallDeregister deregister) st1 st1_reachable). by simpl. Qed.
Lemma st4_reachable : reachable 6 (store st4).
Proof. apply (reach_call 5 (ctx_at 6 0) (CallEpochReport "asn1" (f64_of_Z 95)) st1 st1_reachable). by simpl. Qed.
Lemma st5_reachable : reachable 7 (store st5).
Proof. apply (reach_call 6 (ctx_at 7 0) (CallEpochReport "asn1" (f64_of_Z 10)) st4 st4_reachable). by simpl. Qed.
Lemma st6_reachable : reachable 8 (store st6).
Proof. apply (reach_call 7 (ctx_at 8 0) (CallMigrateAccount "asn1" "anew1") st5 st5_reachable). by simpl. Qed.

Lemma registry_calls_are_transitions_witness :
  sn_step (ctx_at 7 0) OpEpochReport (store st4) (store st5) ∧
  LastState <$> sn_records (store st4) !! val1 = Some (Some SuperNodeStateStorageFull) ∧
  LastState <$> sn_records (store st5) !! val1 = Some (Some SuperNodeStateActive).
Proof.
  split; [|split; vm_compute; reflexivity].
  apply (registry_calls_are_transitions (ctx_at 7 0) (CallEpochReport "asn1" (f64_of_Z 10)) st4).
  apply (reachable_ok 6), st4_reachable.
Defined.

Lemma reachable_registry_ok_witness :
  sn_inv (store st6) ∧ history_ok 8 (store st6) ∧ sn_accounts (store st6) = {["anew1" := val1]}.
Proof.
  destruct (reachable_registry_ok 8 (store st6) st6_reachable) as [Hinv Hh].
  split; [exact Hinv|]. split; [exact Hh|]. vm_compute. reflexivity.
Defined.

Lemma account_lookup_is_scan_witness :
  ∃ v sn, GetSuperNodeByAccount "asn1" (store st1) = Some sn ∧ sn_records (store st1) !! v = Some sn.
Proof.
  destruct (GetSuperNodeByAccount "asn1" (store st1)) as [sn|] eqn:E; [|vm_compute in E; discriminate].
  destruct (proj1 (proj1 (account_lookup_is_scan 5 (store st1) "asn1" st1_reachable) sn) E)
    as (v & Hv & _). exists v, sn. split; [reflexivity|exact Hv].
Defined.

Lemma operator_messages_authorized_witness :
  ∃ v, signed_by "aval1" "vval1" v ∧ only_changes v (store st1) (store st3).
Proof.
  apply (operator_messages_authorized (ctx_at 7 0) (CallDeregister deregister) "aval1" "vval1"
           5 st1 st3 st1_reachable); vm_compute; reflexivity.
Defined.

Lemma disabled_is_sticky_witness :
  ∃ sn', sn_records (store (run_tx (sn_exec (ctx_at 8 0) (CallBonded val1)) st3).2) !! val1
         = Some sn' ∧ LastState sn' = Some SuperNodeStateDisabled.
Proof.
  destruct (sn_records (store st3) !! val1) as [sn|] eqn:E; [|vm_compute in E; discriminate].
  apply (disabled_is_sticky 7 (ctx_at 8 0) (CallBonded val1) st3 val1 sn st3_reachable);
    [repeat split; discriminate|exact E|].
  vm_compute in E. injection E as <-. reflexivity.
Defined.

Lemma stop_start_reactivates_witness :
  ∃ s' sn', (_ ← StopSupernode (ctx_at 7 0)
               {| stop_Creator := "aval1"; stop_ValidatorAddress := "vval1"; stop_Reason := "" |};
             StartSupernode (ctx_at 8 0)
               {| start_Creator := "aval1"; start_ValidatorAddress := "vval1" |}) st2 = (Ok tt, s') ∧
    sn_records (store s') !! val1 = Some sn' ∧ LastState sn' = Some SuperNodeStateActive.
Proof.
  destruct (sn_records (store st2) !! val1) as [sn|] eqn:E; [|vm_compute in E; discriminate].
  apply (stop_start_reactivates 6 (ctx_at 7 0) (ctx_at 8 0) "aval1" "vval1" "" val1 sn
           SuperNodeStatePostponed st2 st2_reachable); [split; reflexivity|exact E| |discriminate..].
  vm_compute in E. injection E as <-. reflexivity.
Defined.

Lemma first_registration_iff_witness :
  registrable (ctx_at 5 0) register val1 (store st0) ∧
  store st1 = put_sn val1 (new_record (ctx_at 5 0) register) (store st0).
Proof.
  pose proof (first_registration_iff 0 (ctx_at 5 0) register val1 st0 st0_reachable
                eq_refl eq_refl) as H.
  assert ((run_tx (RegisterSupernode (ctx_at 5 0) register) st0) = (Ok tt, st1)) as E
    by (vm_compute; reflexivity).
  rewrite E in H. destruct H as (Hiff & Hok & _).
  split; [apply (proj1 Hiff); reflexivity|apply Hok; reflexivity].
Defined.
End Examples.
