(* ===== verification/SupernodeRank.v ===== *)
(** * x/supernode/v1/keeper: ranking supernodes for a block

    query_get_top_super_nodes_for_block.go: the state of a supernode at a past
    height by binary search in its history, the XOR distance, and the query
    that the action module uses to find the ten supernodes in charge. *)
From Stdlib Require Import ZArith Lia Ascii.
From stdpp Require Import base numbers strings list gmap sorting.
From S2P Require Import Prelude Sdk SupernodeTypes Supernode SupernodeMsg SupernodeParams SupernodeInv SupernodeThm.
Open Scope Z_scope.

Definition DefaultLimit : Z := 25.

Definition parse_state_filter (state : string) : SuperNodeState :=
  let n := strings_ToUpper (strings_TrimSpace state) in
  if decide (n = "" ∨ n = "SUPERNODE_STATE_UNSPECIFIED" ∨ n = "UNSPECIFIED")
  then SuperNodeStateUnspecified else
  if decide (n = "SUPERNODE_STATE_ACTIVE" ∨ n = "ACTIVE") then SuperNodeStateActive else
  if decide (n = "SUPERNODE_STATE_DISABLED" ∨ n = "DISABLED") then SuperNodeStateDisabled else
  if decide (n = "SUPERNODE_STATE_STOPPED" ∨ n = "STOPPED") then SuperNodeStateStopped else
  if decide (n = "SUPERNODE_STATE_PENALIZED" ∨ n = "PENALIZED") then SuperNodeStatePenalized else
  if decide (n = "SUPERNODE_STATE_POSTPONED" ∨ n = "POSTPONED") then SuperNodeStatePostponed else
  if decide (n = "SUPERNODE_STATE_STORAGE_FULL" ∨ n = "STORAGE_FULL")
  then SuperNodeStateStorageFull else SuperNodeStateUnspecified.

(** ** The state at a height *)
Definition DetermineStateAtBlock (states : list SuperNodeStateRecord) (blockHeight : Z)
    : option SuperNodeState :=
  match states with
  | [] => None
  | _ =>
      let pos := sort_Search (length states)
        (λ i, match states !! i with Some r => blockHeight <? Height r | None => false end) in
      match pos with
      | O => None
      | S idx => State <$> states !! idx
      end
  end.

(** ** Distances *)
Definition SetBytes (l : bytes) : Z := foldl (λ acc b, acc * 256 + b) 0 l.

Definition xorDistance (a b : bytes) : Z :=
  let n := Nat.max (length a) (length b) in
  SetBytes ((λ i, Z.lxor (nth i a 0) (nth i b 0)) <$> seq 0 n).

Section Rank.
Context `{SdkAddress} `{LegacyDecOps} `{Blake3}.

Definition hashValidatorAddress (valAddr : string) : option bytes :=
  blake3_Sum256 <$> ValAddressFromBech32 valAddr.

Definition calcDistance (blockHash : bytes) (sn : SuperNode) : option Z :=
  xorDistance blockHash <$> hashValidatorAddress (ValidatorAddress sn).

Definition GetBlockHashForHeight (height : Z) : result bytes :=
  if height <=? 0 then Err ErrInvalidRequest
  else Ok (blake3_Sum256 (string_bytes (FormatInt height))).

(** [a < b] on Go strings *)
Definition string_lt (a b : string) : bool := negb (bytes_leb (string_bytes b) (string_bytes a)).

Definition closer (p q : SuperNode * Z) : bool :=
  if p.2 =? q.2 then string_lt (ValidatorAddress p.1) (ValidatorAddress q.1) else p.2 <? q.2.

Definition with_distance (blockHash : bytes) (sn : SuperNode) : option (SuperNode * Z) :=
  d ← calcDistance blockHash sn; Some (sn, d).

(** [topN] is positive at the only call; Go's [make] would panic on a negative
    value where this model returns the empty list. *)
Definition RankSuperNodesByDistance (blockHash : bytes) (supernodes : list SuperNode) (topN : Z)
    : list SuperNode :=
  let distances := sort_stable closer (omap (with_distance blockHash) supernodes) in
  take (Z.to_nat (Z.min topN (zlen distances))) distances.*1.

Record QueryGetTopSuperNodesForBlockRequest := {
  req_BlockHeight : Z;
  req_Limit : Z;
  req_State : string
}.

Definition selected (filter : SuperNodeState) (blockHeight : Z) (sn : SuperNode) : bool :=
  match DetermineStateAtBlock (States sn) blockHeight with
  | None => false
  | Some stateAtBlock =>
      if decide (stateAtBlock = SuperNodeStateUnspecified) then false else
      if decide (filter = SuperNodeStateUnspecified) then
        negb (bool_decide (stateAtBlock = SuperNodeStatePostponed) ||
              bool_decide (stateAtBlock = SuperNodeStateStorageFull))
      else bool_decide (stateAtBlock = filter)
  end.

Definition GetTopSuperNodesForBlock (req : QueryGetTopSuperNodesForBlockRequest) (s : sn_store)
    : result (list SuperNode) :=
  let superNodeStateFilter := parse_state_filter (req_State req) in
  let blockHeight := req_BlockHeight req in
  if blockHeight <=? 0 then Err ErrInvalidRequest else
  let limit := if req_Limit req <=? 0 then DefaultLimit else req_Limit req in
  let allSns := GetAllSuperNodes [] s in
  let validSns := List.filter (selected superNodeStateFilter blockHeight) allSns in
  match GetBlockHashForHeight blockHeight with
  | Err _ => Err ErrInvalidRequest
  | Ok blockHash => Ok (RankSuperNodesByDistance blockHash validSns limit)
  end.
End Rank.

(** ** Correctness of the binary search *)

Lemma heights_mono states i j r r' :
  Sorted Z.le (Height <$> states) → states !! i = Some r → states !! j = Some r' →
  (i ≤ j)%nat → Height r ≤ Height r'.
Proof.
  intros Hs Hi Hj Hij. apply Sorted_StronglySorted in Hs; [|intros ?; lia].
  destruct (decide (i = j)) as [->|Hne]; [simplify_eq; lia|].
  apply (StronglySorted_lookup Z.le (Height <$> states) i j); [done|..|lia];
    rewrite list_lookup_fmap; by simplify_option_eq.
Qed.

(** The last record at or below the height, by a scan. *)
Definition state_at (states : list SuperNodeStateRecord) (h : Z) : option SuperNodeState :=
  State <$> last (filter (λ r, Height r ≤ h) states).

Lemma DetermineStateAtBlock_scan states h :
  Sorted Z.le (Height <$> states) → DetermineStateAtBlock states h = state_at states h.
Proof.
  intros Hs. unfold DetermineStateAtBlock, state_at.
  destruct states as [|r0 states0] eqn:Est; [done|]. rewrite <- Est in *. clear Est.
  set (f := λ i, match states !! i with Some r => h <? Height r | None => false end).
  destruct (sort_Search_spec (length states) f) as (Hn & Hlo & Hhi).
  { intros a b Hab Hb. unfold f.
    destruct (states !! a) as [ra|] eqn:Ea; [|done].
    destruct (lookup_lt_is_Some_2 states b Hb) as [rb Eb]. rewrite Eb.
    pose proof (heights_mono _ _ _ _ _ Hs Ea Eb Hab). rewrite !Z.ltb_lt. lia. }
  set (pos := sort_Search (length states) f) in *.
  rewrite (filter_take _ states pos).
  - destruct pos as [|idx]; [done|]. by rewrite last_take.
  - intros k x Hk Hlt. specialize (Hlo k Hlt). unfold f in Hlo. rewrite Hk in Hlo.
    apply Z.ltb_ge in Hlo. lia.
  - intros k x Hk Hge. specialize (Hhi k (conj Hge (lookup_lt_Some _ _ _ Hk))).
    unfold f in Hhi. rewrite Hk in Hhi. apply Z.ltb_lt in Hhi. lia.
Qed.

(** In every reachable registry the binary search of DetermineStateAtBlock
    gives the state of the last history record at or below the height, for every
    supernode and every height. *)
Theorem state_lookup_is_scan `{SdkAddress} `{LegacyDecOps} `{Semver} h s v sn b :
  reachable h s → sn_records s !! v = Some sn →
  DetermineStateAtBlock (States sn) b = state_at (States sn) b.
Proof.
  intros [_ Hh]%reachable_ok Hv. apply DetermineStateAtBlock_scan. by apply (Hh v).
Qed.

(** ** XOR distances of digests *)
Lemma foldl_SetBytes l acc : foldl (λ a b, a * 256 + b) acc l = acc * 256 ^ zlen l + SetBytes l.
Proof.
  unfold SetBytes. revert acc. induction l as [|b l IH]; intros acc; simpl.
  - unfold zlen. simpl. lia.
  - rewrite (IH (acc * 256 + b)), (IH (0 * 256 + b)). unfold zlen. rewrite length_cons, Nat2Z.inj_succ, Z.pow_succ_r by lia. lia.
Qed.
Lemma SetBytes_cons b l : SetBytes (b :: l) = b * 256 ^ zlen l + SetBytes l.
Proof. unfold SetBytes. simpl. by rewrite foldl_SetBytes. Qed.
Lemma SetBytes_range l : Forall is_byte l → 0 ≤ SetBytes l < 256 ^ zlen l.
Proof.
  induction 1 as [|b l Hb _ IH]; [unfold SetBytes, zlen; simpl; lia|].
  rewrite SetBytes_cons. unfold is_byte, zlen in *.
  rewrite length_cons, Nat2Z.inj_succ, Z.pow_succ_r by lia. nia.
Qed.

Lemma SetBytes_inj l l' :
  length l = length l' → Forall is_byte l → Forall is_byte l' → SetBytes l = SetBytes l' → l = l'.
Proof.
  revert l'. induction l as [|b l IH]; intros [|b' l'] Hlen Hl Hl'; try done.
  rewrite !SetBytes_cons. apply Forall_cons in Hl as [Hb Hl], Hl' as [Hb' Hl'].
  injection Hlen as Hlen. assert (zlen l = zlen l') as Ez by (unfold zlen; lia). rewrite Ez.
  pose proof (SetBytes_range _ Hl). pose proof (SetBytes_range _ Hl'). rewrite Ez in *.
  intros E. assert (b = b') as -> by nia. f_equal. apply IH; [done..|lia].
Qed.

Lemma lxor_byte a b : is_byte a → is_byte b → is_byte (Z.lxor a b).
Proof.
  unfold is_byte. intros Ha Hb. change 256 with (2 ^ 8) in *.
  assert (0 ≤ Z.lxor a b) as Hn by (apply Z.lxor_nonneg; lia). split; [done|].
  apply Z.bounded_iff_bits_nonneg; [lia|done|]. intros l Hl. rewrite Z.lxor_spec.
  assert (∀ z, 0 ≤ z < 2 ^ 8 → Z.testbit z l = false) as Hbit.
  { intros z Hz. apply (Z.bounded_iff_bits_nonneg 8 z); lia. }
  by rewrite !Hbit.
Qed.

Definition xor_bytes (a b : bytes) : bytes := zip_with Z.lxor a b.

Lemma xorDistance_zip a b :
  length a = length b → xorDistance a b = SetBytes (xor_bytes a b).
Proof.
  intros Hlen. unfold xorDistance, xor_bytes. rewrite Hlen, Nat.max_id. f_equal.
  apply list_eq. intros i. rewrite list_lookup_fmap, lookup_zip_with.
  destruct (decide (i < length b)%nat) as [Hi|Hi].
  - rewrite lookup_seq_lt by done. simpl.
    destruct (lookup_lt_is_Some_2 a i) as [x Hx]; [lia|].
    destruct (lookup_lt_is_Some_2 b i) as [y Hy]; [lia|].
    by rewrite Hx, Hy, (nth_lookup_Some _ _ _ _ Hx), (nth_lookup_Some _ _ _ _ Hy).
  - rewrite lookup_seq_ge by lia. simpl. by rewrite (lookup_ge_None_2 a) by lia.
Qed.

Lemma xor_bytes_ok a b : Forall is_byte a → Forall is_byte b → Forall is_byte (xor_bytes a b).
Proof.
  intros Ha. revert b. induction Ha as [|x a Hx _ IH]; intros b Hb; [constructor|].
  destruct Hb as [|y b Hy Hb]; constructor; [by apply lxor_byte|by apply IH].
Qed.

Lemma xor_bytes_cancel h a b :
  length h = length a → length h = length b → xor_bytes h a = xor_bytes h b → a = b.
Proof.
  revert a b. induction h as [|x h IH]; intros [|y a] [|z b] Ha Hb; try done.
  simpl. intros [= E1 E2]. f_equal; [|by apply IH; simpl in *; try lia].
  rewrite <- (Z.lxor_0_l y), <- (Z.lxor_0_l z), <- (Z.lxor_nilpotent x).
  by rewrite !Z.lxor_assoc, E1.
Qed.

(** Two digests of the length of the block hash are at the same distance
    from it only when they are equal, so a tie between supernodes needs a hash
    collision; distances are symmetric and zero on equal digests. *)
Theorem xor_distance_metric hash a b :
  length hash = length a → length hash = length b →
  Forall is_byte hash → Forall is_byte a → Forall is_byte b →
  (xorDistance hash a = xorDistance hash b → a = b) ∧
  xorDistance a b = xorDistance b a ∧ (xorDistance a b = 0 ↔ a = b).
Proof.
  intros Ha Hb Fh Fa Fb. assert (length a = length b) as Hab by congruence.
  assert (∀ x y z, length x = length y → length x = length z → Forall is_byte x →
    Forall is_byte y → Forall is_byte z → xorDistance x y = xorDistance x z → y = z) as Hinj.
  { intros x y z Hy Hz Fx Fy Fz. rewrite !xorDistance_zip by done. intros E.
    apply (xor_bytes_cancel x); [done..|]. apply SetBytes_inj; [|by apply xor_bytes_ok..|done].
    unfold xor_bytes. rewrite !length_zip_with. lia. }
  assert (xorDistance a a = 0) as Hz.
  { unfold xorDistance. rewrite Nat.max_id. induction (seq 0 (length a)) as [|i l IH]; [done|].
    rewrite fmap_cons, SetBytes_cons, IH, Z.lxor_nilpotent. lia. }
  split_and!; [by apply Hinj| |split; [|by intros ->]].
  - unfold xorDistance. rewrite Nat.max_comm. f_equal. apply list_fmap_ext.
    intros i x _. apply Z.lxor_comm.
  - rewrite <- Hz. intros E. symmetry. by apply (Hinj a).
Qed.

(** ** The order of the ranking *)

Lemma string_lt_false a b : string_lt a b = false ↔ bytes_le (string_bytes b) (string_bytes a).
Proof. unfold string_lt, bytes_le. apply negb_false_iff. Qed.
Lemma string_lt_true a b : string_lt a b = true ↔ ¬ bytes_le (string_bytes b) (string_bytes a).
Proof. rewrite <- string_lt_false. by destruct string_lt. Qed.

Lemma closer_irrefl p : closer p p = false.
Proof. unfold closer. rewrite Z.eqb_refl. by apply string_lt_false. Qed.

(** [in_order closer p q]: [p] is at most as far as [q]. *)
Lemma in_order_closer p q :
  in_order closer p q ↔
  p.2 < q.2 ∨ (p.2 = q.2 ∧
    bytes_le (string_bytes (ValidatorAddress p.1)) (string_bytes (ValidatorAddress q.1))).
Proof.
  unfold in_order, closer. destruct (Z.eqb_spec q.2 p.2) as [->|Hne].
  - rewrite string_lt_false. split; [auto|]. intros [?|[_ ?]]; [lia|done].
  - rewrite Z.ltb_ge. split; [lia|]. intros [?|[? _]]; lia.
Qed.

Lemma closer_true p q :
  closer p q = true ↔
  p.2 < q.2 ∨ (p.2 = q.2 ∧
    ¬ bytes_le (string_bytes (ValidatorAddress q.1)) (string_bytes (ValidatorAddress p.1))).
Proof.
  unfold closer. destruct (Z.eqb_spec p.2 q.2) as [->|Hne].
  - rewrite string_lt_true. split; [auto|]. intros [?|[_ ?]]; [lia|done].
  - rewrite Z.ltb_lt. split; [lia|]. intros [?|[? _]]; lia.
Qed.

Lemma closer_trans p q r : closer p q = true → closer q r = true → closer p r = true.
Proof.
  rewrite !closer_true. intros [H1|[E1 H1]] [H2|[E2 H2]]; try (left; lia).
  right. split; [lia|]. intros H3. apply H2. etrans; [done|].
  by destruct (total bytes_le (string_bytes (ValidatorAddress p.1))
                              (string_bytes (ValidatorAddress q.1))).
Qed.

Lemma in_order_closer_trans p q r :
  in_order closer p q → in_order closer q r → in_order closer p r.
Proof.
  rewrite !in_order_closer. intros [H1|[E1 H1]] [H2|[E2 H2]]; try (left; lia).
  right. split; [lia|]. by etrans.
Qed.

Lemma in_order_closer_antisym p q :
  in_order closer p q → in_order closer q p →
  p.2 = q.2 ∧ ValidatorAddress p.1 = ValidatorAddress q.1.
Proof.
  rewrite !in_order_closer. intros [H1|[E1 H1]] [H2|[E2 H2]]; try lia.
  split; [done|]. apply string_bytes_inj. by apply (anti_symm bytes_le).
Qed.

Section RankThm.
Context `{SdkAddress} `{LegacyDecOps} `{Hsv : Semver} `{Blake3}.

Definition ranked (blockHash : bytes) (supernodes : list SuperNode) : list (SuperNode * Z) :=
  sort_stable closer (omap (with_distance blockHash) supernodes).

Lemma ranked_sorted blockHash sns : StronglySorted (in_order closer) (ranked blockHash sns).
Proof.
  apply sort_stable_sorted;
    [apply closer_trans|apply closer_irrefl|apply in_order_closer_trans].
Qed.

Lemma elem_of_ranked blockHash sns sn d :
  (sn, d) ∈ ranked blockHash sns ↔ sn ∈ sns ∧ calcDistance blockHash sn = Some d.
Proof.
  unfold ranked. rewrite sort_stable_perm, list_elem_of_omap. unfold with_distance. split.
  - intros (sn' & Hin & Hd). destruct (calcDistance blockHash sn') eqn:E; naive_solver.
  - intros [Hin Hd]. exists sn. by rewrite Hd.
Qed.

Lemma RankSuperNodesByDistance_take blockHash sns topN :
  0 ≤ topN → RankSuperNodesByDistance blockHash sns topN =
  take (Z.to_nat topN) (ranked blockHash sns).*1.
Proof.
  intros Hn. unfold RankSuperNodesByDistance, zlen. fold (ranked blockHash sns).
  destruct (Z.le_ge_cases topN (Z.of_nat (length (ranked blockHash sns)))).
  - by rewrite Z.min_l.
  - rewrite Z.min_r, Nat2Z.id by lia.
    rewrite !take_ge; [done|rewrite length_fmap; lia..].
Qed.

(** A prefix of a ranking holds the closest supernodes. *)
Lemma ranked_take_closest blockHash sns n sn sn' d d' :
  sn ∈ take n (ranked blockHash sns).*1 → sn' ∈ (ranked blockHash sns).*1 →
  sn' ∉ take n (ranked blockHash sns).*1 →
  calcDistance blockHash sn = Some d → calcDistance blockHash sn' = Some d' → d ≤ d'.
Proof.
  intros Hin Hin' Hout Hd Hd'.
  apply elem_of_take in Hin as (i & Hi & Hlt). rewrite list_lookup_fmap in Hi.
  apply list_elem_of_lookup_1 in Hin' as [j Hj].
  assert (n ≤ j)%nat as Hge.
  { destruct (decide (n ≤ j)%nat) as [|Hn]; [done|]. exfalso. apply Hout.
    apply elem_of_take. exists j. split; [done|lia]. }
  rewrite list_lookup_fmap in Hj.
  destruct (ranked blockHash sns !! i) as [[a da]|] eqn:Ei; [|done].
  destruct (ranked blockHash sns !! j) as [[b db]|] eqn:Ej; [|done]. simplify_eq/=.
  assert (in_order closer (sn, da) (sn', db)) as Ho%in_order_closer.
  { eapply StronglySorted_lookup; [apply ranked_sorted|done..|lia]. }
  apply list_elem_of_lookup_2, elem_of_ranked in Ei as [_ Ei].
  apply list_elem_of_lookup_2, elem_of_ranked in Ej as [_ Ej]. simplify_eq. simpl in Ho. lia.
Qed.

(** Ranking does not depend on the order in which the store delivers the
    supernodes, as long as no validator address is listed twice. *)
Theorem rank_order_independent blockHash sns sns' topN :
  NoDup (ValidatorAddress <$> sns) → sns ≡ₚ sns' →
  RankSuperNodesByDistance blockHash sns topN = RankSuperNodesByDistance blockHash sns' topN.
Proof.
  intros Hnd Hp. unfold RankSuperNodesByDistance.
  rewrite (sort_stable_unique closer closer_trans closer_irrefl in_order_closer_trans
    (omap (with_distance blockHash) sns) (omap (with_distance blockHash) sns')); [done| |].
  - intros [a da] [b db] Ha Hb H1' H2'.
    destruct (in_order_closer_antisym _ _ H1' H2') as [Ed Ea]. simpl in *.
    apply list_elem_of_omap in Ha as (a' & Ha & Ea'), Hb as (b' & Hb & Eb').
    unfold with_distance in *. destruct (calcDistance blockHash a') eqn:?; [|done].
    destruct (calcDistance blockHash b') eqn:?; [|done]. simplify_eq/=. f_equal.
    apply list_elem_of_lookup_1 in Ha as [i Hi], Hb as [j Hj].
    assert (i = j); [|by simplify_eq].
    eapply (NoDup_lookup (ValidatorAddress <$> sns)); [done|..];
      rewrite list_lookup_fmap; [by rewrite Hi|rewrite Hj; simpl; by rewrite Ea].
  - by rewrite Hp.
Qed.

(** ** The query *)

(** What the state filter of a request admits. *)
Definition admitted (filter : SuperNodeState) (state : option SuperNodeState) : Prop :=
  match filter with
  | SuperNodeStateUnspecified =>
      ∃ st, state = Some st ∧ st ≠ SuperNodeStateUnspecified ∧
            st ≠ SuperNodeStatePostponed ∧ st ≠ SuperNodeStateStorageFull
  | _ => state = Some filter
  end.

Lemma selected_spec filter h sn :
  Sorted Z.le (Height <$> States sn) →
  selected filter h sn = true ↔ admitted filter (state_at (States sn) h).
Proof.
  intros Hs. unfold selected. rewrite DetermineStateAtBlock_scan by done.
  destruct (state_at (States sn) h) as [st|]; [|by destruct filter; naive_solver].
  destruct filter, st; simpl; naive_solver.
Qed.

Definition limit_of (req : QueryGetTopSuperNodesForBlockRequest) : Z :=
  if req_Limit req <=? 0 then DefaultLimit else req_Limit req.

Lemma elem_of_GetAllSuperNodes s sn :
  records_ok s → sn ∈ GetAllSuperNodes [] s ↔ ∃ v, sn_records s !! v = Some sn.
Proof.
  intros Hr. unfold GetAllSuperNodes. rewrite elem_of_List_filter. split.
  - intros [_ ([v sn'] & -> & Hin)%list_elem_of_fmap]. exists v. by apply elem_of_kv_iter in Hin.
  - intros [v Hv]. split.
    + destruct (Hr _ _ Hv) as [[(_ & _ & _ & Hne & _) _]%SuperNode_Validate_Ok _].
      unfold LastState. destruct (last (States sn)) eqn:E; [done|]. by apply last_None in E.
    + apply list_elem_of_fmap. exists (v, sn). split; [done|]. by apply elem_of_kv_iter.
Qed.

Lemma elem_of_ranked_registry h s filter b hash sn :
  records_ok s → history_ok h s →
  sn ∈ (ranked hash (List.filter (selected filter b) (GetAllSuperNodes [] s))).*1 ↔
  ∃ v, sn_records s !! v = Some sn ∧ admitted filter (state_at (States sn) b).
Proof.
  intros Hr Hh. rewrite list_elem_of_fmap. split.
  - intros ([sn' d] & -> & [[Hsel Hall]%elem_of_List_filter _]%elem_of_ranked).
    apply elem_of_GetAllSuperNodes in Hall as [v Hv]; [|done]. exists v. split; [done|].
    apply selected_spec; [by apply (Hh v)|done].
  - intros (v & Hv & Hadm). destruct (Hr _ _ Hv) as [_ Hval].
    eexists (sn, _). split; [done|]. apply elem_of_ranked. split.
    + apply elem_of_List_filter. rewrite elem_of_GetAllSuperNodes by done. split; [|eauto].
      apply selected_spec; [by apply (Hh v)|done].
    + unfold calcDistance, hashValidatorAddress. by rewrite Hval.
Qed.

(** C28. In a reachable registry the top-supernodes query for a positive height
    succeeds; it returns at most [limit] registered supernodes, each in an
    admitted state at that height, by growing XOR distance to the height's hash,
    and a supernode in an admitted state is left out only when the answer is
    full and nobody in it is farther away. *)
Theorem top_supernodes_spec h s req :
  reachable h s → 0 < req_BlockHeight req →
  let filter := parse_state_filter (req_State req) in
  let b := req_BlockHeight req in
  let dist sn := calcDistance (blake3_Sum256 (string_bytes (FormatInt b))) sn in
  ∃ l, GetTopSuperNodesForBlock req s = Ok l ∧
    zlen l ≤ limit_of req ∧
    (∀ sn, sn ∈ l → ∃ v, sn_records s !! v = Some sn ∧
       admitted filter (state_at (States sn) b)) ∧
    (∀ i j sn sn' d d', l !! i = Some sn → l !! j = Some sn' → (i < j)%nat →
       dist sn = Some d → dist sn' = Some d' → d ≤ d') ∧
    (∀ v sn, sn_records s !! v = Some sn → admitted filter (state_at (States sn) b) →
       sn ∉ l →
       zlen l = limit_of req ∧
       ∀ sn' d d', sn' ∈ l → dist sn' = Some d' → dist sn = Some d → d' ≤ d).
Proof.
  intros [[Hr _] Hh]%reachable_ok Hb filter b dist.
  assert (0 < limit_of req) as Hlim.
  { unfold limit_of, DefaultLimit. destruct (Z.leb_spec (req_Limit req) 0); lia. }
  set (hash := blake3_Sum256 (string_bytes (FormatInt b))) in *.
  set (sns := List.filter (selected filter b) (GetAllSuperNodes [] s)).
  exists (take (Z.to_nat (limit_of req)) (ranked hash sns).*1). split.
  { unfold GetTopSuperNodesForBlock, GetBlockHashForHeight. rewrite (proj2 (Z.leb_gt _ _) Hb).
    fold (limit_of req). rewrite RankSuperNodesByDistance_take by lia. done. }
  pose proof (λ sn, elem_of_ranked_registry h s filter b hash sn Hr Hh) as Hin. fold sns in Hin.
  unfold zlen. split_and!.
  - rewrite length_take. lia.
  - intros sn (i & Hi & _)%elem_of_take. by apply Hin; eapply list_elem_of_lookup_2.
  - intros i j sn sn' d d' Hi Hj Hij Hd Hd'.
    rewrite lookup_take_Some, list_lookup_fmap in Hi, Hj. destruct Hi as [Hi _], Hj as [Hj _].
    destruct (ranked hash sns !! i) as [[a da]|] eqn:Ei; [|done].
    destruct (ranked hash sns !! j) as [[a' da']|] eqn:Ej; [|done]. simplify_eq/=.
    pose proof (StronglySorted_lookup _ _ _ _ _ _ (ranked_sorted hash sns) Ei Ej Hij)
      as Ho%in_order_closer. simpl in Ho.
    apply list_elem_of_lookup_2, elem_of_ranked in Ei as [_ Ei], Ej as [_ Ej].
    unfold dist in *. simplify_eq. lia.
  - intros v sn Hv Hadm Hout. assert (sn ∈ (ranked hash sns).*1) as Hrk by (apply Hin; eauto).
    split.
    + rewrite length_take. destruct (decide (Z.to_nat (limit_of req) ≤ length (ranked hash sns).*1)%nat);
        [lia|]. rewrite take_ge in Hout by lia. done.
    + intros sn' d d' Hsn' Hd' Hd. by eapply ranked_take_closest.
Qed.
End RankThm.

Module RankExamples.
Import Sdk.Concrete SupernodeThm.Examples.

Lemma state_lookup_is_scan_witness :
  ∃ sn, sn_records (store st2) !! val1 = Some sn ∧
    DetermineStateAtBlock (States sn) 5 = Some SuperNodeStateActive ∧
    state_at (States sn) 5 = Some SuperNodeStateActive.
Proof.
  destruct (sn_records (store st2) !! val1) as [sn|] eqn:E; [|vm_compute in E; discriminate].
  exists sn. rewrite <- (state_lookup_is_scan 6 (store st2) val1 sn 5 st2_reachable E).
  split; [reflexivity|]. vm_compute in E. injection E as <-. split; reflexivity.
Defined.

Lemma xor_distance_metric_witness :
  xorDistance [1; 2] [3; 4] = xorDistance [3; 4] [1; 2].
Proof.
  destruct (xor_distance_metric [7; 7] [1; 2] [3; 4]) as (_ & E & _);
    [reflexivity|reflexivity|repeat constructor; lia..|exact E].
Defined.

Definition node (v : string) : SuperNode :=
  mkSuperNode v [StateRecord SuperNodeStateActive 4 ""] [] [IPHistory "10.0.0.2" 4] "" None
    "asn2" "4445" [].

Lemma rank_order_independent_witness :
  RankSuperNodesByDistance [1; 2; 3] [node "vval1"; node "vval2"; node "vval3"] 2 =
  RankSuperNodesByDistance [1; 2; 3] [node "vval3"; node "vval2"; node "vval1"] 2.
Proof.
  apply (rank_order_independent [1; 2; 3] [node "vval1"; node "vval2"; node "vval3"]
           [node "vval3"; node "vval2"; node "vval1"] 2).
  - vm_compute. repeat constructor; set_solver.
  - apply (Permutation_rev [node "vval1"; node "vval2"; node "vval3"]).
Defined.

Lemma top_supernodes_spec_witness :
  ∃ l, GetTopSuperNodesForBlock
         {| req_BlockHeight := 5; req_Limit := 10; req_State := "active" |} (store st2) = Ok l ∧
       zlen l ≤ 10.
Proof.
  destruct (top_supernodes_spec 6 (store st2)
    {| req_BlockHeight := 5; req_Limit := 10; req_State := "active" |} st2_reachable)
    as (l & E & Hl & _); [reflexivity|]. exists l. split; [exact E|exact Hl].
Defined.
End RankExamples.
