(* ===== verification/Merkle.v ===== *)
(** * x/action/v1/merkle: the chunk Merkle tree

    merkle.go: leaf and internal hashes, the padded binary tree, inclusion
    proofs and their verification.  A [[32]byte] is a list of bytes. *)
From Stdlib Require Import ZArith Lia.
From stdpp Require Import base numbers strings list sets.
From S2P Require Import Prelude Sdk.
Open Scope Z_scope.

Definition HashSize : nat := 32.

(** binary.BigEndian.PutUint32 *)
Definition uint32be (z : Z) : bytes :=
  [Z.shiftr z 24 mod 256; Z.shiftr z 16 mod 256; Z.shiftr z 8 mod 256; z mod 256].

Section Merkle.
Context `{Blake3}.

Definition HashLeaf (index : Z) (data : bytes) : bytes :=
  blake3_Sum256 ((0 :: uint32be index) ++ data).
Definition HashInternal (left right : bytes) : bytes :=
  blake3_Sum256 (1 :: left ++ right).

Record Tree := mkTree {
  Root : bytes;
  Leaves : list bytes;
  Levels : list (list bytes);
  LeafCount : Z
}.

(** The inner loop of BuildTree: the nodes of the next level. *)
Fixpoint pair_up (l : list bytes) : list bytes :=
  match l with
  | a :: b :: l' => HashInternal a b :: pair_up l'
  | _ => []
  end.

Definition pad (current : list bytes) : list bytes :=
  if Nat.odd (length current) then
    match last current with Some x => current ++ [x] | None => current end
  else current.

(** The outer loop: every iteration halves the level, so [length current]
    iterations suffice. *)
Fixpoint build_levels (fuel : nat) (current : list bytes) : list (list bytes) :=
  match fuel with
  | O => [current]
  | S fuel' =>
      if (1 <? length current)%nat then pad current :: build_levels fuel' (pair_up (pad current))
      else [current]
  end.

Definition BuildTree (chunks : list bytes) : result Tree :=
  match chunks with
  | [] => Err (ErrOther "empty input")
  | _ =>
      let leaves := imap (λ i chunk, HashLeaf (u32 (Z.of_nat i)) chunk) chunks in
      let levels := build_levels (length leaves) leaves in
      match last levels ≫= head with
      | Some root => Ok (mkTree root leaves levels (zlen chunks))
      | None => Err (Panic "index out of range")
      end
  end.

Record MerkleProof := mkProof {
  ChunkIndex : Z;
  LeafHash : bytes;
  PathHashes : list bytes;
  PathDirections : list bool
}.

(** The loop of GenerateProof: siblings from the leaves up, [true] when the
    sibling is on the right; [None] is an index out of range. *)
Fixpoint gen_path (levels : list (list bytes)) (idx : nat) : option (list (bytes * bool)) :=
  match levels with
  | [] | [_] => Some []
  | nodes :: rest =>
      step ← (if Nat.even idx then sib ← nodes !! S idx; Some (sib, true)
              else sib ← nodes !! pred idx; Some (sib, false));
      path ← gen_path rest (idx / 2);
      Some (step :: path)
  end.

Definition GenerateProof (t : Tree) (index : Z) : result MerkleProof :=
  if (index <? 0) || (LeafCount t <=? index) then Err (ErrOther "index out of range") else
  match Leaves t !! Z.to_nat index, gen_path (Levels t) (Z.to_nat index) with
  | Some leaf, Some path => Ok (mkProof (u32 index) leaf path.*1 path.*2)
  | _, _ => Err (Panic "index out of range")
  end.

(** One iteration of the loop of Verify. *)
Definition climb (current : bytes) (step : bytes * bool) : bytes :=
  if step.2 then HashInternal current step.1 else HashInternal step.1 current.

Definition Verify (p : MerkleProof) (root : bytes) : bool :=
  if (length (PathHashes p) =? length (PathDirections p))%nat then
    bool_decide (foldl climb (LeafHash p) (zip (PathHashes p) (PathDirections p)) = root)
  else false.

(** ** The levels *)
Lemma pair_up_lookup l k a b :
  l !! (2 * k)%nat = Some a → l !! S (2 * k) = Some b → pair_up l !! k = Some (HashInternal a b).
Proof.
  revert l. induction k as [|k IH]; intros l.
  - destruct l as [|x [|y l]]; simpl; naive_solver.
  - replace (2 * S k)%nat with (S (S (2 * k)))%nat by lia.
    destruct l as [|x [|y l]]; cbn -[Nat.mul]; [done..|apply IH].
Qed.

Lemma length_pair_up l : length (pair_up l) = (length l / 2)%nat.
Proof.
  enough (∀ n l, (length l ≤ n)%nat → length (pair_up l) = (length l / 2)%nat) by eauto.
  clear l. induction n as [|n IH]; intros [|x [|y l]] Hn; try done; [simpl in *; lia|].
  simpl pair_up. simpl length in *. rewrite IH by lia.
  replace (S (S (length l))) with (length l + 1 * 2)%nat by lia.
  rewrite Nat.div_add by lia. lia.
Qed.

Lemma pad_length l : length (pad l) = (length l + if Nat.odd (length l) then 1 else 0)%nat.
Proof.
  unfold pad. destruct (Nat.odd (length l)) eqn:Ho; [|lia].
  destruct (last l) eqn:E; [by rewrite length_app|]. by apply last_None in E as ->.
Qed.
Lemma pad_even l : Nat.even (length (pad l)) = true.
Proof.
  rewrite pad_length. destruct (Nat.odd (length l)) eqn:Ho.
  - by rewrite Nat.even_add, <- Nat.negb_odd, Ho.
  - by rewrite Nat.add_0_r, <- Nat.negb_odd, Ho.
Qed.
Lemma pad_prefix l : l `prefix_of` pad l.
Proof. unfold pad. repeat case_match; try done. by apply prefix_app_r. Qed.
Lemma elem_of_pad l x : x ∈ pad l ↔ x ∈ l.
Proof.
  unfold pad. destruct (Nat.odd _); [|done]. destruct (last l) as [y|] eqn:E; [|done].
  rewrite elem_of_app, list_elem_of_singleton. split; [|auto]. intros [?| ->]; [done|].
  apply last_Some in E as [l' ->]. set_solver.
Qed.

(** The next level is at least one node and smaller, so the loop ends. *)
Lemma next_level_length l :
  (1 < length l)%nat → (1 ≤ length (pair_up (pad l)) < length l)%nat.
Proof.
  intros Hl. rewrite length_pair_up, pad_length. split.
  - apply Nat.div_le_lower_bound; [lia|destruct (Nat.odd (length l)); lia].
  - destruct (Nat.odd (length l)) eqn:Ho; apply Nat.Div0.div_lt_upper_bound; [|lia].
    destruct (decide (length l = 2%nat)) as [E|]; [by rewrite E in Ho|lia].
Qed.

Definition root_of (levels : list (list bytes)) : option bytes := last levels ≫= head.

Lemma root_of_cons l levels : levels ≠ [] → root_of (l :: levels) = root_of levels.
Proof. intros Hne. unfold root_of. by destruct levels. Qed.
Lemma build_levels_ne fuel l : build_levels fuel l ≠ [].
Proof. destruct fuel; simpl; [done|]. by destruct (1 <? length l)%nat. Qed.

Lemma build_levels_unfold fuel l :
  (1 < length l)%nat →
  build_levels (S fuel) l = pad l :: build_levels fuel (pair_up (pad l)).
Proof. intros Hl. simpl. by rewrite (proj2 (Nat.ltb_lt _ _) Hl). Qed.
Lemma build_levels_single fuel x : build_levels fuel [x] = [[x]].
Proof. by destruct fuel. Qed.

Lemma gen_path_cons nodes rest idx :
  rest ≠ [] →
  gen_path (nodes :: rest) idx =
    (step ← (if Nat.even idx then sib ← nodes !! S idx; Some (sib, true)
             else sib ← nodes !! pred idx; Some (sib, false));
     path ← gen_path rest (idx / 2);
     Some (step :: path)).
Proof. by destruct rest. Qed.

(** ** Honest proofs verify *)

(** A pair of siblings and their parent. *)
Lemma pad_siblings l idx x :
  l !! idx = Some x → (1 < length l)%nat →
  ∃ sib, pad l !! (if Nat.even idx then S idx else pred idx) = Some sib ∧
    pair_up (pad l) !! (idx / 2)%nat = Some (climb x (sib, Nat.even idx)).
Proof.
  intros Hx Hl. pose proof (pad_even l) as He.
  assert (pad l !! idx = Some x) as Hx' by (eapply prefix_lookup_Some; [done|apply pad_prefix]).
  pose proof (lookup_lt_Some _ _ _ Hx') as Hlt. unfold climb. cbn [fst snd].
  destruct (Nat.even idx) eqn:Ei.
  - assert (S idx < length (pad l))%nat as Hs.
    { destruct (decide (S idx = length (pad l))) as [E|]; [|lia].
      rewrite <- E, Nat.even_succ, <- Nat.negb_even, Ei in He. done. }
    destruct (lookup_lt_is_Some_2 _ _ Hs) as [sib Hsib]. exists sib. split; [done|].
    apply Nat.even_spec in Ei as [k ->]. rewrite Nat.mul_comm, Nat.div_mul by lia.
    by apply pair_up_lookup.
  - assert (Nat.odd idx = true) as [k ->]%Nat.odd_spec by by rewrite <- Nat.negb_even, Ei.
    destruct (lookup_lt_is_Some_2 (pad l) (pred (2 * k + 1))) as [sib Hsib]; [lia|].
    exists sib. split; [done|].
    replace ((2 * k + 1) / 2)%nat with k by (rewrite Nat.mul_comm, Nat.div_add_l; simpl; lia).
    replace (pred (2 * k + 1)) with (2 * k)%nat in Hsib by lia.
    apply pair_up_lookup; [done|]. by rewrite Nat.add_1_r in Hx'.
Qed.

Lemma gen_path_verifies fuel l idx x :
  l !! idx = Some x → (length l ≤ fuel)%nat →
  ∃ path root, gen_path (build_levels fuel l) idx = Some path ∧
    root_of (build_levels fuel l) = Some root ∧ foldl climb x path = root.
Proof.
  revert l idx x. induction fuel as [|fuel IH]; intros l idx x Hx Hf.
  { apply lookup_lt_Some in Hx. lia. }
  destruct (decide (1 < length l)%nat) as [Hl|Hl].
  - rewrite build_levels_unfold by done.
    destruct (pad_siblings l idx x Hx Hl) as (sib & Hsib & Hup).
    pose proof (next_level_length l Hl).
    destruct (IH _ _ _ Hup) as (path & root & Hp & Hr & Hf'); [lia|].
    exists ((sib, Nat.even idx) :: path), root. split_and!.
    + rewrite gen_path_cons, Hp by apply build_levels_ne.
      by destruct (Nat.even idx); rewrite Hsib.
    + rewrite root_of_cons by apply build_levels_ne. done.
    + done.
  - destruct l as [|y [|]]; [done| |simpl in Hl; lia]. rewrite build_levels_single.
    destruct idx; [|done]. simplify_eq/=. by exists [], x.
Qed.

Lemma BuildTree_levels chunks t :
  BuildTree chunks = Ok t →
  Leaves t = imap (λ i chunk, HashLeaf (u32 (Z.of_nat i)) chunk) chunks ∧
  Levels t = build_levels (length (Leaves t)) (Leaves t) ∧
  root_of (Levels t) = Some (Root t) ∧ LeafCount t = zlen chunks ∧ Leaves t ≠ [].
Proof.
  unfold BuildTree. destruct chunks as [|c chunks]; [done|]. case_match eqn:Er; [|done].
  by injection 1 as <-.
Qed.

Lemma merkle_roundtrip chunks :
  chunks ≠ [] →
  ∃ t, BuildTree chunks = Ok t ∧
    ∀ i chunk, chunks !! i = Some chunk →
      ∃ p, GenerateProof t (Z.of_nat i) = Ok p ∧ Verify p (Root t) = true ∧
           LeafHash p = HashLeaf (u32 (Z.of_nat i)) chunk ∧ ChunkIndex p = u32 (Z.of_nat i).
Proof.
  intros Hne. set (leaves := imap (λ i chunk, HashLeaf (u32 (Z.of_nat i)) chunk) chunks).
  assert (∀ i chunk, chunks !! i = Some chunk →
    leaves !! i = Some (HashLeaf (u32 (Z.of_nat i)) chunk)) as Hleaf.
  { intros i chunk Hi. unfold leaves. by rewrite list_lookup_imap, Hi. }
  destruct chunks as [|c0 chunks0]; [done|].
  destruct (gen_path_verifies (length leaves) leaves 0 (HashLeaf (u32 0) c0)) as
    (? & root & _ & Hroot & _); [by apply (Hleaf 0%nat)|lia|].
  eexists. split.
  { unfold BuildTree. fold leaves. unfold root_of in Hroot. by rewrite Hroot. }
  intros i chunk Hi. specialize (Hleaf i chunk Hi).
  destruct (gen_path_verifies (length leaves) leaves i _ Hleaf) as (path & root' & Hp & Hr & Hf);
    [lia|].
  assert (root' = root) as -> by congruence.
  unfold GenerateProof, zlen. cbn [LeafCount Leaves Levels Root].
  rewrite (proj2 (Z.ltb_ge _ _)), (proj2 (Z.leb_gt _ _)); [|apply lookup_lt_Some in Hi; lia|lia].
  cbn [orb]. rewrite Nat2Z.id, Hleaf, Hp. eexists. split; [done|]. unfold Verify. simpl.
  rewrite !length_fmap, Nat.eqb_refl, zip_fst_snd, bool_decide_true by done. done.
Qed.

(** C18. BuildTree succeeds on every non-empty list of chunks, without running
    out of its loop bound, and GenerateProof then gives for every chunk index a
    proof of that chunk's leaf hash that Verify accepts against the root. *)
Theorem merkle_proofs_verify chunks :
  chunks ≠ [] →
  ∃ t, BuildTree chunks = Ok t ∧
    ∀ i chunk, chunks !! i = Some chunk →
      ∃ p, GenerateProof t (Z.of_nat i) = Ok p ∧ Verify p (Root t) = true ∧
           LeafHash p = HashLeaf (u32 (Z.of_nat i)) chunk ∧ ChunkIndex p = u32 (Z.of_nat i).
Proof. apply merkle_roundtrip. Qed.

(** Every node of a tree is a digest. *)
Section Sizes.
Context `{!Blake3Laws}.
Definition digest (h : bytes) : Prop := length h = HashSize.

Lemma pair_up_digests l : Forall digest (pair_up l).
Proof.
  enough (∀ n l, (length l ≤ n)%nat → Forall digest (pair_up l)) by eauto.
  clear l. induction n as [|n IH]; intros [|a [|b l]] Hn; simpl in *; try constructor; try lia.
  - apply blake3_length.
  - apply IH. lia.
Qed.
Lemma build_levels_digests fuel l :
  Forall digest l → Forall (Forall digest) (build_levels fuel l).
Proof.
  revert l. induction fuel as [|fuel IH]; intros l Hl; simpl; [by repeat constructor|].
  destruct (1 <? length l)%nat; [|by repeat constructor]. constructor.
  - apply Forall_forall. intros x. rewrite elem_of_pad, Forall_forall in *. apply Hl.
  - apply IH, pair_up_digests.
Qed.
Lemma gen_path_digests levels idx path :
  Forall (Forall digest) levels → gen_path levels idx = Some path → Forall digest path.*1.
Proof.
  intros HF. revert idx path. induction HF as [|nodes rest Hn _ IH]; intros idx path.
  - simpl. injection 1 as <-. constructor.
  - destruct rest as [|l2 rest]; [simpl; injection 1 as <-; constructor|].
    rewrite gen_path_cons by done. intros (step & Hstep & Hpath)%bind_Some.
    apply bind_Some in Hpath as (path' & Hpath & [= <-]). constructor; [|by eapply IH].
    destruct (Nat.even idx); apply bind_Some in Hstep as (sib & Hsib & [= <-]); simpl;
      exact (Forall_lookup_1 _ _ _ _ Hn Hsib).
Qed.
Lemma GenerateProof_digests chunks t i p :
  BuildTree chunks = Ok t → GenerateProof t i = Ok p →
  digest (LeafHash p) ∧ Forall digest (PathHashes p) ∧
  length (PathHashes p) = length (PathDirections p) ∧ digest (Root t).
Proof.
  intros (Hl & Hlev & Hroot & _ & _)%BuildTree_levels. unfold GenerateProof.
  destruct ((i <? 0) || (LeafCount t <=? i)); [done|].
  destruct (Leaves t !! Z.to_nat i) as [leaf|] eqn:Eleaf; [|done].
  destruct (gen_path (Levels t) (Z.to_nat i)) as [path|] eqn:Epath; [|done].
  injection 1 as <-. simpl.
  assert (Forall digest (Leaves t)) as HF.
  { rewrite Hl. apply Forall_lookup. intros j x. rewrite list_lookup_imap.
    destruct (chunks !! j); [|done]. injection 1 as <-. apply blake3_length. }
  pose proof (build_levels_digests (length (Leaves t)) _ HF) as HF'. rewrite <- Hlev in HF'.
  split_and!.
  - exact (Forall_lookup_1 _ _ _ _ HF Eleaf).
  - by eapply gen_path_digests.
  - by rewrite !length_fmap.
  - unfold root_of in Hroot. apply bind_Some in Hroot as (l & Hlast & Hhead).
    apply last_Some in Hlast as [ls E]. rewrite E in HF'. apply Forall_app in HF' as [_ HF'].
    apply Forall_cons in HF' as [HF' _]. destruct l; [done|]. simplify_eq/=.
    by apply Forall_cons in HF' as [? _].
Qed.
End Sizes.

(** ** What a proof binds *)

(** The pairs of hashes BuildTree combines, and those Verify combines. *)
Fixpoint adjacent_pairs (l : list bytes) : list (bytes * bytes) :=
  match l with
  | a :: b :: l' => (a, b) :: adjacent_pairs l'
  | _ => []
  end.
Definition build_pairs (levels : list (list bytes)) : list (bytes * bytes) :=
  levels ≫= adjacent_pairs.
Fixpoint verify_pairs (current : bytes) (path : list (bytes * bool)) : list (bytes * bytes) :=
  match path with
  | [] => []
  | step :: path' =>
      (if step.2 then (current, step.1) else (step.1, current))
        :: verify_pairs (climb current step) path'
  end.

(** BLAKE3 does not collide on two pairs that meet in a verification. *)
Definition collision_free (built checked : list (bytes * bytes)) : Prop :=
  ∀ p q, p ∈ built → q ∈ checked → HashInternal p.1 p.2 = HashInternal q.1 q.2 → p = q.

(** The place, among [n] leaves, that the directions of a path lead to: a sibling
    on the right is an even node, and the copy that pads an odd level stands for
    the node it copies. *)
Fixpoint leaf_position (n : nat) (directions : list bool) : nat :=
  match directions with
  | [] => 0
  | d :: ds => Nat.min (2 * leaf_position (S n / 2) ds + if d then 0 else 1) (pred n)
  end.

Lemma pair_up_inv l k y :
  pair_up l !! k = Some y →
  ∃ a b, l !! (2 * k)%nat = Some a ∧ l !! S (2 * k) = Some b ∧
    (a, b) ∈ adjacent_pairs l ∧ y = HashInternal a b.
Proof.
  revert l. induction k as [|k IH]; intros [|a [|b l]]; cbn -[Nat.mul]; try done.
  - intros [= <-]. exists a, b. split_and!; [done..|left|done].
  - intros (a' & b' & Ha & Hb & Hp & ->)%IH. exists a', b'.
    replace (2 * S k)%nat with (S (S (2 * k)))%nat by lia. split_and!; [done..|by right|done].
Qed.
Lemma pad_lookup l i x : pad l !! i = Some x → l !! Nat.min i (pred (length l)) = Some x.
Proof.
  unfold pad. destruct (Nat.odd _); [destruct (last l) as [y|] eqn:E|]; intros Hx.
  - apply lookup_app_Some in Hx as [Hx|[Hge Hx]].
    + apply lookup_lt_Some in Hx as Hlt. by rewrite Nat.min_l by lia.
    + rewrite Nat.min_r by lia. rewrite <- last_lookup, E.
      by destruct (i - length l)%nat; [|done].
  - by apply last_None in E as ->.
  - apply lookup_lt_Some in Hx as Hlt. by rewrite Nat.min_l by lia.
Qed.
Lemma next_level_half l : length (pair_up (pad l)) = (S (length l) / 2)%nat.
Proof.
  rewrite length_pair_up, pad_length. destruct (Nat.odd (length l)) eqn:Ho; [f_equal; lia|].
  assert (Nat.even (length l) = true) as [k ->]%Nat.even_spec by by rewrite <- Nat.negb_odd, Ho.
  rewrite Nat.add_0_r, Nat.mul_comm, Nat.div_mul by lia.
  replace (S (k * 2)) with (1 + k * 2)%nat by lia. by rewrite Nat.div_add by lia.
Qed.

Lemma climb_binds fuel l x path :
  l ≠ [] → (length l ≤ fuel)%nat →
  length path = pred (length (build_levels fuel l)) →
  root_of (build_levels fuel l) = Some (foldl climb x path) →
  collision_free (build_pairs (build_levels fuel l)) (verify_pairs x path) →
  l !! leaf_position (length l) path.*2 = Some x.
Proof.
  revert l x path. induction fuel as [|fuel IH]; intros l x path Hne Hf Hlen Hroot Hcf.
  { by destruct l; [|simpl in *; lia]. }
  destruct (decide (1 < length l)%nat) as [Hl|Hl].
  - rewrite build_levels_unfold in Hlen, Hroot, Hcf by done.
    pose proof (next_level_length l Hl) as Hnext.
    pose proof (build_levels_ne fuel (pair_up (pad l))) as Hbne.
    rewrite root_of_cons in Hroot by done.
    destruct path as [|[s d] path]; [by destruct (build_levels fuel _)|].
    assert (pair_up (pad l) !! leaf_position (S (length l) / 2) path.*2
              = Some (climb x (s, d))) as Hup.
    { rewrite <- next_level_half.
      apply (IH _ _ path); [by intros E; rewrite E in Hnext; simpl in *; lia|lia| |done|].
      - simpl in Hlen. destruct (build_levels fuel _); simpl in *; [done|lia].
      - intros p q Hp Hq. apply Hcf; [|by right]. unfold build_pairs. simpl.
        apply elem_of_app. by right. }
    apply pair_up_inv in Hup as (a & b & Ha & Hb & Hab & E).
    assert ((a, b) = (if d then (x, s) else (s, x))) as Epair.
    { apply Hcf; [unfold build_pairs; simpl; apply elem_of_app; by left|left|].
      cbn [fst snd]. rewrite <- E. by destruct d. }
    cbn -[Nat.mul Nat.min Nat.div]. apply pad_lookup.
    destruct d; simplify_eq; [by rewrite Nat.add_0_r|by rewrite Nat.add_1_r].
  - destruct l as [|y [|]]; [done| |simpl in Hl; lia].
    rewrite build_levels_single in Hlen, Hroot. destruct path; [|done].
    unfold root_of in Hroot. by simplify_eq/=.
Qed.

Lemma gen_path_position fuel l idx path :
  (length l ≤ fuel)%nat → (idx < length l)%nat →
  gen_path (build_levels fuel l) idx = Some path → leaf_position (length l) path.*2 = idx.
Proof.
  revert l idx path. induction fuel as [|fuel IH]; intros l idx path Hf Hi; [lia|].
  destruct (decide (1 < length l)%nat) as [Hl|Hl].
  - rewrite build_levels_unfold, gen_path_cons by (done || apply build_levels_ne).
    intros (step & Hstep & (path' & Hp & [= <-])%bind_Some)%bind_Some.
    pose proof (next_level_length l Hl).
    apply IH in Hp; [|lia|rewrite next_level_half; apply Nat.div_lt_upper_bound; [lia|];
      pose proof (Nat.div_mod_eq (S (length l)) 2);
      pose proof (Nat.mod_upper_bound (S (length l)) 2); lia].
    rewrite next_level_half in Hp. cbn -[Nat.mul Nat.min Nat.div]. rewrite Hp.
    pose proof (Nat.div_mod_eq idx 2) as Hd.
    destruct (Nat.even idx) eqn:Ee; apply bind_Some in Hstep as (sib & _ & [= <-]);
      cbn -[Nat.mul Nat.min Nat.div].
    + apply Nat.even_spec in Ee as [k ->].
      rewrite (Nat.mul_comm 2 k), Nat.div_mul by lia. lia.
    + assert (Nat.odd idx = true) as [k ->]%Nat.odd_spec by by rewrite <- Nat.negb_even, Ee.
      replace ((2 * k + 1) / 2)%nat with k by (rewrite Nat.mul_comm, Nat.div_add_l; simpl; lia).
      lia.
  - destruct l as [|y [|]]; [simpl in Hi; lia| |simpl in Hl; lia].
    rewrite build_levels_single. intros [= <-]. simpl in *. lia.
Qed.

(** C29. A proof whose path has the height of the tree and that Verify accepts
    carries the hash of the chunk at the place its directions lead to, taken with
    that place as index, unless BLAKE3 collides on two pairs that occur in the
    tree and in the verification.  The directions GenerateProof writes for an
    index lead to that index. *)
Theorem merkle_full_path_binds chunks t p :
  BuildTree chunks = Ok t →
  S (length (PathHashes p)) = length (Levels t) →
  collision_free (build_pairs (Levels t))
    (verify_pairs (LeafHash p) (zip (PathHashes p) (PathDirections p))) →
  Verify p (Root t) = true →
  (∃ chunk, chunks !! leaf_position (length chunks) (PathDirections p) = Some chunk ∧
     LeafHash p = HashLeaf (u32 (Z.of_nat (leaf_position (length chunks) (PathDirections p)))) chunk) ∧
  (∀ i q, GenerateProof t i = Ok q →
     Z.of_nat (leaf_position (length chunks) (PathDirections q)) = i).
Proof.
  intros (Hlv & Hlev & Hroot & Hcount & Hne)%BuildTree_levels Hlen Hcf Hv.
  assert (length (Leaves t) = length chunks) as Hll by (by rewrite Hlv, length_imap).
  split.
  - revert Hv. unfold Verify.
    destruct (Nat.eqb_spec (length (PathHashes p)) (length (PathDirections p))) as [El|]; [|done].
    intros Hv%bool_decide_eq_true.
    pose proof (climb_binds (length (Leaves t)) (Leaves t) (LeafHash p)
      (zip (PathHashes p) (PathDirections p)) Hne (le_n _)) as Hb.
    rewrite <- Hlev, Hroot, Hll, snd_zip in Hb by lia.
    rewrite Hlv, list_lookup_imap in Hb.
    destruct (chunks !! _) as [chunk|]; [exists chunk; split; [done|]|];
      assert (Some (LeafHash p) = _) as E by (symmetry; apply Hb;
        [rewrite length_zip_with, <- El; lia|by f_equal|done]); by simplify_eq/=.
  - intros i q. unfold GenerateProof. rewrite Hcount. unfold zlen.
    destruct (Z.ltb_spec i 0); [done|]. destruct (Z.leb_spec (Z.of_nat (length chunks)) i); [done|].
    cbn [orb]. destruct (Leaves t !! _); [|done].
    destruct (gen_path _ _) as [path|] eqn:Ep; [|done]. intros [= <-]. cbn [PathDirections].
    rewrite Hlev in Ep. rewrite <- Hll.
    apply gen_path_position in Ep as ->; lia.
Qed.

(** Verify never looks at the chunk index and does not fix the length of the
    path: for every root and every index, the proof made of the root as leaf
    hash and an empty path is accepted. *)
Theorem merkle_empty_path_accepted root index : Verify (mkProof index root [] []) root = true.
Proof. unfold Verify. simpl. by apply bool_decide_eq_true. Qed.
End Merkle.

Module MerkleExamples.
Import Sdk.Concrete.
Definition chunks : list bytes := [[1]; [2; 3]; [4]].
Definition tree : Tree :=
  match BuildTree chunks with Ok t => t | Err _ => mkTree [] [] [] 0 end.
Definition proof (i : Z) : MerkleProof :=
  match GenerateProof tree i with Ok p => p | Err _ => mkProof 0 [] [] [] end.

Lemma merkle_proofs_verify_witness :
  ∃ t, BuildTree chunks = Ok t ∧ ∃ p, GenerateProof t 2 = Ok p ∧ Verify p (Root t) = true.
Proof.
  destruct (merkle_proofs_verify chunks) as (t & E & Hp); [discriminate|].
  exists t. split; [exact E|]. destruct (Hp 2%nat [4] eq_refl) as (p & Ep & Hv & _).
  exists p. split; [exact Ep|exact Hv].
Defined.

Lemma merkle_full_path_binds_witness :
  PathDirections (proof 2) = [true; false] ∧ LeafHash (proof 2) = HashLeaf 2 [4].
Proof.
  split; [vm_compute; reflexivity|].
  destruct (merkle_full_path_binds chunks tree (proof 2)) as [(chunk & Hc & Hl) _];
    [| | | |vm_compute in Hc; injection Hc as <-; exact Hl].
  - vm_compute. reflexivity.
  - vm_compute. reflexivity.
  - intros p q Hp Hq. revert p q Hp Hq.
    assert (Forall (λ p, Forall (λ q, HashInternal p.1 p.2 = HashInternal q.1 q.2 → p = q)
      (verify_pairs (LeafHash (proof 2)) (zip (PathHashes (proof 2)) (PathDirections (proof 2)))))
      (build_pairs (Levels tree))) as HF.
    { apply (bool_decide_unpack _). vm_compute. reflexivity. }
    intros p q Hp Hq. rewrite Forall_forall in HF. specialize (HF p Hp).
    rewrite Forall_forall in HF. exact (HF q Hq).
  - vm_compute. reflexivity.
Defined.
End MerkleExamples.
