(* ===== verification/Bank.v ===== *)
(** * Coins and the bank

    The coin type and the bank and distribution keepers of the Cosmos SDK, as an
    interface: the operations the modules call, and the laws of the documented
    behaviour the theorems rely on.  A ledger of natural numbers implements it. *)
From Stdlib Require Import ZArith Lia.
From stdpp Require Import base numbers strings list gmap pretty.
From S2P Require Import Prelude Sdk.
Open Scope Z_scope.

(** ** Coins *)
Record Coin := mkCoin { Denom : string; Amount : Z }.
#[export] Instance Coin_eq_dec : EqDecision Coin.
Proof. solve_decision. Defined.

Definition Coin_String (c : Coin) : string := (FormatInt (Amount c) +:+ Denom c)%string.

(** sdk.NewCoin panics on a negative amount. *)
Definition NewCoin {S} (denom : string) (amount : Z) : M S Coin :=
  if amount <? 0 then fail (Panic "negative coin amount") else mret (mkCoin denom amount).
(** sdk.NewCoins of one coin drops a zero coin. *)
Definition NewCoins (c : Coin) : list Coin := if Amount c =? 0 then [] else [c].

Definition AmountOf (cs : list Coin) (d : string) : Z :=
  foldr (λ c acc, (if decide (Denom c = d) then Amount c else 0) + acc) 0 cs.
Definition Coins_IsZero (cs : list Coin) : bool := forallb (λ c, Amount c =? 0) cs.
(** coins.IsAllGTE(sdk.Coins{c}) *)
Definition IsAllGTE1 (cs : list Coin) (c : Coin) : bool :=
  match cs with [] => false | _ => Amount c <=? AmountOf cs (Denom c) end.

Lemma AmountOf_NewCoins c d :
  AmountOf (NewCoins c) d = if decide (Denom c = d) then Amount c else 0.
Proof.
  unfold NewCoins. destruct (Z.eqb_spec (Amount c) 0) as [E|E]; simpl; case_decide; lia.
Qed.
Lemma length_NewCoins c : (length (NewCoins c) ≤ 1)%nat.
Proof. unfold NewCoins. destruct (Amount c =? 0); simpl; lia. Qed.

(** sdk.ParseCoinNormalized *)
Class CoinParser := { ParseCoinNormalized : string → option Coin }.
Class CoinParserLaws `{CoinParser} : Prop := {
  parse_nonneg s c : ParseCoinNormalized s = Some c → 0 ≤ Amount c;
  (** the denomination of a parsed coin is a base denomination: an amount of it
      that is not larger prints to text that parses back *)
  parse_print s c n :
    ParseCoinNormalized s = Some c → 0 ≤ n ≤ Amount c →
    ParseCoinNormalized (Coin_String (mkCoin (Denom c) n)) = Some (mkCoin (Denom c) n)
}.

(** ** The bank *)
Class BankKeeper := {
  bank : Type;
  GetBalance : bank → bytes → string → Z;
  SpendableCoins : bank → bytes → list Coin;
  module_address : string → bytes;
  SendCoinsFromAccountToModule : bytes → string → list Coin → bank → result unit * bank;
  SendCoinsFromModuleToModule : string → string → list Coin → bank → result unit * bank;
  SendCoinsFromModuleToAccount : string → bytes → list Coin → bank → result unit * bank;
  FundCommunityPool : list Coin → bytes → bank → result unit * bank;
  MintCoins : string → list Coin → bank → result unit * bank;
  BurnCoins : string → list Coin → bank → result unit * bank
}.

Section Moved.
Context `{BankKeeper}.
(** [cs] went from [from] to [to] and nothing else changed. *)
Definition moved (from to : bytes) (cs : list Coin) (b b' : bank) : Prop :=
  (∀ d, 0 ≤ AmountOf cs d ≤ GetBalance b from d) ∧
  (∀ a d, GetBalance b' a d = GetBalance b a d
            - (if decide (a = from) then AmountOf cs d else 0)
            + (if decide (a = to) then AmountOf cs d else 0)).

(** A transfer of at most one coin moves it, or fails and changes nothing. *)
Definition transfer_law (from to : bytes) (cs : list Coin) (op : bank → result unit * bank)
    : Prop :=
  (length cs ≤ 1)%nat → ∀ b,
  match op b with
  | (Ok _, b') => moved from to cs b b'
  | (Err _, b') => b' = b
  end.
End Moved.

Class BankLaws `{BankKeeper} : Prop := {
  balance_nonneg b a d : 0 ≤ GetBalance b a d;
  spendable_le b a d : AmountOf (SpendableCoins b a) d ≤ GetBalance b a d;
  send_account_module a m cs :
    transfer_law a (module_address m) cs (SendCoinsFromAccountToModule a m cs);
  send_module_module m m' cs :
    transfer_law (module_address m) (module_address m') cs (SendCoinsFromModuleToModule m m' cs);
  send_module_account m a cs :
    transfer_law (module_address m) a cs (SendCoinsFromModuleToAccount m a cs);
  fund_pool cs a :
    transfer_law a (module_address "distribution") cs (FundCommunityPool cs a);
  burn_law m cs : (length cs ≤ 1)%nat → ∀ b,
    match BurnCoins m cs b with
    | (Ok _, b') =>
        (∀ d, 0 ≤ AmountOf cs d ≤ GetBalance b (module_address m) d) ∧
        ∀ a d, GetBalance b' a d =
          GetBalance b a d - (if decide (a = module_address m) then AmountOf cs d else 0)
    | (Err _, b') => b' = b
    end
}.

(** ** A ledger *)
Module Ledger.
Abbreviation ledger := (gmap (list Z * string) N) (only parsing).
Implicit Types b : ledger.

Definition balance b (a : bytes) (d : string) : Z := Z.of_N (default 0%N (b !! (a, d))).
Definition spendable b (a : bytes) : list Coin :=
  omap (λ p, if decide (p.1.1 = a) then Some (mkCoin p.1.2 (Z.of_N p.2)) else None)
    (map_to_list b).

Definition move (from to : bytes) (c : Coin) b : ledger :=
  let b1 := <[(from, Denom c) := Z.to_N (balance b from (Denom c) - Amount c)]> b in
  <[(to, Denom c) := Z.to_N (balance b1 to (Denom c) + Amount c)]> b1.

Definition transfer (from to : bytes) (cs : list Coin) b : result unit * ledger :=
  match cs with
  | [] => (Ok tt, b)
  | [c] =>
      if (0 <=? Amount c) && (Amount c <=? balance b from (Denom c))
      then (Ok tt, move from to c b) else (Err ErrInsufficientFunds, b)
  | _ => (Err ErrInvalidRequest, b)
  end.

Definition mint (to : bytes) (cs : list Coin) b : result unit * ledger :=
  match cs with
  | [c] =>
      if 0 <=? Amount c
      then (Ok tt, <[(to, Denom c) := Z.to_N (balance b to (Denom c) + Amount c)]> b)
      else (Err ErrInvalidRequest, b)
  | _ => (Err ErrInvalidRequest, b)
  end.
Definition burn (from : bytes) (cs : list Coin) b : result unit * ledger :=
  match cs with
  | [] => (Ok tt, b)
  | [c] =>
      if (0 <=? Amount c) && (Amount c <=? balance b from (Denom c))
      then (Ok tt, <[(from, Denom c) := Z.to_N (balance b from (Denom c) - Amount c)]> b)
      else (Err ErrInsufficientFunds, b)
  | _ => (Err ErrInvalidRequest, b)
  end.

Definition address_of_module (m : string) : bytes := 109 :: string_bytes m.

#[export] Instance ledger_bank : BankKeeper := {|
  bank := ledger;
  GetBalance := balance;
  SpendableCoins := spendable;
  module_address := address_of_module;
  SendCoinsFromAccountToModule a m := transfer a (address_of_module m);
  SendCoinsFromModuleToModule m m' := transfer (address_of_module m) (address_of_module m');
  SendCoinsFromModuleToAccount m a := transfer (address_of_module m) a;
  FundCommunityPool cs a := transfer a (address_of_module "distribution") cs;
  MintCoins m := mint (address_of_module m);
  BurnCoins m := burn (address_of_module m)
|}.

Lemma balance_insert b a d n a' d' :
  balance (<[(a, d) := n]> b) a' d' =
  if decide (a = a' ∧ d = d') then Z.of_N n else balance b a' d'.
Proof.
  unfold balance. case_decide as Hd.
  - destruct Hd as [-> ->]. by rewrite lookup_insert_eq.
  - rewrite lookup_insert_ne; [done|]. intros [= -> ->]. by apply Hd.
Qed.

Lemma balance_pos b a d : 0 ≤ balance b a d.
Proof. unfold balance. lia. Qed.

Lemma transfer_ok from to cs : transfer_law from to cs (transfer from to cs).
Proof.
  intros Hlen b. destruct cs as [|c [|]]; simpl in *; [|clear Hlen|lia].
  - split; [intros d; pose proof (balance_pos b from d); simpl; lia|].
    intros a d. simpl. repeat case_decide; lia.
  - destruct (Z.leb_spec 0 (Amount c)), (Z.leb_spec (Amount c) (balance b from (Denom c)));
      simpl; try done.
    split.
    + intros d. pose proof (balance_pos b from d). simpl. case_decide; subst; lia.
    + intros a d. unfold move. simpl. rewrite !balance_insert.
      pose proof (balance_pos b to (Denom c)).
      repeat case_decide; destruct_and?; simplify_eq; try lia; naive_solver lia.
Qed.

Lemma burn_ok m cs b :
  (length cs ≤ 1)%nat →
  match burn (address_of_module m) cs b with
  | (Ok _, b') =>
      (∀ d, 0 ≤ AmountOf cs d ≤ balance b (address_of_module m) d) ∧
      ∀ a d, balance b' a d =
        balance b a d - (if decide (a = address_of_module m) then AmountOf cs d else 0)
  | (Err _, b') => b' = b
  end.
Proof.
  intros Hlen. destruct cs as [|c [|]]; simpl in *; [|clear Hlen|lia].
  - split; [intros d; pose proof (balance_pos b (address_of_module m) d); lia|].
    intros a d. case_decide; lia.
  - destruct (Z.leb_spec 0 (Amount c)),
      (Z.leb_spec (Amount c) (balance b (address_of_module m) (Denom c))); simpl; try done.
    split.
    + intros d. pose proof (balance_pos b (address_of_module m) d). case_decide; subst; lia.
    + intros a d. rewrite balance_insert.
      repeat case_decide; destruct_and?; simplify_eq; try lia; naive_solver lia.
Qed.

(** The coins of an account, listed from the entries of the ledger. *)
Definition coin_of (a : bytes) (p : (bytes * string) * N) : option Coin :=
  if decide (p.1.1 = a) then Some (mkCoin p.1.2 (Z.of_N p.2)) else None.

Lemma AmountOf_entries (l : list ((bytes * string) * N)) a d :
  NoDup l.*1 →
  AmountOf (omap (coin_of a) l) d = 0 ∨
  ∃ n, ((a, d), n) ∈ l ∧ AmountOf (omap (coin_of a) l) d = Z.of_N n.
Proof.
  induction l as [|[[a' d'] n] l IH]; intros Hnd; [by left|].
  rewrite fmap_cons in Hnd. apply NoDup_cons in Hnd as [Hni Hnd]. specialize (IH Hnd).
  assert (omap (coin_of a) ((a', d', n) :: l) =
    (if decide (a' = a) then [mkCoin d' (Z.of_N n)] else []) ++ omap (coin_of a) l) as ->.
  { simpl. unfold coin_of at 1. simpl. by case_decide. }
  destruct (decide (a' = a)) as [->|Hne].
  - cbn [app AmountOf foldr Denom Amount]. fold (AmountOf (omap (coin_of a) l) d).
    destruct (decide (d' = d)) as [->|Hd].
    + right. exists n. split; [left|]. destruct IH as [->|(n' & Hin & _)]; [lia|].
      exfalso. apply Hni. apply list_elem_of_fmap. by exists ((a, d), n').
    + rewrite Z.add_0_l. destruct IH as [?|(n' & Hin & ?)]; [by left|right].
      exists n'. split; [by right|done].
  - cbn [app]. destruct IH as [?|(n' & Hin & ?)]; [by left|right].
    exists n'. split; [by right|done].
Qed.

Lemma spendable_balance b a d : AmountOf (spendable b a) d ≤ balance b a d.
Proof.
  unfold spendable. fold (coin_of a).
  destruct (AmountOf_entries (map_to_list b) a d) as [E|(n & Hin & E)];
    [apply NoDup_fst_map_to_list|..]; change (AmountOf (omap (coin_of a) (map_to_list b)) d ≤ balance b a d); rewrite E.
  - apply balance_pos.
  - apply elem_of_map_to_list in Hin. unfold balance. rewrite Hin. simpl. lia.
Qed.

#[export] Instance ledger_laws : BankLaws.
Proof.
  split.
  - apply balance_pos.
  - apply spendable_balance.
  - intros. apply transfer_ok.
  - intros. apply transfer_ok.
  - intros. apply transfer_ok.
  - intros. apply transfer_ok.
  - intros m cs Hlen b. by apply burn_ok.
Qed.

(** Coins of the denomination "ulume", decimal amounts. *)
Fixpoint parse_digits (s : string) (acc : Z) : option Z :=
  match s with
  | EmptyString => None
  | String c s' =>
      let n := Z.of_nat (Ascii.nat_of_ascii c) - 48 in
      if (0 <=? n) && (n <=? 9) then parse_digits s' (acc * 10 + n)
      else if decide (s = "ulume") then Some acc else None
  end.

Lemma pretty_N_go_app x s t : (pretty_N_go x s +:+ t = pretty_N_go x (s +:+ t))%string.
Proof.
  revert s. induction (N.lt_wf_0 x) as [x _ IH]; intros s.
  destruct (decide (0 < x)%N) as [Hx|Hx].
  - rewrite !(pretty_N_go_step x) by done. by rewrite IH by by apply N.div_lt.
  - assert (x = 0%N) as -> by lia. by rewrite !pretty_N_go_0.
Qed.

Lemma parse_digit x s acc :
  (x < 10)%N → parse_digits (String (pretty_N_char x) s) acc = parse_digits s (acc * 10 + Z.of_N x).
Proof.
  intros Hx. assert (x = 0 ∨ x = 1 ∨ x = 2 ∨ x = 3 ∨ x = 4 ∨ x = 5 ∨ x = 6
          ∨ x = 7 ∨ x = 8 ∨ x = 9)%N as Hd by lia.
  by destruct_or! Hd; subst.
Qed.

Lemma parse_digits_go x s : parse_digits (pretty_N_go x s) 0 = parse_digits s (Z.of_N x).
Proof.
  revert s. induction (N.lt_wf_0 x) as [x _ IH]; intros s.
  destruct (decide (0 < x)%N) as [Hx|Hx].
  - rewrite pretty_N_go_step by done. rewrite IH by by apply N.div_lt.
    rewrite parse_digit by (by apply N.mod_lt). f_equal.
    pose proof (N.div_mod x 10). lia.
  - assert (x = 0%N) as -> by lia. by rewrite pretty_N_go_0.
Qed.

Lemma parse_print_digits n :
  0 ≤ n → parse_digits (FormatInt n +:+ "ulume") 0 = Some n.
Proof.
  intros Hn. unfold FormatInt. destruct n as [|p|p]; [done| |lia].
  assert (pretty (Z.pos p) = pretty_N_go (N.pos p) "") as -> by done.
  by rewrite pretty_N_go_app, parse_digits_go.
Qed.

#[export] Instance ulume_parser : CoinParser :=
  {| ParseCoinNormalized s := mkCoin "ulume" <$> parse_digits s 0 |}.

Lemma parse_digits_nonneg s acc n : 0 ≤ acc → parse_digits s acc = Some n → 0 ≤ n.
Proof.
  revert acc. induction s as [|c s IH]; intros acc Hacc; cbn [parse_digits]; [done|].
  destruct (Z.leb_spec 0 (Z.of_nat (Ascii.nat_of_ascii c) - 48)),
    (Z.leb_spec (Z.of_nat (Ascii.nat_of_ascii c) - 48) 9); cbn [andb];
    try (case_decide; [by injection 1 as <-|done]).
  apply IH. lia.
Qed.

#[export] Instance ulume_laws : CoinParserLaws.
Proof.
  split.
  - intros s c. simpl. destruct (parse_digits s 0) eqn:E; [|done]. injection 1 as <-.
    by eapply (parse_digits_nonneg s 0).
  - intros s c n. simpl. destruct (parse_digits s 0) eqn:E; [|done]. injection 1 as <-.
    intros [Hn _]. simpl. unfold Coin_String. simpl. by rewrite parse_print_digits.
Qed.
End Ledger.
