(* ===== verification/ActionTypes.v ===== *)
(** * x/action/v1/types: the data of the action module

    Actions, their states and types, the two kinds of metadata, the module
    parameters with their validation, and the stateless checks of the messages. *)
From Stdlib Require Import ZArith Lia Ascii.
From stdpp Require Import base numbers strings list gmap.
From S2P Require Import Prelude Sdk Float Bank Supernode SupernodeRank.
Open Scope Z_scope.

Inductive ActionState : Set :=
| ActionStateUnspecified
| ActionStatePending
| ActionStateProcessing
| ActionStateDone
| ActionStateApproved
| ActionStateRejected
| ActionStateFailed
| ActionStateExpired.
#[export] Instance ActionState_eq_dec : EqDecision ActionState.
Proof. solve_decision. Defined.

Definition ActionState_String (s : ActionState) : string :=
  match s with
  | ActionStateUnspecified => "ACTION_STATE_UNSPECIFIED"
  | ActionStatePending => "ACTION_STATE_PENDING"
  | ActionStateProcessing => "ACTION_STATE_PROCESSING"
  | ActionStateDone => "ACTION_STATE_DONE"
  | ActionStateApproved => "ACTION_STATE_APPROVED"
  | ActionStateRejected => "ACTION_STATE_REJECTED"
  | ActionStateFailed => "ACTION_STATE_FAILED"
  | ActionStateExpired => "ACTION_STATE_EXPIRED"
  end.

Inductive ActionType : Set := ActionTypeUnspecified | ActionTypeSense | ActionTypeCascade.
#[export] Instance ActionType_eq_dec : EqDecision ActionType.
Proof. solve_decision. Defined.

Definition ActionType_String (t : ActionType) : string :=
  match t with
  | ActionTypeUnspecified => "ACTION_TYPE_UNSPECIFIED"
  | ActionTypeSense => "ACTION_TYPE_SENSE"
  | ActionTypeCascade => "ACTION_TYPE_CASCADE"
  end.

(** [a_Metadata] is [None] for a nil slice. *)
Record Action := mkAction {
  a_Creator : string;
  a_ActionID : string;
  a_ActionType : ActionType;
  a_Metadata : option bytes;
  a_Price : string;
  a_ExpirationTime : Z;
  a_State : ActionState;
  a_BlockHeight : Z;
  a_SuperNodes : list string;
  a_FileSizeKbs : Z;
  a_AppPubkey : bytes
}.
#[export] Instance Action_eq_dec : EqDecision Action.
Proof. solve_decision. Defined.

(** Assignments to the fields of an action. *)
Definition set_State (a : Action) (st : ActionState) : Action :=
  mkAction (a_Creator a) (a_ActionID a) (a_ActionType a) (a_Metadata a) (a_Price a)
    (a_ExpirationTime a) st (a_BlockHeight a) (a_SuperNodes a) (a_FileSizeKbs a) (a_AppPubkey a).
Definition set_Metadata (a : Action) (m : option bytes) : Action :=
  mkAction (a_Creator a) (a_ActionID a) (a_ActionType a) m (a_Price a)
    (a_ExpirationTime a) (a_State a) (a_BlockHeight a) (a_SuperNodes a) (a_FileSizeKbs a)
    (a_AppPubkey a).
Definition add_SuperNode (a : Action) (sn : string) : Action :=
  mkAction (a_Creator a) (a_ActionID a) (a_ActionType a) (a_Metadata a) (a_Price a)
    (a_ExpirationTime a) (a_State a) (a_BlockHeight a) (a_SuperNodes a ++ [sn]) (a_FileSizeKbs a)
    (a_AppPubkey a).
Definition set_identity (a : Action) (id : string) (height : Z) : Action :=
  mkAction (a_Creator a) id (a_ActionType a) (a_Metadata a) (a_Price a)
    (a_ExpirationTime a) (a_State a) height (a_SuperNodes a) (a_FileSizeKbs a) (a_AppPubkey a).

(** ** Metadata *)
Inductive HashAlgo : Set := HASH_ALGO_UNSPECIFIED | HASH_ALGO_BLAKE3 | HASH_ALGO_SHA256.
#[export] Instance HashAlgo_eq_dec : EqDecision HashAlgo.
Proof. solve_decision. Defined.

Record AvailabilityCommitment := mkCommitment {
  ac_CommitmentType : string;
  ac_HashAlgo : HashAlgo;
  ac_ChunkSize : Z;
  ac_TotalSize : Z;
  ac_NumChunks : Z;
  ac_Root : bytes;
  ac_ChallengeIndices : list Z
}.

Record ChunkProof := mkChunkProof {
  cp_ChunkIndex : Z;
  cp_LeafHash : bytes;
  cp_PathHashes : list bytes;
  cp_PathDirections : list bool
}.

(** An element of [[]*ChunkProof] may be nil. *)
Record CascadeMetadata := mkCascade {
  cm_DataHash : string;
  cm_FileName : string;
  cm_RqIdsIc : Z;
  cm_RqIdsMax : Z;
  cm_RqIdsIds : list string;
  cm_Signatures : string;
  cm_Public : bool;
  cm_AvailabilityCommitment : option AvailabilityCommitment;
  cm_ChunkProofs : list (option ChunkProof);
  cm_IndexArtifactCount : Z;
  cm_SymbolArtifactCount : Z
}.

Record SenseMetadata := mkSense {
  sm_DataHash : string;
  sm_DdAndFingerprintsIc : Z;
  sm_CollectionId : string;
  sm_GroupId : string;
  sm_DdAndFingerprintsMax : Z;
  sm_DdAndFingerprintsIds : list string;
  sm_Signatures : string
}.

(** The protobuf and JSON codecs of the metadata (gogoproto, jsonpb, encoding/json). *)
Class MetadataCodec := {
  cascade_Unmarshal : bytes → option CascadeMetadata;
  cascade_Marshal : CascadeMetadata → option bytes;
  sense_Unmarshal : bytes → option SenseMetadata;
  sense_Marshal : SenseMetadata → option bytes;
  jsonpb_cascade : string → option CascadeMetadata;
  jsonpb_sense : string → option SenseMetadata;
  json_cascade : string → option CascadeMetadata;
  json_sense : string → option SenseMetadata
}.
Class MetadataCodecLaws `{MetadataCodec} : Prop := {
  cascade_roundtrip m b : cascade_Marshal m = Some b → cascade_Unmarshal b = Some m;
  sense_roundtrip m b : sense_Marshal m = Some b → sense_Unmarshal b = Some m
}.

(** types/metadata.go *)
Definition CascadeArtifactCountsWithFallbackStrict (meta : CascadeMetadata) : result (Z * Z) :=
  let fallback := u32 (zlen (cm_RqIdsIds meta)) in
  let idx := if cm_IndexArtifactCount meta =? 0 then fallback else cm_IndexArtifactCount meta in
  let sym := if cm_SymbolArtifactCount meta =? 0 then fallback else cm_SymbolArtifactCount meta in
  if (idx =? 0) || (sym =? 0) then Err (ErrOther "artifact counts") else Ok (idx, sym).

Definition with_artifact_counts (m : CascadeMetadata) (idx sym : Z) : CascadeMetadata :=
  mkCascade (cm_DataHash m) (cm_FileName m) (cm_RqIdsIc m) (cm_RqIdsMax m) (cm_RqIdsIds m)
    (cm_Signatures m) (cm_Public m) (cm_AvailabilityCommitment m) (cm_ChunkProofs m) idx sym.
Definition with_RqIdsMax (m : CascadeMetadata) (n : Z) : CascadeMetadata :=
  mkCascade (cm_DataHash m) (cm_FileName m) (cm_RqIdsIc m) n (cm_RqIdsIds m)
    (cm_Signatures m) (cm_Public m) (cm_AvailabilityCommitment m) (cm_ChunkProofs m)
    (cm_IndexArtifactCount m) (cm_SymbolArtifactCount m).
Definition with_DdMax (m : SenseMetadata) (n : Z) : SenseMetadata :=
  mkSense (sm_DataHash m) (sm_DdAndFingerprintsIc m) (sm_CollectionId m) (sm_GroupId m) n
    (sm_DdAndFingerprintsIds m) (sm_Signatures m).
Definition with_Signatures (m : SenseMetadata) (s : string) : SenseMetadata :=
  mkSense (sm_DataHash m) (sm_DdAndFingerprintsIc m) (sm_CollectionId m) (sm_GroupId m)
    (sm_DdAndFingerprintsMax m) (sm_DdAndFingerprintsIds m) s.

(** ** Parameters (types/params.go) *)
Record AParams := mkAParams {
  BaseActionFee : Coin;
  FeePerKbyte : Coin;
  MaxActionsPerBlock : Z;
  MinSuperNodes : Z;
  MaxDdAndFingerprints : Z;
  MaxRaptorQSymbols : Z;
  ExpirationDuration : Z;
  MinProcessingTime : Z;
  MaxProcessingTime : Z;
  SuperNodeFeeShare : string;
  FoundationFeeShare : string;
  SvcChallengeCount : Z;
  SvcMinChunksForChallenge : Z
}.

Definition DefaultSVCChallengeCount : Z := 8.
Definition DefaultSVCMinChunksForChallenge : Z := 4.

Definition DefaultActionParams : AParams :=
  mkAParams (mkCoin "ulume" 10000) (mkCoin "ulume" 10) 10 3 50 50
    (24 * 3600 * 10 ^ 9) (60 * 10 ^ 9) (3600 * 10 ^ 9)
    "1.000000000000000000" "0.000000000000000000"
    DefaultSVCChallengeCount DefaultSVCMinChunksForChallenge.

Definition AParams_WithDefaults (p : AParams) : AParams :=
  mkAParams (BaseActionFee p) (FeePerKbyte p) (MaxActionsPerBlock p) (MinSuperNodes p)
    (MaxDdAndFingerprints p) (MaxRaptorQSymbols p) (ExpirationDuration p) (MinProcessingTime p)
    (MaxProcessingTime p) (SuperNodeFeeShare p) (FoundationFeeShare p)
    (if SvcChallengeCount p =? 0 then DefaultSVCChallengeCount else SvcChallengeCount p)
    (if SvcMinChunksForChallenge p =? 0 then DefaultSVCMinChunksForChallenge
     else SvcMinChunksForChallenge p).

Section Params.
Context `{LegacyDecOps}.

(** coin.IsValid also checks the spelling of the denomination, which is a
    parameter here. *)
Variable valid_denom : string → bool.

Definition validateCoin (c : Coin) : result unit :=
  if valid_denom (Denom c) && (0 <=? Amount c) then Ok tt else Err (ErrOther "invalid coin").
Definition validateDuration (d : Z) : result unit :=
  if d <=? 0 then Err (ErrOther "duration must be positive") else Ok tt.
Definition validateDecString (s : string) : result Dec :=
  match dec_FromStr s with
  | None => Err (ErrOther "invalid decimal string")
  | Some d => if dec_IsNegative d then Err (ErrOther "negative decimal") else Ok d
  end.

(** validateUint64 and validateUint32 only check the Go type. *)
Definition AParams_Validate (p : AParams) : result unit :=
  match validateCoin (BaseActionFee p), validateCoin (FeePerKbyte p),
        validateDuration (ExpirationDuration p), validateDuration (MinProcessingTime p),
        validateDuration (MaxProcessingTime p),
        validateDecString (SuperNodeFeeShare p), validateDecString (FoundationFeeShare p) with
  | Ok _, Ok _, Ok _, Ok _, Ok _, Ok superNodeShare, Ok foundationShare =>
      if MaxProcessingTime p <=? MinProcessingTime p
      then Err (ErrOther "min processing time must be less than max processing time") else
      if dec_Equal (dec_Add superNodeShare foundationShare) (dec_FromInt 1) then Ok tt
      else Err (ErrOther "fee shares must sum to 1.0")
  | Err e, _, _, _, _, _, _ | _, Err e, _, _, _, _, _ | _, _, Err e, _, _, _, _
  | _, _, _, Err e, _, _, _ | _, _, _, _, Err e, _, _ | _, _, _, _, _, Err e, _
  | _, _, _, _, _, _, Err e => Err e
  end.

(** Validated parameters give the foundation a share between 0 and 1. *)
Lemma foundation_share_bounds `{!LegacyDecLaws} p :
  AParams_Validate p = Ok tt →
  ∃ d, dec_FromStr (FoundationFeeShare p) = Some d ∧ 0 ≤ dec_raw d ≤ decPrecision.
Proof.
  unfold AParams_Validate, validateDecString.
  repeat case_match; simplify_eq; try done. intros _.
  match goal with E : dec_Equal _ _ = true |- _ =>
    apply raw_Equal in E; rewrite raw_Add, raw_FromInt in E end.
  repeat match goal with E : dec_IsNegative ?d = false |- _ =>
    assert (¬ dec_raw d < 0) by (by rewrite <- raw_IsNegative, E); clear E end.
  eexists. split; [done|]. lia.
Qed.
End Params.

(** ** Messages and their stateless validation *)
Record MsgRequestAction := {
  ra_Creator : string;
  ra_ActionType : string;
  ra_Metadata : string;
  ra_Price : string;
  ra_ExpirationTime : string;
  ra_FileSizeKbs : string;
  ra_AppPubkey : bytes
}.
Record MsgFinalizeAction := {
  fa_Creator : string;
  fa_ActionId : string;
  fa_ActionType : string;
  fa_Metadata : string
}.
Record MsgApproveAction := { aa_Creator : string; aa_ActionId : string }.

Inductive MessageType : Set := MT_MsgRequestAction | MT_MsgFinalizeAction | MT_MsgApproveAction.

(** The validator registry maps the upper-cased aliases to the two types. *)
Definition ParseActionType (s : string) : result ActionType :=
  if decide (s = "") then Err (ErrOther "action type cannot be empty") else
  let u := strings_ToUpper s in
  if decide (u = "SENSE" ∨ u = "ACTION_TYPE_SENSE") then Ok ActionTypeSense else
  if decide (u = "CASCADE" ∨ u = "ACTION_TYPE_CASCADE") then Ok ActionTypeCascade else
  Err (ErrOther "unknown action type").

(** strconv.ParseInt(s, 10, 64): the value, and whether the error is nil. *)
Fixpoint parse_uint (s : string) (acc : Z) : option Z :=
  match s with
  | EmptyString => Some acc
  | String c s' =>
      let n := Z.of_nat (Ascii.nat_of_ascii c) - 48 in
      if (0 <=? n) && (n <=? 9) then parse_uint s' (acc * 10 + n) else None
  end.
Definition parse_sign (s : string) : bool * string :=
  match s with
  | String "-"%char s' => (true, s')
  | String "+"%char s' => (false, s')
  | _ => (false, s)
  end.
Definition strconv_ParseInt (s : string) : Z * bool :=
  let '(neg, digits) := parse_sign s in
  if decide (digits = "") then (0, false) else
  match parse_uint digits 0 with
  | None => (0, false)
  | Some n =>
      let v := if neg then - n else n in
      if MaxInt64 <? v then (MaxInt64, false) else
      if v <? - 2 ^ 63 then (- 2 ^ 63, false) else (v, true)
  end.

Section Validation.
Context `{SdkAddress} `{CoinParser} `{MetadataCodec}.

Definition ensure_ok (b : bool) (e : error) : result unit := if b then Ok tt else Err e.
Definition nonempty (s : string) : bool := bool_decide (s ≠ "").

Definition CascadeValidator_ValidateBasic (metadataStr : string) (msgType : MessageType)
    : result unit :=
  match json_cascade metadataStr with
  | None => Err (ErrOther "unmarshal")
  | Some m =>
      ensure_ok
        match msgType with
        | MT_MsgRequestAction =>
            nonempty (cm_DataHash m) && nonempty (cm_FileName m) &&
            negb (cm_RqIdsIc m =? 0) && nonempty (cm_Signatures m)
        | MT_MsgFinalizeAction => negb (bool_decide (cm_RqIdsIds m = []))
        | MT_MsgApproveAction => true
        end (ErrOther "required field")
  end.

Definition SenseValidator_ValidateBasic (metadataStr : string) (msgType : MessageType)
    : result unit :=
  match json_sense metadataStr with
  | None => Err (ErrOther "unmarshal")
  | Some m =>
      ensure_ok
        match msgType with
        | MT_MsgRequestAction => nonempty (sm_DataHash m) && negb (sm_DdAndFingerprintsIc m =? 0)
        | MT_MsgFinalizeAction =>
            negb (bool_decide (sm_DdAndFingerprintsIds m = [])) && nonempty (sm_Signatures m)
        | MT_MsgApproveAction => true
        end (ErrOther "required field")
  end.

Definition DoActionValidation (metadata actionTypeStr : string) (msgType : MessageType)
    : result unit :=
  match ParseActionType actionTypeStr with
  | Ok ActionTypeSense => SenseValidator_ValidateBasic metadata msgType
  | Ok ActionTypeCascade => CascadeValidator_ValidateBasic metadata msgType
  | Ok ActionTypeUnspecified => Err (ErrOther "no validator registered")
  | Err e => Err e
  end.

Definition MsgRequestAction_ValidateBasic (msg : MsgRequestAction) : result unit :=
  if bool_decide (AccAddressFromBech32 (ra_Creator msg) = None) then Err ErrInvalidAddress else
  if negb (is_ok (ParseActionType (ra_ActionType msg))) then Err ErrInvalidActionType else
  if negb (nonempty (ra_Price msg)) then Err ErrInvalidPrice else
  if bool_decide (ParseCoinNormalized (ra_Price msg) = None) then Err ErrInvalidPrice else
  if negb (nonempty (ra_ExpirationTime msg)) then Err ErrInvalidExpiration else
  let '(expirationTime, ok) := strconv_ParseInt (ra_ExpirationTime msg) in
  if negb ok || (expirationTime <? 0) then Err ErrInvalidExpiration else
  if negb (nonempty (ra_Metadata msg)) then Err ErrInvalidMetadata else
  if negb (is_ok (DoActionValidation (ra_Metadata msg) (ra_ActionType msg) MT_MsgRequestAction))
  then Err ErrInvalidMetadata else
  if nonempty (ra_FileSizeKbs msg) then
    let '(fileSizeKbs, ok) := strconv_ParseInt (ra_FileSizeKbs msg) in
    if negb ok || (fileSizeKbs <? 0) then Err ErrInvalidFileSize else Ok tt
  else Ok tt.

Definition MsgFinalizeAction_ValidateBasic (msg : MsgFinalizeAction) : result unit :=
  if bool_decide (AccAddressFromBech32 (fa_Creator msg) = None) then Err ErrActionInvalidAddress else
  if negb (nonempty (fa_ActionId msg)) then Err ErrInvalidID else
  if negb (is_ok (ParseActionType (fa_ActionType msg))) then Err ErrInvalidActionType else
  if negb (nonempty (fa_Metadata msg)) then Err ErrInvalidMetadata else
  if negb (is_ok (DoActionValidation (fa_Metadata msg) (fa_ActionType msg) MT_MsgFinalizeAction))
  then Err ErrInvalidMetadata else Ok tt.

Definition MsgApproveAction_ValidateBasic (msg : MsgApproveAction) : result unit :=
  if bool_decide (AccAddressFromBech32 (aa_Creator msg) = None) then Err ErrInvalidAddress else
  if negb (nonempty (aa_ActionId msg)) then Err ErrInvalidID else Ok tt.
End Validation.
