(* ===== verification/Svc.v ===== *)
(** * x/action/v1/keeper: availability commitments and chunk proofs

    validateAvailabilityCommitment (action_cascade.go), VerifyChunkProofs
    (svc.go), and VerifyKademliaIDs (crypto.go). *)
From Stdlib Require Import ZArith Lia.
From stdpp Require Import base numbers strings list gmap sets.
From S2P Require Import Prelude Sdk Bank Merkle ActionTypes.
Open Scope Z_scope.

(** ** Event types and attributes (types/events.go) *)
Definition EventTypeActionRegistered : string := "action_registered".
Definition EventTypeActionFinalized : string := "action_finalized".
Definition EventTypeActionFinalizationRejected : string := "action_finalization_rejected".
Definition EventTypeActionApproved : string := "action_approved".
Definition EventTypeActionFailed : string := "action_failed".
Definition EventTypeActionExpired : string := "action_expired".
Definition EventTypeSVCEvidence : string := "svc_verification_failed_evidence".
Definition EventTypeSVCVerificationPassed : string := "svc_verification_passed".
Definition AttributeKeyActionID : string := "action_id".
Definition AttributeKeyCreator : string := "creator".
Definition AttributeKeyFinalizer : string := "finalizer".
Definition AttributeKeySuperNodes : string := "supernodes".
Definition AttributeKeyActionType : string := "action_type".
Definition AttributeKeyFee : string := "fee".
Definition AttributeKeyError : string := "error".
Definition AttributeKeyEvidenceID : string := "evidence_id".
Definition AttributeKeyProofIndex : string := "proof_index".
Definition AttributeKeyChunkIndex : string := "chunk_index".
Definition AttributeKeyExpectedChunkIndex : string := "expected_chunk_index".

(** ** Commitments *)
Definition cascadeCommitmentType : string := "lep5/chunk-merkle/v1".
Definition cascadeCommitmentMaxChunkSize : Z := 262144.
Definition cascadeCommitmentMinChunkSize : Z := 1.
Definition cascadeCommitmentRootSize : Z := 32.
Definition cascadeCommitmentMinTotalSize : Z := 4.
Definition cascadeCommitmentHashAlgo : HashAlgo := HASH_ALGO_BLAKE3.

Definition SVCChallengeCount : Z := 8.
Definition SVCMinChunksForChallenge : Z := 4.

Definition GetSVCParams (params : AParams) : Z * Z :=
  (if SvcChallengeCount params =? 0 then SVCChallengeCount else SvcChallengeCount params,
   if SvcMinChunksForChallenge params =? 0 then SVCMinChunksForChallenge
   else SvcMinChunksForChallenge params).

(** [v&(v-1)] on uint32 *)
Definition isPowerOf2 (v : Z) : bool := (0 <? v) && (Z.land v (u32 (v - 1)) =? 0).

(** The loop over the challenge indices, with the indices seen so far. *)
Fixpoint check_indices (numChunks : Z) (seen : gset Z) (indices : list Z) : result unit :=
  match indices with
  | [] => Ok tt
  | idx :: indices' =>
      if numChunks <=? idx then Err (ErrOther "challenge index out of range") else
      if decide (idx ∈ seen) then Err (ErrOther "duplicate challenge index") else
      check_indices numChunks ({[idx]} ∪ seen) indices'
  end.

Definition expectedNumChunks (totalSize chunkSize : Z) : Z :=
  u32 (u64 (u64 (totalSize + chunkSize) - 1) / chunkSize).

Definition validateAvailabilityCommitment (commitment : option AvailabilityCommitment)
    (challengeCount minChunks : Z) : result unit :=
  match commitment with
  | None => Ok tt
  | Some c =>
      if decide (ac_CommitmentType c ≠ cascadeCommitmentType)
      then Err (ErrOther "commitment_type") else
      if decide (ac_HashAlgo c ≠ cascadeCommitmentHashAlgo) then Err (ErrOther "hash_algo") else
      if ac_TotalSize c <? cascadeCommitmentMinTotalSize then Err (ErrOther "total_size") else
      if negb (isPowerOf2 (ac_ChunkSize c)) then Err (ErrOther "chunk_size power of 2") else
      if (ac_ChunkSize c <? cascadeCommitmentMinChunkSize) ||
         (cascadeCommitmentMaxChunkSize <? ac_ChunkSize c) then Err (ErrOther "chunk_size range") else
      if negb (ac_NumChunks c =? expectedNumChunks (ac_TotalSize c) (ac_ChunkSize c))
      then Err (ErrOther "num_chunks") else
      if ac_NumChunks c <? minChunks then Err (ErrOther "num_chunks below minimum") else
      if negb (zlen (ac_Root c) =? cascadeCommitmentRootSize) then Err (ErrOther "root") else
      if minChunks <=? ac_NumChunks c then
        let expectedIndices :=
          if ac_NumChunks c <? challengeCount then ac_NumChunks c else challengeCount in
        if negb (u32 (zlen (ac_ChallengeIndices c)) =? expectedIndices)
        then Err (ErrOther "challenge_indices count") else
        check_indices (ac_NumChunks c) ∅ (ac_ChallengeIndices c)
      else Ok tt
  end.

(** ** Chunk proofs *)
Definition bytesToMerkleHash (value : bytes) : result bytes :=
  if negb (zlen value =? Z.of_nat HashSize) then Err (ErrOther "hash size") else Ok value.

Fixpoint all_hashes (l : list bytes) : result (list bytes) :=
  match l with
  | [] => Ok []
  | h :: l' =>
      match bytesToMerkleHash h, all_hashes l' with
      | Ok d, Ok ds => Ok (d :: ds)
      | Err e, _ | _, Err e => Err e
      end
  end.

Definition chunkProofToMerkleProof (proof : ChunkProof) : result MerkleProof :=
  if negb (zlen (cp_PathHashes proof) =? zlen (cp_PathDirections proof))
  then Err (ErrOther "length mismatch") else
  match bytesToMerkleHash (cp_LeafHash proof) with
  | Err e => Err e
  | Ok leafHash =>
      match all_hashes (cp_PathHashes proof) with
      | Err e => Err e
      | Ok pathHashes =>
          Ok (mkProof (cp_ChunkIndex proof) leafHash pathHashes (cp_PathDirections proof))
      end
  end.

(** The reason carries the sentinel's name instead of the formatted text. *)
Definition emitSVCEvidenceEvent {S} (actionID superNodeAccount reason : string)
    (attrs : list (string * string)) : M S unit :=
  emit (Event EventTypeSVCEvidence
          ([(AttributeKeyActionID, actionID); (AttributeKeySuperNodes, superNodeAccount);
            (AttributeKeyError, reason)] ++ attrs)).

Section Svc.
Context {S : Type} `{Blake3} `{MetadataCodec}.

(** One iteration of the loop over the proofs. *)
Definition verify_one (action : Action) (superNodeAccount : string) (root : bytes)
    (i : nat) (expected : Z) (proof : option ChunkProof) : M S unit :=
  let proofIndex := (AttributeKeyProofIndex, FormatInt (Z.of_nat i)) in
  match proof with
  | None =>
      _ ← emitSVCEvidenceEvent (a_ActionID action) superNodeAccount "invalid merkle proof" [proofIndex];
      fail ErrInvalidMerkleProof
  | Some proof =>
      let chunkIndex := (AttributeKeyChunkIndex, FormatInt (cp_ChunkIndex proof)) in
      if negb (cp_ChunkIndex proof =? expected) then
        _ ← emitSVCEvidenceEvent (a_ActionID action) superNodeAccount "wrong challenge index"
              [proofIndex; (AttributeKeyExpectedChunkIndex, FormatInt expected); chunkIndex];
        fail ErrWrongChallengeIndex
      else
        match chunkProofToMerkleProof proof with
        | Err _ =>
            _ ← emitSVCEvidenceEvent (a_ActionID action) superNodeAccount "invalid merkle proof"
                  [proofIndex; chunkIndex];
            fail ErrInvalidMerkleProof
        | Ok merkleProof =>
            if Verify merkleProof root then mret tt
            else
              _ ← emitSVCEvidenceEvent (a_ActionID action) superNodeAccount "invalid merkle proof"
                    [proofIndex; chunkIndex];
              fail ErrInvalidMerkleProof
        end
  end.

Fixpoint verify_all (action : Action) (superNodeAccount : string) (root : bytes)
    (i : nat) (expectedIndices : list Z) (proofs : list (option ChunkProof)) : M S unit :=
  match proofs, expectedIndices with
  | proof :: proofs', expected :: expected' =>
      _ ← verify_one action superNodeAccount root i expected proof;
      verify_all action superNodeAccount root (Datatypes.S i) expected' proofs'
  | _, _ => mret tt
  end.

Definition VerifyChunkProofs (action : Action) (superNodeAccount : string)
    (proofs : list (option ChunkProof)) : M S unit :=
  metadata ← of_option ErrInvalidMetadata (cascade_Unmarshal (default [] (a_Metadata action)));
  match cm_AvailabilityCommitment metadata with
  | None => mret tt
  | Some commitment =>
      let expectedIndices := ac_ChallengeIndices commitment in
      if decide (expectedIndices = []) then mret tt else
      if negb (zlen proofs =? zlen expectedIndices) then
        _ ← emitSVCEvidenceEvent (a_ActionID action) superNodeAccount "wrong chunk proof count" [];
        fail ErrWrongProofCount
      else
        match bytesToMerkleHash (ac_Root commitment) with
        | Err _ =>
            _ ← emitSVCEvidenceEvent (a_ActionID action) superNodeAccount "invalid merkle proof" [];
            fail ErrInvalidMerkleProof
        | Ok root =>
            _ ← verify_all action superNodeAccount root 0 expectedIndices proofs;
            emit (Event EventTypeSVCVerificationPassed
                    [(AttributeKeyActionID, a_ActionID action);
                     (AttributeKeySuperNodes, superNodeAccount)])
        end
  end.
End Svc.

(** ** Kademlia identifiers (crypto.go) *)

(** The zstd and base58 libraries. *)
Class KademliaLibs := {
  zstd_CompressLevel3 : bytes → result bytes;
  base58_Encode : bytes → string
}.

Section Kademlia.
Context `{Blake3} `{KademliaLibs}.

Definition CreateKademliaID (signatures : string) (counter : Z) : result string :=
  match zstd_CompressLevel3 (string_bytes (signatures +:+ "." +:+ FormatInt counter)) with
  | Err e => Err e
  | Ok compressed => Ok (base58_Encode (blake3_Sum256 compressed))
  end.

(** [draw max] is the outcome of crypto/rand.Int on the executing node; it is
    drawn below [max]. *)
Definition VerifyKademliaIDs (draw : Z → Z) (ids : list string) (signatures : string)
    (counterIc counterMax : Z) : result unit :=
  if decide (ids = []) then Err (ErrOther "empty ID") else
  if decide (signatures = "") then Err (ErrOther "empty signatures") else
  if counterMax <=? 0 then Err (ErrOther "invalid counter") else
  if negb (zlen ids =? counterMax) then Err (ErrOther "number of ids") else
  if existsb (λ id, bool_decide (id = "")) ids then Err (ErrOther "empty id") else
  if i64 counterMax <=? 0 then Err (Panic "crypto/rand: argument to Int is <= 0") else
  let idIndex := draw (i64 counterMax) in
  if counterMax <=? idIndex then Err (ErrOther "invalid random index") else
  match ids !! Z.to_nat idIndex with
  | None => Err (Panic "index out of range")
  | Some randomID =>
      match CreateKademliaID signatures (u64 (counterIc + idIndex)) with
      | Err e => Err e
      | Ok expectedID => if decide (randomID = expectedID) then Ok tt else Err ErrInvalidID
      end
  end.
End Kademlia.

(** ** Commitments: what is accepted *)

Lemma isPowerOf2_spec v : in_u32 v → isPowerOf2 v = true ↔ ∃ k, 0 ≤ k < 32 ∧ v = 2 ^ k.
Proof.
  unfold in_u32, isPowerOf2. intros Hv. rewrite andb_true_iff, Z.ltb_lt, Z.eqb_eq. split.
  - intros [Hpos Hland]. rewrite u32_small in Hland by (unfold in_u32; lia).
    exists (Z.log2 v). destruct (Z.log2_spec v Hpos) as [Hlo Hhi].
    assert (0 ≤ Z.log2 v < 32) as Hk.
    { split; [apply Z.log2_nonneg|]. apply Z.log2_lt_pow2; lia. }
    split; [done|]. destruct (decide (v = 2 ^ Z.log2 v)) as [|Hne]; [done|exfalso].
    assert (Z.log2 (v - 1) = Z.log2 v) as Hlog by (apply Z.log2_unique; lia).
    assert (Z.testbit (Z.land v (v - 1)) (Z.log2 v) = true) as Hbit.
    { rewrite Z.land_spec, Z.bit_log2 by lia. rewrite <- Hlog, Z.bit_log2 by lia. done. }
    by rewrite Hland, Z.bits_0 in Hbit.
  - intros (k & Hk & ->). assert (0 < 2 ^ k) by lia. split; [done|].
    rewrite u32_small by (unfold in_u32; lia).
    replace (2 ^ k - 1) with (Z.ones k) by (rewrite Z.ones_equiv; lia).
    rewrite Z.land_ones by lia. by apply Z.mod_same; lia.
Qed.

Lemma chunk_size_spec v :
  in_u32 v → (∃ k, 0 ≤ k ≤ 18 ∧ v = 2 ^ k) ↔ isPowerOf2 v = true ∧ v ≤ 262144.
Proof.
  intros Hv. rewrite isPowerOf2_spec by done. change 262144 with (2 ^ 18). split.
  - intros (k & Hk & ->). split; [exists k; split; [lia|done]|].
    apply Z.pow_le_mono_r; lia.
  - intros [(k & Hk & ->) Hle]. exists k. split; [|done].
    split; [lia|]. apply (Z.pow_le_mono_r_iff 2) in Hle; lia.
Qed.

Lemma check_indices_Ok n seen l :
  check_indices n seen l = Ok tt ↔ Forall (λ i, i < n) l ∧ NoDup l ∧ (∀ i, i ∈ l → i ∉ seen).
Proof.
  revert seen. induction l as [|i l IH]; intros seen; simpl.
  - split; [|done]. intros _. split_and!; [constructor..|set_solver].
  - rewrite Forall_cons, NoDup_cons. destruct (Z.leb_spec n i); [split; [done|lia]|].
    case_decide; [split; [done|set_solver]|].
    rewrite IH. set_solver.
Qed.

(** A commitment to a file of [ac_TotalSize] bytes. *)
Definition commitment_ok (c : AvailabilityCommitment) (challengeCount minChunks : Z) : Prop :=
  ac_CommitmentType c = cascadeCommitmentType ∧ ac_HashAlgo c = HASH_ALGO_BLAKE3 ∧
  4 ≤ ac_TotalSize c ∧ (∃ k, 0 ≤ k ≤ 18 ∧ ac_ChunkSize c = 2 ^ k) ∧
  (** as many chunks as it takes to hold the file *)
  (ac_NumChunks c - 1) * ac_ChunkSize c < ac_TotalSize c ≤ ac_NumChunks c * ac_ChunkSize c ∧
  minChunks ≤ ac_NumChunks c ∧ zlen (ac_Root c) = 32 ∧
  zlen (ac_ChallengeIndices c) = Z.min challengeCount (ac_NumChunks c) ∧
  Forall (λ i, i < ac_NumChunks c) (ac_ChallengeIndices c) ∧ NoDup (ac_ChallengeIndices c).

(** The machine widths of the fields. *)
Definition commitment_wf (c : AvailabilityCommitment) : Prop :=
  in_u32 (ac_ChunkSize c) ∧ in_u64 (ac_TotalSize c) ∧ in_u32 (ac_NumChunks c) ∧
  in_u32 (zlen (ac_ChallengeIndices c)).

Lemma ceil_div_spec t c n :
  0 < c → 0 < t → (t + c - 1) / c = n ↔ (n - 1) * c < t ≤ n * c.
Proof.
  intros Hc Ht. split.
  - intros <-. pose proof (Z.div_mod (t + c - 1) c). pose proof (Z.mod_pos_bound (t + c - 1) c). nia.
  - intros Hn. symmetry. apply (Z.div_unique _ _ _ (t + c - 1 - n * c)); nia.
Qed.

Lemma expectedNumChunks_small t c :
  0 < c → 0 < t → t + c ≤ 2 ^ 64 - 1 → (t + c - 1) / c < 2 ^ 32 →
  expectedNumChunks t c = (t + c - 1) / c.
Proof.
  intros Hc Ht H64 H32. unfold expectedNumChunks.
  rewrite (u64_small (t + c)), (u64_small (t + c - 1)) by (unfold in_u64; lia).
  apply u32_small. unfold in_u32. split; [|done]. apply Z.div_pos; lia.
Qed.

(** C30. For files whose chunk count fits in 32 bits, a commitment is accepted
    exactly when it is well-formed: BLAKE3 chunk-Merkle type, a power-of-two chunk
    size up to 256 KiB, the exact number of chunks for the total size, a 32-byte
    root, and the required number of distinct in-range challenge indices. *)
Theorem commitment_accepted_iff c challengeCount minChunks :
  commitment_wf c → in_u32 challengeCount → in_u32 minChunks →
  ac_TotalSize c + ac_ChunkSize c ≤ 2 ^ 64 - 1 →
  (ac_TotalSize c + ac_ChunkSize c - 1) / ac_ChunkSize c < 2 ^ 32 →
  validateAvailabilityCommitment (Some c) challengeCount minChunks = Ok tt ↔
  commitment_ok c challengeCount minChunks.
Proof.
  intros (Hcs & Hts & Hnc & Hci) Hcc Hmc H64 H32. unfold validateAvailabilityCommitment, commitment_ok.
  unfold cascadeCommitmentMinTotalSize, cascadeCommitmentMinChunkSize,
    cascadeCommitmentMaxChunkSize, cascadeCommitmentRootSize, cascadeCommitmentHashAlgo.
  case_decide as Ht; [split; [done|intros (? & _); done]|].
  case_decide as Ha; [split; [done|intros (_ & ? & _); done]|].
  destruct (Z.ltb_spec (ac_TotalSize c) 4); [split; [done|intros (_ & _ & ? & _); lia]|].
  rewrite chunk_size_spec by done. destruct (isPowerOf2 (ac_ChunkSize c)) eqn:Ep; simpl; [|naive_solver].
  assert (0 < ac_ChunkSize c) as Hpos by (unfold isPowerOf2 in Ep; lia).
  destruct (Z.ltb_spec (ac_ChunkSize c) 1), (Z.ltb_spec 262144 (ac_ChunkSize c)); simpl;
    try (split; [done|intros (_ & _ & _ & [_ ?] & _); lia]).
  rewrite expectedNumChunks_small by (done || lia).
  rewrite <- (ceil_div_spec (ac_TotalSize c) (ac_ChunkSize c) (ac_NumChunks c)) by lia.
  destruct (Z.eqb_spec (ac_NumChunks c) ((ac_TotalSize c + ac_ChunkSize c - 1) / ac_ChunkSize c));
    simpl; [|naive_solver].
  destruct (Z.ltb_spec (ac_NumChunks c) minChunks);
    [split; [done|intros (_ & _ & _ & _ & _ & ? & _); lia]|].
  destruct (Z.eqb_spec (zlen (ac_Root c)) 32); simpl; [|naive_solver].
  rewrite (proj2 (Z.leb_le _ _)) by lia. rewrite u32_small by done.
  assert ((if ac_NumChunks c <? challengeCount then ac_NumChunks c else challengeCount) =
          Z.min challengeCount (ac_NumChunks c)) as ->.
  { destruct (Z.ltb_spec (ac_NumChunks c) challengeCount); lia. }
  destruct (Z.eqb_spec (zlen (ac_ChallengeIndices c)) (Z.min challengeCount (ac_NumChunks c)));
    simpl; [|naive_solver].
  rewrite check_indices_Ok. set_solver by lia.
Qed.

(** The chunk count is truncated to 32 bits before it is compared, so a
    commitment with far too few chunks for its total size can be accepted. *)
Theorem commitment_count_truncated :
  ∃ c, commitment_wf c ∧ validateAvailabilityCommitment (Some c) 8 4 = Ok tt ∧
       ac_NumChunks c * ac_ChunkSize c < ac_TotalSize c.
Proof.
  exists (mkCommitment cascadeCommitmentType HASH_ALGO_BLAKE3 1 (2 ^ 32 + 4) 4
            (replicate 32 0) [0; 1; 2; 3]).
  split; [|split; [vm_compute; reflexivity|simpl; lia]].
  unfold commitment_wf, in_u32, in_u64, zlen. simpl. lia.
Qed.

(** ** Chunk proofs *)
Section SvcThm.
Context {S : Type} `{Blake3} `{MetadataCodec}.

Definition passed_event (action : Action) (sn : string) : event :=
  Event EventTypeSVCVerificationPassed
    [(AttributeKeyActionID, a_ActionID action); (AttributeKeySuperNodes, sn)].

Lemma verify_all_ok action sn root i expected proofs (s : st S) :
  Forall2 (λ e p, ∃ cp mp, p = Some cp ∧ cp_ChunkIndex cp = e ∧
             chunkProofToMerkleProof cp = Ok mp ∧ Verify mp root = true) expected proofs →
  verify_all action sn root i expected proofs s = (Ok tt, s).
Proof.
  intros HF. revert i. induction HF as [|e p expected proofs Hp _ IH]; intros i; [done|].
  destruct Hp as (cp & mp & -> & Hidx & Hconv & Hv). cbn [verify_all].
  rewrite (bind_ok _ _ s tt s); [apply IH|]. unfold verify_one.
  by rewrite Hidx, Z.eqb_refl, Hconv, Hv.
Qed.

Lemma VerifyChunkProofs_accepts action sn meta c proofs (s : st S) :
  cascade_Unmarshal (default [] (a_Metadata action)) = Some meta →
  cm_AvailabilityCommitment meta = Some c → ac_ChallengeIndices c ≠ [] → zlen (ac_Root c) = 32 →
  Forall2 (λ e p, ∃ cp mp, p = Some cp ∧ cp_ChunkIndex cp = e ∧
             chunkProofToMerkleProof cp = Ok mp ∧ Verify mp (ac_Root c) = true)
    (ac_ChallengeIndices c) proofs →
  VerifyChunkProofs action sn proofs s =
    (Ok tt, St (store s) (events s ++ [passed_event action sn])).
Proof.
  intros Hm Hc Hne Hroot HF. unfold VerifyChunkProofs.
  rewrite (bind_of_option _ _ meta) by done. rewrite Hc. cbv zeta. rewrite decide_False by done.
  apply Forall2_length in HF as Hlen. unfold zlen at 1 2. rewrite Hlen, Z.eqb_refl. cbn [negb].
  unfold bytesToMerkleHash. rewrite Hroot. simpl (negb _). cbv iota.
  by rewrite (bind_ok _ _ s tt s) by by apply verify_all_ok.
Qed.

(** C31. Proofs forged from the public commitment alone pass: for every action
    with an availability commitment, answering each challenge with the committed
    root as leaf hash and an empty path is accepted, whatever the chunks are. *)
Theorem forged_chunk_proofs_accepted action sn meta c (s : st S) :
  cascade_Unmarshal (default [] (a_Metadata action)) = Some meta →
  cm_AvailabilityCommitment meta = Some c → ac_ChallengeIndices c ≠ [] → zlen (ac_Root c) = 32 →
  VerifyChunkProofs action sn
    ((λ i, Some (mkChunkProof i (ac_Root c) [] [])) <$> ac_ChallengeIndices c) s =
  (Ok tt, St (store s) (events s ++ [passed_event action sn])).
Proof.
  intros Hm Hc Hne Hroot. eapply VerifyChunkProofs_accepts; [done..|].
  apply Forall2_fmap_r, Forall_Forall2_diag, Forall_true. intros i.
  eexists _, _. split_and!; [done|done|..].
  - unfold chunkProofToMerkleProof, bytesToMerkleHash. cbn [cp_LeafHash]. by rewrite Hroot.
  - unfold Verify. simpl. by apply bool_decide_eq_true.
Qed.

Definition to_chunk_proof (p : MerkleProof) : ChunkProof :=
  mkChunkProof (ChunkIndex p) (LeafHash p) (PathHashes p) (PathDirections p).

(** The answers of a supernode that has the file. *)
Definition honest_proofs (t : Tree) (indices : list Z) : list (option ChunkProof) :=
  (λ i, match GenerateProof t i with Ok p => Some (to_chunk_proof p) | Err _ => None end)
    <$> indices.

Lemma all_hashes_digests l : Forall digest l → all_hashes l = Ok l.
Proof.
  induction 1 as [|h l Hh _ IH]; [done|]. simpl. unfold bytesToMerkleHash, zlen.
  by rewrite Hh, Z.eqb_refl, IH.
Qed.

Lemma chunkProofToMerkleProof_inv p :
  digest (LeafHash p) → Forall digest (PathHashes p) →
  length (PathHashes p) = length (PathDirections p) →
  chunkProofToMerkleProof (to_chunk_proof p) = Ok p.
Proof.
  intros Hl Hp Hlen. unfold chunkProofToMerkleProof. simpl. unfold bytesToMerkleHash, zlen.
  rewrite Hl, Hlen, !Z.eqb_refl, all_hashes_digests by done. simpl. by destruct p.
Qed.

(** A supernode that holds the file always passes: when the commitment's root
    is the root of the chunks' tree and the challenged indices are in range, the
    proofs generated from the tree are accepted. *)
Theorem honest_chunk_proofs_accepted `{!Blake3Laws} action sn meta c chunks t (s : st S) :
  cascade_Unmarshal (default [] (a_Metadata action)) = Some meta →
  cm_AvailabilityCommitment meta = Some c → ac_ChallengeIndices c ≠ [] →
  BuildTree chunks = Ok t → ac_Root c = Root t → zlen chunks ≤ 2 ^ 32 →
  Forall (λ i, 0 ≤ i < zlen chunks) (ac_ChallengeIndices c) →
  VerifyChunkProofs action sn (honest_proofs t (ac_ChallengeIndices c)) s =
  (Ok tt, St (store s) (events s ++ [passed_event action sn])).
Proof.
  intros Hm Hc Hne Ht Hroot Hlen Hidx.
  assert (chunks ≠ []) as Hchunks by (by intros ->).
  destruct (merkle_roundtrip chunks Hchunks) as (t' & Ht' & Hgen).
  assert (t' = t) as -> by congruence.
  assert (∀ i, 0 ≤ i < zlen chunks → ∃ p, GenerateProof t i = Ok p ∧
    Verify p (Root t) = true ∧ ChunkIndex p = i) as Hp.
  { intros i Hi. destruct (lookup_lt_is_Some_2 chunks (Z.to_nat i)) as [chunk Hchunk];
      [unfold zlen in *; lia|].
    destruct (Hgen _ _ Hchunk) as (p & Hg & Hv & _ & Hci). rewrite Z2Nat.id in Hg, Hci by lia.
    exists p. split_and!; [done..|]. rewrite Hci. apply u32_small. unfold in_u32. lia. }
  eapply VerifyChunkProofs_accepts; [done..| |].
  - rewrite Hroot. destruct (Hp 0) as (p & Hg & _); [destruct chunks; [done|]; unfold zlen; simpl; lia|].
    destruct (GenerateProof_digests _ _ _ _ Ht Hg) as (_ & _ & _ & Hr). unfold zlen. by rewrite Hr.
  - apply Forall2_fmap_r, Forall_Forall2_diag. eapply Forall_impl; [done|]. intros i Hi.
    destruct (Hp i Hi) as (p & Hg & Hv & Hci). unfold compose. rewrite Hg. exists (to_chunk_proof p), p.
    destruct (GenerateProof_digests _ _ _ _ Ht Hg) as (Hl & Hpa & Hln & _).
    rewrite Hroot. split_and!; [done|done|by apply chunkProofToMerkleProof_inv|done].
Qed.
End SvcThm.

(** ** Kademlia identifiers *)
Section KademliaThm.
Context `{Blake3} `{KademliaLibs}.

(** A list of the required length without empty entries. *)
Definition ids_wf (ids : list string) (signatures : string) (counterMax : Z) : Prop :=
  signatures ≠ "" ∧ 0 < counterMax < 2 ^ 63 ∧ zlen ids = counterMax ∧ Forall (λ id, id ≠ "") ids.

Lemma VerifyKademliaIDs_eq draw ids signatures ic counterMax :
  ids_wf ids signatures counterMax → 0 ≤ draw counterMax < counterMax →
  ∃ id, ids !! Z.to_nat (draw counterMax) = Some id ∧
    VerifyKademliaIDs draw ids signatures ic counterMax =
      match CreateKademliaID signatures (u64 (ic + draw counterMax)) with
      | Err e => Err e
      | Ok expected => if decide (id = expected) then Ok tt else Err ErrInvalidID
      end.
Proof.
  intros (Hs & Hm & Hlen & HF) Hd. unfold zlen in *.
  destruct (lookup_lt_is_Some_2 ids (Z.to_nat (draw counterMax))) as [id Hid]; [lia|].
  exists id. split; [done|]. unfold VerifyKademliaIDs.
  rewrite decide_False by (intros ->; simpl in *; lia). rewrite decide_False by done.
  rewrite (proj2 (Z.leb_gt _ _)) by lia. unfold zlen. rewrite Hlen, Z.eqb_refl. cbn [negb].
  assert (existsb (λ id, bool_decide (id = "")) ids = false) as ->.
  { clear Hid Hlen. induction HF as [|x l Hx _ IH]; [done|]. simpl.
    by rewrite bool_decide_false, IH. }
  rewrite i64_small by (unfold in_i64; lia). rewrite (proj2 (Z.leb_gt _ _)) by lia.
  cbv zeta. rewrite (proj2 (Z.leb_gt _ _)) by lia. by rewrite Hid.
Qed.

(** The identifier check samples one position with the node's own randomness:
    for a well-formed list that holds the right identifier at one position and a
    wrong one at another, two nodes executing the same transaction can come to
    opposite results. *)
Theorem kademlia_check_diverges ids signatures ic counterMax i j id id' good wanted :
  ids_wf ids signatures counterMax →
  ids !! i = Some id → ids !! j = Some id' →
  CreateKademliaID signatures (u64 (ic + Z.of_nat i)) = Ok good → id = good →
  CreateKademliaID signatures (u64 (ic + Z.of_nat j)) = Ok wanted → id' ≠ wanted →
  VerifyKademliaIDs (λ _, Z.of_nat i) ids signatures ic counterMax = Ok tt ∧
  VerifyKademliaIDs (λ _, Z.of_nat j) ids signatures ic counterMax = Err ErrInvalidID.
Proof.
  intros Hwf Hi Hj Hgood -> Hwant Hne.
  assert (∀ k x, ids !! k = Some x → 0 ≤ Z.of_nat k < counterMax) as Hb.
  { intros k x Hk%lookup_lt_Some. destruct Hwf as (_ & _ & Hlen & _). unfold zlen in *. lia. }
  split.
  - destruct (VerifyKademliaIDs_eq (λ _, Z.of_nat i) ids signatures ic counterMax Hwf (Hb _ _ Hi))
      as (x & Hx & ->).
    rewrite Nat2Z.id in Hx. rewrite Hgood. simplify_eq. by rewrite decide_True.
  - destruct (VerifyKademliaIDs_eq (λ _, Z.of_nat j) ids signatures ic counterMax Hwf (Hb _ _ Hj))
      as (x & Hx & ->).
    rewrite Nat2Z.id in Hx. rewrite Hwant. simplify_eq. by rewrite decide_False.
Qed.
End KademliaThm.
