(* ===== verification/ActionStore.v ===== *)
(** * x/action/v1/keeper: the action store and its secondary indexes

    The part of action.go that reads and writes actions.  A secondary index is
    the set of its keys below the index prefix ("<field>/<action id>"). *)
From Stdlib Require Import ZArith Lia Ascii.
From stdpp Require Import base numbers strings list gmap sets sorting pretty.
From S2P Require Import Prelude Sdk Bank SupernodeTypes Supernode ActionTypes.
Open Scope Z_scope.

(** ** The audit module, as the action module sees it *)
Inductive EvidenceType : Set :=
| EVIDENCE_TYPE_UNSPECIFIED
| EVIDENCE_TYPE_ACTION_FINALIZATION_SIGNATURE_FAILURE
| EVIDENCE_TYPE_ACTION_FINALIZATION_NOT_IN_TOP_10
| EVIDENCE_TYPE_ACTION_EXPIRED
| EVIDENCE_TYPE_STORAGE_CHALLENGE_FAILURE
| EVIDENCE_TYPE_CASCADE_CLIENT_FAILURE.
#[export] Instance EvidenceType_eq_dec : EqDecision EvidenceType.
Proof. solve_decision. Defined.

(** [CreateEvidence] gets reporter, subject, action and the top-10 validator
    addresses of the evidence metadata. *)
Class AuditKeeper `{LegacyDecOps} := {
  audit : Type;
  CreateEvidence :
    Ctx → string → string → string → EvidenceType → list string → audit → result Z * audit;
  SetStorageTruthTicketArtifactCounts : Ctx → string → Z → Z → audit → result unit * audit
}.

(** ** State *)
Section Store.
Context `{BankKeeper} `{LegacyDecOps} `{!AuditKeeper}.

Record act_store := ActStore {
  act_actions : gmap string Action;
  act_count : Z;
  act_by_state : gset string;
  act_by_creator : gset string;
  act_by_type : gset string;
  act_by_block : gset string;
  act_by_sn : gset string;
  act_params : option AParams;
  act_bank : bank;
  act_sn : sn_store;
  act_audit : audit
}.

Definition set_actions (f : gmap string Action → gmap string Action) (s : act_store) : act_store :=
  ActStore (f (act_actions s)) (act_count s) (act_by_state s) (act_by_creator s) (act_by_type s)
    (act_by_block s) (act_by_sn s) (act_params s) (act_bank s) (act_sn s) (act_audit s).
Definition set_count (n : Z) (s : act_store) : act_store :=
  ActStore (act_actions s) n (act_by_state s) (act_by_creator s) (act_by_type s)
    (act_by_block s) (act_by_sn s) (act_params s) (act_bank s) (act_sn s) (act_audit s).
Definition set_by_state (f : gset string → gset string) (s : act_store) : act_store :=
  ActStore (act_actions s) (act_count s) (f (act_by_state s)) (act_by_creator s) (act_by_type s)
    (act_by_block s) (act_by_sn s) (act_params s) (act_bank s) (act_sn s) (act_audit s).
Definition set_by_creator (f : gset string → gset string) (s : act_store) : act_store :=
  ActStore (act_actions s) (act_count s) (act_by_state s) (f (act_by_creator s)) (act_by_type s)
    (act_by_block s) (act_by_sn s) (act_params s) (act_bank s) (act_sn s) (act_audit s).
Definition set_by_type (f : gset string → gset string) (s : act_store) : act_store :=
  ActStore (act_actions s) (act_count s) (act_by_state s) (act_by_creator s) (f (act_by_type s))
    (act_by_block s) (act_by_sn s) (act_params s) (act_bank s) (act_sn s) (act_audit s).
Definition set_by_block (f : gset string → gset string) (s : act_store) : act_store :=
  ActStore (act_actions s) (act_count s) (act_by_state s) (act_by_creator s) (act_by_type s)
    (f (act_by_block s)) (act_by_sn s) (act_params s) (act_bank s) (act_sn s) (act_audit s).
Definition set_by_sn (f : gset string → gset string) (s : act_store) : act_store :=
  ActStore (act_actions s) (act_count s) (act_by_state s) (act_by_creator s) (act_by_type s)
    (act_by_block s) (f (act_by_sn s)) (act_params s) (act_bank s) (act_sn s) (act_audit s).
Definition set_bank (b : bank) (s : act_store) : act_store :=
  ActStore (act_actions s) (act_count s) (act_by_state s) (act_by_creator s) (act_by_type s)
    (act_by_block s) (act_by_sn s) (act_params s) b (act_sn s) (act_audit s).
Definition set_audit (a : audit) (s : act_store) : act_store :=
  ActStore (act_actions s) (act_count s) (act_by_state s) (act_by_creator s) (act_by_type s)
    (act_by_block s) (act_by_sn s) (act_params s) (act_bank s) (act_sn s) a.

(** Calls into the bank and the audit module. *)
Definition on_bank {A} (op : bank → result A * bank) : M act_store A := lift act_bank set_bank op.
Definition on_audit {A} (op : audit → result A * audit) : M act_store A :=
  lift act_audit set_audit op.

(** ** Keys *)
Definition index_key (field id : string) : string := (field +:+ String "/" id)%string.

Fixpoint strip_prefix (p s : string) : option string :=
  match p, s with
  | EmptyString, _ => Some s
  | String c p', String c' s' => if decide (c = c') then strip_prefix p' s' else None
  | String _ _, EmptyString => None
  end.

(** The keys of an index that extend a prefix, in store order, without it. *)
Definition index_ids (idx : gset string) (p : string) : list string :=
  omap (strip_prefix p) (merge_sort string_le (elements idx)).

(** ** Reads *)
Definition AGetParams (s : act_store) : AParams :=
  match act_params s with
  | None => DefaultActionParams
  | Some p => AParams_WithDefaults p
  end.

Definition GetActionByID (actionID : string) (s : act_store) : option Action :=
  act_actions s !! actionID.

Definition getActionsByIndexPrefix (idx : gset string) (indexPrefix : string) (s : act_store)
    : list Action :=
  omap (λ id, GetActionByID id s) (index_ids idx indexPrefix).

Definition GetActionsByCreator (creator : string) (s : act_store) : list Action :=
  getActionsByIndexPrefix (act_by_creator s) (creator +:+ "/") s.
Definition GetActionsBySuperNode (supernode : string) (s : act_store) : list Action :=
  getActionsByIndexPrefix (act_by_sn s) (supernode +:+ "/") s.

(** The iterator reads the index as it is when the iteration starts; the handler
    gets the action as it is when its turn comes. *)
Definition IterateActionsByState (state : ActionState) (handler : Action → M act_store unit)
    : M act_store unit :=
  ids ← gets (λ s, index_ids (act_by_state s) (ActionState_String state +:+ "/"));
  for_each (λ id,
    action ← gets (GetActionByID id);
    match action with None => mret tt | Some a => handler a end) ids.

Definition getLastActionID (s : act_store) : Z := act_count s.

(** ** SetAction *)
Definition reindex (found : bool) (changed : bool) (old new : string) (idx : gset string)
    : gset string :=
  {[new]} ∪ (if found && changed then idx ∖ {[old]} else idx).

Definition SetAction (action : Action) : M act_store unit :=
  existing ← gets (GetActionByID (a_ActionID action));
  let found := bool_decide (is_Some existing) in
  let ex := default action existing in
  let id := a_ActionID action in
  _ ← modify (set_actions <[id := action]>);
  _ ← modify (set_by_state
        (reindex found (bool_decide (a_State ex ≠ a_State action))
           (index_key (ActionState_String (a_State ex)) id)
           (index_key (ActionState_String (a_State action)) id)));
  _ ← modify (set_by_creator
        (reindex found (bool_decide (a_Creator ex ≠ a_Creator action))
           (index_key (a_Creator ex) id) (index_key (a_Creator action) id)));
  _ ← modify (set_by_type
        (reindex found (bool_decide (a_ActionType ex ≠ a_ActionType action))
           (index_key (ActionType_String (a_ActionType ex)) id)
           (index_key (ActionType_String (a_ActionType action)) id)));
  _ ← modify (set_by_block
        (reindex found (bool_decide (a_BlockHeight ex ≠ a_BlockHeight action))
           (index_key (FormatInt (a_BlockHeight ex)) id)
           (index_key (FormatInt (a_BlockHeight action)) id)));
  let stale := if found then filter (λ sn, sn ∉ a_SuperNodes action) (a_SuperNodes ex) else [] in
  modify (set_by_sn (λ idx,
    list_to_set ((λ sn, index_key sn id) <$> a_SuperNodes action) ∪
    (idx ∖ list_to_set ((λ sn, index_key sn id) <$> stale)))).
End Store.
