(* ===== verification/ActionKeeper.v ===== *)
(** * x/action/v1/keeper: the life of an action

    The type handlers (action_cascade.go, action_sense.go), the keeper methods of
    action.go that register, finalize, approve and expire actions and move their
    fees, the evidence hooks of audit_evidence.go, and the message handlers. *)
From Stdlib Require Import ZArith Lia Ascii.
From stdpp Require Import base numbers strings list gmap.
From S2P Require Import Prelude Sdk Float Bank SupernodeTypes Supernode SupernodeRank ActionTypes.
From S2P Require Import Merkle Svc ActionStore.
Open Scope Z_scope.

(** ** Strings *)

(** strings.Split(s, ".") *)
Fixpoint split_dot (s : string) : list string :=
  match s with
  | EmptyString => [""%string]
  | String c s' =>
      if decide (c = "."%char) then ""%string :: split_dot s' else
      match split_dot s' with
      | part :: parts => String c part :: parts
      | [] => [String c EmptyString]
      end
  end.

(** strings.Contains(s, "bad") *)
Fixpoint contains (s sub : string) : bool :=
  String.prefix sub s ||
  match s with EmptyString => false | String _ s' => contains s' sub end.

(** ** Accounts and the executing node *)
Class PubKeys := { PubKey : Type }.

Section Accounts.
Context `{PubKeys} `{LegacyDecOps}.

(** An account; [acct_owner] is the owner of an interchain account. *)
Record AccountI := { acct_PubKey : option PubKey; acct_owner : option string }.

(** The context of a call: the block, the view of the auth module, and the
    node-local source of randomness. *)
Record Env := {
  env_ctx : Ctx;
  env_GetAccount : bytes → option AccountI;
  env_draw : Z → Z
}.

Record creatorAccountInfo := {
  info_account : AccountI;
  info_isICA : bool;
  info_owner : string;
  info_appPubkey : bytes
}.
End Accounts.

(** What the handlers need of crypto.go's VerifySignature: data, signature and
    signer, with the creator's cached account if the caller has one. *)
Class ActionCrypto `{PubKeys} `{LegacyDecOps} := {
  VerifySignature : Env → option creatorAccountInfo → string → string → string → result unit
}.

Definition ModuleName : string := "action".
Definition SupernodeModuleName : string := "supernode".

Section Keeper.
Context `{SdkAddress} `{LegacyDecOps} `{Blake3} `{CoinParser} `{BankKeeper} `{MetadataCodec}
  `{KademliaLibs} `{PubKeys} `{!AuditKeeper} `{!ActionCrypto}.

Definition ModuleAccountAddress : bytes := module_address ModuleName.
(** k.addressCodec.BytesToString(ModuleAccountAddress) *)
Variable reporterAddress : string.

(** ** Handlers *)

(** Process: from the JSON of a message to the stored bytes. *)
Definition Cascade_Process (metadata : string) (msgType : MessageType) (params : option AParams)
    : result bytes :=
  match jsonpb_cascade metadata with
  | None => Err (ErrOther "failed to unmarshal cascade metadata from JSON")
  | Some m =>
      let marshal m := match cascade_Marshal m with Some b => Ok b | None => Err (ErrOther "marshal") end in
      match msgType with
      | MT_MsgRequestAction =>
          if negb (nonempty (cm_DataHash m)) || negb (nonempty (cm_FileName m)) ||
             (cm_RqIdsIc m =? 0) || negb (nonempty (cm_Signatures m))
          then Err (ErrOther "required field") else
          match params with
          | None => Err (ErrOther "params field is required")
          | Some p => marshal (with_RqIdsMax m (MaxRaptorQSymbols p))
          end
      | MT_MsgFinalizeAction =>
          if bool_decide (cm_RqIdsIds m = []) then Err (ErrOther "rq_ids_ids field is required") else
          match CascadeArtifactCountsWithFallbackStrict m with
          | Err e => Err e
          | Ok (indexCount, symbolCount) => marshal (with_artifact_counts m indexCount symbolCount)
          end
      | MT_MsgApproveAction => Err (ErrOther "unsupported message type")
      end
  end.

Definition Sense_Process (metadata : string) (msgType : MessageType) (params : option AParams)
    : result bytes :=
  match jsonpb_sense metadata with
  | None => Err (ErrOther "failed to unmarshal sense metadata from JSON")
  | Some m =>
      let marshal m := match sense_Marshal m with Some b => Ok b | None => Err (ErrOther "marshal") end in
      match msgType with
      | MT_MsgRequestAction =>
          if negb (nonempty (sm_DataHash m)) || (sm_DdAndFingerprintsIc m =? 0)
          then Err (ErrOther "required field") else
          match params with
          | None => Err (ErrOther "params is required")
          | Some p => marshal (with_DdMax m (MaxDdAndFingerprints p))
          end
      | MT_MsgFinalizeAction =>
          if bool_decide (sm_DdAndFingerprintsIds m = []) || negb (nonempty (sm_Signatures m))
          then Err (ErrOther "required field") else marshal m
      | MT_MsgApproveAction => Err (ErrOther "unsupported message type")
      end
  end.

(** RegisterAction of the handlers *)
Definition Cascade_RegisterAction (env : Env) (info : option creatorAccountInfo) (action : Action)
    : M act_store unit :=
  metadata ← of_option ErrInvalidMetadata (a_Metadata action);
  cascadeMeta ← of_option ErrInvalidMetadata (cascade_Unmarshal metadata);
  params ← gets AGetParams;
  let '(challengeCount, minChunks) := GetSVCParams params in
  _ ← wrap_err ErrInvalidMetadata (of_result
        (validateAvailabilityCommitment (cm_AvailabilityCommitment cascadeMeta)
           challengeCount minChunks));
  match split_dot (cm_Signatures cascadeMeta) with
  | [dataToVerify; creatorSignature] =>
      wrap_err ErrInvalidMetadata (of_result
        (VerifySignature env info dataToVerify creatorSignature (a_Creator action)))
  | _ => fail ErrInvalidMetadata
  end.

Definition Sense_RegisterAction (action : Action) : M act_store unit :=
  _ ← of_option ErrInvalidMetadata (a_Metadata action);
  mret tt.

(** ** Evidence (audit_evidence.go) *)
Definition recordFinalizationEvidence (env : Env) (actionID subjectAddress : string)
    (top10ValidatorAddresses : list string) (evidenceType : EvidenceType) : M act_store Z :=
  if decide (actionID = "") then fail (ErrOther "actionID is required") else
  match evidenceType with
  | EVIDENCE_TYPE_ACTION_FINALIZATION_SIGNATURE_FAILURE
  | EVIDENCE_TYPE_ACTION_FINALIZATION_NOT_IN_TOP_10 =>
      on_audit (CreateEvidence (env_ctx env) reporterAddress subjectAddress actionID evidenceType
                  top10ValidatorAddresses)
  | _ => fail (ErrOther "unsupported finalization evidence type")
  end.

Definition recordFinalizationRejection (env : Env) (action : Action)
    (attemptedFinalizerAddress reason : string) (top10ValidatorAddresses : list string)
    (evidenceType : EvidenceType) : M act_store unit :=
  r ← attempt (recordFinalizationEvidence env (a_ActionID action) attemptedFinalizerAddress
                 top10ValidatorAddresses evidenceType);
  let evidenceID := match r with Ok id => id | Err _ => 0 end in
  emit (Event EventTypeActionFinalizationRejected
          ([(AttributeKeyActionID, a_ActionID action);
            (AttributeKeyCreator, a_Creator action);
            (AttributeKeyFinalizer, attemptedFinalizerAddress);
            (AttributeKeyActionType, ActionType_String (a_ActionType action));
            (AttributeKeyError, reason)] ++
           (if evidenceID =? 0 then [] else [(AttributeKeyEvidenceID, FormatInt evidenceID)]))).

Definition RecordFinalizationSignatureFailure (env : Env) (top10 : list string) (action : Action)
    (attemptedFinalizerAddress reason : string) : M act_store unit :=
  recordFinalizationRejection env action attemptedFinalizerAddress reason top10
    EVIDENCE_TYPE_ACTION_FINALIZATION_SIGNATURE_FAILURE.

Definition RecordFinalizationNotInTop10 (env : Env) (action : Action)
    (attemptedFinalizerAddress : string) (top10 : list string) (reason : string)
    : M act_store unit :=
  recordFinalizationRejection env action attemptedFinalizerAddress reason top10
    EVIDENCE_TYPE_ACTION_FINALIZATION_NOT_IN_TOP_10.

Definition top10_request (action : Action) : QueryGetTopSuperNodesForBlockRequest :=
  {| req_BlockHeight := i32 (a_BlockHeight action);
     req_Limit := 10;
     req_State := SuperNodeState_String SuperNodeStateActive |}.

Definition RecordActionExpired (env : Env) (action : Action) : M act_store unit :=
  if decide (a_ActionID action = "") then mret tt else
  resp ← gets (λ s, GetTopSuperNodesForBlock (top10_request action) (act_sn s));
  match resp with
  | Err _ => mret tt
  | Ok supernodes =>
      let top10 := ValidatorAddress <$> supernodes in
      for_each (λ sn,
        if decide (SupernodeAccount sn = "") then mret tt else
        _ ← attempt (on_audit (CreateEvidence (env_ctx env) reporterAddress (SupernodeAccount sn)
                                 (a_ActionID action) EVIDENCE_TYPE_ACTION_EXPIRED top10));
        mret tt) supernodes
  end.

(** FinalizeAction of the handlers: the new state, and the action as the handler
    leaves it. *)
Definition Cascade_FinalizeAction (env : Env) (top10 : list string) (action : Action)
    (superNodeAccount : string) (metadataBytes : bytes) : M act_store (ActionState * Action) :=
  let stored := default [] (a_Metadata action) in
  existing ← (if decide (stored = []) then mret (mkCascade "" "" 0 0 [] "" false None [] 0 0)
              else of_option ErrInvalidRequest (cascade_Unmarshal stored));
  _ ← ensure (nonempty (cm_DataHash existing)) ErrInvalidMetadata;
  _ ← ensure (nonempty (cm_FileName existing)) ErrInvalidMetadata;
  _ ← ensure (negb (cm_RqIdsIc existing =? 0)) ErrInvalidMetadata;
  _ ← ensure (negb (cm_RqIdsMax existing =? 0)) ErrInvalidMetadata;
  _ ← ensure (nonempty (cm_Signatures existing)) ErrInvalidMetadata;
  newMeta ← of_option ErrInvalidMetadata (cascade_Unmarshal metadataBytes);
  match VerifyKademliaIDs (env_draw env) (cm_RqIdsIds newMeta) (cm_Signatures existing)
          (cm_RqIdsIc existing) (cm_RqIdsMax existing) with
  | Err (Panic p) => fail (Panic p)
  | Err _ =>
      _ ← RecordFinalizationSignatureFailure env top10 action superNodeAccount
            "cascade finalization rejected: rq_ids_ids verification failed";
      mret (ActionStateUnspecified, action)
  | Ok _ =>
      _ ← VerifyChunkProofs action superNodeAccount (cm_ChunkProofs newMeta);
      mret (ActionStateDone, action)
  end.

(** The loop over the three signatures: the error of the last attempt. *)
Fixpoint any_signature (verify : string → result unit) (l : list string) (last : result unit)
    : result unit :=
  match l with
  | [] => last
  | sig :: l' => match verify sig with Ok _ => Ok tt | Err e => any_signature verify l' (Err e) end
  end.

Definition Sense_FinalizeAction (env : Env) (action : Action)
    (superNodeAccount : string) (metadataBytes : bytes) : M act_store (ActionState * Action) :=
  let action := if decide (a_State action = ActionStatePending)
                then set_State action ActionStateProcessing else action in
  let stored := default [] (a_Metadata action) in
  existing ← (if decide (stored = []) then mret (mkSense "" 0 "" "" 0 [] "")
              else of_option ErrInvalidRequest (sense_Unmarshal stored));
  _ ← ensure (nonempty (sm_DataHash existing)) ErrInvalidMetadata;
  _ ← ensure (negb (sm_DdAndFingerprintsIc existing =? 0)) ErrInvalidMetadata;
  _ ← ensure (negb (sm_DdAndFingerprintsMax existing =? 0)) ErrInvalidMetadata;
  newMeta ← of_option ErrInvalidMetadata (sense_Unmarshal metadataBytes);
  match split_dot (sm_Signatures newMeta) with
  | [dataToVerify; s1; s2; s3] =>
      _ ← of_result (any_signature
            (λ sig, VerifySignature env None dataToVerify sig superNodeAccount) [s1; s2; s3] (Ok tt));
      _ ← wrap_err ErrInvalidMetadata (of_result
            (VerifyKademliaIDs (env_draw env) (sm_DdAndFingerprintsIds newMeta)
               (sm_Signatures newMeta) (sm_DdAndFingerprintsIc existing)
               (sm_DdAndFingerprintsMax existing)));
      updated ← of_option ErrInvalidMetadata
                  (sense_Marshal (with_Signatures existing (sm_Signatures newMeta)));
      mret (ActionStateDone, set_Metadata action (Some updated))
  | _ => fail ErrInvalidMetadata
  end.

(** GetUpdatedMetadata of the handlers *)
Definition Cascade_GetUpdatedMetadata (existingMetadata newMetadata : bytes)
    : M act_store (option bytes) :=
  existing ← of_option ErrInternalError (cascade_Unmarshal existingMetadata);
  new ← of_option ErrInternalError (cascade_Unmarshal newMetadata);
  let updated :=
    mkCascade (cm_DataHash existing) (cm_FileName existing) (cm_RqIdsIc existing)
      (cm_RqIdsMax existing) (cm_RqIdsIds new) (cm_Signatures existing) (cm_Public existing)
      (cm_AvailabilityCommitment existing) (cm_ChunkProofs new)
      (cm_IndexArtifactCount new) (cm_SymbolArtifactCount new) in
  counts ← wrap_err ErrInvalidMetadata (of_result (CascadeArtifactCountsWithFallbackStrict updated));
  bytes ← of_option (ErrOther "marshal")
            (cascade_Marshal (with_artifact_counts updated counts.1 counts.2));
  mret (Some bytes).

Definition Sense_GetUpdatedMetadata : M act_store (option bytes) := mret None.

(** ** The handler registry *)
Definition GetHandler (t : ActionType) : result ActionType :=
  match t with
  | ActionTypeUnspecified => Err ErrInvalidActionType
  | t => Ok t
  end.
Definition handler_Process (t : ActionType) (metadata : string) (msgType : MessageType)
    (params : option AParams) : result bytes :=
  match t with
  | ActionTypeCascade => Cascade_Process metadata msgType params
  | _ => Sense_Process metadata msgType params
  end.
Definition handler_RegisterAction (t : ActionType) (env : Env) (info : option creatorAccountInfo)
    (action : Action) : M act_store unit :=
  match t with
  | ActionTypeCascade => Cascade_RegisterAction env info action
  | _ => Sense_RegisterAction action
  end.
Definition handler_FinalizeAction (t : ActionType) (env : Env) (top10 : list string)
    (action : Action) (superNodeAccount : string) (metadata : bytes)
    : M act_store (ActionState * Action) :=
  match t with
  | ActionTypeCascade => Cascade_FinalizeAction env top10 action superNodeAccount metadata
  | _ => Sense_FinalizeAction env action superNodeAccount metadata
  end.
Definition handler_GetUpdatedMetadata (t : ActionType) (existing new : bytes)
    : M act_store (option bytes) :=
  match t with
  | ActionTypeCascade => Cascade_GetUpdatedMetadata existing new
  | _ => Sense_GetUpdatedMetadata
  end.

(** ** RegisterAction *)
Definition validatePrice (params : AParams) (price : Coin) : result unit :=
  let minFeeAmount := Amount (FeePerKbyte params) + Amount (BaseActionFee params) in
  if Amount price <? minFeeAmount then Err ErrInvalidRequest else Ok tt.

Definition RegisterAction (env : Env) (info : option creatorAccountInfo) (action : Action)
    : M act_store string :=
  _ ← ensure (bool_decide (a_ActionID action = "")) ErrInvalidRequest;
  parsedPrice ← of_option ErrInvalidRequest (ParseCoinNormalized (a_Price action));
  params ← gets AGetParams;
  _ ← of_result (validatePrice params parsedPrice);
  creator ← of_option ErrActionInvalidAddress (AccAddressFromBech32 (a_Creator action));
  coins ← gets (λ s, SpendableCoins (act_bank s) creator);
  _ ← ensure (negb (Coins_IsZero coins)) ErrInvalidRequest;
  _ ← ensure (IsAllGTE1 coins parsedPrice) ErrInsufficientFunds;
  count ← gets getLastActionID;
  let newID := u64 (count + 1) in
  _ ← modify (set_count newID);
  let action := set_identity action (FormatInt newID) (BlockHeight (env_ctx env)) in
  let action := if decide (a_State action = ActionStateUnspecified)
                then set_State action ActionStatePending else action in
  _ ← ensure (bool_decide (a_State action = ActionStatePending)) ErrInvalidActionState;
  t ← wrap_err ErrInvalidActionType (of_result (GetHandler (a_ActionType action)));
  _ ← wrap_err ErrInvalidMetadata (handler_RegisterAction t env info action);
  _ ← SetAction action;
  _ ← wrap_err ErrInternalError
        (on_bank (SendCoinsFromAccountToModule creator ModuleName (NewCoins parsedPrice)));
  _ ← emit (Event EventTypeActionRegistered
              [(AttributeKeyActionID, a_ActionID action);
               (AttributeKeyCreator, a_Creator action);
               (AttributeKeyActionType, ActionType_String (a_ActionType action));
               (AttributeKeyFee, Coin_String parsedPrice)]);
  mret (a_ActionID action).

(** ** DistributeFees *)
Definition GetRegistrationFeeShareBps (s : sn_store) : Z :=
  match RewardDistributionParams (sn_params s) with
  | None => 0
  | Some rd => RegistrationFeeShareBps rd
  end.

(** The supernodes that are paid, without repetitions. *)
Fixpoint unique_supernodes (seen : list string) (l : list string) : list string :=
  match l with
  | [] => []
  | sn :: l' =>
      if bool_decide (sn ∈ seen) || contains sn "bad" then unique_supernodes seen l'
      else sn :: unique_supernodes (sn :: seen) l'
  end.

(** math.Int.Int64 panics when the value does not fit. *)
Definition Int64 (z : Z) : M act_store Z :=
  if (- 2 ^ 63 <=? z) && (z <=? MaxInt64) then mret z else fail (Panic "Int64() out of bound").

(** The reward-distribution share goes to the supernode module; what is left of
    the fee. *)
Definition send_reward_share (fee : Coin) : M act_store Z :=
  bps ← gets (λ s, GetRegistrationFeeShareBps (act_sn s));
  if (0 <? bps) && (0 <? Amount fee) then
    let amount := Z.quot (Amount fee * i64 bps) 10000 in
    if 0 <? amount then
      coin ← NewCoin (Denom fee) amount;
      _ ← on_bank (SendCoinsFromModuleToModule ModuleName SupernodeModuleName (NewCoins coin));
      mret (Amount fee - amount)
    else mret (Amount fee)
  else mret (Amount fee).

Definition send_foundation_share (denom : string) (amount : Z) : M act_store Z :=
  params ← gets AGetParams;
  if decide (FoundationFeeShare params = "") then mret amount else
  share ← of_option ErrInvalidRequest (dec_FromStr (FoundationFeeShare params));
  if dec_IsZero share then mret amount else
  let foundation := dec_TruncateInt (dec_Mul (dec_FromInt amount) share) in
  coin ← NewCoin denom foundation;
  _ ← wrap_err ErrInsufficientFunds
        (on_bank (FundCommunityPool (NewCoins coin) ModuleAccountAddress));
  mret (amount - foundation).

Definition pay_supernode (denom : string) (amount numSupernodes : Z) (sn : string)
    : M act_store unit :=
  total ← Int64 amount;
  let share := Z.quot total numSupernodes in
  let feeAmountInt := if (share =? 0) && (0 <? total) then 1 else share in
  match ParseCoinNormalized (Coin_String (mkCoin denom feeAmountInt)) with
  | None => mret tt
  | Some feePerSN =>
      snAddr ← of_option ErrInvalidSignature (AccAddressFromBech32 sn);
      _ ← attempt (on_bank (SendCoinsFromModuleToAccount ModuleName snAddr (NewCoins feePerSN)));
      mret tt
  end.

(** Go ranges over the map of supernodes in no fixed order; the model takes the
    order of their first appearance. *)
Definition DistributeFees (actionID : string) : M act_store unit :=
  actionData ← gets (GetActionByID actionID) ≫= of_option ErrNotFound;
  _ ← ensure (bool_decide (a_State actionData = ActionStateDone)) ErrInvalidActionState;
  match ParseCoinNormalized (a_Price actionData) with
  | None => mret tt
  | Some fee =>
      if (Amount fee =? 0) || bool_decide (a_SuperNodes actionData = []) then mret tt else
      let unique := unique_supernodes [] (a_SuperNodes actionData) in
      if decide (unique = []) then mret tt else
      amount ← send_reward_share fee;
      amount ← send_foundation_share (Denom fee) amount;
      for_each (pay_supernode (Denom fee) amount (zlen unique)) unique
  end.

(** ** FinalizeAction *)
Definition not_in_top10_reason (superNodeAccount : string) (height : Z) : string :=
  ("supernode " +:+ superNodeAccount +:+
   " is not in the top-10 ACTIVE supernodes for block height " +:+ FormatInt height)%string.

(** The verdict ([None] when eligible, otherwise the reason) and the top-10
    validators. *)
Definition checkFinalizerEligibility (action : Action) (superNodeAccount : string) (s : act_store)
    : result (option string * list string) :=
  if decide (superNodeAccount ∈ a_SuperNodes action) then Err ErrUnauthorizedSN else
  match GetTopSuperNodesForBlock (top10_request action) (act_sn s) with
  | Err _ => Err ErrInvalidRequest
  | Ok supernodes =>
      let isInTop10 := existsb (λ sn, bool_decide (SupernodeAccount sn = superNodeAccount)) supernodes in
      Ok (if isInTop10 then None
          else Some (not_in_top10_reason superNodeAccount (a_BlockHeight action)),
          ValidatorAddress <$> supernodes)
  end.

(** The audit module learns the artifact counts of a finalized cascade action. *)
Definition record_artifact_counts (env : Env) (action : Action) : M act_store unit :=
  if decide (a_ActionType action = ActionTypeCascade) then
    meta ← of_option ErrInvalidMetadata (cascade_Unmarshal (default [] (a_Metadata action)));
    counts ← wrap_err ErrInvalidMetadata (of_result (CascadeArtifactCountsWithFallbackStrict meta));
    wrap_err ErrInvalidMetadata
      (on_audit (SetStorageTruthTicketArtifactCounts (env_ctx env) (a_ActionID action)
                   counts.1 counts.2))
  else mret tt.

Definition FinalizeAction (env : Env) (actionID superNodeAccount : string) (newMetadata : bytes)
    : M act_store unit :=
  existing ← gets (GetActionByID actionID) ≫= of_option ErrNotFound;
  _ ← ensure (bool_decide (a_State existing = ActionStatePending ∨
                           a_State existing = ActionStateProcessing)) ErrInvalidActionState;
  verdict ← gets (checkFinalizerEligibility existing superNodeAccount) ≫= of_result;
  match verdict with
  | (Some reason, top10) =>
      if decide (a_ActionType existing = ActionTypeCascade)
      then RecordFinalizationNotInTop10 env existing superNodeAccount top10 reason
      else fail ErrUnauthorizedSN
  | (None, top10) =>
      t ← wrap_err ErrInvalidActionType (of_result (GetHandler (a_ActionType existing)));
      handled ← handler_FinalizeAction t env top10 existing superNodeAccount newMetadata;
      let '(newState, action) := handled in
      action ← (if decide (newState = ActionStateUnspecified) then mret action else
                  metadata ← handler_GetUpdatedMetadata t (default [] (a_Metadata action)) newMetadata;
                  mret (add_SuperNode (set_Metadata (set_State action newState) metadata)
                          superNodeAccount));
      _ ← wrap_err ErrInternalError (SetAction action);
      if decide (a_State action = ActionStateFailed) then
        _ ← emit (Event EventTypeActionFailed
                    [(AttributeKeyActionID, a_ActionID action);
                     (AttributeKeyCreator, a_Creator action);
                     (AttributeKeyActionType, ActionType_String (a_ActionType action));
                     (AttributeKeyError, "finalization failed"%string);
                     (AttributeKeySuperNodes, strings_Join (a_SuperNodes action) ",")]);
        fail ErrFinalizationError
      else if decide (a_State action = ActionStateDone) then
        _ ← record_artifact_counts env action;
        _ ← emit (Event EventTypeActionFinalized
                    [(AttributeKeyActionID, a_ActionID action);
                     (AttributeKeyCreator, a_Creator action);
                     (AttributeKeyActionType, ActionType_String (a_ActionType action));
                     (AttributeKeySuperNodes, strings_Join (a_SuperNodes action) ",")]);
        DistributeFees actionID
      else mret tt
  end.

(** ** ApproveAction *)
Definition ApproveAction (actionID creator : string) : M act_store unit :=
  existing ← gets (GetActionByID actionID) ≫= of_option ErrNotFound;
  _ ← ensure (bool_decide (a_State existing = ActionStateDone)) ErrInvalidActionState;
  _ ← ensure (bool_decide (a_Creator existing = creator)) ErrUnauthorizedSN;
  _ ← wrap_err ErrInvalidActionType (of_result (GetHandler (a_ActionType existing)));
  let action := set_State existing ActionStateApproved in
  _ ← SetAction action;
  emit (Event EventTypeActionApproved
          [(AttributeKeyActionID, a_ActionID action);
           (AttributeKeyCreator, a_Creator action);
           (AttributeKeyActionType, ActionType_String (a_ActionType action))]).

(** ** Expiration *)

(** The refund of an expired action: [true] when the action may be closed. *)
Definition refund (action : Action) : M act_store bool :=
  match ParseCoinNormalized (a_Price action) with
  | None => mret true
  | Some fee =>
      if Amount fee =? 0 then mret true else
      match AccAddressFromBech32 (a_Creator action) with
      | None => mret false
      | Some creatorAddr =>
          r ← attempt (on_bank (SendCoinsFromModuleToAccount ModuleName creatorAddr (NewCoins fee)));
          mret (is_ok r)
      end
  end.

Definition expire_action (env : Env) (now : Z) (action : Action) : M act_store unit :=
  if negb (a_ExpirationTime action =? 0) && (a_ExpirationTime action <=? now) then
    refunded ← refund action;
    if (refunded : bool) then
      let action := set_State action ActionStateExpired in
      _ ← SetAction action;
      _ ← RecordActionExpired env action;
      emit (Event EventTypeActionExpired
              [(AttributeKeyActionID, a_ActionID action);
               (AttributeKeyCreator, a_Creator action);
               (AttributeKeyActionType, ActionType_String (a_ActionType action))])
    else mret tt
  else mret tt.

Definition processExpiredActionsInState (env : Env) (state : ActionState) (now : Z)
    : M act_store unit :=
  IterateActionsByState state (expire_action env now).

Definition CheckExpiration (env : Env) : M act_store unit :=
  let currentTime := BlockTime (env_ctx env) in
  _ ← processExpiredActionsInState env ActionStatePending currentTime;
  processExpiredActionsInState env ActionStateProcessing currentTime.

Definition EndBlocker (env : Env) : M act_store unit := CheckExpiration env.
End Keeper.
