(* ===== verification/ActionMsg.v ===== *)
(** * x/action/v1/keeper: the message handlers of the action module

    msg_server_request_action.go, msg_server_finalize_action.go and
    msg_server_approve_action.go, and the calls the chain makes into the module. *)
From Stdlib Require Import ZArith Lia.
From stdpp Require Import base numbers strings list gmap.
From S2P Require Import Prelude Sdk Float Bank Supernode ActionTypes Svc ActionStore ActionKeeper.
Open Scope Z_scope.

Section Msg.
Context `{SdkAddress} `{LegacyDecOps} `{Blake3} `{CoinParser} `{BankKeeper} `{MetadataCodec}
  `{KademliaLibs} `{PubKeys} `{!AuditKeeper} `{!ActionCrypto}.
Variable reporterAddress : string.

Definition getCreatorAccountInfo (env : Env) (msg : MsgRequestAction) : result creatorAccountInfo :=
  match AccAddressFromBech32 (ra_Creator msg) with
  | None => Err ErrActionInvalidAddress
  | Some creatorAddrBz =>
      match env_GetAccount env creatorAddrBz with
      | None => Err ErrActionInvalidAddress
      | Some creatorAcct =>
          Ok {| info_account := creatorAcct;
                info_isICA := bool_decide (is_Some (acct_owner creatorAcct));
                info_owner := default "" (acct_owner creatorAcct);
                info_appPubkey := ra_AppPubkey msg |}
      end
  end.

Definition validateAppPubKey (info : creatorAccountInfo) : result unit :=
  if info_isICA info then
    if decide (info_appPubkey info = []) then Err ErrInvalidAppPubKey else Ok tt
  else
    if decide (info_appPubkey info = []) then Ok tt else Err ErrInvalidAppPubKey.

(** [int64(...)] and the additions are on int64. *)
Definition expiration_of (env : Env) (params : AParams) (msg : MsgRequestAction) : result Z :=
  let currentTime := BlockTime (env_ctx env) in
  let minExpTime := i64 (currentTime + Duration_Seconds_int64 (ExpirationDuration params)) in
  if nonempty (ra_ExpirationTime msg) then
    let expTime := (strconv_ParseInt (ra_ExpirationTime msg)).1 in
    if expTime <=? currentTime then Err ErrActionExpired else
    if expTime <? minExpTime then Err ErrActionExpired else Ok expTime
  else Ok minExpTime.

Definition action_type_of (s : string) : ActionType :=
  match ParseActionType s with Ok t => t | Err _ => ActionTypeUnspecified end.

Definition RequestAction (env : Env) (msg : MsgRequestAction) : M act_store (string * string) :=
  creatorInfo ← of_result (getCreatorAccountInfo env msg);
  _ ← of_result (validateAppPubKey creatorInfo);
  params ← gets AGetParams;
  expTime ← of_result (expiration_of env params msg);
  let actionType := action_type_of (ra_ActionType msg) in
  let fileSizeKbs :=
    if nonempty (ra_FileSizeKbs msg) then (strconv_ParseInt (ra_FileSizeKbs msg)).1 else 0 in
  t ← wrap_err ErrInvalidActionType (of_result (GetHandler actionType));
  processedData ← wrap_err ErrInvalidMetadata (of_result
    (handler_Process t (ra_Metadata msg) MT_MsgRequestAction (Some params)));
  price ← of_option ErrInvalidPrice (ParseCoinNormalized (ra_Price msg));
  let action :=
    mkAction (ra_Creator msg) "" actionType (Some processedData) (Coin_String price) expTime
      ActionStatePending 0 [] fileSizeKbs (ra_AppPubkey msg) in
  actionID ← RegisterAction env (Some creatorInfo) action;
  actionNew ← gets (GetActionByID actionID) ≫= of_option ErrActionNotFound;
  mret (actionID, ActionState_String (a_State actionNew)).

Definition finalize_error (e : error) : error :=
  match e with
  | ErrInvalidMetadata | ErrInvalidActionState | ErrUnauthorizedSN | ErrInvalidID
  | ErrInvalidActionType => e
  | _ => ErrInvalidActionState
  end.

Definition Msg_FinalizeAction (env : Env) (msg : MsgFinalizeAction) : M act_store unit :=
  let actionType := action_type_of (fa_ActionType msg) in
  t ← wrap_err ErrInvalidActionType (of_result (GetHandler actionType));
  processedData ← wrap_err ErrInvalidMetadata (of_result
    (handler_Process t (fa_Metadata msg) MT_MsgFinalizeAction None));
  map_err finalize_error
    (FinalizeAction reporterAddress env (fa_ActionId msg) (fa_Creator msg) processedData).

Definition approve_error (e : error) : error :=
  match e with
  | ErrInvalidID | ErrInvalidActionState | ErrInvalidSignature => e
  | _ => ErrInvalidActionState
  end.

Definition Msg_ApproveAction (msg : MsgApproveAction) : M act_store unit :=
  map_err approve_error (ApproveAction (aa_ActionId msg) (aa_Creator msg)).

(** ** The calls *)
Inductive act_call :=
| ACallRequest (msg : MsgRequestAction)
| ACallFinalize (msg : MsgFinalizeAction)
| ACallApprove (msg : MsgApproveAction)
| ACallEndBlock.

(** A message is delivered after its stateless validation, in a transaction; the
    end blocker runs outside one, and its panics stop the chain. *)
Definition act_exec (env : Env) (c : act_call) (s : st act_store) : st act_store :=
  match c with
  | ACallRequest msg =>
      if is_ok (MsgRequestAction_ValidateBasic msg)
      then (run_tx (RequestAction env msg) s).2 else s
  | ACallFinalize msg =>
      if is_ok (MsgFinalizeAction_ValidateBasic msg)
      then (run_tx (Msg_FinalizeAction env msg) s).2 else s
  | ACallApprove msg =>
      if is_ok (MsgApproveAction_ValidateBasic msg)
      then (run_tx (Msg_ApproveAction msg) s).2 else s
  | ACallEndBlock => (EndBlocker reporterAddress env s).2
  end.
End Msg.
