(* ===== verification/ActionIndex.v ===== *)
(** * The secondary indexes of the action store

    Index keys end in the action id after a slash, ids are decimal numbers, and
    so a key determines both; [SetAction] keeps every index equal to the set of
    keys the stored actions call for, and the index reads are complete. *)
From Stdlib Require Import ZArith Lia Ascii.
From stdpp Require Import base numbers strings list gmap sets sorting pretty.
From S2P Require Import Prelude Sdk Bank SupernodeTypes Supernode ActionTypes ActionStore.
Open Scope Z_scope.

(** ** Keys *)
Fixpoint no_slash (s : string) : bool :=
  match s with
  | EmptyString => true
  | String c s' => negb (bool_decide (c = "/"%char)) && no_slash s'
  end.

Lemma no_slash_app s c : no_slash (s +:+ String "/" c) = false.
Proof.
  induction s as [|d s IH]; simpl; [done|].
  change (negb (bool_decide (d = "/"%char)) && no_slash (s +:+ String "/" c) = false).
  by rewrite IH, andb_false_r.
Qed.

Lemma key_inj f id f' id' :
  no_slash id = true → no_slash id' = true →
  index_key f id = index_key f' id' → f = f' ∧ id = id'.
Proof.
  unfold index_key. intros Hid Hid'. revert f'. induction f as [|c f IH]; intros [|c' f'].
  - by injection 1.
  - intros [= <- E]. assert (no_slash id = false) by (rewrite E; apply no_slash_app). congruence.
  - intros [= -> E]. assert (no_slash id' = false) by (rewrite <- E; apply no_slash_app). congruence.
  - intros [= -> E]. by destruct (IH f' E) as [-> ->].
Qed.

Lemma no_slash_pretty_N_go x s : no_slash s = true → no_slash (pretty_N_go x s) = true.
Proof.
  revert s. induction (N.lt_wf_0 x) as [x _ IH]; intros s Hs.
  destruct (decide (0 < x)%N) as [Hx|Hx].
  - rewrite pretty_N_go_step by done. apply IH; [by apply N.div_lt|]. simpl.
    rewrite Hs, andb_true_r. unfold pretty_N_char. by repeat case_match.
  - assert (x = 0%N) as -> by lia. by rewrite pretty_N_go_0.
Qed.

Lemma no_slash_FormatInt z : 0 ≤ z → no_slash (FormatInt z) = true.
Proof.
  intros Hz. destruct z as [|p|p]; [done| |lia].
  change (no_slash (pretty_N_go (N.pos p) "") = true). by apply no_slash_pretty_N_go.
Qed.

Lemma strip_prefix_Some p s r : strip_prefix p s = Some r ↔ s = (p +:+ r)%string.
Proof.
  revert s. induction p as [|c p IH]; intros s; simpl.
  - split; [by intros [= ->]|by intros ->].
  - destruct s as [|c' s]; [done|]. case_decide as Hc.
    + subst. rewrite IH. split; [by intros ->|by injection 1].
    + split; [done|]. intros [= <- _]. done.
Qed.

Lemma string_app_assoc (a b c : string) : ((a +:+ b) +:+ c = a +:+ (b +:+ c))%string.
Proof.
  induction a as [|x a IH]; [done|].
  change (String x ((a +:+ b) +:+ c) = String x (a +:+ (b +:+ c)))%string. by rewrite IH.
Qed.

Lemma strip_prefix_key f s id : strip_prefix (f +:+ "/") s = Some id ↔ s = index_key f id.
Proof. rewrite strip_prefix_Some. unfold index_key. by rewrite string_app_assoc. Qed.

Lemma elem_of_index_ids idx f id : id ∈ index_ids idx (f +:+ "/") ↔ index_key f id ∈ idx.
Proof.
  unfold index_ids. rewrite list_elem_of_omap. split.
  - intros (k & Hk & E%strip_prefix_key). subst.
    by rewrite merge_sort_Permutation, elem_of_elements in Hk.
  - intros Hk. exists (index_key f id). split; [|by apply strip_prefix_key].
    by rewrite merge_sort_Permutation, elem_of_elements.
Qed.

Lemma NoDup_index_ids idx f : NoDup (index_ids idx (f +:+ "/")).
Proof.
  unfold index_ids.
  assert (NoDup (merge_sort string_le (elements idx))) as Hnd
    by (rewrite merge_sort_Permutation; apply NoDup_elements).
  induction Hnd as [|k l Hk _ IH]; simpl; [constructor|].
  destruct (strip_prefix (f +:+ "/") k) as [id|] eqn:E; [|done]. constructor; [|done].
  rewrite list_elem_of_omap. intros (k' & Hk' & E'). apply Hk.
  apply strip_prefix_key in E, E'. by subst.
Qed.

(** ** Coherence *)
Definition ids_no_slash (m : gmap string Action) : Prop :=
  ∀ id a, m !! id = Some a → no_slash id = true.

(** [idx] holds exactly the keys of the fields of the stored actions. *)
Definition coherent (field : Action → list string) (idx : gset string) (m : gmap string Action)
    : Prop :=
  ∀ k, k ∈ idx ↔ ∃ id a f, m !! id = Some a ∧ f ∈ field a ∧ k = index_key f id.

Lemma coherent_lookup field idx m f id :
  ids_no_slash m → coherent field idx m → no_slash id = true →
  index_key f id ∈ idx ↔ ∃ a, m !! id = Some a ∧ f ∈ field a.
Proof.
  intros Hm Hc Hid. rewrite (Hc (index_key f id)). split.
  - intros (id' & a & f' & Ha & Hf & E). pose proof (Hm _ _ Ha).
    apply key_inj in E as [-> ->]; [|done..]. eauto.
  - intros (a & Ha & Hf). eauto 10.
Qed.

Lemma coherent_insert field idx idx' m id a :
  ids_no_slash m → no_slash id = true → coherent field idx m →
  (∀ k, k ∈ idx' ↔ (∃ f, f ∈ field a ∧ k = index_key f id) ∨
                   (k ∈ idx ∧ ∀ f, k ≠ index_key f id)) →
  coherent field idx' (<[id := a]> m).
Proof.
  intros Hm Hid Hc Hidx k. rewrite Hidx. split.
  - intros [(f & Hf & ->)|[Hk Hne]].
    + exists id, a, f. by rewrite lookup_insert_eq.
    + apply Hc in Hk as (id' & a' & f & Ha' & Hf & ->). exists id', a', f.
      rewrite lookup_insert_ne; [done|]. intros ->. by apply (Hne f).
  - intros (id' & a' & f & [[<- <-]|[Hne Ha']]%lookup_insert_Some & Hf & ->); [eauto|].
    right. split; [apply Hc; eauto 10|]. intros f' E. pose proof (Hm _ _ Ha').
    apply key_inj in E as [_ ->]; done.
Qed.

(** The re-indexing of a field with one value. *)
Lemma reindex_coherent (g : Action → string) (changed : bool) ex idx m id a :
  ids_no_slash m → no_slash id = true → coherent (λ a, [g a]) idx m →
  ex = default a (m !! id) → (changed = false → g ex = g a) →
  coherent (λ a, [g a])
    (reindex (bool_decide (is_Some (m !! id))) changed (index_key (g ex) id) (index_key (g a) id) idx)
    (<[id := a]> m).
Proof.
  intros Hm Hid Hc -> Hch. apply (coherent_insert _ idx); [done..|].
  intros k. unfold reindex.
  assert (∀ f, k = index_key f id → k ∈ idx → ∃ b, m !! id = Some b ∧ f = g b) as Hown.
  { intros f -> (b & Hb & Hf)%(coherent_lookup (λ a, [g a]) idx m); [|done..]. set_solver. }
  destruct (m !! id) as [b|] eqn:Eb; simpl.
  - destruct changed.
    + rewrite elem_of_union, elem_of_difference, !elem_of_singleton. split.
      * intros [->|[Hk Hne]]; [left; eexists; split; [by left|done]|right].
        split; [done|]. intros f E. destruct (Hown f E Hk) as (b' & [= <-] & ->). by apply Hne.
      * intros [(f & ->%list_elem_of_singleton & ->)|[Hk Hne]]; [by left|right].
        split; [done|]. apply Hne.
    + specialize (Hch eq_refl). simpl in Hch.
      rewrite elem_of_union, elem_of_singleton, <- Hch. split.
      * intros Hk. destruct (decide (k = index_key (g b) id)) as [->|Hne].
        { left. eexists. split; [by left|done]. }
        right. destruct Hk as [|Hk]; [done|]. split; [done|].
        intros f E. destruct (Hown f E Hk) as (b' & [= <-] & ->). done.
      * intros [(f & ->%list_elem_of_singleton & ->)|[Hk Hne]]; [by left|by right].
  - rewrite elem_of_union, elem_of_singleton. split.
    + intros [->|Hk]; [left; eexists; split; [by left|done]|right].
      split; [done|]. intros f E. by destruct (Hown f E Hk) as (? & ? & _).
    + intros [(f & ->%list_elem_of_singleton & ->)|[Hk _]]; auto.
Qed.

(** ** SetAction *)
Section Indexes.
Context `{BankKeeper} `{LegacyDecOps} `{!AuditKeeper}.
Implicit Types (s : act_store).

Definition indexes_ok s : Prop :=
  coherent (λ a, [ActionState_String (a_State a)]) (act_by_state s) (act_actions s) ∧
  coherent (λ a, [a_Creator a]) (act_by_creator s) (act_actions s) ∧
  coherent (λ a, [ActionType_String (a_ActionType a)]) (act_by_type s) (act_actions s) ∧
  coherent (λ a, [FormatInt (a_BlockHeight a)]) (act_by_block s) (act_actions s) ∧
  coherent a_SuperNodes (act_by_sn s) (act_actions s).

(** The store after SetAction; sealed, so that only the equations below are used. *)
Definition put_action_def (a : Action) s : act_store := store (SetAction a (St s [])).2.
Definition put_action_aux : seal put_action_def.
Proof. by eexists. Qed.
Definition put_action : Action → act_store → act_store := unseal put_action_aux.
Lemma put_action_unseal : put_action = put_action_def.
Proof. apply seal_eq. Qed.

Lemma SetAction_run a (st : st act_store) :
  SetAction a st = (Ok tt, St (put_action a (store st)) (events st)).
Proof. by rewrite put_action_unseal. Qed.

Lemma put_action_actions a s : act_actions (put_action a s) = <[a_ActionID a := a]> (act_actions s).
Proof. by rewrite put_action_unseal. Qed.
Lemma put_action_count a s : act_count (put_action a s) = act_count s.
Proof. by rewrite put_action_unseal. Qed.
Lemma put_action_params a s : act_params (put_action a s) = act_params s.
Proof. by rewrite put_action_unseal. Qed.
Lemma put_action_bank a s : act_bank (put_action a s) = act_bank s.
Proof. by rewrite put_action_unseal. Qed.
Lemma put_action_sn a s : act_sn (put_action a s) = act_sn s.
Proof. by rewrite put_action_unseal. Qed.

Lemma by_sn_coherent idx m id a :
  ids_no_slash m → no_slash id = true → coherent a_SuperNodes idx m →
  let stale := match m !! id with
               | Some ex => filter (λ sn, sn ∉ a_SuperNodes a) (a_SuperNodes ex)
               | None => []
               end in
  coherent a_SuperNodes
    (list_to_set ((λ sn, index_key sn id) <$> a_SuperNodes a) ∪
     (idx ∖ list_to_set ((λ sn, index_key sn id) <$> stale))) (<[id := a]> m).
Proof.
  intros Hm Hid Hc stale. apply (coherent_insert _ idx); [done..|]. intros k.
  rewrite elem_of_union, elem_of_difference, !elem_of_list_to_set, !list_elem_of_fmap.
  assert (∀ f, k = index_key f id → k ∈ idx → ∃ b, m !! id = Some b ∧ f ∈ a_SuperNodes b) as Hown.
  { intros f -> Hk. by apply (coherent_lookup a_SuperNodes idx m). }
  split.
  - intros [(f & -> & Hf)|[Hk Hns]]; [eauto|].
    destruct (decide (k ∈ (λ sn, index_key sn id) <$> a_SuperNodes a)) as [Hin|Hnot].
    { apply list_elem_of_fmap in Hin as (f & -> & Hf). eauto. }
    right. split; [done|]. intros f E. apply Hns. destruct (Hown f E Hk) as (b & Hb & Hf).
    exists f. split; [done|]. unfold stale. rewrite Hb. apply list_elem_of_filter.
    split; [|done]. intros Hfa. apply Hnot, list_elem_of_fmap. eauto.
  - intros [(f & Hf & ->)|[Hk Hne]]; [eauto|right]. split; [done|].
    intros (f & -> & _). by apply (Hne f).
Qed.

Lemma FormatInt_inj x y : FormatInt x = FormatInt y → x = y.
Proof. apply (inj pretty). Qed.

Lemma put_action_indexes a s :
  ids_no_slash (act_actions s) → no_slash (a_ActionID a) = true → indexes_ok s →
  indexes_ok (put_action a s).
Proof.
  intros Hm Hid (H1' & H2' & H3' & H4' & H5'). unfold indexes_ok. rewrite put_action_actions.
  rewrite put_action_unseal. split_and!.
  - apply (reindex_coherent (λ a, ActionState_String (a_State a))); [done..|].
    intros E%bool_decide_eq_false. apply dec_stable in E. by rewrite E.
  - apply (reindex_coherent a_Creator); [done..|].
    intros E%bool_decide_eq_false. by apply dec_stable in E.
  - apply (reindex_coherent (λ a, ActionType_String (a_ActionType a))); [done..|].
    intros E%bool_decide_eq_false. apply dec_stable in E. by rewrite E.
  - apply (reindex_coherent (λ a, FormatInt (a_BlockHeight a))); [done..|].
    intros E%bool_decide_eq_false. apply dec_stable in E. by rewrite E.
  - pose proof (by_sn_coherent _ _ _ a Hm Hid H5') as Hsn. cbv zeta in Hsn.
    unfold put_action_def, SetAction. simpl. unfold GetActionByID.
    destruct (act_actions s !! a_ActionID a); exact Hsn.
Qed.

(** ** Reads through an index *)
Lemma elem_of_index_read field idx s f a :
  ids_no_slash (act_actions s) → coherent field idx (act_actions s) →
  a ∈ getActionsByIndexPrefix idx (f +:+ "/") s ↔
  ∃ id, act_actions s !! id = Some a ∧ f ∈ field a.
Proof.
  intros Hm Hc. unfold getActionsByIndexPrefix, GetActionByID. rewrite list_elem_of_omap. split.
  - intros (id & Hid & Ha). exists id. split; [done|]. rewrite elem_of_index_ids in Hid.
    apply (coherent_lookup field idx (act_actions s)) in Hid as (a' & Ha' & Hf);
      [by simplify_eq|done|done|by eapply Hm].
  - intros (id & Ha & Hf). exists id. split; [|done]. rewrite elem_of_index_ids.
    apply (coherent_lookup field idx (act_actions s)); [done|done|by eapply Hm|eauto].
Qed.

Lemma NoDup_index_read idx f s :
  (∀ id a, act_actions s !! id = Some a → a_ActionID a = id) →
  NoDup (getActionsByIndexPrefix idx (f +:+ "/") s).
Proof.
  intros Hkey. unfold getActionsByIndexPrefix, GetActionByID.
  induction (NoDup_index_ids idx f) as [|id l Hid _ IH]; simpl; [constructor|].
  destruct (act_actions s !! id) as [a|] eqn:Ha; [|done]. constructor; [|done].
  rewrite list_elem_of_omap. intros (id' & Hid' & Ha').
  apply Hid. by rewrite <- (Hkey _ _ Ha), (Hkey _ _ Ha').
Qed.
End Indexes.
