(* ===== verification/ActionInv.v ===== *)
(** * The invariant of the action module

    Ids, life cycle, index coherence, and solvency: the module account always
    holds at least the prices of the actions that are still open.  Every call
    keeps the invariant and moves each action along the life-cycle graph. *)
From Stdlib Require Import ZArith Lia.
From stdpp Require Import base numbers strings list gmap sets.
From S2P Require Import Prelude Sdk Float Bank SupernodeTypes Supernode SupernodeRank ActionTypes.
From S2P Require Import Merkle Svc ActionStore ActionKeeper ActionMsg ActionIndex.
Open Scope Z_scope.

Section Inv.
Context `{SdkAddress} `{LegacyDecOps} `{Blake3} `{CoinParser} `{BankKeeper} `{MetadataCodec}
  `{KademliaLibs} `{PubKeys} `{!AuditKeeper} `{!ActionCrypto}.
Context `{!LegacyDecLaws} `{!CoinParserLaws} `{!BankLaws}.
Variable reporterAddress : string.
Implicit Types (s : act_store) (t : st act_store) (a : Action).

(** ** The invariant *)
Definition is_open a : bool :=
  bool_decide (a_State a = ActionStatePending ∨ a_State a = ActionStateProcessing).

(** What an action keeps in escrow, in a denomination. *)
Definition price_in (d : string) a : Z :=
  match ParseCoinNormalized (a_Price a) with
  | Some c => if decide (Denom c = d) then Amount c else 0
  | None => 0
  end.
Definition open_price (d : string) a : Z := if is_open a then price_in d a else 0.
Definition escrow (d : string) s : Z := map_sum (open_price d) (act_actions s).
Definition held (d : string) s : Z := GetBalance (act_bank s) ModuleAccountAddress d.

Definition life_ok a : Prop :=
  (a_State a = ActionStatePending ∧ a_SuperNodes a = []) ∨
  (a_State a = ActionStateExpired ∧ a_SuperNodes a = []) ∨
  ((a_State a = ActionStateDone ∨ a_State a = ActionStateApproved) ∧
   ∃ sn, a_SuperNodes a = [sn]).

(** A module account signs no message, so it creates no action. *)
Definition creator_ok (creator : string) : Prop :=
  ∃ addr, AccAddressFromBech32 creator = Some addr ∧ addr ≠ ModuleAccountAddress.

Definition action_ok (count : Z) (id : string) a : Prop :=
  a_ActionID a = id ∧ (∃ n, 1 ≤ n ≤ count ∧ id = FormatInt n) ∧ life_ok a ∧
  is_Some (ParseCoinNormalized (a_Price a)) ∧ creator_ok (a_Creator a) ∧
  a_ActionType a ≠ ActionTypeUnspecified.

(** The parameters are validated when they are set. *)
Definition params_ok s : Prop :=
  (FoundationFeeShare (AGetParams s) = "" ∨
   ∃ d, dec_FromStr (FoundationFeeShare (AGetParams s)) = Some d ∧ 0 ≤ dec_raw d ≤ decPrecision) ∧
  0 ≤ GetRegistrationFeeShareBps (act_sn s) ≤ 10000.

Definition store_ok s : Prop :=
  0 ≤ act_count s ∧ (∀ id a, act_actions s !! id = Some a → action_ok (act_count s) id a) ∧
  indexes_ok s ∧ params_ok s.

(** What the module account holds beyond the prices of the open actions. *)
Definition surplus (d : string) s : Z := held d s - escrow d s.
Definition solvent s : Prop := ∀ d, 0 ≤ surplus d s.

(** ** Life-cycle steps

    [finalizer_ok]: the account is one of the top ten supernodes of the block in
    which the action was registered. *)
Definition finalizer_ok s a (account : string) : Prop :=
  ∃ top, GetTopSuperNodesForBlock (top10_request a) (act_sn s) = Ok top ∧
         account ∈ SupernodeAccount <$> top.

Inductive act_kind : Set :=
| KRequest (creator : string)
| KFinalize (id account : string)
| KApprove (id creator : string)
| KExpire (now : Z).

Definition same_request a a' : Prop :=
  a_Creator a' = a_Creator a ∧ a_ActionID a' = a_ActionID a ∧ a_ActionType a' = a_ActionType a ∧
  a_Price a' = a_Price a ∧ a_ExpirationTime a' = a_ExpirationTime a ∧
  a_BlockHeight a' = a_BlockHeight a ∧ a_FileSizeKbs a' = a_FileSizeKbs a ∧
  a_AppPubkey a' = a_AppPubkey a.

(** How a call may change one action of the store [s]. *)
Definition action_step s (k : act_kind) a a' : Prop :=
  same_request a a' ∧
  match k with
  | KRequest _ => False
  | KFinalize id account =>
      a_ActionID a = id ∧ finalizer_ok s a account ∧
      a_State a = ActionStatePending ∧ a_State a' = ActionStateDone ∧ a_SuperNodes a' = [account]
  | KApprove id creator =>
      a_ActionID a = id ∧ a_Creator a = creator ∧
      a' = set_State a ActionStateApproved ∧ a_State a = ActionStateDone
  | KExpire now =>
      a_ExpirationTime a ≠ 0 ∧ a_ExpirationTime a ≤ now ∧
      a' = set_State a ActionStateExpired ∧ a_State a = ActionStatePending
  end.

Definition actions_step s (k : act_kind) (m m' : gmap string Action) : Prop :=
  ∀ id, match m !! id, m' !! id with
        | None, None => True
        | None, Some a' => ∃ creator, k = KRequest creator ∧ a_Creator a' = creator ∧
                           a_State a' = ActionStatePending ∧ a_SuperNodes a' = []
        | Some a, Some a' => a' = a ∨ action_step s k a a'
        | Some _, None => False
        end.

(** Only a finalization may leave part of a price in the module account. *)
Definition surplus_step (k : act_kind) s s' : Prop :=
  ∀ d, match k with
       | KFinalize _ _ => surplus d s ≤ surplus d s'
       | _ => surplus d s' = surplus d s
       end.

(** A call keeps the store well-formed and follows the life cycle. *)
Definition call_step (k : act_kind) s s' : Prop :=
  store_ok s' ∧ actions_step s k (act_actions s) (act_actions s') ∧ surplus_step k s s'.

Lemma actions_step_refl s k m : actions_step s k m m.
Proof. intros id. destruct (m !! id); auto. Qed.

(** ** Parts of the state that stay *)
Definition upto_audit s0 s : Prop := ∃ au, s = set_audit au s0.
Lemma upto_audit_refl s : upto_audit s s.
Proof. exists (act_audit s). by destruct s. Qed.
Lemma keeps_on_audit {A} s0 (op : audit → result A * audit) :
  keeps (upto_audit s0) (on_audit op).
Proof.
  intros t [au Ht]. unfold on_audit, lift. destruct (op _) as [r au']. simpl.
  exists au'. by rewrite Ht.
Qed.

(** The store is well-formed whatever the bank and the audit module do. *)
Lemma store_ok_bank b s : store_ok s → store_ok (set_bank b s).
Proof. done. Qed.
Lemma store_ok_audit au s : store_ok s → store_ok (set_audit au s).
Proof. done. Qed.
Lemma surplus_audit d au s : surplus d (set_audit au s) = surplus d s.
Proof. done. Qed.

(** At most [x] of [denom] left the module account. *)
Definition spent (denom : string) (x : Z) s s' : Prop :=
  ∃ b, s' = set_bank b s ∧
    ∀ d, GetBalance (act_bank s) ModuleAccountAddress d - (if decide (d = denom) then x else 0)
         ≤ GetBalance b ModuleAccountAddress d.

Lemma spent_refl denom x s : 0 ≤ x → spent denom x s s.
Proof.
  intros Hx. exists (act_bank s). split; [by destruct s|]. intros d. case_decide; lia.
Qed.
Lemma spent_trans denom x y z s1 s2 s3 :
  spent denom x s1 s2 → spent denom y s2 s3 → x + y ≤ z → spent denom z s1 s3.
Proof.
  intros (b & -> & Hb) (b' & -> & Hb') Hz. exists b'. split; [done|]. intros d.
  specialize (Hb d). specialize (Hb' d). simpl in *. case_decide; lia.
Qed.

Lemma wp_on_bank_spent denom x to cs op t :
  transfer_law ModuleAccountAddress to cs op → cs = NewCoins (mkCoin denom x) → 0 ≤ x →
  wp (on_bank op) t (λ _ t', spent denom x (store t) (store t')).
Proof.
  intros Hop -> Hx. apply wp_lift. intros r b Hb. simpl.
  specialize (Hop (length_NewCoins _) (act_bank (store t))). rewrite Hb in Hop.
  destruct r as [[]|e]; simpl.
  - destruct Hop as [_ Hbal]. exists b. split; [done|]. intros d.
    rewrite (Hbal ModuleAccountAddress d), AmountOf_NewCoins. simpl.
    repeat case_decide; simplify_eq; lia.
  - subst. exists (act_bank (store t)). split; [done|]. intros d. case_decide; lia.
Qed.

(** ** What the fee distribution pays *)

(** [wp] with a postcondition that only speaks about success. *)
Definition on_ok {A} (Q : A → act_store → Prop) (r : result A) t : Prop :=
  match r with Ok x => Q x (store t) | Err _ => True end.

Lemma quot_share amount num den :
  0 ≤ amount → 0 ≤ num ≤ den → 0 < den → 0 ≤ Z.quot (amount * num) den ≤ amount.
Proof.
  intros Ha Hn Hd. rewrite Z.quot_div_nonneg by nia. split; [apply Z.div_pos; nia|].
  apply Z.div_le_upper_bound; nia.
Qed.

Lemma wp_send_reward_share fee t :
  params_ok (store t) → 0 ≤ Amount fee →
  wp (send_reward_share fee) t
    (on_ok (λ rest s', 0 ≤ rest ≤ Amount fee ∧ spent (Denom fee) (Amount fee - rest) (store t) s')).
Proof.
  intros [_ Hbps] Hfee. unfold send_reward_share. do 2 wp_step.
  assert (i64 (GetRegistrationFeeShareBps (act_sn (store t))) =
          GetRegistrationFeeShareBps (act_sn (store t))) as ->.
  { apply i64_small. unfold in_i64. lia. }
  pose proof (quot_share (Amount fee) (GetRegistrationFeeShareBps (act_sn (store t))) 10000
                Hfee Hbps ltac:(lia)) as Hq.
  set (q := Z.quot _ _) in *.
  assert (∀ t', store t' = store t → on_ok (λ rest s', 0 ≤ rest ≤ Amount fee ∧
            spent (Denom fee) (Amount fee - rest) (store t) s') (Ok (Amount fee)) t') as Hsame.
  { intros t' E. simpl. rewrite E. split; [lia|]. apply spent_refl. lia. }
  destruct (_ && _); [|wp_step; by apply Hsame].
  destruct (0 <? q); [|wp_step; by apply Hsame].
  unfold NewCoin. destruct (Z.ltb_spec q 0); [lia|]. do 3 wp_step.
  eapply wp_mono; [apply (wp_on_bank_spent (Denom fee) q _ _ _ _ (send_module_module _ _ _) eq_refl); lia|].
  intros [[]|] t' Hs; simpl; [|done]. split; [lia|].
  by replace (Amount fee - (Amount fee - q)) with q by lia.
Qed.

Lemma wp_send_foundation_share denom amount t :
  params_ok (store t) → 0 ≤ amount →
  wp (send_foundation_share denom amount) t
    (on_ok (λ rest s', 0 ≤ rest ≤ amount ∧ spent denom (amount - rest) (store t) s')).
Proof.
  intros [Hshare _] Hamount. unfold send_foundation_share. do 2 wp_step.
  assert (on_ok (λ rest s', 0 ≤ rest ≤ amount ∧ spent denom (amount - rest) (store t) s')
            (Ok amount) t) as Hsame.
  { simpl. split; [lia|]. apply spent_refl. lia. }
  case_decide as Hempty; [by wp_step|].
  destruct Hshare as [|(share & Hparse & Hraw)]; [done|]. rewrite Hparse. wp_step.
  wp_step; [|done]. match goal with E : Some share = Some _ |- _ => injection E as <- end.
  wp_step; [by wp_step|].
  assert (dec_TruncateInt (dec_Mul (dec_FromInt amount) share) =
          Z.quot (amount * dec_raw share) decPrecision) as ->.
  { rewrite raw_TruncateInt, (raw_Mul_exact _ _ (amount * dec_raw share)); [done|].
    rewrite raw_FromInt. lia. }
  pose proof (quot_share amount (dec_raw share) decPrecision Hamount Hraw eq_refl) as Hq.
  set (q := Z.quot _ _) in *.
  unfold NewCoin. destruct (Z.ltb_spec q 0); [lia|]. wp_step. wp_step. wp_step. wp_step.
  eapply wp_mono; [apply (wp_on_bank_spent denom q _ _ _ _ (fund_pool _ _) eq_refl); lia|].
  intros [[]|] t' Hs; simpl; [|done]. split; [lia|].
  by replace (amount - (amount - q)) with q by lia.
Qed.

(** One supernode gets at most what is left. *)
Lemma wp_pay_supernode price fee amount sn t :
  ParseCoinNormalized price = Some fee → 0 ≤ amount ≤ Amount fee →
  wp (pay_supernode (Denom fee) amount 1 sn) t
    (on_ok (λ _ s', spent (Denom fee) amount (store t) s')).
Proof.
  intros Hfee Hamount. unfold pay_supernode, Int64. wp_step.
  wp_step; [|by wp_step]. wp_step. rewrite Z.quot_1_r.
  assert ((if (amount =? 0) && (0 <? amount) then 1 else amount) = amount) as ->.
  { destruct (Z.eqb_spec amount 0); simpl; [|done]. by subst. }
  rewrite (parse_print _ _ _ Hfee Hamount). wp_step. wp_step; [|done]. do 2 wp_step.
  eapply wp_mono; [apply (wp_on_bank_spent (Denom fee) amount _ _ _ _
                           (send_module_account _ _ _) eq_refl); lia|].
  intros [[]|[]] t' Hs; simpl; auto; by wp_step.
Qed.

Lemma unique_supernodes_single sn :
  unique_supernodes [] [sn] = [] ∨ unique_supernodes [] [sn] = [sn].
Proof. simpl. destruct (contains sn "bad"); auto. Qed.

(** Closing one action never costs more than its price. *)
Lemma wp_DistributeFees id a sn fee t :
  act_actions (store t) !! id = Some a → a_SuperNodes a = [sn] →
  ParseCoinNormalized (a_Price a) = Some fee → params_ok (store t) →
  wp (DistributeFees id) t (on_ok (λ _ s', spent (Denom fee) (Amount fee) (store t) s')).
Proof.
  intros Ha Hsn Hfee Hp. pose proof (parse_nonneg _ _ Hfee) as Hpos.
  assert (on_ok (λ (_ : unit) s', spent (Denom fee) (Amount fee) (store t) s') (Ok tt) t) as Hsame
    by (simpl; by apply spent_refl).
  unfold DistributeFees, GetActionByID. do 3 wp_step. rewrite Ha. wp_step; [simplify_eq|done].
  wp_step. wp_step; [|done]. rewrite Hfee, Hsn. wp_step; [by wp_step|].
  destruct (unique_supernodes_single sn) as [->| ->]; [by wp_step|]. simpl.
  wp_step. eapply wp_mono; [by apply wp_send_reward_share|].
  intros [rest|] t1; [|done]. intros [Hrest (b & Eb & Hb)].
  assert (params_ok (store t1)) by (by rewrite Eb).
  wp_step. eapply wp_mono; [apply wp_send_foundation_share; [done|lia]|].
  intros [rest2|] t2; [|done]. intros [Hrest2 Hs2]. wp_step.
  eapply wp_mono; [apply (wp_pay_supernode _ _ _ _ _ Hfee); lia|].
  intros [[]|] t3; [|done]. intros Hs3. wp_step. simpl in *.
  eapply spent_trans; [exists b; eauto|eapply spent_trans; [done..|reflexivity]|lia].
Qed.

(** ** The store after SetAction *)
Lemma store_ok_ids s : store_ok s → ids_no_slash (act_actions s).
Proof.
  intros (_ & Hm & _) id a Ha. destruct (Hm _ _ Ha) as (_ & (n & Hn & ->) & _).
  apply no_slash_FormatInt. lia.
Qed.

Lemma params_ok_put a s : params_ok s → params_ok (put_action a s).
Proof. unfold params_ok, AGetParams. by rewrite put_action_params, put_action_sn. Qed.

Lemma put_action_ok s a :
  store_ok s → action_ok (act_count s) (a_ActionID a) a → store_ok (put_action a s).
Proof.
  intros Hs Ha. pose proof (store_ok_ids s Hs) as Hids. destruct Hs as (Hc & Hm & Hi & Hp).
  split; [by rewrite put_action_count|]. split; [|split].
  - intros id b. rewrite put_action_actions, put_action_count. intros [[<- <-]|[_ Hb]]%lookup_insert_Some; [done|].
    by apply Hm.
  - apply put_action_indexes; [done| |done]. destruct Ha as (_ & (n & Hn & ->) & _).
    apply no_slash_FormatInt. lia.
  - by apply params_ok_put.
Qed.

Lemma held_put d a s : held d (put_action a s) = held d s.
Proof. unfold held. by rewrite put_action_bank. Qed.

Lemma surplus_put_update s a a' d :
  act_actions s !! a_ActionID a' = Some a →
  surplus d (put_action a' s) = surplus d s + open_price d a - open_price d a'.
Proof.
  intros Ha. unfold surplus, escrow. rewrite put_action_actions, (map_sum_update _ _ _ a) by done.
  rewrite held_put. lia.
Qed.
Lemma surplus_put_new s a d :
  act_actions s !! a_ActionID a = None →
  surplus d (put_action a s) = surplus d s - open_price d a.
Proof.
  intros Ha. unfold surplus, escrow. rewrite put_action_actions, map_sum_insert_new by done.
  rewrite held_put. lia.
Qed.

Lemma open_price_request d a a' :
  same_request a a' → is_open a = true → is_open a' = false →
  open_price d a' = 0 ∧ open_price d a = price_in d a.
Proof. unfold open_price. by intros _ -> ->. Qed.

Lemma actions_step_put s0 k s a a' :
  act_actions s !! a_ActionID a' = Some a → action_step s0 k a a' →
  actions_step s0 k (act_actions s) (act_actions (put_action a' s)).
Proof.
  intros Ha Hstep id. rewrite put_action_actions.
  destruct (decide (id = a_ActionID a')) as [->|Hne].
  - rewrite Ha, lookup_insert_eq. auto.
  - rewrite lookup_insert_ne by done. destruct (act_actions s !! id); auto.
Qed.

(** ** The parts that only touch the audit module, or nothing *)
Lemma keeps_verify_all I action sn root i e proofs :
  keeps I (verify_all (S := act_store) action sn root i e proofs).
Proof.
  revert i e. induction proofs as [|p proofs IH]; intros i [|x e]; simpl; keeps_steps; try apply IH.
  unfold verify_one, emitSVCEvidenceEvent. keeps_steps.
Qed.
Lemma keeps_VerifyChunkProofs I action sn proofs :
  keeps I (VerifyChunkProofs (S := act_store) action sn proofs).
Proof.
  unfold VerifyChunkProofs, emitSVCEvidenceEvent. keeps_steps. apply keeps_verify_all.
Qed.
Lemma keeps_rejection s0 env action account reason top10 ty :
  keeps (upto_audit s0) (recordFinalizationRejection reporterAddress env action account reason top10 ty).
Proof.
  unfold recordFinalizationRejection, recordFinalizationEvidence. keeps_steps; apply keeps_on_audit.
Qed.
Lemma keeps_RecordActionExpired s0 env action :
  keeps (upto_audit s0) (RecordActionExpired reporterAddress env action).
Proof. unfold RecordActionExpired. keeps_steps. apply keeps_on_audit. Qed.
Lemma keeps_record_artifact_counts s0 env action :
  keeps (upto_audit s0) (record_artifact_counts env action).
Proof. unfold record_artifact_counts. keeps_steps. apply keeps_on_audit. Qed.
Lemma keeps_handler_RegisterAction I ty env info action :
  keeps I (handler_RegisterAction ty env info action).
Proof.
  unfold handler_RegisterAction, Cascade_RegisterAction, Sense_RegisterAction. keeps_steps.
Qed.
Lemma keeps_GetUpdatedMetadata I ty existing new :
  keeps I (handler_GetUpdatedMetadata ty existing new).
Proof.
  unfold handler_GetUpdatedMetadata, Cascade_GetUpdatedMetadata, Sense_GetUpdatedMetadata.
  keeps_steps.
Qed.
Lemma keeps_handler_FinalizeAction s0 ty env top10 action account metadata :
  keeps (upto_audit s0) (handler_FinalizeAction reporterAddress ty env top10 action account metadata).
Proof.
  unfold handler_FinalizeAction, Cascade_FinalizeAction, Sense_FinalizeAction,
    RecordFinalizationSignatureFailure.
  keeps_steps; first [apply keeps_rejection|apply keeps_VerifyChunkProofs].
Qed.

(** ** FinalizeAction *)
Lemma wp_any {A} (m : M act_store A) t (Q : result A → st act_store → Prop) :
  (∀ r t', Q r t') → wp m t Q.
Proof. intros HQ. apply HQ. Qed.

(** What a handler returns: a soft rejection, or the action to be closed. *)
Definition handled_ok a (r : result (ActionState * Action)) : Prop :=
  match r with
  | Ok (newState, a') =>
      (newState = ActionStateUnspecified ∧ a' = a) ∨
      (newState = ActionStateDone ∧ same_request a a' ∧ a_SuperNodes a' = a_SuperNodes a)
  | Err _ => True
  end.

Lemma handled_handler_FinalizeAction ty env top10 a account metadata t :
  wp (handler_FinalizeAction reporterAddress ty env top10 a account metadata) t
    (λ r _, handled_ok a r).
Proof.
  unfold handler_FinalizeAction, Cascade_FinalizeAction, Sense_FinalizeAction.
  destruct ty.
  all: repeat first [wp_step | apply wp_any; intros [|] ?]; try done; simpl; auto;
    right; by case_decide.
Qed.

Lemma wp_handler_FinalizeAction ty env top10 a account metadata t :
  wp (handler_FinalizeAction reporterAddress ty env top10 a account metadata) t
    (λ r t', handled_ok a r ∧ upto_audit (store t) (store t')).
Proof.
  apply wp_and; [apply handled_handler_FinalizeAction|].
  eapply wp_keeps; [apply keeps_handler_FinalizeAction|apply upto_audit_refl|done].
Qed.

Lemma checkFinalizerEligibility_ok s a account top10 :
  checkFinalizerEligibility a account s = Ok (None, top10) → finalizer_ok s a account.
Proof.
  unfold checkFinalizerEligibility. case_decide; [done|].
  destruct (GetTopSuperNodesForBlock _ _) as [top|] eqn:E; [|done].
  destruct (existsb _ _) eqn:Ex; [|done]. intros _. exists top. split; [done|].
  apply existsb_exists in Ex as (sn & Hsn%list_elem_of_In & Hacc%bool_decide_eq_true).
  apply list_elem_of_fmap. eauto.
Qed.

Lemma call_step_audit k s au : store_ok s → call_step k s (set_audit au s).
Proof.
  intros Hs. split; [done|]. split; [apply actions_step_refl|]. by intros d; destruct k.
Qed.

Lemma action_ok_step count id a a' :
  action_ok count id a → same_request a a' → life_ok a' → action_ok count id a'.
Proof.
  intros (Hid & Hn & _ & Hp & Hc & Ht) (Ec & Ei & Et & Ep & _) Hl.
  unfold action_ok. rewrite Ec, Ei, Et, Ep. done.
Qed.

Lemma open_pending a : life_ok a → is_open a = true →
  a_State a = ActionStatePending ∧ a_SuperNodes a = [].
Proof.
  intros Hl Ho%bool_decide_eq_true. unfold life_ok in Hl. naive_solver congruence.
Qed.

Lemma call_step_touch k s a :
  store_ok s → act_actions s !! a_ActionID a = Some a → call_step k s (put_action a s).
Proof.
  intros Hs Ha. assert (act_actions (put_action a s) = act_actions s) as E
    by (rewrite put_action_actions; by apply insert_id).
  split; [|split].
  - apply put_action_ok; [done|]. by apply Hs.
  - rewrite E. apply actions_step_refl.
  - intros d. rewrite (surplus_put_update _ a) by done. destruct k; lia.
Qed.

(** The finalization of an action, once its fee is distributed. *)
Lemma call_step_finalized s s1 s2 s3 id account a a' fee :
  store_ok s → act_actions s !! id = Some a → is_open a = true → finalizer_ok s a account →
  same_request a a' → a_State a' = ActionStateDone → a_SuperNodes a' = [account] →
  ParseCoinNormalized (a_Price a) = Some fee →
  upto_audit s s1 → upto_audit (put_action a' s1) s2 → spent (Denom fee) (Amount fee) s2 s3 →
  call_step (KFinalize id account) s s3.
Proof.
  intros Hs Ha Ho Hf Hsame Hst Hsn Hfee [au ->] [au' ->] (b & -> & Hb).
  assert (action_ok (act_count s) id a) as Hok by (by apply Hs).
  assert (a_ActionID a' = id) as Hid by (destruct Hok as [<- _]; apply Hsame).
  assert (action_ok (act_count s) (a_ActionID a') a') as Hok'.
  { rewrite Hid. apply (action_ok_step _ _ a); [done|done|]. right; right. eauto. }
  split; [|split].
  - by apply store_ok_bank, store_ok_audit, (put_action_ok (set_audit au s)).
  - apply (actions_step_put s _ (set_audit au s) a); simpl; [by rewrite Hid|].
    split; [done|]. destruct (open_pending a) as [? ?]; [apply Hok|done|]. split_and!; try done.
    by destruct Hok as [-> _].
  - intros d. pose proof (surplus_put_update (set_audit au s) a a' d) as E.
    simpl in E. rewrite Hid in E. specialize (E Ha). specialize (Hb d). simpl in Hb.
    assert (open_price d a' = 0) as E1
      by (unfold open_price, is_open; by rewrite Hst).
    assert (open_price d a = if decide (d = Denom fee) then Amount fee else 0) as E2.
    { unfold open_price. rewrite Ho. unfold price_in. rewrite Hfee.
      repeat case_decide; congruence. }
    unfold surplus, held, escrow in *. simpl in *. lia.
Qed.

Lemma wp_store_eq {A} (m : M act_store A) t (Q : result A → st act_store → Prop) :
  (∀ I, keeps I m) → (∀ r t', store t' = store t → Q r t') → wp m t Q.
Proof. intros Hm HQ. by apply (wp_keeps (λ s, s = store t)). Qed.
Lemma wp_SetAction a t Q :
  Q (Ok tt) (St (put_action a (store t)) (events t)) → wp (SetAction a) t Q.
Proof. unfold wp. by rewrite SetAction_run. Qed.

Lemma wp_FinalizeAction env id account metadata t :
  store_ok (store t) →
  wp (FinalizeAction reporterAddress env id account metadata) t
    (on_ok (λ _ s', call_step (KFinalize id account) (store t) s')).
Proof.
  intros Hs. unfold FinalizeAction, GetActionByID. do 4 wp_step; [|done].
  match goal with E : act_actions _ !! id = Some ?x |- _ => rename x into a, E into Ha end.
  assert (action_ok (act_count (store t)) id a) as Hok by (by apply Hs).
  do 2 wp_step; [|done]. rename select (bool_decide _ = true) into Ho.
  destruct (open_pending a) as [Hst Hnone]; [apply Hok|done|].
  do 4 wp_step; [|done].
  match goal with E : _ = Ok ?v |- _ => destruct v as [[reason|] top10]; rename E into Hv end.
  { wp_step; [|by wp_step]. eapply wp_keeps; [apply keeps_rejection|apply upto_audit_refl|].
    intros [[]|] t' [au E]; simpl; [|done]. rewrite E. by apply call_step_audit. }
  apply checkFinalizerEligibility_ok in Hv. do 3 wp_step; [|done]. wp_step.
  eapply wp_mono; [apply wp_handler_FinalizeAction|].
  intros [[st a']|] t1; [|done]. intros [Hh Ht1]. simpl in Hh. wp_step.
  destruct Hh as [[-> ->]|(-> & Hsame & Hsn)].
  - rewrite decide_True by done. do 3 wp_step. apply wp_SetAction. rewrite Hst. simpl. wp_step.
    destruct Ht1 as [au ->]. simpl.
    apply (call_step_touch _ (set_audit au (store t))); [done|]. simpl.
    by rewrite (proj1 Hok).
  - rewrite decide_False by done. wp_step. apply wp_store_eq; [intros I; apply keeps_GetUpdatedMetadata|].
    intros [md|] t2 E2; [|done]. do 3 wp_step. apply wp_SetAction. cbn [a_State add_SuperNode set_Metadata set_State].
    simpl. wp_step.
    destruct Hok as (Hid & _ & _ & [fee Hfee] & _).
    eapply wp_keeps; [apply keeps_record_artifact_counts|apply upto_audit_refl|].
    intros [[]|] t3 Ht3; simpl in Ht3; [|done]. do 2 wp_step.
    set (a2 := add_SuperNode _ _) in Ht3. rewrite E2 in Ht3.
    assert (same_request a a2) as Hsame2 by done.
    assert (a_SuperNodes a2 = [account]) as Hsn2 by (simpl; by rewrite Hsn, Hnone).
    assert (a_ActionID a2 = id) as Hid2 by (rewrite <- Hid; apply Hsame2).
    assert (a_Price a2 = a_Price a) as Hprice by apply Hsame2.
    eapply wp_mono; [apply (wp_DistributeFees id a2 account fee); [| |by rewrite Hprice|]|].
    + destruct Ht3 as [? ->]. change (act_actions (put_action a2 (store t1)) !! id = Some a2).
      rewrite put_action_actions, Hid2. apply lookup_insert_eq.
    + done.
    + destruct Ht3 as [? ->], Ht1 as [au ->]. apply (params_ok_put a2 (set_audit au (store t))), Hs.
    + intros [[]|] t4 Hspent; simpl in *; [|done]. by eapply call_step_finalized.
Qed.

(** ** ApproveAction *)
Lemma wp_ApproveAction id creator t :
  store_ok (store t) →
  wp (ApproveAction id creator) t
    (on_ok (λ _ s', call_step (KApprove id creator) (store t) s')).
Proof.
  intros Hs. unfold ApproveAction, GetActionByID. do 4 wp_step; [|done].
  match goal with E : act_actions _ !! id = Some ?x |- _ => rename x into a, E into Ha end.
  assert (action_ok (act_count (store t)) id a) as Hok by (by apply Hs).
  do 2 wp_step; [|done]. rename select (bool_decide _ = true) into Hst.
  apply bool_decide_eq_true in Hst.
  do 2 wp_step; [|done]. rename select (bool_decide _ = true) into Hc.
  apply bool_decide_eq_true in Hc.
  do 3 wp_step; [|done]. wp_step. apply wp_SetAction. wp_step. simpl.
  set (a' := set_State a ActionStateApproved).
  assert (same_request a a') as Hsame by done.
  assert (a_ActionID a' = id) as Hid by apply Hok.
  split; [|split].
  - apply put_action_ok; [done|]. rewrite Hid. apply (action_ok_step _ _ a); [done|done|].
    destruct Hok as (_ & _ & Hl & _). unfold life_ok in *. simpl. rewrite Hst in Hl.
    naive_solver.
  - apply (actions_step_put _ _ _ a); [by rewrite Hid|]. by split_and!.
  - intros d. rewrite (surplus_put_update _ a) by (by rewrite Hid).
    unfold open_price, is_open. rewrite Hst. simpl. lia.
Qed.

(** ** Expiration *)

(** A refund moves the price out of the module account, or nothing. *)
Definition refunded (paid : bool) a s s' : Prop :=
  ∃ b, s' = set_bank b s ∧
    ∀ d, GetBalance b ModuleAccountAddress d = held d s - (if paid then price_in d a else 0).

Lemma refunded_refl (paid : bool) a s : (∀ d, paid = true → price_in d a = 0) → refunded paid a s s.
Proof.
  intros Hz. exists (act_bank s). split; [by destruct s|]. intros d. unfold held.
  destruct paid; [rewrite Hz by done|]; lia.
Qed.

Lemma wp_refund a t :
  creator_ok (a_Creator a) →
  wp (refund a) t (λ r t', refunded (match r with Ok b => b | Err _ => false end) a
                             (store t) (store t')).
Proof.
  intros (addr & Haddr & Hne). unfold refund. unfold price_in.
  destruct (ParseCoinNormalized (a_Price a)) as [fee|] eqn:Hfee.
  2:{ wp_step. apply refunded_refl. intros d _. unfold price_in. by rewrite Hfee. }
  destruct (Z.eqb_spec (Amount fee) 0) as [Hz|Hz].
  { wp_step. apply refunded_refl. intros d _. unfold price_in. rewrite Hfee, Hz. by case_decide. }
  rewrite Haddr. do 2 wp_step. apply wp_lift. intros r b Hb. simpl.
  pose proof (send_module_account ModuleName addr (NewCoins fee) (length_NewCoins _)
                (act_bank (store t))) as Hlaw.
  rewrite Hb in Hlaw. destruct r as [[]|e].
  - wp_step. exists b. split; [done|]. intros d. destruct Hlaw as [_ ->].
    rewrite decide_True by done. rewrite decide_False by done.
    rewrite AmountOf_NewCoins. unfold price_in. rewrite Hfee. simpl. unfold held. lia.
  - assert (refunded false a (store t) (set_bank b (store t))).
    { subst. exists (act_bank (store t)). split; [done|]. intros d. unfold held. lia. }
    destruct e; try wp_step; done.
Qed.

Definition due (now : Z) a : bool := negb (a_ExpirationTime a =? 0) && (a_ExpirationTime a <=? now).

Lemma call_step_refl k s : store_ok s → call_step k s s.
Proof.
  intros Hs. split; [done|]. split; [apply actions_step_refl|]. intros d. by destruct k.
Qed.

Lemma call_step_expire_trans now s1 s2 s3 :
  call_step (KExpire now) s1 s2 → call_step (KExpire now) s2 s3 → call_step (KExpire now) s1 s3.
Proof.
  intros (_ & Ha & Hd) (Hs & Ha' & Hd'). split; [done|]. split.
  - intros id. specialize (Ha id). specialize (Ha' id). simpl in *.
    destruct (act_actions s1 !! id) as [a1|], (act_actions s2 !! id) as [a2|],
      (act_actions s3 !! id) as [a3|]; try done;
      try (by destruct Ha as (? & ? & _)); try (by destruct Ha' as (? & ? & _)).
    destruct Ha as [->|Hst]; [done|]. destruct Ha' as [->|Hst']; [by right|].
    destruct Hst as (_ & _ & _ & -> & _), Hst' as (_ & _ & _ & _ & Hst'). done.
  - intros d. specialize (Hd d). specialize (Hd' d). simpl in *. congruence.
Qed.

(** An action that is closed after its refund. *)
Lemma call_step_expired now s s1 id a :
  store_ok s → act_actions s !! id = Some a → a_State a = ActionStatePending →
  due now a = true → refunded true a s s1 →
  call_step (KExpire now) s (put_action (set_State a ActionStateExpired) s1).
Proof.
  intros Hs Ha Hst Hdue (b & -> & Hb).
  assert (action_ok (act_count s) id a) as Hok by (by apply Hs).
  set (a' := set_State a ActionStateExpired).
  assert (a_ActionID a' = id) as Hid by apply Hok.
  apply andb_true_iff in Hdue as [Hz%negb_true_iff%Z.eqb_neq Hnow%Z.leb_le].
  split; [|split].
  - apply (put_action_ok (set_bank b s)); [done|].
    change (action_ok (act_count s) (a_ActionID a') a'). rewrite Hid.
    apply (action_ok_step _ _ a); [done|done|].
    destruct Hok as (_ & _ & Hl & _). unfold life_ok in *. simpl. rewrite Hst in Hl. naive_solver.
  - apply (actions_step_put _ _ (set_bank b s) a); [by rewrite Hid|]. by split_and!.
  - intros d. rewrite (surplus_put_update (set_bank b s) a) by (by rewrite Hid).
    specialize (Hb d). unfold open_price, is_open. rewrite Hst. simpl.
    unfold surplus, held, escrow in *. simpl. lia.
Qed.

Lemma wp_expire_action env now id a t :
  store_ok (store t) → act_actions (store t) !! id = Some a → a_State a = ActionStatePending →
  wp (expire_action reporterAddress env now a) t
    (λ _ t', call_step (KExpire now) (store t) (store t') ∧
             ∀ id', id' ≠ id → act_actions (store t') !! id' = act_actions (store t) !! id').
Proof.
  intros Hs Ha Hst. assert (action_ok (act_count (store t)) id a) as Hok by (by apply Hs).
  assert (call_step (KExpire now) (store t) (store t)) as Hsame by (by apply call_step_refl).
  unfold expire_action. fold (due now a).
  destruct (due now a) eqn:Hdue; [|by wp_step]. wp_step.
  eapply wp_mono; [apply wp_refund, Hok|]. intros r t1 Hr.
  assert (refunded false a (store t) (store t1) →
    call_step (KExpire now) (store t) (store t1) ∧
    ∀ id', id' ≠ id → act_actions (store t1) !! id' = act_actions (store t) !! id') as Hfalse.
  { intros (b & -> & Hb). split; [|done]. destruct Hsame as (H1' & H2' & _).
    split_and!; [done..|]. intros d. specialize (Hb d). unfold surplus, held, escrow in *.
    simpl. lia. }
  destruct r as [[]|e]; simpl in Hr; [|wp_step; by apply Hfalse|by apply Hfalse].
  set (a' := set_State a ActionStateExpired).
  assert (a_ActionID a' = id) as Hid by apply Hok.
  wp_step. apply wp_SetAction. wp_step. fold a'.
  eapply wp_keeps; [apply keeps_RecordActionExpired|apply upto_audit_refl|].
  assert (∀ t2, upto_audit (put_action a' (store t1)) (store t2) →
    call_step (KExpire now) (store t) (store t2) ∧
    ∀ id', id' ≠ id → act_actions (store t2) !! id' = act_actions (store t) !! id') as Hend.
  { intros t2 [au ->]. split; [by eapply call_step_expired|]. intros id' Hne.
    change (act_actions (put_action a' (store t1)) !! id' = act_actions (store t) !! id').
    rewrite put_action_actions, Hid, lookup_insert_ne by done. by destruct Hr as (b & -> & _). }
  intros [[]|] t2 Ht2; [wp_step|]; by apply Hend.
Qed.

(** The iteration over a snapshot of the index: an id comes once, and its action
    is pending when its turn comes. *)
Lemma wp_expire_all env now ids t :
  NoDup ids → store_ok (store t) →
  (∀ id a, id ∈ ids → act_actions (store t) !! id = Some a → a_State a = ActionStatePending) →
  wp (for_each (λ id, action ← gets (GetActionByID id);
        match action with
        | None => mret tt
        | Some a => expire_action reporterAddress env now a
        end) ids) t
    (λ _ t', call_step (KExpire now) (store t) (store t')).
Proof.
  intros Hnd. revert t. induction Hnd as [|id ids Hid _ IH]; intros t Hs Hp; simpl.
  { wp_step. by apply call_step_refl. }
  do 3 wp_step. unfold GetActionByID. destruct (act_actions (store t) !! id) as [a|] eqn:Ha.
  2:{ wp_step. apply IH; [done|]. intros id' a' Hid'. apply Hp. by right. }
  eapply wp_mono; [apply (wp_expire_action _ _ id); [done|done|]|].
  { apply (Hp id); [by left|done]. }
  intros [[]|] t' [Hc Hother]; [|done]. eapply wp_mono; [apply IH|].
  - apply Hc.
  - intros id' a' Hid'. rewrite Hother by (by intros ->). apply Hp. by right.
  - intros r t'' Hc'. simpl in *. by eapply call_step_expire_trans.
Qed.

Lemma index_ids_state s st id a :
  store_ok s → id ∈ index_ids (act_by_state s) (ActionState_String st +:+ "/") →
  act_actions s !! id = Some a → a_State a = st.
Proof.
  intros Hs Hid Ha. pose proof (store_ok_ids s Hs) as Hids. rewrite elem_of_index_ids in Hid.
  destruct Hs as (_ & _ & (Hst & _) & _).
  apply (coherent_lookup _ _ _ _ _ Hids Hst) in Hid as (a' & Ha' & Hin); [|by eapply Hids].
  assert (a' = a) as -> by congruence. apply list_elem_of_singleton in Hin.
  by destruct st, (a_State a).
Qed.

(** No stored action is in the state PROCESSING. *)
Lemma processing_none s id a :
  store_ok s →
  id ∈ index_ids (act_by_state s) (ActionState_String ActionStateProcessing +:+ "/") →
  act_actions s !! id = Some a → a_State a = ActionStatePending.
Proof.
  intros Hs Hid Ha. pose proof (index_ids_state _ _ _ _ Hs Hid Ha).
  destruct Hs as (_ & Hm & _). destruct (Hm _ _ Ha) as (_ & _ & Hl & _).
  unfold life_ok in Hl. naive_solver congruence.
Qed.

Lemma wp_EndBlocker env t :
  store_ok (store t) →
  wp (EndBlocker reporterAddress env) t
    (λ _ t', call_step (KExpire (BlockTime (env_ctx env))) (store t) (store t')).
Proof.
  intros Hs. unfold EndBlocker, CheckExpiration, processExpiredActionsInState, IterateActionsByState.
  do 3 wp_step. eapply wp_mono; [apply wp_expire_all; [apply NoDup_index_ids|done|]|].
  { intros id a. by apply index_ids_state. }
  intros [[]|] t1 Hc; [|done]. do 2 wp_step.
  eapply wp_mono; [apply wp_expire_all; [apply NoDup_index_ids|apply Hc|]|].
  - intros id a Hid Ha. by apply (processing_none (store t1) id a); [apply Hc|..].
  - intros r t2 Hc2. by eapply call_step_expire_trans.
Qed.

(** ** RegisterAction *)
Lemma store_ok_count s n : store_ok s → act_count s ≤ n → store_ok (set_count n s).
Proof.
  intros (Hc & Hm & Hi & Hp) Hn. split; [simpl; lia|]. split; [|done].
  intros id a Ha. destruct (Hm id a Ha) as (Hid & (k & Hk & Ek) & Hrest).
  split; [done|]. split; [|done]. exists k. split; [simpl; lia|done].
Qed.

Lemma fresh_id s : store_ok s → act_actions s !! FormatInt (act_count s + 1) = None.
Proof.
  intros (Hc & Hm & _). destruct (act_actions s !! _) as [a|] eqn:Ha; [|done].
  destruct (Hm _ _ Ha) as (_ & (k & Hk & Ek) & _). apply FormatInt_inj in Ek. lia.
Qed.

(** A new action whose price has reached the module account. *)
Lemma call_step_registered s a b :
  store_ok s → a_ActionID a = FormatInt (act_count s + 1) →
  a_State a = ActionStatePending → a_SuperNodes a = [] →
  is_Some (ParseCoinNormalized (a_Price a)) → creator_ok (a_Creator a) →
  a_ActionType a ≠ ActionTypeUnspecified →
  (∀ d, GetBalance b ModuleAccountAddress d = held d s + price_in d a) →
  call_step (KRequest (a_Creator a)) s
    (set_bank b (put_action a (set_count (act_count s + 1) s))).
Proof.
  intros Hs Hid Hst Hsn Hprice Hcr Hty Hb. pose proof (fresh_id s Hs) as Hfresh.
  rewrite <- Hid in Hfresh. set (s1 := set_count (act_count s + 1) s).
  assert (store_ok s1) as Hs1 by (apply store_ok_count; [done|lia]).
  assert (0 ≤ act_count s) by apply Hs.
  split; [|split].
  - apply (put_action_ok s1); [done|]. split; [done|].
    split; [exists (act_count s + 1); split; [simpl; lia|done]|].
    split; [by left|]. done.
  - intros id. change (act_actions (set_bank _ _)) with (act_actions (put_action a s1)).
    rewrite put_action_actions. destruct (decide (id = a_ActionID a)) as [->|Hne].
    + change (act_actions s1) with (act_actions s). rewrite Hfresh, lookup_insert_eq. eauto.
    + rewrite lookup_insert_ne by done. simpl. destruct (act_actions s !! id); auto.
  - intros d. pose proof (surplus_put_new s1 a d Hfresh) as E. specialize (Hb d).
    assert (open_price d a = price_in d a) as Eo by (unfold open_price, is_open; by rewrite Hst).
    unfold surplus, held, escrow in *. rewrite put_action_bank in E. simpl in *. lia.
Qed.

Lemma wp_RegisterAction env info a t :
  store_ok (store t) → act_count (store t) < MaxUint64 →
  (∀ addr, AccAddressFromBech32 (a_Creator a) = Some addr → addr ≠ ModuleAccountAddress) →
  a_SuperNodes a = [] →
  wp (RegisterAction env info a) t
    (on_ok (λ id s', call_step (KRequest (a_Creator a)) (store t) s' ∧
                     is_Some (act_actions s' !! id))).
Proof.
  intros Hs Hcount Hcr Hsn. assert (0 ≤ act_count (store t)) as Hc0 by apply Hs.
  unfold RegisterAction. do 2 wp_step; [|done]. do 2 wp_step; [|done].
  do 2 wp_step. do 2 wp_step; [|done]. do 2 wp_step; [|done]. do 2 wp_step.
  do 2 wp_step; [|done]. do 2 wp_step; [|done]. do 2 wp_step.
  unfold getLastActionID. rewrite u64_small by (unfold in_u64, MaxUint64 in *; lia).
  do 2 wp_step. wp_step. wp_step; [|done]. do 3 wp_step; [|done].
  rename select (GetHandler _ = _) into Hty. rename select (bool_decide (_ = ActionStatePending) = true) into Hst.
  apply bool_decide_eq_true in Hst.
  set (act := if decide _ then _ else _) in *.
  do 2 wp_step. apply wp_store_eq; [intros I; apply keeps_handler_RegisterAction|].
  intros [[]|] t1 E1; simpl in E1; [|done]. wp_step. apply wp_SetAction. do 2 wp_step.
  apply wp_lift. intros r b Hb. simpl in Hb.
  match type of Hb with SendCoinsFromAccountToModule ?ad _ (NewCoins ?p) _ = _ =>
    rename ad into creator, p into fee end.
  pose proof (send_account_module creator ModuleName (NewCoins fee) (length_NewCoins _)
                (act_bank (store t))) as Hlaw.
  rewrite E1, put_action_bank in Hb. simpl in Hb. rewrite Hb in Hlaw. destruct r as [[]|e]; [|done].
  do 2 wp_step. rewrite E1. cbn [on_ok store].
  assert (a_Creator act = a_Creator a ∧ a_SuperNodes act = a_SuperNodes a ∧
          a_Price act = a_Price a ∧ a_ActionID act = FormatInt (act_count (store t) + 1))
    as (Ecr & Esn & Epr & Eid) by (unfold act; by destruct (decide (a_State _ = _))).
  split.
  - rewrite <- Ecr. apply call_step_registered; rewrite ?Ecr, ?Esn, ?Epr; try done; eauto.
    + exists creator. eauto.
    + by destruct (a_ActionType act).
    + intros d. destruct Hlaw as [_ ->].
      rewrite (decide_False (P := ModuleAccountAddress = creator)) by (intros E; by eapply Hcr).
      rewrite decide_True by done. rewrite AmountOf_NewCoins.
      unfold held, price_in. rewrite Epr. rename select (ParseCoinNormalized _ = _) into Hp.
      rewrite Hp. lia.
  - change (is_Some (act_actions (put_action act (set_count (act_count (store t) + 1) (store t)))
                       !! a_ActionID act)).
    rewrite put_action_actions, lookup_insert_eq. eauto.
Qed.

Lemma wp_RequestAction env msg t :
  store_ok (store t) → act_count (store t) < MaxUint64 →
  (∀ addr, AccAddressFromBech32 (ra_Creator msg) = Some addr → addr ≠ ModuleAccountAddress) →
  wp (RequestAction env msg) t
    (on_ok (λ _ s', call_step (KRequest (ra_Creator msg)) (store t) s')).
Proof.
  intros Hs Hcount Hcr. unfold RequestAction. do 2 wp_step; [|done]. do 2 wp_step; [|done].
  do 2 wp_step. do 2 wp_step; [|done]. do 3 wp_step; [|done]. do 3 wp_step; [|done].
  do 2 wp_step; [|done]. wp_step.
  eapply wp_mono; [by apply wp_RegisterAction|].
  intros [id|] t'; [|done]. intros [Hc [act Hact]]. do 3 wp_step. unfold GetActionByID.
  rewrite Hact. wp_step; [|done]. by wp_step.
Qed.

(** ** Calls and reachable states *)
Definition kind_of (env : Env) (c : act_call) : act_kind :=
  match c with
  | ACallRequest msg => KRequest (ra_Creator msg)
  | ACallFinalize msg => KFinalize (fa_ActionId msg) (fa_Creator msg)
  | ACallApprove msg => KApprove (aa_ActionId msg) (aa_Creator msg)
  | ACallEndBlock => KExpire (BlockTime (env_ctx env))
  end.

(** The 64-bit counter has room, and the module account itself signs nothing. *)
Definition call_ok s (c : act_call) : Prop :=
  match c with
  | ACallRequest msg =>
      act_count s < MaxUint64 ∧
      ∀ addr, AccAddressFromBech32 (ra_Creator msg) = Some addr → addr ≠ ModuleAccountAddress
  | _ => True
  end.

Lemma run_tx_call {A} (m : M act_store A) k t :
  store_ok (store t) → wp m t (on_ok (λ _ s', call_step k (store t) s')) →
  call_step k (store t) (store (run_tx m t).2).
Proof.
  intros Hs Hm. apply (wp_run_tx m t (λ t', call_step k (store t) (store t'))).
  - eapply wp_mono; [done|]. by intros [].
  - by apply call_step_refl.
Qed.

Lemma act_exec_step env c t :
  store_ok (store t) → call_ok (store t) c →
  call_step (kind_of env c) (store t) (store (act_exec reporterAddress env c t)).
Proof.
  intros Hs Hc. destruct c as [msg|msg|msg|]; simpl.
  - case_match; [|by apply call_step_refl]. apply run_tx_call; [done|].
    destruct Hc. by apply wp_RequestAction.
  - case_match; [|by apply call_step_refl]. apply run_tx_call; [done|].
    unfold Msg_FinalizeAction. do 3 wp_step; [|done]. do 3 wp_step; [|done]. wp_step.
    eapply wp_mono; [by apply wp_FinalizeAction|]. by intros [].
  - case_match; [|by apply call_step_refl]. apply run_tx_call; [done|].
    unfold Msg_ApproveAction. wp_step.
    eapply wp_mono; [by apply wp_ApproveAction|]. by intros [].
  - by apply wp_EndBlocker.
Qed.
End Inv.
