(* ===== verification/ActionThm.v ===== *)
(** * The action module: theorems

    Reachable states, the life cycle of an action, the escrow of prices, the
    index reads, the end blocker, and how a fee is split. *)
From Stdlib Require Import ZArith Lia.
From stdpp Require Import base numbers strings list gmap sets.
From S2P Require Import Prelude Sdk Float Bank SupernodeTypes Supernode SupernodeRank ActionTypes.
From S2P Require Import Merkle Svc ActionStore ActionKeeper ActionMsg ActionIndex ActionInv.
Open Scope Z_scope.

Section Thm.
Context `{SdkAddress} `{LegacyDecOps} `{Blake3} `{CoinParser} `{BankKeeper} `{MetadataCodec}
  `{KademliaLibs} `{PubKeys} `{!AuditKeeper} `{!ActionCrypto}.
Context `{!LegacyDecLaws} `{!CoinParserLaws} `{!BankLaws}.
Variable reporterAddress : string.
Implicit Types (s : act_store) (t : st act_store) (a : Action).

(** ** Reachable states *)
Definition same_actions s s' : Prop :=
  act_actions s' = act_actions s ∧ act_count s' = act_count s ∧
  act_by_state s' = act_by_state s ∧ act_by_creator s' = act_by_creator s ∧
  act_by_type s' = act_by_type s ∧ act_by_block s' = act_by_block s ∧
  act_by_sn s' = act_by_sn s.

Definition fresh_store s : Prop :=
  act_actions s = ∅ ∧ act_count s = 0 ∧ act_by_state s = ∅ ∧ act_by_creator s = ∅ ∧
  act_by_type s = ∅ ∧ act_by_block s = ∅ ∧ act_by_sn s = ∅.

(** Between the calls of the module the rest of the chain may do anything to its
    own state; it takes nothing out of the module account, and it only stores
    parameters that have been validated. *)
Inductive areach : st act_store → Prop :=
| areach_init s ev : fresh_store s → params_ok s → areach (St s ev)
| areach_call env c t :
    areach t → call_ok (store t) c → areach (act_exec reporterAddress env c t)
| areach_other t s' ev :
    areach t → same_actions (store t) s' → params_ok s' →
    (∀ d, held d (store t) ≤ held d s') → areach (St s' ev).

Lemma fresh_ok s : fresh_store s → params_ok s → store_ok s ∧ solvent s.
Proof.
  intros (E1 & E2 & E3 & E4 & E5 & E6 & E7) Hp. split.
  - split; [by rewrite E2|]. split; [intros id a; by rewrite E1, lookup_empty|].
    split; [|done]. unfold indexes_ok. rewrite E1, E3, E4, E5, E6, E7.
    split_and!; intros k; split; try (by rewrite elem_of_empty);
      intros (id & a & f & Ha & _); by rewrite lookup_empty in Ha.
  - intros d. unfold surplus, escrow, held. rewrite E1, map_sum_empty.
    pose proof (balance_nonneg (act_bank s) ModuleAccountAddress d). lia.
Qed.

Lemma other_ok s s' :
  same_actions s s' → params_ok s' → (∀ d, held d s ≤ held d s') →
  store_ok s → solvent s → store_ok s' ∧ solvent s'.
Proof.
  intros (E1 & E2 & E3 & E4 & E5 & E6 & E7) Hp Hh (Hc & Hm & Hi & _) Hsol. split.
  - unfold store_ok, indexes_ok in *. by rewrite E1, E2, E3, E4, E5, E6, E7.
  - intros d. specialize (Hsol d). specialize (Hh d). unfold surplus, escrow in *. rewrite E1. lia.
Qed.

Lemma call_step_solvent k s s' : call_step k s s' → solvent s → solvent s'.
Proof.
  intros (_ & _ & Hd) Hsol d. specialize (Hsol d). specialize (Hd d). destruct k; lia.
Qed.

Lemma areach_ok t : areach t → store_ok (store t) ∧ solvent (store t).
Proof.
  induction 1 as [s ev Hf Hp|env c t _ [Hs Hsol] Hc|t s' ev _ [Hs Hsol] Hsame Hp Hh].
  - by apply fresh_ok.
  - pose proof (act_exec_step reporterAddress env c t Hs Hc) as Hstep.
    split; [apply Hstep|by eapply call_step_solvent].
  - by apply (other_ok (store t)).
Qed.

(** ** The life cycle and the escrow *)

(** C10. In a reachable state every call of the module moves every stored action
    along the life cycle, and touches no other: a request adds a pending action
    of its creator; a finalization takes the named pending action to done, adds
    the signer as its only supernode, and needs the signer among the top ten
    supernodes of the block of the action; an approval takes a done action of the
    signer to approved; the end block takes pending actions past their time to
    expired.  The identity, creator, type, price, deadline, height, size and key
    of an action never change, and no action disappears. *)
Theorem action_lifecycle env c t :
  areach t → call_ok (store t) c →
  actions_step (store t) (kind_of env c) (act_actions (store t))
    (act_actions (store (act_exec reporterAddress env c t))).
Proof. intros Ht Hc. apply act_exec_step; [by apply areach_ok|done]. Qed.

(** C2. In every reachable state the module account holds, in every
    denomination, at least the prices of all actions that are still open; and a
    call changes what it holds beyond them only when a finalization leaves a
    remainder of the fee behind. *)
Theorem escrow_solvent env c t d :
  areach t → call_ok (store t) c →
  escrow d (store t) ≤ held d (store t) ∧
  surplus_step (kind_of env c) (store t) (store (act_exec reporterAddress env c t)).
Proof.
  intros Ht Hc. destruct (areach_ok t Ht) as [Hs Hsol]. split.
  - specialize (Hsol d). unfold surplus in Hsol. lia.
  - by apply act_exec_step.
Qed.

(** C32. In every reachable state every stored action has its id as key, ids are
    the decimal numbers from one to the counter, an open action has no supernode,
    and a done or approved action has exactly one; and the secondary indexes hold
    exactly the keys of the stored actions. *)
Theorem action_store_ok t : areach t → store_ok (store t).
Proof. intros Ht. by apply areach_ok. Qed.

(** In every reachable state the reads through the creator index and through
    the supernode index return exactly the stored actions of that creator, and of
    that supernode, each once. *)
Theorem index_reads_complete t who a :
  areach t →
  (a ∈ GetActionsByCreator who (store t) ↔
     act_actions (store t) !! a_ActionID a = Some a ∧ a_Creator a = who) ∧
  (a ∈ GetActionsBySuperNode who (store t) ↔
     act_actions (store t) !! a_ActionID a = Some a ∧ who ∈ a_SuperNodes a) ∧
  NoDup (GetActionsByCreator who (store t)) ∧ NoDup (GetActionsBySuperNode who (store t)).
Proof.
  intros Ht. destruct (areach_ok t Ht) as [Hs _]. pose proof (store_ok_ids _ Hs) as Hids.
  destruct Hs as (_ & Hm & (_ & Hcr & _ & _ & Hsn) & _).
  assert (∀ id b, act_actions (store t) !! id = Some b → a_ActionID b = id) as Hkey
    by (intros id b Hb; apply (Hm _ _ Hb)).
  split_and!.
  - unfold GetActionsByCreator. rewrite (elem_of_index_read (λ a, [a_Creator a])) by done.
    setoid_rewrite list_elem_of_singleton. split.
    + intros (id & Ha & ->). by rewrite (Hkey _ _ Ha).
    + intros [Ha <-]. eauto.
  - unfold GetActionsBySuperNode. rewrite (elem_of_index_read a_SuperNodes) by done. split.
    + intros (id & Ha & ?). by rewrite (Hkey _ _ Ha).
    + intros [Ha ?]. eauto.
  - by apply NoDup_index_read.
  - by apply NoDup_index_read.
Qed.

(** ** The end blocker closes what is due *)

(** The module account can pay what it holds: to another module, into the community
    pool, and to every account but the blocked ones, the module accounts the
    application bars from receiving.  A payment that is refused is an error, not a
    panic. *)
Section Pays.
Variable blocked : bytes → bool.
Record module_pays : Prop := {
  pays_account b c addr :
    0 ≤ Amount c ≤ GetBalance b ModuleAccountAddress (Denom c) → blocked addr = false →
    (SendCoinsFromModuleToAccount ModuleName addr (NewCoins c) b).1 = Ok tt;
  pays_module b c :
    0 ≤ Amount c ≤ GetBalance b ModuleAccountAddress (Denom c) →
    (SendCoinsFromModuleToModule ModuleName SupernodeModuleName (NewCoins c) b).1 = Ok tt;
  pays_pool b c :
    0 ≤ Amount c ≤ GetBalance b ModuleAccountAddress (Denom c) →
    (FundCommunityPool (NewCoins c) ModuleAccountAddress b).1 = Ok tt;
  refuses_softly b c addr p :
    (SendCoinsFromModuleToAccount ModuleName addr (NewCoins c) b).1 ≠ Err (Panic p)
}.
End Pays.
(** The audit module answers with an error, not with a panic. *)
Definition evidence_never_panics : Prop :=
  ∀ ctx reporter subject id ty top10 au p,
  (CreateEvidence ctx reporter subject id ty top10 au).1 ≠ Err (Panic p).

Section Live.
Variable blocked : bytes → bool.
Hypothesis Hsend : module_pays blocked.
Hypothesis Hevidence : evidence_never_panics.

(** The creator of the action may be paid. *)
Definition refundable a : Prop :=
  ∀ addr, AccAddressFromBech32 (a_Creator a) = Some addr → blocked addr = false.
Definition closed (now : Z) s (id : string) : Prop :=
  ∀ a, act_actions s !! id = Some a → is_open a = true → refundable a → due now a = false.

Lemma price_le_held s id a fee :
  store_ok s → solvent s → act_actions s !! id = Some a → is_open a = true →
  ParseCoinNormalized (a_Price a) = Some fee →
  Amount fee ≤ GetBalance (act_bank s) ModuleAccountAddress (Denom fee).
Proof.
  intros Hs Hsol Ha Ho Hfee. specialize (Hsol (Denom fee)). unfold surplus, escrow, held in Hsol.
  pose proof (map_sum_lookup_le (open_price (Denom fee)) (act_actions s) id a) as Hle.
  assert (open_price (Denom fee) a = Amount fee) as E.
  { unfold open_price, price_in. by rewrite Ho, Hfee, decide_True. }
  rewrite E in Hle. enough (Amount fee ≤ map_sum (open_price (Denom fee)) (act_actions s)) by lia.
  apply Hle; [|done]. intros _ b _. unfold open_price, price_in.
  repeat case_match; try lia. by eapply parse_nonneg.
Qed.

Lemma wp_refund_live id a t :
  store_ok (store t) → solvent (store t) → act_actions (store t) !! id = Some a →
  is_open a = true →
  wp (refund a) t (λ r t', ∃ b, r = Ok b ∧ (refundable a → b = true) ∧
                              act_actions (store t') = act_actions (store t)).
Proof.
  intros Hs Hsol Ha Ho. destruct Hs as (Hc & Hm & Hi & Hp).
  destruct (Hm _ _ Ha) as (_ & _ & _ & [fee Hfee] & (addr & Haddr & _) & _).
  pose proof (price_le_held (store t) id a fee) as Hle.
  unfold refund. rewrite Hfee. wp_step; [wp_step; by exists true|]. rewrite Haddr. do 2 wp_step.
  apply wp_lift. intros r b Hb.
  pose proof (pays_account _ Hsend (act_bank (store t)) fee addr) as Hok.
  pose proof (refuses_softly _ Hsend (act_bank (store t)) fee addr) as Hsoft.
  rewrite Hb in Hok, Hsoft. simpl in Hok, Hsoft.
  assert (refundable a → r = Ok tt) as Hpaid.
  { intros Hr. apply Hok; [split; [by eapply parse_nonneg|by apply Hle]|by apply Hr]. }
  destruct r as [[]|e]; [wp_step; by exists true|].
  assert (¬ refundable a) by (intros ?%Hpaid; done).
  destruct e; try (wp_step; exists false; by split_and!). exfalso. by eapply Hsoft.
Qed.

Lemma wp_for_each_ok {A} (f : A → M act_store unit) l t :
  (∀ x t, wp (f x) t (λ r _, r = Ok tt)) → wp (for_each f l) t (λ r _, r = Ok tt).
Proof.
  intros Hf. revert t. induction l as [|x l IH]; intros t; simpl; [by wp_step|].
  wp_step. eapply wp_mono; [apply Hf|]. intros r t' ->. apply IH.
Qed.

Lemma wp_RecordActionExpired_live env a t :
  wp (RecordActionExpired reporterAddress env a) t (λ r _, r = Ok tt).
Proof.
  unfold RecordActionExpired. wp_step; [by wp_step|]. do 2 wp_step.
  destruct (GetTopSuperNodesForBlock _ _) as [top|]; [|by wp_step].
  apply wp_for_each_ok. clear t. intros sn t. wp_step; [by wp_step|]. do 2 wp_step.
  apply wp_lift. intros r au Hau. pose proof (Hevidence (env_ctx env) reporterAddress
    (SupernodeAccount sn) (a_ActionID a) EVIDENCE_TYPE_ACTION_EXPIRED (ValidatorAddress <$> top)
    (act_audit (store t))) as Hp.
  rewrite Hau in Hp. destruct r as [|[]]; try (by wp_step). exfalso. by eapply Hp.
Qed.

Lemma wp_expire_action_live env now id a t :
  store_ok (store t) → solvent (store t) → act_actions (store t) !! id = Some a →
  a_State a = ActionStatePending →
  wp (expire_action reporterAddress env now a) t (λ r t', r = Ok tt ∧ closed now (store t') id).
Proof.
  intros Hs Hsol Ha Hst. assert (action_ok (act_count (store t)) id a) as Hok by (by apply Hs).
  unfold expire_action. fold (due now a). destruct (due now a) eqn:Hdue.
  2:{ wp_step. split; [done|]. intros a' Ha' _ _. by simplify_eq. }
  wp_step. eapply wp_mono; [apply (wp_refund_live id); [done..|]|].
  { unfold is_open. by rewrite Hst. }
  intros r t1 (paid & -> & Hpaid & Hsame). destruct paid.
  2:{ wp_step. split; [done|]. intros a' Ha' _ Hr. rewrite Hsame, Ha in Ha'. simplify_eq.
      by apply Hpaid in Hr. }
  simpl. wp_step. apply wp_SetAction. wp_step.
  eapply wp_mono; [apply wp_and; [apply wp_RecordActionExpired_live|
    eapply wp_keeps; [apply keeps_RecordActionExpired|apply upto_audit_refl|]]|].
  { intros r t2 Ht2. exact Ht2. }
  intros r t2 [-> [au Hau]]. wp_step. split; [done|]. intros a' Ha' Ho' _. rewrite Hau in Ha'.
  change (act_actions (put_action (set_State a ActionStateExpired) (store t1)) !! id = Some a') in Ha'.
  rewrite put_action_actions in Ha'. simpl in Ha'. rewrite (proj1 Hok), lookup_insert_eq in Ha'.
  by simplify_eq.
Qed.

Lemma wp_expire_all_live env now ids t :
  NoDup ids → store_ok (store t) → solvent (store t) →
  (∀ id a, id ∈ ids → act_actions (store t) !! id = Some a → a_State a = ActionStatePending) →
  wp (for_each (λ id, action ← gets (GetActionByID id);
        match action with
        | None => mret tt
        | Some a => expire_action reporterAddress env now a
        end) ids) t
    (λ r t', r = Ok tt ∧ (∀ id, id ∉ ids → act_actions (store t') !! id = act_actions (store t) !! id) ∧
             ∀ id, id ∈ ids → closed now (store t') id).
Proof.
  intros Hnd. revert t. induction Hnd as [|id ids Hid _ IH]; intros t Hs Hsol Hp; simpl.
  { wp_step. split_and!; [done|done|]. intros id Hid. by apply elem_of_nil in Hid. }
  do 3 wp_step. unfold GetActionByID. destruct (act_actions (store t) !! id) as [a|] eqn:Ha.
  2:{ wp_step. eapply wp_mono; [apply IH; [done|done|]|].
      - intros id' a' Hid'. apply Hp. by right.
      - intros r t' (-> & Hsame & Hcl). split_and!; [done|set_solver|].
        intros id' [->|Hid']%elem_of_cons; [|by apply Hcl]. intros a'. by rewrite Hsame, Ha. }
  assert (a_State a = ActionStatePending) as Hst by (apply (Hp id); [by left|done]).
  eapply wp_mono; [apply wp_and; [by apply (wp_expire_action_live _ _ id)|
                                  by apply (wp_expire_action _ _ _ id)]|].
  intros r t1 ((-> & Hclosed) & Hstep & Hother).
  eapply wp_mono; [apply IH|].
  - apply Hstep.
  - by eapply call_step_solvent.
  - intros id' a' Hid'. rewrite Hother by (by intros ->). apply Hp. by right.
  - intros r t2 (-> & Hsame & Hcl). split_and!; [done| |].
    + intros id' [Hne Hnot]%not_elem_of_cons. rewrite Hsame by done. by apply Hother.
    + intros id' [->|Hid']%elem_of_cons; [|by apply Hcl]. intros a'. rewrite Hsame by done.
      apply Hclosed.
Qed.

Lemma pending_indexed s id a :
  store_ok s → act_actions s !! id = Some a →
  id ∈ index_ids (act_by_state s) (ActionState_String (a_State a) +:+ "/").
Proof.
  intros Hs Ha. pose proof (store_ok_ids s Hs) as Hids. rewrite elem_of_index_ids.
  destruct Hs as (_ & _ & (Hst & _) & _).
  apply (coherent_lookup _ _ _ _ _ Hids Hst); [by eapply Hids|]. exists a. split; [done|].
  by apply list_elem_of_singleton.
Qed.

(** An action that is open after an expiration step has not been touched by it. *)
Lemma expire_step_open now s s' id a :
  call_step (KExpire now) s s' → act_actions s' !! id = Some a → is_open a = true →
  act_actions s !! id = Some a.
Proof.
  intros (_ & Ha & _) Hid Ho. specialize (Ha id). rewrite Hid in Ha.
  destruct (act_actions s !! id) as [b|]; [|by destruct Ha as (? & ? & _)].
  destruct Ha as [->|(_ & _ & _ & -> & _)]; done.
Qed.

Lemma EndBlocker_closes env t id :
  store_ok (store t) → solvent (store t) →
  closed (BlockTime (env_ctx env)) (store (EndBlocker reporterAddress env t).2) id.
Proof.
  intros Hs Hsol. change (wp (EndBlocker reporterAddress env) t
    (λ _ t', closed (BlockTime (env_ctx env)) (store t') id)).
  unfold EndBlocker, CheckExpiration, processExpiredActionsInState, IterateActionsByState.
  set (ids := index_ids (act_by_state (store t)) (ActionState_String ActionStatePending +:+ "/")).
  assert (∀ id a, id ∈ ids → act_actions (store t) !! id = Some a → a_State a = ActionStatePending)
    as Hp by (intros id' a'; by apply index_ids_state).
  do 3 wp_step. eapply wp_mono.
  { apply wp_and; [apply wp_expire_all_live|apply wp_expire_all]; try done;
      apply NoDup_index_ids. }
  intros r t1 ((-> & _ & Hclosed) & Hstep). do 2 wp_step.
  eapply wp_mono; [apply wp_expire_all; [apply NoDup_index_ids|apply Hstep|]|].
  { intros id' a' Hid' Ha'. by apply (processing_none (store t1) id' a'); [apply Hstep|..]. }
  intros r t2 Hstep2 a Ha Ho Hr. simpl in Hstep2.
  assert (act_actions (store t1) !! id = Some a) as Ha1 by (by eapply expire_step_open).
  apply (Hclosed id); [|done..].
  assert (act_actions (store t) !! id = Some a) as Ha0 by (by eapply expire_step_open).
  pose proof (pending_indexed _ _ _ Hs Ha0) as Hin.
  destruct (open_pending a) as [Hst _]; [|done|by rewrite Hst in Hin].
  destruct Hs as (_ & Hm & _). apply (Hm _ _ Ha0).
Qed.
End Live.

(** C20. When the module account can pay what it holds to the accounts that are not
    blocked and the audit module does not panic, no action of a creator that may be
    paid is left open past its deadline: after every end block that a reachable
    state runs, an open action with such a creator is not due, whatever the
    creators of the other actions. *)
Theorem end_block_closes_due blocked env t id a :
  areach t → module_pays blocked → evidence_never_panics →
  act_actions (store (act_exec reporterAddress env ACallEndBlock t)) !! id = Some a →
  is_open a = true →
  (∀ addr, AccAddressFromBech32 (a_Creator a) = Some addr → blocked addr = false) →
  due (BlockTime (env_ctx env)) a = false.
Proof.
  intros Ht Hsend Hev. destruct (areach_ok t Ht). by apply (EndBlocker_closes blocked).
Qed.

(** ** How a fee is split *)

(** [x] of [denom] went from the module account to [to]. *)
Definition paid (to : bytes) (denom : string) (x : Z) s s' : Prop :=
  ∃ b, s' = set_bank b s ∧
    ∀ addr d, GetBalance b addr d = GetBalance (act_bank s) addr d +
      (if decide (d = denom) then (if decide (addr = to) then x else 0)
                                  - (if decide (addr = ModuleAccountAddress) then x else 0) else 0).

Lemma paid_zero to denom s : paid to denom 0 s s.
Proof. exists (act_bank s). split; [by destruct s|]. intros addr d. repeat case_decide; lia. Qed.

Lemma paid_held to denom x s s' d :
  paid to denom x s s' → held d s - (if decide (d = denom) then x else 0) ≤ held d s' ∨ x < 0.
Proof.
  intros (b & -> & Hb). unfold held. simpl. rewrite Hb. repeat case_decide; lia.
Qed.

Lemma wp_on_bank_paid to denom x op t :
  transfer_law ModuleAccountAddress to (NewCoins (mkCoin denom x)) op →
  (op (act_bank (store t))).1 = Ok tt →
  wp (on_bank op) t (λ r t', r = Ok tt ∧ paid to denom x (store t) (store t')).
Proof.
  intros Hop Hok. apply wp_lift. intros r b Hb. rewrite Hb in Hok. simpl in Hok. subst r.
  split; [done|]. specialize (Hop (length_NewCoins _) (act_bank (store t))).
  rewrite Hb in Hop. destruct Hop as [_ Hbal]. exists b. split; [done|]. intros addr d.
  rewrite Hbal, !AmountOf_NewCoins. simpl. repeat case_decide; simplify_eq; lia.
Qed.

(** The shares: a part per ten thousand for the reward pool of the supernode
    module, a decimal part of the rest for the community pool. *)
Definition reward_of s (fee : Coin) : Z :=
  Z.quot (Amount fee * GetRegistrationFeeShareBps (act_sn s)) 10000.
Definition foundation_of s (amount : Z) : Z :=
  if decide (FoundationFeeShare (AGetParams s) = "") then 0 else
  match dec_FromStr (FoundationFeeShare (AGetParams s)) with
  | Some share => Z.quot (amount * dec_raw share) decPrecision
  | None => 0
  end.

Section Split.
Variable blocked : bytes → bool.
Hypothesis Hpay : module_pays blocked.

Lemma wp_reward_paid fee t :
  params_ok (store t) → 0 < Amount fee ≤ held (Denom fee) (store t) →
  wp (send_reward_share fee) t (λ r t', r = Ok (Amount fee - reward_of (store t) fee) ∧
    paid (module_address SupernodeModuleName) (Denom fee) (reward_of (store t) fee)
      (store t) (store t')).
Proof.
  intros [_ Hbps] Hfee. unfold send_reward_share. do 2 wp_step.
  rewrite i64_small by (unfold in_i64; lia). fold (reward_of (store t) fee).
  pose proof (quot_share (Amount fee) (GetRegistrationFeeShareBps (act_sn (store t))) 10000
                ltac:(lia) Hbps ltac:(lia)) as Hq. fold (reward_of (store t) fee) in Hq.
  destruct (Z.ltb_spec 0 (GetRegistrationFeeShareBps (act_sn (store t)))) as [Hpos|Hnone]; simpl.
  2:{ wp_step. assert (reward_of (store t) fee = 0) as ->; [|split; [f_equal; lia|apply paid_zero]].
      unfold reward_of.
      assert (GetRegistrationFeeShareBps (act_sn (store t)) = 0) as -> by lia. by rewrite Z.mul_0_r. }
  rewrite (proj2 (Z.ltb_lt 0 (Amount fee))) by lia.
  destruct (Z.ltb_spec 0 (reward_of (store t) fee)) as [Hp|Hz].
  2:{ wp_step. assert (reward_of (store t) fee = 0) as -> by lia.
      split; [f_equal; lia|apply paid_zero]. }
  unfold NewCoin. rewrite (proj2 (Z.ltb_ge _ _)) by lia. do 3 wp_step.
  eapply wp_mono; [apply (wp_on_bank_paid (module_address SupernodeModuleName) (Denom fee)
                            (reward_of (store t) fee)); [apply send_module_module|]|].
  - apply (pays_module _ Hpay). simpl. unfold held in Hfee. lia.
  - intros r t' [-> Hpd]. by wp_step.
Qed.

Lemma foundation_bounds s amount :
  params_ok s → 0 ≤ amount → 0 ≤ foundation_of s amount ≤ amount.
Proof.
  intros [Hshare _] Ha. unfold foundation_of. case_decide as He; [lia|].
  destruct Hshare as [|(d & -> & Hd)]; [done|]. by apply quot_share.
Qed.

Lemma wp_foundation_paid denom amount t :
  params_ok (store t) → 0 ≤ amount ≤ held denom (store t) →
  wp (send_foundation_share denom amount) t
    (λ r t', r = Ok (amount - foundation_of (store t) amount) ∧
     paid (module_address "distribution") denom (foundation_of (store t) amount)
       (store t) (store t')).
Proof.
  intros Hp Hamount. pose proof (foundation_bounds _ amount Hp ltac:(lia)) as Hb.
  destruct Hp as [Hshare _]. unfold send_foundation_share. do 2 wp_step.
  unfold foundation_of in *. case_decide as Hempty.
  { wp_step. split; [f_equal; lia|apply paid_zero]. }
  destruct Hshare as [|(share & Hparse & Hraw)]; [done|]. rewrite Hparse in *.
  wp_step. wp_step; [|done]. match goal with E : Some share = Some _ |- _ => injection E as <- end.
  destruct (dec_IsZero share) eqn:Hz.
  { wp_step. apply raw_IsZero in Hz. rewrite Hz, Z.mul_0_r, Z.quot_0_l by done. split; [f_equal; lia|].
    apply paid_zero. }
  rewrite raw_TruncateInt, (raw_Mul_exact _ _ (amount * dec_raw share))
    by (rewrite raw_FromInt; lia).
  unfold NewCoin. rewrite (proj2 (Z.ltb_ge _ _)) by lia. do 4 wp_step.
  eapply wp_mono; [apply (wp_on_bank_paid (module_address "distribution") denom
                            (Z.quot (amount * dec_raw share) decPrecision)); [apply fund_pool|]|].
  - apply (pays_pool _ Hpay). simpl. unfold held in Hamount. lia.
  - intros r t' [-> Hpd]. by wp_step.
Qed.

Lemma wp_supernode_paid price fee amount sn addr t :
  ParseCoinNormalized price = Some fee → 0 ≤ amount ≤ Amount fee → amount ≤ MaxInt64 →
  amount ≤ held (Denom fee) (store t) → AccAddressFromBech32 sn = Some addr →
  blocked addr = false →
  wp (pay_supernode (Denom fee) amount 1 sn) t
    (λ r t', r = Ok tt ∧ paid addr (Denom fee) amount (store t) (store t')).
Proof.
  intros Hfee Hamount Hmax Hheld Haddr Hfree. unfold pay_supernode, Int64. wp_step.
  rewrite (proj2 (Z.leb_le _ _)) by lia. rewrite (proj2 (Z.leb_le amount _)) by done. simpl.
  wp_step. rewrite Z.quot_1_r.
  assert ((if (amount =? 0) && (0 <? amount) then 1 else amount) = amount) as ->.
  { destruct (Z.eqb_spec amount 0); simpl; [|done]. by subst. }
  rewrite (parse_print _ _ _ Hfee Hamount), Haddr. wp_step. wp_step; [|done].
  match goal with E : Some addr = Some _ |- _ => injection E as <- end. do 2 wp_step.
  eapply wp_mono; [apply (wp_on_bank_paid addr (Denom fee) amount); [apply send_module_account|]|].
  - apply (pays_account _ Hpay); [|done]. simpl. unfold held in Hheld. lia.
  - intros r t' [-> Hpd]. by wp_step.
Qed.
End Split.


(** ** Registration of a sense action *)
Definition price_accepted s a (fee : Coin) (creator : bytes) : Prop :=
  ParseCoinNormalized (a_Price a) = Some fee ∧
  Amount (FeePerKbyte (AGetParams s)) + Amount (BaseActionFee (AGetParams s)) ≤ Amount fee ∧
  AccAddressFromBech32 (a_Creator a) = Some creator ∧
  Coins_IsZero (SpendableCoins (act_bank s) creator) = false ∧
  IsAllGTE1 (SpendableCoins (act_bank s) creator) fee = true ∧
  (SendCoinsFromAccountToModule creator ModuleName (NewCoins fee) (act_bank s)).1 = Ok tt.

(** A refused registration: some condition fails. *)
Ltac reject := split; [split; [by intros [? ?]|]; intros (fee' & cr' & ?); destruct_and!;
  simplify_eq; simpl in *; try (by congruence || lia)|by intros ? ?].

(** A sense action with metadata is registered exactly when its price parses,
    its amount reaches the sum of the base fee and of the fee of one kilobyte, and
    the creator can spend it; then it is stored as pending under the next id.
    Neither the denomination of the price nor the size of the file is compared
    with the fee parameters. *)
Theorem sense_registration_iff env info a md t :
  a_ActionID a = "" → a_State a = ActionStatePending → a_ActionType a = ActionTypeSense →
  a_Metadata a = Some md →
  let '(r, t') := RegisterAction env info a t in
  let id := FormatInt (u64 (act_count (store t) + 1)) in
  ((∃ id', r = Ok id') ↔ ∃ fee creator, price_accepted (store t) a fee creator) ∧
  (∀ id', r = Ok id' → id' = id ∧
     act_actions (store t') = <[id := set_identity a id (BlockHeight (env_ctx env))]>
                                (act_actions (store t))).
Proof.
  intros Hid Hst Hty Hmd.
  enough (wp (RegisterAction env info a) t (λ r t',
    let id := FormatInt (u64 (act_count (store t) + 1)) in
    ((∃ id', r = Ok id') ↔ ∃ fee creator, price_accepted (store t) a fee creator) ∧
    (∀ id', r = Ok id' → id' = id ∧
       act_actions (store t') = <[id := set_identity a id (BlockHeight (env_ctx env))]>
                                  (act_actions (store t))))) as Hwp
    by (unfold wp in Hwp; by destruct (RegisterAction env info a t)).
  unfold RegisterAction, validatePrice, price_accepted.
  rewrite (bool_decide_true (a_ActionID a = "")) by done.
  do 2 wp_step; [|done]. do 2 wp_step; [|reject]. do 2 wp_step.
  destruct (Z.ltb_spec (Amount a0) (Amount (FeePerKbyte (AGetParams (store t))) +
    Amount (BaseActionFee (AGetParams (store t))))) as [Hlt|Hge]; do 2 wp_step; try done; [reject|].
  do 2 wp_step; [|reject]. do 2 wp_step.
  do 2 wp_step; [rename select (negb _ = true) into Hz; apply negb_true_iff in Hz|
                 rename select (negb _ = false) into Hz; apply negb_false_iff in Hz; reject].
  do 2 wp_step; [|reject]. do 4 wp_step. unfold getLastActionID.
  set (id := FormatInt (u64 (act_count (store t) + 1))).
  set (a' := set_identity a id (BlockHeight (env_ctx env))).
  rewrite (decide_False (P := a_State a' = ActionStateUnspecified)) by (simpl; by rewrite Hst).
  rewrite (bool_decide_true (a_State a' = ActionStatePending)) by done.
  change (a_ActionType a') with (a_ActionType a). rewrite Hty.
  do 2 wp_step; [|done]. do 3 wp_step; [|done]. rename select (GetHandler _ = _) into Hh. injection Hh as <-.
  unfold handler_RegisterAction, Sense_RegisterAction. change (a_Metadata a') with (a_Metadata a).
  rewrite Hmd. do 4 wp_step; [|done]. do 2 wp_step. apply wp_SetAction. do 2 wp_step.
  apply wp_lift. intros r b Hb. cbn [store] in Hb. rewrite put_action_bank in Hb. simpl in Hb.
  destruct r as [[]|e].
  - do 2 wp_step. split.
    + split; [intros _|eauto]. eexists _, _. split_and!; [done|done|done|done|done|]. by rewrite Hb.
    + intros id' [= <-]. split; [done|]. simpl. by rewrite put_action_actions.
  - split; [|by intros ? ?]. split; [by intros [? ?]|]. intros (fee' & cr' & ?). destruct_and!.
    simplify_eq. rename select ((SendCoinsFromAccountToModule _ _ _ _).1 = _) into Hsend.
    by rewrite Hb in Hsend.
Qed.

(** ** The metadata of a finalized sense action *)
Lemma keeps_on_bank_actions {A} m (op : bank → result A * bank) :
  keeps (λ s, act_actions s = m) (on_bank op).
Proof. intros t Ht. unfold on_bank, lift. by destruct (op _). Qed.
Lemma keeps_DistributeFees m id : keeps (λ s, act_actions s = m) (DistributeFees id).
Proof.
  unfold DistributeFees, send_reward_share, send_foundation_share, pay_supernode, NewCoin, Int64.
  keeps_steps; apply keeps_on_bank_actions.
Qed.

Lemma wp_FinalizeAction_sense env id account metadata a t :
  store_ok (store t) → act_actions (store t) !! id = Some a → a_ActionType a = ActionTypeSense →
  wp (FinalizeAction reporterAddress env id account metadata) t
    (on_ok (λ _ s', ∀ a', act_actions s' !! id = Some a' → a_State a' = ActionStateDone →
                    a_Metadata a' = None)).
Proof.
  intros Hs Ha Hty. assert (action_ok (act_count (store t)) id a) as Hok by (by apply Hs).
  unfold FinalizeAction, GetActionByID. do 3 wp_step. rewrite Ha. wp_step; [|done].
  match goal with E : Some a = Some _ |- _ => injection E as <- end.
  do 2 wp_step; [|done]. rename select (bool_decide _ = true) into Ho.
  destruct (open_pending a) as [Hst _]; [apply Hok|done|].
  do 4 wp_step; [|done].
  match goal with E : _ = Ok ?v |- _ => destruct v as [[reason|] top10] end.
  { rewrite decide_False by (by rewrite Hty). by wp_step. }
  rewrite Hty. do 3 wp_step; [|done].
  match goal with E : GetHandler _ = Ok _ |- _ => injection E as <- end. wp_step.
  eapply wp_mono; [apply handled_handler_FinalizeAction|].
  intros [[st a']|] t1; [|done]. intros [[-> ->]|(-> & Hsame & Hsn)].
  - wp_step. rewrite decide_True by done. do 3 wp_step. apply wp_SetAction. rewrite Hst. simpl.
    wp_step. intros b Hb Hdone. simpl in Hb.
    rewrite put_action_actions, (proj1 Hok), lookup_insert_eq in Hb. simplify_eq. congruence.
  - wp_step. rewrite decide_False by done.
    unfold handler_GetUpdatedMetadata, Sense_GetUpdatedMetadata. do 5 wp_step. apply wp_SetAction. simpl.
    unfold record_artifact_counts.
    rewrite decide_False by (simpl; destruct Hsame as (_ & _ & -> & _); by rewrite Hty).
    do 4 wp_step. eapply wp_keeps; [apply keeps_DistributeFees|reflexivity|].
    intros [[]|] t2 E2; simpl; [|done]. intros b Hb _. rewrite E2 in Hb.
    simpl in Hb. rewrite put_action_actions in Hb. simpl in Hb.
    destruct Hsame as (_ & Hid & _). rewrite Hid, (proj1 Hok), lookup_insert_eq in Hb. by simplify_eq.
Qed.

(** A sense action that a finalization closes has no metadata left: the
    handler returns none, and it replaces the metadata of the request. *)
Theorem sense_metadata_dropped env msg t a a' :
  areach t → act_actions (store t) !! fa_ActionId msg = Some a →
  a_ActionType a = ActionTypeSense → a_State a = ActionStatePending →
  act_actions (store (act_exec reporterAddress env (ACallFinalize msg) t)) !! fa_ActionId msg
    = Some a' →
  a_State a' = ActionStateDone → a_Metadata a' = None.
Proof.
  intros Ht Ha Hty Hst Ha' Hdone. destruct (areach_ok t Ht) as [Hs _]. revert a' Ha' Hdone.
  simpl. destruct (is_ok _); [|intros; simplify_eq; congruence].
  apply (wp_run_tx (Msg_FinalizeAction reporterAddress env msg) t (λ t', ∀ a',
    act_actions (store t') !! fa_ActionId msg = Some a' → a_State a' = ActionStateDone →
    a_Metadata a' = None)); [|intros; simplify_eq; congruence].
  unfold Msg_FinalizeAction. do 3 wp_step; [|done]. do 3 wp_step; [|done]. wp_step.
  eapply wp_mono; [by apply (wp_FinalizeAction_sense _ _ _ _ a)|]. by intros [].
Qed.
End Thm.
