(* ===== verification/ActionExamples.v ===== *)
(** * A run of the action module

    A chain with one supernode, one funded account, a table-driven metadata codec
    and an audit module that only counts: the hypotheses of the theorems about
    the action module hold on it. *)
From Stdlib Require Import ZArith Lia Ascii.
From stdpp Require Import base numbers strings list gmap sets.
From S2P Require Import Prelude Sdk Float Bank SupernodeTypes Supernode SupernodeThm SupernodeRank.
From S2P Require Import ActionTypes Merkle Svc ActionStore ActionKeeper ActionMsg ActionIndex.
From S2P Require Import ActionInv ActionThm.
Import Sdk.Concrete Bank.Ledger.
Open Scope Z_scope.

(** ** The parameters *)
Definition signatures : string := "data.sig1.sig2.sig3".

#[export] Instance no_compression : KademliaLibs := {
  zstd_CompressLevel3 b := Ok b;
  base58_Encode := bytes_string
}.
#[export] Instance no_pubkeys : PubKeys := { PubKey := unit }.
#[export] Instance counting_audit : AuditKeeper := {
  audit := Z;
  CreateEvidence _ _ _ _ _ _ n := (Ok (n + 1), n + 1);
  SetStorageTruthTicketArtifactCounts _ _ _ _ n := (Ok tt, n)
}.
#[export] Instance trusting_crypto : ActionCrypto := { VerifySignature _ _ _ _ _ := Ok tt }.

Definition kademlia_ids (n : nat) : list string :=
  omap (λ i, match CreateKademliaID signatures (u64 (1 + Z.of_nat i)) with
             | Ok id => Some id | Err _ => None end) (seq 0 n).

Definition sense_request : SenseMetadata := mkSense "hash" 1 "" "" 0 [] "".
Definition sense_stored : SenseMetadata := mkSense "hash" 1 "" "" 50 [] "".
Definition sense_final : SenseMetadata := mkSense "" 0 "" "" 0 (kademlia_ids 50) signatures.

(** Four chunks, and the commitment to them. *)
Definition chunks : list bytes := [[1; 2]; [3; 4]; [5; 6]; [7]].
Definition chunk_tree : Tree :=
  match BuildTree chunks with Ok t => t | Err _ => {| Root := []; Leaves := []; Levels := []; LeafCount := 0 |} end.
Definition commitment : AvailabilityCommitment :=
  mkCommitment cascadeCommitmentType HASH_ALGO_BLAKE3 2 7 4 (Root chunk_tree) [0; 3].
Definition cascade_stored : CascadeMetadata :=
  mkCascade "hash" "file" 1 50 [] signatures false (Some commitment) [] 0 0.

#[export] Instance table_codec : MetadataCodec := {
  cascade_Unmarshal b := if decide (b = [3]) then Some cascade_stored else None;
  cascade_Marshal _ := Some [3];
  sense_Unmarshal b :=
    if decide (b = [1]) then Some sense_stored else
    if decide (b = [2]) then Some sense_final else None;
  sense_Marshal m := if decide (sm_DdAndFingerprintsIds m = []) then Some [1] else Some [2];
  jsonpb_cascade _ := None;
  jsonpb_sense s :=
    if decide (s = "request") then Some sense_request else
    if decide (s = "final") then Some sense_final else None;
  json_cascade _ := None;
  json_sense s :=
    if decide (s = "request") then Some sense_request else
    if decide (s = "final") then Some sense_final else None
}.

(** ** The run *)
Definition env_at (height time : Z) : Env :=
  {| env_ctx := ctx_at height time;
     env_GetAccount _ := Some {| acct_PubKey := None; acct_owner := None |};
     env_draw _ := 7 |}.
Definition alice : bytes := string_bytes "lice".
Definition funds : bank := {[ (alice, "ulume") := 1000000%N ]}.
Definition act0 : st act_store :=
  St (ActStore ∅ 0 ∅ ∅ ∅ ∅ ∅ None funds (store SupernodeThm.Examples.st1) 0) [].

Definition request : MsgRequestAction :=
  {| ra_Creator := "alice"; ra_ActionType := "SENSE"; ra_Metadata := "request";
     ra_Price := "20000ulume"; ra_ExpirationTime := "100000"; ra_FileSizeKbs := "123";
     ra_AppPubkey := [] |}.
Definition finalize : MsgFinalizeAction :=
  {| fa_Creator := "asn1"; fa_ActionId := "1"; fa_ActionType := "SENSE"; fa_Metadata := "final" |}.
Definition approve : MsgApproveAction := {| aa_Creator := "alice"; aa_ActionId := "1" |}.

Definition exec (height time : Z) (c : act_call) (t : st act_store) : st act_store :=
  act_exec "amodule" (env_at height time) c t.
Definition act1 : st act_store := exec 6 0 (ACallRequest request) act0.
Definition act2 : st act_store := exec 7 10 (ACallFinalize finalize) act1.
Definition act3 : st act_store := exec 8 20 (ACallApprove approve) act2.
Definition expired1 : st act_store := exec 9 200000 ACallEndBlock act1.

Definition state_of (t : st act_store) (id : string) : option ActionState :=
  a_State <$> act_actions (store t) !! id.
Lemma run_states :
  state_of act1 "1" = Some ActionStatePending ∧ state_of act2 "1" = Some ActionStateDone ∧
  state_of act3 "1" = Some ActionStateApproved ∧ state_of expired1 "1" = Some ActionStateExpired.
Proof. vm_compute. auto. Qed.

(** ** Reachability of the run *)
Lemma params_ok_any s : act_params s = None → act_sn s = store SupernodeThm.Examples.st1 → params_ok s.
Proof.
  intros Hp Hsn. unfold params_ok, AGetParams, GetRegistrationFeeShareBps. rewrite Hp, Hsn.
  split; [right|vm_compute; split; discriminate]. exists (0 : @Dec dec).
  split; [reflexivity|vm_compute; split; discriminate].
Qed.
Lemma act0_reach : areach "amodule" act0.
Proof. apply areach_init; [done|by apply params_ok_any]. Qed.
Lemma request_ok : call_ok (store act0) (ACallRequest request).
Proof. split; [by vm_compute|]. intros addr. vm_compute. by injection 1 as <-. Qed.
Lemma act1_reach : areach "amodule" act1.
Proof. apply areach_call; [apply act0_reach|apply request_ok]. Qed.
Lemma act2_reach : areach "amodule" act2.
Proof. by apply areach_call; [apply act1_reach|]. Qed.

(** The module accounts of the fee pools are blocked. *)
Definition blocked (addr : bytes) : bool :=
  bool_decide (addr = module_address "distribution") || bool_decide (addr = ModuleAccountAddress).
Lemma ledger_pays : module_pays blocked.
Proof.
  split; intros b c; [intros addr|..].
  1-3: intros Hc; unfold NewCoins, ModuleAccountAddress in *; simpl in *;
    destruct (Z.eqb_spec (Amount c) 0) as [Hz|Hz]; simpl; [done|];
    by rewrite (proj2 (Z.leb_le 0 _)), (proj2 (Z.leb_le (Amount c) _)) by lia.
  intros addr p. unfold NewCoins. simpl. destruct (Amount c =? 0); simpl; [done|]. by case_match.
Qed.
Lemma audit_answers : evidence_never_panics.
Proof. done. Qed.

(** ** Instances of the theorems *)
Lemma action_lifecycle_witness :
  actions_step (store act1) (KFinalize "1" "asn1") (act_actions (store act1)) (act_actions (store act2)) ∧
  state_of act2 "1" = Some ActionStateDone.
Proof.
  split; [|vm_compute; reflexivity].
  apply (action_lifecycle "amodule" (env_at 7 10) (ACallFinalize finalize) act1 act1_reach I).
Defined.

Lemma escrow_solvent_witness :
  escrow "ulume" (store act1) = 20000 ∧ escrow "ulume" (store act1) ≤ held "ulume" (store act1).
Proof.
  split; [vm_compute; reflexivity|].
  apply (escrow_solvent "amodule" (env_at 9 200000) ACallEndBlock act1 "ulume" act1_reach I).
Defined.

Lemma action_store_ok_witness : store_ok (store act2).
Proof. apply (action_store_ok "amodule" act2 act2_reach). Defined.

Lemma index_reads_complete_witness :
  NoDup (GetActionsBySuperNode "asn1" (store act2)) ∧
  length (GetActionsBySuperNode "asn1" (store act2)) = 1%nat.
Proof.
  split; [|vm_compute; reflexivity].
  destruct (act_actions (store act2) !! "1") as [a|] eqn:E; [|vm_compute in E; discriminate].
  apply (index_reads_complete "amodule" act2 "asn1" a act2_reach).
Defined.

Lemma end_block_closes_due_witness :
  (∃ a, act_actions (store (exec 9 50 ACallEndBlock act1)) !! "1" = Some a ∧ is_open a = true ∧
        due 50 a = false) ∧
  state_of expired1 "1" = Some ActionStateExpired.
Proof.
  split; [|vm_compute; reflexivity].
  destruct (act_actions (store (exec 9 50 ACallEndBlock act1)) !! "1") as [a|] eqn:Ha;
    [|vm_compute in Ha; discriminate].
  assert (a_Creator a = "alice" ∧ is_open a = true) as [Hc Ho]
    by (vm_compute in Ha; injection Ha as <-; split; reflexivity).
  exists a. split; [reflexivity|]. split; [exact Ho|].
  apply (end_block_closes_due "amodule" blocked (env_at 9 50) act1 "1" a act1_reach ledger_pays audit_answers Ha Ho).
  rewrite Hc. intros addr E. vm_compute in E. injection E as <-. vm_compute. reflexivity.
Defined.

(** A done action of one supernode, with its price in the module account. *)
Definition done_action : Action :=
  mkAction "alice" "1" ActionTypeSense None "20000ulume" 100000 ActionStateDone 6 ["asn1"] 123 [].
Definition done_state : st act_store :=
  St (ActStore {["1" := done_action]} 1 ∅ ∅ ∅ ∅ ∅ None
        {[ (module_address ModuleName, "ulume") := 20000%N ]} (store SupernodeThm.Examples.st1) 0) [].


Lemma sense_registration_iff_witness :
  ∃ id', (RegisterAction (env_at 6 0) None
            (mkAction "alice" "" ActionTypeSense (Some [1]) "20000ulume" 100000 ActionStatePending 0 [] 5 [])
            act0).1 = Ok id' ∧ id' = "1".
Proof.
  pose proof (sense_registration_iff (env_at 6 0) None
    (mkAction "alice" "" ActionTypeSense (Some [1]) "20000ulume" 100000 ActionStatePending 0 [] 5 [])
    [1] act0 eq_refl eq_refl eq_refl eq_refl) as H.
  destruct (RegisterAction _ _ _ _) as [r t'] eqn:E. simpl. destruct H as [Hiff Hok].
  destruct (proj2 Hiff) as [id' ->].
  - exists (mkCoin "ulume" 20000), alice. repeat split; vm_compute; try reflexivity; discriminate.
  - exists id'. split; [reflexivity|]. destruct (Hok id' eq_refl) as [-> _]. vm_compute. reflexivity.
Defined.

Lemma sense_metadata_dropped_witness :
  ∃ a', act_actions (store act2) !! "1" = Some a' ∧ a_Metadata a' = None.
Proof.
  destruct (act_actions (store act1) !! "1") as [a|] eqn:E; [|vm_compute in E; discriminate].
  destruct (act_actions (store act2) !! "1") as [a'|] eqn:E'; [|vm_compute in E'; discriminate].
  exists a'. split; [reflexivity|].
  apply (sense_metadata_dropped "amodule" (env_at 7 10) finalize act1 a a' act1_reach E).
  - vm_compute in E. injection E as <-. reflexivity.
  - vm_compute in E. injection E as <-. reflexivity.
  - exact E'.
  - vm_compute in E'. injection E' as <-. reflexivity.
Defined.

(** ** Commitments and proofs *)
Definition cascade_action : Action :=
  mkAction "alice" "1" ActionTypeCascade (Some [3]) "20000ulume" 100000 ActionStatePending 6 [] 123 [].

Lemma cascade_decodes :
  cascade_Unmarshal (default [] (a_Metadata cascade_action)) = Some cascade_stored.
Proof. vm_compute. reflexivity. Qed.
Lemma tree_built : BuildTree chunks = Ok chunk_tree.
Proof. vm_compute. reflexivity. Qed.

Lemma commitment_accepted_iff_witness :
  validateAvailabilityCommitment (Some commitment) 2 4 = Ok tt ↔ commitment_ok commitment 2 4.
Proof.
  apply (commitment_accepted_iff commitment 2 4).
  - repeat split; vm_compute; try reflexivity; discriminate.
  - split; vm_compute; [discriminate|reflexivity].
  - split; vm_compute; [discriminate|reflexivity].
  - vm_compute. discriminate.
  - vm_compute. reflexivity.
Defined.

Lemma forged_chunk_proofs_accepted_witness :
  (VerifyChunkProofs cascade_action "asn1"
     ((λ i, Some (mkChunkProof i (ac_Root commitment) [] [])) <$> ac_ChallengeIndices commitment)
     act0).1 = Ok tt.
Proof.
  rewrite (forged_chunk_proofs_accepted cascade_action "asn1" cascade_stored commitment act0
             cascade_decodes eq_refl ltac:(discriminate) ltac:(vm_compute; reflexivity)).
  reflexivity.
Defined.

Lemma honest_chunk_proofs_accepted_witness :
  (VerifyChunkProofs cascade_action "asn1"
     (honest_proofs chunk_tree (ac_ChallengeIndices commitment)) act0).1 = Ok tt.
Proof.
  rewrite (honest_chunk_proofs_accepted cascade_action "asn1" cascade_stored commitment chunks chunk_tree
             act0 cascade_decodes eq_refl ltac:(discriminate) tree_built eq_refl
             ltac:(vm_compute; discriminate)).
  - reflexivity.
  - repeat constructor; vm_compute; congruence.
Defined.

Lemma kademlia_check_diverges_witness :
  ∃ ids, VerifyKademliaIDs (λ _, 0) ids signatures 1 2 = Ok tt ∧
         VerifyKademliaIDs (λ _, 1) ids signatures 1 2 = Err ErrInvalidID.
Proof.
  destruct (CreateKademliaID signatures 1) as [good|] eqn:E; [|vm_compute in E; discriminate].
  destruct (CreateKademliaID signatures 2) as [wanted|] eqn:E2; [|vm_compute in E2; discriminate].
  exists [good; "x"%string].
  apply (kademlia_check_diverges [good; "x"%string] signatures 1 2 0 1 good "x" good wanted);
    [|reflexivity|reflexivity|exact E|reflexivity|exact E2|].
  - vm_compute in E. injection E as <-. repeat constructor; discriminate.
  - vm_compute in E2. injection E2 as <-. discriminate.
Defined.
