(* ===== verification/AuditParam.v ===== *)
(** * x/audit/v1/types/params.go: the parameters of the audit module

    The record of the parameters, their defaults, [WithDefaults] and [Validate].
    Zero means "unset" to [WithDefaults]; [Validate] does not fill anything in. *)
From Stdlib Require Import ZArith Lia.
From stdpp Require Import base numbers strings list sorting.
From S2P Require Import Prelude.
Open Scope Z_scope.

(** A protobuf enum decodes any number: the last constructor holds the values
    that have no name. *)
Inductive EnforcementMode : Set :=
| STORAGE_TRUTH_ENFORCEMENT_MODE_UNSPECIFIED
| STORAGE_TRUTH_ENFORCEMENT_MODE_SHADOW
| STORAGE_TRUTH_ENFORCEMENT_MODE_SOFT
| STORAGE_TRUTH_ENFORCEMENT_MODE_FULL
| STORAGE_TRUTH_ENFORCEMENT_MODE_UNKNOWN (z : Z).
#[export] Instance EnforcementMode_eq_dec : EqDecision EnforcementMode.
Proof. solve_decision. Defined.

Record AuditParams := mkAuditParams {
  EpochLengthBlocks : Z;
  EpochZeroHeight : Z;
  PeerQuorumReports : Z;
  MinProbeTargetsPerEpoch : Z;
  MaxProbeTargetsPerEpoch : Z;
  au_RequiredOpenPorts : list Z;
  MinCpuFreePercent : Z;
  MinMemFreePercent : Z;
  MinDiskFreePercent : Z;
  ConsecutiveEpochsToPostpone : Z;
  KeepLastEpochEntries : Z;
  PeerPortPostponeThresholdPercent : Z;
  ActionFinalizationSignatureFailureEvidencesPerEpoch : Z;
  ActionFinalizationSignatureFailureConsecutiveEpochs : Z;
  ActionFinalizationNotInTop10EvidencesPerEpoch : Z;
  ActionFinalizationNotInTop10ConsecutiveEpochs : Z;
  ActionFinalizationRecoveryEpochs : Z;
  ActionFinalizationRecoveryMaxTotalBadEvidences : Z;
  ScEnabled : bool;
  ScChallengersPerEpoch : Z;
  StorageTruthRecentBucketMaxBlocks : Z;
  StorageTruthOldBucketMinBlocks : Z;
  StorageTruthChallengeTargetDivisor : Z;
  StorageTruthCompoundRangesPerArtifact : Z;
  StorageTruthCompoundRangeLenBytes : Z;
  StorageTruthMaxSelfHealOpsPerEpoch : Z;
  StorageTruthProbationEpochs : Z;
  StorageTruthNodeSuspicionDecayPerEpoch : Z;
  StorageTruthReporterReliabilityDecayPerEpoch : Z;
  StorageTruthTicketDeteriorationDecayPerEpoch : Z;
  StorageTruthNodeSuspicionThresholdWatch : Z;
  StorageTruthNodeSuspicionThresholdProbation : Z;
  StorageTruthNodeSuspicionThresholdPostpone : Z;
  StorageTruthReporterReliabilityLowTrustThreshold : Z;
  StorageTruthReporterReliabilityIneligibleThreshold : Z;
  StorageTruthTicketDeteriorationHealThreshold : Z;
  StorageTruthEnforcementMode : EnforcementMode;
  StorageTruthReporterReliabilityDegradedThreshold : Z;
  StorageTruthPatternEscalationWindow : Z;
  StorageTruthDivergenceWindowEpochs : Z;
  StorageTruthReporterMinReportsForDivergence : Z;
  StorageTruthNodeSuspicionThresholdStrongPostpone : Z;
  StorageTruthRecoveryCleanPassCount : Z;
  StorageTruthClassAFaultWindow : Z;
  StorageTruthClassBFaultWindow : Z;
  StorageTruthHealDeadlineEpochs : Z;
  StorageTruthOldClassAFaultWindow : Z;
  StorageTruthContradictionWindowEpochs : Z;
  StorageTruthReporterIneligibleDurationEpochs : Z;
  StorageTruthStrongRecoveryCleanPassCount : Z;
  StorageTruthHealVerifierCount : Z
}.


(** ** Defaults *)
Definition bucket_span (multiplier epochLengthBlocks : Z) : Z :=
  if epochLengthBlocks =? 0 then 0 else
  if MaxUint64 / multiplier <? epochLengthBlocks then MaxUint64
  else epochLengthBlocks * multiplier.
Definition storageTruthRecentBucketMaxBlocksForEpochSpan : Z → Z := bucket_span 3.
Definition storageTruthOldBucketMinBlocksForEpochSpan : Z → Z := bucket_span 30.

Definition DefaultEpochLengthBlocks : Z := 400.
Definition DefaultEpochZeroHeight : Z := 1.
Definition DefaultPeerQuorumReports : Z := 3.
Definition DefaultMinProbeTargetsPerEpoch : Z := 3.
Definition DefaultMaxProbeTargetsPerEpoch : Z := 5.
Definition DefaultRequiredOpenPorts : list Z := [4444; 4445; 8002].
Definition DefaultMinCpuFreePercent : Z := 0.
Definition DefaultMinMemFreePercent : Z := 0.
Definition DefaultMinDiskFreePercent : Z := 0.
Definition DefaultConsecutiveEpochsToPostpone : Z := 1.
Definition DefaultKeepLastEpochEntries : Z := 200.
Definition DefaultPeerPortPostponeThresholdPercent : Z := 100.
Definition DefaultActionFinalizationSignatureFailureEvidencesPerEpoch : Z := 1.
Definition DefaultActionFinalizationSignatureFailureConsecutiveEpochs : Z := 1.
Definition DefaultActionFinalizationNotInTop10EvidencesPerEpoch : Z := 1.
Definition DefaultActionFinalizationNotInTop10ConsecutiveEpochs : Z := 1.
Definition DefaultActionFinalizationRecoveryEpochs : Z := 1.
Definition DefaultActionFinalizationRecoveryMaxTotalBadEvidences : Z := 1.
Definition DefaultScEnabled : bool := true.
Definition DefaultScChallengersPerEpoch : Z := 0.
Definition DefaultStorageTruthRecentBucketMaxBlocks : Z := DefaultEpochLengthBlocks * 3.
Definition DefaultStorageTruthOldBucketMinBlocks : Z := DefaultEpochLengthBlocks * 30.
Definition DefaultStorageTruthChallengeTargetDivisor : Z := 3.
Definition DefaultStorageTruthCompoundRangesPerArtifact : Z := 4.
Definition DefaultStorageTruthCompoundRangeLenBytes : Z := 256.
Definition DefaultStorageTruthMaxSelfHealOpsPerEpoch : Z := 5.
Definition DefaultStorageTruthProbationEpochs : Z := 3.
Definition DefaultStorageTruthNodeSuspicionDecayPerEpoch : Z := 920.
Definition DefaultStorageTruthReporterReliabilityDecayPerEpoch : Z := 900.
Definition DefaultStorageTruthTicketDeteriorationDecayPerEpoch : Z := 900.
Definition DefaultStorageTruthNodeSuspicionThresholdWatch : Z := 20.
Definition DefaultStorageTruthNodeSuspicionThresholdProbation : Z := 50.
Definition DefaultStorageTruthNodeSuspicionThresholdPostpone : Z := 90.
Definition DefaultStorageTruthReporterReliabilityLowTrustThreshold : Z := 20.
Definition DefaultStorageTruthReporterReliabilityIneligibleThreshold : Z := 90.
Definition DefaultStorageTruthTicketDeteriorationHealThreshold : Z := 50.
Definition DefaultStorageTruthEnforcementMode : EnforcementMode :=
  STORAGE_TRUTH_ENFORCEMENT_MODE_SHADOW.
Definition DefaultStorageTruthReporterReliabilityDegradedThreshold : Z := 50.
Definition DefaultStorageTruthPatternEscalationWindow : Z := 14.
Definition DefaultStorageTruthDivergenceWindowEpochs : Z := 14.
Definition DefaultStorageTruthReporterMinReportsForDivergence : Z := 5.
Definition DefaultStorageTruthNodeSuspicionThresholdStrongPostpone : Z := 140.
Definition DefaultStorageTruthRecoveryCleanPassCount : Z := 3.
Definition DefaultStorageTruthStrongRecoveryCleanPassCount : Z := 5.
Definition DefaultStorageTruthHealVerifierCount : Z := 2.
Definition DefaultStorageTruthClassAFaultWindow : Z := 14.
Definition DefaultStorageTruthClassBFaultWindow : Z := 7.
Definition DefaultStorageTruthHealDeadlineEpochs : Z := 3.
Definition DefaultStorageTruthOldClassAFaultWindow : Z := 21.
Definition DefaultStorageTruthContradictionWindowEpochs : Z := 7.
Definition DefaultStorageTruthReporterIneligibleDurationEpochs : Z := 7.


Definition AuditDefaultParams : AuditParams :=
  mkAuditParams
    DefaultEpochLengthBlocks
    DefaultEpochZeroHeight
    DefaultPeerQuorumReports
    DefaultMinProbeTargetsPerEpoch
    DefaultMaxProbeTargetsPerEpoch
    DefaultRequiredOpenPorts
    DefaultMinCpuFreePercent
    DefaultMinMemFreePercent
    DefaultMinDiskFreePercent
    DefaultConsecutiveEpochsToPostpone
    DefaultKeepLastEpochEntries
    DefaultPeerPortPostponeThresholdPercent
    DefaultActionFinalizationSignatureFailureEvidencesPerEpoch
    DefaultActionFinalizationSignatureFailureConsecutiveEpochs
    DefaultActionFinalizationNotInTop10EvidencesPerEpoch
    DefaultActionFinalizationNotInTop10ConsecutiveEpochs
    DefaultActionFinalizationRecoveryEpochs
    DefaultActionFinalizationRecoveryMaxTotalBadEvidences
    DefaultScEnabled
    DefaultScChallengersPerEpoch
    (storageTruthRecentBucketMaxBlocksForEpochSpan DefaultEpochLengthBlocks)
    (storageTruthOldBucketMinBlocksForEpochSpan DefaultEpochLengthBlocks)
    DefaultStorageTruthChallengeTargetDivisor
    DefaultStorageTruthCompoundRangesPerArtifact
    DefaultStorageTruthCompoundRangeLenBytes
    DefaultStorageTruthMaxSelfHealOpsPerEpoch
    DefaultStorageTruthProbationEpochs
    DefaultStorageTruthNodeSuspicionDecayPerEpoch
    DefaultStorageTruthReporterReliabilityDecayPerEpoch
    DefaultStorageTruthTicketDeteriorationDecayPerEpoch
    DefaultStorageTruthNodeSuspicionThresholdWatch
    DefaultStorageTruthNodeSuspicionThresholdProbation
    DefaultStorageTruthNodeSuspicionThresholdPostpone
    DefaultStorageTruthReporterReliabilityLowTrustThreshold
    DefaultStorageTruthReporterReliabilityIneligibleThreshold
    DefaultStorageTruthTicketDeteriorationHealThreshold
    DefaultStorageTruthEnforcementMode
    DefaultStorageTruthReporterReliabilityDegradedThreshold
    DefaultStorageTruthPatternEscalationWindow
    DefaultStorageTruthDivergenceWindowEpochs
    DefaultStorageTruthReporterMinReportsForDivergence
    DefaultStorageTruthNodeSuspicionThresholdStrongPostpone
    DefaultStorageTruthRecoveryCleanPassCount
    DefaultStorageTruthClassAFaultWindow
    DefaultStorageTruthClassBFaultWindow
    DefaultStorageTruthHealDeadlineEpochs
    DefaultStorageTruthOldClassAFaultWindow
    DefaultStorageTruthContradictionWindowEpochs
    DefaultStorageTruthReporterIneligibleDurationEpochs
    DefaultStorageTruthStrongRecoveryCleanPassCount
    DefaultStorageTruthHealVerifierCount.

(** [if p.F == 0 { p.F = def }] *)
Definition or_default (z def : Z) : Z := if z =? 0 then def else z.

Definition AuditParams_WithDefaults (p : AuditParams) : AuditParams :=
  mkAuditParams
    (or_default (EpochLengthBlocks p) DefaultEpochLengthBlocks)
    (or_default (EpochZeroHeight p) DefaultEpochZeroHeight)
    (or_default (PeerQuorumReports p) DefaultPeerQuorumReports)
    (or_default (MinProbeTargetsPerEpoch p) DefaultMinProbeTargetsPerEpoch)
    (or_default (MaxProbeTargetsPerEpoch p) DefaultMaxProbeTargetsPerEpoch)
    (match au_RequiredOpenPorts p with [] => DefaultRequiredOpenPorts | l => l end)
    (MinCpuFreePercent p)
    (MinMemFreePercent p)
    (MinDiskFreePercent p)
    (or_default (ConsecutiveEpochsToPostpone p) DefaultConsecutiveEpochsToPostpone)
    (or_default (KeepLastEpochEntries p) DefaultKeepLastEpochEntries)
    (or_default (PeerPortPostponeThresholdPercent p) DefaultPeerPortPostponeThresholdPercent)
    (or_default (ActionFinalizationSignatureFailureEvidencesPerEpoch p)
       DefaultActionFinalizationSignatureFailureEvidencesPerEpoch)
    (or_default (ActionFinalizationSignatureFailureConsecutiveEpochs p)
       DefaultActionFinalizationSignatureFailureConsecutiveEpochs)
    (or_default (ActionFinalizationNotInTop10EvidencesPerEpoch p)
       DefaultActionFinalizationNotInTop10EvidencesPerEpoch)
    (or_default (ActionFinalizationNotInTop10ConsecutiveEpochs p)
       DefaultActionFinalizationNotInTop10ConsecutiveEpochs)
    (or_default (ActionFinalizationRecoveryEpochs p) DefaultActionFinalizationRecoveryEpochs)
    (or_default (ActionFinalizationRecoveryMaxTotalBadEvidences p)
       DefaultActionFinalizationRecoveryMaxTotalBadEvidences)
    (ScEnabled p)
    (ScChallengersPerEpoch p)
    (or_default (StorageTruthRecentBucketMaxBlocks p)
       (storageTruthRecentBucketMaxBlocksForEpochSpan
          (or_default (EpochLengthBlocks p) DefaultEpochLengthBlocks)))
    (or_default (StorageTruthOldBucketMinBlocks p)
       (storageTruthOldBucketMinBlocksForEpochSpan
          (or_default (EpochLengthBlocks p) DefaultEpochLengthBlocks)))
    (or_default (StorageTruthChallengeTargetDivisor p) DefaultStorageTruthChallengeTargetDivisor)
    (or_default (StorageTruthCompoundRangesPerArtifact p)
       DefaultStorageTruthCompoundRangesPerArtifact)
    (or_default (StorageTruthCompoundRangeLenBytes p) DefaultStorageTruthCompoundRangeLenBytes)
    (or_default (StorageTruthMaxSelfHealOpsPerEpoch p) DefaultStorageTruthMaxSelfHealOpsPerEpoch)
    (or_default (StorageTruthProbationEpochs p) DefaultStorageTruthProbationEpochs)
    (or_default (StorageTruthNodeSuspicionDecayPerEpoch p)
       DefaultStorageTruthNodeSuspicionDecayPerEpoch)
    (or_default (StorageTruthReporterReliabilityDecayPerEpoch p)
       DefaultStorageTruthReporterReliabilityDecayPerEpoch)
    (or_default (StorageTruthTicketDeteriorationDecayPerEpoch p)
       DefaultStorageTruthTicketDeteriorationDecayPerEpoch)
    (or_default (StorageTruthNodeSuspicionThresholdWatch p)
       DefaultStorageTruthNodeSuspicionThresholdWatch)
    (or_default (StorageTruthNodeSuspicionThresholdProbation p)
       DefaultStorageTruthNodeSuspicionThresholdProbation)
    (or_default (StorageTruthNodeSuspicionThresholdPostpone p)
       DefaultStorageTruthNodeSuspicionThresholdPostpone)
    (or_default (StorageTruthReporterReliabilityLowTrustThreshold p)
       DefaultStorageTruthReporterReliabilityLowTrustThreshold)
    (or_default (StorageTruthReporterReliabilityIneligibleThreshold p)
       DefaultStorageTruthReporterReliabilityIneligibleThreshold)
    (or_default (StorageTruthTicketDeteriorationHealThreshold p)
       DefaultStorageTruthTicketDeteriorationHealThreshold)
    (StorageTruthEnforcementMode p)
    (or_default (StorageTruthReporterReliabilityDegradedThreshold p)
       DefaultStorageTruthReporterReliabilityDegradedThreshold)
    (or_default (StorageTruthPatternEscalationWindow p) DefaultStorageTruthPatternEscalationWindow)
    (or_default (StorageTruthDivergenceWindowEpochs p) DefaultStorageTruthDivergenceWindowEpochs)
    (or_default (StorageTruthReporterMinReportsForDivergence p)
       DefaultStorageTruthReporterMinReportsForDivergence)
    (or_default (StorageTruthNodeSuspicionThresholdStrongPostpone p)
       DefaultStorageTruthNodeSuspicionThresholdStrongPostpone)
    (or_default (StorageTruthRecoveryCleanPassCount p) DefaultStorageTruthRecoveryCleanPassCount)
    (or_default (StorageTruthClassAFaultWindow p) DefaultStorageTruthClassAFaultWindow)
    (or_default (StorageTruthClassBFaultWindow p) DefaultStorageTruthClassBFaultWindow)
    (or_default (StorageTruthHealDeadlineEpochs p) DefaultStorageTruthHealDeadlineEpochs)
    (or_default (StorageTruthOldClassAFaultWindow p) DefaultStorageTruthOldClassAFaultWindow)
    (or_default (StorageTruthContradictionWindowEpochs p)
       DefaultStorageTruthContradictionWindowEpochs)
    (or_default (StorageTruthReporterIneligibleDurationEpochs p)
       DefaultStorageTruthReporterIneligibleDurationEpochs)
    (or_default (StorageTruthStrongRecoveryCleanPassCount p)
       DefaultStorageTruthStrongRecoveryCleanPassCount)
    (or_default (StorageTruthHealVerifierCount p) DefaultStorageTruthHealVerifierCount).


(** ** Validate *)
Definition MaxProbeTargetsPerEpochLimit : Z := 1024.
Definition MaxEpochWindowEntriesLimit : Z := 10000.
Definition MaxScChallengersPerEpoch : Z := 1024.

(** Return the message of the first condition that holds. *)
Fixpoint first_failure (checks : list (bool * string)) : result unit :=
  match checks with
  | [] => Ok tt
  | (bad, msg) :: checks' => if bad then Err (ErrOther msg) else first_failure checks'
  end.

Definition windows_too_long (p : AuditParams) : bool :=
  existsb (Z.ltb MaxEpochWindowEntriesLimit)
    [StorageTruthClassAFaultWindow p; StorageTruthClassBFaultWindow p;
     StorageTruthOldClassAFaultWindow p; StorageTruthPatternEscalationWindow p;
     StorageTruthDivergenceWindowEpochs p; StorageTruthContradictionWindowEpochs p;
     StorageTruthHealDeadlineEpochs p; StorageTruthReporterIneligibleDurationEpochs p].

Definition lookbacks (p : AuditParams) : list Z :=
  [ActionFinalizationSignatureFailureConsecutiveEpochs p;
   ActionFinalizationNotInTop10ConsecutiveEpochs p;
   ActionFinalizationRecoveryEpochs p;
   StorageTruthClassAFaultWindow p; StorageTruthClassBFaultWindow p;
   StorageTruthOldClassAFaultWindow p; StorageTruthPatternEscalationWindow p;
   StorageTruthContradictionWindowEpochs p; StorageTruthDivergenceWindowEpochs p;
   StorageTruthHealDeadlineEpochs p].
Definition requiredHistory (p : AuditParams) : Z :=
  foldl (λ acc v, if acc <? v then v else acc) (ConsecutiveEpochsToPostpone p) (lookbacks p).

(** Two neighbours of the sorted ports are equal. *)
Fixpoint neighbours_equal (l : list Z) : bool :=
  match l with
  | x :: ((y :: _) as l') => (x =? y) || neighbours_equal l'
  | _ => false
  end.
Definition ports_repeat (ports : list Z) : bool := neighbours_equal (sort_stable Z.ltb ports).

Definition validation_checks (p : AuditParams) : list (bool * string) := [
    (EpochLengthBlocks p =? 0, "epoch_length_blocks must be > 0");
    (EpochZeroHeight p =? 0, "epoch_zero_height must be > 0");
    (MaxInt64 <? EpochLengthBlocks p, "epoch_length_blocks must fit int64");
    (MaxInt64 <? EpochZeroHeight p, "epoch_zero_height must fit int64");
    (PeerQuorumReports p =? 0, "peer_quorum_reports must be > 0");
    ((MaxProbeTargetsPerEpoch p =? 0)
       || (MaxProbeTargetsPerEpochLimit <? MaxProbeTargetsPerEpoch p),
     "max_probe_targets_per_epoch must be within 1..limit");
    (MaxProbeTargetsPerEpoch p <? MinProbeTargetsPerEpoch p,
     "min_probe_targets_per_epoch must be <= max_probe_targets_per_epoch");
    (match au_RequiredOpenPorts p with [] => true | _ => false end,
     "required_open_ports must not be empty");
    (100 <? MinCpuFreePercent p, "min_cpu_free_percent must be <= 100");
    (100 <? MinMemFreePercent p, "min_mem_free_percent must be <= 100");
    (100 <? MinDiskFreePercent p, "min_disk_free_percent must be <= 100");
    (ConsecutiveEpochsToPostpone p =? 0, "consecutive_epochs_to_postpone must be > 0");
    (KeepLastEpochEntries p =? 0, "keep_last_epoch_entries must be > 0");
    (MaxEpochWindowEntriesLimit <? KeepLastEpochEntries p,
     "keep_last_epoch_entries must be <= limit");
    (windows_too_long p, "storage-truth epoch windows must be <= limit");
    ((0 <? requiredHistory p) && (KeepLastEpochEntries p <? requiredHistory p),
     "keep_last_epoch_entries must be >= max epoch lookback windows");
    ((PeerPortPostponeThresholdPercent p =? 0) || (100 <? PeerPortPostponeThresholdPercent p),
     "peer_port_postpone_threshold_percent must be within 1..100");
    (ActionFinalizationSignatureFailureEvidencesPerEpoch p =? 0,
     "action_finalization_signature_failure_evidences_per_epoch must be > 0");
    (ActionFinalizationSignatureFailureConsecutiveEpochs p =? 0,
     "action_finalization_signature_failure_consecutive_epochs must be > 0");
    (ActionFinalizationNotInTop10EvidencesPerEpoch p =? 0,
     "action_finalization_not_in_top_10_evidences_per_epoch must be > 0");
    (ActionFinalizationNotInTop10ConsecutiveEpochs p =? 0,
     "action_finalization_not_in_top_10_consecutive_epochs must be > 0");
    (ActionFinalizationRecoveryEpochs p =? 0,
     "action_finalization_recovery_epochs must be > 0");
    (ActionFinalizationRecoveryMaxTotalBadEvidences p =? 0,
     "action_finalization_recovery_max_total_bad_evidences must be > 0");
    (MaxScChallengersPerEpoch <? ScChallengersPerEpoch p,
     "sc_challengers_per_epoch must be 0 or <= limit");
    (StorageTruthRecentBucketMaxBlocks p =? 0,
     "storage_truth_recent_bucket_max_blocks must be > 0");
    (StorageTruthOldBucketMinBlocks p =? 0,
     "storage_truth_old_bucket_min_blocks must be > 0");
    (StorageTruthOldBucketMinBlocks p <=? StorageTruthRecentBucketMaxBlocks p,
     "storage_truth_recent_bucket_max_blocks must be < storage_truth_old_bucket_min_blocks");
    (StorageTruthChallengeTargetDivisor p =? 0,
     "storage_truth_challenge_target_divisor must be > 0");
    (StorageTruthCompoundRangesPerArtifact p =? 0,
     "storage_truth_compound_ranges_per_artifact must be > 0");
    (StorageTruthCompoundRangeLenBytes p =? 0,
     "storage_truth_compound_range_len_bytes must be > 0");
    (StorageTruthMaxSelfHealOpsPerEpoch p =? 0,
     "storage_truth_max_self_heal_ops_per_epoch must be > 0");
    (StorageTruthProbationEpochs p =? 0, "storage_truth_probation_epochs must be > 0");
    (StorageTruthNodeSuspicionThresholdProbation p <? StorageTruthNodeSuspicionThresholdWatch p,
     "watch threshold must be <= probation threshold");
    (StorageTruthNodeSuspicionThresholdPostpone p
       <? StorageTruthNodeSuspicionThresholdProbation p,
     "probation threshold must be <= postpone threshold");
    (StorageTruthReporterReliabilityLowTrustThreshold p <? 0,
     "low trust threshold must be >= 0");
    (StorageTruthReporterReliabilityDegradedThreshold p <? 0,
     "degraded threshold must be >= 0");
    (StorageTruthReporterReliabilityIneligibleThreshold p <? 0,
     "ineligible threshold must be >= 0");
    (StorageTruthReporterReliabilityDegradedThreshold p
       <? StorageTruthReporterReliabilityLowTrustThreshold p,
     "low trust threshold must be <= degraded threshold");
    (StorageTruthReporterReliabilityIneligibleThreshold p
       <? StorageTruthReporterReliabilityDegradedThreshold p,
     "degraded threshold must be <= ineligible threshold");
    ((StorageTruthNodeSuspicionDecayPerEpoch p <? 1)
       || (1000 <? StorageTruthNodeSuspicionDecayPerEpoch p),
     "storage_truth_node_suspicion_decay_per_epoch must be within 1..1000");
    ((StorageTruthReporterReliabilityDecayPerEpoch p <? 1)
       || (1000 <? StorageTruthReporterReliabilityDecayPerEpoch p),
     "storage_truth_reporter_reliability_decay_per_epoch must be within 1..1000");
    ((StorageTruthTicketDeteriorationDecayPerEpoch p <? 1)
       || (1000 <? StorageTruthTicketDeteriorationDecayPerEpoch p),
     "storage_truth_ticket_deterioration_decay_per_epoch must be within 1..1000");
    (StorageTruthTicketDeteriorationHealThreshold p <=? 0,
     "storage_truth_ticket_deterioration_heal_threshold must be > 0");
    (StorageTruthNodeSuspicionThresholdStrongPostpone p
       <=? StorageTruthNodeSuspicionThresholdPostpone p,
     "postpone threshold must be < strong postpone threshold");
    (StorageTruthOldClassAFaultWindow p =? 0,
     "storage_truth_old_class_a_fault_window must be > 0");
    (windows_too_long p, "storage-truth epoch windows must be <= limit");
    (StorageTruthOldClassAFaultWindow p <? StorageTruthClassAFaultWindow p,
     "old class A window must be >= class A window");
    (StorageTruthPatternEscalationWindow p =? 0,
     "storage_truth_pattern_escalation_window must be > 0");
    (StorageTruthDivergenceWindowEpochs p =? 0,
     "storage_truth_divergence_window_epochs must be > 0");
    (StorageTruthReporterMinReportsForDivergence p =? 0,
     "storage_truth_reporter_min_reports_for_divergence must be > 0");
    (StorageTruthNodeSuspicionThresholdStrongPostpone p <=? 0,
     "strong postpone threshold must be > 0");
    (StorageTruthRecoveryCleanPassCount p =? 0,
     "storage_truth_recovery_clean_pass_count must be > 0");
    (StorageTruthStrongRecoveryCleanPassCount p =? 0,
     "storage_truth_strong_recovery_clean_pass_count must be > 0");
    (StorageTruthStrongRecoveryCleanPassCount p <? StorageTruthRecoveryCleanPassCount p,
     "strong recovery count must be >= recovery count");
    ((StorageTruthHealVerifierCount p =? 0) || (32 <? StorageTruthHealVerifierCount p),
     "storage_truth_heal_verifier_count must be within 1..32");
    (StorageTruthClassBFaultWindow p =? 0, "storage_truth_class_b_fault_window must be > 0");
    (StorageTruthHealDeadlineEpochs p =? 0, "storage_truth_heal_deadline_epochs must be > 0");
    (StorageTruthContradictionWindowEpochs p =? 0,
     "storage_truth_contradiction_window_epochs must be > 0");
    (StorageTruthReporterIneligibleDurationEpochs p =? 0,
     "storage_truth_reporter_ineligible_duration_epochs must be > 0");
    (match StorageTruthEnforcementMode p with
     | STORAGE_TRUTH_ENFORCEMENT_MODE_UNKNOWN _ => true
     | _ => false
     end, "storage_truth_enforcement_mode is invalid");
    (ports_repeat (au_RequiredOpenPorts p), "required_open_ports must be unique")
  ].
Definition AuditParams_Validate (p : AuditParams) : result unit :=
  first_failure (validation_checks p).

(** ** What the functions give *)
Lemma or_default_idem z d : or_default (or_default z d) d = or_default z d.
Proof. unfold or_default. destruct (Z.eqb_spec z 0); [|destruct (Z.eqb_spec z 0); done].
  by destruct (Z.eqb_spec d 0). Qed.

Lemma WithDefaults_idem p :
  AuditParams_WithDefaults (AuditParams_WithDefaults p) = AuditParams_WithDefaults p.
Proof.
  destruct p. unfold AuditParams_WithDefaults. simpl. rewrite !or_default_idem.
  f_equal. by destruct au_RequiredOpenPorts0.
Qed.

Lemma DefaultParams_valid : AuditParams_Validate AuditDefaultParams = Ok tt.
Proof. by vm_compute. Qed.

Lemma first_failure_Ok checks :
  first_failure checks = Ok tt ↔ Forall (λ c, c.1 = false) checks.
Proof.
  induction checks as [|[b m] checks IH]; simpl; [by split|].
  rewrite Forall_cons. simpl. destruct b; [|rewrite IH; tauto]. split; [done|]. by intros [? _].
Qed.

Lemma history_max l : ∀ acc,
  acc ≤ foldl (λ acc v, if acc <? v then v else acc) acc l ∧
  Forall (λ v, v ≤ foldl (λ acc v, if acc <? v then v else acc) acc l) l.
Proof.
  induction l as [|v l IH]; intros acc; simpl; [split; [lia|constructor]|].
  destruct (Z.ltb_spec acc v); [destruct (IH v) as [H1 H2]|destruct (IH acc) as [H1 H2]];
    (split; [lia|constructor; [lia|done]]).
Qed.

Lemma Validate_check p i c :
  AuditParams_Validate p = Ok tt → validation_checks p !! i = Some c → c.1 = false.
Proof.
  intros Hv%first_failure_Ok Hi. rewrite Forall_forall in Hv.
  by apply Hv, list_elem_of_lookup_2 with i.
Qed.

(** The Go types of the fields. *)
Definition params_typed (p : AuditParams) : Prop :=
  Forall in_u64 [EpochLengthBlocks p; EpochZeroHeight p; KeepLastEpochEntries p;
    StorageTruthRecentBucketMaxBlocks p; StorageTruthOldBucketMinBlocks p] ∧
  Forall in_i64 [StorageTruthNodeSuspicionDecayPerEpoch p;
    StorageTruthReporterReliabilityDecayPerEpoch p;
    StorageTruthTicketDeteriorationDecayPerEpoch p;
    StorageTruthNodeSuspicionThresholdWatch p; StorageTruthNodeSuspicionThresholdProbation p;
    StorageTruthNodeSuspicionThresholdPostpone p;
    StorageTruthReporterReliabilityLowTrustThreshold p;
    StorageTruthReporterReliabilityIneligibleThreshold p;
    StorageTruthTicketDeteriorationHealThreshold p;
    StorageTruthReporterReliabilityDegradedThreshold p;
    StorageTruthNodeSuspicionThresholdStrongPostpone p] ∧
  Forall in_u32 (ConsecutiveEpochsToPostpone p :: StorageTruthProbationEpochs p ::
    StorageTruthReporterIneligibleDurationEpochs p :: PeerQuorumReports p ::
    MinProbeTargetsPerEpoch p :: MaxProbeTargetsPerEpoch p ::
    StorageTruthChallengeTargetDivisor p :: lookbacks p).

(** What the module relies on of the parameters in the store. *)
Record params_valid (p : AuditParams) : Prop := {
  pv_length : 0 < EpochLengthBlocks p ≤ MaxInt64;
  pv_zero : 0 < EpochZeroHeight p ≤ MaxInt64;
  pv_targets : 0 ≤ MinProbeTargetsPerEpoch p ≤ MaxProbeTargetsPerEpoch p ≤ 1024;
  pv_node_decay : 1 ≤ StorageTruthNodeSuspicionDecayPerEpoch p ≤ 1000;
  pv_reporter_decay : 1 ≤ StorageTruthReporterReliabilityDecayPerEpoch p ≤ 1000;
  pv_ticket_decay : 1 ≤ StorageTruthTicketDeteriorationDecayPerEpoch p ≤ 1000;
  pv_bands : StorageTruthNodeSuspicionThresholdWatch p
    ≤ StorageTruthNodeSuspicionThresholdProbation p
    ≤ StorageTruthNodeSuspicionThresholdPostpone p
    ∧ StorageTruthNodeSuspicionThresholdPostpone p
      < StorageTruthNodeSuspicionThresholdStrongPostpone p;
  pv_trust : 0 ≤ StorageTruthReporterReliabilityLowTrustThreshold p
    ≤ StorageTruthReporterReliabilityDegradedThreshold p
    ∧ StorageTruthReporterReliabilityDegradedThreshold p
      ≤ StorageTruthReporterReliabilityIneligibleThreshold p;
  pv_keep : 0 < KeepLastEpochEntries p ≤ MaxEpochWindowEntriesLimit;
  pv_history : Forall (λ v, 0 ≤ v ≤ KeepLastEpochEntries p)
    (ConsecutiveEpochsToPostpone p :: lookbacks p);
  pv_mode : ∀ z, StorageTruthEnforcementMode p ≠ STORAGE_TRUTH_ENFORCEMENT_MODE_UNKNOWN z
}.

Lemma Validate_valid p :
  params_typed p → AuditParams_Validate p = Ok tt → params_valid p.
Proof.
  intros (H64 & Hi & H32) Hv.
  pose proof (λ i c, Validate_check p i c Hv) as Hc.
  repeat match goal with H : Forall _ (_ :: _) |- _ => apply Forall_cons_1 in H as [? H] end.
  rename H32 into Hl.
  unfold in_u64, in_u32 in *.
  pose proof (Hc 0%nat _ eq_refl) as C0. pose proof (Hc 1%nat _ eq_refl) as C1.
  pose proof (Hc 2%nat _ eq_refl) as C2. pose proof (Hc 3%nat _ eq_refl) as C3.
  pose proof (Hc 5%nat _ eq_refl) as C5. pose proof (Hc 6%nat _ eq_refl) as C6.
  pose proof (Hc 12%nat _ eq_refl) as C12. pose proof (Hc 13%nat _ eq_refl) as C13.
  pose proof (Hc 15%nat _ eq_refl) as C15.
  pose proof (Hc 32%nat _ eq_refl) as C32. pose proof (Hc 33%nat _ eq_refl) as C33.
  pose proof (Hc 34%nat _ eq_refl) as C34. pose proof (Hc 37%nat _ eq_refl) as C37.
  pose proof (Hc 38%nat _ eq_refl) as C38. pose proof (Hc 39%nat _ eq_refl) as C39.
  pose proof (Hc 40%nat _ eq_refl) as C40. pose proof (Hc 41%nat _ eq_refl) as C41.
  pose proof (Hc 59%nat _ eq_refl) as Cmode.
  pose proof (Hc 43%nat _ eq_refl) as C43. clear Hc. cbn [fst] in *.
  unfold MaxProbeTargetsPerEpochLimit, MaxEpochWindowEntriesLimit in *.
  destruct (history_max (lookbacks p) (ConsecutiveEpochsToPostpone p)) as [Hh1 Hh2].
  fold (requiredHistory p) in Hh1, Hh2.
  split; unfold MaxEpochWindowEntriesLimit; try lia.
  - constructor; [lia|]. apply Forall_forall. intros v Hv'. rewrite Forall_forall in Hh2, Hl.
    specialize (Hh2 _ Hv'). specialize (Hl _ Hv'). lia.
  - intros z Hz. by rewrite Hz in Cmode.
Qed.

Lemma neighbours_NoDup l :
  StronglySorted (in_order Z.ltb) l → neighbours_equal l = false → NoDup l.
Proof.
  induction l as [|x l IH]; intros Hs Hn; [constructor|].
  apply StronglySorted_inv in Hs as [Hs HF]. rewrite Forall_forall in HF.
  destruct l as [|y l]; [apply NoDup_singleton|].
  simpl in Hn. apply orb_false_iff in Hn as [Hxy Hn]. apply Z.eqb_neq in Hxy.
  constructor; [|by apply IH]. intros Hin.
  pose proof (HF y ltac:(left)) as Hy. unfold in_order in Hy. apply Z.ltb_ge in Hy.
  apply list_elem_of_In in Hin. apply StronglySorted_inv in Hs as [_ Hs].
  destruct Hin as [->|Hin]; [done|]. apply list_elem_of_In in Hin.
  rewrite Forall_forall in Hs. specialize (Hs _ Hin). unfold in_order in Hs.
  apply Z.ltb_ge in Hs. lia.
Qed.

(** Validated ports are distinct, although only neighbours are compared. *)
Lemma Validate_ports p : AuditParams_Validate p = Ok tt → NoDup (au_RequiredOpenPorts p).
Proof.
  intros Hv. pose proof (Validate_check p 60 _ Hv eq_refl) as Hp. cbn [fst] in Hp.
  rewrite <- (sort_stable_perm Z.ltb). apply neighbours_NoDup; [|done].
  apply sort_stable_sorted; unfold in_order.
  - intros x y z. rewrite !Z.ltb_lt. lia.
  - intros x. apply Z.ltb_irrefl.
  - intros x y z. rewrite !Z.ltb_ge. lia.
Qed.

(** Filling in the defaults keeps the fields in the range of their types. *)
Lemma or_default_range (P : Z → Prop) z d : P z → P d → P (or_default z d).
Proof. unfold or_default. by destruct (z =? 0). Qed.
Lemma bucket_span_range m n : 0 < m → in_u64 n → in_u64 (bucket_span m n).
Proof.
  unfold bucket_span, in_u64, MaxUint64. intros Hm Hn.
  destruct (n =? 0); [lia|]. destruct (Z.ltb_spec ((2 ^ 64 - 1) / m) n) as [|Hle]; [lia|].
  pose proof (Z.mul_div_le (2 ^ 64 - 1) m Hm). nia.
Qed.
Lemma Forall_or_default (P : Z → Prop) l d :
  Forall P l → Forall P d → Forall P (zip_with or_default l d).
Proof.
  intros Hl. revert d. induction Hl as [|x l Hx Hl IH]; intros d Hd; [constructor|].
  destruct Hd as [|y d Hy Hd]; simpl; constructor; [by apply or_default_range|by apply IH].
Qed.
Lemma WithDefaults_typed p : params_typed p → params_typed (AuditParams_WithDefaults p).
Proof.
  intros (H64 & Hi & H32).
  assert (in_u64 (or_default (EpochLengthBlocks p) DefaultEpochLengthBlocks)) as Hlen
    by (apply Forall_cons_1 in H64 as [? _]; apply or_default_range; [done|split; done]).
  split_and!.
  - refine (Forall_or_default in_u64 _
      [DefaultEpochLengthBlocks; DefaultEpochZeroHeight; DefaultKeepLastEpochEntries;
       bucket_span 3 (or_default (EpochLengthBlocks p) DefaultEpochLengthBlocks);
       bucket_span 30 (or_default (EpochLengthBlocks p) DefaultEpochLengthBlocks)] H64 _).
    repeat apply Forall_cons_2; try apply Forall_nil_2; try (split; done);
      by apply bucket_span_range.
  - refine (Forall_or_default in_i64 _
      [DefaultStorageTruthNodeSuspicionDecayPerEpoch;
       DefaultStorageTruthReporterReliabilityDecayPerEpoch;
       DefaultStorageTruthTicketDeteriorationDecayPerEpoch;
       DefaultStorageTruthNodeSuspicionThresholdWatch;
       DefaultStorageTruthNodeSuspicionThresholdProbation;
       DefaultStorageTruthNodeSuspicionThresholdPostpone;
       DefaultStorageTruthReporterReliabilityLowTrustThreshold;
       DefaultStorageTruthReporterReliabilityIneligibleThreshold;
       DefaultStorageTruthTicketDeteriorationHealThreshold;
       DefaultStorageTruthReporterReliabilityDegradedThreshold;
       DefaultStorageTruthNodeSuspicionThresholdStrongPostpone] Hi _).
    repeat apply Forall_cons_2; try apply Forall_nil_2; split; done.
  - refine (Forall_or_default in_u32 _
      [DefaultConsecutiveEpochsToPostpone; DefaultStorageTruthProbationEpochs;
       DefaultStorageTruthReporterIneligibleDurationEpochs; DefaultPeerQuorumReports;
       DefaultMinProbeTargetsPerEpoch; DefaultMaxProbeTargetsPerEpoch;
       DefaultStorageTruthChallengeTargetDivisor;
       DefaultActionFinalizationSignatureFailureConsecutiveEpochs;
       DefaultActionFinalizationNotInTop10ConsecutiveEpochs;
       DefaultActionFinalizationRecoveryEpochs; DefaultStorageTruthClassAFaultWindow;
       DefaultStorageTruthClassBFaultWindow; DefaultStorageTruthOldClassAFaultWindow;
       DefaultStorageTruthPatternEscalationWindow; DefaultStorageTruthContradictionWindowEpochs;
       DefaultStorageTruthDivergenceWindowEpochs; DefaultStorageTruthHealDeadlineEpochs] H32 _).
    repeat apply Forall_cons_2; try apply Forall_nil_2; split; done.
Qed.
