(* ===== verification/AuditTypes.v ===== *)
(** * x/audit/v1/types: the data of the audit module

    Enums and records of the protobuf types, the JSON records of the fact
    indexes, and the store.  The store is split by the part of the keeper that
    owns a key prefix; a prefix with structured keys is a map or a set over the
    parts of the key. *)
From Stdlib Require Import ZArith Lia.
From stdpp Require Import base numbers strings list gmap countable sorting.
From S2P Require Import Prelude Sdk Float SupernodeTypes Supernode ActionStore AuditParam.
Open Scope Z_scope.

(** ** Enums *)
Inductive StorageProofBucketType : Set :=
| BUCKET_UNSPECIFIED | BUCKET_RECENT | BUCKET_OLD | BUCKET_PROBATION | BUCKET_RECHECK
| BUCKET_UNKNOWN (z : Z).
#[export] Instance StorageProofBucketType_eq_dec : EqDecision StorageProofBucketType.
Proof. solve_decision. Defined.
#[export] Instance StorageProofBucketType_countable : Countable StorageProofBucketType.
Proof.
  apply (inj_countable'
    (λ b, match b with BUCKET_UNSPECIFIED => inl 0 | BUCKET_RECENT => inl 1 | BUCKET_OLD => inl 2
          | BUCKET_PROBATION => inl 3 | BUCKET_RECHECK => inl 4 | BUCKET_UNKNOWN z => inr z end)
    (λ c, match c with inl 0 => BUCKET_UNSPECIFIED | inl 1 => BUCKET_RECENT | inl 2 => BUCKET_OLD
          | inl 3 => BUCKET_PROBATION | inl _ => BUCKET_RECHECK | inr z => BUCKET_UNKNOWN z end)).
  by intros [].
Defined.

Inductive StorageProofArtifactClass : Set :=
| ARTIFACT_UNSPECIFIED | ARTIFACT_INDEX | ARTIFACT_SYMBOL | ARTIFACT_UNKNOWN (z : Z).
#[export] Instance StorageProofArtifactClass_eq_dec : EqDecision StorageProofArtifactClass.
Proof. solve_decision. Defined.

Inductive StorageProofResultClass : Set :=
| CLASS_UNSPECIFIED | CLASS_PASS | CLASS_HASH_MISMATCH | CLASS_TIMEOUT_OR_NO_RESPONSE
| CLASS_OBSERVER_QUORUM_FAIL | CLASS_NO_ELIGIBLE_TICKET | CLASS_INVALID_TRANSCRIPT
| CLASS_RECHECK_CONFIRMED_FAIL | CLASS_UNKNOWN (z : Z).
#[export] Instance StorageProofResultClass_eq_dec : EqDecision StorageProofResultClass.
Proof. solve_decision. Defined.

Inductive AuditPortState : Set :=
| AUDIT_PORT_UNKNOWN | AUDIT_PORT_OPEN | AUDIT_PORT_CLOSED | AUDIT_PORT_OTHER (z : Z).
#[export] Instance AuditPortState_eq_dec : EqDecision AuditPortState.
Proof. solve_decision. Defined.

Inductive ReporterTrustBand : Set :=
| TRUST_UNSPECIFIED | TRUST_NORMAL | TRUST_LOW_TRUST | TRUST_CHALLENGER_INELIGIBLE
| TRUST_DEGRADED.
#[export] Instance ReporterTrustBand_eq_dec : EqDecision ReporterTrustBand.
Proof. solve_decision. Defined.

Inductive HealOpStatus : Set :=
| HEAL_UNSPECIFIED | HEAL_SCHEDULED | HEAL_IN_PROGRESS | HEAL_HEALER_REPORTED | HEAL_VERIFIED
| HEAL_FAILED | HEAL_EXPIRED.
#[export] Instance HealOpStatus_eq_dec : EqDecision HealOpStatus.
Proof. solve_decision. Defined.
#[export] Instance HealOpStatus_countable : Countable HealOpStatus.
Proof.
  apply (inj_countable'
    (λ b, match b with HEAL_UNSPECIFIED => 0 | HEAL_SCHEDULED => 1 | HEAL_IN_PROGRESS => 2
          | HEAL_HEALER_REPORTED => 3 | HEAL_VERIFIED => 4 | HEAL_FAILED => 5
          | HEAL_EXPIRED => 6 end)
    (λ c, match c with 0 => HEAL_UNSPECIFIED | 1 => HEAL_SCHEDULED | 2 => HEAL_IN_PROGRESS
          | 3 => HEAL_HEALER_REPORTED | 4 => HEAL_VERIFIED | 5 => HEAL_FAILED
          | _ => HEAL_EXPIRED end)).
  by intros [].
Defined.

#[export] Instance EvidenceType_countable : Countable EvidenceType.
Proof.
  apply (inj_countable'
    (λ b, match b with EVIDENCE_TYPE_UNSPECIFIED => 0
          | EVIDENCE_TYPE_ACTION_FINALIZATION_SIGNATURE_FAILURE => 1
          | EVIDENCE_TYPE_ACTION_FINALIZATION_NOT_IN_TOP_10 => 2
          | EVIDENCE_TYPE_ACTION_EXPIRED => 3 | EVIDENCE_TYPE_STORAGE_CHALLENGE_FAILURE => 4
          | EVIDENCE_TYPE_CASCADE_CLIENT_FAILURE => 5 end)
    (λ c, match c with 0 => EVIDENCE_TYPE_UNSPECIFIED
          | 1 => EVIDENCE_TYPE_ACTION_FINALIZATION_SIGNATURE_FAILURE
          | 2 => EVIDENCE_TYPE_ACTION_FINALIZATION_NOT_IN_TOP_10
          | 3 => EVIDENCE_TYPE_ACTION_EXPIRED | 4 => EVIDENCE_TYPE_STORAGE_CHALLENGE_FAILURE
          | _ => EVIDENCE_TYPE_CASCADE_CLIENT_FAILURE end)).
  by intros [].
Defined.

(** ** Epochs and reports *)
Record EpochAnchor := mkEpochAnchor {
  ea_EpochId : Z;
  ea_EpochStartHeight : Z;
  ea_EpochEndHeight : Z;
  ea_EpochLengthBlocks : Z;
  ea_Seed : bytes;
  ea_ActiveSupernodeAccounts : list string;
  ea_TargetSupernodeAccounts : list string;
  ea_ParamsCommitment : bytes;
  ea_ActiveSetCommitment : bytes;
  ea_TargetsSetCommitment : bytes
}.

Record HostReport := mkHostReport {
  hr_CpuUsagePercent : float64;
  hr_MemUsagePercent : float64;
  hr_DiskUsagePercent : float64;
  hr_InboundPortStates : list AuditPortState;
  hr_FailedActionsCount : Z;
  hr_CascadeKademliaDbBytes : float64
}.

Record StorageChallengeObservation := mkObservation {
  ob_TargetSupernodeAccount : string;
  ob_PortStates : list AuditPortState
}.

Record StorageProofResult := mkProofResult {
  pr_TargetSupernodeAccount : string;
  pr_ChallengerSupernodeAccount : string;
  pr_TicketId : string;
  pr_BucketType : StorageProofBucketType;
  pr_ArtifactClass : StorageProofArtifactClass;
  pr_ArtifactOrdinal : Z;
  pr_ArtifactKey : string;
  pr_ResultClass : StorageProofResultClass;
  pr_TranscriptHash : string;
  pr_Details : string;
  pr_ArtifactCount : Z;
  pr_DerivationInputHash : string;
  pr_ChallengerSignature : string;
  pr_ObserverAttestationSignatures : list string
}.

(** The elements of the two slices are pointers, and may be nil. *)
Record EpochReport := mkEpochReport {
  er_SupernodeAccount : string;
  er_EpochId : Z;
  er_ReportHeight : Z;
  er_HostReport : HostReport;
  er_StorageChallengeObservations : list (option StorageChallengeObservation);
  er_StorageProofResults : list (option StorageProofResult)
}.

(** ** Storage-truth scores *)
Record NodeSuspicionState := mkNodeSuspicion {
  ns_SupernodeAccount : string;
  ns_SuspicionScore : Z;
  ns_LastUpdatedEpoch : Z;
  ns_LastRecentFailEpoch : Z;
  ns_LastOldFailEpoch : Z;
  ns_DistinctTicketFailWindow : Z;
  ns_WindowStartEpoch : Z;
  ns_ClassACountWindow : Z;
  ns_LastClassAEpoch : Z;
  ns_ClassBCountWindow : Z;
  ns_LastClassBEpoch : Z;
  ns_CleanPassCount : Z;
  ns_LastCleanPassEpoch : Z;
  ns_LastIndexFailEpoch : Z;
  ns_CleanPassCountAtPostpone : Z
}.
Definition zero_NodeSuspicion : NodeSuspicionState :=
  mkNodeSuspicion "" 0 0 0 0 0 0 0 0 0 0 0 0 0 0.

Record ReporterReliabilityState := mkReporterReliability {
  rr_ReporterSupernodeAccount : string;
  rr_ReliabilityScore : Z;
  rr_LastUpdatedEpoch : Z;
  rr_TrustBand : ReporterTrustBand;
  rr_ContradictionCount : Z;
  rr_IneligibleUntilEpoch : Z;
  rr_WindowPositiveCount : Z;
  rr_WindowNegativeCount : Z;
  rr_WindowStartEpoch : Z
}.
Definition zero_ReporterReliability : ReporterReliabilityState :=
  mkReporterReliability "" 0 0 TRUST_UNSPECIFIED 0 0 0 0 0.

Record TicketDeteriorationState := mkTicketDeterioration {
  td_TicketId : string;
  td_DeteriorationScore : Z;
  td_LastUpdatedEpoch : Z;
  td_ActiveHealOpId : Z;
  td_ProbationUntilEpoch : Z;
  td_LastHealEpoch : Z;
  td_LastFailureEpoch : Z;
  td_RecentFailureEpochCount : Z;
  td_ContradictionCount : Z;
  td_LastTargetSupernodeAccount : string;
  td_LastReporterSupernodeAccount : string;
  td_LastResultClass : StorageProofResultClass;
  td_LastResultEpoch : Z;
  td_DistinctHolderFailureCount : Z;
  td_LastIndexFailureEpoch : Z;
  td_RecentBucketFailureEpoch : Z;
  td_OldBucketFailureEpoch : Z
}.
Definition zero_TicketDeterioration : TicketDeteriorationState :=
  mkTicketDeterioration "" 0 0 0 0 0 0 0 0 "" "" CLASS_UNSPECIFIED 0 0 0 0 0.

(** Assignments to the fields the heal operations write. *)
Definition td_with_heal (t : TicketDeteriorationState) (active score probation : Z)
    : TicketDeteriorationState :=
  mkTicketDeterioration (td_TicketId t) score (td_LastUpdatedEpoch t) active probation
    (td_LastHealEpoch t) (td_LastFailureEpoch t) (td_RecentFailureEpochCount t)
    (td_ContradictionCount t) (td_LastTargetSupernodeAccount t)
    (td_LastReporterSupernodeAccount t) (td_LastResultClass t) (td_LastResultEpoch t)
    (td_DistinctHolderFailureCount t) (td_LastIndexFailureEpoch t)
    (td_RecentBucketFailureEpoch t) (td_OldBucketFailureEpoch t).
Definition td_with_active (t : TicketDeteriorationState) (active : Z) : TicketDeteriorationState :=
  td_with_heal t active (td_DeteriorationScore t) (td_ProbationUntilEpoch t).
(** A verified heal also starts the failure counters anew. *)
Definition td_healed (t : TicketDeteriorationState) (lastHeal : Z) : TicketDeteriorationState :=
  mkTicketDeterioration (td_TicketId t) (td_DeteriorationScore t) (td_LastUpdatedEpoch t)
    (td_ActiveHealOpId t) (td_ProbationUntilEpoch t) lastHeal 0 0
    (td_ContradictionCount t) (td_LastTargetSupernodeAccount t)
    (td_LastReporterSupernodeAccount t) (td_LastResultClass t) (td_LastResultEpoch t)
    0 0 (td_RecentBucketFailureEpoch t) (td_OldBucketFailureEpoch t).

Record TicketArtifactCountState := mkArtifactCount {
  tc_TicketId : string;
  tc_IndexArtifactCount : Z;
  tc_SymbolArtifactCount : Z
}.

Record HealOp := mkHealOp {
  ho_HealOpId : Z;
  ho_TicketId : string;
  ho_ScheduledEpochId : Z;
  ho_HealerSupernodeAccount : string;
  ho_VerifierSupernodeAccounts : list string;
  ho_Status : HealOpStatus;
  ho_CreatedHeight : Z;
  ho_UpdatedHeight : Z;
  ho_DeadlineEpochId : Z;
  ho_ResultHash : string;
  ho_Notes : string
}.
Definition ho_with (op : HealOp) (status : HealOpStatus) (updated : Z) (hash notes : string)
    : HealOp :=
  mkHealOp (ho_HealOpId op) (ho_TicketId op) (ho_ScheduledEpochId op)
    (ho_HealerSupernodeAccount op) (ho_VerifierSupernodeAccounts op) status
    (ho_CreatedHeight op) updated (ho_DeadlineEpochId op) hash notes.

(** ** Fact records, stored as JSON *)
Record storageProofTranscriptRecord := mkTranscript {
  tr_EpochID : Z;
  tr_ReporterAccount : string;
  tr_TargetAccount : string;
  tr_TicketID : string;
  tr_ResultClass : StorageProofResultClass;
  tr_BucketType : StorageProofBucketType;
  tr_ArtifactClass : StorageProofArtifactClass;
  tr_ArtifactKey : string;
  tr_ArtifactOrdinal : Z;
  tr_ArtifactCount : Z;
  tr_DerivationInputHash : string;
  tr_ChallengerSignature : string;
  tr_ObserverAttestations : list string;
  tr_RecheckEligible : bool;
  tr_ConfirmedByRecheck : bool;
  tr_ContradictedByRecheck : bool;
  tr_RecheckTranscriptHash : string;
  tr_ChallengedTranscriptHash : string
}.
Definition tr_with (t : storageProofTranscriptRecord) (confirmed contradicted : bool)
    (recheck : string) : storageProofTranscriptRecord :=
  mkTranscript (tr_EpochID t) (tr_ReporterAccount t) (tr_TargetAccount t) (tr_TicketID t)
    (tr_ResultClass t) (tr_BucketType t) (tr_ArtifactClass t) (tr_ArtifactKey t)
    (tr_ArtifactOrdinal t) (tr_ArtifactCount t) (tr_DerivationInputHash t)
    (tr_ChallengerSignature t) (tr_ObserverAttestations t) (tr_RecheckEligible t)
    confirmed contradicted recheck (tr_ChallengedTranscriptHash t).

Record storageTruthNodeFailureRecord := mkNodeFailure {
  nf_EpochID : Z;
  nf_Reporter : string;
  nf_Target : string;
  nf_TicketID : string;
  nf_ResultClass : StorageProofResultClass;
  nf_BucketType : StorageProofBucketType;
  nf_ArtifactClass : StorageProofArtifactClass
}.

Record storageTruthReporterResultRecord := mkReporterResult {
  rs_EpochID : Z;
  rs_Reporter : string;
  rs_Target : string;
  rs_TicketID : string;
  rs_ResultClass : StorageProofResultClass;
  rs_ConfirmedByRecheck : bool;
  rs_OverturnedByRecheck : bool
}.

(** Evidence of the audit module (the supernode module has an [Evidence] too). *)
Record AuditEvidence := mkAuditEvidence {
  av_EvidenceId : Z;
  av_SubjectAddress : string;
  av_ReporterAddress : string;
  av_ActionId : string;
  av_EvidenceType : EvidenceType;
  av_Metadata : bytes;
  av_ReportedHeight : Z
}.

(** ** The store *)
Record epoch_store := EpochStore {
  es_params : option AuditParams;          (* "p_audit" *)
  es_anchors : gmap Z EpochAnchor;         (* "ea/" *)
  es_snapshots : gmap Z AuditParams        (* "eps/" *)
}.
Record report_store := ReportStore {
  rp_reports : gmap (Z * string) EpochReport;     (* "r/" *)
  rp_index : gset (string * Z);                   (* "ri/" *)
  rp_host : gset (string * Z);                    (* "hr/" *)
  rp_challenge : gset (string * Z * string)       (* "sc/" *)
}.
Record evidence_store := EvidenceStore {
  ev_next : option Z;                             (* "ev/next_id" *)
  ev_records : gmap Z AuditEvidence;              (* "ev/r/" *)
  ev_by_subject : gset (string * Z);              (* "ev/s/" *)
  ev_by_action : gset (string * Z);               (* "ev/a/" *)
  ev_counts : gmap (Z * string * EvidenceType) Z  (* "eve/" *)
}.
Record postpone_store := PostponeStore {
  pp_action : gmap string Z;                      (* "ap/af/" *)
  pp_storage : gmap string Z;                     (* "ap/st/" *)
  pp_strong : gset string                         (* "ap/sts/" *)
}.
Record score_store := ScoreStore {
  sc_nodes : gmap string NodeSuspicionState;            (* "st/ns/" *)
  sc_reporters : gmap string ReporterReliabilityState;  (* "st/rr/" *)
  sc_tickets : gmap string TicketDeteriorationState;    (* "st/td/" *)
  sc_artifacts : gmap string TicketArtifactCountState   (* "st/tac/" *)
}.
Record heal_store := HealStore {
  hs_ops : gmap Z HealOp;                         (* "st/ho/" *)
  hs_by_ticket : gset (string * Z);               (* "st/hot/" *)
  hs_by_status : gset (HealOpStatus * Z);         (* "st/hos/" *)
  hs_votes : gmap (Z * string) bool;              (* "st/hov/" *)
  hs_next : option Z                              (* "st/next_ho_id" *)
}.
Record fact_store := FactStore {
  fa_transcripts : gmap string storageProofTranscriptRecord;   (* "st/spt/" *)
  fa_by_bucket : gmap (string * StorageProofBucketType * Z * string)
                   storageProofTranscriptRecord;               (* "st/spt-tbe/" *)
  fa_failures : gmap (string * Z * string * string)
                  storageTruthNodeFailureRecord;               (* "st/nf/" *)
  fa_results : gmap (string * Z * string * string)
                 storageTruthReporterResultRecord;             (* "st/rrs/" *)
  fa_by_target : gmap (string * Z * string * string)
                   storageTruthReporterResultRecord;           (* "st/rrs-tt/" *)
  fa_by_epoch : gset (Z * string);                             (* "st/rrs-e/" *)
  fa_failed_heals : gset (string * Z * string);                (* "st/fh/" *)
  fa_rechecks : gset (Z * string * string)                     (* "st/rce/" *)
}.
(** [au_sn] is the store of the supernode module, which the keeper writes
    through its supernode keeper. *)
Record audit_store := AuditStore {
  au_epochs : epoch_store;
  au_reports : report_store;
  au_evidence : evidence_store;
  au_postpone : postpone_store;
  au_scores : score_store;
  au_heal : heal_store;
  au_facts : fact_store;
  au_sn : sn_store
}.

Definition set_epochs (x : epoch_store) (s : audit_store) : audit_store :=
  AuditStore x (au_reports s) (au_evidence s) (au_postpone s) (au_scores s) (au_heal s)
    (au_facts s) (au_sn s).
Definition set_reports (x : report_store) (s : audit_store) : audit_store :=
  AuditStore (au_epochs s) x (au_evidence s) (au_postpone s) (au_scores s) (au_heal s)
    (au_facts s) (au_sn s).
Definition set_evidence (x : evidence_store) (s : audit_store) : audit_store :=
  AuditStore (au_epochs s) (au_reports s) x (au_postpone s) (au_scores s) (au_heal s)
    (au_facts s) (au_sn s).
Definition set_postpone (x : postpone_store) (s : audit_store) : audit_store :=
  AuditStore (au_epochs s) (au_reports s) (au_evidence s) x (au_scores s) (au_heal s)
    (au_facts s) (au_sn s).
Definition set_scores (x : score_store) (s : audit_store) : audit_store :=
  AuditStore (au_epochs s) (au_reports s) (au_evidence s) (au_postpone s) x (au_heal s)
    (au_facts s) (au_sn s).
Definition set_heal (x : heal_store) (s : audit_store) : audit_store :=
  AuditStore (au_epochs s) (au_reports s) (au_evidence s) (au_postpone s) (au_scores s) x
    (au_facts s) (au_sn s).
Definition set_facts (x : fact_store) (s : audit_store) : audit_store :=
  AuditStore (au_epochs s) (au_reports s) (au_evidence s) (au_postpone s) (au_scores s)
    (au_heal s) x (au_sn s).
Definition set_sn (x : sn_store) (s : audit_store) : audit_store :=
  AuditStore (au_epochs s) (au_reports s) (au_evidence s) (au_postpone s) (au_scores s)
    (au_heal s) (au_facts s) x.

(** Run a program of one part on the whole store. *)
Definition on_epochs {A} : M epoch_store A → M audit_store A := zoom au_epochs set_epochs.
Definition on_reports {A} : M report_store A → M audit_store A := zoom au_reports set_reports.
Definition on_evidence {A} : M evidence_store A → M audit_store A :=
  zoom au_evidence set_evidence.
Definition on_postpone {A} : M postpone_store A → M audit_store A :=
  zoom au_postpone set_postpone.
Definition on_scores {A} : M score_store A → M audit_store A := zoom au_scores set_scores.
Definition on_heal {A} : M heal_store A → M audit_store A := zoom au_heal set_heal.
Definition on_facts {A} : M fact_store A → M audit_store A := zoom au_facts set_facts.
Definition on_sn {A} : M sn_store A → M audit_store A := zoom au_sn set_sn.

(** ** Keys

    Big-endian integers; the separators of a composite key do not change the
    order in which its parts compare, because an account holds no '/'. *)
Fixpoint be_bytes (n : nat) (z : Z) : bytes :=
  match n with
  | O => []
  | S n' => (z / 256 ^ Z.of_nat n') mod 256 :: be_bytes n' z
  end.
Definition u64be (z : Z) : bytes := be_bytes 8 z.

(** Go's [sort.Strings]. *)
Definition sort_Strings (l : list string) : list string := merge_sort string_le l.
Definition containsString (l : list string) (x : string) : bool := bool_decide (x ∈ l).

(** ** Events (types/events.go) *)
Definition FormatBool (b : bool) : string := if b then "true" else "false".
Definition StorageProofResultClass_String (c : StorageProofResultClass) : string :=
  match c with
  | CLASS_UNSPECIFIED => "STORAGE_PROOF_RESULT_CLASS_UNSPECIFIED"
  | CLASS_PASS => "STORAGE_PROOF_RESULT_CLASS_PASS"
  | CLASS_HASH_MISMATCH => "STORAGE_PROOF_RESULT_CLASS_HASH_MISMATCH"
  | CLASS_TIMEOUT_OR_NO_RESPONSE => "STORAGE_PROOF_RESULT_CLASS_TIMEOUT_OR_NO_RESPONSE"
  | CLASS_OBSERVER_QUORUM_FAIL => "STORAGE_PROOF_RESULT_CLASS_OBSERVER_QUORUM_FAIL"
  | CLASS_NO_ELIGIBLE_TICKET => "STORAGE_PROOF_RESULT_CLASS_NO_ELIGIBLE_TICKET"
  | CLASS_INVALID_TRANSCRIPT => "STORAGE_PROOF_RESULT_CLASS_INVALID_TRANSCRIPT"
  | CLASS_RECHECK_CONFIRMED_FAIL => "STORAGE_PROOF_RESULT_CLASS_RECHECK_CONFIRMED_FAIL"
  | CLASS_UNKNOWN z => FormatInt z
  end.
Definition StorageProofBucketType_String (b : StorageProofBucketType) : string :=
  match b with
  | BUCKET_UNSPECIFIED => "STORAGE_PROOF_BUCKET_TYPE_UNSPECIFIED"
  | BUCKET_RECENT => "STORAGE_PROOF_BUCKET_TYPE_RECENT"
  | BUCKET_OLD => "STORAGE_PROOF_BUCKET_TYPE_OLD"
  | BUCKET_PROBATION => "STORAGE_PROOF_BUCKET_TYPE_PROBATION"
  | BUCKET_RECHECK => "STORAGE_PROOF_BUCKET_TYPE_RECHECK"
  | BUCKET_UNKNOWN z => FormatInt z
  end.
Definition ReporterTrustBand_String (b : ReporterTrustBand) : string :=
  match b with
  | TRUST_UNSPECIFIED => "REPORTER_TRUST_BAND_UNSPECIFIED"
  | TRUST_NORMAL => "REPORTER_TRUST_BAND_NORMAL"
  | TRUST_LOW_TRUST => "REPORTER_TRUST_BAND_LOW_TRUST"
  | TRUST_CHALLENGER_INELIGIBLE => "REPORTER_TRUST_BAND_CHALLENGER_INELIGIBLE"
  | TRUST_DEGRADED => "REPORTER_TRUST_BAND_DEGRADED"
  end.

(** Every event of the module carries its name. *)
Definition audit_event (ty : string) (attrs : list (string * string)) : event :=
  Event ty (("module", "audit") :: attrs)%string.
