(* ===== verification/Epoch.v ===== *)
(** * x/audit/v1/keeper: epochs

    epoch_math.go, params.go, msg_update_params.go, epoch_params_snapshot.go,
    epoch_anchor.go and the begin-blocker of abci.go: the map between heights and
    epochs, the parameters, and the anchor that freezes an epoch's seed and
    sets of supernodes when it starts. *)
From Stdlib Require Import ZArith Lia.
From stdpp Require Import base numbers strings list gmap sorting.
From S2P Require Import Prelude Sdk SupernodeTypes Supernode AuditParam AuditTypes.
Open Scope Z_scope.

(** ** epoch_math.go *)
Record epochInfo := mkEpochInfo { EpochID : Z; StartHeight : Z; EndHeight : Z }.

Definition deriveEpochAtHeight (height : Z) (params : AuditParams) : result epochInfo :=
  let params := AuditParams_WithDefaults params in
  if EpochLengthBlocks params =? 0 then Err (ErrOther "epoch_length_blocks must be > 0") else
  if EpochZeroHeight params =? 0 then Err (ErrOther "epoch_zero_height must be > 0") else
  let epochZero := i64 (EpochZeroHeight params) in
  let epochLen := i64 (EpochLengthBlocks params) in
  let '(epochID, start) :=
    if height <? epochZero then (0, epochZero) else
    let rel := i64 (height - epochZero) in
    let epochID := u64 (Z.quot rel epochLen) in
    (epochID, i64 (epochZero + i64 (i64 epochID * epochLen))) in
  Ok (mkEpochInfo epochID start (i64 (i64 (start + epochLen) - 1))).

Definition deriveEpochByID (epochID : Z) (params : AuditParams) : result epochInfo :=
  let params := AuditParams_WithDefaults params in
  if EpochLengthBlocks params =? 0 then Err (ErrOther "epoch_length_blocks must be > 0") else
  if EpochZeroHeight params =? 0 then Err (ErrOther "epoch_zero_height must be > 0") else
  let epochZero := i64 (EpochZeroHeight params) in
  let epochLen := i64 (EpochLengthBlocks params) in
  let start := i64 (epochZero + i64 (i64 epochID * epochLen)) in
  Ok (mkEpochInfo epochID start (i64 (i64 (start + epochLen) - 1))).

(** ** params.go *)
Definition AuditGetParams (s : epoch_store) : AuditParams :=
  match es_params s with
  | None => AuditDefaultParams
  | Some p => AuditParams_WithDefaults p
  end.

Definition AuditSetParams (params : AuditParams) : M epoch_store unit :=
  let params := AuditParams_WithDefaults params in
  _ ← of_result (AuditParams_Validate params);
  modify (λ s, EpochStore (Some params) (es_anchors s) (es_snapshots s)).

(** ** epoch_params_snapshot.go *)
Definition GetEpochParamsSnapshot (epochID : Z) (s : epoch_store) : option AuditParams :=
  es_snapshots s !! epochID.
Definition SetEpochParamsSnapshot (epochID : Z) (params : AuditParams) : M epoch_store unit :=
  modify (λ s, EpochStore (es_params s) (es_anchors s) (<[epochID := params]> (es_snapshots s))).
Definition CreateEpochParamsSnapshotIfNeeded (epochID : Z) (params : AuditParams)
    : M epoch_store unit :=
  found ← gets (GetEpochParamsSnapshot epochID);
  match found with
  | Some _ => mret tt
  | None => SetEpochParamsSnapshot epochID (AuditParams_WithDefaults params)
  end.

(** ** epoch_anchor.go *)
Definition epochSeedDomain : string := "lumera:epoch-seed".

Definition GetEpochAnchor (epochID : Z) (s : epoch_store) : option EpochAnchor :=
  es_anchors s !! epochID.
Definition SetEpochAnchor (anchor : EpochAnchor) : M epoch_store unit :=
  modify (λ s, EpochStore (es_params s) (<[ea_EpochId anchor := anchor]> (es_anchors s))
                 (es_snapshots s)).

(** The accounts of a set of supernodes, each once, in order of appearance. *)
Fixpoint supernodeAccountsFromSet (seen : list string) (set : list SuperNode)
    : result (list string) :=
  match set with
  | [] => Ok []
  | sn :: set' =>
      if decide (SupernodeAccount sn = "") then Err (ErrOther "empty supernode_account") else
      if decide (SupernodeAccount sn ∈ seen) then supernodeAccountsFromSet seen set' else
      match supernodeAccountsFromSet (SupernodeAccount sn :: seen) set' with
      | Ok l => Ok (SupernodeAccount sn :: l)
      | Err e => Err e
      end
  end.

(** The binary encoding of the parameters is not modelled; the anchor commits to
    it through the codec of the interface. *)
Class ParamsCodec := { params_Marshal : AuditParams → bytes }.

Section Anchor.
Context `{SdkAddress} `{LegacyDecOps} `{Blake3} `{ParamsCodec}.

Definition deriveEpochSeed (ctx : Ctx) (epochID epochStartHeight : Z) : bytes :=
  let raw := match HeaderHash ctx with [] => u64be (u64 epochStartHeight) | h => h end in
  blake3_Sum256 (string_bytes epochSeedDomain ++ raw ++ u64be epochID).

(** Each string followed by a zero byte. *)
Definition commitStringList (l : list string) : bytes :=
  blake3_Sum256 (concat ((λ s, string_bytes s ++ [0]) <$> l)).

Definition CreateEpochAnchorIfNeeded (ctx : Ctx) (epochID epochStartHeight epochEndHeight : Z)
    (params : AuditParams) : M audit_store unit :=
  found ← on_epochs (gets (GetEpochAnchor epochID));
  match found with
  | Some _ => mret tt
  | None =>
      _ ← ensure (BlockHeight ctx =? epochStartHeight)
            (ErrOther "epoch anchor must be created at epoch start height");
      active ← gets (λ s, GetAllSuperNodes
        [SuperNodeStateActive; SuperNodeStateStorageFull] (au_sn s));
      targetsSN ← gets (λ s, GetAllSuperNodes
        [SuperNodeStateActive; SuperNodeStateStorageFull; SuperNodeStatePostponed] (au_sn s));
      activeAccounts ← of_result (supernodeAccountsFromSet [] active);
      targetAccounts ← of_result (supernodeAccountsFromSet [] targetsSN);
      let activeAccounts := sort_Strings activeAccounts in
      let targetAccounts := sort_Strings targetAccounts in
      let params := AuditParams_WithDefaults params in
      _ ← on_epochs (SetEpochAnchor
            (mkEpochAnchor epochID epochStartHeight epochEndHeight (EpochLengthBlocks params)
               (deriveEpochSeed ctx epochID epochStartHeight) activeAccounts targetAccounts
               (blake3_Sum256 (params_Marshal params))
               (commitStringList activeAccounts) (commitStringList targetAccounts)));
      on_epochs (CreateEpochParamsSnapshotIfNeeded epochID params)
  end.

(** ** abci.go *)
Definition AuditBeginBlocker (ctx : Ctx) : M audit_store unit :=
  params ← gets (λ s, AuditParams_WithDefaults (AuditGetParams (au_epochs s)));
  epoch ← of_result (deriveEpochAtHeight (BlockHeight ctx) params);
  if BlockHeight ctx =? StartHeight epoch then
    CreateEpochAnchorIfNeeded ctx (EpochID epoch) (StartHeight epoch) (EndHeight epoch) params
  else mret tt.
End Anchor.

(** ** msg_update_params.go *)
Record MsgAuditUpdateParams := { up_Authority : string; up_Params : AuditParams }.

(** [authority] is the address of the governance account. *)
Definition AuditUpdateParams (authority : string) (req : MsgAuditUpdateParams)
    : M epoch_store unit :=
  _ ← ensure (bool_decide (up_Authority req = authority)) ErrInvalidSigner;
  let params := AuditParams_WithDefaults (up_Params req) in
  _ ← of_result (AuditParams_Validate params);
  current ← gets (λ s, AuditParams_WithDefaults (AuditGetParams s));
  _ ← ensure (EpochLengthBlocks params =? EpochLengthBlocks current) ErrInvalidSigner;
  _ ← ensure (EpochZeroHeight params =? EpochZeroHeight current) ErrInvalidSigner;
  AuditSetParams params.

