(* ===== verification/EpochThm.v ===== *)
(** * Epochs: the partition of heights, and what the anchors freeze *)
From Stdlib Require Import ZArith Lia.
From stdpp Require Import base numbers strings list gmap sorting.
From S2P Require Import Prelude Sdk SupernodeTypes Supernode AuditParam AuditTypes Epoch.
Open Scope Z_scope.

(** ** Epoch arithmetic without wrap-around *)
Definition epoch_of (p : AuditParams) (h : Z) : Z :=
  (h - EpochZeroHeight p) / EpochLengthBlocks p.
Definition epoch_start (p : AuditParams) (id : Z) : Z :=
  EpochZeroHeight p + id * EpochLengthBlocks p.
Definition epoch_info (p : AuditParams) (id : Z) : epochInfo :=
  mkEpochInfo id (epoch_start p id) (epoch_start p id + EpochLengthBlocks p - 1).

(** A height of the chain that is past epoch zero and far from the end of int64. *)
Definition height_ok (p : AuditParams) (h : Z) : Prop :=
  EpochZeroHeight p ≤ h ∧ h + EpochLengthBlocks p ≤ MaxInt64.

Lemma WithDefaults_cadence p :
  0 < EpochLengthBlocks p → 0 < EpochZeroHeight p →
  EpochLengthBlocks (AuditParams_WithDefaults p) = EpochLengthBlocks p ∧
  EpochZeroHeight (AuditParams_WithDefaults p) = EpochZeroHeight p.
Proof.
  intros Hl Hz. cbn [AuditParams_WithDefaults EpochLengthBlocks EpochZeroHeight].
  unfold or_default. destruct (Z.eqb_spec (EpochLengthBlocks p) 0); [lia|].
  destruct (Z.eqb_spec (EpochZeroHeight p) 0); [lia|]. done.
Qed.

Section Cadence.
Variable p : AuditParams.
Hypothesis Hlen : 0 < EpochLengthBlocks p ≤ MaxInt64.
Hypothesis Hzero : 0 < EpochZeroHeight p ≤ MaxInt64.

Lemma epoch_of_bounds h :
  EpochZeroHeight p ≤ h →
  0 ≤ epoch_of p h ∧ epoch_start p (epoch_of p h) ≤ h < epoch_start p (epoch_of p h + 1).
Proof.
  intros Hh. unfold epoch_of, epoch_start.
  pose proof (Z.div_mod (h - EpochZeroHeight p) (EpochLengthBlocks p) ltac:(lia)).
  pose proof (Z.mod_pos_bound (h - EpochZeroHeight p) (EpochLengthBlocks p) ltac:(lia)).
  split; [apply Z.div_pos; lia|nia].
Qed.

Lemma epoch_of_unique h id :
  epoch_start p id ≤ h < epoch_start p (id + 1) → epoch_of p h = id.
Proof.
  unfold epoch_of, epoch_start. intros Hh.
  symmetry. apply (Z.div_unique _ _ _ (h - EpochZeroHeight p - EpochLengthBlocks p * id)); [|ring].
  left. nia.
Qed.

Lemma derive_by_id id :
  0 ≤ id → epoch_start p (id + 1) ≤ MaxInt64 → deriveEpochByID id p = Ok (epoch_info p id).
Proof.
  intros Hid Hs. unfold deriveEpochByID.
  destruct (WithDefaults_cadence p) as [-> ->]; [lia..|].
  destruct (Z.eqb_spec (EpochLengthBlocks p) 0); [lia|].
  destruct (Z.eqb_spec (EpochZeroHeight p) 0); [lia|].
  unfold epoch_start in *. unfold MaxInt64 in *.
  assert (id ≤ id * EpochLengthBlocks p) by nia.
  rewrite (i64_small (EpochZeroHeight p)) by (unfold in_i64; lia).
  rewrite (i64_small (EpochLengthBlocks p)) by (unfold in_i64; lia).
  rewrite (i64_small id) by (unfold in_i64; lia).
  rewrite (i64_small (id * _)) by (unfold in_i64; lia).
  rewrite (i64_small (_ + id * _)) by (unfold in_i64; lia).
  rewrite (i64_small (_ + EpochLengthBlocks p)) by (unfold in_i64; lia).
  rewrite i64_small by (unfold in_i64; lia). done.
Qed.

Lemma derive_at_height h :
  height_ok p h → deriveEpochAtHeight h p = Ok (epoch_info p (epoch_of p h)).
Proof.
  intros [Hz Hm]. destruct (epoch_of_bounds h Hz) as [Hid Hb].
  assert (epoch_start p (epoch_of p h + 1) ≤ MaxInt64) as Hs.
  { unfold epoch_start in *. lia. }
  rewrite <- (derive_by_id (epoch_of p h)) by lia.
  unfold deriveEpochAtHeight, deriveEpochByID.
  destruct (WithDefaults_cadence p) as [-> ->]; [lia..|].
  destruct (EpochLengthBlocks p =? 0); [done|]. destruct (EpochZeroHeight p =? 0); [done|].
  unfold MaxInt64 in *.
  rewrite (i64_small (EpochZeroHeight p)) by (unfold in_i64; lia).
  rewrite (i64_small (EpochLengthBlocks p)) by (unfold in_i64; lia).
  destruct (Z.ltb_spec h (EpochZeroHeight p)); [lia|].
  rewrite (i64_small (h - EpochZeroHeight p)) by (unfold in_i64; lia).
  rewrite Z.quot_div_nonneg by lia. fold (epoch_of p h).
  rewrite u64_small; [done|]. unfold in_u64, epoch_start in *. nia.
Qed.

(** A height before epoch zero is put into epoch 0. *)
Lemma derive_clamped h : h < EpochZeroHeight p → deriveEpochAtHeight h p = deriveEpochByID 0 p.
Proof.
  intros Hh. unfold deriveEpochAtHeight, deriveEpochByID.
  destruct (WithDefaults_cadence p) as [-> ->]; [lia..|].
  destruct (EpochLengthBlocks p =? 0); [done|]. destruct (EpochZeroHeight p =? 0); [done|].
  unfold MaxInt64 in *.
  rewrite (i64_small (EpochZeroHeight p)) by (unfold in_i64; lia).
  destruct (Z.ltb_spec h (EpochZeroHeight p)); [|lia].
  change (i64 (i64 0 * i64 (EpochLengthBlocks p))) with 0. rewrite Z.add_0_r.
  by rewrite (i64_small (EpochZeroHeight p)) by (unfold in_i64; lia).
Qed.
End Cadence.

(** C36. With validated parameters, the heights from epoch zero on, up to one
    epoch before the end of int64, are partitioned into epochs of
    [epoch_length_blocks] blocks and no int64 operation overflows: the epoch that
    is derived from such a height contains it, is the epoch derived back from its
    own id, and is the one derived from exactly the heights between its bounds;
    the block after its last one starts the next epoch.  An earlier height, which
    no epoch contains, is put into epoch 0. *)
Theorem epoch_partition p h :
  params_typed p → AuditParams_Validate p = Ok tt → height_ok p h →
  ∃ e, deriveEpochAtHeight h p = Ok e ∧
    deriveEpochByID (EpochID e) p = Ok e ∧
    StartHeight e ≤ h ≤ EndHeight e ∧
    EndHeight e - StartHeight e + 1 = EpochLengthBlocks p ∧
    (∀ h', height_ok p h' →
       (StartHeight e ≤ h' ≤ EndHeight e ↔ deriveEpochAtHeight h' p = Ok e)) ∧
    (height_ok p (EndHeight e + 1) →
       ∃ e', deriveEpochAtHeight (EndHeight e + 1) p = Ok e' ∧
         EpochID e' = EpochID e + 1 ∧ StartHeight e' = EndHeight e + 1) ∧
    (∀ h', h' < EpochZeroHeight p → deriveEpochAtHeight h' p = deriveEpochByID 0 p).
Proof.
  intros Ht Hv Hh. destruct (Validate_valid p Ht Hv) as [Hl Hz _ _ _ _ _ _ _ _].
  exists (epoch_info p (epoch_of p h)).
  destruct (epoch_of_bounds p Hl Hz h ltac:(apply Hh)) as [Hid Hb].
  assert (epoch_start p (epoch_of p h + 1)
            = epoch_start p (epoch_of p h) + EpochLengthBlocks p) as Hnext
    by (unfold epoch_start; ring).
  cbn [EpochID StartHeight EndHeight epoch_info]. destruct Hh as [Hh1 Hh2].
  split_and!; [by apply derive_at_height|apply derive_by_id; [done..|lia]|lia|lia|lia| | |by apply derive_clamped].
  - intros h' Hh'. rewrite derive_at_height by done. split.
    + intros Hr. f_equal. rewrite (epoch_of_unique p h' (epoch_of p h)); [done|lia].
    + intros [= Heq _]. rewrite <- Heq.
      destruct (epoch_of_bounds p Hl Hz h' ltac:(apply Hh')) as [_ ?].
      unfold epoch_start in *. lia.
  - intros Hh'. eexists. split; [by apply derive_at_height|]. cbn [EpochID StartHeight epoch_info].
    replace (_ + EpochLengthBlocks p - 1 + 1) with (epoch_start p (epoch_of p h + 1)) by lia.
    rewrite (epoch_of_unique p _ (epoch_of p h + 1)); [done|].
    unfold epoch_start. lia.
Qed.

(** The default parameters, at the first block of epoch 2. *)
Lemma epoch_partition_witness :
  params_typed AuditDefaultParams ∧
  ∃ e, deriveEpochAtHeight 801 AuditDefaultParams = Ok e ∧ EpochID e = 2.
Proof.
  assert (params_typed AuditDefaultParams) as Ht.
  { unfold params_typed. split_and!; repeat constructor; vm_compute; done. }
  split; [exact Ht|].
  destruct (epoch_partition AuditDefaultParams 801 Ht DefaultParams_valid
    ltac:(split; vm_compute; done)) as (e & He & _).
  exists e. split; [exact He|]. vm_compute in He. by injection He as <-.
Defined.
