(* ===== verification/GoHash.v ===== *)
(** * Hash functions of the Go standard library

    hash/fnv's FNV-1a with 64 bits and crypto/sha256, on byte strings.  Words are
    integers below 2^32 (2^64 for FNV). *)
From Stdlib Require Import ZArith Lia.
From stdpp Require Import base numbers strings list.
From S2P Require Import Prelude.
Open Scope Z_scope.

(** ** FNV-1a *)
Definition fnv64a (b : bytes) : Z :=
  foldl (λ h x, u64 (Z.lxor h x * 1099511628211)) 14695981039346656037 b.

(** ** SHA-256 *)
Module Sha256.
Definition add (x y : Z) : Z := u32 (x + y).
Definition rotr (x n : Z) : Z := Z.lor (Z.shiftr x n) (u32 (Z.shiftl x (32 - n))).
Definition not32 (x : Z) : Z := Z.lxor x (2 ^ 32 - 1).
Definition ch (x y z : Z) : Z := Z.lxor (Z.land x y) (Z.land (not32 x) z).
Definition maj (x y z : Z) : Z := Z.lxor (Z.lxor (Z.land x y) (Z.land x z)) (Z.land y z).
Definition big0 (x : Z) : Z := Z.lxor (Z.lxor (rotr x 2) (rotr x 13)) (rotr x 22).
Definition big1 (x : Z) : Z := Z.lxor (Z.lxor (rotr x 6) (rotr x 11)) (rotr x 25).
Definition small0 (x : Z) : Z := Z.lxor (Z.lxor (rotr x 7) (rotr x 18)) (Z.shiftr x 3).
Definition small1 (x : Z) : Z := Z.lxor (Z.lxor (rotr x 17) (rotr x 19)) (Z.shiftr x 10).

(** The constants as FIPS 180-4 derives them: the first 32 bits of the fractional
    parts of the cube roots of the first 64 primes and of the square roots of the
    first 8.  [cbrt n z] is the integer cube root of [z] below [2 ^ n]. *)
Fixpoint cbrt (n : nat) (z : Z) : Z :=
  match n with
  | O => 0
  | S n' =>
      let r := 2 * cbrt n' (z / 8) in
      if (r + 1) ^ 3 <=? z then r + 1 else r
  end.
Definition is_prime (n : Z) : bool :=
  forallb (λ d, negb (n mod d =? 0)) (seqZ 2 (n - 2)).
Definition primes : list Z := List.filter is_prime (seqZ 2 310).
Definition K : list Z :=
  Eval vm_compute in ((λ p, u32 (cbrt 36 (Z.shiftl p 96))) <$> primes).
Definition H0 : list Z :=
  Eval vm_compute in ((λ p, u32 (Z.sqrt (Z.shiftl p 64))) <$> take 8 primes).

Fixpoint be (n : nat) (z : Z) : bytes :=
  match n with O => [] | S n' => (z / 256 ^ Z.of_nat n') mod 256 :: be n' z end.

(** The message, a one bit, zeros up to 56 mod 64 bytes, and the bit length. *)
Definition pad (b : bytes) : bytes :=
  let len := zlen b in
  b ++ [128] ++ replicate (Z.to_nat ((55 - len) mod 64)) 0 ++ be 8 (8 * len).

Fixpoint words (b : bytes) : list Z :=
  match b with
  | b0 :: b1 :: b2 :: b3 :: b' => (((b0 * 256 + b1) * 256 + b2) * 256 + b3) :: words b'
  | _ => []
  end.

(** The schedule, newest word first. *)
Fixpoint schedule (n : nat) (w : list Z) : list Z :=
  match n with
  | O => w
  | S n' =>
      let at_ i := nth i w 0 in
      schedule n' (add (add (small1 (at_ 1%nat)) (at_ 6%nat))
                       (add (small0 (at_ 14%nat)) (at_ 15%nat)) :: w)
  end.

Definition round (s : list Z) (kw : Z * Z) : list Z :=
  match s with
  | [a; b; c; d; e; f; g; h] =>
      let t1 := add (add (add h (big1 e)) (add (ch e f g) kw.1)) kw.2 in
      let t2 := add (big0 a) (maj a b c) in
      [add t1 t2; a; b; c; add d t1; e; f; g]
  | _ => s
  end.

Definition block (s : list Z) (w : list Z) : list Z :=
  let sched := rev (schedule 48 (rev w)) in
  zip_with add s (foldl round s (zip K sched)).

Fixpoint blocks (fuel : nat) (s : list Z) (w : list Z) : list Z :=
  match fuel, w with
  | S fuel', _ :: _ => blocks fuel' (block s (take 16 w)) (drop 16 w)
  | _, _ => s
  end.

Definition sum256 (b : bytes) : bytes :=
  let w := words (pad b) in
  concat (be 4 <$> blocks (length w) H0 w).
End Sha256.

(** There are 64 round constants. *)
Lemma K_length : length Sha256.K = 64%nat.
Proof. reflexivity. Qed.
(** The test vectors of FIPS 180-2 and of the FNV reference code. *)
Lemma sha256_abc :
  Sha256.sum256 (string_bytes "abc") =
  [0xba; 0x78; 0x16; 0xbf; 0x8f; 0x01; 0xcf; 0xea; 0x41; 0x41; 0x40; 0xde; 0x5d; 0xae; 0x22; 0x23;
   0xb0; 0x03; 0x61; 0xa3; 0x96; 0x17; 0x7a; 0x9c; 0xb4; 0x10; 0xff; 0x61; 0xf2; 0x00; 0x15; 0xad].
Proof. vm_compute. reflexivity. Qed.
Lemma sha256_two_blocks :
  take 8 (Sha256.sum256
    (string_bytes "abcdbcdecdefdefgefghfghighijhijkijkljklmklmnlmnomnopnopq")) =
  [0x24; 0x8d; 0x6a; 0x61; 0xd2; 0x06; 0x38; 0xb8].
Proof. vm_compute. reflexivity. Qed.
Lemma fnv64a_foobar : fnv64a (string_bytes "foobar") = 0x85944171f73967e8.
Proof. vm_compute. reflexivity. Qed.
