(* ===== verification/Scoring.v ===== *)
(** * x/audit/v1/keeper/storage_truth_scoring.go: the arithmetic of the scores

    Score deltas, exponential decay in integers, saturating addition, trust bands
    and windows.  [int64] values are integers in [in_i64]; math/big is [Z]. *)
From Stdlib Require Import ZArith Lia.
From stdpp Require Import base numbers strings list.
From S2P Require Import Prelude AuditParam AuditTypes.
Open Scope Z_scope.

Record storageTruthScoreDeltas := Deltas {
  nodeSuspicion : Z;
  reporterReliability : Z;
  ticketDeterioration : Z
}.

Definition storageTruthScoreDeltasForResult (result : StorageProofResult)
    : storageTruthScoreDeltas :=
  match pr_ResultClass result with
  | CLASS_PASS =>
      match pr_BucketType result with
      | BUCKET_RECENT => Deltas (-3) 0 (-2)
      | BUCKET_OLD => Deltas (-2) 0 (-3)
      | _ => Deltas (-2) 0 (-2)
      end
  | CLASS_HASH_MISMATCH =>
      match pr_ArtifactClass result with
      | ARTIFACT_INDEX => Deltas 26 1 12
      | _ => Deltas 18 1 5
      end
  | CLASS_TIMEOUT_OR_NO_RESPONSE => Deltas 7 0 3
  | CLASS_OBSERVER_QUORUM_FAIL => Deltas 4 0 0
  | CLASS_NO_ELIGIBLE_TICKET => Deltas 0 0 0
  | CLASS_INVALID_TRANSCRIPT => Deltas 0 0 0
  | CLASS_RECHECK_CONFIRMED_FAIL => Deltas 15 3 8
  | _ => Deltas 0 0 0
  end.

Definition epochDelta (currentEpoch lastUpdatedEpoch : Z) : Z :=
  if currentEpoch <=? lastUpdatedEpoch then 0 else currentEpoch - lastUpdatedEpoch.

Definition reporterTrustBandForScore (score : Z) (params : AuditParams) : ReporterTrustBand :=
  let positive t d := if t <=? 0 then d else t in
  let ineligibleThreshold := positive (StorageTruthReporterReliabilityIneligibleThreshold params) 90 in
  let degradedThreshold := positive (StorageTruthReporterReliabilityDegradedThreshold params) 50 in
  let lowTrustThreshold := positive (StorageTruthReporterReliabilityLowTrustThreshold params) 20 in
  if ineligibleThreshold <=? score then TRUST_CHALLENGER_INELIGIBLE else
  if degradedThreshold <=? score then TRUST_DEGRADED else
  if lowTrustThreshold <=? score then TRUST_LOW_TRUST else TRUST_NORMAL.

Definition reporterTrustMultiplierNumerator (score : Z) : Z :=
  if score <=? 0 then 100 else
  let numerator := i64 (100 - score) in
  if numerator <? 50 then 50 else numerator.

(** [big.Int.Int64] of the quotient rounded toward zero. *)
Definition scaleInt64TowardZero (value numerator denominator : Z) : Z :=
  if (denominator <=? 0) || (numerator <=? 0) || (value =? 0) then 0 else
  if denominator <=? numerator then value else
  i64 (Z.quot (value * numerator) denominator).

Definition isStorageTruthFailureClass (class : StorageProofResultClass) : bool :=
  match class with
  | CLASS_HASH_MISMATCH | CLASS_TIMEOUT_OR_NO_RESPONSE | CLASS_OBSERVER_QUORUM_FAIL
  | CLASS_INVALID_TRANSCRIPT | CLASS_RECHECK_CONFIRMED_FAIL => true
  | _ => false
  end.

Definition isPass (class : StorageProofResultClass) : bool := bool_decide (class = CLASS_PASS).

Definition storageTruthResultsContradict (prev current : StorageProofResultClass) : bool :=
  (isPass prev && isStorageTruthFailureClass current)
  || (isPass current && isStorageTruthFailureClass prev).

Definition MaxUint32 : Z := 2 ^ 32 - 1.

Definition updateRecentFailureEpochCount (state : TicketDeteriorationState) (epochID : Z)
    (params : AuditParams) : Z :=
  let count := td_RecentFailureEpochCount state in
  if epochID =? td_LastFailureEpoch state then (if count =? 0 then 1 else count) else
  if count =? 0 then 1 else
  let window := or_default (StorageTruthPatternEscalationWindow params) 14 in
  let window := if window <? 2 then 2 else window in
  if window <? epochDelta epochID (td_LastFailureEpoch state) then 1 else
  if count =? MaxUint32 then MaxUint32 else count + 1.

Definition repeatedFailureEscalationBonus (count : Z) : Z :=
  if count <=? 1 then 0 else if count =? 2 then 10 else 15.

Definition storageTruthWindowStart (epochID window : Z) : Z :=
  if (window =? 0) || (u64 (epochID + 1) <=? window) then 0
  else u64 (u64 (epochID - window) + 1).

Definition boolToUint64 (v : bool) : Z := if v then 1 else 0.

(** The loop of [decayTowardZero]: at most [n] multiplications. *)
Fixpoint decay_loop (n : nat) (factorNumerator result : Z) : Z :=
  match n with
  | O => result
  | S n' =>
      let result := scaleInt64TowardZero result factorNumerator 1000 in
      if result =? 0 then 0 else decay_loop n' factorNumerator result
  end.

Definition decayTowardZero (score factorNumerator elapsedEpochs : Z) : Z :=
  if (score =? 0) || (elapsedEpochs =? 0) then score else
  if factorNumerator <=? 0 then score else
  if 1000 <? factorNumerator then score else
  if factorNumerator =? 1000 then score else
  let iterations := if 50 <? elapsedEpochs then 50 else elapsedEpochs in
  let result := decay_loop (Z.to_nat iterations) factorNumerator score in
  if 0 <? score then (if result <? 0 then 0 else result)
  else (if 0 <? result then 0 else result).

Definition MinInt64 : Z := - 2 ^ 63.
Definition addInt64Saturated (a b : Z) : Z :=
  if (0 <? b) && (i64 (MaxInt64 - b) <? a) then MaxInt64 else
  if (b <? 0) && (a <? i64 (MinInt64 - b)) then MinInt64 else
  i64 (a + b).

(** ** Facts *)
Lemma quot_scale_bounds v n :
  0 < n < 1000 → 0 ≤ v → 0 ≤ Z.quot (v * n) 1000 ≤ v ∧ (0 < v → Z.quot (v * n) 1000 < v).
Proof.
  intros Hn Hv. rewrite Z.quot_div_nonneg by lia.
  split; [split; [apply Z.div_pos; lia|apply Z.div_le_upper_bound; nia]|].
  intros. apply Z.div_lt_upper_bound; nia.
Qed.

(** Scaling a nonnegative score by a factor below one keeps its sign and makes a
    positive score strictly smaller. *)
Lemma scale_nonneg v n :
  0 < n < 1000 → 0 ≤ v → in_i64 v →
  0 ≤ scaleInt64TowardZero v n 1000 ≤ v ∧ (0 < v → scaleInt64TowardZero v n 1000 < v).
Proof.
  intros Hn Hv Hi. unfold scaleInt64TowardZero.
  destruct (Z.leb_spec 1000 0); [lia|]. destruct (Z.leb_spec n 0); [lia|]. simpl.
  destruct (Z.eqb_spec v 0); [lia|]. destruct (Z.leb_spec 1000 n); [lia|].
  destruct (quot_scale_bounds v n Hn Hv). unfold in_i64 in Hi.
  rewrite i64_small by (unfold in_i64; lia). lia.
Qed.

Lemma decay_loop_nonneg n f v :
  0 < f < 1000 → 0 ≤ v → in_i64 v → 0 ≤ decay_loop n f v ≤ v.
Proof.
  intros Hf. revert v. induction n as [|n IH]; intros v Hv Hi; simpl; [lia|].
  destruct (scale_nonneg v f Hf Hv Hi) as [Hs _].
  destruct (Z.eqb_spec (scaleInt64TowardZero v f 1000) 0); [lia|].
  specialize (IH (scaleInt64TowardZero v f 1000)). unfold in_i64 in *. lia.
Qed.

Lemma scale_mono v w n :
  0 < n < 1000 → 0 ≤ v ≤ w → in_i64 w →
  scaleInt64TowardZero v n 1000 ≤ scaleInt64TowardZero w n 1000.
Proof.
  intros Hn Hvw Hi. destruct (Z.eq_dec v 0) as [->|Hv].
  { unfold scaleInt64TowardZero at 1. rewrite orb_true_r.
    pose proof (scale_nonneg w n Hn ltac:(lia) Hi). lia. }
  unfold scaleInt64TowardZero.
  destruct (Z.leb_spec 1000 0); [lia|]. destruct (Z.leb_spec n 0); [lia|]. simpl.
  destruct (Z.eqb_spec v 0); [lia|]. destruct (Z.eqb_spec w 0); [lia|].
  destruct (Z.leb_spec 1000 n); [lia|].
  pose proof (quot_scale_bounds v n Hn ltac:(lia)). pose proof (quot_scale_bounds w n Hn ltac:(lia)).
  unfold in_i64 in Hi. rewrite !i64_small by (unfold in_i64; lia).
  apply Z.quot_le_mono; nia.
Qed.

Lemma decay_loop_mono n f v w :
  0 < f < 1000 → 0 ≤ v ≤ w → in_i64 w → decay_loop n f v ≤ decay_loop n f w.
Proof.
  intros Hf. revert v w. induction n as [|n IH]; intros v w Hvw Hi; simpl; [lia|].
  pose proof (scale_mono v w f Hf Hvw Hi). unfold in_i64 in Hi.
  pose proof (scale_nonneg v f Hf ltac:(lia) ltac:(unfold in_i64; lia)).
  pose proof (scale_nonneg w f Hf ltac:(lia) ltac:(unfold in_i64; lia)).
  destruct (Z.eqb_spec (scaleInt64TowardZero v f 1000) 0);
    destruct (Z.eqb_spec (scaleInt64TowardZero w f 1000) 0); try lia.
  - apply (decay_loop_nonneg n f); [done|lia|unfold in_i64; lia].
  - apply IH; [lia|unfold in_i64; lia].
Qed.

(** On a nonnegative score: 50 multiplications at most, none for a factor of one. *)
Lemma decay_eq v f e :
  0 ≤ v → in_i64 v → 0 ≤ e →
  decayTowardZero v f e =
    if (0 <? f) && (f <? 1000) then decay_loop (Z.to_nat (Z.min 50 e)) f v else v.
Proof.
  intros Hv Hi He. unfold decayTowardZero.
  destruct (Z.ltb_spec 0 f), (Z.ltb_spec f 1000); simpl.
  2-4: destruct (_ || _); [done|]; destruct (Z.leb_spec f 0); [done|];
    destruct (Z.ltb_spec 1000 f); [done|]; destruct (Z.eqb_spec f 1000); [done|lia].
  assert (0 < f < 1000) as Hf by lia.
  replace (if 50 <? e then 50 else e) with (Z.min 50 e)
    by (destruct (Z.ltb_spec 50 e); lia).
  pose proof (decay_loop_nonneg (Z.to_nat (Z.min 50 e)) f v Hf Hv Hi) as Hd.
  destruct (Z.eqb_spec v 0) as [->|Hv0]; simpl; [lia|].
  destruct (Z.eqb_spec e 0) as [->|He0]; [done|].
  destruct (Z.leb_spec f 0); [lia|]. destruct (Z.ltb_spec 1000 f); [lia|].
  destruct (Z.eqb_spec f 1000); [lia|]. destruct (Z.ltb_spec 0 v); [|lia].
  destruct (Z.ltb_spec (decay_loop (Z.to_nat (Z.min 50 e)) f v) 0); lia.
Qed.

Lemma decay_loop_more n m f v :
  0 < f < 1000 → 0 ≤ v → in_i64 v → (n ≤ m)%nat → decay_loop m f v ≤ decay_loop n f v.
Proof.
  intros Hf. revert m v. induction n as [|n IH]; intros m v Hv Hi Hnm; simpl.
  - by apply decay_loop_nonneg.
  - destruct m as [|m]; [lia|]. simpl. unfold in_i64 in *.
    destruct (scale_nonneg v f Hf Hv Hi) as [Hs _].
    destruct (Z.eqb_spec (scaleInt64TowardZero v f 1000) 0); [lia|].
    apply IH; unfold in_i64; lia.
Qed.

(** A decayed nonnegative score is nonnegative and not above the score. *)
Lemma decay_nonneg v f e :
  0 ≤ v → in_i64 v → 0 ≤ e → 0 ≤ decayTowardZero v f e ≤ v.
Proof.
  intros Hv Hi He. rewrite decay_eq by done.
  destruct (Z.ltb_spec 0 f), (Z.ltb_spec f 1000); simpl; try lia. by apply decay_loop_nonneg.
Qed.
(** More elapsed epochs never give a higher score. *)
Lemma decay_more v f e e' :
  0 ≤ v → in_i64 v → 0 ≤ e ≤ e' → decayTowardZero v f e' ≤ decayTowardZero v f e.
Proof.
  intros Hv Hi He. rewrite !decay_eq by (done || lia).
  destruct (Z.ltb_spec 0 f), (Z.ltb_spec f 1000); simpl; try lia. apply decay_loop_more; lia || done.
Qed.
(** Decay keeps the order of two scores. *)
Lemma decay_mono v w f e :
  0 ≤ v ≤ w → in_i64 w → 0 ≤ e → decayTowardZero v f e ≤ decayTowardZero w f e.
Proof.
  intros Hvw Hi He. unfold in_i64 in Hi. rewrite !decay_eq by (done || unfold in_i64; lia).
  destruct (Z.ltb_spec 0 f), (Z.ltb_spec f 1000); simpl; try lia.
  apply decay_loop_mono; unfold in_i64; lia.
Qed.

(** Saturating addition is the addition of integers, clamped to [int64]. *)
Lemma addInt64Saturated_clamp a b :
  in_i64 a → in_i64 b → addInt64Saturated a b = Z.max MinInt64 (Z.min MaxInt64 (a + b)).
Proof.
  unfold in_i64, addInt64Saturated, MaxInt64, MinInt64. intros Ha Hb.
  destruct (Z.ltb_spec 0 b); simpl.
  - rewrite (i64_small (2 ^ 63 - 1 - b)) by (unfold in_i64; lia).
    destruct (Z.ltb_spec (2 ^ 63 - 1 - b) a); [lia|].
    destruct (Z.ltb_spec b 0); [lia|]. simpl. rewrite i64_small by (unfold in_i64; lia). lia.
  - destruct (Z.ltb_spec b 0); simpl.
    + rewrite (i64_small (- 2 ^ 63 - b)) by (unfold in_i64; lia).
      destruct (Z.ltb_spec a (- 2 ^ 63 - b)); [lia|]. rewrite i64_small by (unfold in_i64; lia). lia.
    + rewrite i64_small by (unfold in_i64; lia). lia.
Qed.

Lemma addInt64Saturated_range a b : in_i64 (addInt64Saturated a b).
Proof.
  unfold addInt64Saturated. repeat case_match; [done|done|apply i64_range].
Qed.
