(* ===== verification/Assign.v ===== *)
(** * x/audit/v1/keeper/audit_peer_assignment.go

    Which targets a reporter has to observe in an epoch, computed from the epoch
    anchor: a round robin over the targets, or, with storage-truth enforcement,
    one target per challenger chosen by hash rank. *)
From Stdlib Require Import ZArith Lia.
From stdpp Require Import base numbers strings list gmap sorting.
From S2P Require Import Prelude AuditParam AuditTypes GoHash Scoring.
Open Scope Z_scope.

(** ** The round robin *)
Definition computeKFromParams (params : AuditParams) (sendersCount receiversCount : Z) : Z :=
  if (sendersCount <=? 0) || (receiversCount <=? 1) then 0 else
  let a := sendersCount in
  let n := receiversCount in
  let q := PeerQuorumReports params in
  let kNeeded := u64 (u64 (q * n) + a - 1) / a in
  let kMin := MinProbeTargetsPerEpoch params in
  let kMax := MaxProbeTargetsPerEpoch params in
  let kNeeded := if kNeeded <? kMin then kMin else kNeeded in
  let kNeeded := if kMax <? kNeeded then kMax else kNeeded in
  let kNeeded := if n - 1 <? kNeeded then n - 1 else kNeeded in
  u32 kNeeded.

(** The inner loop: from [candidate], the first index whose target is not the
    reporter and which is not taken; [None] after a full turn. *)
Fixpoint probe (tries : nat) (targets : list string) (reporter : string) (seen : list nat)
    (candidate : nat) : option nat :=
  match tries with
  | O => None
  | S tries' =>
      if bool_decide (targets !! candidate ≠ Some reporter) && bool_decide (candidate ∉ seen)
      then Some candidate
      else probe tries' targets reporter seen ((candidate + 1) mod length targets)
  end.

(** The outer loop, from slot [slot] on, [n] slots. *)
Fixpoint assign_slots (n : nat) (targets : list string) (reporter : string) (offset slot : nat)
    (seen : list nat) : list string :=
  match n with
  | O => []
  | S n' =>
      match probe (length targets) targets reporter seen ((offset + slot) mod length targets) with
      | None => []
      | Some candidate =>
          match targets !! candidate with
          | Some t => t :: assign_slots n' targets reporter offset (S slot) (candidate :: seen)
          | None => []
          end
      end
  end.

(** The index of the first occurrence. *)
Fixpoint string_index (l : list string) (x : string) : option nat :=
  match l with
  | [] => None
  | y :: l' => if decide (y = x) then Some O else S <$> string_index l' x
  end.

Definition be_uint64 (b : bytes) : Z := foldl (λ acc x, acc * 256 + x) 0 b.

(** ** Ranked assignment *)
Definition storageTruthAssignmentHash (seed : bytes) (parts : list string) : bytes :=
  Sha256.sum256 (seed ++ concat ((λ p, 0 :: string_bytes p) <$> parts)).

(** The values that are not empty, each once, sorted. *)
Definition sortedUniqueStrings (l : list string) : list string :=
  sort_Strings (remove_dups (filter (λ s, s ≠ ""%string) l)).

(** Less by rank, then by account. *)
Definition rank_less (x y : bytes * string) : bool :=
  if decide (x.1 = y.1)
  then bool_decide (string_le x.2 y.2) && bool_decide (x.2 ≠ y.2)
  else bool_decide (bytes_le x.1 y.1).

Definition rankStorageTruthAccounts (seed : bytes) (accounts : list string) (label : string)
    : list string :=
  (sort_stable rank_less
     ((λ a, (storageTruthAssignmentHash seed [a; label], a)) <$> accounts)).*2.

Definition storageTruthChallengeTargetCount (params : AuditParams) (activeCount : Z) : Z :=
  if activeCount <=? 0 then 0 else
  let divisor := StorageTruthChallengeTargetDivisor params in
  let divisor := if divisor <=? 0 then DefaultStorageTruthChallengeTargetDivisor else divisor in
  let count := Z.quot (activeCount + divisor - 1) divisor in
  let count := if count <? 1 then 1 else count in
  if activeCount <? count then activeCount else count.

(** The candidate of the lowest pair rank, scanning the list; [None] for the
    empty string that the code starts from. *)
Fixpoint best_target (seed : bytes) (challenger : string) (l : list string)
    (best : option (bytes * string)) : option (bytes * string) :=
  match l with
  | [] => best
  | target :: l' =>
      if decide (target = challenger) then best_target seed challenger l' best else
      let cand := (storageTruthAssignmentHash seed [challenger; target; "pair"%string], target) in
      best_target seed challenger l'
        (match best with
         | None => Some cand
         | Some b => if rank_less cand b then Some cand else Some b
         end)
  end.

Section Challengers.
(** The order in which Go's range statement visits the keys of a map. *)
Variable map_order : list string → list string.

(** The loop over the challengers.  [unassigned] holds the keys of
    unassignedTargets, [assigned] those of assignedTargets. *)
Fixpoint assign_challengers (seed : bytes) (targetCount : Z) (ranked : list string)
    (reporter : string) (active unassigned assigned : list string) : list string :=
  match active with
  | [] => []
  | challenger :: active' =>
      if targetCount <=? zlen assigned then [] else
      let best := best_target seed challenger (map_order unassigned) None in
      let best := match best with
                  | Some b => Some b
                  | None => best_target seed challenger
                              (filter (λ t, t ∉ assigned) ranked) None
                  end in
      match best with
      | None => assign_challengers seed targetCount ranked reporter active' unassigned assigned
      | Some (_, bestTarget) =>
          if decide (challenger = reporter) then [bestTarget] else
          assign_challengers seed targetCount ranked reporter active'
            (filter (λ t, t ≠ bestTarget) unassigned) (bestTarget :: assigned)
      end
  end.

Definition computeStorageTruthTargetsForReporter (params : AuditParams)
    (activeSorted targetsSorted : list string) (seed : bytes) (reporter : string) : list string :=
  if negb (containsString activeSorted reporter) then [] else
  let active := sortedUniqueStrings activeSorted in
  let targetCandidates := sortedUniqueStrings targetsSorted in
  let targetCandidates := match targetCandidates with [] => active | l => l end in
  if (zlen active <=? 1) || (zlen targetCandidates =? 0) then [] else
  let targetCount := storageTruthChallengeTargetCount params (zlen active) in
  let targetCount := if zlen targetCandidates <? targetCount then zlen targetCandidates
                     else targetCount in
  let rankedTargets := rankStorageTruthAccounts seed targetCandidates "challenge_target" in
  let selectedTargets := take (Z.to_nat targetCount) rankedTargets in
  assign_challengers seed targetCount rankedTargets reporter active selectedTargets [].

(** The targets, and whether the reporter is a prober of the epoch. *)
Definition computeAuditPeerTargetsForReporter (params : AuditParams)
    (activeSorted targetsSorted : list string) (seed : bytes) (reporter : string)
    : result (list string * bool) :=
  if decide (reporter = ""%string) then Err (ErrOther "empty reporter") else
  if zlen seed <? 8 then Err (ErrOther "seed must be at least 8 bytes") else
  if decide (StorageTruthEnforcementMode params ≠ STORAGE_TRUTH_ENFORCEMENT_MODE_UNSPECIFIED)
  then Ok (computeStorageTruthTargetsForReporter params activeSorted targetsSorted seed reporter,
           containsString activeSorted reporter) else
  match string_index activeSorted reporter with
  | None => Ok ([], false)
  | Some reporterIndex =>
      let kEpoch := computeKFromParams params (zlen activeSorted) (zlen targetsSorted) in
      if (kEpoch =? 0) || (zlen targetsSorted =? 0) then Ok ([], true) else
      let offset := Z.to_nat (be_uint64 (take 8 seed) mod zlen targetsSorted) in
      Ok (assign_slots (Z.to_nat kEpoch) targetsSorted reporter offset
            (reporterIndex * Z.to_nat kEpoch) [], true)
  end.
End Challengers.

(** ** Challengers that may probe *)
Definition storageTruthEligibleChallengers (activeSorted : list string) (epochID : Z)
    (params : AuditParams) (s : score_store) : list string :=
  if decide (StorageTruthEnforcementMode params = STORAGE_TRUTH_ENFORCEMENT_MODE_UNSPECIFIED)
  then activeSorted else
  let threshold := StorageTruthReporterReliabilityIneligibleThreshold params in
  let threshold := if threshold <=? 0
                   then DefaultStorageTruthReporterReliabilityIneligibleThreshold
                   else threshold in
  List.filter (λ account,
    match sc_reporters s !! account with
    | None => true
    | Some state =>
        let score := decayTowardZero (rr_ReliabilityScore state)
                       (StorageTruthReporterReliabilityDecayPerEpoch params)
                       (epochDelta epochID (rr_LastUpdatedEpoch state)) in
        negb ((threshold <=? score)
              || (negb (rr_IneligibleUntilEpoch state =? 0)
                  && (epochID <=? rr_IneligibleUntilEpoch state)))
    end) activeSorted.
