(* ===== verification/AssignThm.v ===== *)
(** * The assignment of targets: determinism, exclusion and coverage *)
From Stdlib Require Import ZArith Lia.
From stdpp Require Import base numbers strings list gmap sorting.
From S2P Require Import Prelude AuditParam AuditTypes GoHash Scoring Assign.
Open Scope Z_scope.

(** ** The order by rank *)
Lemma string_le_antisym x y : string_le x y → string_le y x → x = y.
Proof.
  intros H1 H2. apply string_bytes_inj. exact (anti_symm bytes_le _ _ H1 H2).
Qed.

Lemma rank_less_irrefl x : rank_less x x = false.
Proof.
  unfold rank_less. destruct (decide (x.1 = x.1)); [|done].
  apply andb_false_iff. right. apply bool_decide_eq_false. by intros [].
Qed.

Lemma rank_less_total x y : x ≠ y → rank_less x y = true ∨ rank_less y x = true.
Proof.
  destruct x as [r a], y as [r' a']. unfold rank_less. simpl. intros Hne.
  destruct (decide (r = r')) as [->|Hr]; [rewrite decide_True by done|rewrite decide_False by done].
  - assert (a ≠ a') by congruence.
    destruct (total bytes_le (string_bytes a) (string_bytes a'));
      [left|right]; apply andb_true_iff; split; by apply bool_decide_eq_true.
  - destruct (total bytes_le r r'); [left|right]; by apply bool_decide_eq_true.
Qed.

Lemma rank_less_trans x y z :
  rank_less x y = true → rank_less y z = true → rank_less x z = true.
Proof.
  destruct x as [r a], y as [r' a'], z as [r'' a'']. unfold rank_less. simpl.
  destruct (decide (r = r')) as [->|H1], (decide (r' = r'')) as [->|H2].
  - rewrite !andb_true_iff, !bool_decide_eq_true. intros [L1 N1] [L2 N2].
    split; [by unfold string_le in *; etrans|]. intros ->. by apply N1, string_le_antisym.
  - done.
  - by rewrite decide_False by done.
  - rewrite !bool_decide_eq_true. intros L1 L2.
    destruct (decide (r = r'')) as [->|H3]; [by destruct H1; apply (anti_symm bytes_le)|].
    apply bool_decide_eq_true. by etrans.
Qed.

Lemma rank_less_asym x y : rank_less x y = true → rank_less y x = false.
Proof.
  intros H. destruct (rank_less y x) eqn:E; [|done].
  pose proof (rank_less_irrefl x) as Hi. by rewrite (rank_less_trans x y x H E) in Hi.
Qed.

(** ** The best target does not depend on the order of the scan *)
Definition keep_better (best : option (bytes * string)) (c : bytes * string)
    : option (bytes * string) :=
  match best with
  | None => Some c
  | Some b => if rank_less c b then Some c else Some b
  end.

Lemma keep_better_swap best x y :
  keep_better (keep_better best x) y = keep_better (keep_better best y) x.
Proof.
  destruct (decide (x = y)) as [->|Hne]; [done|].
  destruct (rank_less_total x y Hne) as [H|H]; pose proof (rank_less_asym _ _ H) as Ha;
    (destruct best as [b|]; simpl; [|by rewrite ?H, ?Ha]).
  - destruct (rank_less y b) eqn:E1; simpl.
    + rewrite (rank_less_trans x y b H E1). simpl. by rewrite H, Ha.
    + destruct (rank_less x b) eqn:E2; simpl; by rewrite ?Ha, ?E1, ?E2.
  - destruct (rank_less x b) eqn:E1; simpl.
    + rewrite (rank_less_trans y x b H E1). simpl. by rewrite H, Ha.
    + destruct (rank_less y b) eqn:E2; simpl; by rewrite ?Ha, ?E1, ?E2.
Qed.

Lemma best_target_perm seed ch l1 l2 :
  l1 ≡ₚ l2 → ∀ b, best_target seed ch l1 b = best_target seed ch l2 b.
Proof.
  induction 1 as [|x l1 l2 _ IH|x y l|l1 l2 l3 _ IH1 _ IH2]; intros b; simpl.
  - done.
  - by destruct (decide (x = ch)).
  - destruct (decide (y = ch)), (decide (x = ch)); try done.
    f_equal. apply (keep_better_swap b (_, y) (_, x)).
  - by rewrite IH1.
Qed.

(** ** The whole assignment, for all challengers at once *)
Section Assignment.
Variable map_order : list string → list string.
Hypothesis map_order_perm : ∀ l, map_order l ≡ₚ l.

Definition choose (seed : bytes) (ranked : list string) (ch : string)
    (unassigned assigned : list string) : option (bytes * string) :=
  match best_target seed ch (map_order unassigned) None with
  | Some b => Some b
  | None => best_target seed ch (filter (λ t, t ∉ assigned) ranked) None
  end.

Fixpoint assign_all (seed : bytes) (targetCount : Z) (ranked active unassigned assigned : list string)
    : list (string * string) :=
  match active with
  | [] => []
  | ch :: active' =>
      if targetCount <=? zlen assigned then [] else
      match choose seed ranked ch unassigned assigned with
      | None => assign_all seed targetCount ranked active' unassigned assigned
      | Some (_, t) =>
          (ch, t) :: assign_all seed targetCount ranked active'
                       (filter (λ u, u ≠ t) unassigned) (t :: assigned)
      end
  end.

(** A target that is chosen is not the challenger and is not taken. *)
Lemma best_target_in seed ch l b r t :
  best_target seed ch l b = Some (r, t) → b = Some (r, t) ∨ (t ∈ l ∧ t ≠ ch).
Proof.
  revert b. induction l as [|x l IH]; intros b; simpl; [by left|].
  destruct (decide (x = ch)) as [->|Hx].
  - intros [H|[H1 H2]]%IH; [by left|right; split; [by right|done]].
  - intros [H|[H1 H2]]%IH; [|right; split; [by right|done]].
    destruct b as [b|]; [destruct (rank_less _ b)|]; simplify_eq;
      try by left. all: right; split; [left|done].
Qed.

Lemma choose_in seed ranked ch un asg r t :
  choose seed ranked ch un asg = Some (r, t) →
  t ≠ ch ∧ (t ∈ un ∨ (t ∈ ranked ∧ t ∉ asg)).
Proof.
  unfold choose. destruct (best_target seed ch (map_order un) None) as [b|] eqn:E.
  - intros [= ->]. apply best_target_in in E as [?|[Hin ?]]; [done|].
    split; [done|]. left. by rewrite map_order_perm in Hin.
  - intros [?|[Hin ?]]%best_target_in; [done|]. split; [done|]. right.
    by apply list_elem_of_filter in Hin as [? ?].
Qed.

Lemma assign_all_spec seed count ranked active un asg :
  (∀ t, t ∈ un → t ∉ asg ∧ t ∈ ranked) →
  let l := assign_all seed count ranked active un asg in
  NoDup l.*2 ∧ l.*1 `sublist_of` active ∧
  (∀ c t, (c, t) ∈ l → c ≠ t ∧ t ∉ asg ∧ t ∈ ranked) ∧
  zlen l ≤ Z.max 0 (count - zlen asg).
Proof.
  revert un asg. induction active as [|ch active IH]; intros un asg Hun; simpl.
  { split_and!; [constructor|constructor|by intros ? ? ?%not_elem_of_nil|cbv [zlen length]; lia]. }
  destruct (Z.leb_spec count (zlen asg)).
  { split_and!; [constructor|apply sublist_nil_l|by intros ? ? ?%not_elem_of_nil|
      cbv [zlen length]; lia]. }
  destruct (choose seed ranked ch un asg) as [[r t]|] eqn:E.
  - apply choose_in in E as [Hne Ht].
    assert (t ∉ asg ∧ t ∈ ranked) as [Hna Hr].
    { destruct Ht as [Ht|[? ?]]; [by apply Hun|done]. }
    destruct (IH (filter (λ u, u ≠ t) un) (t :: asg)) as (H1 & H2 & H3 & H4).
    { intros u [Hu1 Hu2]%list_elem_of_filter. destruct (Hun u Hu2).
      split; [|done]. by apply not_elem_of_cons. }
    split_and!; simpl.
    + constructor; [|done]. intros [[c t'] [-> Hin]]%list_elem_of_fmap.
      apply H3 in Hin as (_ & Hn & _). apply Hn. by left.
    + by constructor.
    + intros c u [[= -> ->]|Hin]%elem_of_cons; [done|].
      apply H3 in Hin as (? & Hn & ?). apply not_elem_of_cons in Hn as [? ?]. done.
    + unfold zlen in *. simpl in *. lia.
  - destruct (IH un asg Hun) as (H1 & H2 & H3 & H4). split_and!; [done|by constructor|done|done].
Qed.

(** What one reporter gets is its entry of the whole assignment. *)
Lemma assign_challengers_lookup seed count ranked reporter active un asg t :
  t ∈ assign_challengers map_order seed count ranked reporter active un asg →
  (reporter, t) ∈ assign_all seed count ranked active un asg.
Proof.
  revert un asg. induction active as [|ch active IH]; intros un asg; simpl;
    [by intros ?%not_elem_of_nil|].
  destruct (count <=? zlen asg); [by intros ?%not_elem_of_nil|]. fold (choose seed ranked ch un asg).
  destruct (choose seed ranked ch un asg) as [[r u]|]; [|apply IH].
  destruct (decide (ch = reporter)) as [->|Hne].
  - intros ->%list_elem_of_singleton. by left.
  - intros Hin. right. by apply IH.
Qed.

Lemma assign_challengers_length seed count ranked reporter active un asg :
  (length (assign_challengers map_order seed count ranked reporter active un asg) ≤ 1)%nat.
Proof.
  revert un asg. induction active as [|ch active IH]; intros un asg; simpl; [lia|].
  destruct (count <=? zlen asg); [simpl; lia|]. fold (choose seed ranked ch un asg).
  destruct (choose seed ranked ch un asg) as [[r u]|]; [|apply IH].
  destruct (decide (ch = reporter)); [simpl; lia|apply IH].
Qed.
End Assignment.

Lemma assign_challengers_order o1 o2 seed count ranked reporter active un asg :
  (∀ l, o1 l ≡ₚ l) → (∀ l, o2 l ≡ₚ l) →
  assign_challengers o1 seed count ranked reporter active un asg =
  assign_challengers o2 seed count ranked reporter active un asg.
Proof.
  intros H1 H2. revert un asg. induction active as [|ch active IH]; intros un asg; simpl; [done|].
  destruct (count <=? zlen asg); [done|].
  rewrite (best_target_perm seed ch (o1 un) (o2 un)) by by rewrite H1, H2.
  repeat case_match; auto.
Qed.

Lemma rankStorageTruthAccounts_perm seed l label :
  rankStorageTruthAccounts seed l label ≡ₚ l.
Proof.
  unfold rankStorageTruthAccounts. rewrite sort_stable_perm, <- list_fmap_compose.
  by rewrite (list_fmap_ext _ id) by done; rewrite list_fmap_id.
Qed.

Lemma sortedUniqueStrings_spec l :
  NoDup (sortedUniqueStrings l) ∧ ∀ x, x ∈ sortedUniqueStrings l ↔ x ∈ l ∧ x ≠ ""%string.
Proof.
  unfold sortedUniqueStrings, sort_Strings. split.
  - rewrite merge_sort_Permutation. apply NoDup_remove_dups.
  - intros x. rewrite merge_sort_Permutation, elem_of_remove_dups, list_elem_of_filter. tauto.
Qed.

(** ** Storage-truth assignment *)
Lemma NoDup_snd_inj {A B} (l : list (A * B)) a a' b :
  NoDup l.*2 → (a, b) ∈ l → (a', b) ∈ l → a = a'.
Proof.
  intros Hnd [i Hi]%list_elem_of_lookup_1 [j Hj]%list_elem_of_lookup_1.
  assert (i = j) as ->.
  { eapply NoDup_lookup; [done|rewrite list_lookup_fmap, Hi|rewrite list_lookup_fmap, Hj]; done. }
  congruence.
Qed.

Definition target_pool (activeSorted targetsSorted : list string) : list string :=
  let targetCandidates := sortedUniqueStrings targetsSorted in
  match targetCandidates with [] => sortedUniqueStrings activeSorted | l => l end.

Definition clamped_count (params : AuditParams) (active targets : list string) : Z :=
  let count := storageTruthChallengeTargetCount params (zlen (sortedUniqueStrings active)) in
  if zlen (target_pool active targets) <? count then zlen (target_pool active targets) else count.

Definition st_assignment (o : list string → list string) (params : AuditParams)
    (active targets : list string) (seed : bytes) : list (string * string) :=
  let ranked := rankStorageTruthAccounts seed (target_pool active targets) "challenge_target" in
  let count := clamped_count params active targets in
  assign_all o seed count ranked (sortedUniqueStrings active) (take (Z.to_nat count) ranked) [].

Lemma st_targets_in_assignment o params active targets seed r t :
  (∀ l, o l ≡ₚ l) →
  t ∈ computeStorageTruthTargetsForReporter o params active targets seed r →
  r ∈ active ∧ (r, t) ∈ st_assignment o params active targets seed.
Proof.
  intros Ho. unfold computeStorageTruthTargetsForReporter, containsString.
  destruct (bool_decide_reflect (r ∈ active)) as [Hr|]; [|by intros ?%not_elem_of_nil].
  cbn [negb]. fold (target_pool active targets).
  destruct (_ || _); [by intros ?%not_elem_of_nil|].
  fold (clamped_count params active targets). intros Ht. split; [done|].
  exact (assign_challengers_lookup o seed _ _ r _ _ _ t Ht).
Qed.

Lemma st_assignment_spec o params active targets seed :
  (∀ l, o l ≡ₚ l) →
  let l := st_assignment o params active targets seed in
  NoDup l.*2 ∧ l.*1 `sublist_of` sortedUniqueStrings active ∧
  (∀ c t, (c, t) ∈ l → c ≠ t ∧ t ∈ target_pool active targets) ∧
  zlen l ≤ Z.max 0 (clamped_count params active targets).
Proof.
  intros Ho. unfold st_assignment.
  set (ranked := rankStorageTruthAccounts _ _ _). set (count := clamped_count _ _ _).
  destruct (assign_all_spec o Ho seed count ranked (sortedUniqueStrings active)
    (take (Z.to_nat count) ranked) []) as (H1 & H2 & H3 & H4).
  { intros t Ht. split; [apply not_elem_of_nil|]. eapply elem_of_take in Ht as (? & ? & ?).
    by eapply list_elem_of_lookup_2. }
  split_and!; [done|done| |].
  - intros c t Hct. destruct (H3 c t Hct) as (? & _ & Hr). split; [done|].
    unfold ranked in Hr. by rewrite rankStorageTruthAccounts_perm in Hr.
  - unfold zlen in *. simpl in *. lia.
Qed.

(** C34. Under storage-truth enforcement a reporter of the epoch is assigned at
    most one target; the target is another supernode of the anchored target set
    (or of the active set, when that is empty), and two reporters are never
    assigned the same target. *)
Theorem challenge_targets_exclusive o params active targets seed r1 r2 t :
  (∀ l, o l ≡ₚ l) →
  t ∈ computeStorageTruthTargetsForReporter o params active targets seed r1 →
  (length (computeStorageTruthTargetsForReporter o params active targets seed r1) ≤ 1)%nat ∧
  r1 ∈ active ∧ t ≠ r1 ∧ t ≠ ""%string ∧
  (t ∈ targets ∨ (∀ x, x ∈ targets → x = ""%string) ∧ t ∈ active) ∧
  (t ∈ computeStorageTruthTargetsForReporter o params active targets seed r2 → r1 = r2).
Proof.
  intros Ho H1. split.
  { unfold computeStorageTruthTargetsForReporter. destruct (negb _); [simpl; lia|].
    destruct (_ || _); [simpl; lia|]. apply assign_challengers_length. }
  apply st_targets_in_assignment in H1 as [Ha Hin]; [|done].
  destruct (st_assignment_spec o params active targets seed Ho) as (Hnd & _ & Hs & _).
  destruct (Hs _ _ Hin) as [Hne Hp]. split_and!; [done|done| | |].
  - unfold target_pool in Hp. destruct (sortedUniqueStrings targets) eqn:E;
      [|rewrite <- E in Hp]; by apply sortedUniqueStrings_spec in Hp as [_ ?].
  - unfold target_pool in Hp. destruct (sortedUniqueStrings targets) eqn:E; [right|left].
    + apply sortedUniqueStrings_spec in Hp as [? _]. split; [|done]. intros x Hx.
      destruct (decide (x = ""%string)) as [|Hx0]; [done|].
      assert (x ∈ sortedUniqueStrings targets) as Hc by by apply sortedUniqueStrings_spec.
      rewrite E in Hc. by apply not_elem_of_nil in Hc.
    + rewrite <- E in Hp. by apply sortedUniqueStrings_spec in Hp as [? _].
  - intros H2. apply st_targets_in_assignment in H2 as [_ Hin2]; [|done].
    by eapply NoDup_snd_inj.
Qed.

(** The targets of a reporter do not depend on the order in which Go visits
    the keys of the map of unassigned targets: every validator computes the same
    assignment. *)
Theorem assignment_deterministic o1 o2 params active targets seed reporter :
  (∀ l, o1 l ≡ₚ l) → (∀ l, o2 l ≡ₚ l) →
  computeAuditPeerTargetsForReporter o1 params active targets seed reporter =
  computeAuditPeerTargetsForReporter o2 params active targets seed reporter.
Proof.
  intros H1 H2. unfold computeAuditPeerTargetsForReporter, computeStorageTruthTargetsForReporter.
  repeat (case_match; [done|]). repeat case_match; try done.
  all: by rewrite (assign_challengers_order o1 o2).
Qed.

(** ** The round robin *)
Section RoundRobin.
Variables (targets : list string) (reporter : string).
Notation n := (length targets).

Lemma probe_Some tries seen c i :
  (0 < n)%nat → (c < n)%nat → probe tries targets reporter seen c = Some i →
  (i < n)%nat ∧ targets !! i ≠ Some reporter ∧ i ∉ seen.
Proof.
  intros Hn. revert c. induction tries as [|tries IH]; intros c Hc; simpl; [done|].
  destruct (bool_decide_reflect (targets !! c ≠ Some reporter)) as [H1|];
    destruct (bool_decide_reflect (c ∉ seen)) as [H2|]; simpl;
    [by intros [= <-]|..]; apply IH, Nat.mod_upper_bound; lia.
Qed.

(** A scan that gives up has met every index of its turn. *)
Lemma probe_None tries seen c :
  (0 < n)%nat → (c < n)%nat → probe tries targets reporter seen c = None →
  ∀ d, (d < tries)%nat →
    targets !! ((c + d) mod n)%nat = Some reporter ∨ ((c + d) mod n)%nat ∈ seen.
Proof.
  intros Hn. revert c. induction tries as [|tries IH]; intros c Hc; cbn -[Nat.modulo]; [lia|].
  destruct (_ && _) eqn:E; [done|]. intros Hp d Hd.
  destruct d as [|d].
  - rewrite Nat.add_0_r, Nat.mod_small by done.
    apply andb_false_iff in E as [E|E]; apply bool_decide_eq_false in E;
      [left|right]; by apply dec_stable.
  - assert (((c + 1) mod n + d) mod n = (c + S d) mod n)%nat as <-.
    { rewrite Nat.Div0.add_mod_idemp_l. f_equal. lia. }
    apply IH; [apply Nat.mod_upper_bound; lia|done|lia].
Qed.

(** Some index is free as long as fewer than [n - 1] are taken. *)
Lemma probe_total seen c :
  NoDup targets → (c < n)%nat → (S (length seen) < n)%nat →
  is_Some (probe n targets reporter seen c).
Proof.
  intros Hnd Hc Hs. destruct (probe n targets reporter seen c) eqn:E; [done|exfalso].
  assert (∀ i, (i < n)%nat → targets !! i = Some reporter ∨ i ∈ seen) as Hall.
  { intros i Hi. pose proof (probe_None n seen c ltac:(lia) Hc E ((i + n - c) mod n)%nat
      ltac:(apply Nat.mod_upper_bound; lia)) as Hd.
    replace ((c + (i + n - c) mod n) mod n)%nat with i in Hd; [done|].
    rewrite Nat.Div0.add_mod_idemp_r. replace (c + (i + n - c))%nat with (i + 1 * n)%nat by lia.
    rewrite Nat.Div0.mod_add. symmetry. by apply Nat.mod_small. }
  assert (∃ k, seq 0 n ⊆ k :: seen) as [k Hk].
  { destruct (decide (reporter ∈ targets)) as [[k Hk]%list_elem_of_lookup_1|Hn].
    - exists k. intros i [_ Hi]%elem_of_seq. destruct (Hall i Hi) as [Hi'|]; [|by right].
      assert (i = k) as -> by by eapply NoDup_lookup. by left.
    - exists O. intros i [_ Hi]%elem_of_seq. destruct (Hall i Hi) as [Hi'|]; [|by right].
      destruct Hn. by eapply list_elem_of_lookup_2. }
  apply (NoDup_submseteq _ _ (NoDup_seq 0 n)), submseteq_length in Hk.
  rewrite length_seq in Hk. simpl in Hk. lia.
Qed.

Lemma assign_slots_spec k offset slot seen :
  NoDup targets → (k + length seen < n)%nat →
  let l := assign_slots k targets reporter offset slot seen in
  length l = k ∧ NoDup l ∧ reporter ∉ l ∧ (∀ t, t ∈ l → t ∈ targets) ∧
  (∀ i t, i ∈ seen → targets !! i = Some t → t ∉ l).
Proof.
  intros Hnd. revert slot seen. induction k as [|k IH]; intros slot seen Hk; cbn -[Nat.modulo].
  { split_and!; [done|constructor|apply not_elem_of_nil|by intros ? ?%not_elem_of_nil|].
    intros. apply not_elem_of_nil. }
  destruct (probe_total seen ((offset + slot) mod n)%nat Hnd
    ltac:(apply Nat.mod_upper_bound; lia) ltac:(lia)) as [c Hc]. rewrite Hc.
  apply probe_Some in Hc as (Hlt & Hrep & Hseen); [|lia|apply Nat.mod_upper_bound; lia].
  destruct (lookup_lt_is_Some_2 targets c Hlt) as [t Ht]. rewrite Ht.
  destruct (IH (S slot) (c :: seen)) as (H1 & H2 & H3 & H4 & H5); [simpl; lia|].
  split_and!; simpl.
  - by rewrite H1.
  - constructor; [|done]. apply (H5 c); [by left|done].
  - apply not_elem_of_cons. split; [|done]. intros ->. by rewrite Ht in Hrep.
  - intros u [->|Hu]%elem_of_cons; [by eapply list_elem_of_lookup_2|by apply H4].
  - intros i u Hi Hiu. apply not_elem_of_cons. split; [|apply (H5 i); [by right|done]].
    intros ->. assert (i = c) as ->; [|done]. exact (NoDup_lookup _ _ _ _ Hnd Hiu Ht).
Qed.
End RoundRobin.

Lemma string_index_Some l x : x ∈ l → is_Some (string_index l x).
Proof.
  induction 1 as [x l|x y l _ [i IH]]; simpl.
  - by destruct (decide (x = x)).
  - destruct (decide (y = x)); [done|]. rewrite IH. done.
Qed.

Lemma computeK_bounds p a n :
  0 ≤ MinProbeTargetsPerEpoch p ≤ MaxProbeTargetsPerEpoch p → 0 < a → 1 < n → n < 2 ^ 32 →
  0 ≤ computeKFromParams p a n ≤ n - 1 ∧
  Z.min (MinProbeTargetsPerEpoch p) (n - 1) ≤ computeKFromParams p a n
    ≤ MaxProbeTargetsPerEpoch p.
Proof.
  intros Hp Ha Hn Hn32. unfold computeKFromParams.
  destruct (Z.leb_spec a 0); [lia|]. destruct (Z.leb_spec n 1); [lia|]. simpl.
  set (k := u64 _ / a).
  assert (0 ≤ k). { apply Z.div_pos; [|lia]. by apply u64_range. }
  destruct (Z.ltb_spec k (MinProbeTargetsPerEpoch p)),
    (Z.ltb_spec (MaxProbeTargetsPerEpoch p) (MinProbeTargetsPerEpoch p)),
    (Z.ltb_spec (MaxProbeTargetsPerEpoch p) k); try lia;
    (match goal with |- context [n - 1 <? ?x] => destruct (Z.ltb_spec (n - 1) x) end);
    rewrite u32_small by (unfold in_u32; lia); lia.
Qed.

(** C35. Without storage-truth enforcement, every prober of the epoch gets exactly
    the number of targets that the parameters ask for, between the configured
    bounds; the targets are distinct, are in the anchored target set, and do not
    include the prober. *)
Theorem peer_targets_exact o params active targets seed reporter :
  StorageTruthEnforcementMode params = STORAGE_TRUTH_ENFORCEMENT_MODE_UNSPECIFIED →
  0 ≤ MinProbeTargetsPerEpoch params ≤ MaxProbeTargetsPerEpoch params →
  reporter ≠ ""%string → reporter ∈ active → 8 ≤ zlen seed →
  NoDup targets → 1 < zlen targets < 2 ^ 32 →
  ∃ l, computeAuditPeerTargetsForReporter o params active targets seed reporter = Ok (l, true) ∧
    zlen l = computeKFromParams params (zlen active) (zlen targets) ∧
    Z.min (MinProbeTargetsPerEpoch params) (zlen targets - 1) ≤ zlen l
      ≤ MaxProbeTargetsPerEpoch params ∧
    NoDup l ∧ reporter ∉ l ∧ (∀ t, t ∈ l → t ∈ targets).
Proof.
  intros Hm Hp Hr Hin Hseed Hnd Hlen. unfold computeAuditPeerTargetsForReporter.
  destruct (decide (reporter = ""%string)); [done|].
  destruct (Z.ltb_spec (zlen seed) 8); [lia|].
  rewrite decide_False by (by rewrite Hm; intros []).
  destruct (string_index_Some active reporter Hin) as [idx Hidx]. rewrite Hidx.
  assert (0 < zlen active).
  { unfold zlen. destruct active; [by apply not_elem_of_nil in Hin|simpl; lia]. }
  destruct (computeK_bounds params (zlen active) (zlen targets) Hp ltac:(lia) ltac:(lia) ltac:(lia))
    as [Hk1 Hk2].
  set (k := computeKFromParams _ _ _) in *.
  destruct (Z.eqb_spec k 0) as [Hk0|Hk0]; simpl.
  { exists []. split; [done|]. change (zlen []) with 0.
    split_and!; [done|lia|lia|constructor|apply not_elem_of_nil|by intros ? ?%not_elem_of_nil]. }
  destruct (Z.eqb_spec (zlen targets) 0); [lia|]. eexists. split; [done|].
  destruct (assign_slots_spec targets reporter (Z.to_nat k)
    (Z.to_nat (be_uint64 (take 8 seed) mod zlen targets)) (idx * Z.to_nat k) [] Hnd
    ltac:(unfold zlen in *; simpl; lia)) as (H1 & H2 & H3 & H4 & _).
  set (l := assign_slots _ _ _ _ _ _) in *.
  assert (zlen l = k) as -> by (unfold zlen; lia). done.
Qed.
