(* ===== verification/AuditKeys.v ===== *)
(** * x/audit/v1/types/keys.go: the keys of the audit store

    The byte strings under which the keeper stores each kind of record, and the
    bounds of its range scans.  The theorems at the end are what lets the rest of
    the development treat a prefix as a map over the parts of its keys: two
    records never share a key, and a scan of an epoch range visits exactly the
    records of that account and range. *)
From Stdlib Require Import ZArith Lia.
From stdpp Require Import base numbers strings list gmap.
From S2P Require Import Prelude AuditTypes.
Open Scope Z_scope.

Definition u32be (z : Z) : bytes := be_bytes 4 z.
Definition slash : Z := 47.
Abbreviation str := string_bytes.

(** ** Key constructors *)
Definition EpochAnchorKey (epochID : Z) : bytes := str "ea/" ++ u64be epochID.
Definition EpochParamsSnapshotKey (epochID : Z) : bytes := str "eps/" ++ u64be epochID.
Definition ReportKey (epochID : Z) (reporter : string) : bytes :=
  str "r/" ++ u64be epochID ++ str reporter.
Definition ReportIndexKey (reporter : string) (epochID : Z) : bytes :=
  str "ri/" ++ str reporter ++ [slash] ++ u64be epochID.
Definition StorageChallengeReportIndexKey (supernode : string) (epochID : Z) (reporter : string)
    : bytes :=
  str "sc/" ++ str supernode ++ [slash] ++ u64be epochID ++ [slash] ++ str reporter.
Definition HostReportIndexKey (reporter : string) (epochID : Z) : bytes :=
  str "hr/" ++ str reporter ++ [slash] ++ u64be epochID.
Definition NextEvidenceIDKey : bytes := str "ev/next_id".
Definition EvidenceKey (evidenceID : Z) : bytes := str "ev/r/" ++ u64be evidenceID.
Definition EvidenceBySubjectIndexKey (subject : string) (evidenceID : Z) : bytes :=
  str "ev/s/" ++ str subject ++ [slash] ++ u64be evidenceID.
Definition EvidenceByActionIndexKey (actionID : string) (evidenceID : Z) : bytes :=
  str "ev/a/" ++ str actionID ++ [0] ++ u64be evidenceID.
Definition EvidenceEpochCountKey (epochID : Z) (subject : string) (evidenceType : Z) : bytes :=
  str "eve/" ++ u64be epochID ++ [slash] ++ str subject ++ [slash] ++ u32be evidenceType.
Definition ActionFinalizationPostponementKey (supernode : string) : bytes :=
  str "ap/af/" ++ str supernode.
Definition NodeSuspicionStateKey (supernode : string) : bytes := str "st/ns/" ++ str supernode.
Definition ReporterReliabilityStateKey (reporter : string) : bytes :=
  str "st/rr/" ++ str reporter.
Definition TicketDeteriorationStateKey (ticketID : string) : bytes :=
  str "st/td/" ++ str ticketID.
Definition TicketArtifactCountStateKey (ticketID : string) : bytes :=
  str "st/tac/" ++ str ticketID.
Definition HealOpKey (healOpID : Z) : bytes := str "st/ho/" ++ u64be healOpID.
Definition HealOpByTicketIndexKey (ticketID : string) (healOpID : Z) : bytes :=
  str "st/hot/" ++ str ticketID ++ [0] ++ u64be healOpID.
Definition HealOpByStatusIndexKey (status healOpID : Z) : bytes :=
  str "st/hos/" ++ u32be status ++ u64be healOpID.
Definition NextHealOpIDKey : bytes := str "st/next_ho_id".
Definition HealOpVerificationKey (healOpID : Z) (verifier : string) : bytes :=
  str "st/hov/" ++ u64be healOpID ++ [slash] ++ str verifier.
Definition StorageTruthPostponementKey (supernode : string) : bytes :=
  str "ap/st/" ++ str supernode.
Definition StorageTruthPostponementStrongKey (supernode : string) : bytes :=
  str "ap/sts/" ++ str supernode.
Definition RecheckEvidenceKey (epochID : Z) (ticketID creator : string) : bytes :=
  str "st/rce/" ++ u64be epochID ++ [slash] ++ str ticketID ++ [0] ++ str creator.
Definition StorageProofTranscriptKey (hash : string) : bytes := str "st/spt/" ++ str hash.
Definition NodeStorageTruthFailurePrefix (supernode : string) : bytes :=
  str "st/nf/" ++ str supernode ++ [slash].
Definition NodeStorageTruthFailureKey (supernode : string) (epochID : Z)
    (ticketID reporter : string) : bytes :=
  str "st/nf/" ++ str supernode ++ [slash] ++ u64be epochID ++ [slash] ++ str ticketID ++ [0]
    ++ str reporter.
Definition ReporterStorageTruthResultPrefix (reporter : string) : bytes :=
  str "st/rrs/" ++ str reporter ++ [slash].
Definition ReporterStorageTruthResultKey (reporter : string) (epochID : Z)
    (ticketID target : string) : bytes :=
  str "st/rrs/" ++ str reporter ++ [slash] ++ u64be epochID ++ [slash] ++ str ticketID ++ [0]
    ++ str target.
Definition StorageTruthFailedHealKey (supernode : string) (epochID : Z) (ticketID : string)
    : bytes :=
  str "st/fh/" ++ str supernode ++ [slash] ++ u64be epochID ++ [slash] ++ str ticketID.
Definition ReporterStorageTruthResultByTargetKey (target : string) (epochID : Z)
    (ticketID reporter : string) : bytes :=
  str "st/rrs-tt/" ++ str target ++ [slash] ++ u64be epochID ++ [slash] ++ str ticketID ++ [0]
    ++ str reporter.
Definition ReporterStorageTruthResultByEpochReporterKey (epochID : Z) (reporter : string)
    : bytes :=
  str "st/rrs-e/" ++ u64be epochID ++ [slash] ++ str reporter.
Definition TranscriptByTargetBucketEpochScanPrefix (target : string) (bucket : Z) : bytes :=
  str "st/spt-tbe/" ++ str target ++ [slash] ++ u32be bucket ++ [slash].
Definition TranscriptByTargetBucketEpochKey (target : string) (bucket epochID : Z)
    (hash : string) : bytes :=
  str "st/spt-tbe/" ++ str target ++ [slash] ++ u32be bucket ++ [slash] ++ u64be epochID
    ++ [slash] ++ str hash.

(** ** Range scans *)

(** The byte is incremented as [end[i]++] does; a carry drops it. *)
Fixpoint incr_last (rev_prefix : bytes) : option bytes :=
  match rev_prefix with
  | [] => None
  | b :: l => let b := u8 (b + 1) in if b =? 0 then incr_last l else Some (b :: l)
  end.
Definition prefixEnd (prefix : bytes) : option bytes := reverse <$> incr_last (reverse prefix).

(** [None] as an end is Go's nil: no upper bound. *)
Definition epoch_range (base : bytes) (startEpoch endEpoch : Z) : bytes * option bytes :=
  (base ++ u64be startEpoch,
   if endEpoch =? MaxUint64 then prefixEnd base else Some (base ++ u64be (endEpoch + 1))).
Definition NodeStorageTruthFailureEpochScanRange (supernode : string) :=
  epoch_range (NodeStorageTruthFailurePrefix supernode).
Definition ReporterStorageTruthResultEpochScanRange (reporter : string) :=
  epoch_range (ReporterStorageTruthResultPrefix reporter).
Definition ReporterStorageTruthResultByTargetEpochScanRange (target : string) :=
  epoch_range (str "st/rrs-tt/" ++ str target ++ [slash]).
Definition TranscriptByTargetBucketEpochScanRange (target : string) (bucket : Z) :=
  epoch_range (TranscriptByTargetBucketEpochScanPrefix target bucket).

(** A KVStore iterator over [start, end). *)
Definition in_range (r : bytes * option bytes) (key : bytes) : bool :=
  bytes_leb r.1 key && match r.2 with None => true | Some e => negb (bytes_leb e key) end.

(** ** All keys *)
Inductive audit_key : Type :=
| KParams | KNextEvidence | KNextHealOp
| KAnchor (e : Z) | KSnapshot (e : Z) | KReport (e : Z) (r : string)
| KReportIndex (r : string) (e : Z) | KChallengeIndex (s : string) (e : Z) (r : string)
| KHostIndex (r : string) (e : Z)
| KEvidence (i : Z) | KEvidenceSubject (s : string) (i : Z) | KEvidenceAction (a : string) (i : Z)
| KEvidenceCount (e : Z) (s : string) (t : Z)
| KActionPostponed (s : string) | KStoragePostponed (s : string) | KStrongPostponed (s : string)
| KNode (s : string) | KReporter (r : string) | KTicket (t : string) | KArtifacts (t : string)
| KHealOp (i : Z) | KHealTicket (t : string) (i : Z) | KHealStatus (st i : Z)
| KHealVote (i : Z) (v : string)
| KRecheck (e : Z) (t c : string) | KTranscript (h : string)
| KFailure (s : string) (e : Z) (t r : string) | KResult (r : string) (e : Z) (t g : string)
| KFailedHeal (s : string) (e : Z) (t : string)
| KResultTarget (g : string) (e : Z) (t r : string) | KResultEpoch (e : Z) (r : string)
| KTranscriptBucket (g : string) (b e : Z) (h : string).

Definition key_bytes (k : audit_key) : bytes :=
  match k with
  | KParams => str "p_audit"
  | KNextEvidence => NextEvidenceIDKey
  | KNextHealOp => NextHealOpIDKey
  | KAnchor e => EpochAnchorKey e
  | KSnapshot e => EpochParamsSnapshotKey e
  | KReport e r => ReportKey e r
  | KReportIndex r e => ReportIndexKey r e
  | KChallengeIndex s e r => StorageChallengeReportIndexKey s e r
  | KHostIndex r e => HostReportIndexKey r e
  | KEvidence i => EvidenceKey i
  | KEvidenceSubject s i => EvidenceBySubjectIndexKey s i
  | KEvidenceAction a i => EvidenceByActionIndexKey a i
  | KEvidenceCount e s t => EvidenceEpochCountKey e s t
  | KActionPostponed s => ActionFinalizationPostponementKey s
  | KStoragePostponed s => StorageTruthPostponementKey s
  | KStrongPostponed s => StorageTruthPostponementStrongKey s
  | KNode s => NodeSuspicionStateKey s
  | KReporter r => ReporterReliabilityStateKey r
  | KTicket t => TicketDeteriorationStateKey t
  | KArtifacts t => TicketArtifactCountStateKey t
  | KHealOp i => HealOpKey i
  | KHealTicket t i => HealOpByTicketIndexKey t i
  | KHealStatus st i => HealOpByStatusIndexKey st i
  | KHealVote i v => HealOpVerificationKey i v
  | KRecheck e t c => RecheckEvidenceKey e t c
  | KTranscript h => StorageProofTranscriptKey h
  | KFailure s e t r => NodeStorageTruthFailureKey s e t r
  | KResult r e t g => ReporterStorageTruthResultKey r e t g
  | KFailedHeal s e t => StorageTruthFailedHealKey s e t
  | KResultTarget g e t r => ReporterStorageTruthResultByTargetKey g e t r
  | KResultEpoch e r => ReporterStorageTruthResultByEpochReporterKey e r
  | KTranscriptBucket g b e h => TranscriptByTargetBucketEpochKey g b e h
  end.

(** An account name holds neither of the two separators (bech32 text does not). *)
Definition plain (s : string) : Prop := Forall (λ b, b ≠ slash ∧ b ≠ 0) (str s).

#[export] Instance plain_dec s : Decision (plain s).
Proof. unfold plain. apply _. Defined.

Definition key_valid (k : audit_key) : Prop :=
  match k with
  | KParams | KNextEvidence | KNextHealOp => True
  | KAnchor e | KSnapshot e | KEvidence e | KHealOp e => in_u64 e
  | KReport e r | KReportIndex r e | KHostIndex r e | KHealVote e r | KResultEpoch e r
  | KEvidenceSubject r e => in_u64 e ∧ plain r
  | KChallengeIndex s e r => in_u64 e ∧ plain s ∧ plain r
  | KEvidenceAction _ i | KHealTicket _ i => in_u64 i
  | KEvidenceCount e s t => in_u64 e ∧ plain s ∧ in_u32 t
  | KActionPostponed s | KStoragePostponed s | KStrongPostponed s | KNode s | KReporter s =>
      plain s
  | KTicket _ | KArtifacts _ | KTranscript _ => True
  | KHealStatus st i => in_u32 st ∧ in_u64 i
  | KRecheck e _ c => in_u64 e ∧ plain c
  | KFailure s e _ r | KResult s e _ r | KResultTarget s e _ r => in_u64 e ∧ plain s ∧ plain r
  | KFailedHeal s e _ => in_u64 e ∧ plain s
  | KTranscriptBucket g b e _ => in_u64 e ∧ plain g ∧ in_u32 b
  end.

(** ** Big-endian integers *)
Lemma be_bytes_length n z : length (be_bytes n z) = n.
Proof. induction n; simpl; by f_equal. Qed.

Lemma be_bytes_shift n z k : be_bytes n (z + k * 256 ^ Z.of_nat n) = be_bytes n z.
Proof.
  revert k. induction n as [|n IH]; intros k; [done|].
  cbn [be_bytes]. rewrite Nat2Z.inj_succ, Z.pow_succ_r by lia.
  f_equal.
  - replace (z + k * (256 * 256 ^ Z.of_nat n)) with (z + k * 256 * 256 ^ Z.of_nat n) by ring.
    rewrite Z.div_add by lia. apply Z.mod_add. lia.
  - replace (z + k * (256 * 256 ^ Z.of_nat n)) with (z + k * 256 * 256 ^ Z.of_nat n) by ring.
    apply IH.
Qed.

(** The head and the tail of an encoding are those of quotient and remainder. *)
Lemma be_bytes_split n z :
  0 ≤ z < 256 ^ Z.of_nat (S n) →
  be_bytes (S n) z = z / 256 ^ Z.of_nat n :: be_bytes n (z mod 256 ^ Z.of_nat n) ∧
  0 ≤ z mod 256 ^ Z.of_nat n < 256 ^ Z.of_nat n.
Proof.
  intros Hz. rewrite Nat2Z.inj_succ, Z.pow_succ_r in Hz by lia.
  assert (0 < 256 ^ Z.of_nat n) by (apply Z.pow_pos_nonneg; lia).
  split; [|apply Z.mod_pos_bound; lia]. cbn [be_bytes]. f_equal.
  - apply Z.mod_small. split; [apply Z.div_pos; lia|apply Z.div_lt_upper_bound; lia].
  - rewrite (Z.div_mod z (256 ^ Z.of_nat n)) at 1 by lia.
    rewrite Z.add_comm, Z.mul_comm. apply be_bytes_shift.
Qed.

(** Encodings of the same width compare as the integers do. *)
Lemma be_bytes_leb n x y r s :
  0 ≤ x < 256 ^ Z.of_nat n → 0 ≤ y < 256 ^ Z.of_nat n →
  bytes_leb (be_bytes n x ++ r) (be_bytes n y ++ s) =
    (x <? y) || ((x =? y) && bytes_leb r s).
Proof.
  revert x y. induction n as [|n IH]; intros x y Hx Hy.
  { simpl in *. replace x with 0 by lia. replace y with 0 by lia. done. }
  destruct (be_bytes_split n x Hx) as [-> Hxr]. destruct (be_bytes_split n y Hy) as [-> Hyr].
  cbn [app bytes_leb]. rewrite IH by done.
  set (m := 256 ^ Z.of_nat n) in *.
  pose proof (Z.div_mod x m ltac:(lia)). pose proof (Z.div_mod y m ltac:(lia)).
  destruct (Z.ltb_spec (x / m) (y / m)), (Z.eqb_spec (x / m) (y / m)),
    (Z.ltb_spec (x mod m) (y mod m)), (Z.eqb_spec (x mod m) (y mod m)),
    (Z.ltb_spec x y), (Z.eqb_spec x y); simpl; try done; exfalso; nia.
Qed.

Lemma u64be_leb x y r s :
  in_u64 x → in_u64 y →
  bytes_leb (u64be x ++ r) (u64be y ++ s) = (x <? y) || ((x =? y) && bytes_leb r s).
Proof. intros Hx Hy. apply be_bytes_leb; [exact Hx|exact Hy]. Qed.

Lemma be_bytes_app_inj n x y r s :
  0 ≤ x < 256 ^ Z.of_nat n → 0 ≤ y < 256 ^ Z.of_nat n →
  be_bytes n x ++ r = be_bytes n y ++ s → x = y ∧ r = s.
Proof.
  intros Hx Hy E. apply app_inj_1 in E as [E ->]; [|by rewrite !be_bytes_length].
  split; [|done].
  pose proof (be_bytes_leb n x y [] [] Hx Hy) as L1.
  pose proof (be_bytes_leb n y x [] [] Hy Hx) as L2.
  rewrite !app_nil_r, E in L1. rewrite !app_nil_r, E in L2.
  pose proof (reflexivity (R := bytes_le) (be_bytes n y)) as Hr. unfold bytes_le in Hr.
  rewrite Hr in L1, L2. simpl in *. lia.
Qed.

Lemma u64be_app_inj x y r s :
  in_u64 x → in_u64 y → u64be x ++ r = u64be y ++ s → x = y ∧ r = s.
Proof. intros Hx Hy. apply be_bytes_app_inj; [exact Hx|exact Hy]. Qed.
Lemma u32be_app_inj x y r s :
  in_u32 x → in_u32 y → u32be x ++ r = u32be y ++ s → x = y ∧ r = s.
Proof. intros Hx Hy. apply be_bytes_app_inj; [exact Hx|exact Hy]. Qed.
Lemma u32be_inj x y : in_u32 x → in_u32 y → u32be x = u32be y → x = y.
Proof. intros Hx Hy E. apply (u32be_app_inj x y [] [] Hx Hy). by rewrite E. Qed.
Lemma u64be_inj x y : in_u64 x → in_u64 y → u64be x = u64be y → x = y.
Proof. intros Hx Hy E. apply (u64be_app_inj x y [] [] Hx Hy). by rewrite E. Qed.

(** ** Separators *)
Lemma split_at_sep (sep : Z) a a' r r' :
  Forall (λ b, b ≠ sep) a → Forall (λ b, b ≠ sep) a' →
  a ++ sep :: r = a' ++ sep :: r' → a = a' ∧ r = r'.
Proof.
  intros Ha. revert a'. induction Ha as [|b a Hb Ha IH]; intros a' Ha' E.
  - destruct Ha' as [|b' a' Hb' _]; by simplify_eq/=.
  - destruct Ha' as [|b' a' Hb' Ha']; [by simplify_eq/=|]. injection E as -> E.
    by apply IH in E as [-> ->].
Qed.

Lemma plain_slash s : plain s → Forall (λ b, b ≠ slash) (str s).
Proof. intros H. eapply Forall_impl; [exact H|]. by intros b [? _]. Qed.
Lemma plain_zero s : plain s → Forall (λ b, b ≠ 0) (str s).
Proof. intros H. eapply Forall_impl; [exact H|]. by intros b [_ ?]. Qed.

Lemma account_slash_inj a a' r r' :
  plain a → plain a' → str a ++ [slash] ++ r = str a' ++ [slash] ++ r' → a = a' ∧ r = r'.
Proof.
  intros Ha Ha' E. apply split_at_sep in E as [E ->]; [|by apply plain_slash..].
  by apply string_bytes_inj in E as ->.
Qed.

(** The last zero byte ends the ticket. *)
Lemma ticket_account_inj t t' a a' :
  plain a → plain a' → str t ++ [0] ++ str a = str t' ++ [0] ++ str a' → t = t' ∧ a = a'.
Proof.
  intros Ha Ha' E. apply (f_equal reverse) in E. rewrite !reverse_app in E.
  cbn [reverse] in E. rewrite !reverse_singleton, <- !app_assoc in E. cbn [app] in E.
  apply split_at_sep in E as [E1 E2].
  - apply (inj reverse) in E1. apply (inj reverse) in E2.
    apply string_bytes_inj in E1. apply string_bytes_inj in E2. done.
  - apply Forall_reverse. by apply plain_zero.
  - apply Forall_reverse. by apply plain_zero.
Qed.

(** A fixed-width suffix is split off by its length. *)
Lemma suffix_u64_inj (x x' : bytes) i i' :
  in_u64 i → in_u64 i' → x ++ u64be i = x' ++ u64be i' → x = x' ∧ i = i'.
Proof.
  intros Hi Hi' E. apply app_inj_2 in E as [-> E]; [|done]. split; [done|]. by apply u64be_inj.
Qed.

Ltac unfold_key E :=
  unfold EpochAnchorKey, EpochParamsSnapshotKey, ReportKey, ReportIndexKey,
    StorageChallengeReportIndexKey, HostReportIndexKey, EvidenceKey, EvidenceBySubjectIndexKey,
    EvidenceByActionIndexKey, EvidenceEpochCountKey, ActionFinalizationPostponementKey,
    NodeSuspicionStateKey, ReporterReliabilityStateKey, TicketDeteriorationStateKey,
    TicketArtifactCountStateKey, HealOpKey, HealOpByTicketIndexKey, HealOpByStatusIndexKey,
    HealOpVerificationKey, StorageTruthPostponementKey, StorageTruthPostponementStrongKey,
    RecheckEvidenceKey, StorageProofTranscriptKey, NodeStorageTruthFailureKey,
    ReporterStorageTruthResultKey, StorageTruthFailedHealKey,
    ReporterStorageTruthResultByTargetKey, ReporterStorageTruthResultByEpochReporterKey,
    TranscriptByTargetBucketEpochKey in E.

(** Split an equation between two keys of one kind into its parts. *)
Ltac key_inj :=
  repeat match goal with
  | E : u64be ?x = u64be ?y |- _ => apply u64be_inj in E; [|done..]
  | E : u32be ?x = u32be ?y |- _ => apply u32be_inj in E; [|done..]
  | E : u64be ?x ++ _ = u64be ?y ++ _ |- _ => apply u64be_app_inj in E as [? E]; [|done..]
  | E : u32be ?x ++ _ = u32be ?y ++ _ |- _ => apply u32be_app_inj in E as [? E]; [|done..]
  | E : str ?x = str ?y |- _ => apply string_bytes_inj in E
  | E : str ?x ++ [slash] ++ _ = str ?y ++ [slash] ++ _ |- _ =>
      apply account_slash_inj in E as [? E]; [|done..]
  | E : str ?x ++ [0] ++ str ?a = str ?y ++ [0] ++ str ?b |- _ =>
      apply ticket_account_inj in E as [? E]; [|done..]
  | E : str ?x ++ [0] ++ u64be ?i = str ?y ++ [0] ++ u64be ?j |- _ =>
      rewrite !(app_assoc (str _)) in E; apply suffix_u64_inj in E as [E ?]; [|done..];
      apply app_inv_tail in E
  | E : [slash] ++ ?x = [slash] ++ ?y |- _ => apply app_inv_head in E
  end; congruence.

(** ** Families of keys *)
Definition key_prefix (k : audit_key) : string :=
  match k with
  | KParams => "p_audit" | KNextEvidence => "ev/next_id" | KNextHealOp => "st/next_ho_id"
  | KAnchor _ => "ea/" | KSnapshot _ => "eps/" | KReport _ _ => "r/"
  | KReportIndex _ _ => "ri/" | KChallengeIndex _ _ _ => "sc/" | KHostIndex _ _ => "hr/"
  | KEvidence _ => "ev/r/" | KEvidenceSubject _ _ => "ev/s/" | KEvidenceAction _ _ => "ev/a/"
  | KEvidenceCount _ _ _ => "eve/"
  | KActionPostponed _ => "ap/af/" | KStoragePostponed _ => "ap/st/"
  | KStrongPostponed _ => "ap/sts/"
  | KNode _ => "st/ns/" | KReporter _ => "st/rr/" | KTicket _ => "st/td/"
  | KArtifacts _ => "st/tac/"
  | KHealOp _ => "st/ho/" | KHealTicket _ _ => "st/hot/" | KHealStatus _ _ => "st/hos/"
  | KHealVote _ _ => "st/hov/"
  | KRecheck _ _ _ => "st/rce/" | KTranscript _ => "st/spt/" | KFailure _ _ _ _ => "st/nf/"
  | KResult _ _ _ _ => "st/rrs/" | KFailedHeal _ _ _ => "st/fh/"
  | KResultTarget _ _ _ _ => "st/rrs-tt/" | KResultEpoch _ _ => "st/rrs-e/"
  | KTranscriptBucket _ _ _ _ => "st/spt-tbe/"
  end.
Definition prefixes : list string :=
  ["p_audit"; "ev/next_id"; "st/next_ho_id"; "ea/"; "eps/"; "r/"; "ri/"; "sc/"; "hr/"; "ev/r/";
   "ev/s/"; "ev/a/"; "eve/"; "ap/af/"; "ap/st/"; "ap/sts/"; "st/ns/"; "st/rr/"; "st/td/";
   "st/tac/"; "st/ho/"; "st/hot/"; "st/hos/"; "st/hov/"; "st/rce/"; "st/spt/"; "st/nf/";
   "st/rrs/"; "st/fh/"; "st/rrs-tt/"; "st/rrs-e/"; "st/spt-tbe/"]%string.

Lemma key_prefix_in k : key_prefix k ∈ prefixes.
Proof. apply (bool_decide_unpack _). destruct k; vm_compute; exact I. Qed.

Lemma prefixes_free p q :
  p ∈ prefixes → q ∈ prefixes → str p `prefix_of` str q → p = q.
Proof.
  assert (Forall (λ p, Forall (λ q, str p `prefix_of` str q → p = q) prefixes) prefixes) as H
    by (apply (bool_decide_unpack _); vm_compute; exact I).
  rewrite Forall_forall in H. intros Hp Hq. specialize (H p Hp). rewrite Forall_forall in H. auto.
Qed.

Lemma key_bytes_prefix k : ∃ body, key_bytes k = str (key_prefix k) ++ body.
Proof.
  destruct k; simpl; try (eexists; reflexivity).
  all: exists []; by rewrite app_nil_r.
Qed.

(** A prefix iterator of one family meets no key of another. *)
Lemma prefix_scan k k' :
  str (key_prefix k) `prefix_of` key_bytes k' → key_prefix k = key_prefix k'.
Proof.
  intros [x Hx]. destruct (key_bytes_prefix k') as [y Hy]. rewrite Hy in Hx.
  destruct (prefix_weak_total (str (key_prefix k)) (str (key_prefix k'))
    (str (key_prefix k') ++ y)) as [H|H]; [by exists x|by exists y|..].
  - apply prefixes_free in H; [done|apply key_prefix_in..].
  - apply prefixes_free in H; [done|apply key_prefix_in..].
Qed.

(** C37. No two records of the audit store share a key: the key determines which
    kind of record it is and all the parts it is built from, as long as account
    names hold neither of the separators '/' and NUL; and no iterator over the
    prefix of one kind of record visits a record of another kind. *)
Theorem audit_keys_injective k k' :
  key_valid k → key_valid k' →
  (key_bytes k = key_bytes k' → k = k') ∧
  (str (key_prefix k) `prefix_of` key_bytes k' → key_prefix k = key_prefix k').
Proof.
  intros Hk Hk'. split; [|apply prefix_scan]. intros E.
  assert (key_prefix k = key_prefix k') as Hp.
  { apply prefix_scan. rewrite <- E. destruct (key_bytes_prefix k) as [x ->]. by exists x. }
  destruct k, k'; try discriminate Hp; clear Hp; try reflexivity; cbn [key_valid] in Hk, Hk'; cbn [key_bytes] in E;
    unfold_key E; apply app_inv_head in E; destruct_and?; key_inj.
Qed.

(** ** Range scans *)
Lemma bytes_leb_app p x y : bytes_leb (p ++ x) (p ++ y) = bytes_leb x y.
Proof. induction p as [|b p IH]; simpl; [done|]. by rewrite Z.ltb_irrefl, Z.eqb_refl, IH. Qed.

(** What lies between two strings with a common prefix has it. *)
Lemma bytes_sandwich p x y k :
  bytes_leb (p ++ x) k = true → bytes_leb (p ++ y) k = false → ∃ z, k = p ++ z.
Proof.
  revert k. induction p as [|b p IH]; intros k; simpl; [by exists k|].
  destruct k as [|c k]; [done|]. destruct (Z.ltb_spec b c); simpl; [done|].
  destruct (Z.eqb_spec b c) as [->|]; simpl; [|done].
  intros H1 H2. destruct (IH k H1 H2) as [z ->]. by exists z.
Qed.

Lemma prefixEnd_slash q : prefixEnd (q ++ [slash]) = Some (q ++ [48]).
Proof.
  unfold prefixEnd. rewrite reverse_snoc. cbn [incr_last fmap option_fmap option_map].
  change (u8 (slash + 1)) with 48. simpl. by rewrite reverse_cons, reverse_involutive.
Qed.

Lemma in_range_base q s t k :
  in_range (epoch_range (q ++ [slash]) s t) k = true ↔
  ∃ z, k = q ++ [slash] ++ z ∧ bytes_leb (u64be s) z = true ∧
    (t = MaxUint64 ∨ bytes_leb (u64be (t + 1)) z = false).
Proof.
  unfold in_range, epoch_range. cbn [fst snd]. rewrite andb_true_iff.
  destruct (Z.eqb_spec t MaxUint64) as [->|Ht].
  - rewrite prefixEnd_slash, negb_true_iff, <- app_assoc. split.
    + intros [H1 H2]. destruct (bytes_sandwich q _ _ k H1 H2) as [z ->].
      rewrite bytes_leb_app in H1, H2. destruct z as [|c z]; [done|]. cbn [app bytes_leb] in H1, H2.
      exists z. apply orb_false_iff in H2 as [H2 H3]. rewrite andb_true_r in H3.
      apply Z.ltb_ge in H2. apply Z.eqb_neq in H3. unfold slash in *.
      apply orb_true_iff in H1 as [H1|H1]; [apply Z.ltb_lt in H1; lia|].
      apply andb_true_iff in H1 as [<-%Z.eqb_eq H1]. auto.
    + intros (z & -> & H1 & _). by rewrite !bytes_leb_app.
  - rewrite negb_true_iff, <- !app_assoc. split.
    + intros [H1 H2]. rewrite !app_assoc in H1, H2.
      destruct (bytes_sandwich _ _ _ k H1 H2) as [z ->].
      rewrite bytes_leb_app in H1, H2. exists z. rewrite <- app_assoc. auto.
    + intros (z & -> & H1 & [?|H2]); [done|]. by rewrite !app_assoc, !bytes_leb_app.
Qed.

(** The epoch bounds, on the part of a key that follows the base. *)
Lemma epoch_bounds s t e r :
  in_u64 s → in_u64 t → in_u64 e →
  (bytes_leb (u64be s) (u64be e ++ r) = true ∧
   (t = MaxUint64 ∨ bytes_leb (u64be (t + 1)) (u64be e ++ r) = false)) ↔ s ≤ e ≤ t.
Proof.
  intros Hs Ht He. unfold in_u64, MaxUint64 in *.
  rewrite <- (app_nil_r (u64be s)), u64be_leb by done.
  destruct (Z.eq_dec t (2 ^ 64 - 1)) as [->|Hne].
  - simpl. destruct (Z.ltb_spec s e), (Z.eqb_spec s e); simpl; split; try lia; try done.
    all: by (intros; split; [done|left]) || (intros [? _]; done).
  - rewrite <- (app_nil_r (u64be (t + 1))), u64be_leb by (unfold in_u64; lia || done).
    simpl. rewrite !andb_true_r, orb_true_iff, orb_false_iff.
    rewrite Z.ltb_lt, Z.eqb_eq, Z.ltb_ge, Z.eqb_neq. lia.
Qed.

(** A valid key that extends a base of family [p] belongs to that family. *)
Lemma key_of_family k p x :
  key_bytes k = str p ++ x → p ∈ prefixes → key_prefix k = p.
Proof.
  intros E Hp. destruct (key_bytes_prefix k) as [y Hy]. rewrite Hy in E.
  destruct (prefix_weak_total (str p) (str (key_prefix k)) (str p ++ x)) as [H|H];
    [by exists x|rewrite <- E; by exists y|..].
  - by apply prefixes_free in H as ->; [|done|apply key_prefix_in].
  - by apply prefixes_free in H as ->; [|apply key_prefix_in|done].
Qed.

Lemma family_failure k : key_prefix k = "st/nf/"%string → ∃ s e t r, k = KFailure s e t r.
Proof. destruct k; intros E; try discriminate E. by eauto. Qed.
Lemma family_result k : key_prefix k = "st/rrs/"%string → ∃ s e t r, k = KResult s e t r.
Proof. destruct k; intros E; try discriminate E. by eauto. Qed.
Lemma family_result_target k :
  key_prefix k = "st/rrs-tt/"%string → ∃ s e t r, k = KResultTarget s e t r.
Proof. destruct k; intros E; try discriminate E. by eauto. Qed.
Lemma family_transcript_bucket k :
  key_prefix k = "st/spt-tbe/"%string → ∃ g b e h, k = KTranscriptBucket g b e h.
Proof. destruct k; intros E; try discriminate E. by eauto. Qed.

(** The scans of the account-epoch families. *)
Lemma scan_account p q a s t e body k :
  in_u64 s → in_u64 t → in_u64 e → plain a → plain q →
  str p ++ str q ++ [slash] ++ u64be e ++ body = k →
  in_range (epoch_range (str p ++ str a ++ [slash]) s t) k = true ↔ q = a ∧ s ≤ e ≤ t.
Proof.
  intros Hs Ht He Ha Hq <-. rewrite (app_assoc (str p)), in_range_base. split.
  - intros (z & E & H1 & H2). rewrite <- app_assoc in E. apply app_inv_head in E.
    apply account_slash_inj in E as [-> <-]; [|done..]. split; [done|].
    by apply (epoch_bounds s t e body).
  - intros [-> Hb]. exists (u64be e ++ body). split; [by rewrite <- !app_assoc|].
    by apply epoch_bounds.
Qed.

Lemma scan_family (C : string → Z → string → string → audit_key) p a s t k :
  p ∈ prefixes →
  (∀ k, key_prefix k = p → ∃ q e x y, k = C q e x y) →
  (∀ q e x y, ∃ body, key_bytes (C q e x y) = str p ++ str q ++ [slash] ++ u64be e ++ body) →
  (∀ q e x y, key_valid (C q e x y) → in_u64 e ∧ plain q) →
  in_u64 s → in_u64 t → plain a → key_valid k →
  in_range (epoch_range (str p ++ str a ++ [slash]) s t) (key_bytes k) = true ↔
    ∃ e x y, k = C a e x y ∧ s ≤ e ≤ t.
Proof.
  intros Hp Hfam Hbody Hval Hs Ht Ha Hk. split.
  - intros H. pose proof H as H0. rewrite app_assoc, in_range_base in H0.
    destruct H0 as (z & E & _). rewrite <- app_assoc in E.
    destruct (Hfam k) as (q & e & x & y & ->); [by eapply key_of_family|].
    destruct (Hbody q e x y) as [body Hb]. destruct (Hval q e x y Hk) as [He Hq].
    apply (scan_account p q _ _ _ e body) in H as [-> ?]; [eauto|done..].
  - intros (e & x & y & -> & Hr). destruct (Hbody a e x y) as [body Hb].
    destruct (Hval a e x y Hk) as [He Hq]. by apply (scan_account p a _ _ _ e body).
Qed.

Lemma scan_bucket a b s t k :
  in_u64 s → in_u64 t → in_u32 b → plain a → key_valid k →
  in_range (TranscriptByTargetBucketEpochScanRange a b s t) (key_bytes k) = true ↔
    ∃ e h, k = KTranscriptBucket a b e h ∧ s ≤ e ≤ t.
Proof.
  intros Hs Ht Hb Ha Hk.
  unfold TranscriptByTargetBucketEpochScanRange, TranscriptByTargetBucketEpochScanPrefix.
  rewrite !app_assoc, in_range_base. split.
  - intros (z & E & B). rewrite <- !app_assoc in E.
    destruct (family_transcript_bucket k) as (q & c & e & h & ->);
      [by eapply key_of_family; [exact E|apply (bool_decide_unpack _)]|].
    destruct Hk as (He & Hq & Hc). cbn [key_bytes] in E.
    unfold TranscriptByTargetBucketEpochKey in E. apply app_inv_head in E.
    apply account_slash_inj in E as [-> E]; [|done..].
    apply u32be_app_inj in E as [-> E]; [|done..]. apply app_inv_head in E as <-.
    exists e, h. split; [done|]. by apply epoch_bounds in B.
  - intros (e & h & -> & Hr). destruct Hk as (He & _). exists (u64be e ++ [slash] ++ str h).
    split; [cbn [key_bytes]; unfold TranscriptByTargetBucketEpochKey; by rewrite <- !app_assoc|].
    by apply epoch_bounds.
Qed.

(** A range scan over the epochs [s..t] of an account visits exactly the
    records of that account in that range: of the node failures, the reporter
    results, their index by target, and the transcripts of one bucket. *)
Theorem epoch_scans_exact a b s t k :
  in_u64 s → in_u64 t → in_u32 b → plain a → key_valid k →
  let key := key_bytes k in
  (in_range (NodeStorageTruthFailureEpochScanRange a s t) key = true ↔
     ∃ e tk r, k = KFailure a e tk r ∧ s ≤ e ≤ t) ∧
  (in_range (ReporterStorageTruthResultEpochScanRange a s t) key = true ↔
     ∃ e tk g, k = KResult a e tk g ∧ s ≤ e ≤ t) ∧
  (in_range (ReporterStorageTruthResultByTargetEpochScanRange a s t) key = true ↔
     ∃ e tk r, k = KResultTarget a e tk r ∧ s ≤ e ≤ t) ∧
  (in_range (TranscriptByTargetBucketEpochScanRange a b s t) key = true ↔
     ∃ e h, k = KTranscriptBucket a b e h ∧ s ≤ e ≤ t).
Proof.
  intros Hs Ht Hb Ha Hk. cbv zeta. split_and!; [..|by apply scan_bucket].
  - apply (scan_family KFailure); [by apply (bool_decide_unpack _)|exact family_failure|
      by eexists|by intros ? ? ? ? (?&?&_)|done..].
  - apply (scan_family KResult); [by apply (bool_decide_unpack _)|exact family_result|
      by eexists|by intros ? ? ? ? (?&?&_)|done..].
  - apply (scan_family KResultTarget); [by apply (bool_decide_unpack _)|
      exact family_result_target|by eexists|by intros ? ? ? ? (?&?&_)|done..].
Qed.

(** A failure and a result of one account, ticket and epoch. *)
Lemma audit_keys_injective_witness :
  key_bytes (KFailure "lumera1a" 7 "ticket" "lumera1b") ≠
  key_bytes (KResult "lumera1a" 7 "ticket" "lumera1b").
Proof.
  intros E.
  discriminate (proj1 (audit_keys_injective (KFailure "lumera1a" 7 "ticket" "lumera1b")
    (KResult "lumera1a" 7 "ticket" "lumera1b")
    ltac:(unfold key_valid, in_u64; split_and!; [done|done|apply (bool_decide_unpack _); exact I..])
    ltac:(unfold key_valid, in_u64; split_and!; [done|done|apply (bool_decide_unpack _); exact I..])) E).
Defined.

Lemma epoch_scans_exact_witness :
  in_range (NodeStorageTruthFailureEpochScanRange "lumera1a" 5 7)
    (key_bytes (KFailure "lumera1a" 7 "ticket" "lumera1b")) = true.
Proof.
  apply (epoch_scans_exact "lumera1a" 1 5 7 (KFailure "lumera1a" 7 "ticket" "lumera1b")
    ltac:(by unfold in_u64) ltac:(by unfold in_u64) ltac:(by unfold in_u32)
    ltac:(apply (bool_decide_unpack _); exact I)
    ltac:(unfold key_valid, in_u64; split_and!; [done|done|apply (bool_decide_unpack _); exact I..])).
  exists 7, "ticket"%string, "lumera1b"%string. split; [reflexivity|lia].
Defined.
