(* ===== verification/AuditFacts.v ===== *)
(** * x/audit/v1/keeper: the storage-truth fact indexes

    storage_truth_fact_indexes.go, storage_truth_recheck_state.go and
    storage_truth_ticket_artifact_counts.go.  A scan of an epoch range is a
    filter on the parts of the key ([AuditKeys.epoch_scans_exact]).  Records are
    JSON values; encoding/json gives back the records it encoded. *)
From Stdlib Require Import ZArith Lia.
From stdpp Require Import base numbers strings list gmap sorting.
From S2P Require Import Prelude AuditParam AuditTypes Scoring.
Open Scope Z_scope.

(** ** Updates of one part of the fact store *)
Definition upd_transcripts f (s : fact_store) : fact_store :=
  FactStore (f (fa_transcripts s)) (fa_by_bucket s) (fa_failures s) (fa_results s)
    (fa_by_target s) (fa_by_epoch s) (fa_failed_heals s) (fa_rechecks s).
Definition upd_by_bucket f (s : fact_store) : fact_store :=
  FactStore (fa_transcripts s) (f (fa_by_bucket s)) (fa_failures s) (fa_results s)
    (fa_by_target s) (fa_by_epoch s) (fa_failed_heals s) (fa_rechecks s).
Definition upd_failures f (s : fact_store) : fact_store :=
  FactStore (fa_transcripts s) (fa_by_bucket s) (f (fa_failures s)) (fa_results s)
    (fa_by_target s) (fa_by_epoch s) (fa_failed_heals s) (fa_rechecks s).
Definition upd_results f (s : fact_store) : fact_store :=
  FactStore (fa_transcripts s) (fa_by_bucket s) (fa_failures s) (f (fa_results s))
    (fa_by_target s) (fa_by_epoch s) (fa_failed_heals s) (fa_rechecks s).
Definition upd_by_target f (s : fact_store) : fact_store :=
  FactStore (fa_transcripts s) (fa_by_bucket s) (fa_failures s) (fa_results s)
    (f (fa_by_target s)) (fa_by_epoch s) (fa_failed_heals s) (fa_rechecks s).
Definition upd_by_epoch f (s : fact_store) : fact_store :=
  FactStore (fa_transcripts s) (fa_by_bucket s) (fa_failures s) (fa_results s)
    (fa_by_target s) (f (fa_by_epoch s)) (fa_failed_heals s) (fa_rechecks s).
Definition upd_failed_heals f (s : fact_store) : fact_store :=
  FactStore (fa_transcripts s) (fa_by_bucket s) (fa_failures s) (fa_results s)
    (fa_by_target s) (fa_by_epoch s) (f (fa_failed_heals s)) (fa_rechecks s).
Definition upd_rechecks f (s : fact_store) : fact_store :=
  FactStore (fa_transcripts s) (fa_by_bucket s) (fa_failures s) (fa_results s)
    (fa_by_target s) (fa_by_epoch s) (fa_failed_heals s) (f (fa_rechecks s)).

(** ** Transcripts *)
Definition isStorageTruthRecheckEligible (class : StorageProofResultClass) : bool :=
  match class with
  | CLASS_HASH_MISMATCH | CLASS_TIMEOUT_OR_NO_RESPONSE | CLASS_OBSERVER_QUORUM_FAIL
  | CLASS_INVALID_TRANSCRIPT => true
  | _ => false
  end.

(** [setStorageProofTranscriptRecord] and [setStorageProofTranscriptRaw]. *)
Definition setStorageProofTranscriptRecord (hash : string) (r : storageProofTranscriptRecord)
    : M fact_store unit :=
  _ ← modify (upd_transcripts <[hash := r]>);
  if decide (tr_TargetAccount r = ""%string) then mret tt
  else modify (upd_by_bucket <[(tr_TargetAccount r, tr_BucketType r, tr_EpochID r, hash) := r]>).

Definition getStorageProofTranscriptRecord (hash : string) (s : fact_store)
    : option storageProofTranscriptRecord := fa_transcripts s !! hash.

Definition transcript_of (epochID : Z) (reporter : string) (r : StorageProofResult)
    : storageProofTranscriptRecord :=
  mkTranscript epochID reporter (pr_TargetSupernodeAccount r) (pr_TicketId r) (pr_ResultClass r)
    (pr_BucketType r) (pr_ArtifactClass r) (pr_ArtifactKey r) (pr_ArtifactOrdinal r)
    (pr_ArtifactCount r) (pr_DerivationInputHash r) (pr_ChallengerSignature r)
    (pr_ObserverAttestationSignatures r) (isStorageTruthRecheckEligible (pr_ResultClass r))
    false false "" "".

Definition indexStorageProofTranscripts (epochID : Z) (reporter : string)
    (results : list (option StorageProofResult)) : M fact_store unit :=
  for_each (λ result,
    match result with
    | None => mret tt
    | Some r =>
        if decide (pr_TranscriptHash r = ""%string) then mret tt
        else setStorageProofTranscriptRecord (pr_TranscriptHash r)
               (transcript_of epochID reporter r)
    end) results.

(** ** Failures and reporter results *)
Definition setStorageTruthNodeFailure (epochID : Z) (reporter : string) (r : StorageProofResult)
    : M fact_store unit :=
  if decide (pr_TargetSupernodeAccount r = ""%string) then mret tt else
  if decide (pr_TicketId r = ""%string) then mret tt else
  if negb (isStorageTruthFailureClass (pr_ResultClass r)) then mret tt else
  modify (upd_failures
    <[(pr_TargetSupernodeAccount r, epochID, pr_TicketId r, reporter) :=
      mkNodeFailure epochID reporter (pr_TargetSupernodeAccount r) (pr_TicketId r)
        (pr_ResultClass r) (pr_BucketType r) (pr_ArtifactClass r)]>).

Definition setStorageTruthReporterResult (epochID : Z) (reporter : string)
    (r : StorageProofResult) : M fact_store unit :=
  if decide (reporter = ""%string) then mret tt else
  if decide (pr_TicketId r = ""%string) then mret tt else
  if decide (pr_TargetSupernodeAccount r = ""%string) then mret tt else
  let record := mkReporterResult epochID reporter (pr_TargetSupernodeAccount r) (pr_TicketId r)
                  (pr_ResultClass r) false false in
  _ ← modify (upd_results
        <[(reporter, epochID, pr_TicketId r, pr_TargetSupernodeAccount r) := record]>);
  _ ← modify (upd_by_target
        <[(pr_TargetSupernodeAccount r, epochID, pr_TicketId r, reporter) := record]>);
  modify (upd_by_epoch (λ i, {[(epochID, reporter)]} ∪ i)).

Definition rs_rechecked (r : storageTruthReporterResultRecord) (confirmed : bool)
    : storageTruthReporterResultRecord :=
  mkReporterResult (rs_EpochID r) (rs_Reporter r) (rs_Target r) (rs_TicketID r)
    (rs_ResultClass r) confirmed (negb confirmed).

Definition markStorageTruthReporterResultRecheck (reporter hash : string) (confirmed : bool)
    : M fact_store unit :=
  record ← gets (getStorageProofTranscriptRecord hash);
  match record with
  | None => mret tt
  | Some t =>
      result ← gets (λ s, fa_results s !!
                 (reporter, tr_EpochID t, tr_TicketID t, tr_TargetAccount t));
      _ ← (match result with
           | None => mret tt
           | Some r =>
               _ ← modify (upd_results
                     <[(reporter, tr_EpochID t, tr_TicketID t, tr_TargetAccount t) :=
                       rs_rechecked r confirmed]>);
               modify (upd_by_target
                 <[(tr_TargetAccount t, tr_EpochID t, tr_TicketID t, reporter) :=
                   rs_rechecked r confirmed]>)
           end);
      setStorageProofTranscriptRecord hash
        (tr_with t confirmed (negb confirmed) (tr_RecheckTranscriptHash t))
  end.

Definition linkStorageTruthRecheckTranscript (challengedHash recheckHash rechecker : string)
    (class : StorageProofResultClass) : M fact_store unit :=
  challenged ← gets (getStorageProofTranscriptRecord challengedHash);
  match challenged with
  | None => mret tt
  | Some c =>
      _ ← ensure (bool_decide (tr_RecheckTranscriptHash c = "")
                  || bool_decide (tr_RecheckTranscriptHash c = recheckHash))
            ErrInvalidRecheckEvidence;
      let c := tr_with c (tr_ConfirmedByRecheck c) (tr_ContradictedByRecheck c) recheckHash in
      _ ← setStorageProofTranscriptRecord challengedHash c;
      existing ← gets (getStorageProofTranscriptRecord recheckHash);
      match existing with
      | Some e =>
          ensure (bool_decide (tr_ChallengedTranscriptHash e = challengedHash)
                  && bool_decide (tr_ReporterAccount e = rechecker)) ErrInvalidRecheckEvidence
      | None =>
          setStorageProofTranscriptRecord recheckHash
            (mkTranscript (tr_EpochID c) rechecker (tr_TargetAccount c) (tr_TicketID c) class
               BUCKET_RECHECK (tr_ArtifactClass c) (tr_ArtifactKey c) (tr_ArtifactOrdinal c)
               (tr_ArtifactCount c) "" "" [] false false false "" challengedHash)
      end
  end.

(** ** Scans *)
Definition in_epochs (startEpoch endEpoch e : Z) : Prop := startEpoch ≤ e ≤ endEpoch.
#[export] Instance in_epochs_dec s t e : Decision (in_epochs s t e).
Proof. unfold in_epochs. apply _. Defined.

(** The failures of an account in a window that satisfy [include], with their keys. *)
Definition node_failures (account : string) (startEpoch endEpoch : Z)
    (incl : storageTruthNodeFailureRecord → bool) (s : fact_store)
    : gmap (string * Z * string * string) storageTruthNodeFailureRecord :=
  filter (λ kr, kr.1.1.1.1 = account ∧ in_epochs startEpoch endEpoch kr.1.1.1.2 ∧ incl kr.2 = true)
    (fa_failures s).

(** The distinct tickets, and the number of failures, which saturates at 2^32-1. *)
Definition distinctNodeFailedTickets (account : string) (startEpoch endEpoch : Z)
    (incl : storageTruthNodeFailureRecord → bool) (s : fact_store) : gset string * Z :=
  let found := (map_to_list (node_failures account startEpoch endEpoch incl s)).*2 in
  (list_to_set (filter (λ t, t ≠ ""%string) (nf_TicketID <$> found)),
   Z.min (zlen found) MaxUint32).

Definition hasNodeFailure (account : string) (startEpoch endEpoch : Z)
    (incl : storageTruthNodeFailureRecord → bool) (s : fact_store) : bool :=
  0 <? (distinctNodeFailedTickets account startEpoch endEpoch incl s).2.

Definition hasIndependentReporterPassInWindow (ticketID target excludeReporter : string)
    (startEpoch endEpoch : Z) (s : fact_store) : bool :=
  existsb (λ kr : (string * Z * string * string) * storageTruthReporterResultRecord,
    bool_decide (kr.1.1.1.1 = target) && bool_decide (in_epochs startEpoch endEpoch kr.1.1.1.2)
    && bool_decide (rs_TicketID kr.2 = ticketID) && isPass (rs_ResultClass kr.2)
    && bool_decide (rs_Reporter kr.2 ≠ "") && bool_decide (rs_Reporter kr.2 ≠ excludeReporter))
    (map_to_list (fa_by_target s)).

Definition hasCleanRecheckInWindow (ticketID target : string) (startEpoch endEpoch : Z)
    (s : fact_store) : bool :=
  existsb (λ kr : (string * StorageProofBucketType * Z * string) * storageProofTranscriptRecord,
    bool_decide (kr.1.1.1.1 = target) && bool_decide (kr.1.1.1.2 = BUCKET_RECHECK)
    && bool_decide (in_epochs startEpoch endEpoch kr.1.1.2)
    && bool_decide (tr_TicketID kr.2 = ticketID) && isPass (tr_ResultClass kr.2))
    (map_to_list (fa_by_bucket s)).

(** The scan of msg_submit_epoch_report_storage_proofs.go ends at
    [u64be (endEpoch + 1)], which wraps for the last epoch. *)
Definition hasObservedEligibleTicketForTargetBucketInWindow (target : string)
    (bucket : StorageProofBucketType) (startEpoch endEpoch : Z) (s : fact_store) : bool :=
  if decide (target = ""%string) then false else
  existsb (λ kr : (string * StorageProofBucketType * Z * string) * storageProofTranscriptRecord,
    bool_decide (kr.1.1.1.1 = target) && bool_decide (kr.1.1.1.2 = bucket)
    && bool_decide (startEpoch ≤ kr.1.1.2) && bool_decide (kr.1.1.2 < u64 (endEpoch + 1))
    && bool_decide (tr_ResultClass kr.2 ≠ CLASS_NO_ELIGIBLE_TICKET)
    && bool_decide (tr_TicketID kr.2 ≠ ""))
    (map_to_list (fa_by_bucket s)).

(** ** Failed heals *)
Definition setStorageTruthFailedHeal (account : string) (epochID : Z) (ticketID : string)
    : M fact_store unit :=
  _ ← ensure (bool_decide (account ≠ "")) (ErrOther "missing healer account");
  _ ← ensure (bool_decide (ticketID ≠ "")) (ErrOther "missing ticket id");
  modify (upd_failed_heals (λ i, {[(account, epochID, ticketID)]} ∪ i)).

Definition hasStorageTruthFailedHeal (account : string) (startEpoch endEpoch : Z)
    (s : fact_store) : bool :=
  existsb (λ k : string * Z * string,
    bool_decide (k.1.1 = account) && bool_decide (in_epochs startEpoch endEpoch k.1.2))
    (elements (fa_failed_heals s)).

(** ** storage_truth_recheck_state.go *)
Definition HasRecheckEvidence (epochID : Z) (ticketID creator : string) (s : fact_store) : bool :=
  bool_decide ((epochID, ticketID, creator) ∈ fa_rechecks s).
Definition SetRecheckEvidence (epochID : Z) (ticketID creator : string) : M fact_store unit :=
  modify (upd_rechecks (λ i, {[(epochID, ticketID, creator)]} ∪ i)).

(** ** storage_truth_ticket_artifact_counts.go *)
Definition SetTicketArtifactCountState (st : TicketArtifactCountState) : M score_store unit :=
  modify (λ s, ScoreStore (sc_nodes s) (sc_reporters s) (sc_tickets s)
                 (<[tc_TicketId st := st]> (sc_artifacts s))).

Definition AuditSetTicketArtifactCounts (ticketID : string) (indexCount symbolCount : Z)
    : M score_store unit :=
  _ ← ensure (bool_decide (ticketID ≠ "")) ErrInvalidStorageProofs;
  _ ← ensure (negb (indexCount =? 0) && negb (symbolCount =? 0)) ErrInvalidStorageProofs;
  existing ← gets (λ s, sc_artifacts s !! ticketID);
  match existing with
  | Some ex =>
      _ ← ensure ((tc_IndexArtifactCount ex =? 0) || (tc_IndexArtifactCount ex =? indexCount))
            ErrInvalidStorageProofs;
      _ ← ensure ((tc_SymbolArtifactCount ex =? 0) || (tc_SymbolArtifactCount ex =? symbolCount))
            ErrInvalidStorageProofs;
      if (tc_IndexArtifactCount ex =? indexCount) && (tc_SymbolArtifactCount ex =? symbolCount)
      then mret tt
      else SetTicketArtifactCountState
             (mkArtifactCount (tc_TicketId ex)
                (if tc_IndexArtifactCount ex =? 0 then indexCount else tc_IndexArtifactCount ex)
                (if tc_SymbolArtifactCount ex =? 0 then symbolCount
                 else tc_SymbolArtifactCount ex))
  | None => SetTicketArtifactCountState (mkArtifactCount ticketID indexCount symbolCount)
  end.
