(* ===== verification/ScoreKeeper.v ===== *)
(** * x/audit/v1/keeper/storage_truth_scoring.go: the scores in the store

    How the result of one storage proof changes the suspicion of its target, the
    reliability of its reporters and the deterioration of its ticket. *)
From Stdlib Require Import ZArith Lia.
From stdpp Require Import base numbers strings list gmap sorting.
From S2P Require Import Prelude Sdk AuditParam AuditTypes Epoch Scoring AuditFacts.
Open Scope Z_scope.

(** ** storage_truth_state.go: score records *)
Definition SetNodeSuspicionState (st : NodeSuspicionState) : M score_store unit :=
  modify (λ s, ScoreStore (<[ns_SupernodeAccount st := st]> (sc_nodes s)) (sc_reporters s)
                 (sc_tickets s) (sc_artifacts s)).
Definition SetReporterReliabilityState (st : ReporterReliabilityState) : M score_store unit :=
  modify (λ s, ScoreStore (sc_nodes s) (<[rr_ReporterSupernodeAccount st := st]> (sc_reporters s))
                 (sc_tickets s) (sc_artifacts s)).
Definition SetTicketDeteriorationState (st : TicketDeteriorationState) : M score_store unit :=
  modify (λ s, ScoreStore (sc_nodes s) (sc_reporters s)
                 (<[td_TicketId st := st]> (sc_tickets s)) (sc_artifacts s)).
Definition GetAllNodeSuspicionStates (s : score_store) : list NodeSuspicionState :=
  (kv_iter string_bytes (sc_nodes s)).*2.
Definition GetAllReporterReliabilityStates (s : score_store) : list ReporterReliabilityState :=
  (kv_iter string_bytes (sc_reporters s)).*2.
Definition GetAllTicketDeteriorationStates (s : score_store) : list TicketDeteriorationState :=
  (kv_iter string_bytes (sc_tickets s)).*2.

(** Scores are clamped at zero after every update. *)
Definition clamp_zero (z : Z) : Z := if z <? 0 then 0 else z.

(** ** Nodes *)
Definition is_class_a (class : StorageProofResultClass) : bool :=
  bool_decide (class = CLASS_HASH_MISMATCH) || bool_decide (class = CLASS_RECHECK_CONFIRMED_FAIL).

Definition updateNodeSuspicionHistoryFields (st : NodeSuspicionState) (r : StorageProofResult)
    (epochID : Z) (params : AuditParams) : NodeSuspicionState :=
  let window := or_default (StorageTruthPatternEscalationWindow params) 14 in
  let class := pr_ResultClass r in
  let pass := isPass class in
  let clean := if pass then u32 (ns_CleanPassCount st + 1) else ns_CleanPassCount st in
  let lastClean := if pass then epochID else ns_LastCleanPassEpoch st in
  if isStorageTruthFailureClass class then
    let stale := window <=? epochDelta epochID (ns_WindowStartEpoch st) in
    let start := if stale then epochID else ns_WindowStartEpoch st in
    let tickets := if stale then 0 else ns_DistinctTicketFailWindow st in
    let countA := if stale then 0 else ns_ClassACountWindow st in
    let countB := if stale then 0 else ns_ClassBCountWindow st in
    let isA := is_class_a class in
    let isB := bool_decide (class = CLASS_TIMEOUT_OR_NO_RESPONSE) in
    mkNodeSuspicion (ns_SupernodeAccount st) (ns_SuspicionScore st) (ns_LastUpdatedEpoch st)
      (if decide (pr_BucketType r = BUCKET_RECENT) then epochID else ns_LastRecentFailEpoch st)
      (if decide (pr_BucketType r = BUCKET_OLD) then epochID else ns_LastOldFailEpoch st)
      (u32 (tickets + 1)) start
      (if isA then u32 (countA + 1) else countA)
      (if isA then epochID else ns_LastClassAEpoch st)
      (if isB then u32 (countB + 1) else countB)
      (if isB then epochID else ns_LastClassBEpoch st)
      (if isA then 0 else clean) lastClean
      (if decide (pr_ArtifactClass r = ARTIFACT_INDEX) then epochID else ns_LastIndexFailEpoch st)
      (ns_CleanPassCountAtPostpone st)
  else
    mkNodeSuspicion (ns_SupernodeAccount st) (ns_SuspicionScore st) (ns_LastUpdatedEpoch st)
      (ns_LastRecentFailEpoch st) (ns_LastOldFailEpoch st) (ns_DistinctTicketFailWindow st)
      (ns_WindowStartEpoch st) (ns_ClassACountWindow st) (ns_LastClassAEpoch st)
      (ns_ClassBCountWindow st) (ns_LastClassBEpoch st) clean lastClean
      (ns_LastIndexFailEpoch st) (ns_CleanPassCountAtPostpone st).

Definition ns_with_score (st : NodeSuspicionState) (account : string) (score epoch : Z)
    : NodeSuspicionState :=
  mkNodeSuspicion account score epoch (ns_LastRecentFailEpoch st) (ns_LastOldFailEpoch st)
    (ns_DistinctTicketFailWindow st) (ns_WindowStartEpoch st) (ns_ClassACountWindow st)
    (ns_LastClassAEpoch st) (ns_ClassBCountWindow st) (ns_LastClassBEpoch st)
    (ns_CleanPassCount st) (ns_LastCleanPassEpoch st) (ns_LastIndexFailEpoch st)
    (ns_CleanPassCountAtPostpone st).

(** The score, and whether it was written. *)
Definition applyNodeSuspicionDelta (epochID : Z) (r : StorageProofResult) (delta decay : Z)
    (params : AuditParams) : M score_store (Z * bool) :=
  let account := pr_TargetSupernodeAccount r in
  if decide (account = ""%string) then mret (0, false) else
  found ← gets (λ s, sc_nodes s !! account);
  if bool_decide (found = None) && (delta =? 0) then mret (0, false) else
  let state := default zero_NodeSuspicion found in
  let current := match found with
                 | Some st => decayTowardZero (ns_SuspicionScore st) decay
                                (epochDelta epochID (ns_LastUpdatedEpoch st))
                 | None => 0
                 end in
  let next := clamp_zero (addInt64Saturated current delta) in
  _ ← SetNodeSuspicionState
        (updateNodeSuspicionHistoryFields (ns_with_score state account next epochID) r epochID
           params);
  mret (next, true).

(** ** Reporters *)
Definition next_reliability (state : ReporterReliabilityState) (epochID : Z) (account : string)
    (next delta increments : Z) (params : AuditParams) : ReporterReliabilityState :=
  let band := reporterTrustBandForScore next params in
  let ineligibleUntil :=
    if decide (band = TRUST_CHALLENGER_INELIGIBLE) then
      u64 (epochID + or_default (StorageTruthReporterIneligibleDurationEpochs params) 7)
    else if next <? StorageTruthReporterReliabilityIneligibleThreshold params then 0
    else rr_IneligibleUntilEpoch state in
  let divergenceWindow := or_default (StorageTruthDivergenceWindowEpochs params) 14 in
  let stale := divergenceWindow <=? epochDelta epochID (rr_WindowStartEpoch state) in
  let start := if stale then epochID else rr_WindowStartEpoch state in
  let positive := if stale then 0 else rr_WindowPositiveCount state in
  let negative := if stale then 0 else rr_WindowNegativeCount state in
  mkReporterReliability account next epochID band
    (u64 (rr_ContradictionCount state + increments)) ineligibleUntil
    (if (delta <? 0) && (positive <? MaxUint32) then positive + 1 else positive)
    (if (0 <? delta) && (negative <? MaxUint32) then negative + 1 else negative)
    start.

Definition applyReporterReliabilityDelta (epochID : Z) (account : string)
    (delta decay increments : Z) (params : AuditParams)
    : M score_store (ReporterReliabilityState * bool) :=
  if decide (account = ""%string) then mret (zero_ReporterReliability, false) else
  found ← gets (λ s, sc_reporters s !! account);
  if bool_decide (found = None) && (delta =? 0) && (increments =? 0)
  then mret (zero_ReporterReliability, false) else
  let state := default zero_ReporterReliability found in
  let current := match found with
                 | Some st => decayTowardZero (rr_ReliabilityScore st) decay
                                (epochDelta epochID (rr_LastUpdatedEpoch st))
                 | None => 0
                 end in
  let next := clamp_zero (addInt64Saturated current delta) in
  let nextState := next_reliability state epochID account next delta increments params in
  _ ← SetReporterReliabilityState nextState;
  mret (nextState, true).

(** ** Tickets *)
Definition next_deterioration (found : bool) (state : TicketDeteriorationState) (epochID : Z)
    (reporter : string) (r : StorageProofResult) (ticketID : string) (next : Z)
    (contradictionConfirmed : bool) (params : AuditParams) : TicketDeteriorationState :=
  let class := pr_ResultClass r in
  let failure := isStorageTruthFailureClass class in
  let newFailure := failure && (negb found || negb (epochID =? td_LastFailureEpoch state)) in
  let lastFailure := if newFailure then epochID else td_LastFailureEpoch state in
  let recent := if newFailure then updateRecentFailureEpochCount state epochID params
                else td_RecentFailureEpochCount state in
  if decide (pr_TicketId r = ""%string) then
    mkTicketDeterioration ticketID next epochID (td_ActiveHealOpId state)
      (td_ProbationUntilEpoch state) (td_LastHealEpoch state) lastFailure recent
      (td_ContradictionCount state) (td_LastTargetSupernodeAccount state)
      (td_LastReporterSupernodeAccount state) (td_LastResultClass state)
      (td_LastResultEpoch state) (td_DistinctHolderFailureCount state)
      (td_LastIndexFailureEpoch state) (td_RecentBucketFailureEpoch state)
      (td_OldBucketFailureEpoch state)
  else
    let lastTarget := td_LastTargetSupernodeAccount state in
    let target := pr_TargetSupernodeAccount r in
    mkTicketDeterioration ticketID next epochID (td_ActiveHealOpId state)
      (td_ProbationUntilEpoch state) (td_LastHealEpoch state) lastFailure recent
      (if contradictionConfirmed && (td_LastResultEpoch state <=? epochID)
          && bool_decide (lastTarget = target)
          && storageTruthResultsContradict (td_LastResultClass state) class
       then u64 (td_ContradictionCount state + 1) else td_ContradictionCount state)
      target reporter class epochID
      (if failure && bool_decide (lastTarget ≠ "") && bool_decide (lastTarget ≠ target)
          && (td_DistinctHolderFailureCount state <? MaxUint32)
       then td_DistinctHolderFailureCount state + 1 else td_DistinctHolderFailureCount state)
      (if failure && bool_decide (pr_ArtifactClass r = ARTIFACT_INDEX) then epochID
       else td_LastIndexFailureEpoch state)
      (if failure && bool_decide (pr_BucketType r = BUCKET_RECENT) then epochID
       else td_RecentBucketFailureEpoch state)
      (if failure && bool_decide (pr_BucketType r = BUCKET_OLD) then epochID
       else td_OldBucketFailureEpoch state).

(** [params] is the result of the [GetParams] in the middle of the function. *)
Definition applyTicketDeteriorationDelta (epochID : Z) (reporter : string)
    (r : StorageProofResult) (ticketID : string) (delta decay : Z)
    (contradictionConfirmed : bool) (params : AuditParams)
    : M score_store (TicketDeteriorationState * bool) :=
  if decide (ticketID = ""%string) then mret (zero_TicketDeterioration, false) else
  found ← gets (λ s, sc_tickets s !! ticketID);
  if bool_decide (found = None) && (delta =? 0) then mret (zero_TicketDeterioration, false) else
  let state := default zero_TicketDeterioration found in
  let current := match found with
                 | Some st => decayTowardZero (td_DeteriorationScore st) decay
                                (epochDelta epochID (td_LastUpdatedEpoch st))
                 | None => 0
                 end in
  let next := addInt64Saturated current delta in
  let next := if isPass (pr_ResultClass r) && bool_decide (is_Some found)
                 && bool_decide (td_LastTargetSupernodeAccount state ≠ "")
                 && bool_decide (td_LastTargetSupernodeAccount state ≠ pr_TargetSupernodeAccount r)
                 && isStorageTruthFailureClass (td_LastResultClass state)
              then addInt64Saturated next (-3) else next in
  let next := clamp_zero next in
  let nextState := next_deterioration (bool_decide (is_Some found)) state epochID reporter r
                     ticketID next contradictionConfirmed params in
  _ ← SetTicketDeteriorationState nextState;
  mret (nextState, true).

(** ** Bookkeeping for one result *)
Record storageTruthResultBookkeeping := Bookkeeping {
  reporterTrustBand : ReporterTrustBand;
  reporterTrustMultiplier : Z;
  applyTrustScaling : bool;
  repeatedFailureCount : Z;
  contradictionDetected : bool;
  contradictedReporter : string;
  currentReporterPenalty : Z;
  contradictedReporterDelta : Z;
  nodeBonus : Z;
  ticketBonus : Z
}.
Definition zero_Bookkeeping : storageTruthResultBookkeeping :=
  Bookkeeping TRUST_UNSPECIFIED 0 false 0 false "" 0 0 0 0.

Definition hasStorageTruthContradictionConfirmation (epochID : Z)
    (ticketID target currentReporter : string) (window : Z) (s : fact_store) : bool :=
  if decide (ticketID = ""%string) then false else
  if decide (target = ""%string) then false else
  let startEpoch := storageTruthWindowStart epochID window in
  hasIndependentReporterPassInWindow ticketID target currentReporter startEpoch epochID s
  || hasCleanRecheckInWindow ticketID target startEpoch epochID s.

(** The bonuses of a failure: distinct failed tickets of the node, and failures in
    both buckets. *)
Definition failure_node_bonus (epochID : Z) (r : StorageProofResult) (params : AuditParams)
    (s : fact_store) : Z * Z :=
  let target := pr_TargetSupernodeAccount r in
  let patternWindow := or_default (StorageTruthPatternEscalationWindow params) 14 in
  let start := storageTruthWindowStart epochID patternWindow in
  let tickets := {[pr_TicketId r]} ∪ (distinctNodeFailedTickets target start epochID (λ _, true) s).1 in
  let count := u32 (Z.of_nat (size tickets)) in
  let bonus := if 1 <? count then repeatedFailureEscalationBonus count else 0 in
  if decide (target = ""%string) then (count, bonus) else
  let in_bucket b := hasNodeFailure target start epochID
                       (λ f, bool_decide (nf_BucketType f = b)) s in
  (count,
   if (bool_decide (pr_BucketType r = BUCKET_RECENT) || in_bucket BUCKET_RECENT)
      && (bool_decide (pr_BucketType r = BUCKET_OLD) || in_bucket BUCKET_OLD)
   then addInt64Saturated bonus 12 else bonus).

Definition storageTruthBookkeepingForResult (epochID : Z) (reporter : string)
    (r : StorageProofResult) (params : AuditParams) (sc : score_store) (fs : fact_store)
    : storageTruthResultBookkeeping :=
  let class := pr_ResultClass r in
  let score := match sc_reporters sc !! reporter with
               | Some st => decayTowardZero (rr_ReliabilityScore st)
                              (StorageTruthReporterReliabilityDecayPerEpoch params)
                              (epochDelta epochID (rr_LastUpdatedEpoch st))
               | None => 0
               end in
  let band := reporterTrustBandForScore score params in
  let multiplier := reporterTrustMultiplierNumerator score in
  let scaling := bool_decide (class = CLASS_HASH_MISMATCH) && isStorageTruthFailureClass class
                 && bool_decide (class ≠ CLASS_RECHECK_CONFIRMED_FAIL)
                 && bool_decide (pr_BucketType r ≠ BUCKET_RECHECK) in
  if decide (pr_TicketId r = ""%string)
  then Bookkeeping band multiplier scaling 0 false "" 0 0 0 0 else
  let ticket := sc_tickets sc !! pr_TicketId r in
  let target := pr_TargetSupernodeAccount r in
  let '(count, nodeBonus, ticketBonus) :=
    if isStorageTruthFailureClass class then
      let '(count, bonus) := failure_node_bonus epochID r params fs in
      (count, bonus,
       match ticket with
       | Some t =>
           if negb (epochID =? td_LastFailureEpoch t)
              && bool_decide (td_LastTargetSupernodeAccount t ≠ "")
           then (if decide (td_LastTargetSupernodeAccount t = target) then 6 else 10) else 0
       | None => 0
       end)
    else (match ticket with Some t => td_RecentFailureEpochCount t | None => 0 end, 0, 0) in
  let confirmed :=
    match ticket with
    | Some t =>
        (td_LastResultEpoch t <=? epochID) && bool_decide (td_LastTargetSupernodeAccount t = target)
        && isStorageTruthFailureClass (td_LastResultClass t) && isPass class
        && hasStorageTruthContradictionConfirmation epochID (pr_TicketId r) target reporter
             (or_default (StorageTruthContradictionWindowEpochs params) 7) fs
    | None => false
    end in
  let contradicted :=
    match ticket with
    | Some t => if confirmed && bool_decide (td_LastReporterSupernodeAccount t ≠ "")
                   && bool_decide (td_LastReporterSupernodeAccount t ≠ reporter)
                then td_LastReporterSupernodeAccount t else ""%string
    | None => ""%string
    end in
  Bookkeeping band multiplier scaling count confirmed contradicted 0
    (if decide (contradicted = ""%string) then 0 else 12) nodeBonus ticketBonus.

(** ** All the results of a report *)
Definition scored_mode (m : EnforcementMode) : bool :=
  match m with
  | STORAGE_TRUTH_ENFORCEMENT_MODE_SHADOW | STORAGE_TRUTH_ENFORCEMENT_MODE_SOFT
  | STORAGE_TRUTH_ENFORCEMENT_MODE_FULL => true
  | _ => false
  end.

Definition scaled_deltas (d : storageTruthScoreDeltas) (b : storageTruthResultBookkeeping)
    : storageTruthScoreDeltas :=
  let scale v := if applyTrustScaling b && (0 <? v)
                 then scaleInt64TowardZero v (reporterTrustMultiplier b) 100 else v in
  Deltas (addInt64Saturated (scale (nodeSuspicion d)) (nodeBonus b))
    (addInt64Saturated (reporterReliability d) (currentReporterPenalty b))
    (addInt64Saturated (scale (ticketDeterioration d)) (ticketBonus b)).

Definition EventTypeStorageTruthScoreUpdated : string := "storage_truth_score_updated".

(** The scores that were written, each with its attribute. *)
Definition score_event (epochID : Z) (reporter : string) (r : StorageProofResult)
    (b : storageTruthResultBookkeeping) (node : Z * bool) (rep : ReporterReliabilityState * bool)
    (ticket : TicketDeteriorationState * bool) : event :=
  audit_event EventTypeStorageTruthScoreUpdated
    ([("epoch_id", FormatInt epochID); ("reporter_supernode_account", reporter);
      ("target_supernode_account", pr_TargetSupernodeAccount r); ("ticket_id", pr_TicketId r);
      ("result_class", StorageProofResultClass_String (pr_ResultClass r));
      ("bucket_type", StorageProofBucketType_String (pr_BucketType r));
      ("reporter_trust_band", ReporterTrustBand_String (rr_TrustBand rep.1));
      ("repeated_failure_count", FormatInt (td_RecentFailureEpochCount ticket.1));
      ("contradiction_detected", FormatBool (contradictionDetected b))]%string
     ++ (if node.2 then [("node_suspicion_score"%string, FormatInt node.1)] else [])
     ++ (if rep.2 then [("reporter_reliability_score"%string, FormatInt (rr_ReliabilityScore rep.1))]
         else [])
     ++ (if ticket.2
         then [("ticket_deterioration_score"%string, FormatInt (td_DeteriorationScore ticket.1))] else [])
     ++ (if decide (contradictedReporter b = ""%string) then []
         else [("contradicted_reporter"%string, contradictedReporter b)])).

Definition applyStorageTruthScore (epochID : Z) (reporter : string) (params : AuditParams)
    (r : StorageProofResult) : M audit_store unit :=
  bookkeeping ←
    (if decide (pr_BucketType r = BUCKET_RECHECK) then mret zero_Bookkeeping
     else gets (λ s, storageTruthBookkeepingForResult epochID reporter r params
                       (au_scores s) (au_facts s)));
  let deltas := scaled_deltas (storageTruthScoreDeltasForResult r) bookkeeping in
  node ← on_scores (applyNodeSuspicionDelta epochID r (nodeSuspicion deltas)
           (StorageTruthNodeSuspicionDecayPerEpoch params) params);
  rep ← on_scores (applyReporterReliabilityDelta epochID reporter (reporterReliability deltas)
           (StorageTruthReporterReliabilityDecayPerEpoch params)
           (boolToUint64 (contradictionDetected bookkeeping)) params);
  _ ← (if bool_decide (contradictedReporter bookkeeping ≠ "")
          && negb (contradictedReporterDelta bookkeeping =? 0)
       then _ ← on_scores (applyReporterReliabilityDelta epochID
                  (contradictedReporter bookkeeping) (contradictedReporterDelta bookkeeping)
                  (StorageTruthReporterReliabilityDecayPerEpoch params) 1 params); mret tt
       else mret tt);
  _ ← (if decide (pr_BucketType r = BUCKET_RECHECK) then mret tt
       else on_facts (setStorageTruthReporterResult epochID reporter r));
  _ ← on_facts (setStorageTruthNodeFailure epochID reporter r);
  current ← gets (λ s, AuditParams_WithDefaults (AuditGetParams (au_epochs s)));
  ticket ← on_scores (applyTicketDeteriorationDelta epochID reporter r (pr_TicketId r)
             (ticketDeterioration deltas) (StorageTruthTicketDeteriorationDecayPerEpoch params)
             (contradictionDetected bookkeeping) current);
  if node.2 || rep.2 || ticket.2
  then emit (score_event epochID reporter r bookkeeping node rep ticket)
  else mret tt.

Definition applyStorageTruthScores (epochID : Z) (reporter : string)
    (results : list (option StorageProofResult)) : M audit_store unit :=
  match results with
  | [] => mret tt
  | _ =>
      params ← gets (λ s, AuditParams_WithDefaults (AuditGetParams (au_epochs s)));
      if scored_mode (StorageTruthEnforcementMode params) then
        for_each (λ result,
          match result with
          | None => mret tt
          | Some r => applyStorageTruthScore epochID reporter params r
          end) results
      else mret tt
  end.
