(* ===== verification/HealOps.v ===== *)
(** * x/audit/v1/keeper: heal operations

    storage_truth_heal_ops.go, the heal-op part of storage_truth_state.go,
    storage_truth_postponement_state.go and the heal-op handlers of
    msg_storage_truth.go: deteriorated tickets get a healer and verifiers, who
    report and vote before a deadline. *)
From Stdlib Require Import ZArith Lia.
From stdpp Require Import base numbers strings list gmap sorting.
From S2P Require Import Prelude Sdk SupernodeTypes Supernode AuditParam AuditTypes Epoch.
From S2P Require Import GoHash Scoring AuditFacts ScoreKeeper.
Open Scope Z_scope.

(** ** storage_truth_state.go: heal operations *)
Definition upd_ops f (s : heal_store) : heal_store :=
  HealStore (f (hs_ops s)) (hs_by_ticket s) (hs_by_status s) (hs_votes s) (hs_next s).
Definition upd_op_tickets f (s : heal_store) : heal_store :=
  HealStore (hs_ops s) (f (hs_by_ticket s)) (hs_by_status s) (hs_votes s) (hs_next s).
Definition upd_op_status f (s : heal_store) : heal_store :=
  HealStore (hs_ops s) (hs_by_ticket s) (f (hs_by_status s)) (hs_votes s) (hs_next s).
Definition upd_votes f (s : heal_store) : heal_store :=
  HealStore (hs_ops s) (hs_by_ticket s) (hs_by_status s) (f (hs_votes s)) (hs_next s).

(** The largest id in the store, or zero. *)
Definition max_heal_id (s : heal_store) : Z :=
  foldr (λ kv acc, if acc <? kv.1 then kv.1 else acc) 0 (map_to_list (hs_ops s)).
Definition deriveNextHealOpID (s : heal_store) : Z := u64 (max_heal_id s + 1).
Definition GetNextHealOpID (s : heal_store) : Z :=
  match hs_next s with
  | None => deriveNextHealOpID s
  | Some id => if id =? 0 then deriveNextHealOpID s else id
  end.
Definition SetNextHealOpID (id : Z) : M heal_store unit :=
  modify (λ s, HealStore (hs_ops s) (hs_by_ticket s) (hs_by_status s) (hs_votes s) (Some id)).

Definition GetHealOp (id : Z) (s : heal_store) : option HealOp := hs_ops s !! id.
Definition GetAllHealOps (s : heal_store) : list HealOp := (kv_iter u64be (hs_ops s)).*2.

Definition SetHealOp (op : HealOp) : M heal_store unit :=
  existing ← gets (GetHealOp (ho_HealOpId op));
  _ ← (match existing with
       | Some ex =>
           _ ← modify (upd_op_tickets (λ i, i ∖ {[(ho_TicketId ex, ho_HealOpId ex)]}));
           modify (upd_op_status (λ i, i ∖ {[(ho_Status ex, ho_HealOpId ex)]}))
       | None => mret tt
       end);
  _ ← modify (upd_ops <[ho_HealOpId op := op]>);
  _ ← modify (upd_op_tickets (λ i, {[(ho_TicketId op, ho_HealOpId op)]} ∪ i));
  modify (upd_op_status (λ i, {[(ho_Status op, ho_HealOpId op)]} ∪ i)).

Definition HasHealOpVerification (id : Z) (verifier : string) (s : heal_store) : bool :=
  bool_decide (is_Some (hs_votes s !! (id, verifier))).
Definition SetHealOpVerification (id : Z) (verifier : string) (verified : bool)
    : M heal_store unit := modify (upd_votes <[(id, verifier) := verified]>).
(** A verifier's name is not empty in the map that the code builds. *)
Definition heal_vote (id : Z) (s : heal_store) (verifier : string) : option bool :=
  if decide (verifier = ""%string) then None else hs_votes s !! (id, verifier).

Definition isHealOpFinalStatus (st : HealOpStatus) : bool :=
  match st with HEAL_VERIFIED | HEAL_FAILED | HEAL_EXPIRED => true | _ => false end.

(** ** storage_truth_postponement_state.go *)
Definition getStorageTruthPostponedAtEpochID (account : string) (s : postpone_store) : option Z :=
  pp_storage s !! account.
Definition setStorageTruthPostponedAtEpochID (account : string) (epochID : Z)
    : M postpone_store unit :=
  modify (λ s, PostponeStore (pp_action s) (<[account := epochID]> (pp_storage s)) (pp_strong s)).
Definition clearStorageTruthPostponedAtEpochID (account : string) : M postpone_store unit :=
  modify (λ s, PostponeStore (pp_action s) (delete account (pp_storage s))
                 (pp_strong s ∖ {[account]})).
Definition hasStorageTruthStrongPostponeMarker (account : string) (s : postpone_store) : bool :=
  bool_decide (account ∈ pp_strong s).
Definition setStorageTruthStrongPostponeMarker (account : string) : M postpone_store unit :=
  modify (λ s, PostponeStore (pp_action s) (pp_storage s) ({[account]} ∪ pp_strong s)).
Definition GetAllStorageTruthPostponements (s : postpone_store) : list (string * Z * bool) :=
  (λ kv : string * Z, (kv.1, kv.2, hasStorageTruthStrongPostponeMarker kv.1 s))
    <$> kv_iter string_bytes (pp_storage s).

(** ** Participants *)
Definition deterministicStorageTruthIndex (ticketID : string) (epochID n : Z) : Z :=
  if n <=? 1 then 0 else
  fnv64a (string_bytes ticketID ++ [0] ++ string_bytes (FormatInt epochID)) mod n.

Definition assignStorageTruthHealParticipants (active : list string) (ticketID : string)
    (epochID : Z) (params : AuditParams) : string * list string :=
  match active with
  | [] => (""%string, [])
  | [a] => (a, [])
  | _ =>
      let n := length active in
      let idx := Z.to_nat (deterministicStorageTruthIndex ticketID epochID (zlen active)) in
      let count := StorageTruthHealVerifierCount params in
      let count := if count <=? 0 then DefaultStorageTruthHealVerifierCount else count in
      let count := if zlen active - 1 <? count then zlen active - 1 else count in
      (default ""%string (active !! idx),
       (λ i, default ""%string (active !! ((idx + i) mod n)%nat)) <$> seq 1 (Z.to_nat count))
  end.

(** ** Expiry at the end of an epoch *)
Definition EventTypeHealOpScheduled : string := "storage_truth_heal_op_scheduled".
Definition EventTypeHealOpExpired : string := "storage_truth_heal_op_expired".
Definition EventTypeHealOpHealerReported : string := "storage_truth_heal_op_healer_reported".
Definition EventTypeHealOpVerified : string := "storage_truth_heal_op_verified".
Definition EventTypeHealOpFailed : string := "storage_truth_heal_op_failed".
Definition EventTypeHealOpInsufficientHealers : string :=
  "storage_truth_heal_op_insufficient_healers".
Definition EventTypeHealOpInsufficientVerifiers : string :=
  "storage_truth_heal_op_insufficient_verifiers".
Definition heal_attrs (op : HealOp) : list (string * string) :=
  [("heal_op_id", FormatInt (ho_HealOpId op)); ("ticket_id", ho_TicketId op)]%string.
Definition epoch_attr (epochID : Z) : string * string := ("epoch_id"%string, FormatInt epochID).
Definition ticket_event (ty ticketID : string) (epochID : Z) : event :=
  audit_event ty [("ticket_id"%string, ticketID); epoch_attr epochID].

Section Heal.
Context `{SdkAddress} `{LegacyDecOps}.

Definition height_u64 (ctx : Ctx) : Z := u64 (BlockHeight ctx).

Definition expire_heal_op (ctx : Ctx) (epochID : Z) (params : AuditParams) (op : HealOp)
    : M audit_store unit :=
  if isHealOpFinalStatus (ho_Status op) then mret tt else
  if (ho_DeadlineEpochId op =? 0) || (epochID <? ho_DeadlineEpochId op) then mret tt else
  let op := ho_with op HEAL_EXPIRED (height_u64 ctx) (ho_ResultHash op) (ho_Notes op) in
  _ ← on_heal (SetHealOp op);
  ticket ← gets (λ s, sc_tickets (au_scores s) !! ho_TicketId op);
  _ ← (match ticket with
       | Some t =>
           let cooldownUntil := u64 (epochID + StorageTruthProbationEpochs params) in
           let t := td_with_heal t
                      (if td_ActiveHealOpId t =? ho_HealOpId op then 0 else td_ActiveHealOpId t)
                      (addInt64Saturated (td_DeteriorationScore t) 15)
                      (if td_ProbationUntilEpoch t <? cooldownUntil then cooldownUntil
                       else td_ProbationUntilEpoch t) in
           _ ← on_scores (SetTicketDeteriorationState t);
           on_facts (setStorageTruthFailedHeal (ho_HealerSupernodeAccount op) epochID
                       (ho_TicketId op))
       | None => mret tt
       end);
  emit (audit_event EventTypeHealOpExpired (epoch_attr epochID :: heal_attrs op)).

Definition expireStorageTruthHealOpsAtEpochEnd (ctx : Ctx) (epochID : Z) (params : AuditParams)
    : M audit_store unit :=
  healOps ← gets (λ s, GetAllHealOps (au_heal s));
  for_each (expire_heal_op ctx epochID params) healOps.

(** ** Scheduling at the end of an epoch *)
Definition storageTruthSchedulerAccounts (epochID : Z) (s : audit_store) : result (list string) :=
  match GetEpochAnchor epochID (au_epochs s) with
  | Some anchor =>
      if decide (ea_ActiveSupernodeAccounts anchor = []) then
        match supernodeAccountsFromSet [] (GetAllSuperNodes [SuperNodeStateActive] (au_sn s)) with
        | Ok accounts => Ok (sort_Strings accounts)
        | Err e => Err e
        end
      else Ok (ea_ActiveSupernodeAccounts anchor)
  | None =>
      match supernodeAccountsFromSet [] (GetAllSuperNodes [SuperNodeStateActive] (au_sn s)) with
      | Ok accounts => Ok (sort_Strings accounts)
      | Err e => Err e
      end
  end.

(** Postponed nodes and nodes at or above the probation threshold do not heal. *)
Definition ineligibleHealers (epochID : Z) (params : AuditParams) (s : audit_store)
    : list string :=
  ((λ p, p.1.1) <$> GetAllStorageTruthPostponements (au_postpone s)) ++
  (let probationThreshold := StorageTruthNodeSuspicionThresholdProbation params in
   if 0 <? probationThreshold then
     ns_SupernodeAccount <$>
       List.filter (λ ss,
         probationThreshold <=?
           decayTowardZero (ns_SuspicionScore ss)
             (StorageTruthNodeSuspicionDecayPerEpoch params)
             (epochDelta epochID (ns_LastUpdatedEpoch ss)))
         (GetAllNodeSuspicionStates (au_scores s))
   else []).

Definition isHealEligible (t : TicketDeteriorationState) : bool :=
  (2 <=? td_DistinctHolderFailureCount t) || (0 <? td_LastIndexFailureEpoch t)
  || (2 <=? td_RecentFailureEpochCount t).

(** The candidates, in ticket order; a pointer to an operation that is not open
    any more is cleared on the way. *)
Fixpoint heal_candidates (epochID : Z) (params : AuditParams) (open : list HealOp)
    (tickets : list TicketDeteriorationState) : M audit_store (list TicketDeteriorationState) :=
  match tickets with
  | [] => mret []
  | t :: tickets' =>
      if bool_decide (td_TicketId t = "")
         || (td_DeteriorationScore t <? StorageTruthTicketDeteriorationHealThreshold params)
         || (epochID <? td_ProbationUntilEpoch t)
      then heal_candidates epochID params open tickets' else
      if negb (td_ActiveHealOpId t =? 0)
         && bool_decide (td_ActiveHealOpId t ∈ ho_HealOpId <$> open)
      then heal_candidates epochID params open tickets' else
      let stale := negb (td_ActiveHealOpId t =? 0) in
      let t := if stale then td_with_active t 0 else t in
      _ ← (if stale then on_scores (SetTicketDeteriorationState t) else mret tt);
      rest ← heal_candidates epochID params open tickets';
      mret (if bool_decide (td_TicketId t ∈ ho_TicketId <$> open) || negb (isHealEligible t)
            then rest else t :: rest)
  end.

(** Highest score, index failure first, most holders, oldest failure, ticket id. *)
Definition candidate_less (a b : TicketDeteriorationState) : bool :=
  if negb (td_DeteriorationScore a =? td_DeteriorationScore b)
  then td_DeteriorationScore b <? td_DeteriorationScore a else
  let ia := 0 <? td_LastIndexFailureEpoch a in
  let ib := 0 <? td_LastIndexFailureEpoch b in
  if negb (eqb ia ib) then ia else
  if negb (td_DistinctHolderFailureCount a =? td_DistinctHolderFailureCount b)
  then td_DistinctHolderFailureCount b <? td_DistinctHolderFailureCount a else
  if negb (td_LastFailureEpoch a =? td_LastFailureEpoch b)
  then td_LastFailureEpoch a <? td_LastFailureEpoch b else
  bool_decide (string_le (td_TicketId a) (td_TicketId b))
  && bool_decide (td_TicketId a ≠ td_TicketId b).

Fixpoint schedule_candidates (ctx : Ctx) (epochID : Z) (params : AuditParams)
    (active ineligible : list string) (scheduled : Z) (cands : list TicketDeteriorationState)
    : M audit_store unit :=
  match cands with
  | [] => mret tt
  | cand :: cands' =>
      if StorageTruthMaxSelfHealOpsPerEpoch params <=? scheduled then mret tt else
      let ticketID := td_TicketId cand in
      let eligibleHealers :=
        filter (λ a, a ∉ ineligible ∧ a ≠ td_LastTargetSupernodeAccount cand) active in
      match eligibleHealers with
      | [] =>
          _ ← emit (ticket_event EventTypeHealOpInsufficientHealers ticketID epochID);
          schedule_candidates ctx epochID params active ineligible scheduled cands'
      | _ =>
          let '(healer, verifiers) :=
            assignStorageTruthHealParticipants eligibleHealers ticketID epochID params in
          match verifiers with
          | [] =>
              _ ← emit (ticket_event EventTypeHealOpInsufficientVerifiers ticketID epochID);
              schedule_candidates ctx epochID params active ineligible scheduled cands'
          | _ =>
              healOpID ← gets (λ s, GetNextHealOpID (au_heal s));
              let deadlineEpochs := or_default (StorageTruthHealDeadlineEpochs params) 3 in
              let op := mkHealOp healOpID ticketID epochID healer verifiers HEAL_SCHEDULED
                          (height_u64 ctx) (height_u64 ctx) (u64 (epochID + deadlineEpochs))
                          "" "" in
              _ ← on_heal (SetHealOp op);
              _ ← on_heal (SetNextHealOpID (u64 (healOpID + 1)));
              ticket ← gets (λ s, sc_tickets (au_scores s) !! ticketID);
              t ← of_option (ErrOther "ticket deterioration state not found") ticket;
              _ ← on_scores (SetTicketDeteriorationState (td_with_active t healOpID));
              _ ← emit (audit_event EventTypeHealOpScheduled
                     (epoch_attr epochID :: heal_attrs op ++
                      [("healer_supernode_account", healer);
                       ("deadline_epoch_id", FormatInt (ho_DeadlineEpochId op))]%string));
              schedule_candidates ctx epochID params active ineligible (u32 (scheduled + 1)) cands'
          end
      end
  end.

Definition scheduleStorageTruthHealOpsAtEpochEnd (ctx : Ctx) (epochID : Z) (params : AuditParams)
    : M audit_store unit :=
  if decide (StorageTruthEnforcementMode params = STORAGE_TRUTH_ENFORCEMENT_MODE_UNSPECIFIED)
  then mret tt else
  if StorageTruthMaxSelfHealOpsPerEpoch params =? 0 then mret tt else
  accounts ← gets (storageTruthSchedulerAccounts epochID);
  activeAccounts ← of_result accounts;
  match activeAccounts with
  | [] => mret tt
  | _ =>
      open ← gets (λ s, List.filter (λ op, negb (isHealOpFinalStatus (ho_Status op)))
                          (GetAllHealOps (au_heal s)));
      tickets ← gets (λ s, GetAllTicketDeteriorationStates (au_scores s));
      ineligible ← gets (ineligibleHealers epochID params);
      cands ← heal_candidates epochID params open tickets;
      schedule_candidates ctx epochID params activeAccounts ineligible 0
        (sort_stable candidate_less cands)
  end.

Definition ProcessStorageTruthHealOpsAtEpochEnd (ctx : Ctx) (epochID : Z) (params : AuditParams)
    : M audit_store unit :=
  _ ← expireStorageTruthHealOpsAtEpochEnd ctx epochID params;
  scheduleStorageTruthHealOpsAtEpochEnd ctx epochID params.
End Heal.
