(* ===== verification/HealMsg.v ===== *)
(** * x/audit/v1/keeper/msg_storage_truth.go: recheck and heal messages *)
From Stdlib Require Import ZArith Lia.
From stdpp Require Import base numbers strings list gmap sorting.
From S2P Require Import Prelude Sdk SupernodeTypes Supernode AuditParam AuditTypes Epoch.
From S2P Require Import Scoring AuditFacts ScoreKeeper HealOps.
Open Scope Z_scope.

Record MsgSubmitStorageRecheckEvidence := {
  re_Creator : string;
  re_EpochId : Z;
  re_ChallengedSupernodeAccount : string;
  re_TicketId : string;
  re_ChallengedResultTranscriptHash : string;
  re_RecheckTranscriptHash : string;
  re_RecheckResultClass : StorageProofResultClass
}.
Record MsgClaimHealComplete := {
  ch_Creator : string;
  ch_HealOpId : Z;
  ch_TicketId : string;
  ch_HealManifestHash : string;
  ch_Details : string
}.
Record MsgSubmitHealVerification := {
  hv_Creator : string;
  hv_HealOpId : Z;
  hv_Verified : bool;
  hv_VerificationHash : string;
  hv_Details : string
}.

Definition nonempty (s : string) : bool := bool_decide (s ≠ ""%string).

Definition appendStorageTruthNote (existing note : string) : string :=
  let note := strings_TrimSpace note in
  if decide (note = ""%string) then existing else
  if decide (existing = ""%string) then note else (existing +:+ " | " +:+ note)%string.

Section HealMsg.
Context `{SdkAddress} `{LegacyDecOps}.

(** ** Recheck evidence *)
Definition recheck_class (c : StorageProofResultClass) : bool :=
  match c with
  | CLASS_PASS | CLASS_HASH_MISMATCH | CLASS_TIMEOUT_OR_NO_RESPONSE
  | CLASS_OBSERVER_QUORUM_FAIL | CLASS_INVALID_TRANSCRIPT | CLASS_RECHECK_CONFIRMED_FAIL => true
  | _ => false
  end.

(** A result that carries the outcome of the recheck, all other fields zero. *)
Definition recheckResult (req : MsgSubmitStorageRecheckEvidence) : StorageProofResult :=
  mkProofResult (re_ChallengedSupernodeAccount req) "" (re_TicketId req) BUCKET_RECHECK
    ARTIFACT_UNSPECIFIED 0 "" (re_RecheckResultClass req) "" "" 0 "" "" [].

Definition EventTypeStorageRecheckEvidence : string := "storage_truth_recheck_evidence_submitted".

Definition SubmitStorageRecheckEvidence (ctx : Ctx) (req : MsgSubmitStorageRecheckEvidence)
    : M audit_store unit :=
  let creator := re_Creator req in
  _ ← ensure (nonempty creator) ErrInvalidSigner;
  _ ← ensure (nonempty (re_ChallengedSupernodeAccount req)) ErrInvalidRecheckEvidence;
  _ ← ensure (bool_decide (re_ChallengedSupernodeAccount req ≠ creator)) ErrInvalidRecheckEvidence;
  _ ← ensure (nonempty (re_TicketId req)) ErrInvalidRecheckEvidence;
  _ ← ensure (nonempty (re_ChallengedResultTranscriptHash req)) ErrInvalidRecheckEvidence;
  _ ← ensure (nonempty (re_RecheckTranscriptHash req)) ErrInvalidRecheckEvidence;
  anchor ← gets (λ s, GetEpochAnchor (re_EpochId req) (au_epochs s));
  _ ← of_option ErrInvalidEpochID anchor;
  creatorSN ← gets (λ s, GetSuperNodeByAccount creator (au_sn s));
  _ ← of_option ErrReporterNotFound creatorSN;
  targetSN ← gets (λ s, GetSuperNodeByAccount (re_ChallengedSupernodeAccount req) (au_sn s));
  _ ← of_option ErrInvalidRecheckEvidence targetSN;
  _ ← ensure (recheck_class (re_RecheckResultClass req)) ErrInvalidRecheckEvidence;
  found ← gets (λ s, getStorageProofTranscriptRecord (re_ChallengedResultTranscriptHash req)
                       (au_facts s));
  challenged ← of_option ErrInvalidRecheckEvidence found;
  _ ← ensure (tr_EpochID challenged =? re_EpochId req) ErrInvalidRecheckEvidence;
  _ ← ensure (bool_decide (tr_TicketID challenged = re_TicketId req)) ErrInvalidRecheckEvidence;
  _ ← ensure (bool_decide (tr_TargetAccount challenged = re_ChallengedSupernodeAccount req))
        ErrInvalidRecheckEvidence;
  _ ← ensure (bool_decide (tr_ReporterAccount challenged ≠ creator)) ErrInvalidRecheckEvidence;
  _ ← ensure (tr_RecheckEligible challenged) ErrInvalidRecheckEvidence;
  dup ← gets (λ s, HasRecheckEvidence (re_EpochId req) (re_TicketId req) creator (au_facts s));
  _ ← ensure (negb dup) ErrInvalidRecheckEvidence;
  _ ← on_facts (linkStorageTruthRecheckTranscript (re_ChallengedResultTranscriptHash req)
        (re_RecheckTranscriptHash req) creator (re_RecheckResultClass req));
  _ ← on_facts (SetRecheckEvidence (re_EpochId req) (re_TicketId req) creator);
  params ← gets (λ s, AuditParams_WithDefaults (AuditGetParams (au_epochs s)));
  currentEpoch ← of_result (deriveEpochAtHeight (BlockHeight ctx) params);
  let orig := tr_ReporterAccount challenged in
  let independent := nonempty orig && bool_decide (orig ≠ creator) in
  let overturned := independent && bool_decide (re_RecheckResultClass req = CLASS_PASS) in
  let confirmed :=
    independent && bool_decide (re_RecheckResultClass req = CLASS_RECHECK_CONFIRMED_FAIL) in
  let decay := StorageTruthReporterReliabilityDecayPerEpoch params in
  _ ← applyStorageTruthScores (EpochID currentEpoch) creator [Some (recheckResult req)];
  _ ← (if overturned then
         _ ← on_scores (applyReporterReliabilityDelta (EpochID currentEpoch) orig 25 decay 1 params);
         emit (audit_event EventTypeStorageTruthScoreUpdated
           [epoch_attr (EpochID currentEpoch); ("contradicted_reporter"%string, orig);
            ("recheck_result_class"%string,
             StorageProofResultClass_String (re_RecheckResultClass req))])
       else mret tt);
  _ ← (if confirmed then
         _ ← on_scores (applyReporterReliabilityDelta (EpochID currentEpoch) orig (-3) decay 0
                          params); mret tt
       else mret tt);
  _ ← (if overturned
       then on_facts (markStorageTruthReporterResultRecheck orig
              (re_ChallengedResultTranscriptHash req) false) else mret tt);
  _ ← (if confirmed
       then on_facts (markStorageTruthReporterResultRecheck orig
              (re_ChallengedResultTranscriptHash req) true) else mret tt);
  emit (audit_event EventTypeStorageRecheckEvidence
    [epoch_attr (re_EpochId req); ("reporter_supernode_account"%string, creator);
     ("target_supernode_account"%string, re_ChallengedSupernodeAccount req);
     ("ticket_id"%string, re_TicketId req);
     ("recheck_result_class"%string,
      StorageProofResultClass_String (re_RecheckResultClass req))]).

(** ** The healer's claim *)
Definition ClaimHealComplete (ctx : Ctx) (req : MsgClaimHealComplete) : M audit_store unit :=
  _ ← ensure (nonempty (ch_Creator req)) ErrInvalidSigner;
  _ ← ensure (negb (ch_HealOpId req =? 0)) ErrHealOpNotFound;
  _ ← ensure (nonempty (ch_TicketId req)) ErrHealOpTicketMismatch;
  _ ← ensure (nonempty (ch_HealManifestHash req)) ErrHealOpInvalidState;
  found ← gets (λ s, GetHealOp (ch_HealOpId req) (au_heal s));
  op ← of_option ErrHealOpNotFound found;
  _ ← ensure (bool_decide (ho_TicketId op = ch_TicketId req)) ErrHealOpTicketMismatch;
  _ ← ensure (bool_decide (ho_HealerSupernodeAccount op = ch_Creator req)) ErrHealOpUnauthorized;
  _ ← ensure (bool_decide (ho_Status op = HEAL_SCHEDULED)
              || bool_decide (ho_Status op = HEAL_IN_PROGRESS)) ErrHealOpInvalidState;
  let op := ho_with op HEAL_HEALER_REPORTED (height_u64 ctx) (ch_HealManifestHash req)
              (appendStorageTruthNote (ho_Notes op) (ch_Details req)) in
  _ ← ensure (bool_decide (ho_VerifierSupernodeAccounts op ≠ [])) ErrHealOpInvalidState;
  _ ← on_heal (SetHealOp op);
  emit (audit_event EventTypeHealOpHealerReported
    (heal_attrs op ++ [("healer_supernode_account"%string, ch_Creator req);
                       ("heal_manifest_hash"%string, ch_HealManifestHash req)])).

(** ** The verifiers' votes *)
Definition finalizeHealOp (ctx : Ctx) (op : HealOp) (verified : bool)
    (verificationHash details : string) : M audit_store unit :=
  let op := ho_with op (if verified then HEAL_VERIFIED else HEAL_FAILED) (height_u64 ctx)
              (if nonempty verificationHash then verificationHash else ho_ResultHash op)
              (appendStorageTruthNote (ho_Notes op) details) in
  _ ← on_heal (SetHealOp op);
  ticket ← gets (λ s, sc_tickets (au_scores s) !! ho_TicketId op);
  match ticket with
  | None => mret tt
  | Some t =>
      let active := if td_ActiveHealOpId t =? ho_HealOpId op then 0 else td_ActiveHealOpId t in
      params ← gets (λ s, AuditParams_WithDefaults (AuditGetParams (au_epochs s)));
      currentEpoch ← of_result (deriveEpochAtHeight (BlockHeight ctx) params);
      let until := u64 (EpochID currentEpoch + StorageTruthProbationEpochs params) in
      if verified then
        let resetScore := Z.quot (td_DeteriorationScore t) 4 in
        let resetScore := if resetScore <? 8 then 8 else resetScore in
        on_scores (SetTicketDeteriorationState
          (td_healed (td_with_heal t active resetScore until) (EpochID currentEpoch)))
      else
        _ ← on_facts (setStorageTruthFailedHeal (ho_HealerSupernodeAccount op)
              (EpochID currentEpoch) (ho_TicketId op));
        on_scores (SetTicketDeteriorationState
          (td_with_heal t active (addInt64Saturated (td_DeteriorationScore t) 15)
             (if td_ProbationUntilEpoch t <? until then until else td_ProbationUntilEpoch t)))
  end.

(** The assigned verifiers who voted [v]. *)
Definition count_votes (v : bool) (id : Z) (op : HealOp) (s : heal_store) : Z :=
  zlen (filter (λ a, heal_vote id s a = Some v) (ho_VerifierSupernodeAccounts op)).

Definition majority_of (op : HealOp) : Z := zlen (ho_VerifierSupernodeAccounts op) / 2 + 1.

Definition SubmitHealVerification (ctx : Ctx) (req : MsgSubmitHealVerification)
    : M audit_store unit :=
  _ ← ensure (nonempty (hv_Creator req)) ErrInvalidSigner;
  _ ← ensure (negb (hv_HealOpId req =? 0)) ErrHealOpNotFound;
  _ ← ensure (nonempty (hv_VerificationHash req)) ErrHealOpInvalidState;
  found ← gets (λ s, GetHealOp (hv_HealOpId req) (au_heal s));
  op ← of_option ErrHealOpNotFound found;
  _ ← ensure (bool_decide (ho_Status op = HEAL_HEALER_REPORTED)) ErrHealOpInvalidState;
  _ ← ensure (containsString (ho_VerifierSupernodeAccounts op) (hv_Creator req))
        ErrHealOpUnauthorized;
  voted ← gets (λ s, HasHealOpVerification (hv_HealOpId req) (hv_Creator req) (au_heal s));
  _ ← ensure (negb voted) ErrHealVerificationExists;
  _ ← ensure (negb (hv_Verified req && nonempty (ho_ResultHash op)
                    && bool_decide (hv_VerificationHash req ≠ ho_ResultHash op)))
        ErrInvalidHealVerification;
  _ ← on_heal (SetHealOpVerification (hv_HealOpId req) (hv_Creator req) (hv_Verified req));
  positive ← gets (λ s, count_votes true (hv_HealOpId req) op (au_heal s));
  negative ← gets (λ s, count_votes false (hv_HealOpId req) op (au_heal s));
  if majority_of op <=? negative then
    _ ← finalizeHealOp ctx op false (hv_VerificationHash req) (hv_Details req);
    emit (audit_event EventTypeHealOpFailed
      (heal_attrs op ++ [("verifier_supernode_account"%string, hv_Creator req);
                         ("verified"%string, FormatBool (hv_Verified req))]))
  else if majority_of op <=? positive then
    _ ← finalizeHealOp ctx op true (hv_VerificationHash req) (hv_Details req);
    emit (audit_event EventTypeHealOpVerified
      (heal_attrs op ++ [("verifier_supernode_account"%string, hv_Creator req);
                         ("verification_hash"%string, hv_VerificationHash req)]))
  else mret tt.
End HealMsg.
