(* ===== verification/AuditReport.v ===== *)
(** * x/audit/v1/keeper: epoch reports

    state.go, msg_submit_epoch_report.go and
    msg_submit_epoch_report_storage_proofs.go: a supernode reports on its host, on
    the ports of its assigned peers, and on the storage proofs it asked for. *)
From Stdlib Require Import ZArith Lia.
From stdpp Require Import base numbers strings list gmap sorting.
From S2P Require Import Prelude Sdk Float SupernodeTypes Supernode RegistryClients AuditParam AuditTypes Epoch.
From S2P Require Import Scoring Assign AuditFacts ScoreKeeper HealOps HealMsg.
Open Scope Z_scope.

Record MsgSubmitEpochReport := {
  rq_Creator : string;
  rq_EpochId : Z;
  rq_HostReport : HostReport;
  rq_StorageChallengeObservations : list (option StorageChallengeObservation);
  rq_StorageProofResults : list (option StorageProofResult)
}.

(** ** state.go: the report store *)
Definition HasReport (epochID : Z) (reporter : string) (s : report_store) : bool :=
  bool_decide (is_Some (rp_reports s !! (epochID, reporter))).
Definition GetReport (epochID : Z) (reporter : string) (s : report_store) : option EpochReport :=
  rp_reports s !! (epochID, reporter).
Definition put_report (r : EpochReport) : M report_store unit :=
  modify (λ s, ReportStore (<[(er_EpochId r, er_SupernodeAccount r) := r]> (rp_reports s))
                 (rp_index s) (rp_host s) (rp_challenge s)).
Definition SetReportIndex (epochID : Z) (reporter : string) : M report_store unit :=
  modify (λ s, ReportStore (rp_reports s) ({[(reporter, epochID)]} ∪ rp_index s) (rp_host s)
                 (rp_challenge s)).
Definition SetHostReportIndex (epochID : Z) (reporter : string) : M report_store unit :=
  modify (λ s, ReportStore (rp_reports s) (rp_index s) ({[(reporter, epochID)]} ∪ rp_host s)
                 (rp_challenge s)).
Definition SetStorageChallengeReportIndex (account : string) (epochID : Z) (reporter : string)
    : M report_store unit :=
  modify (λ s, ReportStore (rp_reports s) (rp_index s) (rp_host s)
                 ({[(account, epochID, reporter)]} ∪ rp_challenge s)).

(** ** Host metrics *)
Definition validateHostUsagePercent {S} (v : float64) : M S unit :=
  ensure (isValidHostUsagePercent v) ErrInvalidHostMetric.
Definition validateHostMetricFields {S} (h : HostReport) : M S unit :=
  _ ← validateHostUsagePercent (hr_CpuUsagePercent h);
  _ ← validateHostUsagePercent (hr_MemUsagePercent h);
  _ ← validateHostUsagePercent (hr_DiskUsagePercent h);
  _ ← ensure (negb (f64_isNaN (hr_CascadeKademliaDbBytes h)
                    || f64_isInf (hr_CascadeKademliaDbBytes h))) ErrInvalidHostMetric;
  ensure (negb (f64_ltb (hr_CascadeKademliaDbBytes h) f64_zero)) ErrInvalidHostMetric.

(** ** Storage proof results *)
Definition descriptor : Type :=
  string * StorageProofBucketType * string * StorageProofArtifactClass * Z.
Definition descriptor_of (r : StorageProofResult) : descriptor :=
  (pr_TargetSupernodeAccount r, pr_BucketType r, pr_TicketId r, pr_ArtifactClass r,
   pr_ArtifactOrdinal r).

Definition valid_bucket (b : StorageProofBucketType) : bool :=
  match b with BUCKET_RECENT | BUCKET_OLD | BUCKET_PROBATION | BUCKET_RECHECK => true
  | _ => false end.
Definition valid_class (c : StorageProofResultClass) : bool :=
  match c with
  | CLASS_PASS | CLASS_HASH_MISMATCH | CLASS_TIMEOUT_OR_NO_RESPONSE | CLASS_OBSERVER_QUORUM_FAIL
  | CLASS_NO_ELIGIBLE_TICKET | CLASS_INVALID_TRANSCRIPT | CLASS_RECHECK_CONFIRMED_FAIL => true
  | _ => false
  end.
Definition valid_artifact (c : StorageProofArtifactClass) : bool :=
  match c with ARTIFACT_INDEX | ARTIFACT_SYMBOL => true | _ => false end.

(** The body of the loop of [validateStorageProofResults], up to the duplicate check. *)
Definition valid_result {S} (reporter : string) (allowed : gset string) (r : StorageProofResult)
    : M S unit :=
  let bad := ErrInvalidStorageProofs in
  let bucket := pr_BucketType r in
  _ ← ensure (nonempty (pr_TargetSupernodeAccount r)) bad;
  _ ← ensure (nonempty (pr_ChallengerSupernodeAccount r)) bad;
  _ ← ensure (bool_decide (pr_ChallengerSupernodeAccount r = reporter)) bad;
  _ ← ensure (bool_decide (pr_TargetSupernodeAccount r ≠ reporter)) bad;
  _ ← ensure (bool_decide (pr_TargetSupernodeAccount r ∈ allowed)) bad;
  _ ← ensure (nonempty (pr_TranscriptHash r)) bad;
  _ ← ensure (valid_bucket bucket) bad;
  _ ← ensure (valid_class (pr_ResultClass r)) bad;
  _ ← (if decide (pr_ResultClass r = CLASS_NO_ELIGIBLE_TICKET) then
         _ ← ensure (bool_decide (bucket = BUCKET_RECENT) || bool_decide (bucket = BUCKET_OLD)) bad;
         _ ← ensure (negb (nonempty (pr_TicketId r))) bad;
         _ ← ensure (bool_decide (pr_ArtifactClass r = ARTIFACT_UNSPECIFIED)) bad;
         _ ← ensure (pr_ArtifactOrdinal r =? 0) bad;
         ensure (negb (nonempty (pr_ArtifactKey r))) bad
       else
         _ ← ensure (nonempty (pr_TicketId r)) bad;
         _ ← ensure (negb (pr_ArtifactCount r =? 0)) bad;
         _ ← ensure (pr_ArtifactOrdinal r <? pr_ArtifactCount r) bad;
         _ ← ensure (nonempty (pr_DerivationInputHash r)) bad;
         _ ← ensure (nonempty (pr_ChallengerSignature r)) bad;
         _ ← ensure (valid_artifact (pr_ArtifactClass r)) bad;
         ensure (nonempty (pr_ArtifactKey r)) bad);
  ensure (negb (bool_decide (pr_ResultClass r = CLASS_RECHECK_CONFIRMED_FAIL)
                && bool_decide (bucket ≠ BUCKET_RECHECK))) bad.

Fixpoint valid_results {S} (reporter : string) (allowed : gset string) (seen : list descriptor)
    (results : list (option StorageProofResult)) : M S unit :=
  match results with
  | [] => mret tt
  | None :: _ => fail ErrInvalidStorageProofs
  | Some r :: results' =>
      _ ← valid_result reporter allowed r;
      _ ← ensure (bool_decide (descriptor_of r ∉ seen)) ErrInvalidStorageProofs;
      valid_results reporter allowed (descriptor_of r :: seen) results'
  end.

(** The targets covered in the two buckets; a second result of one bucket fails. *)
Fixpoint coverage_loop {S} (allowed recent old : gset string)
    (results : list (option StorageProofResult)) : M S (gset string * gset string) :=
  match results with
  | [] => mret (recent, old)
  | None :: results' => coverage_loop allowed recent old results'
  | Some r :: results' =>
      let target := pr_TargetSupernodeAccount r in
      if negb (bool_decide (target ∈ allowed)) then coverage_loop allowed recent old results' else
      match pr_BucketType r with
      | BUCKET_RECENT =>
          _ ← ensure (bool_decide (target ∉ recent)) ErrInvalidStorageProofs;
          coverage_loop allowed ({[target]} ∪ recent) old results'
      | BUCKET_OLD =>
          _ ← ensure (bool_decide (target ∉ old)) ErrInvalidStorageProofs;
          coverage_loop allowed recent ({[target]} ∪ old) results'
      | _ => coverage_loop allowed recent old results'
      end
  end.
Definition validateCompoundStorageProofCoverage {S} (allowed : gset string)
    (results : list (option StorageProofResult)) : M S unit :=
  covered ← coverage_loop allowed ∅ ∅ results;
  ensure (bool_decide (allowed ⊆ covered.1) && bool_decide (allowed ⊆ covered.2))
    ErrInvalidStorageProofs.

Definition validateStorageProofResults {S} (reporter : string) (allowed : gset string)
    (isProber enforceCompoundCoverage : bool) (results : list (option StorageProofResult))
    : M S unit :=
  match results with
  | [] => ensure (negb (enforceCompoundCoverage && isProber && negb (bool_decide (allowed = ∅))))
            ErrInvalidStorageProofs
  | _ =>
      _ ← ensure isProber ErrInvalidReporterState;
      _ ← valid_results reporter allowed [] results;
      if enforceCompoundCoverage then validateCompoundStorageProofCoverage allowed results
      else mret tt
  end.

(** ** Canonical artifact counts *)
Definition storageTruthNoEligibleConsistencyWindow (bucket : StorageProofBucketType)
    (params : AuditParams) : Z :=
  match bucket with
  | BUCKET_RECENT =>
      let len := EpochLengthBlocks params in
      let span := StorageTruthRecentBucketMaxBlocks params in
      if (len =? 0) || (span =? 0) then 3 else
      let window := span / len in
      let window := if negb (span mod len =? 0) then u64 (window + 1) else window in
      if window =? 0 then 1 else window
  | BUCKET_OLD => or_default (StorageTruthOldClassAFaultWindow params) 21
  | _ => or_default (StorageTruthPatternEscalationWindow params) 14
  end.

Definition validateNoEligibleTicketConsistency (epochID : Z) (params : AuditParams)
    (r : StorageProofResult) : M audit_store unit :=
  if negb (bool_decide (pr_ResultClass r = CLASS_NO_ELIGIBLE_TICKET))
     || negb (nonempty (pr_TargetSupernodeAccount r)) then mret tt else
  let window := storageTruthNoEligibleConsistencyWindow (pr_BucketType r) params in
  seenEligible ← gets (λ s, hasObservedEligibleTicketForTargetBucketInWindow
    (pr_TargetSupernodeAccount r) (pr_BucketType r) (storageTruthWindowStart epochID window)
    epochID (au_facts s));
  ensure (negb seenEligible) ErrInvalidStorageProofs.

Definition EventTypeArtifactCountUnanchored : string := "storage_truth_artifact_count_unanchored".

Definition artifact_count (c : StorageProofArtifactClass) (st : TicketArtifactCountState) : Z :=
  match c with
  | ARTIFACT_INDEX => tc_IndexArtifactCount st
  | ARTIFACT_SYMBOL => tc_SymbolArtifactCount st
  | _ => 0
  end.

Definition validateStorageProofArtifactCounts (epochID : Z) (params : AuditParams)
    (results : list (option StorageProofResult)) : M audit_store unit :=
  for_each (λ result,
    match result with
    | None => mret tt
    | Some r =>
        if decide (pr_ResultClass r = CLASS_NO_ELIGIBLE_TICKET)
        then validateNoEligibleTicketConsistency epochID params r else
        found ← gets (λ s, sc_artifacts (au_scores s) !! pr_TicketId r);
        let canonicalCount := match found with
                              | Some st => artifact_count (pr_ArtifactClass r) st
                              | None => 0
                              end in
        if canonicalCount =? 0
        then emit (Event EventTypeArtifactCountUnanchored [("ticket_id"%string, pr_TicketId r)]) else
        _ ← ensure (canonicalCount =? pr_ArtifactCount r) ErrTicketArtifactMismatch;
        ensure (pr_ArtifactOrdinal r <? canonicalCount) ErrInvalidStorageProofs
    end) results.

Definition MaxStorageProofResultsPerReport : Z := 16.
Definition incompleteReportReason : string := "INCOMPLETE_REPORT".
Definition incompleteReportReporterReliabilityPenalty : Z := 8.

Definition applyIncompleteReportPenalty (epochID : Z) (reporter : string) (params : AuditParams)
    : M audit_store unit :=
  st ← on_scores (applyReporterReliabilityDelta epochID reporter
         incompleteReportReporterReliabilityPenalty
         (StorageTruthReporterReliabilityDecayPerEpoch params) 0 params);
  if negb st.2 then mret tt else
  emit (audit_event EventTypeStorageTruthScoreUpdated
    [epoch_attr epochID; ("reporter_supernode_account"%string, reporter);
     ("reporter_reliability_score"%string, FormatInt (rr_ReliabilityScore st.1));
     ("reporter_trust_band"%string, ReporterTrustBand_String (rr_TrustBand st.1));
     ("reason"%string, incompleteReportReason)]).

Section Report.
Context `{SdkAddress} `{LegacyDecOps}.

(** ** Writing a report *)
Definition with_validator (sn : SuperNode) (f : bytes → M sn_store unit) : M audit_store unit :=
  on_sn (at_validator sn f).
Definition markSupernodeStorageFull (ctx : Ctx) (sn : SuperNode) : M audit_store unit :=
  with_validator sn (MarkSuperNodeStorageFull ctx).

Definition SetReport (ctx : Ctx) (r : EpochReport) : M audit_store unit :=
  _ ← on_reports (put_report r);
  on_sn (report_transition ctx (er_SupernodeAccount r) (hr_DiskUsagePercent (er_HostReport r))).

(** *** The bridge into the supernode metrics *)
Definition zero_Metrics : SupernodeMetrics :=
  Build_SupernodeMetrics 0 0 0 f64_zero f64_zero f64_zero f64_zero f64_zero f64_zero f64_zero
    f64_zero f64_zero 0 [] f64_zero.
Definition with_cascade (m : SupernodeMetrics) (v : float64) : SupernodeMetrics :=
  Build_SupernodeMetrics (VersionMajor m) (VersionMinor m) (VersionPatch m) (CpuCoresTotal m)
    (CpuUsagePercent m) (MemTotalGb m) (MemUsagePercent m) (MemFreeGb m) (DiskTotalGb m)
    (DiskUsagePercent m) (DiskFreeGb m) (UptimeSeconds m) (PeersCount m) (OpenPorts m) v.

(** The text of the address error is left out of the event. *)
Definition bridgeCascadeBytesToSupernodeMetrics (ctx : Ctx) (sn : SuperNode)
    (cascadeBytes : float64) : M audit_store unit :=
  if decide (ValidatorAddress sn = ""%string)
  then emit (audit_event "audit_cascade_bytes_bridge_skipped"
         [("supernode_account", SupernodeAccount sn); ("reason", "empty_validator_address")]%string)
  else match ValAddressFromBech32 (ValidatorAddress sn) with
  | None => emit (audit_event "audit_cascade_bytes_bridge_skipped"
         [("supernode_account", SupernodeAccount sn); ("validator_address", ValidatorAddress sn);
          ("reason", "invalid_validator_address")]%string)
  | Some valAddr =>
      found ← gets (λ s, sn_metrics (au_sn s) !! valAddr);
      let state := match found with
                   | Some st => st
                   | None => Build_SupernodeMetricsState (ValidatorAddress sn) None 0 0
                   end in
      on_sn (SetMetricsState
        (Build_SupernodeMetricsState (ms_ValidatorAddress state)
           (Some (with_cascade (default zero_Metrics (ms_Metrics state)) cascadeBytes))
           (u64 (ms_ReportCount state + 1)) (BlockHeight ctx)))
  end.

(** ** SubmitEpochReport *)
Fixpoint valid_observations {S} (reporter : string) (allowed : gset string) (requiredPortsLen : Z)
    (seen : gset string) (obs : list (option StorageChallengeObservation)) : M S (gset string) :=
  match obs with
  | [] => mret seen
  | None :: _ => fail ErrInvalidPeerObservations
  | Some o :: obs' =>
      let target := ob_TargetSupernodeAccount o in
      _ ← ensure (nonempty target) ErrInvalidPeerObservations;
      _ ← ensure (bool_decide (target ≠ reporter)) ErrInvalidPeerObservations;
      _ ← ensure (bool_decide (target ∈ allowed)) ErrInvalidPeerObservations;
      _ ← ensure (bool_decide (target ∉ seen)) ErrInvalidPeerObservations;
      _ ← ensure (negb (negb (requiredPortsLen =? 0)
                        && negb (zlen (ob_PortStates o) =? requiredPortsLen)))
            ErrInvalidPortStatesLength;
      valid_observations reporter allowed requiredPortsLen ({[target]} ∪ seen) obs'
  end.

(** The targets to index, each once. *)
Fixpoint index_observations (epochID : Z) (reporter : string) (seen : gset string)
    (obs : list (option StorageChallengeObservation)) : M report_store unit :=
  match obs with
  | [] => mret tt
  | None :: obs' => index_observations epochID reporter seen obs'
  | Some o :: obs' =>
      let target := ob_TargetSupernodeAccount o in
      if bool_decide (target = ""%string) || bool_decide (target ∈ seen)
      then index_observations epochID reporter seen obs' else
      _ ← SetStorageChallengeReportIndex target epochID reporter;
      index_observations epochID reporter ({[target]} ∪ seen) obs'
  end.

Definition SubmitEpochReport (map_order : list string → list string) (ctx : Ctx)
    (req : MsgSubmitEpochReport) : M audit_store unit :=
  let reporter := rq_Creator req in
  let epochID := rq_EpochId req in
  let host := rq_HostReport req in
  let observations := rq_StorageChallengeObservations req in
  let results := rq_StorageProofResults req in
  _ ← ensure (nonempty reporter) ErrInvalidSigner;
  params ← gets (λ s, AuditParams_WithDefaults (AuditGetParams (au_epochs s)));
  epoch ← of_result (deriveEpochAtHeight (BlockHeight ctx) params);
  _ ← ensure (epochID =? EpochID epoch) ErrInvalidEpochID;
  _ ← ensure (negb ((BlockHeight ctx <? StartHeight epoch) || (EndHeight epoch <? BlockHeight ctx)))
        ErrInvalidEpochID;
  found ← gets (λ s, GetSuperNodeByAccount reporter (au_sn s));
  sn ← of_option ErrReporterNotFound found;
  _ ← validateHostMetricFields host;
  foundAnchor ← gets (λ s, GetEpochAnchor epochID (au_epochs s));
  anchor ← of_option ErrInvalidEpochID foundAnchor;
  snap ← gets (λ s, GetEpochParamsSnapshot epochID (au_epochs s));
  let assignParams := match snap with Some p => AuditParams_WithDefaults p | None => params end in
  eligibleChallengers ← gets (λ s, storageTruthEligibleChallengers
    (ea_ActiveSupernodeAccounts anchor) epochID assignParams (au_scores s));
  assigned ← of_result (computeAuditPeerTargetsForReporter map_order assignParams
    eligibleChallengers (ea_TargetSupernodeAccounts anchor) (ea_Seed anchor) reporter);
  let allowed : gset string := list_to_set assigned.1 in
  let isProber : bool := assigned.2 in
  let requiredPortsLen := zlen (au_RequiredOpenPorts assignParams) in
  let inbound := zlen (hr_InboundPortStates host) in
  _ ← ensure (negb (requiredPortsLen <? inbound)) ErrInvalidPortStatesLength;
  _ ← ensure (negb (negb (inbound =? 0) && negb (inbound =? requiredPortsLen)))
        ErrInvalidPortStatesLength;
  incompleteReport ←
    (if negb isProber then
       _ ← ensure (bool_decide (observations = [])) ErrInvalidReporterState; mret false
     else
       seen ← valid_observations reporter allowed requiredPortsLen ∅ observations;
       mret (size seen <? size allowed)%nat);
  _ ← ensure (zlen results <=? MaxStorageProofResultsPerReport) ErrInvalidStorageProofs;
  _ ← validateStorageProofResults reporter allowed isProber
        (bool_decide (StorageTruthEnforcementMode assignParams
                      = STORAGE_TRUTH_ENFORCEMENT_MODE_FULL)) results;
  _ ← validateStorageProofArtifactCounts epochID assignParams results;
  dup ← gets (λ s, HasReport epochID reporter (au_reports s));
  _ ← ensure (negb dup) ErrDuplicateReport;
  _ ← SetReport ctx (mkEpochReport reporter epochID (BlockHeight ctx) host observations results);
  _ ← on_reports (SetReportIndex epochID reporter);
  _ ← on_reports (SetHostReportIndex epochID reporter);
  _ ← bridgeCascadeBytesToSupernodeMetrics ctx sn (hr_CascadeKademliaDbBytes host);
  _ ← on_reports (index_observations epochID reporter ∅ observations);
  _ ← on_facts (indexStorageProofTranscripts epochID reporter results);
  _ ← applyStorageTruthScores epochID reporter results;
  if (incompleteReport : bool) then applyIncompleteReportPenalty epochID reporter assignParams
  else mret tt.
End Report.
