(* ===== verification/AuditEvidence.v ===== *)
(** * x/audit/v1/keeper: evidence

    evidence.go, evidence_state.go, evidence_epoch_count.go,
    storage_challenge_deterministic.go and msg_submit_evidence.go.  The JSON and
    protobuf codecs of the metadata are not in the repository; [EvidenceCodec] is
    their interface. *)
From Stdlib Require Import ZArith Lia Ascii.
From stdpp Require Import base numbers strings list gmap sorting.
From S2P Require Import Prelude Sdk SupernodeTypes Supernode SupernodeRank Bank ActionStore.
From S2P Require Import AuditParam AuditTypes Epoch AuditFacts HealMsg.
Open Scope Z_scope.

(** The fields of StorageChallengeFailureEvidenceMetadata that the keeper reads. *)
Record StorageChallengeFailureEvidenceMetadata := mkChallengeFailure {
  cf_EpochId : Z;
  cf_ChallengerSupernodeAccount : string;
  cf_ChallengedSupernodeAccount : string
}.

(** The protobuf messages of the metadata.  jsonpb.Unmarshal into such a message
    followed by gogoproto.Marshal, and gogoproto.Unmarshal, are the protobuf library. *)
Inductive evidence_message : Set :=
| ActionExpiredEvidenceMetadata | ActionFinalizationSignatureFailureEvidenceMetadata
| ActionFinalizationNotInTop10EvidenceMetadata | StorageChallengeFailureMetadata
| CascadeClientFailureEvidenceMetadata.
Class EvidenceCodec := {
  json_to_proto : evidence_message → string → option bytes;
  unmarshalChallengeFailure : bytes → option StorageChallengeFailureEvidenceMetadata
}.

Definition marshalEvidenceMetadataJSON `{EvidenceCodec} (ty : EvidenceType) (json : string)
    : option bytes :=
  match ty with
  | EVIDENCE_TYPE_ACTION_EXPIRED => json_to_proto ActionExpiredEvidenceMetadata json
  | EVIDENCE_TYPE_ACTION_FINALIZATION_SIGNATURE_FAILURE =>
      json_to_proto ActionFinalizationSignatureFailureEvidenceMetadata json
  | EVIDENCE_TYPE_ACTION_FINALIZATION_NOT_IN_TOP_10 =>
      json_to_proto ActionFinalizationNotInTop10EvidenceMetadata json
  | EVIDENCE_TYPE_STORAGE_CHALLENGE_FAILURE => json_to_proto StorageChallengeFailureMetadata json
  | EVIDENCE_TYPE_CASCADE_CLIENT_FAILURE => json_to_proto CascadeClientFailureEvidenceMetadata json
  | _ => None
  end.

(** ** evidence_state.go *)
Definition upd_evidence_next (id : Z) (s : evidence_store) : evidence_store :=
  EvidenceStore (Some id) (ev_records s) (ev_by_subject s) (ev_by_action s) (ev_counts s).
Definition max_evidence_id (s : evidence_store) : Z :=
  foldr (λ kv acc, if acc <? kv.1 then kv.1 else acc) 0 (map_to_list (ev_records s)).
Definition deriveNextEvidenceID (s : evidence_store) : Z := u64 (max_evidence_id s + 1).
Definition GetNextEvidenceID (s : evidence_store) : Z :=
  match ev_next s with
  | None => deriveNextEvidenceID s
  | Some id => if id =? 0 then deriveNextEvidenceID s else id
  end.
Definition SetNextEvidenceID (id : Z) : M evidence_store unit := modify (upd_evidence_next id).
Definition SetEvidence (ev : AuditEvidence) : M evidence_store unit :=
  modify (λ s, EvidenceStore (ev_next s) (<[av_EvidenceId ev := ev]> (ev_records s))
                 (ev_by_subject s) (ev_by_action s) (ev_counts s)).
Definition SetEvidenceBySubjectIndex (subject : string) (id : Z) : M evidence_store unit :=
  modify (λ s, EvidenceStore (ev_next s) (ev_records s) ({[(subject, id)]} ∪ ev_by_subject s)
                 (ev_by_action s) (ev_counts s)).
Definition SetEvidenceByActionIndex (action : string) (id : Z) : M evidence_store unit :=
  modify (λ s, EvidenceStore (ev_next s) (ev_records s) (ev_by_subject s)
                 ({[(action, id)]} ∪ ev_by_action s) (ev_counts s)).

(** ** evidence_epoch_count.go *)
Definition getEvidenceEpochCount (epochID : Z) (subject : string) (ty : EvidenceType)
    (s : evidence_store) : Z := default 0 (ev_counts s !! (epochID, subject, ty)).
Definition incrementEvidenceEpochCount (epochID : Z) (subject : string) (ty : EvidenceType)
    : M evidence_store unit :=
  modify (λ s, EvidenceStore (ev_next s) (ev_records s) (ev_by_subject s) (ev_by_action s)
    (<[(epochID, subject, ty) := u64 (getEvidenceEpochCount epochID subject ty s + 1)]>
       (ev_counts s))).

(** ** storage_challenge_deterministic.go *)
Definition hex_digit (n : Z) : ascii :=
  ascii_of_nat (Z.to_nat (if n <? 10 then 48 + n else 87 + n)).
(** hex.EncodeToString *)
Fixpoint hex_EncodeToString (b : bytes) : string :=
  match b with
  | [] => EmptyString
  | x :: b' => String (hex_digit (x / 16)) (String (hex_digit (x mod 16)) (hex_EncodeToString b'))
  end.

Definition storageChallengeComparisonTarget (seed : bytes) (epochID : Z) : string :=
  ("sc:challengers:" +:+ hex_EncodeToString seed +:+ ":" +:+ FormatInt epochID)%string.

Definition storageChallengeChallengerCount (nActive requested : Z) : Z :=
  if nActive <=? 0 then 0 else
  if requested =? 0 then Z.max 1 (Z.quot (nActive + 2) 3) else
  if nActive <? requested then nActive else requested.

Section Challenge.
Context `{Blake3}.

Definition ensureHashedTargetBytes (target : bytes) : bytes :=
  if zlen target =? 32 then target else blake3_Sum256 target.

Definition xor_less (a b : bytes * string) : bool :=
  if negb (bool_decide (a.1 = b.1)) then bytes_leb a.1 b.1
  else bool_decide (string_le a.2 b.2) && bool_decide (a.2 ≠ b.2).

Definition selectTopByXORDistance (ids : list string) (target : string) (k : Z) : list string :=
  if k <=? 0 then [] else
  let targetHash := ensureHashedTargetBytes (string_bytes target) in
  let candidates := (λ id, (xor_bytes (blake3_Sum256 (string_bytes id)) targetHash, id)) <$> ids in
  take (Z.to_nat k) (sort_stable xor_less candidates).*2.
End Challenge.

(** ** evidence.go *)
Definition maxEvidenceActionIDBytes : Z := 4 * 1024.
Definition action_evidence (ty : EvidenceType) : bool :=
  match ty with
  | EVIDENCE_TYPE_ACTION_EXPIRED | EVIDENCE_TYPE_ACTION_FINALIZATION_SIGNATURE_FAILURE
  | EVIDENCE_TYPE_ACTION_FINALIZATION_NOT_IN_TOP_10 => true
  | _ => false
  end.

Section Evidence.
Context `{SdkAddress} `{LegacyDecOps} `{Blake3} `{EvidenceCodec}.
(** The address of the action module account. *)
Variable actionModuleAddress : string.

(** The checks of evidence on a failed storage challenge. *)
Definition check_challenge_failure (reporter subject : string) (metadata : bytes)
    : M audit_store unit :=
  params ← gets (λ s, AuditParams_WithDefaults (AuditGetParams (au_epochs s)));
  m ← of_option ErrInvalidEvidenceMetadata (unmarshalChallengeFailure metadata);
  _ ← ensure (nonempty (strings_TrimSpace (cf_ChallengerSupernodeAccount m)))
        ErrInvalidEvidenceMetadata;
  _ ← ensure (bool_decide (reporter = cf_ChallengerSupernodeAccount m)) ErrInvalidReporter;
  _ ← ensure (nonempty (strings_TrimSpace (cf_ChallengedSupernodeAccount m)))
        ErrInvalidEvidenceMetadata;
  _ ← ensure (bool_decide (subject = cf_ChallengedSupernodeAccount m)) ErrInvalidSubject;
  found ← gets (λ s, GetEpochAnchor (cf_EpochId m) (au_epochs s));
  anchor ← of_option ErrInvalidEvidenceMetadata found;
  _ ← ensure (ScEnabled params) ErrInvalidEvidenceType;
  let kc := storageChallengeChallengerCount (zlen (ea_ActiveSupernodeAccounts anchor))
              (ScChallengersPerEpoch params) in
  let target := storageChallengeComparisonTarget (ea_Seed anchor) (cf_EpochId m) in
  let challengers := selectTopByXORDistance (ea_ActiveSupernodeAccounts anchor) target kc in
  _ ← ensure (containsString challengers reporter) ErrInvalidReporter;
  ensure (containsString (ea_TargetSupernodeAccounts anchor) subject) ErrInvalidSubject.

Definition AuditCreateEvidence (ctx : Ctx) (reporter subject actionID : string)
    (ty : EvidenceType) (metadataJSON : string) : M audit_store Z :=
  _ ← of_option ErrInvalidReporter (AccAddressFromBech32 reporter);
  _ ← of_option ErrInvalidSubject (AccAddressFromBech32 subject);
  _ ← ensure (bool_decide (ty ≠ EVIDENCE_TYPE_UNSPECIFIED)) ErrInvalidEvidenceType;
  _ ← ensure (negb (action_evidence ty && bool_decide (reporter ≠ actionModuleAddress)))
        ErrInvalidReporter;
  let metadataJSON := strings_TrimSpace metadataJSON in
  _ ← ensure (nonempty metadataJSON) ErrInvalidEvidenceMetadata;
  _ ← ensure (negb (bool_decide (actionID = ""%string) && action_evidence ty)) ErrInvalidActionID;
  _ ← ensure (Z.of_nat (String.length actionID) <=? maxEvidenceActionIDBytes) ErrInvalidActionID;
  metadata ← of_option ErrInvalidEvidenceMetadata (marshalEvidenceMetadataJSON ty metadataJSON);
  _ ← (if action_evidence ty then
         params ← gets (λ s, AuditParams_WithDefaults (AuditGetParams (au_epochs s)));
         epoch ← of_result (deriveEpochAtHeight (BlockHeight ctx) params);
         on_evidence (incrementEvidenceEpochCount (EpochID epoch) subject ty)
       else mret tt);
  _ ← (if decide (ty = EVIDENCE_TYPE_STORAGE_CHALLENGE_FAILURE)
       then check_challenge_failure reporter subject metadata else mret tt);
  evidenceID ← gets (λ s, GetNextEvidenceID (au_evidence s));
  _ ← on_evidence (SetNextEvidenceID (u64 (evidenceID + 1)));
  _ ← on_evidence (SetEvidence (mkAuditEvidence evidenceID subject reporter actionID ty metadata
                                  (u64 (BlockHeight ctx))));
  _ ← on_evidence (SetEvidenceBySubjectIndex subject evidenceID);
  _ ← (if decide (actionID = ""%string) then mret tt
       else on_evidence (SetEvidenceByActionIndex actionID evidenceID));
  mret evidenceID.

(** ** msg_submit_evidence.go *)
Record MsgSubmitEvidence := {
  se_Creator : string;
  se_SubjectAddress : string;
  se_EvidenceType : EvidenceType;
  se_ActionId : string;
  se_Metadata : string
}.
Definition SubmitEvidence (ctx : Ctx) (msg : MsgSubmitEvidence) : M audit_store Z :=
  _ ← ensure (negb (action_evidence (se_EvidenceType msg)
                    || bool_decide (se_EvidenceType msg = EVIDENCE_TYPE_CASCADE_CLIENT_FAILURE)))
        ErrInvalidEvidenceType;
  AuditCreateEvidence ctx (se_Creator msg) (se_SubjectAddress msg) (se_ActionId msg)
    (se_EvidenceType msg) (se_Metadata msg).
End Evidence.

(** ** The keeper that the action module calls

    [metadata_json] is the text the action module builds from the addresses. *)
Section ActionSide.
Context `{SdkAddress} `{LegacyDecOps} `{Blake3} `{EvidenceCodec}.
Definition audit_keeper (actionModuleAddress : string) (metadata_json : list string → string)
    : AuditKeeper :=
  Build_AuditKeeper _ audit_store
    (λ ctx reporter subject actionID ty addrs s,
       let '(r, t) := AuditCreateEvidence actionModuleAddress ctx reporter subject actionID ty
                        (metadata_json addrs) (St s []) in (r, store t))
    (λ ctx ticketID indexCount symbolCount s,
       let '(r, t) := on_scores (AuditSetTicketArtifactCounts ticketID indexCount symbolCount)
                        (St s []) in (r, store t)).
End ActionSide.
