(* ===== verification/Enforcement.v ===== *)
(** * x/audit/v1/keeper/enforcement.go: the end of an epoch

    Which supernodes the audit module postpones and which it lets back, from the
    scores, the fact indexes, the reports and the evidence of the epoch. *)
From Stdlib Require Import ZArith Lia.
From stdpp Require Import base numbers strings list gmap sorting.
From S2P Require Import Prelude Sdk Float SupernodeTypes Supernode RegistryClients ActionStore AuditParam AuditTypes.
From S2P Require Import Epoch Scoring AuditFacts ScoreKeeper HealOps HealMsg AuditReport.
From S2P Require Import AuditEvidence.
Open Scope Z_scope.

Definition postponeReasonActionFinalizationSignatureFailure : string :=
  "audit_action_finalization_signature_failure".
Definition postponeReasonActionFinalizationNotInTop10 : string :=
  "audit_action_finalization_not_in_top_10".
Definition postponeReasonStorageTruth : string := "audit_storage_truth_suspicion".
Definition postponeReasonStorageTruthStrong : string := "audit_storage_truth_strong_suspicion".

(** ** action_finalization_postponement_state.go *)
Definition getActionFinalizationPostponedAtEpochID (account : string) (s : postpone_store)
    : option Z := pp_action s !! account.
Definition setActionFinalizationPostponedAtEpochID (account : string) (epochID : Z)
    : M postpone_store unit :=
  modify (λ s, PostponeStore (<[account := epochID]> (pp_action s)) (pp_storage s) (pp_strong s)).
Definition clearActionFinalizationPostponedAtEpochID (account : string) : M postpone_store unit :=
  modify (λ s, PostponeStore (delete account (pp_action s)) (pp_storage s) (pp_strong s)).

(** ** Evidence *)
(** The epochs [epochID], [epochID - 1], ... that a rule over consecutive epochs reads. *)
Definition last_epochs (epochID consecutive : Z) : list Z :=
  (λ i, u64 (epochID - Z.of_nat i)) <$> seq 0 (Z.to_nat consecutive).

Definition evidenceMeetsConsecutiveEpochsThreshold (account : string) (epochID : Z)
    (ty : EvidenceType) (minEvidencesPerEpoch consecutiveEpochs : Z) (s : evidence_store) : bool :=
  if (minEvidencesPerEpoch =? 0) || (consecutiveEpochs =? 0) then false else
  if u32 (epochID + 1) <? consecutiveEpochs then false else
  forallb (λ e, minEvidencesPerEpoch <=? getEvidenceEpochCount e account ty s)
    (last_epochs epochID consecutiveEpochs).

Definition shouldPostponeForActionFinalizationEvidence (account : string) (epochID : Z)
    (params : AuditParams) (s : evidence_store) : option string :=
  if evidenceMeetsConsecutiveEpochsThreshold account epochID
       EVIDENCE_TYPE_ACTION_FINALIZATION_SIGNATURE_FAILURE
       (ActionFinalizationSignatureFailureEvidencesPerEpoch params)
       (ActionFinalizationSignatureFailureConsecutiveEpochs params) s
  then Some postponeReasonActionFinalizationSignatureFailure else
  if evidenceMeetsConsecutiveEpochsThreshold account epochID
       EVIDENCE_TYPE_ACTION_FINALIZATION_NOT_IN_TOP_10
       (ActionFinalizationNotInTop10EvidencesPerEpoch params)
       (ActionFinalizationNotInTop10ConsecutiveEpochs params) s
  then Some postponeReasonActionFinalizationNotInTop10 else None.

Definition shouldRecoverFromActionFinalizationPostponement (account : string)
    (epochID postponedAtEpochID : Z) (params : AuditParams) (s : evidence_store) : bool :=
  let recoveryEpochs := or_default (ActionFinalizationRecoveryEpochs params) 1 in
  if epochID <? u64 (postponedAtEpochID + recoveryEpochs) then false else
  let startEpochID := if recoveryEpochs <? u64 (epochID + 1)
                      then u64 (u64 (epochID + 1) - recoveryEpochs) else 0 in
  let count e ty := getEvidenceEpochCount e account ty s in
  let totalBad := foldl (λ acc e,
    u64 (u64 (acc + count e EVIDENCE_TYPE_ACTION_FINALIZATION_SIGNATURE_FAILURE)
         + count e EVIDENCE_TYPE_ACTION_FINALIZATION_NOT_IN_TOP_10)) 0
    (seqZ startEpochID (epochID - startEpochID + 1)) in
  totalBad <? or_default (ActionFinalizationRecoveryMaxTotalBadEvidences params) 1.

(** ** Reports *)
Definition violatesMinFree (usagePercent : float64) (minFreePercent : Z) : bool :=
  if minFreePercent =? 0 then false else
  if f64_eqb usagePercent f64_zero then false else
  if f64_ltb usagePercent f64_zero || f64_ltb (f64_of_Z 100) usagePercent then true else
  f64_ltb (f64_sub (f64_of_Z 100) usagePercent) (f64_of_Z minFreePercent).
Definition compliesMinFree (usagePercent : float64) (minFreePercent : Z) : bool :=
  if minFreePercent =? 0 then true else
  if f64_eqb usagePercent f64_zero then true else
  if f64_ltb usagePercent f64_zero || f64_ltb (f64_of_Z 100) usagePercent then false else
  f64_leb (f64_of_Z minFreePercent) (f64_sub (f64_of_Z 100) usagePercent).

Definition selfHostViolatesMinimums (account : string) (epochID : Z) (params : AuditParams)
    (s : report_store) : bool :=
  match GetReport epochID account s with
  | None => false
  | Some r =>
      violatesMinFree (hr_CpuUsagePercent (er_HostReport r)) (MinCpuFreePercent params)
      || violatesMinFree (hr_MemUsagePercent (er_HostReport r)) (MinMemFreePercent params)
  end.
Definition selfHostCompliant (account : string) (epochID : Z) (params : AuditParams)
    (s : report_store) : bool :=
  match GetReport epochID account s with
  | None => false
  | Some r =>
      compliesMinFree (hr_CpuUsagePercent (er_HostReport r)) (MinCpuFreePercent params)
      && compliesMinFree (hr_MemUsagePercent (er_HostReport r)) (MinMemFreePercent params)
  end.

Definition missingReportsForConsecutiveEpochs (account : string) (epochID consecutive : Z)
    (s : report_store) : bool :=
  let consecutive := or_default consecutive 1 in
  if u32 (epochID + 1) <? consecutive then false else
  forallb (λ e, negb (HasReport e account s)) (last_epochs epochID consecutive).

Definition peerReportersForTargetEpoch (target : string) (epochID : Z) (s : report_store)
    : result (list string) :=
  let reporters := merge_sort string_le ((λ k : string * Z * string, k.2) <$>
    filter (λ k, k.1 = (target, epochID)) (elements (rp_challenge s))) in
  if decide (""%string ∈ reporters) then Err (ErrOther "empty reporter in supernode report index")
  else Ok reporters.

(** The first observation of the target in a report. *)
Definition observation_of (target : string) (r : EpochReport)
    : option StorageChallengeObservation :=
  head (List.filter (λ o, bool_decide (ob_TargetSupernodeAccount o = target))
          (omap id (er_StorageChallengeObservations r))).

Definition peer_port (target : string) (epochID : Z) (portIndex : nat) (s : report_store)
    (reporter : string) : option AuditPortState :=
  match GetReport epochID reporter s with
  | None => None
  | Some r => match observation_of target r with
              | None => None
              | Some o => ob_PortStates o !! portIndex
              end
  end.

(** A peer without the observation makes the answer false. *)
Definition peersPortStateMeetsThresholdWithPeers (target : string) (epochID : Z) (portIndex : nat)
    (desired : AuditPortState) (thresholdPercent : Z) (peers : list string) (s : report_store)
    : bool :=
  match peers with
  | [] => false
  | _ =>
      match mapM (peer_port target epochID portIndex s) peers with
      | None => false
      | Some states =>
          let matches := zlen (filter (λ p, p = desired) states) in
          u64 (thresholdPercent * zlen peers) <=? u64 (matches * 100)
      end
  end.
Definition peersPortStateMeetsThreshold (target : string) (epochID : Z) (portIndex : nat)
    (desired : AuditPortState) (thresholdPercent : Z) (s : report_store) : result bool :=
  match peerReportersForTargetEpoch target epochID s with
  | Err e => Err e
  | Ok peers => Ok (peersPortStateMeetsThresholdWithPeers target epochID portIndex desired
                      thresholdPercent peers s)
  end.

(** The port is closed in every one of the epochs. *)
Fixpoint closed_streak (account : string) (portIndex : nat) (threshold : Z) (epochs : list Z)
    (s : report_store) : result bool :=
  match epochs with
  | [] => Ok true
  | e :: epochs' =>
      match peersPortStateMeetsThreshold account e portIndex AUDIT_PORT_CLOSED threshold s with
      | Err err => Err err
      | Ok false => Ok false
      | Ok true => closed_streak account portIndex threshold epochs' s
      end
  end.
Fixpoint any_closed_streak (account : string) (threshold : Z) (epochs : list Z) (ports : list nat)
    (s : report_store) : result bool :=
  match ports with
  | [] => Ok false
  | p :: ports' =>
      match closed_streak account p threshold epochs s with
      | Err err => Err err
      | Ok true => Ok true
      | Ok false => any_closed_streak account threshold epochs ports' s
      end
  end.

(** ** The decision to postpone *)
Definition shouldPostponeAtEpochEnd (account : string) (epochID : Z) (params : AuditParams)
    (s : audit_store) : result (option string) :=
  match shouldPostponeForActionFinalizationEvidence account epochID params (au_evidence s) with
  | Some reason => Ok (Some reason)
  | None =>
      let consecutive := or_default (ConsecutiveEpochsToPostpone params) 1 in
      if missingReportsForConsecutiveEpochs account epochID consecutive (au_reports s)
      then Ok (Some "audit_missing_reports"%string) else
      if selfHostViolatesMinimums account epochID params (au_reports s)
      then Ok (Some "audit_host_requirements"%string) else
      match au_RequiredOpenPorts params with
      | [] => Ok None
      | ports =>
          if u32 (epochID + 1) <? consecutive then Ok None else
          match any_closed_streak account (PeerPortPostponeThresholdPercent params)
                  (last_epochs epochID consecutive) (seq 0 (length ports)) (au_reports s) with
          | Err e => Err e
          | Ok true => Ok (Some "audit_peer_ports"%string)
          | Ok false => Ok None
          end
      end
  end.

(** ** Storage-truth bands *)
Inductive storageTruthBand : Set :=
| storageTruthBandNone | storageTruthBandWatch | storageTruthBandProbation
| storageTruthBandPostpone | storageTruthBandStrongPostpone.
#[export] Instance storageTruthBand_eq_dec : EqDecision storageTruthBand.
Proof. solve_decision. Defined.
Definition band_int (b : storageTruthBand) : Z :=
  match b with
  | storageTruthBandNone => 0 | storageTruthBandWatch => 1 | storageTruthBandProbation => 2
  | storageTruthBandPostpone => 3 | storageTruthBandStrongPostpone => 4
  end.

Definition reaches (threshold score : Z) : bool := (0 <? threshold) && (threshold <=? score).
Definition storageTruthBandForScore (score : Z) (params : AuditParams) : storageTruthBand :=
  if reaches (StorageTruthNodeSuspicionThresholdStrongPostpone params) score
  then storageTruthBandStrongPostpone else
  if reaches (StorageTruthNodeSuspicionThresholdPostpone params) score
  then storageTruthBandPostpone else
  if reaches (StorageTruthNodeSuspicionThresholdProbation params) score
  then storageTruthBandProbation else
  if reaches (StorageTruthNodeSuspicionThresholdWatch params) score
  then storageTruthBandWatch else storageTruthBandNone.

Definition storageTruthBandEventType (b : storageTruthBand) : string :=
  match b with
  | storageTruthBandStrongPostpone => "storage_truth_band_strong_postpone_candidate"
  | storageTruthBandPostpone => "storage_truth_band_postpone_candidate"
  | storageTruthBandProbation => "storage_truth_band_probation"
  | _ => "storage_truth_band_watch"
  end.
Definition EventTypeStorageTruthEnforced : string := "storage_truth_enforced".
Definition EventTypeStorageTruthRecovered : string := "storage_truth_recovered".
Definition EnforcementMode_String (m : EnforcementMode) : string :=
  match m with
  | STORAGE_TRUTH_ENFORCEMENT_MODE_UNSPECIFIED => "STORAGE_TRUTH_ENFORCEMENT_MODE_UNSPECIFIED"
  | STORAGE_TRUTH_ENFORCEMENT_MODE_SHADOW => "STORAGE_TRUTH_ENFORCEMENT_MODE_SHADOW"
  | STORAGE_TRUTH_ENFORCEMENT_MODE_SOFT => "STORAGE_TRUTH_ENFORCEMENT_MODE_SOFT"
  | STORAGE_TRUTH_ENFORCEMENT_MODE_FULL => "STORAGE_TRUTH_ENFORCEMENT_MODE_FULL"
  | STORAGE_TRUTH_ENFORCEMENT_MODE_UNKNOWN z => FormatInt z
  end.

Definition storageTruthIsClassAFault (r : storageTruthNodeFailureRecord) : bool :=
  is_class_a (nf_ResultClass r).
Definition storageTruthIsClassBFault (r : storageTruthNodeFailureRecord) : bool :=
  bool_decide (nf_ResultClass r = CLASS_TIMEOUT_OR_NO_RESPONSE).

Definition storageTruthPostponePredicatesMet (account : string) (band : storageTruthBand)
    (epochID : Z) (params : AuditParams) (sc : score_store) (fs : fact_store) : bool :=
  match sc_nodes sc !! account with
  | None => false
  | Some state =>
      let classAWindow := or_default (StorageTruthClassAFaultWindow params) 14 in
      let startA := storageTruthWindowStart epochID classAWindow in
      match band with
      | storageTruthBandPostpone =>
          let startB := storageTruthWindowStart epochID
                          (or_default (StorageTruthClassBFaultWindow params) 7) in
          let startOld := storageTruthWindowStart epochID
                            (or_default (StorageTruthOldClassAFaultWindow params) 21) in
          let recentClassA := hasNodeFailure account startA epochID (λ r,
            bool_decide (nf_BucketType r = BUCKET_RECENT) && storageTruthIsClassAFault r) fs in
          let secondFailureEvents :=
            (distinctNodeFailedTickets account startA epochID (λ _, true) fs).2 in
          let classAMet :=
            if secondFailureEvents =? 0
            then (1 <=? ns_ClassACountWindow state)
                 && (2 <=? u32 (ns_ClassACountWindow state + ns_ClassBCountWindow state))
            else recentClassA && (2 <=? secondFailureEvents) in
          let classBMet :=
            4 <=? (distinctNodeFailedTickets account startB epochID storageTruthIsClassBFault fs).2 in
          let oldClassAMet :=
            (2 <=? size (distinctNodeFailedTickets account startOld epochID (λ r,
               bool_decide (nf_BucketType r = BUCKET_OLD) && storageTruthIsClassAFault r) fs).1)%nat in
          classAMet || classBMet || oldClassAMet
      | storageTruthBandStrongPostpone =>
          let classATickets :=
            (distinctNodeFailedTickets account startA epochID storageTruthIsClassAFault fs).1 in
          let indexFailure := hasNodeFailure account startA epochID
            (λ r, bool_decide (nf_ArtifactClass r = ARTIFACT_INDEX)) fs in
          let classAMet := if (size classATickets =? 0)%nat then 2 <=? ns_ClassACountWindow state
                           else (2 <=? size classATickets)%nat in
          let indexMet := indexFailure
            || ((0 <? ns_LastIndexFailEpoch state)
                && (epochDelta epochID (ns_LastIndexFailEpoch state) <? classAWindow)) in
          classAMet || indexMet || hasStorageTruthFailedHeal account startA epochID fs
      | _ => true
      end
  end.

(** ** Recovery *)
Definition shouldRecoverFromStorageTruthPostponement (account : string) (epochID : Z)
    (params : AuditParams) (s : audit_store) : bool :=
  match sc_nodes (au_scores s) !! account with
  | None => true
  | Some state =>
      let score := decayTowardZero (ns_SuspicionScore state)
                     (StorageTruthNodeSuspicionDecayPerEpoch params)
                     (epochDelta epochID (ns_LastUpdatedEpoch state)) in
      let watch := StorageTruthNodeSuspicionThresholdWatch params in
      let watch := if watch <=? 0 then 1 else watch in
      if watch <=? score then false else
      let requiredPasses :=
        if hasStorageTruthStrongPostponeMarker account (au_postpone s)
        then or_default (StorageTruthStrongRecoveryCleanPassCount params) 5
        else or_default (StorageTruthRecoveryCleanPassCount params) 3 in
      let cleanPassDelta :=
        if ns_CleanPassCountAtPostpone state <=? ns_CleanPassCount state
        then ns_CleanPassCount state - ns_CleanPassCountAtPostpone state else 0 in
      if cleanPassDelta <? requiredPasses then false else
      negb (negb (ns_LastClassAEpoch state =? 0)
            && (ns_LastCleanPassEpoch state <=? ns_LastClassAEpoch state))
  end.

(** A peer of the epoch saw every required port open. *)
Definition peer_saw_all_open (account : string) (epochID : Z) (requiredPortsLen : nat)
    (s : report_store) (reporter : string) : bool :=
  match GetReport epochID reporter s with
  | None => false
  | Some r =>
      match observation_of account r with
      | None => false
      | Some o => (length (ob_PortStates o) =? requiredPortsLen)%nat
                  && forallb (λ p, bool_decide (p = AUDIT_PORT_OPEN)) (ob_PortStates o)
      end
  end.

Definition shouldRecoverAtEpochEnd (account : string) (epochID : Z) (params : AuditParams)
    (s : audit_store) : result bool :=
  match getStorageTruthPostponedAtEpochID account (au_postpone s) with
  | Some _ => Ok (shouldRecoverFromStorageTruthPostponement account epochID params s)
  | None =>
  match getActionFinalizationPostponedAtEpochID account (au_postpone s) with
  | Some at_ => Ok (shouldRecoverFromActionFinalizationPostponement account epochID at_ params
                      (au_evidence s))
  | None =>
      if negb (selfHostCompliant account epochID params (au_reports s)) then Ok false else
      if match GetEpochAnchor epochID (au_epochs s) with
         | Some anchor => bool_decide (ea_ActiveSupernodeAccounts anchor = [])
         | None => false
         end then Ok true else
      match au_RequiredOpenPorts params with
      | [] => Ok true
      | ports =>
          match peerReportersForTargetEpoch account epochID (au_reports s) with
          | Err e => Err e
          | Ok peers => Ok (existsb (peer_saw_all_open account epochID (length ports)
                                       (au_reports s)) peers)
          end
      end
  end end.

Section Enforce.
Context `{SdkAddress} `{LegacyDecOps}.

Definition setSupernodePostponed (ctx : Ctx) (sn : SuperNode) (reason : string)
    : M audit_store unit := with_validator sn (λ v, SetSuperNodePostponed ctx v reason).
Definition recoverSupernodeActive (ctx : Ctx) (sn : SuperNode) : M audit_store unit :=
  with_validator sn (RecoverSuperNodeFromPostponed ctx).

Definition recoverSupernodeFromPostponed (ctx : Ctx) (sn : SuperNode) (epochID : Z)
    : M audit_store unit :=
  report ← gets (λ s, GetReport epochID (SupernodeAccount sn) (au_reports s));
  match report with
  | None => recoverSupernodeActive ctx sn
  | Some r =>
      let disk := hr_DiskUsagePercent (er_HostReport r) in
      if f64_eqb disk f64_zero then recoverSupernodeActive ctx sn else
      if negb (isValidHostUsagePercent disk) then markSupernodeStorageFull ctx sn else
      maxStorage ← gets (λ s, f64_of_Z (MaxStorageUsagePercent (sn_params (au_sn s))));
      if f64_leb disk maxStorage then recoverSupernodeActive ctx sn
      else markSupernodeStorageFull ctx sn
  end.

Definition ns_postponed (st : NodeSuspicionState) : NodeSuspicionState :=
  mkNodeSuspicion (ns_SupernodeAccount st) (ns_SuspicionScore st) (ns_LastUpdatedEpoch st)
    (ns_LastRecentFailEpoch st) (ns_LastOldFailEpoch st) (ns_DistinctTicketFailWindow st)
    (ns_WindowStartEpoch st) (ns_ClassACountWindow st) (ns_LastClassAEpoch st)
    (ns_ClassBCountWindow st) (ns_LastClassBEpoch st) (ns_CleanPassCount st)
    (ns_LastCleanPassEpoch st) (ns_LastIndexFailEpoch st) (ns_CleanPassCount st).

Definition applyStorageTruthBandAtEpochEnd (ctx : Ctx) (sn : SuperNode) (epochID : Z)
    (params : AuditParams) : M audit_store unit :=
  let mode := StorageTruthEnforcementMode params in
  let account := SupernodeAccount sn in
  if decide (mode = STORAGE_TRUTH_ENFORCEMENT_MODE_UNSPECIFIED) then mret tt else
  found ← gets (λ s, sc_nodes (au_scores s) !! account);
  match found with
  | None => mret tt
  | Some state =>
      let score := decayTowardZero (ns_SuspicionScore state)
                     (StorageTruthNodeSuspicionDecayPerEpoch params)
                     (epochDelta epochID (ns_LastUpdatedEpoch state)) in
      if score <=? 0 then mret tt else
      let band := storageTruthBandForScore score params in
      if decide (band = storageTruthBandNone) then mret tt else
      _ ← emit (audit_event (storageTruthBandEventType band)
            [("target_supernode_account"%string, account); epoch_attr epochID;
             ("node_suspicion_score"%string, FormatInt score);
             ("storage_truth_band"%string, FormatInt (band_int band));
             ("enforcement_mode"%string, EnforcementMode_String mode)]);
      if decide (mode = STORAGE_TRUTH_ENFORCEMENT_MODE_SHADOW) then mret tt else
      if band_int band <? band_int storageTruthBandPostpone then mret tt else
      met ← gets (λ s, storageTruthPostponePredicatesMet account band epochID params
                         (au_scores s) (au_facts s));
      if negb met then mret tt else
      let strong := bool_decide (band = storageTruthBandStrongPostpone) in
      _ ← setSupernodePostponed ctx sn
            (if strong then postponeReasonStorageTruthStrong else postponeReasonStorageTruth);
      _ ← on_postpone (setStorageTruthPostponedAtEpochID account epochID);
      _ ← (if strong then on_postpone (setStorageTruthStrongPostponeMarker account) else mret tt);
      _ ← on_postpone (clearActionFinalizationPostponedAtEpochID account);
      _ ← on_scores (SetNodeSuspicionState (ns_postponed state));
      emit (audit_event EventTypeStorageTruthEnforced
        [("target_supernode_account"%string, account); epoch_attr epochID;
         ("node_suspicion_score"%string, FormatInt score);
         ("enforcement_mode"%string, EnforcementMode_String mode)])
  end.

(** The bodies of the two loops of [EnforceEpochEnd]. *)
Definition enforce_active (ctx : Ctx) (epochID : Z) (params : AuditParams) (sn : SuperNode)
    : M audit_store unit :=
  let account := SupernodeAccount sn in
  if decide (account = ""%string) then mret tt else
  _ ← applyStorageTruthBandAtEpochEnd ctx sn epochID params;
  already ← gets (λ s, getStorageTruthPostponedAtEpochID account (au_postpone s));
  match already with
  | Some _ => mret tt
  | None =>
      _ ← on_postpone (clearActionFinalizationPostponedAtEpochID account);
      decision ← gets (shouldPostponeAtEpochEnd account epochID params);
      postpone ← of_result decision;
      match postpone with
      | None => mret tt
      | Some reason =>
          _ ← setSupernodePostponed ctx sn reason;
          if bool_decide (reason = postponeReasonActionFinalizationSignatureFailure)
             || bool_decide (reason = postponeReasonActionFinalizationNotInTop10)
          then on_postpone (setActionFinalizationPostponedAtEpochID account epochID)
          else on_postpone (clearActionFinalizationPostponedAtEpochID account)
      end
  end.

Definition enforce_postponed (ctx : Ctx) (epochID : Z) (params : AuditParams) (sn : SuperNode)
    : M audit_store unit :=
  let account := SupernodeAccount sn in
  if decide (account = ""%string) then mret tt else
  storageTruthPostponed ← gets (λ s, getStorageTruthPostponedAtEpochID account (au_postpone s));
  decision ← gets (shouldRecoverAtEpochEnd account epochID params);
  shouldRecover ← of_result decision;
  if negb shouldRecover then mret tt else
  _ ← recoverSupernodeFromPostponed ctx sn epochID;
  _ ← on_postpone (clearActionFinalizationPostponedAtEpochID account);
  _ ← on_postpone (clearStorageTruthPostponedAtEpochID account);
  match storageTruthPostponed with
  | Some _ => emit (audit_event EventTypeStorageTruthRecovered
                [("target_supernode_account"%string, account); epoch_attr epochID])
  | None => mret tt
  end.

Definition EnforceEpochEnd (ctx : Ctx) (epochID : Z) (params : AuditParams) : M audit_store unit :=
  let params := AuditParams_WithDefaults params in
  active ← gets (λ s, GetAllSuperNodes [SuperNodeStateActive] (au_sn s));
  postponed ← gets (λ s, GetAllSuperNodes [SuperNodeStatePostponed] (au_sn s));
  _ ← for_each (enforce_active ctx epochID params) active;
  for_each (enforce_postponed ctx epochID params) postponed.
End Enforce.
