(* ===== verification/AuditEnd.v ===== *)
(** * x/audit/v1/keeper: divergence, pruning and the end-blocker

    storage_truth_divergence.go, prune.go and the end-blocker of abci.go. *)
From Stdlib Require Import ZArith Lia.
From stdpp Require Import base numbers strings list gmap sorting.
From S2P Require Import Prelude Sdk SupernodeTypes Supernode ActionStore AuditParam AuditTypes.
From S2P Require Import Epoch Scoring AuditFacts ScoreKeeper HealOps HealMsg AuditReport.
From S2P Require Import AuditEvidence Enforcement.
Open Scope Z_scope.

(** ** storage_truth_divergence.go *)
Record storageTruthDivergenceStats := Stats {
  total : Z;
  negative : Z;
  confirmedNegative : Z
}.

(** The results of a reporter in a window. *)
Definition reporter_results (reporter : string) (startEpoch endEpoch : Z) (s : fact_store)
    : list storageTruthReporterResultRecord :=
  (map_to_list (filter (λ kr, kr.1.1.1.1 = reporter ∧ in_epochs startEpoch endEpoch kr.1.1.1.2)
                  (fa_results s))).*2.

Definition storageTruthReporterDivergenceStats (reporter : string) (startEpoch endEpoch : Z)
    (s : fact_store) : storageTruthDivergenceStats :=
  let results := reporter_results reporter startEpoch endEpoch s in
  let negatives := List.filter (λ r, isStorageTruthFailureClass (rs_ResultClass r)) results in
  Stats (zlen results) (zlen negatives) (zlen (List.filter rs_ConfirmedByRecheck negatives)).

Definition reporterEntry : Type := string * storageTruthDivergenceStats.

(** negative/total of [a] is smaller than that of [b], by cross-multiplication. *)
Definition rate_less (a b : reporterEntry) : bool :=
  negative a.2 * total b.2 <? negative b.2 * total a.2.

Definition qualifyingReporters (epochID : Z) (params : AuditParams) (s : audit_store)
    : list reporterEntry :=
  let minReports := or_default (StorageTruthReporterMinReportsForDivergence params) 5 in
  let startEpoch := storageTruthWindowStart epochID (StorageTruthDivergenceWindowEpochs params) in
  List.filter (λ e : reporterEntry, negb (total e.2 <? minReports))
    ((λ st, (rr_ReporterSupernodeAccount st,
             storageTruthReporterDivergenceStats (rr_ReporterSupernodeAccount st) startEpoch
               epochID (au_facts s)))
       <$> GetAllReporterReliabilityStates (au_scores s)).

(** A rate above twice the median, mostly unconfirmed. *)
Definition diverges (medianNeg medianTotal : Z) (e : reporterEntry) : bool :=
  negb (total e.2 =? 0)
  && negb (negative e.2 * medianTotal <=? medianNeg * 2 * total e.2)
  && negb (negb (negative e.2 =? 0) && (negative e.2 <=? confirmedNegative e.2 * 2)).

Definition penalize_divergence (epochID : Z) (params : AuditParams) (medianNeg medianTotal : Z)
    (e : reporterEntry) : M audit_store unit :=
  if negb (diverges medianNeg medianTotal e) then mret tt else
  _ ← on_scores (applyReporterReliabilityDelta epochID e.1 8
        (StorageTruthReporterReliabilityDecayPerEpoch params) 0 params);
  emit (audit_event EventTypeStorageTruthScoreUpdated
    [epoch_attr epochID; ("reporter_supernode_account"%string, e.1);
     ("divergence_penalty"%string, "8"%string);
     ("reporter_neg_count"%string, FormatInt (negative e.2));
     ("reporter_total_count"%string, FormatInt (total e.2));
     ("median_neg_count"%string, FormatInt medianNeg);
     ("median_total_count"%string, FormatInt medianTotal)]).

(** [sort_Slice less l] is Go's sort.Slice: some arrangement of [l] in the order of
    [less]; the order of ties is its own. *)
Definition ApplyReporterDivergenceAtEpochEnd
    (sort_Slice : (reporterEntry → reporterEntry → bool) → list reporterEntry → list reporterEntry)
    (epochID : Z) (params : AuditParams) : M audit_store unit :=
  qualifying ← gets (qualifyingReporters epochID params);
  let qualifying := sort_Slice rate_less qualifying in
  match qualifying !! (length qualifying / 2)%nat with
  | None => mret tt
  | Some median =>
      if total median.2 =? 0 then mret tt else
      for_each (penalize_divergence epochID params (negative median.2) (total median.2)) qualifying
  end.

Definition storageTruthReporterAccountsForEpoch (epochID : Z) (s : fact_store) : list string :=
  filter (λ r, r ≠ ""%string)
    ((λ k : Z * string, k.2) <$> filter (λ k, k.1 = epochID) (elements (fa_by_epoch s))).

(** The number of passes, and whether a recheck overturned a failure. *)
Definition storageTruthReporterEpochPassStats (reporter : string) (epochID : Z) (s : fact_store)
    : Z * bool :=
  let results := reporter_results reporter epochID epochID s in
  (zlen (List.filter (λ r, isPass (rs_ResultClass r)) results),
   existsb (λ r, rs_OverturnedByRecheck r && isStorageTruthFailureClass (rs_ResultClass r)) results).

Definition cleanPassesRequired : Z := 5.

Definition recover_clean_epoch (epochID : Z) (params : AuditParams) (reporter : string)
    : M audit_store unit :=
  stats ← gets (λ s, storageTruthReporterEpochPassStats reporter epochID (au_facts s));
  if stats.2 || (stats.1 <? cleanPassesRequired) then mret tt else
  _ ← on_scores (applyReporterReliabilityDelta epochID reporter (-4)
        (StorageTruthReporterReliabilityDecayPerEpoch params) 0 params);
  emit (audit_event EventTypeStorageTruthScoreUpdated
    [epoch_attr epochID; ("reporter_supernode_account"%string, reporter);
     ("clean_epoch_recovery_delta"%string, "-4"%string);
     ("epoch_pass_count"%string, FormatInt stats.1)]).

Definition ApplyReporterCleanEpochRecoveryAtEpochEnd (epochID : Z) (params : AuditParams)
    : M audit_store unit :=
  reporters ← gets (λ s,
    let states := filter (λ r, r ≠ ""%string)
                    (rr_ReporterSupernodeAccount <$> GetAllReporterReliabilityStates (au_scores s)) in
    let reporterSet : gset string :=
      list_to_set (states ++ storageTruthReporterAccountsForEpoch epochID (au_facts s)) in
    sort_Strings (elements reporterSet));
  for_each (recover_clean_epoch epochID params) reporters.

(** ** prune.go

    The keys hold the epoch in three places; a key without an account in front
    of the epoch is left alone by the second helper and the third. *)
Section PruneMaps.
Context (minKeep : Z).
(** [prunePrefixByWindowIDLeadingU64] and [pruneReporterTrailingWindowID] *)
Definition kept (epochID : Z) : Prop := minKeep ≤ epochID.
(** [pruneSupernodeWindowReporter] and [pruneTargetBucketEpoch] *)
Definition kept_of (account : string) (epochID : Z) : Prop := account = ""%string ∨ minKeep ≤ epochID.
#[export] Instance kept_dec e : Decision (kept e).
Proof. unfold kept. apply _. Defined.
#[export] Instance kept_of_dec a e : Decision (kept_of a e).
Proof. unfold kept_of. apply _. Defined.

Definition prune_epochs (s : epoch_store) : epoch_store :=
  EpochStore (es_params s) (filter (λ kv, kept kv.1) (es_anchors s))
    (filter (λ kv, kept kv.1) (es_snapshots s)).
Definition prune_reports (s : report_store) : report_store :=
  ReportStore (filter (λ kv, kept kv.1.1) (rp_reports s)) (filter (λ k, kept k.2) (rp_index s))
    (filter (λ k, kept k.2) (rp_host s)) (filter (λ k, kept_of k.1.1 k.1.2) (rp_challenge s)).
Definition prune_evidence (s : evidence_store) : evidence_store :=
  EvidenceStore (ev_next s) (ev_records s) (ev_by_subject s) (ev_by_action s)
    (filter (λ kv, kept kv.1.1.1) (ev_counts s)).
Definition prune_facts (s : fact_store) : fact_store :=
  FactStore (filter (λ kv, kept (tr_EpochID kv.2)) (fa_transcripts s))
    (filter (λ kv, kept_of kv.1.1.1.1 kv.1.1.2) (fa_by_bucket s))
    (filter (λ kv, kept_of kv.1.1.1.1 kv.1.1.1.2) (fa_failures s))
    (filter (λ kv, kept_of kv.1.1.1.1 kv.1.1.1.2) (fa_results s))
    (filter (λ kv, kept_of kv.1.1.1.1 kv.1.1.1.2) (fa_by_target s))
    (filter (λ k, kept k.1) (fa_by_epoch s))
    (filter (λ k, kept_of k.1.1 k.1.2) (fa_failed_heals s))
    (filter (λ k, kept k.1.1) (fa_rechecks s)).
End PruneMaps.

Definition inert_ticket (before : Z) (t : TicketDeteriorationState) : Prop :=
  td_LastUpdatedEpoch t < before ∧ td_DeteriorationScore t = 0 ∧ td_ActiveHealOpId t = 0.
#[export] Instance inert_ticket_dec b t : Decision (inert_ticket b t).
Proof. unfold inert_ticket. apply _. Defined.
Definition pruneInactiveTicketDeteriorationStates (currentEpochID keepLast : Z)
    : M score_store unit :=
  if (keepLast =? 0) || (currentEpochID <=? keepLast) then mret tt else
  modify (λ s, ScoreStore (sc_nodes s) (sc_reporters s)
    (filter (λ kv, ¬ inert_ticket (currentEpochID - keepLast) kv.2) (sc_tickets s))
    (sc_artifacts s)).

Definition delete_heal_op (op : HealOp) : M heal_store unit :=
  _ ← modify (upd_ops (delete (ho_HealOpId op)));
  _ ← modify (upd_op_tickets (λ i, i ∖ {[(ho_TicketId op, ho_HealOpId op)]}));
  _ ← modify (upd_op_status (λ i, i ∖ {[(ho_Status op, ho_HealOpId op)]}));
  modify (upd_votes (filter (λ kv, kv.1.1 ≠ ho_HealOpId op))).
Definition old_heal_op (currentEpochID keepLast : Z) (op : HealOp) : bool :=
  isHealOpFinalStatus (ho_Status op) && (u64 (ho_ScheduledEpochId op + keepLast) <? currentEpochID).
Definition pruneTerminalHealOps (currentEpochID keepLast : Z) : M heal_store unit :=
  toDelete ← gets (λ s, List.filter (old_heal_op currentEpochID keepLast) (GetAllHealOps s));
  for_each delete_heal_op toDelete.

Definition PruneOldEpochs (currentEpochID : Z) (params : AuditParams) : M audit_store unit :=
  let keepLast := KeepLastEpochEntries (AuditParams_WithDefaults params) in
  let minKeep := if keepLast <? u64 (currentEpochID + 1)
                 then u64 (u64 (currentEpochID + 1) - keepLast) else 0 in
  _ ← on_epochs (modify (prune_epochs minKeep));
  _ ← on_reports (modify (prune_reports minKeep));
  _ ← on_evidence (modify (prune_evidence minKeep));
  _ ← on_facts (modify (prune_facts minKeep));
  _ ← on_scores (pruneInactiveTicketDeteriorationStates currentEpochID keepLast);
  on_heal (pruneTerminalHealOps currentEpochID keepLast).

(** ** abci.go *)
Section End_.
Context `{SdkAddress} `{LegacyDecOps}.
Definition AuditEndBlocker
    (sort_Slice : (reporterEntry → reporterEntry → bool) → list reporterEntry → list reporterEntry)
    (ctx : Ctx) : M audit_store unit :=
  params ← gets (λ s, AuditParams_WithDefaults (AuditGetParams (au_epochs s)));
  epoch ← of_result (deriveEpochAtHeight (BlockHeight ctx) params);
  if negb (BlockHeight ctx =? EndHeight epoch) then mret tt else
  _ ← EnforceEpochEnd ctx (EpochID epoch) params;
  _ ← ApplyReporterDivergenceAtEpochEnd sort_Slice (EpochID epoch) params;
  _ ← ApplyReporterCleanEpochRecoveryAtEpochEnd (EpochID epoch) params;
  _ ← ProcessStorageTruthHealOpsAtEpochEnd ctx (EpochID epoch) params;
  PruneOldEpochs (EpochID epoch) params.
End End_.
