(* ===== verification/ScoreInv.v ===== *)
(** * x/audit: the storage-truth scores stay in range

    Every record of the score store sits under its own key and every field stays
    in the range of its Go type; scores are never negative. *)
From Stdlib Require Import ZArith Lia.
From stdpp Require Import base numbers strings list gmap sorting.
From S2P Require Import Prelude Sdk AuditParam AuditTypes Epoch Scoring AuditFacts ScoreKeeper.
From S2P Require Import HealOps AuditEnd.
Open Scope Z_scope.

(** ** Records *)
Definition in_score (z : Z) : Prop := 0 ≤ z < 2 ^ 63.

Record node_ok (account : string) (st : NodeSuspicionState) : Prop := {
  node_key : ns_SupernodeAccount st = account;
  node_score : in_score (ns_SuspicionScore st);
  node_epochs : Forall in_u64 [ns_LastUpdatedEpoch st; ns_LastRecentFailEpoch st;
    ns_LastOldFailEpoch st; ns_WindowStartEpoch st; ns_LastClassAEpoch st; ns_LastClassBEpoch st;
    ns_LastCleanPassEpoch st; ns_LastIndexFailEpoch st];
  node_counts : Forall in_u32 [ns_DistinctTicketFailWindow st; ns_ClassACountWindow st;
    ns_ClassBCountWindow st; ns_CleanPassCount st; ns_CleanPassCountAtPostpone st]
}.
Record reporter_ok (account : string) (st : ReporterReliabilityState) : Prop := {
  reporter_key : rr_ReporterSupernodeAccount st = account;
  reporter_score : in_score (rr_ReliabilityScore st);
  reporter_epochs : Forall in_u64 [rr_LastUpdatedEpoch st; rr_ContradictionCount st;
    rr_IneligibleUntilEpoch st; rr_WindowStartEpoch st];
  reporter_counts : Forall in_u32 [rr_WindowPositiveCount st; rr_WindowNegativeCount st]
}.
Record ticket_ok (ticketID : string) (st : TicketDeteriorationState) : Prop := {
  ticket_key : td_TicketId st = ticketID;
  ticket_score : in_score (td_DeteriorationScore st);
  ticket_epochs : Forall in_u64 [td_LastUpdatedEpoch st; td_ActiveHealOpId st;
    td_ProbationUntilEpoch st; td_LastHealEpoch st; td_LastFailureEpoch st;
    td_ContradictionCount st; td_LastResultEpoch st; td_LastIndexFailureEpoch st;
    td_RecentBucketFailureEpoch st; td_OldBucketFailureEpoch st];
  ticket_counts : Forall in_u32 [td_RecentFailureEpochCount st; td_DistinctHolderFailureCount st]
}.
Record scores_ok (s : score_store) : Prop := {
  scores_nodes : ∀ a st, sc_nodes s !! a = Some st → node_ok a st;
  scores_reporters : ∀ a st, sc_reporters s !! a = Some st → reporter_ok a st;
  scores_tickets : ∀ t st, sc_tickets s !! t = Some st → ticket_ok t st
}.

(** ** Ranges *)
Lemma in_score_i64 z : in_score z → in_i64 z.
Proof. unfold in_score, in_i64. lia. Qed.
Lemma in_score_add a b : in_score (clamp_zero (addInt64Saturated a b)).
Proof.
  pose proof (addInt64Saturated_range a b) as Hr. unfold in_i64 in Hr. unfold in_score, clamp_zero.
  destruct (Z.ltb_spec (addInt64Saturated a b) 0); lia.
Qed.
Lemma in_score_clamp z : in_i64 z → in_score (clamp_zero z).
Proof. unfold in_i64, in_score, clamp_zero. destruct (Z.ltb_spec z 0); lia. Qed.
(** Adding to a score that is in range needs no clamp. *)
Lemma in_score_grow a b : in_score a → in_score b → in_score (addInt64Saturated a b).
Proof.
  intros Ha Hb. rewrite addInt64Saturated_clamp by by apply in_score_i64.
  unfold in_score, MinInt64, MaxInt64 in *. lia.
Qed.
Lemma in_u64_0 : in_u64 0. Proof. unfold in_u64. lia. Qed.
Lemma in_u32_0 : in_u32 0. Proof. unfold in_u32. lia. Qed.
Lemma in_u32_1 : in_u32 1. Proof. unfold in_u32. lia. Qed.
Lemma in_u32_succ z : in_u32 z → z < MaxUint32 → in_u32 (z + 1).
Proof. unfold in_u32, MaxUint32. lia. Qed.

(** A counter that stops at the largest value. *)
Lemma in_u32_guarded (b : bool) z : in_u32 z → in_u32 (if b && (z <? MaxUint32) then z + 1 else z).
Proof.
  intros Hz. destruct b; simpl; [|done]. destruct (Z.ltb_spec z MaxUint32); [|done].
  by apply in_u32_succ.
Qed.

Create HintDb ranges discriminated.
#[export] Hint Resolve in_u64_0 in_u32_0 in_u32_1 u64_range u32_range in_score_add in_u32_guarded : ranges.

Ltac split_forall := repeat match goal with
  | H : Forall _ (_ :: _) |- _ => apply Forall_cons_1 in H as [? H]
  | H : Forall _ [] |- _ => clear H
  | |- Forall _ (_ :: _) => apply Forall_cons_2
  | |- Forall _ [] => apply Forall_nil_2
  end.
(** A field is unchanged, set to a value in range, or chosen between two such. *)
Ltac in_range := repeat first [solve [auto with ranges] | case_match].

Lemma recent_failure_range st epochID params :
  in_u32 (td_RecentFailureEpochCount st) → in_u32 (updateRecentFailureEpochCount st epochID params).
Proof.
  intros Hc. unfold updateRecentFailureEpochCount.
  destruct (epochID =? _), (Z.eqb_spec (td_RecentFailureEpochCount st) 0); auto with ranges.
  destruct (_ <? epochDelta _ _); [auto with ranges|].
  destruct (Z.eqb_spec (td_RecentFailureEpochCount st) MaxUint32) as [<-|]; [done|].
  apply in_u32_succ; [done|]. unfold in_u32, MaxUint32 in *. lia.
Qed.

(** ** Records that the keeper builds *)
Lemma zero_node_ok a st next epochID :
  in_score next → in_u64 epochID → (st = zero_NodeSuspicion ∨ node_ok a st) →
  node_ok a (ns_with_score st a next epochID).
Proof.
  intros Hn He [->|[_ _ Hep Hc]]; split; try done; cbn in *; split_forall; auto with ranges.
Qed.

Lemma node_history_ok a st r epochID params :
  in_u64 epochID → node_ok a st → node_ok a (updateNodeSuspicionHistoryFields st r epochID params).
Proof.
  intros He [Hk Hs Hep Hc]. unfold updateNodeSuspicionHistoryFields.
  destruct (isStorageTruthFailureClass (pr_ResultClass r)); split; try done; cbn in *;
    split_forall; in_range.
Qed.

Lemma next_reliability_ok a st epochID next delta increments params :
  in_score next → in_u64 epochID → (st = zero_ReporterReliability ∨ reporter_ok a st) →
  reporter_ok a (next_reliability st epochID a next delta increments params).
Proof.
  intros Hn He Hst.
  assert (in_u64 (rr_IneligibleUntilEpoch st) ∧ in_u64 (rr_WindowStartEpoch st)
          ∧ in_u32 (rr_WindowPositiveCount st) ∧ in_u32 (rr_WindowNegativeCount st))
    as (H1 & H2 & H3 & H4).
  { destruct Hst as [->|[_ _ Hep Hc]]; [by repeat split; auto with ranges|].
    by split_forall. }
  unfold next_reliability. set (stale := _ <=? epochDelta _ _).
  assert (in_u32 (if stale then 0 else rr_WindowPositiveCount st)
          ∧ in_u32 (if stale then 0 else rr_WindowNegativeCount st)) as [H5 H6]
    by (destruct stale; auto with ranges).
  revert H5 H6. generalize (if stale then 0 else rr_WindowPositiveCount st) as pos.
  generalize (if stale then 0 else rr_WindowNegativeCount st) as neg. intros neg pos H5 H6.
  split; try done; cbn; split_forall; in_range.
Qed.

Lemma next_deterioration_ok t found st epochID reporter r next confirmed params :
  in_score next → in_u64 epochID → (st = zero_TicketDeterioration ∨ ticket_ok t st) →
  ticket_ok t (next_deterioration found st epochID reporter r t next confirmed params).
Proof.
  intros Hn He Hst.
  assert (Forall in_u64 [td_ActiveHealOpId st; td_ProbationUntilEpoch st; td_LastHealEpoch st;
            td_LastFailureEpoch st; td_ContradictionCount st; td_LastResultEpoch st;
            td_LastIndexFailureEpoch st; td_RecentBucketFailureEpoch st;
            td_OldBucketFailureEpoch st]
          ∧ in_u32 (td_RecentFailureEpochCount st) ∧ in_u32 (td_DistinctHolderFailureCount st))
    as (H1 & H2 & H3).
  { destruct Hst as [->|[_ _ Hep Hc]]; cbn.
    - split_and!; split_forall; auto with ranges.
    - split_and!; split_forall; done. }
  pose proof (recent_failure_range st epochID params H2).
  unfold next_deterioration. destruct (decide _).
  - split; try done; cbn in *; split_forall; in_range.
  - split; try done; cbn in *; split_forall; in_range.
Qed.

(** ** Programs on the score store *)
Lemma keeps_SetNodeSuspicionState st :
  node_ok (ns_SupernodeAccount st) st → keeps scores_ok (SetNodeSuspicionState st).
Proof.
  intros Hst. apply keeps_modify. intros s [H1 H2 H3]. split; try done. cbn. intros a st'.
  rewrite lookup_insert_Some. intros [[<- <-]|[_ ?]]; auto.
Qed.
Lemma keeps_SetReporterReliabilityState st :
  reporter_ok (rr_ReporterSupernodeAccount st) st → keeps scores_ok (SetReporterReliabilityState st).
Proof.
  intros Hst. apply keeps_modify. intros s [H1 H2 H3]. split; try done. cbn. intros a st'.
  rewrite lookup_insert_Some. intros [[<- <-]|[_ ?]]; auto.
Qed.
Lemma keeps_SetTicketDeteriorationState st :
  ticket_ok (td_TicketId st) st → keeps scores_ok (SetTicketDeteriorationState st).
Proof.
  intros Hst. apply keeps_modify. intros s [H1 H2 H3]. split; try done. cbn. intros a st'.
  rewrite lookup_insert_Some. intros [[<- <-]|[_ ?]]; auto.
Qed.

Lemma default_ok {A} (P : A → Prop) (o : option A) d :
  (∀ x, o = Some x → P x) → default d o = d ∨ P (default d o).
Proof. destruct o as [x|]; simpl; auto. Qed.

Lemma keeps_applyNodeSuspicionDelta epochID r delta decay params :
  in_u64 epochID → keeps scores_ok (applyNodeSuspicionDelta epochID r delta decay params).
Proof.
  intros He. unfold applyNodeSuspicionDelta. destruct (decide _); [apply keeps_ret|].
  apply keeps_bind_gets. intros s Hs. destruct (_ && _); [apply keeps_ret|].
  apply keeps_bind; [|intros; apply keeps_ret].
  set (next := clamp_zero _).
  assert (node_ok (pr_TargetSupernodeAccount r)
            (updateNodeSuspicionHistoryFields
               (ns_with_score (default zero_NodeSuspicion
                  (sc_nodes s !! pr_TargetSupernodeAccount r))
                  (pr_TargetSupernodeAccount r) next epochID) r epochID params)) as Hok.
  { apply node_history_ok; [done|]. apply zero_node_ok; [apply in_score_add|done|].
    apply default_ok. intros x. apply (scores_nodes _ Hs). }
  apply keeps_SetNodeSuspicionState. by rewrite (node_key _ _ Hok).
Qed.

Lemma keeps_applyReporterReliabilityDelta epochID account delta decay increments params :
  in_u64 epochID →
  keeps scores_ok (applyReporterReliabilityDelta epochID account delta decay increments params).
Proof.
  intros He. unfold applyReporterReliabilityDelta. destruct (decide _); [apply keeps_ret|].
  apply keeps_bind_gets. intros s Hs. destruct (_ && _ && _); [apply keeps_ret|].
  apply keeps_bind; [|intros; apply keeps_ret].
  apply keeps_SetReporterReliabilityState. cbn [next_reliability rr_ReporterSupernodeAccount].
  apply next_reliability_ok; [apply in_score_add|done|].
  apply default_ok. intros x. apply (scores_reporters _ Hs).
Qed.

Lemma keeps_applyTicketDeteriorationDelta epochID reporter r t delta decay confirmed params :
  in_u64 epochID →
  keeps scores_ok (applyTicketDeteriorationDelta epochID reporter r t delta decay confirmed params).
Proof.
  intros He. unfold applyTicketDeteriorationDelta. destruct (decide _); [apply keeps_ret|].
  apply keeps_bind_gets. intros s Hs. destruct (_ && _); [apply keeps_ret|].
  apply keeps_bind; [|intros; apply keeps_ret]. set (next := clamp_zero _).
  assert (in_score next) as Hn
    by (apply in_score_clamp; case_match; apply addInt64Saturated_range).
  assert (ticket_ok t (next_deterioration (bool_decide (is_Some (sc_tickets s !! t)))
    (default zero_TicketDeterioration (sc_tickets s !! t)) epochID reporter r t next confirmed
    params)) as Hok.
  { apply next_deterioration_ok; [done|done|]. apply default_ok. intros x.
    apply (scores_tickets _ Hs). }
  apply keeps_SetTicketDeteriorationState. by rewrite (ticket_key _ _ Hok).
Qed.

Lemma keeps_SetTicketArtifactCounts t i n : keeps scores_ok (AuditSetTicketArtifactCounts t i n).
Proof.
  unfold AuditSetTicketArtifactCounts, SetTicketArtifactCountState. keeps_steps;
    apply keeps_modify; intros s []; by split.
Qed.

Lemma keeps_pruneTickets e k : keeps scores_ok (pruneInactiveTicketDeteriorationStates e k).
Proof.
  unfold pruneInactiveTicketDeteriorationStates. destruct (_ || _); [apply keeps_ret|].
  apply keeps_modify. intros s [H1 H2 H3]. split; try done. cbn. intros t st.
  rewrite map_lookup_filter_Some. intros [? _]. auto.
Qed.

(** The two ways in which heal operations change a ticket. *)
Lemma ticket_with_heal_ok t st active score probation :
  ticket_ok t st → in_u64 active → in_score score → in_u64 probation →
  ticket_ok t (td_with_heal st active score probation).
Proof. intros [Hk Hs He Hc] ???. split; try done; cbn in *; split_forall; auto. Qed.
Lemma ticket_healed_ok t st epochID :
  ticket_ok t st → in_u64 epochID → ticket_ok t (td_healed st epochID).
Proof. intros [Hk Hs He Hc] ?. split; try done; cbn in *; split_forall; auto with ranges. Qed.

Lemma epoch_in_u64 h params e : deriveEpochAtHeight h params = Ok e → in_u64 (EpochID e).
Proof.
  unfold deriveEpochAtHeight. intros E. repeat case_match; try done; injection E as <-; cbn;
    simplify_eq/=; auto with ranges.
Qed.
