(* ===== verification/AuditSys.v ===== *)
(** * x/audit: the calls of the module and the states they reach *)
From Stdlib Require Import ZArith Lia.
From stdpp Require Import base numbers strings list gmap sorting.
From S2P Require Import Prelude Sdk SupernodeTypes Supernode ActionStore AuditParam AuditTypes.
From S2P Require Import Epoch Scoring AuditFacts ScoreKeeper HealOps HealMsg AuditReport.
From S2P Require Import AuditEvidence Enforcement AuditEnd.
Open Scope Z_scope.

Section System.
Context `{SdkAddress} `{LegacyDecOps} `{Blake3} `{ParamsCodec} `{EvidenceCodec}.
(** The governance account and the account of the action module. *)
Variables authority actionModuleAddress : string.

(** The messages, the block hooks, the two methods that the action module calls,
    and whatever the supernode module does to its own store.  The order of map
    iteration and the order of ties in sort.Slice are part of the call: nothing is
    assumed of them. *)
Inductive audit_call : Type :=
| Call_SubmitEpochReport (map_order : list string → list string) (req : MsgSubmitEpochReport)
| Call_SubmitStorageRecheckEvidence (req : MsgSubmitStorageRecheckEvidence)
| Call_ClaimHealComplete (req : MsgClaimHealComplete)
| Call_SubmitHealVerification (req : MsgSubmitHealVerification)
| Call_SubmitEvidence (msg : MsgSubmitEvidence)
| Call_UpdateParams (msg : MsgAuditUpdateParams)
| Call_BeginBlocker
| Call_EndBlocker (sort_Slice : (reporterEntry → reporterEntry → bool) → list reporterEntry →
                                list reporterEntry)
| Call_CreateEvidence (reporter subject actionID : string) (ty : EvidenceType) (metadata : string)
| Call_SetTicketArtifactCounts (ticketID : string) (indexCount symbolCount : Z)
| Call_Supernode (m : M sn_store unit).

Definition run_call (ctx : Ctx) (c : audit_call) : M audit_store unit :=
  match c with
  | Call_SubmitEpochReport o req => SubmitEpochReport o ctx req
  | Call_SubmitStorageRecheckEvidence req => SubmitStorageRecheckEvidence ctx req
  | Call_ClaimHealComplete req => ClaimHealComplete ctx req
  | Call_SubmitHealVerification req => SubmitHealVerification ctx req
  | Call_SubmitEvidence msg => _ ← SubmitEvidence actionModuleAddress ctx msg; mret tt
  | Call_UpdateParams msg => on_epochs (AuditUpdateParams authority msg)
  | Call_BeginBlocker => AuditBeginBlocker ctx
  | Call_EndBlocker sort => AuditEndBlocker sort ctx
  | Call_CreateEvidence reporter subject actionID ty metadata =>
      _ ← AuditCreateEvidence actionModuleAddress ctx reporter subject actionID ty metadata;
      mret tt
  | Call_SetTicketArtifactCounts t i n => on_scores (AuditSetTicketArtifactCounts t i n)
  | Call_Supernode m => on_sn m
  end.

(** InitGenesis of a genesis state that imports no records: it stores the parameters
    with [AuditSetParams] and sets both counters to 1. *)
Definition audit_genesis (params : AuditParams) (sn : sn_store) : audit_store :=
  AuditStore (EpochStore (Some (AuditParams_WithDefaults params)) ∅ ∅) (ReportStore ∅ ∅ ∅ ∅) (EvidenceStore (Some 1) ∅ ∅ ∅ ∅)
    (PostponeStore ∅ ∅ ∅) (ScoreStore ∅ ∅ ∅ ∅) (HealStore ∅ ∅ ∅ ∅ (Some 1))
    (FactStore ∅ ∅ ∅ ∅ ∅ ∅ ∅ ∅) sn.

(** There are ids left for the heal operations of one more epoch: one for each
    ticket at most. *)
Definition ids_left (s : audit_store) : Prop :=
  GetNextHealOpID (au_heal s) + Z.of_nat (size (sc_tickets (au_scores s))) < 2 ^ 64.

(** What a block gives a call: a height that is far from the end of int64, and
    parameters of the Go types. *)
Definition call_ok (s : audit_store) (ctx : Ctx) (c : audit_call) : Prop :=
  0 ≤ BlockHeight ctx ∧
  BlockHeight ctx + EpochLengthBlocks (AuditGetParams (au_epochs s)) ≤ MaxInt64 ∧
  match c with
  | Call_UpdateParams msg => params_typed (up_Params msg)
  | Call_EndBlocker _ => ids_left s
  | _ => True
  end.

Inductive audit_reachable : audit_store → Prop :=
| audit_reach_genesis params sn :
    params_typed params → AuditParams_Validate (AuditParams_WithDefaults params) = Ok tt →
    audit_reachable (audit_genesis params sn)
| audit_reach_call s ctx c :
    audit_reachable s → call_ok s ctx c →
    audit_reachable (store (run_tx (run_call ctx c) (St s [])).2).

(** An invariant of every call is one of every reachable state. *)
Lemma audit_reachable_inv (I : audit_store → Prop) :
  (∀ params sn, params_typed params →
     AuditParams_Validate (AuditParams_WithDefaults params) = Ok tt →
     I (audit_genesis params sn)) →
  (∀ s ctx c, call_ok s ctx c → I s → I (store (run_tx (run_call ctx c) (St s [])).2)) →
  ∀ s, audit_reachable s → I s.
Proof. intros Hgen Hcall s Hs. induction Hs; auto. Qed.
End System.
