(* ===== verification/HealInv.v ===== *)
(** * x/audit: the heal operations keep their promises

    What holds of the heal operations of every reachable state: the indexes, the
    votes, and that an operation is closed by a majority of its verifiers or by
    its deadline. *)
From Stdlib Require Import ZArith Lia.
From stdpp Require Import base numbers strings list gmap sorting sets.
From S2P Require Import Prelude Sdk SupernodeTypes Supernode AuditParam AuditTypes Epoch GoHash.
From S2P Require Import Scoring AuditFacts ScoreKeeper HealOps HealMsg AuditReport AuditEvidence.
From S2P Require Import Enforcement AuditEnd ScoreInv AuditSys.
Open Scope Z_scope.

(** ** The invariant *)
Definition open_op (op : HealOp) : Prop := isHealOpFinalStatus (ho_Status op) = false.

(** One operation; [undecided] is demanded of reported ones only where [P] does not
    hold of the id. *)
Record op_ok (P : Z → Prop) (s : heal_store) (id : Z) (op : HealOp) : Prop := {
  op_id : ho_HealOpId op = id;
  op_people : ho_HealerSupernodeAccount op ∉ ho_VerifierSupernodeAccounts op
              ∧ NoDup (ho_VerifierSupernodeAccounts op)
              ∧ ho_VerifierSupernodeAccounts op ≠ [];
  op_names : ho_HealerSupernodeAccount op ≠ ""%string ∧ ho_TicketId op ≠ ""%string;
  op_waiting : ho_Status op = HEAL_SCHEDULED ∨ ho_Status op = HEAL_IN_PROGRESS →
    ∀ v, hs_votes s !! (id, v) = None;
  op_reported : ho_Status op = HEAL_HEALER_REPORTED → ¬ P id →
    count_votes true id op s < majority_of op ∧ count_votes false id op s < majority_of op;
  op_verified : ho_Status op = HEAL_VERIFIED → majority_of op ≤ count_votes true id op s;
  op_failed : ho_Status op = HEAL_FAILED → majority_of op ≤ count_votes false id op s;
  op_deadline : ho_DeadlineEpochId op ≠ 0
}.

Record heal_ok_but (P : Z → Prop) (s : heal_store) : Prop := {
  heal_ops : ∀ id op, hs_ops s !! id = Some op → op_ok P s id op;
  heal_counter : match hs_next s with
                 | None => hs_ops s = ∅
                 | Some n => 0 < n ∧ ∀ id op, hs_ops s !! id = Some op → 0 < id < n
                 end;
  heal_tickets : ∀ t id,
    (t, id) ∈ hs_by_ticket s ↔ ∃ op, hs_ops s !! id = Some op ∧ ho_TicketId op = t;
  heal_statuses : ∀ st id,
    (st, id) ∈ hs_by_status s ↔ ∃ op, hs_ops s !! id = Some op ∧ ho_Status op = st;
  heal_voters : ∀ id v b, hs_votes s !! (id, v) = Some b →
    v ≠ ""%string ∧
    ∃ op, hs_ops s !! id = Some op ∧ v ∈ ho_VerifierSupernodeAccounts op;
  heal_one_open : ∀ id1 id2 op1 op2,
    hs_ops s !! id1 = Some op1 → hs_ops s !! id2 = Some op2 →
    open_op op1 → open_op op2 → ho_TicketId op1 = ho_TicketId op2 → id1 = id2
}.
Definition heal_ok : heal_store → Prop := heal_ok_but (λ _, False).

(** ** SetHealOp as a function of the store *)
Definition put_op (op : HealOp) (s : heal_store) : heal_store :=
  HealStore (<[ho_HealOpId op := op]> (hs_ops s))
    ({[(ho_TicketId op, ho_HealOpId op)]} ∪
       match hs_ops s !! ho_HealOpId op with
       | Some ex => hs_by_ticket s ∖ {[(ho_TicketId ex, ho_HealOpId ex)]}
       | None => hs_by_ticket s
       end)
    ({[(ho_Status op, ho_HealOpId op)]} ∪
       match hs_ops s !! ho_HealOpId op with
       | Some ex => hs_by_status s ∖ {[(ho_Status ex, ho_HealOpId ex)]}
       | None => hs_by_status s
       end)
    (hs_votes s) (hs_next s).

Lemma SetHealOp_eq op t : SetHealOp op t = (Ok tt, St (put_op op (store t)) (events t)).
Proof.
  destruct t as [s ev]. unfold SetHealOp, GetHealOp, put_op, mbind, M_bind, gets, modify.
  cbn [store events fst snd]. by destruct (hs_ops s !! ho_HealOpId op).
Qed.
Lemma wp_SetHealOp op t Q : Q (Ok tt) (St (put_op op (store t)) (events t)) → wp (SetHealOp op) t Q.
Proof. unfold wp. by rewrite SetHealOp_eq. Qed.

(** ** Changing one operation *)
Lemma put_op_lookup op s id :
  hs_ops (put_op op s) !! id = if decide (id = ho_HealOpId op) then Some op else hs_ops s !! id.
Proof.
  cbn [put_op hs_ops]. destruct (decide (id = ho_HealOpId op)) as [->|].
  - by rewrite lookup_insert_eq.
  - by rewrite lookup_insert_ne.
Qed.

(** An index follows the records: the entry of the old record goes, that of the new
    one comes. *)
Lemma index_put {X} `{Countable X} (f : HealOp → X) (ops : gmap Z HealOp) (idx : gset (X * Z)) op :
  (∀ id ex, ops !! id = Some ex → ho_HealOpId ex = id) →
  (∀ t id, (t, id) ∈ idx ↔ ∃ o, ops !! id = Some o ∧ f o = t) →
  ∀ t id,
    (t, id) ∈ {[(f op, ho_HealOpId op)]} ∪
      match ops !! ho_HealOpId op with
      | Some ex => idx ∖ {[(f ex, ho_HealOpId ex)]}
      | None => idx
      end ↔ ∃ o, <[ho_HealOpId op := op]> ops !! id = Some o ∧ f o = t.
Proof.
  intros Hid Hidx t id. rewrite elem_of_union, elem_of_singleton.
  destruct (decide (id = ho_HealOpId op)) as [->|Hne].
  - rewrite lookup_insert_eq. split; [intros [[= ->]|Hin]; [eauto|]|intros (o & [= <-] & <-); auto].
    destruct (ops !! ho_HealOpId op) as [ex|] eqn:Eex.
    + apply elem_of_difference in Hin as [(o & Ho & <-)%Hidx Hn]. rewrite Eex in Ho.
      injection Ho as <-. rewrite (Hid _ _ Eex) in Hn. by destruct Hn; apply elem_of_singleton.
    + apply Hidx in Hin as (o & Ho & _). congruence.
  - rewrite lookup_insert_ne by done. rewrite <- Hidx. split.
    + intros [[= -> ->]|Hin]; [done|]. destruct (ops !! ho_HealOpId op); set_solver.
    + intros Hin. right. destruct (ops !! ho_HealOpId op) as [ex|] eqn:Eex; [|done].
      apply elem_of_difference. split; [done|]. rewrite elem_of_singleton.
      intros [= -> ->]. by rewrite (Hid _ _ Eex) in Hne.
Qed.

Section OneOp.
Implicit Types (s : heal_store) (op : HealOp).

Lemma heal_ok_weaken (P Q : Z → Prop) s :
  (∀ id, P id → Q id) → heal_ok_but P s → heal_ok_but Q s.
Proof.
  intros HPQ [H1 H2 H3 H4 H5 H6]. split; try done. intros id op Hop.
  destruct (H1 id op Hop). split; try done. auto.
Qed.

(** [op'] is [op] in another state of its life, with the votes that state needs. *)
Record advances s op op' : Prop := {
  adv_id : ho_HealOpId op' = ho_HealOpId op;
  adv_ticket : ho_TicketId op' = ho_TicketId op;
  adv_healer : ho_HealerSupernodeAccount op' = ho_HealerSupernodeAccount op;
  adv_verifiers : ho_VerifierSupernodeAccounts op' = ho_VerifierSupernodeAccounts op;
  adv_deadline : ho_DeadlineEpochId op' = ho_DeadlineEpochId op;
  adv_open : open_op op;
  adv_votes :
    match ho_Status op' with
    | HEAL_HEALER_REPORTED =>
        ho_Status op = HEAL_SCHEDULED ∨ ho_Status op = HEAL_IN_PROGRESS
    | HEAL_VERIFIED => majority_of op ≤ count_votes true (ho_HealOpId op) op s
    | HEAL_FAILED => majority_of op ≤ count_votes false (ho_HealOpId op) op s
    | HEAL_EXPIRED => True
    | _ => False
    end
}.

Lemma count_votes_ext b id op op' s s' :
  ho_VerifierSupernodeAccounts op' = ho_VerifierSupernodeAccounts op →
  (∀ v, hs_votes s' !! (id, v) = hs_votes s !! (id, v)) →
  count_votes b id op' s' = count_votes b id op s.
Proof.
  intros Hv He. unfold count_votes. rewrite Hv. f_equal. apply list_filter_iff.
  intros v. unfold heal_vote. by rewrite He.
Qed.
Lemma majority_of_ext op op' :
  ho_VerifierSupernodeAccounts op' = ho_VerifierSupernodeAccounts op →
  majority_of op' = majority_of op.
Proof. unfold majority_of. by intros ->. Qed.
Lemma majority_pos op : 0 < majority_of op.
Proof. unfold majority_of, zlen. pose proof (Z.div_pos (Z.of_nat (length (ho_VerifierSupernodeAccounts op))) 2). lia. Qed.
Lemma count_votes_none b id op s :
  (∀ v, hs_votes s !! (id, v) = None) → count_votes b id op s = 0.
Proof.
  intros Hn. unfold count_votes. rewrite list_filter_none; [done|].
  intros v _. unfold heal_vote. rewrite Hn. by destruct (decide _).
Qed.

(** Another operation does not notice. *)
Lemma op_ok_frame (P Q : Z → Prop) s s' id op :
  (∀ v, hs_votes s' !! (id, v) = hs_votes s !! (id, v)) → (P id → Q id) →
  op_ok P s id op → op_ok Q s' id op.
Proof.
  intros Hv HPQ [H1 H2 H0 H3 H4 H5 H6 H7].
  split; rewrite ?(count_votes_ext _ id op op s s') by done; auto.
  intros Hst v. rewrite Hv. auto.
Qed.

Lemma op_ok_advance P s id op op' :
  op_ok P s id op → advances s op op' → op_ok (λ _, False) (put_op op' s) id op'.
Proof.
  intros [H1 [Hh [Hnd Hne]] H0 H3 H4 H5 H6 H7] [A1 A2 A3 A4 A5 A6 A7].
  pose proof (majority_pos op). rewrite H1 in A7.
  split; rewrite ?(count_votes_ext _ id op op' s (put_op op' s)), ?(majority_of_ext op op') by done.
  - congruence.
  - by rewrite A3, A4.
  - by rewrite A3, A2.
  - intros [E|E]; by rewrite E in A7.
  - intros E _. rewrite E in A7. rewrite !count_votes_none by auto. lia.
  - intros E. by rewrite E in A7.
  - intros E. by rewrite E in A7.
  - by rewrite A5.
Qed.

Lemma heal_ok_advance P s id op op' :
  heal_ok_but P s → hs_ops s !! id = Some op → advances s op op' → (∀ i, P i → i = id) →
  heal_ok (put_op op' s).
Proof.
  intros [H1 H2 H3 H4 H5 H6] Hop Hadv HP. pose proof Hadv as [A1 A2 A3 A4 A5 A6 A7].
  pose proof (H1 _ _ Hop) as Hok. pose proof (op_id _ _ _ _ Hok) as Hid. rewrite Hid in A1.
  assert (∀ i o, hs_ops s !! i = Some o → ho_HealOpId o = i) as Hids
    by (intros i o Ho; apply (H1 i o Ho)).
  split.
  - intros i o. rewrite put_op_lookup, A1. destruct (decide (i = id)) as [->|Hne].
    + intros [= <-]. by apply (op_ok_advance P s id op).
    + intros Ho. apply (op_ok_frame P _ s); [done|auto|by apply H1].
  - cbn [put_op hs_next]. destruct (hs_next s) as [n|]; [|by rewrite H2, lookup_empty in Hop].
    destruct H2 as [Hn H2]. split; [done|]. intros i o. rewrite put_op_lookup, A1.
    destruct (decide (i = id)) as [->|]; [intros _; by apply (H2 id op)|by apply H2].
  - apply (index_put ho_TicketId (hs_ops s) (hs_by_ticket s) op' Hids H3).
  - apply (index_put ho_Status (hs_ops s) (hs_by_status s) op' Hids H4).
  - intros i v b Hv. destruct (H5 i v b Hv) as (Hv0 & o & Ho & Hin). split; [done|].
    setoid_rewrite put_op_lookup. rewrite A1. destruct (decide (i = id)) as [->|]; [|eauto].
    exists op'. split; [done|]. rewrite A4. congruence.
  - intros i1 i2 o1 o2. rewrite !put_op_lookup, A1.
    destruct (decide (i1 = id)) as [->|N1], (decide (i2 = id)) as [->|N2]; try done.
    + intros [= <-] Ho2 _ Op2. rewrite A2. by apply (H6 id i2 op o2).
    + intros Ho1 [= <-] Op1 _. rewrite A2. by apply (H6 i1 id o1 op).
    + by apply H6.
Qed.

(** A vote of an assigned verifier, who has not voted yet, on a reported operation. *)
Lemma heal_ok_vote s id op v b :
  heal_ok s → hs_ops s !! id = Some op → ho_Status op = HEAL_HEALER_REPORTED →
  v ∈ ho_VerifierSupernodeAccounts op → v ≠ ""%string →
  heal_ok_but (λ i, i = id) (upd_votes <[(id, v) := b]> s).
Proof.
  intros [H1 H2 H3 H4 H5 H6] Hop Hst Hv Hv0. split; try done.
  - intros i o Ho. specialize (H1 i o Ho). destruct (decide (i = id)) as [->|Hne].
    + cbn in Ho. assert (o = op) as -> by congruence. destruct H1.
      split; rewrite ?Hst; try done; by intros [].
    + apply (op_ok_frame (λ _, False) _ s); [|done|done].
      intros v'. cbn [upd_votes hs_votes]. by rewrite lookup_insert_ne by congruence.
  - intros i v' b'. cbn [upd_votes hs_votes hs_ops]. destruct (decide ((id, v) = (i, v'))) as [[= -> ->]|Hne].
    + rewrite lookup_insert_eq. eauto.
    + rewrite lookup_insert_ne by done. apply H5.
Qed.

Lemma heal_ok_undecided s id op :
  heal_ok_but (λ i, i = id) s → hs_ops s !! id = Some op →
  count_votes true id op s < majority_of op → count_votes false id op s < majority_of op →
  heal_ok s.
Proof.
  intros [H1 H2 H3 H4 H5 H6] Hop Ht Hf. split; try done. intros i o Ho.
  destruct (H1 i o Ho). split; try done. intros Hst _.
  destruct (decide (i = id)) as [->|Hne]; [|auto]. by assert (o = op) as -> by congruence.
Qed.
End OneOp.

(** ** The invariant of the module *)
Definition anchors_ok (s : epoch_store) : Prop :=
  ∀ e a, es_anchors s !! e = Some a →
    NoDup (ea_ActiveSupernodeAccounts a) ∧ ""%string ∉ ea_ActiveSupernodeAccounts a.
Definition params_ok (s : epoch_store) : Prop :=
  ∃ p, es_params s = Some p ∧ AuditParams_WithDefaults p = p ∧ params_typed p
       ∧ AuditParams_Validate p = Ok tt.
Definition epochs_ok (s : epoch_store) : Prop := anchors_ok s ∧ params_ok s.
Definition next_ok (s : heal_store) : Prop := ∀ n, hs_next s = Some n → in_u64 n.
Record audit_ok (s : audit_store) : Prop := AuditOk {
  ok_heal : heal_ok (au_heal s);
  ok_next : next_ok (au_heal s);
  ok_epochs : epochs_ok (au_epochs s);
  ok_scores : scores_ok (au_scores s)
}.

Section Frames.
Lemma keeps_on_scores {A} (m : M score_store A) : keeps scores_ok m → keeps audit_ok (on_scores m).
Proof. intros Hm. apply (keeps_zoom _ scores_ok); [by intros ? []|by intros ? ? []|done]. Qed.
Lemma keeps_on_facts {A} (m : M fact_store A) : keeps audit_ok (on_facts m).
Proof. apply keeps_zoom_frame. by intros ? ? []. Qed.
Lemma keeps_on_reports {A} (m : M report_store A) : keeps audit_ok (on_reports m).
Proof. apply keeps_zoom_frame. by intros ? ? []. Qed.
Lemma keeps_on_evidence {A} (m : M evidence_store A) : keeps audit_ok (on_evidence m).
Proof. apply keeps_zoom_frame. by intros ? ? []. Qed.
Lemma keeps_on_postpone {A} (m : M postpone_store A) : keeps audit_ok (on_postpone m).
Proof. apply keeps_zoom_frame. by intros ? ? []. Qed.
Lemma keeps_on_sn {A} (m : M sn_store A) : keeps audit_ok (on_sn m).
Proof. apply keeps_zoom_frame. by intros ? ? []. Qed.
Lemma keeps_on_epochs {A} (m : M epoch_store A) : keeps epochs_ok m → keeps audit_ok (on_epochs m).
Proof. intros Hm. apply (keeps_zoom _ epochs_ok); [by intros ? []|by intros ? ? []|done]. Qed.
End Frames.
#[export] Hint Resolve keeps_on_scores keeps_on_facts keeps_on_reports keeps_on_evidence
  keeps_on_postpone keeps_on_sn keeps_on_epochs keeps_applyNodeSuspicionDelta
  keeps_applyReporterReliabilityDelta keeps_applyTicketDeteriorationDelta
  keeps_SetTicketArtifactCounts keeps_pruneTickets : keeps.

(** ** The handlers *)
Section Handlers.
Context `{SdkAddress} `{LegacyDecOps}.

Lemma wp_on_heal_SetHealOp op (t : st audit_store) Q :
  Q (Ok tt) (St (set_heal (put_op op (au_heal (store t))) (store t)) (events t)) →
  wp (on_heal (SetHealOp op)) t Q.
Proof. intros HQ. apply wp_zoom, wp_SetHealOp. exact HQ. Qed.

Lemma keeps_ClaimHealComplete ctx req : keeps audit_ok (ClaimHealComplete ctx req).
Proof.
  intros t [Hh Hn Ha Hs].
  enough (wp (ClaimHealComplete ctx req) t (λ _ t', audit_ok (store t'))) by done.
  unfold ClaimHealComplete. repeat (wp_step; try done).
  apply wp_on_heal_SetHealOp. wp_step. split; try done. cbn [store set_heal au_heal].
  match goal with Hop : GetHealOp _ _ = Some ?op, Hst : _ || _ = true |- _ =>
    rewrite orb_true_iff, !bool_decide_eq_true in Hst;
    apply (heal_ok_advance (λ _, False) _ _ op _ Hh Hop); [|done];
    split; try done; unfold open_op; by destruct Hst as [-> | ->] end.
Qed.

(** What becomes of the ticket when its operation ends. *)
Lemma ticket_failed_ok t st active until :
  ticket_ok t st → in_u64 active → in_u64 until →
  ticket_ok t (td_with_heal st active (addInt64Saturated (td_DeteriorationScore st) 15)
    (if td_ProbationUntilEpoch st <? until then until else td_ProbationUntilEpoch st)).
Proof.
  intros Hst Ha Hu. pose proof Hst as [_ Hs He _]. apply ticket_with_heal_ok; [done|done| |].
  - apply in_score_grow; [done|]. unfold in_score. lia.
  - split_forall. by destruct (_ <? _).
Qed.
Lemma ticket_verified_ok t st active until epochID :
  ticket_ok t st → in_u64 active → in_u64 until → in_u64 epochID →
  ticket_ok t (td_healed (td_with_heal st active
    (if Z.quot (td_DeteriorationScore st) 4 <? 8 then 8 else Z.quot (td_DeteriorationScore st) 4)
    until) epochID).
Proof.
  intros Hst Ha Hu He. apply ticket_healed_ok; [|done]. apply ticket_with_heal_ok; try done.
  pose proof (ticket_score _ _ Hst) as Hs. unfold in_score in *.
  rewrite Z.quot_div_nonneg by lia. pose proof (Z.div_le_upper_bound (td_DeteriorationScore st) 4).
  destruct (Z.ltb_spec (td_DeteriorationScore st / 4) 8); [lia|].
  split; [lia|]. apply Z.div_lt_upper_bound; lia.
Qed.
Lemma active_in_u64 t st id : ticket_ok t st → in_u64 (if td_ActiveHealOpId st =? id then 0 else td_ActiveHealOpId st).
Proof. intros [_ _ He _]. split_forall. destruct (_ =? _); auto with ranges. Qed.

Lemma wp_finalizeHealOp ctx id op verified hash details (t : st audit_store) :
  heal_ok_but (λ i, i = id) (au_heal (store t)) → next_ok (au_heal (store t)) →
  epochs_ok (au_epochs (store t)) → scores_ok (au_scores (store t)) →
  hs_ops (au_heal (store t)) !! id = Some op → open_op op →
  majority_of op ≤ count_votes verified id op (au_heal (store t)) →
  wp (finalizeHealOp ctx op verified hash details) t (λ _ t', audit_ok (store t')).
Proof.
  intros Hh Hn Ha Hs Hop Hopen Hmaj. unfold finalizeHealOp. apply wp_bind, wp_on_heal_SetHealOp.
  apply (wp_keeps audit_ok); [| |done].
  - apply keeps_bind_gets. intros x Hx.
    destruct (sc_tickets (au_scores x) !! _) as [st|] eqn:Est; [|apply keeps_ret].
    pose proof (scores_tickets _ (ok_scores _ Hx) _ _ Est) as Hst.
    pose proof (active_in_u64 _ _ (ho_HealOpId op) Hst).
    apply keeps_bind; [apply keeps_gets|intros params]. apply keeps_bind_of_result.
    intros e He%epoch_in_u64. destruct verified.
    + apply keeps_on_scores, keeps_SetTicketDeteriorationState. cbn [td_healed td_with_heal td_TicketId].
      rewrite (ticket_key _ _ Hst). apply ticket_verified_ok; auto with ranges.
    + apply keeps_bind; [apply keeps_on_facts|intros _].
      apply keeps_on_scores, keeps_SetTicketDeteriorationState. cbn [td_with_heal td_TicketId].
      rewrite (ticket_key _ _ Hst). apply ticket_failed_ok; auto with ranges.
  - split; try done. cbn [store set_heal au_heal]. eapply heal_ok_advance; [exact Hh|exact Hop| |done].
    pose proof (op_id _ _ _ _ (heal_ops _ _ Hh _ _ Hop)) as Hid.
    split; try done. rewrite Hid. by destruct verified.
Qed.

Lemma keeps_SubmitHealVerification ctx req : keeps audit_ok (SubmitHealVerification ctx req).
Proof.
  intros t [Hh Hnx Ha Hs].
  enough (wp (SubmitHealVerification ctx req) t (λ _ t', audit_ok (store t'))) by done.
  unfold SubmitHealVerification. do 9 (repeat (wp_step; try done)).
  match goal with Hop : GetHealOp _ _ = Some ?a, Hst : bool_decide (ho_Status ?a = _) = true,
    Hv : containsString _ _ = true, Hn : nonempty (hv_Creator req) = true |- _ =>
    rename Hop into Eop, a into op; apply bool_decide_eq_true in Hst, Hv, Hn;
    pose proof (heal_ok_vote _ _ _ _ (hv_Verified req) Hh Eop Hst Hv Hn) as Hvote;
    assert (open_op op) as Hopen by (unfold open_op; by rewrite Hst) end.
  apply wp_zoom, wp_modify. apply wp_bind, wp_gets, wp_bind, wp_gets. cbn [store set_heal au_heal].
  destruct (Z.leb_spec (majority_of op)
    (count_votes false (hv_HealOpId req) op
       (upd_votes <[(hv_HealOpId req, hv_Creator req) := hv_Verified req]> (au_heal (store t))))).
  { apply wp_bind. eapply wp_mono; [by apply (wp_finalizeHealOp _ (hv_HealOpId req))|].
    intros [] t' Ht'; [by wp_step|done]. }
  destruct (Z.leb_spec (majority_of op)
    (count_votes true (hv_HealOpId req) op
       (upd_votes <[(hv_HealOpId req, hv_Creator req) := hv_Verified req]> (au_heal (store t))))).
  { apply wp_bind. eapply wp_mono; [by apply (wp_finalizeHealOp _ (hv_HealOpId req))|].
    intros [] t' Ht'; [by wp_step|done]. }
  wp_step. split; try done. by apply (heal_ok_undecided _ (hv_HealOpId req) op).
Qed.

(** *** Calls that leave the heal operations alone *)
Lemma keeps_applyStorageTruthScores epochID reporter results :
  in_u64 epochID → keeps audit_ok (applyStorageTruthScores epochID reporter results).
Proof. intros He. unfold applyStorageTruthScores, applyStorageTruthScore. keeps_steps. Qed.

#[local] Hint Resolve keeps_applyStorageTruthScores : keeps.

(** The same steps, where the id of a derived epoch is known to be in range. *)
Ltac audit_keeps := repeat (first
  [ match goal with |- keeps _ (of_result (deriveEpochAtHeight _ _) ≫= _) =>
      apply keeps_bind_of_result; intros ? ?%epoch_in_u64 end
  | keeps_step ]).

Lemma keeps_SubmitStorageRecheckEvidence ctx req :
  keeps audit_ok (SubmitStorageRecheckEvidence ctx req).
Proof. unfold SubmitStorageRecheckEvidence. audit_keeps. Qed.

Lemma keeps_valid_results {S} (I : S → Prop) reporter allowed seen results :
  keeps I (valid_results reporter allowed seen results).
Proof.
  revert seen. induction results as [|[r|] results IH]; intros seen; cbn [valid_results].
  - apply keeps_ret.
  - unfold valid_result. by keeps_steps.
  - apply keeps_fail.
Qed.
Lemma keeps_coverage_loop {S} (I : S → Prop) allowed recent old results :
  keeps I (coverage_loop allowed recent old results).
Proof.
  revert recent old. induction results as [|[r|] results IH]; intros recent old;
    cbn [coverage_loop]; [apply keeps_ret| |auto]. destruct (negb _); [auto|].
  by destruct (pr_BucketType r); keeps_steps.
Qed.
Lemma keeps_valid_observations {S} (I : S → Prop) reporter allowed n seen obs :
  keeps I (valid_observations reporter allowed n seen obs).
Proof.
  revert seen. induction obs as [|[o|] obs IH]; intros seen; cbn [valid_observations];
    [apply keeps_ret|by keeps_steps|apply keeps_fail].
Qed.
#[local] Hint Resolve keeps_valid_results keeps_coverage_loop keeps_valid_observations : keeps.

Lemma keeps_with_validator sn f : keeps audit_ok (with_validator sn f).
Proof. unfold with_validator. keeps_steps. Qed.
#[local] Hint Resolve keeps_with_validator : keeps.
Lemma keeps_SetReport ctx r : keeps audit_ok (SetReport ctx r).
Proof. unfold SetReport, markSupernodeStorageFull. keeps_steps. Qed.
#[local] Hint Resolve keeps_SetReport : keeps.

Lemma keeps_SubmitEpochReport o ctx req : keeps audit_ok (SubmitEpochReport o ctx req).
Proof.
  unfold SubmitEpochReport. keeps_step; [keeps_steps|]. keeps_step; [keeps_steps|].
  apply keeps_bind_of_result. intros e He%epoch_in_u64.
  apply keeps_bind_ensure. intros Eq%Z.eqb_eq. rewrite <- Eq in He.
  unfold validateHostMetricFields, validateHostUsagePercent, validateStorageProofResults,
    validateCompoundStorageProofCoverage, validateStorageProofArtifactCounts,
    validateNoEligibleTicketConsistency, bridgeCascadeBytesToSupernodeMetrics,
    applyIncompleteReportPenalty.
  keeps_steps.
Qed.

Lemma supernodeAccountsFromSet_spec seen set l :
  supernodeAccountsFromSet seen set = Ok l →
  NoDup l ∧ ""%string ∉ l ∧ (∀ x, x ∈ l → x ∉ seen).
Proof.
  revert seen l. induction set as [|sn set IH]; intros seen l; simpl.
  { intros [= <-]. split_and!; [constructor|apply not_elem_of_nil|by intros ? ?%not_elem_of_nil]. }
  destruct (decide _); [done|]. destruct (decide _) as [|Hnew]; [by apply IH|].
  destruct (supernodeAccountsFromSet _ set) as [l'|] eqn:El; [|done]. intros [= <-].
  destruct (IH _ _ El) as (Hnd & Hne & Hseen). split_and!.
  - constructor; [|done]. intros Hin. apply (Hseen _ Hin). left.
  - by intros [?|?]%elem_of_cons.
  - intros x [->|Hin]%elem_of_cons; [done|]. intros Hx. apply (Hseen _ Hin). by right.
Qed.
(** The sorted accounts of a set of supernodes. *)
Lemma sorted_accounts_ok set l :
  supernodeAccountsFromSet [] set = Ok l → NoDup (sort_Strings l) ∧ ""%string ∉ sort_Strings l.
Proof.
  intros (Hnd & Hne & _)%supernodeAccountsFromSet_spec. unfold sort_Strings.
  by rewrite merge_sort_Permutation.
Qed.

Lemma keeps_SetEpochAnchor a :
  NoDup (ea_ActiveSupernodeAccounts a) ∧ ""%string ∉ ea_ActiveSupernodeAccounts a →
  keeps epochs_ok (SetEpochAnchor a).
Proof.
  intros Ha. apply keeps_modify. intros s [Hs Hp]. split; [|done]. intros e a'. cbn.
  rewrite lookup_insert_Some. intros [[_ <-]|[_ ?]]; [done|by apply (Hs e)].
Qed.
Lemma keeps_CreateSnapshot e p : keeps epochs_ok (CreateEpochParamsSnapshotIfNeeded e p).
Proof.
  unfold CreateEpochParamsSnapshotIfNeeded, SetEpochParamsSnapshot. keeps_steps.
  by apply keeps_modify.
Qed.
Lemma keeps_UpdateParams authority msg :
  params_typed (up_Params msg) → keeps epochs_ok (AuditUpdateParams authority msg).
Proof.
  intros Ht. unfold AuditUpdateParams, AuditSetParams. keeps_step; [keeps_steps|].
  rewrite WithDefaults_idem. apply keeps_bind_of_result. intros [] Hv. keeps_steps.
  apply keeps_modify. intros s [Ha _]. split; [done|]. eexists. split; [done|].
  split_and!; [apply WithDefaults_idem|by apply WithDefaults_typed|done].
Qed.
#[local] Hint Resolve keeps_CreateSnapshot : keeps.

Lemma keeps_BeginBlocker `{Blake3} `{ParamsCodec} ctx : keeps audit_ok (AuditBeginBlocker ctx).
Proof.
  unfold AuditBeginBlocker, CreateEpochAnchorIfNeeded. do 2 (keeps_step; [keeps_steps|]).
  destruct (_ =? _); [|keeps_steps]. keeps_step; [apply keeps_on_epochs, keeps_gets|].
  destruct a1; [keeps_steps|]. do 3 (keeps_step; [keeps_steps|]).
  apply keeps_bind_of_result. intros l Hl%sorted_accounts_ok. keeps_steps.
  by apply keeps_on_epochs, keeps_SetEpochAnchor.
Qed.

Lemma keeps_AuditCreateEvidence `{Blake3} `{EvidenceCodec} addr ctx reporter subject action ty m :
  keeps audit_ok (AuditCreateEvidence addr ctx reporter subject action ty m).
Proof. unfold AuditCreateEvidence, check_challenge_failure. keeps_steps. Qed.

(** *** The end of an epoch, up to the heal operations

    These steps also leave the heal operations, the epochs and the tickets as they
    are. *)
Record calm (h : heal_store) (e : epoch_store) (T : gmap string TicketDeteriorationState)
    (s : audit_store) : Prop := {
  calm_ok : audit_ok s;
  calm_heal : au_heal s = h;
  calm_epochs : au_epochs s = e;
  calm_tickets : sc_tickets (au_scores s) = T
}.

Section Calm.
Context (h : heal_store) (e : epoch_store) (T : gmap string TicketDeteriorationState).
Lemma keeps_calm_on_scores {A} (m : M score_store A) :
  keeps scores_ok m → keeps (λ s, sc_tickets s = T) m → keeps (calm h e T) (on_scores m).
Proof.
  intros H1 H2. apply (keeps_zoom _ (λ s, scores_ok s ∧ sc_tickets s = T)).
  - by intros ? [[] ???].
  - by intros ? ? [[] ???] [].
  - intros t [??]. split; [by apply H1|by apply H2].
Qed.
Lemma keeps_calm_on_postpone {A} (m : M postpone_store A) : keeps (calm h e T) (on_postpone m).
Proof. apply keeps_zoom_frame. by intros ? ? [[] ???]. Qed.
Lemma keeps_calm_on_sn {A} (m : M sn_store A) : keeps (calm h e T) (on_sn m).
Proof. apply keeps_zoom_frame. by intros ? ? [[] ???]. Qed.
#[local] Hint Resolve keeps_calm_on_postpone keeps_calm_on_sn : keeps.
Lemma keeps_calm_with_validator sn f : keeps (calm h e T) (with_validator sn f).
Proof. unfold with_validator. keeps_steps. Qed.
#[local] Hint Resolve keeps_calm_with_validator : keeps.

Lemma keeps_calm_reporter epochID account delta decay increments params :
  in_u64 epochID →
  keeps (calm h e T) (on_scores (applyReporterReliabilityDelta epochID account delta decay
                                   increments params)).
Proof.
  intros He. apply keeps_calm_on_scores; [by apply keeps_applyReporterReliabilityDelta|].
  unfold applyReporterReliabilityDelta, SetReporterReliabilityState. keeps_steps.
  by apply keeps_modify.
Qed.
#[local] Hint Resolve keeps_calm_reporter : keeps.

Lemma keeps_applyBand ctx sn epochID params :
  keeps (calm h e T) (applyStorageTruthBandAtEpochEnd ctx sn epochID params).
Proof.
  unfold applyStorageTruthBandAtEpochEnd, setSupernodePostponed.
  destruct (decide _); [apply keeps_ret|]. apply keeps_bind_gets. intros s Hs.
  destruct (sc_nodes (au_scores s) !! _) as [st|] eqn:Est; [|apply keeps_ret].
  pose proof (scores_nodes _ (ok_scores _ (calm_ok _ _ _ _ Hs)) _ _ Est) as Hst.
  keeps_steps. apply keeps_calm_on_scores; [|by apply keeps_modify].
  apply keeps_SetNodeSuspicionState. destruct Hst as [Hk ? ? Hc].
  split; try done. cbn in *. split_forall; done.
Qed.
#[local] Hint Resolve keeps_applyBand : keeps.

Lemma keeps_EnforceEpochEnd ctx epochID params :
  keeps (calm h e T) (EnforceEpochEnd ctx epochID params).
Proof.
  unfold EnforceEpochEnd, enforce_active, enforce_postponed, setSupernodePostponed,
    recoverSupernodeFromPostponed, recoverSupernodeActive, markSupernodeStorageFull.
  keeps_steps.
Qed.
Lemma keeps_Divergence sort epochID params :
  in_u64 epochID → keeps (calm h e T) (ApplyReporterDivergenceAtEpochEnd sort epochID params).
Proof. intros He. unfold ApplyReporterDivergenceAtEpochEnd, penalize_divergence. keeps_steps. Qed.
Lemma keeps_CleanEpoch epochID params :
  in_u64 epochID → keeps (calm h e T) (ApplyReporterCleanEpochRecoveryAtEpochEnd epochID params).
Proof.
  intros He. unfold ApplyReporterCleanEpochRecoveryAtEpochEnd, recover_clean_epoch. keeps_steps.
Qed.
End Calm.
End Handlers.
