(* ===== verification/HealEpoch.v ===== *)
(** * x/audit: heal operations at the end of an epoch

    Expiry, scheduling and pruning keep the invariant of the module, and after them
    no operation is open past its deadline. *)
From Stdlib Require Import ZArith Lia.
From stdpp Require Import base numbers strings list gmap sorting sets.
From S2P Require Import Prelude Sdk SupernodeTypes Supernode AuditParam AuditTypes Epoch EpochThm.
From S2P Require Import GoHash Scoring AuditFacts ScoreKeeper HealOps HealMsg AuditReport.
From S2P Require Import AuditEvidence Enforcement AuditEnd ScoreInv AuditSys HealInv.
Open Scope Z_scope.

(** ** Participants *)
Lemma wrap_mod (n a b : nat) :
  (a < n)%nat → (b < n)%nat → ((a + b) mod n = if a + b <? n then a + b else a + b - n)%nat.
Proof.
  intros Ha Hb. destruct (Nat.ltb_spec (a + b) n); [by apply Nat.mod_small|].
  symmetry. apply (Nat.mod_unique _ _ 1); lia.
Qed.

(** Among distinct accounts the healer is not one of the verifiers, who are
    distinct too. *)
Lemma participants_distinct active ticketID epochID params healer verifiers :
  NoDup active → assignStorageTruthHealParticipants active ticketID epochID params = (healer, verifiers) →
  verifiers ≠ [] →
  healer ∈ active ∧ verifiers ⊆ active ∧ healer ∉ verifiers ∧ NoDup verifiers.
Proof.
  intros Hnd Ha Hne. unfold assignStorageTruthHealParticipants in Ha.
  destruct active as [|a [|b l]]; [by injection Ha as <- <-|by injection Ha as <- <-|].
  set (active := a :: b :: l) in *.
  set (idx := Z.to_nat (deterministicStorageTruthIndex ticketID epochID (zlen active))) in *.
  set (count := Z.to_nat _) in Ha. set (n := length active) in *.
  assert (2 ≤ n)%nat as Hn by (subst n active; simpl; lia).
  assert (idx < n)%nat as Hidx.
  { subst idx. unfold deterministicStorageTruthIndex. fold n. unfold zlen. fold n.
    destruct (Z.leb_spec (Z.of_nat n) 1); [lia|].
    pose proof (Z.mod_pos_bound (fnv64a (string_bytes ticketID ++ [0] ++
      string_bytes (FormatInt epochID))) (Z.of_nat n) ltac:(lia)). lia. }
  assert (count ≤ n - 1)%nat as Hcount.
  { subst count. unfold zlen. fold n. destruct (Z.ltb_spec (Z.of_nat n - 1)
      (if StorageTruthHealVerifierCount params <=? 0 then DefaultStorageTruthHealVerifierCount
       else StorageTruthHealVerifierCount params)); lia. }
  clearbody count idx. injection Ha as Hhealer Hver.
  set (f i := default ""%string (active !! ((idx + i) mod n)%nat)) in *.
  assert (∀ i, (i < n)%nat → active !! ((idx + i) mod n)%nat = Some (f i)) as Hf.
  { intros i Hi. unfold f. destruct (lookup_lt_is_Some_2 active ((idx + i) mod n)) as [x Hx];
      [apply Nat.mod_upper_bound; lia|]. by rewrite Hx. }
  assert (∀ i j, (i < n)%nat → (j < n)%nat → f i = f j → i = j) as Hinj.
  { intros i j Hi Hj Hij. pose proof (Hf i Hi) as E1. pose proof (Hf j Hj) as E2.
    rewrite Hij in E1. pose proof (NoDup_lookup _ _ _ _ Hnd E1 E2) as Heq.
    rewrite !wrap_mod in Heq by lia.
    destruct (Nat.ltb_spec (idx + i) n), (Nat.ltb_spec (idx + j) n); lia. }
  assert (healer = f 0%nat) as ->.
  { rewrite <- Hhealer. unfold f. rewrite Nat.add_0_r, Nat.mod_small by done. done. }
  rewrite <- Hver. split_and!.
  - by apply list_elem_of_lookup_2 with ((idx + 0) mod n)%nat, Hf; lia.
  - intros x (i & -> & Hi)%list_elem_of_fmap. apply elem_of_seq in Hi.
    apply list_elem_of_lookup_2 with ((idx + i) mod n)%nat, Hf. lia.
  - intros (i & Hi & Hin)%list_elem_of_fmap. apply elem_of_seq in Hin.
    apply Hinj in Hi; lia.
  - apply NoDup_fmap_2_strong; [|apply NoDup_seq].
    intros i j Hi%elem_of_seq Hj%elem_of_seq. apply Hinj; lia.
Qed.

(** ** A new operation *)
Lemma GetNext_pos s : heal_ok s → 0 < GetNextHealOpID s.
Proof.
  intros Hs. pose proof (heal_counter _ _ Hs) as Hc. unfold GetNextHealOpID.
  destruct (hs_next s) as [m|].
  - destruct Hc as [Hm _]. by destruct (Z.eqb_spec m 0); [lia|].
  - unfold deriveNextHealOpID, max_heal_id. rewrite Hc, map_to_list_empty. by vm_compute.
Qed.
Lemma GetNext_fresh s id op : heal_ok s → hs_ops s !! id = Some op → 0 < id < GetNextHealOpID s.
Proof.
  intros Hs Hop. pose proof (heal_counter _ _ Hs) as Hc. unfold GetNextHealOpID.
  destruct (hs_next s) as [m|]; [|by rewrite Hc, lookup_empty in Hop].
  destruct Hc as [Hm Hc]. destruct (Z.eqb_spec m 0); [lia|eauto].
Qed.

(** The next id is a function of the counter. *)
Lemma GetNext_counter s s' :
  heal_ok s → heal_ok s' → hs_next s' = hs_next s → GetNextHealOpID s' = GetNextHealOpID s.
Proof.
  intros Hs Hs' Hn. pose proof (heal_counter _ _ Hs) as Hc. pose proof (heal_counter _ _ Hs') as Hc'.
  rewrite Hn in Hc'. unfold GetNextHealOpID, deriveNextHealOpID, max_heal_id. rewrite Hn.
  destruct (hs_next s) as [m|]; [|by rewrite Hc, Hc'].
  destruct Hc as [Hm _]. by destruct (Z.eqb_spec m 0); [lia|].
Qed.

Definition with_next (id : Z) (s : heal_store) : heal_store :=
  HealStore (hs_ops s) (hs_by_ticket s) (hs_by_status s) (hs_votes s) (Some id).

Lemma heal_ok_new s op :
  heal_ok s → ho_HealOpId op = GetNextHealOpID s →
  ho_HealerSupernodeAccount op ∉ ho_VerifierSupernodeAccounts op →
  NoDup (ho_VerifierSupernodeAccounts op) → ho_VerifierSupernodeAccounts op ≠ [] →
  ho_HealerSupernodeAccount op ≠ ""%string → ho_TicketId op ≠ ""%string →
  ho_Status op = HEAL_SCHEDULED → ho_DeadlineEpochId op ≠ 0 →
  (∀ id o, hs_ops s !! id = Some o → open_op o → ho_TicketId o ≠ ho_TicketId op) →
  heal_ok (with_next (ho_HealOpId op + 1) (put_op op s)).
Proof.
  intros Hs Hid Hh Hnd Hne Hn1 Hn2 Hst Hdl Hfree.
  pose proof (GetNext_pos s Hs) as Hpos. pose proof (GetNext_fresh s) as Hfresh.
  destruct Hs as [H1 H2 H3 H4 H5 H6].
  assert (hs_ops s !! ho_HealOpId op = None) as Hnone.
  { destruct (hs_ops s !! ho_HealOpId op) as [o|] eqn:Eo; [|done].
    pose proof (Hfresh _ _ ltac:(by split) Eo). lia. }
  assert (∀ i o, hs_ops s !! i = Some o → ho_HealOpId o = i) as Hids
    by (intros i o Ho; apply (H1 i o Ho)).
  assert (∀ v, hs_votes s !! (ho_HealOpId op, v) = None) as Hnov.
  { intros v. destruct (hs_votes s !! _) as [b|] eqn:Ev; [|done].
    destruct (H5 _ _ _ Ev) as (_ & o & Ho & _). congruence. }
  split.
  - intros i o. cbn [with_next hs_ops]. rewrite put_op_lookup. case_decide as Hi.
    + intros [= <-]. subst i. split; rewrite ?Hst; done.
    + intros Ho. apply (op_ok_frame (λ _, False) _ s); [done..|by apply H1].
  - cbn [with_next hs_next hs_ops]. split; [lia|]. intros i o. rewrite put_op_lookup.
    case_decide as Hi; [intros _; lia|]. intros Ho.
    pose proof (Hfresh _ _ ltac:(by split) Ho). lia.
  - apply (index_put ho_TicketId (hs_ops s) (hs_by_ticket s) op Hids H3).
  - apply (index_put ho_Status (hs_ops s) (hs_by_status s) op Hids H4).
  - intros i v b Hv. destruct (H5 i v b Hv) as (Hv0 & o & Ho & Hin). split; [done|].
    exists o. split; [|done]. cbn [with_next hs_ops]. rewrite put_op_lookup.
    case_decide as Hi; [|done]. subst. congruence.
  - intros i1 i2 o1 o2. cbn [with_next hs_ops]. rewrite !put_op_lookup.
    case_decide as C1; case_decide as C2; [congruence| | |by apply H6].
    + intros [= <-] Ho2 _ Op2 Ht. by destruct (Hfree _ _ Ho2 Op2).
    + intros Ho1 [= <-] Op1 _ Ht. by destruct (Hfree _ _ Ho1 Op1).
Qed.

(** ** Expiry *)
(** What a step of the epoch end leaves alone. *)
Record framed (s s' : audit_store) : Prop := {
  fr_next : hs_next (au_heal s') = hs_next (au_heal s);
  fr_epochs : au_epochs s' = au_epochs s;
  fr_sn : au_sn s' = au_sn s;
  fr_tickets : dom (sc_tickets (au_scores s')) = dom (sc_tickets (au_scores s))
}.
Lemma framed_trans s1 s2 s3 : framed s1 s2 → framed s2 s3 → framed s1 s3.
Proof. intros [] []. split; congruence. Qed.

(** An open operation is due when its deadline has come; it is then closed as
    EXPIRED, and every other operation is left as it is. *)
Definition due (epochID : Z) (op : HealOp) : Prop := open_op op ∧ ho_DeadlineEpochId op ≤ epochID.
Definition expired_or_same (epochID : Z) (op op' : HealOp) : Prop :=
  (¬ due epochID op ∧ op' = op) ∨ (due epochID op ∧ ho_Status op' = HEAL_EXPIRED).

Lemma expired_or_same_open epochID op op' :
  expired_or_same epochID op op' → open_op op' → op' = op ∧ epochID < ho_DeadlineEpochId op.
Proof.
  intros [[Hn ->]|[_ Hst]] Ho; [|by unfold open_op in Ho; rewrite Hst in Ho].
  split; [done|]. unfold due in Hn. destruct (Z.leb_spec (ho_DeadlineEpochId op) epochID); tauto.
Qed.

Section Expire.
Context `{SdkAddress} `{LegacyDecOps}.
Context (ctx : Ctx) (epochID : Z) (params : AuditParams) (Hepoch : in_u64 epochID).

Lemma wp_expire_ticket op id (t : st audit_store) :
  audit_ok (store t) → ho_HealerSupernodeAccount op ≠ ""%string → ho_TicketId op ≠ ""%string →
  wp (match sc_tickets (au_scores (store t)) !! ho_TicketId op with
      | Some tk =>
          let cooldownUntil := u64 (epochID + StorageTruthProbationEpochs params) in
          let tk := td_with_heal tk
                      (if td_ActiveHealOpId tk =? id then 0 else td_ActiveHealOpId tk)
                      (addInt64Saturated (td_DeteriorationScore tk) 15)
                      (if td_ProbationUntilEpoch tk <? cooldownUntil then cooldownUntil
                       else td_ProbationUntilEpoch tk) in
          _ ← on_scores (SetTicketDeteriorationState tk);
          on_facts (setStorageTruthFailedHeal (ho_HealerSupernodeAccount op) epochID
                      (ho_TicketId op))
      | None => mret tt
      end) t
    (λ r t', r = Ok tt ∧ audit_ok (store t') ∧ framed (store t) (store t')
             ∧ au_heal (store t') = au_heal (store t)).
Proof.
  intros Hok Hn1 Hn2. destruct (sc_tickets _ !! _) as [tk|] eqn:Etk.
  2: { apply wp_ret. split_and!; done. }
  pose proof (scores_tickets _ (ok_scores _ Hok) _ _ Etk) as Htk.
  cbv zeta. set (tk' := td_with_heal _ _ _ _).
  assert (ticket_ok (ho_TicketId op) tk') as Htk'
    by (apply ticket_failed_ok; [done|by eapply active_in_u64|apply u64_range]).
  pose proof (ticket_key _ _ Htk') as Hkey. clearbody tk'. destruct Hok as [Hh Hn He Hs].
  apply wp_bind, wp_zoom, wp_modify. cbn [store events au_scores].
  eapply (wp_mono _ _ (λ r t', r = Ok tt ∧ ∃ facts, store t' = set_facts facts
    (set_scores (ScoreStore (sc_nodes (au_scores (store t))) (sc_reporters (au_scores (store t)))
       (<[td_TicketId tk' := tk']> (sc_tickets (au_scores (store t))))
       (sc_artifacts (au_scores (store t)))) (store t)))).
  { apply wp_zoom. unfold setStorageTruthFailedHeal. repeat wp_step;
      [by split; [|eexists]|..]; by rewrite ?bool_decide_eq_true_2 in * by done. }
  intros r t' (-> & facts & ->). split_and!; [done| |split; try done|done].
  - split; try done. cbn. destruct Hs as [S1 S2 S3]. split; try done. cbn. intros k st.
    rewrite lookup_insert_Some. intros [[<- <-]|[_ ?]]; [by rewrite Hkey|auto].
  - cbn. rewrite dom_insert_L, Hkey. apply elem_of_dom_2 in Etk. set_solver.
Qed.

(** One operation: it is final, or still open and not due. *)
Definition expire_post (op : HealOp) (s s' : audit_store) : Prop :=
  audit_ok s' ∧ framed s s' ∧
  (∀ i, i ≠ ho_HealOpId op → hs_ops (au_heal s') !! i = hs_ops (au_heal s) !! i) ∧
  ∃ op', hs_ops (au_heal s') !! ho_HealOpId op = Some op' ∧ expired_or_same epochID op op'.

Lemma wp_expire_one op (t : st audit_store) :
  audit_ok (store t) → hs_ops (au_heal (store t)) !! ho_HealOpId op = Some op →
  wp (expire_heal_op ctx epochID params op) t (λ r t', r = Ok tt ∧ expire_post op (store t) (store t')).
Proof.
  intros Hok Hop. unfold expire_heal_op.
  destruct (op_names _ _ _ _ (heal_ops _ _ (ok_heal _ Hok) _ _ Hop)) as [Hn1 Hn2].
  pose proof (op_deadline _ _ _ _ (heal_ops _ _ (ok_heal _ Hok) _ _ Hop)) as Hdl.
  assert (¬ due epochID op → expire_post op (store t) (store t)) as Hsame.
  { intros Hd. split_and!; [done|by split|done|]. exists op. split; [done|by left]. }
  destruct (isHealOpFinalStatus (ho_Status op)) eqn:Efin.
  { apply wp_ret. split; [done|]. apply Hsame. unfold due, open_op. rewrite Efin. by intros [? _]. }
  destruct (Z.eqb_spec (ho_DeadlineEpochId op) 0) as [|_]; [done|].
  destruct (Z.ltb_spec epochID (ho_DeadlineEpochId op)) as [Hlt|Hdue]; simpl orb; cbv iota.
  { apply wp_ret. split; [done|]. apply Hsame. unfold due. lia. }
  clear Hsame. cbv zeta. set (op' := ho_with op _ _ _ _).
  apply wp_bind, wp_on_heal_SetHealOp. set (t1 := St _ _).
  assert (audit_ok (store t1)) as Hok1.
  { destruct Hok as [Hh ???]. split; try done. cbn [t1 store set_heal au_heal].
    apply (heal_ok_advance (λ _, False) _ (ho_HealOpId op) op _ Hh Hop); [|done]. by split. }
  assert (∀ t2 : st audit_store, audit_ok (store t2) ∧ framed (store t1) (store t2)
            ∧ au_heal (store t2) = au_heal (store t1) → expire_post op (store t) (store t2)) as Hpost.
  { intros t2 (Hok2 & Hfr & Hh2). unfold expire_post. rewrite Hh2. split_and!.
    - done.
    - by apply (framed_trans _ (store t1)).
    - intros i Hi. cbn [t1 store set_heal au_heal]. rewrite put_op_lookup. by case_decide.
    - exists op'. cbn [t1 store set_heal au_heal]. rewrite put_op_lookup. case_decide; [|done].
      split; [done|]. right. by split. }
  apply wp_bind, wp_gets, wp_bind. eapply wp_mono; [by apply (wp_expire_ticket op')|].
  intros r t2 (-> & Ht2). apply wp_emit. split; [done|]. by apply Hpost.
Qed.

(** All of them. *)
Lemma wp_expire_due l (t : st audit_store) :
  audit_ok (store t) → NoDup (ho_HealOpId <$> l) →
  (∀ op, op ∈ l → hs_ops (au_heal (store t)) !! ho_HealOpId op = Some op) →
  wp (for_each (expire_heal_op ctx epochID params) l) t (λ r t',
    r = Ok tt ∧ audit_ok (store t') ∧ framed (store t) (store t') ∧
    (∀ i, i ∉ ho_HealOpId <$> l →
       hs_ops (au_heal (store t')) !! i = hs_ops (au_heal (store t)) !! i) ∧
    (∀ op, op ∈ l → ∃ op', hs_ops (au_heal (store t')) !! ho_HealOpId op = Some op' ∧
                           expired_or_same epochID op op')).
Proof.
  revert t. induction l as [|op l IH]; intros t Hok Hnd Hl; cbn [for_each].
  { apply wp_ret. split_and!; [done|done|by split|done|]. by intros ? ?%not_elem_of_nil. }
  apply NoDup_cons in Hnd as [Hnew Hnd]. pose proof (Hl op ltac:(left)) as Hop.
  apply wp_bind. eapply wp_mono; [by apply wp_expire_one|].
  intros r t1 (-> & Hok1 & Hfr1 & Hother & op1 & Hop1 & Hrel).
  eapply wp_mono; [apply (IH t1 Hok1 Hnd)|].
  - intros o Ho. rewrite Hother; [apply Hl; by right|].
    intros Heq. apply Hnew. rewrite <- Heq. by apply list_elem_of_fmap_2.
  - intros r t' (-> & Hok' & Hfr' & Hrest & Hin). split_and!; [done|done|by eapply framed_trans| |].
    + intros i [Hi1 Hi2]%not_elem_of_cons. rewrite (Hrest i Hi2). by apply Hother.
    + intros o [->|Ho]%elem_of_cons; [|by apply Hin]. exists op1. by rewrite (Hrest _ Hnew).
Qed.
End Expire.

(** ** Candidates *)
Section Candidates.
Context (epochID : Z) (params : AuditParams).

(** The ticket ids of a list of records, and those that have an open operation. *)
Definition open_tickets (open : list HealOp) : list string := ho_TicketId <$> open.

Lemma td_with_active_ok t st : ticket_ok t st → ticket_ok t (td_with_active st 0).
Proof.
  intros Hst. pose proof Hst as [_ Hs He _]. apply ticket_with_heal_ok; auto with ranges.
  by split_forall.
Qed.

Lemma wp_heal_candidates open tickets (t : st audit_store) :
  audit_ok (store t) →
  Forall (λ tk, ticket_ok (td_TicketId tk) tk
                ∧ td_TicketId tk ∈ dom (sc_tickets (au_scores (store t)))) tickets →
  wp (heal_candidates epochID params open tickets) t (λ r t',
    audit_ok (store t') ∧ framed (store t) (store t') ∧
    au_heal (store t') = au_heal (store t) ∧ au_sn (store t') = au_sn (store t) ∧
    ∃ cands, r = Ok cands ∧ (td_TicketId <$> cands) `sublist_of` (td_TicketId <$> tickets) ∧
      Forall (λ c, td_TicketId c ∉ open_tickets open ∧ td_TicketId c ≠ ""%string) cands).
Proof.
  revert t. induction tickets as [|tk tickets IH]; intros t Hok Hl; cbn [heal_candidates].
  { apply wp_ret. split_and!; try done. exists []. split_and!; [done|constructor|constructor]. }
  apply Forall_cons in Hl as [[Htk Hdom] Hl].
  assert (∀ m : M audit_store _, m = heal_candidates epochID params open tickets →
    wp m t (λ r t', audit_ok (store t') ∧ framed (store t) (store t') ∧
      au_heal (store t') = au_heal (store t) ∧ au_sn (store t') = au_sn (store t) ∧
      ∃ cands, r = Ok cands
        ∧ (td_TicketId <$> cands) `sublist_of` (td_TicketId <$> tk :: tickets)
        ∧ Forall (λ c, td_TicketId c ∉ open_tickets open ∧ td_TicketId c ≠ ""%string) cands))
    as Hskip.
  { intros m ->. eapply wp_mono; [by apply IH|].
    intros r t' (? & ? & ? & ? & cands & ? & ? & ?). split_and!; try done. exists cands.
    split_and!; [done| |done]. by apply sublist_cons. }
  destruct (bool_decide (td_TicketId tk = ""%string)) eqn:Eid; [by apply Hskip|].
  apply bool_decide_eq_false in Eid. destruct (false || _ || _); [by apply Hskip|].
  destruct (_ && _); [by apply Hskip|]. clear Hskip.
  cbv zeta. set (stale := negb _). set (tk' := if stale then _ else tk).
  assert (td_TicketId tk' = td_TicketId tk) as Hid by (subst tk'; by destruct stale).
  apply wp_bind. eapply (wp_mono _ _ (λ r t1, r = Ok tt ∧ audit_ok (store t1)
    ∧ framed (store t) (store t1) ∧ au_heal (store t1) = au_heal (store t)
    ∧ au_sn (store t1) = au_sn (store t))).
  { destruct stale; [|by apply wp_ret; split_and!]. apply wp_zoom, wp_modify. destruct Hok as [? ? ? [S1 S2 S3]].
    split_and!; [done| |split; try done|done|done].
    - split; try done. split; try done. cbn. intros k st.
      rewrite lookup_insert_Some. intros [[<- <-]|[_ ?]]; [by apply td_with_active_ok|auto].
    - cbn. rewrite dom_insert_L. set_solver. }
  intros r t1 (-> & Hok1 & Hfr1 & Hh1 & Hsn1). apply wp_bind.
  eapply wp_mono; [apply (IH t1 Hok1); by rewrite (fr_tickets _ _ Hfr1)|].
  intros r t2 (Hok2 & Hfr2 & Hh2 & Hsn2 & cands & -> & Hsub & Hopen).
  apply wp_ret. split_and!; [done|by eapply framed_trans|congruence|congruence|].
  eexists. split; [done|]. destruct (bool_decide _) eqn:Eopen; simpl.
  { split; [by apply sublist_cons|done]. }
  destruct (isHealEligible tk'); simpl; [|split; [by apply sublist_cons|done]]. rewrite Hid.
  split; [by apply sublist_skip|]. constructor; [|done]. rewrite Hid.
  by rewrite Hid in Eopen; apply bool_decide_eq_false in Eopen.
Qed.
End Candidates.

(** ** Scheduling *)

(** Scheduling adds operations with a later deadline and changes no other. *)
Definition only_scheduled (epochID : Z) (s s' : heal_store) : Prop :=
  (∀ i o, hs_ops s !! i = Some o → hs_ops s' !! i = Some o) ∧
  ∀ i o, hs_ops s' !! i = Some o →
    hs_ops s !! i = Some o ∨ (ho_Status o = HEAL_SCHEDULED ∧ epochID < ho_DeadlineEpochId o).
Lemma only_scheduled_refl epochID s : only_scheduled epochID s s.
Proof. split; auto. Qed.
#[local] Hint Resolve only_scheduled_refl : core.

Section Schedule.
Context `{SdkAddress} `{LegacyDecOps}.
Context (ctx : Ctx) (epochID : Z) (params : AuditParams).
Definition deadline_of : Z := epochID + or_default (StorageTruthHealDeadlineEpochs params) 3.
Hypothesis Hdeadline : epochID < deadline_of ∧ in_u64 deadline_of ∧ 0 ≤ epochID.

(** No operation is open for the ticket. *)
Definition free_ticket (s : heal_store) (ticketID : string) : Prop :=
  ∀ id o, hs_ops s !! id = Some o → open_op o → ho_TicketId o ≠ ticketID.

Definition new_op (id : Z) (ticketID healer : string) (verifiers : list string) : HealOp :=
  mkHealOp id ticketID epochID healer verifiers HEAL_SCHEDULED (height_u64 ctx) (height_u64 ctx)
    (u64 deadline_of) "" "".

(** The writes for one candidate. *)
Lemma wp_schedule_one id ticketID healer verifiers (k : M audit_store unit) (t : st audit_store) Q :
  audit_ok (store t) → id = GetNextHealOpID (au_heal (store t)) → id + 1 < 2 ^ 64 →
  healer ∉ verifiers → NoDup verifiers → verifiers ≠ [] → healer ≠ ""%string →
  ticketID ≠ ""%string → ticketID ∈ dom (sc_tickets (au_scores (store t))) →
  free_ticket (au_heal (store t)) ticketID →
  (∀ t', audit_ok (store t') →
     dom (sc_tickets (au_scores (store t'))) = dom (sc_tickets (au_scores (store t))) →
     au_heal (store t') = with_next (id + 1)
       (put_op (new_op id ticketID healer verifiers) (au_heal (store t))) →
     wp k t' Q) →
  wp (_ ← on_heal (SetHealOp (new_op id ticketID healer verifiers));
      _ ← on_heal (SetNextHealOpID (u64 (id + 1)));
      ticket ← gets (λ s, sc_tickets (au_scores s) !! ticketID);
      tk ← of_option (ErrOther "ticket deterioration state not found") ticket;
      _ ← on_scores (SetTicketDeteriorationState (td_with_active tk id)); k) t Q.
Proof.
  intros Hok Hid Hlt Hh Hnd Hne Hn1 Hn2 [tk Htk]%elem_of_dom Hfree HOk.
  set (op := new_op id ticketID healer verifiers) in *.
  pose proof (GetNext_pos _ (ok_heal _ Hok)) as Hpos. rewrite <- Hid in Hpos.
  assert (u64 deadline_of = deadline_of) as Hu by (apply u64_small; apply Hdeadline).
  assert (heal_ok (with_next (id + 1) (put_op op (au_heal (store t))))) as Hh'.
  { apply (heal_ok_new _ op); try done; [apply Hok|]. cbn. rewrite Hu. lia. }
  destruct Hok as [_ _ He Hs].
  apply wp_bind, wp_on_heal_SetHealOp. apply wp_bind, wp_zoom, wp_modify.
  rewrite (u64_small (id + 1)) by (unfold in_u64; lia).
  apply wp_bind, wp_gets. cbn [store set_heal au_scores].
  assert (next_ok (with_next (id + 1) (put_op op (au_heal (store t))))) as Hnx.
  { intros m [= <-]. unfold in_u64. lia. }
  rewrite Htk. apply wp_bind, wp_ret.
  pose proof (scores_tickets _ Hs _ _ Htk) as Hst. pose proof Hst as [_ Hsc Hep _].
  apply wp_bind, wp_zoom, wp_modify, HOk; [| |done].
  - split; try done. destruct Hs as [S1 S2 S3]. split; try done. cbn.
    intros tid st. rewrite lookup_insert_Some. intros [[<- <-]|[_ ?]]; [|auto].
    rewrite (ticket_key _ _ Hst). apply ticket_with_heal_ok; [done| |done|by split_forall].
    unfold in_u64. lia.
  - cbn. rewrite dom_insert_L, (ticket_key _ _ Hst). apply elem_of_dom_2 in Htk. set_solver.
Qed.

Lemma put_op_free op s ticketID :
  free_ticket s ticketID → ho_TicketId op ≠ ticketID → free_ticket (with_next (ho_HealOpId op + 1) (put_op op s)) ticketID.
Proof.
  intros Hf Hne i o. cbn [with_next hs_ops]. rewrite put_op_lookup. case_decide; [|by apply Hf].
  by intros [= <-].
Qed.

Lemma wp_schedule_all active ineligible scheduled cands (t : st audit_store) :
  audit_ok (store t) → NoDup active ∧ ""%string ∉ active → NoDup (td_TicketId <$> cands) →
  Forall (λ c, free_ticket (au_heal (store t)) (td_TicketId c)) cands →
  Forall (λ c, td_TicketId c ≠ ""%string ∧
               td_TicketId c ∈ dom (sc_tickets (au_scores (store t)))) cands →
  GetNextHealOpID (au_heal (store t)) + zlen cands < 2 ^ 64 →
  wp (schedule_candidates ctx epochID params active ineligible scheduled cands) t (λ r t',
    r = Ok tt ∧ audit_ok (store t') ∧
    only_scheduled epochID (au_heal (store t)) (au_heal (store t'))).
Proof.
  intros Hok [Hnd Hempty]. revert scheduled t Hok.
  induction cands as [|c cands IH]; intros scheduled t Hok Hids Hfree Hknown Hroom;
    cbn [schedule_candidates]; [apply wp_ret; auto|].
  apply NoDup_cons in Hids as [Hnew Hids]. apply Forall_cons in Hfree as [Hc Hfree].
  apply Forall_cons in Hknown as [[Hcn Hcd] Hknown].
  assert (GetNextHealOpID (au_heal (store t)) + 1 + zlen cands < 2 ^ 64) as Hroom'
    by (unfold zlen in *; simpl in Hroom; lia).
  destruct (_ <=? scheduled); [apply wp_ret; auto|].
  cbv zeta. set (eligible := filter _ active).
  assert (NoDup eligible) as Hel by by apply NoDup_filter.
  assert (""%string ∉ eligible) as Hele by by intros [_ ?]%list_elem_of_filter.
  destruct eligible as [|a l] eqn:El; [apply wp_bind, wp_emit, (IH _ (St _ _)); cbn [store]; try done; lia|].
  rewrite <- El in *. clear a l El. clearbody eligible.
  destruct (assignStorageTruthHealParticipants eligible _ _ _) as [healer verifiers] eqn:Ea.
  destruct verifiers as [|v0 vs] eqn:Ev.
  { apply wp_bind, wp_emit, (IH _ (St _ _)); cbn [store]; try done; lia. }
  rewrite <- Ev in *. assert (verifiers ≠ []) as Hne by by rewrite Ev. clear v0 vs Ev.
  destruct (participants_distinct _ _ _ _ _ _ Hel Ea Hne) as (Hhin & _ & Hhv & Hvnd).
  assert (healer ≠ ""%string) as Hhn by congruence.
  apply wp_bind, wp_gets. set (id := GetNextHealOpID (au_heal (store t))) in *.
  apply (wp_schedule_one id (td_TicketId c) healer verifiers); try done;
    [unfold zlen in *; lia|].
  intros t' Hok' Hdom Hh'. apply wp_bind, wp_emit. eapply wp_mono; [apply (IH _ (St _ _))|].
  - done.
  - done.
  - cbn [store]. rewrite Hh'. apply Forall_forall. intros c' Hin.
    rewrite Forall_forall in Hfree. apply (put_op_free (new_op _ _ _ _)); [by apply Hfree|].
    cbn. intros Heq. apply Hnew. rewrite Heq. by apply list_elem_of_fmap_2.
  - cbn [store]. by rewrite Hdom.
  - cbn [store]. rewrite Hh'. unfold GetNextHealOpID. cbn [with_next hs_next].
    pose proof (GetNext_pos _ (ok_heal _ Hok)). fold id in Hroom'.
    destruct (Z.eqb_spec (id + 1) 0); lia.
  - intros r t2 (-> & Hok2 & Hkeep2 & Hops2). split_and!; [done|done|split].
    + intros i o Ho. apply Hkeep2. cbn [store]. rewrite Hh'. cbn [with_next hs_ops].
      rewrite put_op_lookup, decide_False; [done|]. cbn. intros ->.
      apply (GetNext_fresh _ _ _ (ok_heal _ Hok)) in Ho. lia.
    + intros i o Ho. specialize (Hops2 i o Ho). cbn [store] in Hops2. rewrite Hh' in Hops2.
      cbn [with_next hs_ops] in Hops2. rewrite put_op_lookup in Hops2. case_decide; [|done].
      destruct Hops2 as [[= <-]|?]; [|auto]. right. cbn [new_op ho_DeadlineEpochId ho_Status].
      rewrite u64_small by apply Hdeadline. split; [done|apply Hdeadline].
Qed.
End Schedule.

(** ** The whole epoch end *)
Lemma all_ops_ids s :
  heal_ok s → NoDup (ho_HealOpId <$> GetAllHealOps s) ∧
  ∀ op, op ∈ GetAllHealOps s ↔ hs_ops s !! ho_HealOpId op = Some op.
Proof.
  intros Hs. unfold GetAllHealOps.
  assert (∀ id op, hs_ops s !! id = Some op → ho_HealOpId op = id) as Hid
    by (intros id op Hop; apply (heal_ops _ _ Hs id op Hop)).
  split.
  - pose proof (NoDup_kv_iter_keys u64be (hs_ops s)) as Hnd.
    assert (ho_HealOpId <$> (kv_iter u64be (hs_ops s)).*2 = (kv_iter u64be (hs_ops s)).*1) as ->; [|done].
    rewrite <- list_fmap_compose. apply list_fmap_ext. intros i [id op] Hi. simpl.
    apply Hid, (elem_of_kv_iter u64be). by apply list_elem_of_lookup_2 with i.
  - intros op. rewrite list_elem_of_fmap. split.
    + intros ([id op'] & -> & Hin%elem_of_kv_iter). simpl. by rewrite (Hid _ _ Hin).
    + intros Hop. exists (ho_HealOpId op, op). split; [done|]. by apply elem_of_kv_iter.
Qed.

Lemma all_tickets_ids s :
  scores_ok s → NoDup (td_TicketId <$> GetAllTicketDeteriorationStates s) ∧
  Forall (λ tk, ticket_ok (td_TicketId tk) tk ∧ td_TicketId tk ∈ dom (sc_tickets s))
    (GetAllTicketDeteriorationStates s) ∧
  length (GetAllTicketDeteriorationStates s) = size (sc_tickets s).
Proof.
  intros Hs. unfold GetAllTicketDeteriorationStates.
  assert (∀ id tk, sc_tickets s !! id = Some tk → td_TicketId tk = id) as Hid
    by (intros id tk Htk; apply (scores_tickets _ Hs id tk Htk)).
  split_and!.
  - pose proof (NoDup_kv_iter_keys string_bytes (sc_tickets s)) as Hnd.
    assert (td_TicketId <$> (kv_iter string_bytes (sc_tickets s)).*2
            = (kv_iter string_bytes (sc_tickets s)).*1) as ->; [|done].
    rewrite <- list_fmap_compose. apply list_fmap_ext. intros i [id tk] Hi. simpl.
    apply Hid, (elem_of_kv_iter string_bytes). by apply list_elem_of_lookup_2 with i.
  - apply Forall_forall. intros tk ([id tk'] & -> & Hin%elem_of_kv_iter)%list_elem_of_fmap. simpl.
    rewrite (Hid _ _ Hin). split; [by apply (scores_tickets _ Hs)|by apply elem_of_dom_2 in Hin].
  - by rewrite length_fmap, kv_iter_perm, <- length_map_to_list.
Qed.

Lemma ids_left_framed s s' :
  heal_ok (au_heal s) → heal_ok (au_heal s') → framed s s' → ids_left s → ids_left s'.
Proof.
  intros Hs Hs' [Hn _ _ Ht]. unfold ids_left. rewrite (GetNext_counter _ _ Hs Hs' Hn).
  by rewrite <- !size_dom, Ht.
Qed.

Section EpochEnd.
Context `{SdkAddress} `{LegacyDecOps}.

Lemma scheduler_accounts_ok epochID s accounts :
  epochs_ok (au_epochs s) → storageTruthSchedulerAccounts epochID s = Ok accounts →
  NoDup accounts ∧ ""%string ∉ accounts.
Proof.
  intros [Ha _] Hacc. unfold storageTruthSchedulerAccounts, GetEpochAnchor in Hacc.
  assert (∀ set l, match supernodeAccountsFromSet [] set with
            | Ok accounts => Ok (sort_Strings accounts) | Err e => Err e end = Ok l →
            NoDup l ∧ ""%string ∉ l) as Hset.
  { intros set l. destruct (supernodeAccountsFromSet [] set) as [l'|] eqn:El; [|done].
    intros [= <-]. by apply sorted_accounts_ok in El. }
  destruct (es_anchors (au_epochs s) !! epochID) as [a|] eqn:Ea; [|by apply Hset in Hacc].
  case_decide; [by apply Hset in Hacc|]. injection Hacc as <-. by apply (Ha epochID).
Qed.

Lemma sort_stable_Forall {A} (less : A → A → bool) (P : A → Prop) l :
  Forall P l → Forall P (sort_stable less l).
Proof. by rewrite sort_stable_perm. Qed.

(** Scheduling fails only when the accounts of the epoch cannot be read. *)
Definition accounts_read (epochID : Z) (s : audit_store) : Prop :=
  ∃ accounts, storageTruthSchedulerAccounts epochID s = Ok accounts.

Lemma wp_schedule ctx epochID params (t : st audit_store) :
  audit_ok (store t) → epochID < deadline_of epochID params → in_u64 (deadline_of epochID params) →
  0 ≤ epochID → ids_left (store t) →
  wp (scheduleStorageTruthHealOpsAtEpochEnd ctx epochID params) t (λ r t',
    (accounts_read epochID (store t) → r = Ok tt) ∧ audit_ok (store t') ∧
    only_scheduled epochID (au_heal (store t)) (au_heal (store t'))).
Proof.
  intros Hok Hd1 Hd2 He Hids. unfold scheduleStorageTruthHealOpsAtEpochEnd.
  destruct (decide _); [apply wp_ret; auto|]. destruct (_ =? 0); [apply wp_ret; auto|].
  apply wp_bind, wp_gets, wp_bind, wp_of_result.
  2: { intros e Herr. split_and!; auto. intros [accs Hacc]. by rewrite Hacc in Herr. }
  intros accounts Hacc. apply scheduler_accounts_ok in Hacc; [|apply Hok].
  destruct accounts as [|a l] eqn:Eacc; [apply wp_ret; auto|]. rewrite <- Eacc in *.
  clear a l Eacc. apply wp_bind, wp_gets, wp_bind, wp_gets, wp_bind, wp_gets.
  set (open := List.filter _ _). destruct (all_tickets_ids _ (ok_scores _ Hok)) as (Ht1 & Ht2 & Ht3).
  set (tickets := GetAllTicketDeteriorationStates (au_scores (store t))) in *.
  apply wp_bind. eapply wp_mono; [by apply (wp_heal_candidates epochID params open tickets)|].
  intros r t1 (Hok1 & Hfr & Hh & _ & cands & -> & Hsub & Hopen). rewrite <- Hh.
  eapply wp_mono; [apply wp_schedule_all; [done|done|done| | | |]|].
  - rewrite sort_stable_perm. by eapply sublist_NoDup.
  - apply sort_stable_Forall. eapply Forall_impl; [done|]. intros c [Hc _] i o Ho Hop Heq.
    apply Hc. rewrite <- Heq. apply list_elem_of_fmap_2, elem_of_List_filter.
    unfold open_op in Hop. rewrite Hop. split; [done|].
    rewrite Hh in Ho. apply (all_ops_ids _ (ok_heal _ Hok)).
    by rewrite (op_id _ _ _ _ (heal_ops _ _ (ok_heal _ Hok) _ _ Ho)).
  - apply sort_stable_Forall. rewrite (fr_tickets _ _ Hfr). apply Forall_forall.
    intros c Hc. rewrite Forall_forall in Hopen. split; [by apply Hopen|].
    assert (td_TicketId c ∈ td_TicketId <$> tickets) as (tk & -> & Htk)%list_elem_of_fmap
      by by eapply elem_of_sublist; [apply list_elem_of_fmap_2|].
    rewrite Forall_forall in Ht2. by apply Ht2.
  - rewrite Hh. unfold ids_left in Hids. rewrite <- Ht3 in Hids. unfold zlen.
    rewrite sort_stable_perm. apply sublist_length in Hsub. rewrite !length_fmap in Hsub. lia.
  - by intros r t' (-> & ? & ?).
Qed.

Lemma wp_Process ctx epochID params (t : st audit_store) :
  audit_ok (store t) → epochID < deadline_of epochID params → in_u64 (deadline_of epochID params) →
  in_u64 epochID → ids_left (store t) →
  wp (ProcessStorageTruthHealOpsAtEpochEnd ctx epochID params) t (λ r t',
    (accounts_read epochID (store t) → r = Ok tt) ∧ audit_ok (store t') ∧
    (∀ i o, hs_ops (au_heal (store t')) !! i = Some o → open_op o →
       epochID < ho_DeadlineEpochId o) ∧
    (∀ i o, hs_ops (au_heal (store t)) !! i = Some o →
       ∃ o', hs_ops (au_heal (store t')) !! i = Some o' ∧ expired_or_same epochID o o')).
Proof.
  intros Hok Hd1 Hd2 He Hids. unfold ProcessStorageTruthHealOpsAtEpochEnd,
    expireStorageTruthHealOpsAtEpochEnd.
  destruct (all_ops_ids _ (ok_heal _ Hok)) as [Hnd Hin].
  apply wp_bind, wp_bind, wp_gets. eapply wp_mono.
  { apply wp_expire_due; [done|done|done|]. intros op. apply Hin. }
  intros r t1 (-> & Hok1 & Hfr & Hother & Hops).
  assert (∀ i o, hs_ops (au_heal (store t)) !! i = Some o →
    ∃ o', hs_ops (au_heal (store t1)) !! i = Some o' ∧ expired_or_same epochID o o') as Hexp.
  { intros i o Ho. pose proof (op_id _ _ _ _ (heal_ops _ _ (ok_heal _ Hok) _ _ Ho)) as Hid.
    subst i. by apply Hops, Hin. }
  eapply wp_mono; [apply wp_schedule; try done|].
  - apply He.
  - by apply (ids_left_framed (store t)); [apply Hok|apply Hok1|..].
  - intros r t' (Hr & Hok' & Hold & Hnew). split_and!; [|done| |].
    + intros [accs Hacc]. apply Hr. exists accs. revert Hacc. unfold storageTruthSchedulerAccounts.
      by rewrite (fr_epochs _ _ Hfr), (fr_sn _ _ Hfr).
    + intros i o Ho Hop. destruct (Hnew i o Ho) as [Ho1|[_ ?]]; [|done].
      destruct (hs_ops (au_heal (store t)) !! i) as [o0|] eqn:E0.
      * destruct (Hexp i o0 E0) as (o' & Ho' & Hrel). rewrite Ho1 in Ho'. injection Ho' as <-.
        destruct (expired_or_same_open _ _ _ Hrel Hop) as [-> ?]. done.
      * rewrite Hother in Ho1; [congruence|]. intros (o2 & -> & Ho2%Hin)%list_elem_of_fmap.
        congruence.
    + intros i o Ho. destruct (Hexp i o Ho) as (o' & Ho' & Hrel). eauto.
Qed.

(** ** Pruning *)
Lemma delete_op_index {X} `{Countable X} (f : HealOp → X) (ops : gmap Z HealOp)
    (idx : gset (X * Z)) id op :
  (∀ t i, (t, i) ∈ idx ↔ ∃ o, ops !! i = Some o ∧ f o = t) → ops !! id = Some op →
  ∀ t i, (t, i) ∈ idx ∖ {[(f op, id)]} ↔ ∃ o, delete id ops !! i = Some o ∧ f o = t.
Proof.
  intros Hidx Hop t i. rewrite elem_of_difference, elem_of_singleton, Hidx.
  destruct (decide (i = id)) as [->|Hne].
  - rewrite lookup_delete_eq. split; [|by intros (? & ? & _)].
    intros [(o & Ho & <-) Hn]. rewrite Hop in Ho. by injection Ho as <-.
  - rewrite lookup_delete_ne by done. split; [by intros [? _]|]. intros ?. split; [done|].
    by intros [= _ ->].
Qed.

Definition drop_op (op : HealOp) (s : heal_store) : heal_store :=
  HealStore (delete (ho_HealOpId op) (hs_ops s))
    (hs_by_ticket s ∖ {[(ho_TicketId op, ho_HealOpId op)]})
    (hs_by_status s ∖ {[(ho_Status op, ho_HealOpId op)]})
    (filter (λ kv, kv.1.1 ≠ ho_HealOpId op) (hs_votes s)) (hs_next s).

Lemma heal_ok_drop op s :
  heal_ok s → hs_ops s !! ho_HealOpId op = Some op → heal_ok (drop_op op s).
Proof.
  intros [H1 H2 H3 H4 H5 H6] Hop. split.
  - intros i o. cbn [drop_op hs_ops]. rewrite lookup_delete_Some. intros [Hne Ho].
    apply (op_ok_frame (λ _, False) _ s); [|done|by apply H1]. intros v. cbn [drop_op hs_votes].
    destruct (hs_votes s !! (i, v)) as [b|] eqn:Ev; [apply map_lookup_filter_Some; auto|].
    apply map_lookup_filter_None. by left.
  - cbn [drop_op hs_next hs_ops]. destruct (hs_next s) as [n|]; [|by rewrite H2, delete_empty].
    destruct H2 as [Hn H2]. split; [done|]. intros i o. rewrite lookup_delete_Some.
    intros [_ Ho]. eauto.
  - apply (delete_op_index ho_TicketId); [done|done].
  - apply (delete_op_index ho_Status); [done|done].
  - intros i v b. cbn [drop_op hs_votes hs_ops]. rewrite map_lookup_filter_Some. simpl.
    intros [Hv Hne]. destruct (H5 i v b Hv) as (Hv0 & o & Ho & Hin). split; [done|].
    exists o. split; [|done]. by rewrite lookup_delete_ne.
  - intros i1 i2 o1 o2. cbn [drop_op hs_ops]. rewrite !lookup_delete_Some.
    intros [_ ?] [_ ?]. by apply H6.
Qed.

Lemma wp_drop_all l (t : st heal_store) :
  heal_ok (store t) → NoDup (ho_HealOpId <$> l) →
  (∀ op, op ∈ l → hs_ops (store t) !! ho_HealOpId op = Some op) →
  wp (for_each delete_heal_op l) t (λ _ t', heal_ok (store t') ∧ hs_next (store t') = hs_next (store t)).
Proof.
  revert t. induction l as [|op l IH]; intros t Hok Hnd Hl; cbn [for_each]; [by apply wp_ret|].
  apply NoDup_cons in Hnd as [Hnew Hnd]. apply wp_bind.
  unfold delete_heal_op. do 3 apply wp_bind, wp_modify. apply wp_modify.
  change (St _ _) with (St (drop_op op (store t)) (events t)).
  eapply wp_mono; [apply (IH (St (drop_op op (store t)) (events t)))|done].
  - apply heal_ok_drop; [done|]. apply Hl. left.
  - done.
  - intros o Ho. cbn. rewrite lookup_delete_ne; [apply Hl; by right|].
    intros Heq. apply Hnew. rewrite Heq. by apply list_elem_of_fmap_2.
Qed.

Lemma List_filter_sublist {A} (f : A → bool) l : List.filter f l `sublist_of` l.
Proof.
  induction l as [|x l IH]; simpl; [constructor|].
  destruct (f x); [by apply sublist_skip|by apply sublist_cons].
Qed.

Lemma keeps_PruneOldEpochs epochID params : keeps audit_ok (PruneOldEpochs epochID params).
Proof.
  unfold PruneOldEpochs. keeps_steps.
  - apply keeps_on_epochs, keeps_modify. intros s [Ha Hp]. split; [|done].
    intros e a. cbn. rewrite map_lookup_filter_Some. intros [? _]. by apply (Ha e).
  - intros t [Hh Hn He Hs]. enough (wp (on_heal (pruneTerminalHealOps epochID
      (KeepLastEpochEntries (AuditParams_WithDefaults params)))) t (λ _ t', audit_ok (store t')))
      by done.
    apply wp_zoom. unfold pruneTerminalHealOps. apply wp_bind, wp_gets.
    destruct (all_ops_ids _ Hh) as [Hnd Hin]. eapply wp_mono; [apply wp_drop_all|].
    + done.
    + eapply sublist_NoDup; [exact Hnd|]. apply fmap_sublist, List_filter_sublist.
    + intros op [_ Hop]%elem_of_List_filter. by apply Hin.
    + intros _ t' [Hh' Hn']. split; try done. cbn. intros m. rewrite Hn'. apply Hn.
Qed.
End EpochEnd.
