(* ===== verification/AuditThm.v ===== *)
(** * x/audit: what holds in every reachable state

    The heal operations and the scores of every state that the calls of
    [AuditSys] reach, the end of an epoch, and what the parameters validated at
    genesis and at every update give them. *)
From Stdlib Require Import ZArith Lia.
From stdpp Require Import base numbers strings list gmap sorting.
From S2P Require Import Prelude Sdk SupernodeTypes Supernode ActionStore AuditParam AuditTypes.
From S2P Require Import Epoch EpochThm Scoring AuditFacts ScoreKeeper HealOps HealMsg AuditReport.
From S2P Require Import AuditEvidence Enforcement AuditEnd ScoreInv AuditSys HealInv HealEpoch.
Open Scope Z_scope.

(** ** The current epoch *)

(** Before epoch zero every height is in epoch 0. *)
Lemma epoch_id_range p h e :
  params_valid p → 0 ≤ h → h + EpochLengthBlocks p ≤ MaxInt64 →
  deriveEpochAtHeight h p = Ok e → 0 ≤ EpochID e < 2 ^ 63.
Proof.
  intros Hp Hh Hm He. pose proof (pv_length _ Hp) as Hl. pose proof (pv_zero _ Hp) as Hz.
  destruct (Z.ltb_spec h (EpochZeroHeight p)) as [Hlt|Hge].
  - revert He. unfold deriveEpochAtHeight.
    destruct (WithDefaults_cadence p) as [-> ->]; [lia..|].
    rewrite (i64_small (EpochZeroHeight p)) by (unfold in_i64, MaxInt64 in *; lia).
    destruct (_ =? 0); [done|]. destruct (_ =? 0); [done|].
    destruct (Z.ltb_spec h (EpochZeroHeight p)); [|lia]. by intros [= <-].
  - rewrite derive_at_height in He by done. injection He as <-. cbn [epoch_info EpochID].
    destruct (epoch_of_bounds p Hl Hz h Hge) as [? Hb]. unfold epoch_start, MaxInt64 in *. nia.
Qed.

Lemma deadline_range p e :
  params_valid p → 0 ≤ e < 2 ^ 63 → e < deadline_of e p ∧ in_u64 (deadline_of e p) ∧ in_u64 e.
Proof.
  intros Hp He. pose proof (pv_keep _ Hp) as Hk. pose proof (pv_history _ Hp) as Hl.
  assert (0 ≤ StorageTruthHealDeadlineEpochs p ≤ KeepLastEpochEntries p) as Hd.
  { unfold lookbacks in Hl. rewrite Forall_forall in Hl. apply Hl.
    repeat (try (left; done); right). }
  unfold deadline_of, or_default, in_u64, MaxEpochWindowEntriesLimit in *.
  destruct (Z.eqb_spec (StorageTruthHealDeadlineEpochs p) 0); lia.
Qed.

Lemma ids_left_calm h e T s s' : calm h e T s → calm h e T s' → ids_left s → ids_left s'.
Proof. intros [_ Hh _ Ht] [_ Hh' _ Ht']. unfold ids_left. by rewrite Hh, Ht, Hh', Ht'. Qed.

Section Reachable.
Context `{SdkAddress} `{LegacyDecOps} `{Blake3} `{ParamsCodec} `{EvidenceCodec}.

Lemma params_read s :
  audit_ok s → ∃ p, AuditGetParams (au_epochs s) = p ∧ AuditParams_WithDefaults p = p ∧ params_valid p.
Proof.
  intros Hok. destruct (ok_epochs _ Hok) as [_ (p & Hp & Hd & Ht & Hv)]. exists p.
  split_and!; [|done|by apply Validate_valid]. unfold AuditGetParams. by rewrite Hp.
Qed.

(** The end of an epoch, up to the heal operations. *)
Lemma wp_calm_steps sort ctx e p (t : st audit_store) (k : M audit_store unit) Q :
  in_u64 e → audit_ok (store t) → ids_left (store t) →
  (∀ t' : st audit_store, audit_ok (store t') → ids_left (store t') → wp k t' Q) →
  (∀ err (t' : st audit_store), audit_ok (store t') → Q (Err err) t') →
  wp (_ ← EnforceEpochEnd ctx e p; _ ← ApplyReporterDivergenceAtEpochEnd sort e p;
      _ ← ApplyReporterCleanEpochRecoveryAtEpochEnd e p; k) t Q.
Proof.
  intros He Hok Hids Hk Herr.
  set (I := calm (au_heal (store t)) (au_epochs (store t)) (sc_tickets (au_scores (store t)))).
  assert (I (store t)) as HI by by split.
  assert (∀ (m k' : M audit_store unit) (t1 : st audit_store), keeps I m → I (store t1) →
    (∀ t2, I (store t2) → wp k' t2 Q) → wp (_ ← m; k') t1 Q) as Hstep.
  { intros m k' t1 Hm Ht1 Hk'. apply wp_bind.
    apply (wp_mono _ _ (λ _ t2, I (store t2))); [by apply Hm|].
    intros [[]|err] t2 Ht2; [by apply Hk'|]. apply Herr, Ht2. }
  apply Hstep; [apply keeps_EnforceEpochEnd|done|]. intros t1 Ht1.
  apply Hstep; [by apply keeps_Divergence|done|]. intros t2 Ht2.
  apply Hstep; [by apply keeps_CleanEpoch|done|]. intros t3 Ht3.
  apply Hk; [apply Ht3|]. by apply (ids_left_calm _ _ _ _ _ HI Ht3).
Qed.

Lemma wp_AuditEndBlocker sort ctx (t : st audit_store) :
  audit_ok (store t) → call_ok (store t) ctx (Call_EndBlocker sort) →
  wp (AuditEndBlocker sort ctx) t (λ _ t', audit_ok (store t')).
Proof.
  intros Hok (Hh & Hm & Hids). unfold AuditEndBlocker. apply wp_bind, wp_gets.
  destruct (params_read _ Hok) as (p & Hp & Hd & Hval). rewrite Hp in *. rewrite Hd.
  apply wp_bind, wp_of_result; [|done]. intros e He.
  pose proof (epoch_id_range p _ e Hval Hh Hm He) as Hr.
  destruct (deadline_range p (EpochID e) Hval Hr) as (Hd1 & Hd2 & Hd3).
  destruct (negb _); [by apply wp_ret|]. apply wp_calm_steps; [done|done|done| |done].
  intros t1 Hok1 Hids1. apply wp_bind. eapply wp_mono; [by apply wp_Process|].
  intros [[]|err] t2 (_ & Hok2 & _); [|done]. by apply keeps_PruneOldEpochs.
Qed.

Variables authority actionModuleAddress : string.

Lemma run_call_ok ctx c (t : st audit_store) :
  audit_ok (store t) → call_ok (store t) ctx c →
  wp (run_call authority actionModuleAddress ctx c) t (λ _ t', audit_ok (store t')).
Proof.
  intros Hok Hc.
  assert (∀ m : M audit_store unit, keeps audit_ok m → wp m t (λ _ t', audit_ok (store t'))) as Hkeep
    by (intros m Hm; by apply Hm).
  destruct c; cbn [run_call]; [| | | | | | |by apply wp_AuditEndBlocker| | |]; apply Hkeep.
  - apply keeps_SubmitEpochReport.
  - apply keeps_SubmitStorageRecheckEvidence.
  - apply keeps_ClaimHealComplete.
  - apply keeps_SubmitHealVerification.
  - unfold SubmitEvidence. keeps_steps. apply keeps_AuditCreateEvidence.
  - apply keeps_on_epochs, keeps_UpdateParams, Hc.
  - apply keeps_BeginBlocker.
  - keeps_steps. apply keeps_AuditCreateEvidence.
  - apply keeps_on_scores. unfold AuditSetTicketArtifactCounts. keeps_steps;
      apply keeps_modify; by intros ? [].
  - apply keeps_on_sn.
Qed.

Lemma audit_reachable_ok s : audit_reachable authority actionModuleAddress s → audit_ok s.
Proof.
  apply audit_reachable_inv.
  - intros params sn Ht Hv. split; try done.
    + split; try done; intros *; try (by rewrite lookup_empty); cbn; set_solver.
    + by intros n [= <-].
    + split; [done|]. exists (AuditParams_WithDefaults params).
      rewrite WithDefaults_idem. split_and!; auto using WithDefaults_typed.
  - intros s' ctx c Hc Hs. apply (wp_run_tx _ (St s' []) (λ t, audit_ok (store t))); [|done].
    eapply wp_mono; [by apply run_call_ok|]. auto.
Qed.

(** C1. In every reachable state the heal operations keep their promises.  The
    indexes by ticket and by status list exactly the stored operations, ids are
    below the counter, and no ticket has two open operations.  A healer never
    verifies their own work; votes come from assigned verifiers only, and none
    before the healer has reported.  An operation is VERIFIED or FAILED only with
    the votes of a majority of its verifiers for that outcome, and one still
    waiting for votes has no majority either way. *)
Theorem heal_safety s :
  audit_reachable authority actionModuleAddress s →
  let h := au_heal s in
  (∀ t id, (t, id) ∈ hs_by_ticket h ↔ ∃ op, hs_ops h !! id = Some op ∧ ho_TicketId op = t) ∧
  (∀ st id, (st, id) ∈ hs_by_status h ↔ ∃ op, hs_ops h !! id = Some op ∧ ho_Status op = st) ∧
  (∀ id1 id2 op1 op2, hs_ops h !! id1 = Some op1 → hs_ops h !! id2 = Some op2 →
     open_op op1 → open_op op2 → ho_TicketId op1 = ho_TicketId op2 → id1 = id2) ∧
  (∀ id v b, hs_votes h !! (id, v) = Some b →
     ∃ op, hs_ops h !! id = Some op ∧ v ∈ ho_VerifierSupernodeAccounts op ∧
           ho_Status op ≠ HEAL_SCHEDULED ∧ ho_Status op ≠ HEAL_IN_PROGRESS) ∧
  ∀ id op, hs_ops h !! id = Some op →
    ho_HealOpId op = id ∧ 0 < id < GetNextHealOpID h ∧
    ho_HealerSupernodeAccount op ∉ ho_VerifierSupernodeAccounts op ∧
    NoDup (ho_VerifierSupernodeAccounts op) ∧
    (ho_Status op = HEAL_VERIFIED → majority_of op ≤ count_votes true id op h) ∧
    (ho_Status op = HEAL_FAILED → majority_of op ≤ count_votes false id op h) ∧
    (ho_Status op = HEAL_HEALER_REPORTED →
       count_votes true id op h < majority_of op ∧ count_votes false id op h < majority_of op).
Proof.
  intros Hok%audit_reachable_ok h. pose proof (ok_heal _ Hok) as Hh. fold h in Hh.
  split_and!; [apply Hh|apply Hh|apply Hh| |].
  - intros id v b Hv. destruct (heal_voters _ _ Hh _ _ _ Hv) as (_ & op & Hop & Hin).
    exists op. pose proof (op_waiting _ _ _ _ (heal_ops _ _ Hh _ _ Hop)) as Hw.
    split_and!; try done; intros Hst; specialize (Hw ltac:(auto) v); congruence.
  - intros id op Hop. pose proof (heal_ops _ _ Hh _ _ Hop) as Ho.
    destruct (op_people _ _ _ _ Ho) as (? & ? & _).
    pose proof (GetNext_fresh _ _ _ Hh Hop) as Hfresh.
    split; [apply Ho|]. split; [done|]. split_and!; [done|done|apply Ho|apply Ho|].
    intros Hst. apply (op_reported _ _ _ _ Ho Hst). by intros [].
Qed.

(** C33. In every reachable state every node, reporter and ticket record sits under
    its own key, every score is between 0 and the largest int64, and every epoch
    and counter field is in the range of its Go type: decay, saturating addition
    and the clamps never let a score go negative or wrap. *)
Theorem scores_bounded s :
  audit_reachable authority actionModuleAddress s → scores_ok (au_scores s).
Proof. intros Hok%audit_reachable_ok. apply Hok. Qed.

(** C21. From every reachable state, and as long as the accounts of the epoch can
    be read, the heal operations of an epoch end are processed without an error;
    afterwards every open operation has its deadline still ahead.  Operations that
    were due are EXPIRED, and no other operation has changed: no operation stays
    open for ever. *)
Theorem heal_ops_expire s ctx e :
  let params := AuditGetParams (au_epochs s) in
  audit_reachable authority actionModuleAddress s →
  call_ok s ctx Call_BeginBlocker → ids_left s →
  deriveEpochAtHeight (BlockHeight ctx) params = Ok e → accounts_read (EpochID e) s →
  ∃ t', ProcessStorageTruthHealOpsAtEpochEnd ctx (EpochID e) params (St s []) = (Ok tt, t') ∧
    (∀ id op, hs_ops (au_heal (store t')) !! id = Some op → open_op op →
       EpochID e < ho_DeadlineEpochId op) ∧
    ∀ id op, hs_ops (au_heal s) !! id = Some op →
      ∃ op', hs_ops (au_heal (store t')) !! id = Some op' ∧ expired_or_same (EpochID e) op op'.
Proof.
  intros params Hok%audit_reachable_ok (Hh & Hm & _) Hids He Hacc.
  destruct (params_read _ Hok) as (p & Hp & _ & Hval). fold params in Hp. subst p.
  pose proof (epoch_id_range _ _ e Hval Hh Hm He) as Hr.
  destruct (deadline_range _ (EpochID e) Hval Hr) as (Hd1 & Hd2 & Hd3).
  pose proof (wp_Process ctx (EpochID e) params (St s []) Hok Hd1 Hd2 Hd3 Hids) as Hwp.
  unfold wp in Hwp. destruct (ProcessStorageTruthHealOpsAtEpochEnd _ _ _ _) as [r t'].
  destruct Hwp as (Hr' & _ & Hopen & Hold). simpl in Hr'. rewrite (Hr' Hacc). exists t'. by split_and!.
Qed.
End Reachable.
