(* ===== verification/PruneThm.v ===== *)
(** * x/audit: pruning keeps what the next epoch reads

    [PruneOldEpochs] deletes everything that is older than
    [keep_last_epoch_entries] epochs.  The validated parameters make that window
    at least as long as every look-back of the enforcement, so the decisions of the
    next epoch end are the same with and without the deleted entries. *)
From Stdlib Require Import ZArith Lia.
From stdpp Require Import base numbers strings list gmap sorting.
From S2P Require Import Prelude Sdk SupernodeTypes Supernode AuditParam AuditTypes Epoch Scoring.
From S2P Require Import AssignThm AuditFacts ScoreKeeper HealOps HealMsg AuditReport AuditEvidence.
From S2P Require Import Enforcement AuditEnd.
Open Scope Z_scope.

(** ** States that agree from an epoch on *)
Record agree_from (k : Z) (s s' : audit_store) : Prop := {
  ag_nodes : sc_nodes (au_scores s') = sc_nodes (au_scores s);
  ag_postpone : au_postpone s' = au_postpone s;
  ag_anchors e : k ≤ e → es_anchors (au_epochs s') !! e = es_anchors (au_epochs s) !! e;
  ag_reports e a : k ≤ e → rp_reports (au_reports s') !! (e, a) = rp_reports (au_reports s) !! (e, a);
  ag_peers t e r : k ≤ e →
    (t, e, r) ∈ rp_challenge (au_reports s') ↔ (t, e, r) ∈ rp_challenge (au_reports s);
  ag_counts e a ty : k ≤ e →
    ev_counts (au_evidence s') !! (e, a, ty) = ev_counts (au_evidence s) !! (e, a, ty);
  ag_failures a e t r : k ≤ e →
    fa_failures (au_facts s') !! (a, e, t, r) = fa_failures (au_facts s) !! (a, e, t, r);
  ag_heals a e t : k ≤ e →
    (a, e, t) ∈ fa_failed_heals (au_facts s') ↔ (a, e, t) ∈ fa_failed_heals (au_facts s)
}.

(** The oldest epoch that is kept at the end of epoch [e]. *)
Definition oldest (e : Z) (params : AuditParams) : Z := Z.max 0 (e + 1 - KeepLastEpochEntries params).

Lemma wp_delete_heal_ops l (t : st heal_store) :
  wp (for_each delete_heal_op l) t (λ r _, r = Ok tt).
Proof.
  revert t. induction l as [|op l IH]; intros t; cbn [for_each]; [by apply wp_ret|].
  apply wp_bind. unfold delete_heal_op. do 3 apply wp_bind, wp_modify. apply wp_modify, IH.
Qed.

(** What the maps hold from epoch [k] on is not touched. *)
Lemma pruned_maps_agree k s s' :
  au_epochs s' = prune_epochs k (au_epochs s) → au_reports s' = prune_reports k (au_reports s) →
  au_evidence s' = prune_evidence k (au_evidence s) → au_facts s' = prune_facts k (au_facts s) →
  sc_nodes (au_scores s') = sc_nodes (au_scores s) → au_postpone s' = au_postpone s →
  agree_from k s s'.
Proof.
  intros He Hr Hv Hf Hn Hp.
  assert (∀ {K A} `{Countable K} (P : K * A → Prop) `{∀ x, Decision (P x)} (m : gmap K A) i,
    (∀ x, P (i, x)) → filter P m !! i = m !! i) as Hlook.
  { intros K A ? ? P ? m i HP. destruct (m !! i) as [x|] eqn:E.
    - by apply map_lookup_filter_Some.
    - apply map_lookup_filter_None. by left. }
  split; try done; intros; rewrite ?He, ?Hr, ?Hv, ?Hf; cbn;
    rewrite ?Hlook, ?elem_of_filter; unfold kept, kept_of; simpl; tauto || auto.
Qed.

Lemma prune_agrees e params (t : st audit_store) :
  AuditParams_WithDefaults params = params → 0 < KeepLastEpochEntries params → 0 ≤ e < 2 ^ 63 →
  wp (PruneOldEpochs e params) t (λ r t',
    r = Ok tt ∧ agree_from (oldest e params) (store t) (store t')).
Proof.
  intros Hd Hk He. unfold PruneOldEpochs. rewrite Hd. cbv zeta.
  rewrite (u64_small (e + 1)) by (unfold in_u64; lia).
  assert ((if KeepLastEpochEntries params <? e + 1
           then u64 (e + 1 - KeepLastEpochEntries params) else 0) = oldest e params) as ->.
  { unfold oldest. destruct (Z.ltb_spec (KeepLastEpochEntries params) (e + 1)); [|lia].
    rewrite u64_small by (unfold in_u64; lia). lia. }
  do 4 apply wp_bind, wp_zoom, wp_modify. cbn [store events].
  apply wp_bind, wp_zoom. unfold pruneInactiveTicketDeteriorationStates.
  destruct (_ || _); [apply wp_ret|apply wp_modify]; apply wp_zoom; unfold pruneTerminalHealOps;
    (apply wp_bind, wp_gets; eapply wp_mono; [apply wp_delete_heal_ops|]);
    intros r t' ->; (split; [done|by apply pruned_maps_agree]).
Qed.

(** ** Decisions *)
#[local] Instance string_le_anti : AntiSymm (=) string_le.
Proof. intros x y. apply string_le_antisym. Qed.
#[local] Instance string_le_trans : Transitive string_le.
Proof. intros x y z. unfold string_le. apply transitivity. Qed.
#[local] Instance string_le_total : Total string_le.
Proof. intros x y. unfold string_le. apply (base.total bytes_le). Qed.
Lemma merge_sort_perm (l1 l2 : list string) :
  l1 ≡ₚ l2 → merge_sort string_le l1 = merge_sort string_le l2.
Proof.
  intros Hp. apply (Sorted_unique string_le); [apply (Sorted_merge_sort string_le)..|].
  by rewrite !(merge_sort_Permutation string_le).
Qed.

Section Decisions.
Context (e : Z) (params : AuditParams).
Context (Hd : AuditParams_WithDefaults params = params) (Hval : params_valid params).
Context (He : 0 ≤ e < 2 ^ 62).
Context (s s' : audit_store) (Hag : agree_from (oldest e params) s s').
#[local] Notation keep := (KeepLastEpochEntries params).

Lemma last_epochs_kept c x :
  c ≤ keep → u32 (e + 1 + 1) <? c = false → x ∈ last_epochs (e + 1) c → oldest e params ≤ x.
Proof.
  intros Hc Hlt%Z.ltb_ge (i & -> & Hi%elem_of_seq)%list_elem_of_fmap.
  assert (u32 (e + 1 + 1) ≤ e + 1 + 1) as Hu by (unfold u32; apply Z.mod_le; lia).
  rewrite u64_small by (unfold in_u64; lia). unfold oldest. lia.
Qed.

Lemma window_kept w x endEpoch :
  0 < w ≤ keep → in_epochs (storageTruthWindowStart (e + 1) w) endEpoch x → oldest e params ≤ x.
Proof.
  intros Hw [Hx _]. etrans; [|exact Hx]. unfold storageTruthWindowStart, oldest.
  rewrite (u64_small (e + 1 + 1)) by (unfold in_u64; lia).
  destruct (Z.eqb_spec w 0); [lia|]. destruct (Z.leb_spec (e + 1 + 1) w); simpl; [lia|].
  rewrite (u64_small (e + 1 - w)), u64_small by (unfold in_u64; lia). lia.
Qed.

Lemma same_count x a ty :
  oldest e params ≤ x →
  getEvidenceEpochCount x a ty (au_evidence s') = getEvidenceEpochCount x a ty (au_evidence s).
Proof. intros Hx. unfold getEvidenceEpochCount. by rewrite (ag_counts _ _ _ Hag). Qed.
Lemma same_report x a :
  oldest e params ≤ x → GetReport x a (au_reports s') = GetReport x a (au_reports s).
Proof. intros Hx. unfold GetReport. by rewrite (ag_reports _ _ _ Hag). Qed.
Lemma same_has_report x a :
  oldest e params ≤ x → HasReport x a (au_reports s') = HasReport x a (au_reports s).
Proof. intros Hx. unfold HasReport. by rewrite (ag_reports _ _ _ Hag). Qed.

Lemma same_peers x a :
  oldest e params ≤ x →
  peerReportersForTargetEpoch a x (au_reports s') = peerReportersForTargetEpoch a x (au_reports s).
Proof.
  intros Hx. unfold peerReportersForTargetEpoch. cbv zeta.
  rewrite (merge_sort_perm ((λ k, k.2) <$> filter _ (elements (rp_challenge (au_reports s'))))
             ((λ k, k.2) <$> filter (λ k, k.1 = (a, x)) (elements (rp_challenge (au_reports s)))));
    [done|].
  apply fmap_Permutation, NoDup_Permutation; [apply NoDup_filter, NoDup_elements..|].
  intros [[t x'] r]. rewrite !list_elem_of_filter, !elem_of_elements. simpl.
  split; intros [[= -> ->] Hin]; (split; [done|]); by apply (ag_peers _ _ _ Hag).
Qed.

Lemma forallb_same {A} (f g : A → bool) l : (∀ x, x ∈ l → f x = g x) → forallb f l = forallb g l.
Proof.
  intros Hfg. induction l as [|x l IH]; simpl; [done|]. rewrite (Hfg x) by left.
  rewrite IH; [done|]. intros y Hy. apply Hfg. by right.
Qed.

Lemma same_ports c a threshold ports :
  c ≤ keep → u32 (e + 1 + 1) <? c = false →
  any_closed_streak a threshold (last_epochs (e + 1) c) ports (au_reports s') =
  any_closed_streak a threshold (last_epochs (e + 1) c) ports (au_reports s).
Proof.
  intros Hc Hlt. pose proof (λ x, last_epochs_kept c x Hc Hlt) as Hk.
  induction ports as [|p ports IH]; cbn [any_closed_streak]; [done|].
  rewrite IH. enough (closed_streak a p threshold (last_epochs (e + 1) c) (au_reports s') =
    closed_streak a p threshold (last_epochs (e + 1) c) (au_reports s)) as -> by done.
  clear IH. induction (last_epochs (e + 1) c) as [|x l IH]; cbn [closed_streak]; [done|].
  rewrite IH by (intros y Hy; apply Hk; by right). pose proof (Hk x ltac:(left)) as Hx.
  unfold peersPortStateMeetsThreshold. rewrite same_peers by done.
  destruct (peerReportersForTargetEpoch a x (au_reports s)) as [peers|]; [|done].
  unfold peersPortStateMeetsThresholdWithPeers. destruct peers as [|q peers]; [done|].
  assert (∀ l, mapM (peer_port a x p (au_reports s')) l = mapM (peer_port a x p (au_reports s)) l)
    as ->; [|done].
  intros l'. apply Forall_mapM_ext, Forall_true. intros r. unfold peer_port. by rewrite same_report.
Qed.

(** The look-backs are inside the window. *)
Lemma lookback_kept v : v ∈ ConsecutiveEpochsToPostpone params :: lookbacks params → 0 ≤ v ≤ keep.
Proof. pose proof (pv_history _ Hval) as Hh. rewrite Forall_forall in Hh. apply Hh. Qed.
Lemma or_default_kept v d :
  v ∈ ConsecutiveEpochsToPostpone params :: lookbacks params → v = or_default v d → d ≠ 0 →
  ∀ d', 0 < or_default v d' ≤ keep.
Proof.
  intros Hv%lookback_kept Heq Hne d'. unfold or_default in *. destruct (Z.eqb_spec v 0); lia.
Qed.

Lemma same_evidence a ty n c :
  c ≤ keep →
  evidenceMeetsConsecutiveEpochsThreshold a (e + 1) ty n c (au_evidence s') =
  evidenceMeetsConsecutiveEpochsThreshold a (e + 1) ty n c (au_evidence s).
Proof.
  intros Hc. unfold evidenceMeetsConsecutiveEpochsThreshold. destruct (_ || _); [done|].
  destruct (_ <? c) eqn:Hlt; [done|]. apply forallb_same. intros x Hx.
  by rewrite same_count by by apply (last_epochs_kept c).
Qed.

Lemma same_postpone a :
  shouldPostponeAtEpochEnd a (e + 1) params s' = shouldPostponeAtEpochEnd a (e + 1) params s.
Proof.
  assert (∀ v, v ∈ ConsecutiveEpochsToPostpone params :: lookbacks params → v ≤ keep) as Hk
    by (intros v Hv; by apply lookback_kept).
  assert (or_default (ConsecutiveEpochsToPostpone params) 1 ≤ keep) as Hc.
  { pose proof (pv_keep _ Hval). pose proof (Hk _ ltac:(left)). unfold or_default.
    destruct (_ =? 0); lia. }
  assert (oldest e params ≤ e + 1) as Hnow by (pose proof (pv_keep _ Hval); unfold oldest; lia).
  unfold shouldPostponeAtEpochEnd, shouldPostponeForActionFinalizationEvidence.
  rewrite !same_evidence by (apply Hk; unfold lookbacks; set_solver).
  destruct (if evidenceMeetsConsecutiveEpochsThreshold _ _ _ _ _ _ then _ else _) as [reason|];
    [done|]. cbv zeta.
  assert (missingReportsForConsecutiveEpochs a (e + 1)
            (or_default (ConsecutiveEpochsToPostpone params) 1) (au_reports s') =
          missingReportsForConsecutiveEpochs a (e + 1)
            (or_default (ConsecutiveEpochsToPostpone params) 1) (au_reports s)) as ->.
  { unfold missingReportsForConsecutiveEpochs. cbv zeta. rewrite or_default_idem.
    destruct (_ <? _) eqn:Hlt; [done|]. apply forallb_same. intros x Hx.
    by rewrite same_has_report by by eapply last_epochs_kept. }
  destruct (missingReportsForConsecutiveEpochs _ _ _ _); [done|].
  unfold selfHostViolatesMinimums. rewrite same_report by done.
  destruct (match GetReport (e + 1) a (au_reports s) with None => _ | Some _ => _ end); [done|].
  destruct (au_RequiredOpenPorts params); [done|]. destruct (_ <? _) eqn:Hlt; [done|].
  by rewrite same_ports.
Qed.

Lemma foldl_same {A B} (f g : A → B → A) l acc :
  (∀ a x, x ∈ l → f a x = g a x) → foldl f acc l = foldl g acc l.
Proof.
  revert acc. induction l as [|x l IH]; intros acc Hfg; simpl; [done|].
  rewrite (Hfg acc x) by left. apply IH. intros a y Hy. apply Hfg. by right.
Qed.

Lemma same_recover a :
  shouldRecoverAtEpochEnd a (e + 1) params s' = shouldRecoverAtEpochEnd a (e + 1) params s.
Proof.
  assert (oldest e params ≤ e + 1) as Hnow by (pose proof (pv_keep _ Hval); unfold oldest; lia).
  unfold shouldRecoverAtEpochEnd, shouldRecoverFromStorageTruthPostponement.
  rewrite (ag_postpone _ _ _ Hag), (ag_nodes _ _ _ Hag).
  destruct (getStorageTruthPostponedAtEpochID a _); [done|].
  destruct (getActionFinalizationPostponedAtEpochID a _) as [at_|].
  - f_equal. unfold shouldRecoverFromActionFinalizationPostponement. cbv zeta.
    destruct (_ <? u64 _); [done|]. f_equal. apply foldl_same. intros acc x Hx%elem_of_seqZ.
    assert (0 ≤ ActionFinalizationRecoveryEpochs params ≤ keep) as Hr
      by (apply lookback_kept; unfold lookbacks; set_solver).
    assert (or_default (ActionFinalizationRecoveryEpochs params) 1 ≤ keep) as Hr'
      by (pose proof (pv_keep _ Hval); unfold or_default; destruct (_ =? 0); lia).
    set (rec := or_default (ActionFinalizationRecoveryEpochs params) 1) in *.
    rewrite (u64_small (e + 1 + 1)) in Hx by (unfold in_u64; lia).
    assert (oldest e params ≤ x) as Hk; [|by rewrite !same_count].
    destruct Hx as [Hx _]. etrans; [|exact Hx]. unfold oldest.
    destruct (Z.ltb_spec rec (e + 1 + 1)); [|lia].
    assert (0 ≤ rec) by (unfold rec, or_default; destruct (_ =? 0); lia).
    rewrite u64_small by (unfold in_u64; lia). lia.
  - unfold selfHostCompliant, GetEpochAnchor, peer_saw_all_open.
    rewrite same_report, (ag_anchors _ _ _ Hag), same_peers by done.
    destruct (negb _); [done|]. destruct (match es_anchors _ !! _ with Some _ => _ | None => _ end);
      [done|]. destruct (au_RequiredOpenPorts params); [done|].
    destruct (peerReportersForTargetEpoch _ _ _) as [peers|]; [|done]. f_equal.
    induction peers as [|q peers IH]; cbn [existsb]; [done|]. by rewrite same_report, IH.
Qed.

Lemma same_failures a w incl :
  0 < w ≤ keep →
  node_failures a (storageTruthWindowStart (e + 1) w) (e + 1) incl (au_facts s') =
  node_failures a (storageTruthWindowStart (e + 1) w) (e + 1) incl (au_facts s).
Proof.
  intros Hw. apply map_eq. intros [[[b x] t] r]. unfold node_failures. apply option_eq. intros f.
  rewrite !map_lookup_filter_Some. simpl.
  split; intros (Hf & -> & Hx & Hi); (split; [|done]); revert Hf;
    by rewrite (ag_failures _ _ _ Hag) by by apply (window_kept w _ (e + 1)).
Qed.
Lemma same_failed_heals a w :
  0 < w ≤ keep →
  hasStorageTruthFailedHeal a (storageTruthWindowStart (e + 1) w) (e + 1) (au_facts s') =
  hasStorageTruthFailedHeal a (storageTruthWindowStart (e + 1) w) (e + 1) (au_facts s).
Proof.
  intros Hw. unfold hasStorageTruthFailedHeal. apply eq_true_iff_eq.
  rewrite !existsb_exists. split; intros ([[b x] t] & Hin & Hk);
    (exists (b, x, t); split; [|done]); rewrite <- list_elem_of_In, elem_of_elements in *;
    simpl in Hk; apply andb_true_iff in Hk as [_ Hx%bool_decide_eq_true]; revert Hin;
    apply (ag_heals _ _ _ Hag); by apply (window_kept w _ (e + 1)).
Qed.

Lemma same_predicates a band :
  storageTruthPostponePredicatesMet a band (e + 1) params (au_scores s') (au_facts s') =
  storageTruthPostponePredicatesMet a band (e + 1) params (au_scores s) (au_facts s).
Proof.
  assert (∀ v d d', v ∈ ConsecutiveEpochsToPostpone params :: lookbacks params →
    v = or_default v d → d ≠ 0 → 0 < or_default v d' ≤ keep) as Hk
    by (intros v d d' ???; by apply (or_default_kept v d)).
  assert (0 < or_default (StorageTruthClassAFaultWindow params) 14 ≤ keep) as HA.
  { eapply (Hk _ DefaultStorageTruthClassAFaultWindow); [unfold lookbacks; set_solver| |done].
    by rewrite <- Hd at 1. }
  assert (0 < or_default (StorageTruthClassBFaultWindow params) 7 ≤ keep) as HB.
  { eapply (Hk _ DefaultStorageTruthClassBFaultWindow); [unfold lookbacks; set_solver| |done].
    by rewrite <- Hd at 1. }
  assert (0 < or_default (StorageTruthOldClassAFaultWindow params) 21 ≤ keep) as HO.
  { eapply (Hk _ DefaultStorageTruthOldClassAFaultWindow); [unfold lookbacks; set_solver| |done].
    by rewrite <- Hd at 1. }
  unfold storageTruthPostponePredicatesMet. rewrite (ag_nodes _ _ _ Hag).
  destruct (sc_nodes (au_scores s) !! a) as [state|]; [|done]. cbv zeta.
  unfold hasNodeFailure, distinctNodeFailedTickets. cbv zeta.
  destruct band; try done; by rewrite !same_failures, ?same_failed_heals by done.
Qed.
End Decisions.

(** C13. With validated parameters, pruning at the end of an epoch deletes nothing
    that the enforcement of the next epoch reads.  It never fails, it leaves every
    entry of the kept epochs, and in any two states that agree on those epochs the
    decisions to postpone for missing reports, host metrics, closed ports and
    failed finalizations, the decision to recover and the evidence behind the
    storage-truth bands are the same. *)
Theorem prune_invisible e params t :
  AuditParams_WithDefaults params = params → params_typed params →
  AuditParams_Validate params = Ok tt → 0 ≤ e < 2 ^ 62 →
  (PruneOldEpochs e params t).1 = Ok tt ∧
  agree_from (oldest e params) (store t) (store (PruneOldEpochs e params t).2) ∧
  ∀ s s' account, agree_from (oldest e params) s s' →
    shouldPostponeAtEpochEnd account (e + 1) params s' =
      shouldPostponeAtEpochEnd account (e + 1) params s ∧
    shouldRecoverAtEpochEnd account (e + 1) params s' =
      shouldRecoverAtEpochEnd account (e + 1) params s ∧
    ∀ band,
      storageTruthPostponePredicatesMet account band (e + 1) params (au_scores s') (au_facts s') =
      storageTruthPostponePredicatesMet account band (e + 1) params (au_scores s) (au_facts s).
Proof.
  intros Hd Ht Hv He. pose proof (Validate_valid _ Ht Hv) as Hval.
  destruct (prune_agrees e params t Hd ltac:(apply Hval) ltac:(lia)) as [Hr Ha].
  split_and!; [done|done|]. intros s s' a Hag.
  split_and!; [by apply same_postpone|by apply same_recover|intros band; by apply same_predicates].
Qed.
