(* ===== verification/ReportThm.v ===== *)
(** * x/audit: what an accepted epoch report leaves behind *)
From Stdlib Require Import ZArith Lia.
From stdpp Require Import base numbers strings list gmap sorting.
From S2P Require Import Prelude Sdk SupernodeTypes Supernode SupernodeMsg SupernodeParams RegistryClients SupernodeInv.
From S2P Require Import AuditParam AuditTypes Epoch Scoring.
From S2P Require Import Assign AuditFacts ScoreKeeper HealOps HealMsg AuditReport ScoreInv HealInv.
Open Scope Z_scope.

(** ** The report store through the handler *)
Section Frames.
Context (R : report_store → Prop).
#[local] Notation on := (λ s, R (au_reports s)).
Lemma reports_on_scores {A} (m : M score_store A) : keeps on (on_scores m).
Proof. by apply keeps_zoom_frame. Qed.
Lemma reports_on_facts {A} (m : M fact_store A) : keeps on (on_facts m).
Proof. by apply keeps_zoom_frame. Qed.
Lemma reports_on_sn {A} (m : M sn_store A) : keeps on (on_sn m).
Proof. by apply keeps_zoom_frame. Qed.
#[local] Hint Resolve reports_on_scores reports_on_facts reports_on_sn : keeps.

Lemma reports_tail `{SdkAddress} `{LegacyDecOps} epochID reporter params results (b : bool) :
  keeps on (_ ← on_facts (indexStorageProofTranscripts epochID reporter results);
            _ ← applyStorageTruthScores epochID reporter results;
            if b then applyIncompleteReportPenalty epochID reporter params else mret tt).
Proof.
  unfold applyStorageTruthScores, applyStorageTruthScore, applyIncompleteReportPenalty. keeps_steps.
Qed.
Lemma reports_bridge `{SdkAddress} `{LegacyDecOps} ctx sn b :
  keeps on (bridgeCascadeBytesToSupernodeMetrics ctx sn b).
Proof. unfold bridgeCascadeBytesToSupernodeMetrics. keeps_steps. Qed.
End Frames.
#[export] Hint Resolve reports_on_scores reports_on_facts reports_on_sn : keeps.

Definition report_put (r : EpochReport) (s : report_store) : report_store :=
  ReportStore (<[(er_EpochId r, er_SupernodeAccount r) := r]> (rp_reports s))
    (rp_index s) (rp_host s) (rp_challenge s).

Section Reports.
Context `{SdkAddress} `{LegacyDecOps}.

Lemma wp_SetReport ctx r (t : st audit_store) :
  wp (SetReport ctx r) t (λ _ t', au_reports (store t') = report_put r (au_reports (store t))).
Proof.
  unfold SetReport, put_report. apply wp_bind, wp_zoom, wp_modify.
  set (t1 := St _ _). assert (au_reports (store t1) = report_put r (au_reports (store t))) as Ht1
    by done. clearbody t1. revert Ht1. set (rs := report_put r _). intros Ht1.
  match goal with |- wp ?m _ _ => assert (keeps (λ s, au_reports s = rs) m) as Hm end.
  { unfold markSupernodeStorageFull, with_validator. keeps_steps;
      apply (reports_on_sn (λ x, x = rs)). }
  by apply Hm.
Qed.

(** The targets of a list of observations. *)
Definition observed (obs : list (option StorageChallengeObservation)) : list string :=
  ob_TargetSupernodeAccount <$> omap id obs.

Lemma wp_valid_observations {S} reporter allowed n seen obs (t : st S) :
  wp (valid_observations reporter allowed n seen obs) t (λ r t', store t' = store t ∧
    ∀ seen', r = Ok seen' →
      NoDup (observed obs) ∧ obs = Some <$> omap id obs ∧
      ∀ a, a ∈ observed obs → a ≠ ""%string ∧ a ≠ reporter ∧ a ∈ allowed ∧ a ∉ seen).
Proof.
  revert seen t. induction obs as [|[o|] obs IH]; intros seen t; cbn [valid_observations].
  - apply wp_ret. split; [done|]. intros _ _. split_and!; [constructor|done|].
    by intros a ?%not_elem_of_nil.
  - cbv zeta. repeat (wp_step; try done).
    eapply wp_mono; [apply IH|]. intros r t' [Ht' Hr]. split; [done|]. intros seen' ->.
    destruct (Hr seen' eq_refl) as (Hnd & Hobs & Hin).
    repeat match goal with Hb : bool_decide _ = true |- _ => apply bool_decide_eq_true in Hb end.
    change (observed (Some o :: obs)) with (ob_TargetSupernodeAccount o :: observed obs).
    split_and!.
    + constructor; [|done]. intros Hx. apply Hin in Hx. set_solver.
    + cbn. by f_equal.
    + intros a [->|Ha]%elem_of_cons; [|set_solver].
      unfold nonempty in *. repeat match goal with
        Hb : bool_decide _ = true |- _ => apply bool_decide_eq_true in Hb end. done.
  - by apply wp_fail.
Qed.

Lemma wp_index_observations epochID reporter seen obs (t : st report_store) :
  wp (index_observations epochID reporter seen obs) t (λ r t',
    r = Ok tt ∧ rp_reports (store t') = rp_reports (store t) ∧
    rp_index (store t') = rp_index (store t) ∧ rp_host (store t') = rp_host (store t) ∧
    ∀ k, k ∈ rp_challenge (store t') ↔ k ∈ rp_challenge (store t) ∨
      ∃ a, k = (a, epochID, reporter) ∧ a ∈ observed obs ∧ a ≠ ""%string ∧ a ∉ seen).
Proof.
  revert seen t. induction obs as [|[o|] obs IH]; intros seen t; cbn [index_observations].
  - apply wp_ret. split_and!; try done. intros k. split; [auto|].
    by intros [?|(a & _ & ?%not_elem_of_nil & _)].
  - cbv zeta. change (observed (Some o :: obs)) with (ob_TargetSupernodeAccount o :: observed obs).
    set (a0 := ob_TargetSupernodeAccount o).
    destruct (bool_decide (a0 = ""%string)) eqn:E1; [|destruct (bool_decide (a0 ∈ seen)) eqn:E2].
    + apply bool_decide_eq_true in E1. eapply wp_mono; [apply IH|].
      intros r t' (-> & ? & ? & ? & Hk). split_and!; try done. intros k. rewrite Hk.
      set_solver.
    + apply bool_decide_eq_true in E2. eapply wp_mono; [apply IH|].
      intros r t' (-> & ? & ? & ? & Hk). split_and!; try done. intros k. rewrite Hk.
      set_solver.
    + apply bool_decide_eq_false in E1, E2. apply wp_bind, wp_modify.
      eapply wp_mono; [apply (IH _ (St _ _))|]. cbn [store rp_reports rp_index rp_host rp_challenge].
      intros r t' (-> & ? & ? & ? & Hk). split_and!; try done. intros k. rewrite Hk.
      rewrite elem_of_union, elem_of_singleton. split.
      * intros [[->|?]|(a & -> & ? & ? & ?)]; [|auto|]; right; eexists; split_and!; try done;
          set_solver.
      * intros [?|(a & -> & Ha & ? & ?)]; [auto|]. destruct (decide (a = a0)) as [->|]; [auto|].
        right. exists a. split_and!; try done; set_solver.
  - apply IH.
Qed.

(** A step that keeps [I]; nothing is demanded when it fails. *)
Lemma wp_keeping {S A B} (I : S → Prop) (m : M S A) (k : A → M S B) (t : st S) (Q : B → st S → Prop) :
  keeps I m → I (store t) →
  (∀ a t', I (store t') → wp (k a) t' (λ r t'', ∀ b, r = Ok b → Q b t'')) →
  wp (m ≫= k) t (λ r t'', ∀ b, r = Ok b → Q b t'').
Proof.
  intros Hm Ht Hk. apply wp_bind. apply (wp_mono _ _ (λ _ t', I (store t'))); [by apply Hm|].
  intros [a|err] t' Ht'; [by apply Hk|done].
Qed.

(** The report that the message stands for. *)
Definition report_of (ctx : Ctx) (req : MsgSubmitEpochReport) : EpochReport :=
  mkEpochReport (rq_Creator req) (rq_EpochId req) (BlockHeight ctx) (rq_HostReport req)
    (rq_StorageChallengeObservations req) (rq_StorageProofResults req).

(** The report store after the report: the report under its key, the two index
    entries of the reporter, and one entry for each observed target. *)
Record reported (ctx : Ctx) (req : MsgSubmitEpochReport) (s s' : report_store) : Prop := {
  rd_reports : rp_reports s' = <[(rq_EpochId req, rq_Creator req) := report_of ctx req]> (rp_reports s);
  rd_index : rp_index s' = {[(rq_Creator req, rq_EpochId req)]} ∪ rp_index s;
  rd_host : rp_host s' = {[(rq_Creator req, rq_EpochId req)]} ∪ rp_host s;
  rd_peers k : k ∈ rp_challenge s' ↔ k ∈ rp_challenge s ∨
    ∃ a, k = (a, rq_EpochId req, rq_Creator req) ∧ a ≠ ""%string ∧
         a ∈ observed (rq_StorageChallengeObservations req)
}.

(** From the duplicate check on. *)
Definition report_writes (ctx : Ctx) (req : MsgSubmitEpochReport) (sn : SuperNode) (params : AuditParams) (b : bool)
    : M audit_store unit :=
  _ ← SetReport ctx (report_of ctx req);
  _ ← on_reports (SetReportIndex (rq_EpochId req) (rq_Creator req));
  _ ← on_reports (SetHostReportIndex (rq_EpochId req) (rq_Creator req));
  _ ← bridgeCascadeBytesToSupernodeMetrics ctx sn (hr_CascadeKademliaDbBytes (rq_HostReport req));
  _ ← on_reports (index_observations (rq_EpochId req) (rq_Creator req) ∅
        (rq_StorageChallengeObservations req));
  _ ← on_facts (indexStorageProofTranscripts (rq_EpochId req) (rq_Creator req)
        (rq_StorageProofResults req));
  _ ← applyStorageTruthScores (rq_EpochId req) (rq_Creator req) (rq_StorageProofResults req);
  if b then applyIncompleteReportPenalty (rq_EpochId req) (rq_Creator req) params
  else mret tt.

(** What a report does not touch, and what it may do to the registry: the record of the
    reporter goes to STORAGE_FULL or back, and the metrics change. *)
Definition untouched (s s' : audit_store) : Prop :=
  au_epochs s' = au_epochs s ∧ au_evidence s' = au_evidence s ∧ au_postpone s' = au_postpone s ∧ au_heal s' = au_heal s.
Definition registry_moved (ctx : Ctx) (s s' : audit_store) : Prop :=
  ∃ t metrics, sn_step ctx OpEpochReport (au_sn s) t ∧ au_sn s' = set_metrics (λ _, metrics) t.

Lemma keeps_untouched ctx req sn params b s : keeps (untouched s) (report_writes ctx req sn params b).
Proof.
  unfold report_writes, SetReport, bridgeCascadeBytesToSupernodeMetrics, applyStorageTruthScores, applyStorageTruthScore,
    applyIncompleteReportPenalty. keeps_steps; by apply keeps_zoom_frame.
Qed.
Lemma wp_report_registry ctx req sn params b (t : st audit_store) :
  sn_inv (au_sn (store t)) →
  wp (report_writes ctx req sn params b) t (λ r t', ∀ u, r = Ok u → registry_moved ctx (store t) (store t')).
Proof.
  intros Hinv. unfold report_writes, SetReport. apply wp_bind, wp_bind, wp_zoom, wp_modify, wp_zoom.
  eapply wp_mono; [by apply report_transition_step|]. intros [[]|err] t1 Ht1; [|done]. cbn [store au_sn] in Ht1.
  match goal with |- wp ?m ?t2 _ => assert (keeps (registry_moved ctx (store t)) m) as Hm end.
  { assert (∀ v st, keeps (registry_moved ctx (store t)) (on_sn (SetMetricsState (Build_SupernodeMetricsState v st.1 st.2.1 st.2.2))))
      as Hk.
    { intros v st. unfold on_sn. apply (keeps_zoom _ (λ x, ∃ y metrics, sn_step ctx OpEpochReport (au_sn (store t)) y ∧ x = set_metrics (λ _, metrics) y));
        [by intros x Hx|by intros x y _ Hy|]. unfold SetMetricsState. keeps_steps.
      apply keeps_modify. intros x (y & metrics & Hy & ->). by exists y, (<[a := Build_SupernodeMetricsState v st.1 st.2.1 st.2.2]> metrics). }
    unfold bridgeCascadeBytesToSupernodeMetrics, applyStorageTruthScores, applyStorageTruthScore, applyIncompleteReportPenalty.
    keeps_steps; try (by apply keeps_zoom_frame). apply (Hk _ (_, (_, _))). }
  intros u _. apply Hm. exists (store t1), (sn_metrics (store t1)). split; [done|]. cbn. by destruct (store t1).
Qed.

Lemma wp_report_written ctx req sn params (b : bool) (t : st audit_store) :
  wp (report_writes ctx req sn params b) t
    (λ r t', ∀ u, r = Ok u → reported ctx req (au_reports (store t)) (au_reports (store t'))).
Proof.
  unfold report_writes. apply wp_bind. eapply wp_mono; [apply wp_SetReport|]. intros [[]|err] t1 Ht1; [|done].
  apply wp_bind, wp_zoom, wp_modify, wp_bind, wp_zoom, wp_modify.
  cbn [store events set_reports au_reports rp_reports rp_index rp_host rp_challenge].
  rewrite Ht1. cbn [report_put rp_reports rp_index rp_host rp_challenge]. set (rs := ReportStore _ _ _ _).
  eapply (wp_keeping (λ s, au_reports s = rs)); [apply (reports_bridge (λ x, x = rs))|done|].
  intros [] t3 Ht3. apply wp_bind, wp_zoom. eapply wp_mono; [apply wp_index_observations|].
  cbn [store]. rewrite Ht3. intros r t4 (-> & Hi1 & Hi2 & Hi3 & Hi4). set (t5 := St _ _).
  apply (wp_mono _ _ (λ _ t', au_reports (store t') = store t4));
    [by apply (reports_tail (λ x, x = store t4) _ _ params _ b t5)|].
  intros r t' Ht' u ->. rewrite Ht'. split; try done. intros k. rewrite Hi4. set_solver.
Qed.

Lemma wp_report_all ctx req sn params (b : bool) (t : st audit_store) :
  wp (report_writes ctx req sn params b) t (λ r t', ∀ u, r = Ok u →
    reported ctx req (au_reports (store t)) (au_reports (store t')) ∧ untouched (store t) (store t') ∧
    (sn_inv (au_sn (store t)) → registry_moved ctx (store t) (store t'))).
Proof.
  intros u Hu. split; [by apply (wp_report_written ctx req sn params b t u)|].
  split; [by apply (keeps_untouched ctx req sn params b (store t) t)|].
  intros Hinv. by apply (wp_report_registry ctx req sn params b t Hinv u).
Qed.

(** The assignment of the epoch for the reporter: the targets to probe, and
    whether the reporter probes at all. *)
Definition assignment_of (o : list string → list string) (ctx : Ctx) (req : MsgSubmitEpochReport)
    (s : audit_store) (targets : list string) (isProber : bool) : Prop :=
  let params := AuditParams_WithDefaults (AuditGetParams (au_epochs s)) in
  let e := rq_EpochId req in
  ∃ anchor, GetEpochAnchor e (au_epochs s) = Some anchor ∧
    let assignParams := match GetEpochParamsSnapshot e (au_epochs s) with
                        | Some p => AuditParams_WithDefaults p | None => params end in
    computeAuditPeerTargetsForReporter o assignParams
      (storageTruthEligibleChallengers (ea_ActiveSupernodeAccounts anchor) e assignParams
         (au_scores s))
      (ea_TargetSupernodeAccounts anchor) (ea_Seed anchor) (rq_Creator req) = Ok (targets, isProber).

(** The check of the observations against the assignment. *)
Definition probes_assigned (reporter : string) (targets : list string) (isProber : bool)
    (obs : list (option StorageChallengeObservation)) : Prop :=
  (isProber = false → observed obs = []) ∧ NoDup (observed obs) ∧
  ∀ a, a ∈ observed obs → a ∈ targets ∧ a ≠ ""%string ∧ a ≠ reporter.

Record report_valid (o : list string → list string) (ctx : Ctx) (req : MsgSubmitEpochReport)
    (s : audit_store) : Prop := {
  rv_epoch : ∃ epoch,
    deriveEpochAtHeight (BlockHeight ctx) (AuditParams_WithDefaults (AuditGetParams (au_epochs s)))
      = Ok epoch ∧ rq_EpochId req = EpochID epoch ∧
    StartHeight epoch ≤ BlockHeight ctx ≤ EndHeight epoch;
  rv_registered : is_Some (GetSuperNodeByAccount (rq_Creator req) (au_sn s));
  rv_targets : ∃ targets isProber, assignment_of o ctx req s targets isProber ∧
    probes_assigned (rq_Creator req) targets isProber (rq_StorageChallengeObservations req);
  rv_first : HasReport (rq_EpochId req) (rq_Creator req) (au_reports s) = false
}.

Lemma wp_checked_observations s reporter targets isProber n obs (t : st audit_store)
    (k : bool → M audit_store unit) Q :
  store t = s →
  (∀ b t', store t' = s → probes_assigned reporter targets isProber obs → wp (k b) t' Q) →
  (∀ err t', Q (Err err) t') →
  wp ((if negb isProber then
         _ ← ensure (bool_decide (obs = [])) ErrInvalidReporterState; mret false
       else
         seen ← valid_observations reporter (list_to_set targets) n ∅ obs;
         mret (size seen <? size (list_to_set targets : gset string))%nat) ≫= k) t Q.
Proof.
  intros Ht Hk Herr. apply wp_bind. destruct isProber; simpl negb; cbv iota.
  - apply wp_bind. eapply wp_mono; [apply wp_valid_observations|].
    intros [seen|err] t2 [Ht2 Hs]; [|apply Herr]. destruct (Hs seen eq_refl) as (? & _ & Ha).
    apply wp_ret, Hk; [by rewrite Ht2|]. split_and!; [done|done|].
    intros a (? & ? & Hal & _)%Ha. split_and!; try done. by apply elem_of_list_to_set in Hal.
  - apply wp_bind, wp_ensure; [|by intros; apply Herr]. intros Hobs%bool_decide_eq_true.
    apply wp_ret, Hk; [done|]. rewrite Hobs.
    split_and!; [done|constructor|by intros a ?%not_elem_of_nil].
Qed.

Lemma wp_SubmitEpochReport o ctx req (t : st audit_store) :
  wp (SubmitEpochReport o ctx req) t (λ r t', ∀ u, r = Ok u →
    report_valid o ctx req (store t) ∧
    reported ctx req (au_reports (store t)) (au_reports (store t')) ∧ untouched (store t) (store t') ∧
    (sn_inv (au_sn (store t)) → registry_moved ctx (store t) (store t'))).
Proof.
  unfold SubmitEpochReport. cbv zeta. set (s := store t).
  apply wp_bind, wp_ensure; [intros _|done]. apply wp_bind, wp_gets. fold s.
  apply wp_bind, wp_of_result; [|done]. intros epoch Hepoch.
  apply wp_bind, wp_ensure; [intros Heq%Z.eqb_eq|done].
  apply wp_bind, wp_ensure; [intros Hin|done]. apply wp_bind, wp_gets. fold s.
  apply wp_bind, wp_of_option; [intros sn Hsn|done].
  eapply (wp_keeping (λ x, x = s)); [|done|].
  { unfold validateHostMetricFields, validateHostUsagePercent. keeps_steps. }
  intros [] t1 Ht1. apply wp_bind, wp_gets. rewrite Ht1.
  apply wp_bind, wp_of_option; [intros anchor Hanchor|done].
  apply wp_bind, wp_gets. rewrite Ht1. apply wp_bind, wp_gets. rewrite Ht1.
  apply wp_bind, wp_of_result; [|done]. intros [targets isProber] Hassign. cbn [fst snd].
  apply wp_bind, wp_ensure; [intros _|done]. apply wp_bind, wp_ensure; [intros _|done].
  apply (wp_checked_observations s); [done| |done]. intros b t2 Ht2 Hv.
  apply wp_bind, wp_ensure; [intros _|done].
  eapply (wp_keeping (λ x, x = s)); [|done|].
  { unfold validateStorageProofResults, validateCompoundStorageProofCoverage. keeps_steps;
      [apply keeps_valid_results|apply keeps_coverage_loop]. }
  intros [] t3 Ht3. eapply (wp_keeping (λ x, x = s)); [|done|].
  { unfold validateStorageProofArtifactCounts, validateNoEligibleTicketConsistency. keeps_steps. }
  intros [] t4 Ht4. apply wp_bind, wp_gets. rewrite Ht4.
  apply wp_bind, wp_ensure; [intros Hdup%negb_true_iff|done].
  eapply wp_mono; [apply (wp_report_all ctx req sn)|]. intros r t' Hr u ->. rewrite <- Ht4.
  split; [|by apply (Hr u)].
  rewrite Ht4. split; [|done| |done].
  - exists epoch. split_and!; try done; apply negb_true_iff, orb_false_iff in Hin; lia.
  - exists targets, isProber. split; [|done]. by exists anchor.
Qed.

End Reports.
