(* ===== verification/EnforceThm.v ===== *)
(** * x/audit: who is postponed at the end of an epoch *)
From Stdlib Require Import ZArith Lia.
From stdpp Require Import base numbers strings list gmap sorting.
From S2P Require Import Prelude Sdk SupernodeTypes Supernode RegistryClients AuditParam AuditTypes Epoch Scoring.
From S2P Require Import AuditFacts ScoreKeeper HealOps HealMsg AuditReport AuditEvidence Enforcement.
From S2P Require Import SupernodeInv SupernodeThm ScoreInv HealInv ReportThm.
Open Scope Z_scope.

Section Band.
Context `{SdkAddress} `{LegacyDecOps}.

(** The suspicion score of an account at an epoch, decayed from its last update. *)
Definition suspicion (account : string) (epochID : Z) (params : AuditParams) (s : audit_store) : Z :=
  match sc_nodes (au_scores s) !! account with
  | None => 0
  | Some state => decayTowardZero (ns_SuspicionScore state)
                    (StorageTruthNodeSuspicionDecayPerEpoch params)
                    (epochDelta epochID (ns_LastUpdatedEpoch state))
  end.

(** Storage truth postpones nobody in these two modes. *)
Definition observing (params : AuditParams) : Prop :=
  StorageTruthEnforcementMode params = STORAGE_TRUTH_ENFORCEMENT_MODE_UNSPECIFIED ∨
  StorageTruthEnforcementMode params = STORAGE_TRUTH_ENFORCEMENT_MODE_SHADOW.

Lemma band_threshold params score :
  params_valid params →
  band_int storageTruthBandPostpone ≤ band_int (storageTruthBandForScore score params) →
  StorageTruthNodeSuspicionThresholdPostpone params ≤ score.
Proof.
  intros Hp. pose proof (pv_bands _ Hp) as Hb. unfold storageTruthBandForScore, reaches.
  destruct (_ && _) eqn:E1; [intros _; apply andb_true_iff in E1 as [_ E1%Z.leb_le]; lia|].
  clear E1. destruct (_ && _) eqn:E2; [intros _; by apply andb_true_iff in E2 as [_ E2%Z.leb_le]|].
  clear E2. destruct (_ && _); [by intros []|]. destruct (_ && _); by intros [].
Qed.

Definition is_postponed (v : bytes) (s : sn_store) : Prop :=
  ∃ sn, sn_records s !! v = Some sn ∧ LastState sn = Some SuperNodeStatePostponed.

Lemma wp_SetSuperNodePostponed ctx v reason (t : st sn_store) :
  records_ok (store t) →
  wp (SetSuperNodePostponed ctx v reason) t (λ r t', ∀ u, r = Ok u → is_postponed v (store t')).
Proof.
  intros Hr. unfold SetSuperNodePostponed, markPostponed, QuerySuperNode.
  apply wp_bind, wp_bind, wp_gets, wp_of_option; [|done]. intros sn Hsn.
  apply wp_bind, wp_of_option; [|done]. intros last Hlast.
  destruct (decide _) as [->|_]; [apply wp_ret; intros _ _; by exists sn|].
  apply wp_bind, wp_SetSuperNode; [done|]. intros v' sn' [_ ->]%SuperNode_Validate_Ok (_ & Hv' & _).
  apply wp_emit. intros _ _. cbn [store]. destruct (Hr v sn Hsn) as [_ Hv].
  destruct (with_defaults_fields (append_state ctx sn SuperNodeStatePostponed reason))
    as (Ha & Hs & _). rewrite Ha in Hv'. assert (v' = v) as -> by (cbn in Hv'; congruence).
  eexists. split; [apply lookup_insert_eq|]. unfold LastState. rewrite Hs. apply LastState_append.
Qed.

(** What the postponement writes. *)
Record postponed_now (sn : SuperNode) (epochID : Z) (strong : bool) (s' : audit_store) : Prop := {
  pn_state : ∃ v, ValAddressFromBech32 (ValidatorAddress sn) = Some v ∧ is_postponed v (au_sn s');
  pn_marker : getStorageTruthPostponedAtEpochID (SupernodeAccount sn) (au_postpone s') = Some epochID;
  pn_strong : strong = true → hasStorageTruthStrongPostponeMarker (SupernodeAccount sn) (au_postpone s') = true;
  pn_action : getActionFinalizationPostponedAtEpochID (SupernodeAccount sn) (au_postpone s') = None;
  pn_passes : ∃ st, sc_nodes (au_scores s') !! SupernodeAccount sn = Some st ∧
                    ns_CleanPassCountAtPostpone st = ns_CleanPassCount st
}.

(** The writes after the decision. *)
Lemma wp_postpone_marks sn epochID (strong : bool) state ev1 v (t : st audit_store) :
  ValAddressFromBech32 (ValidatorAddress sn) = Some v → is_postponed v (au_sn (store t)) →
  ns_SupernodeAccount state = SupernodeAccount sn →
  wp (_ ← on_postpone (setStorageTruthPostponedAtEpochID (SupernodeAccount sn) epochID);
      _ ← (if strong then on_postpone (setStorageTruthStrongPostponeMarker (SupernodeAccount sn))
           else mret tt);
      _ ← on_postpone (clearActionFinalizationPostponedAtEpochID (SupernodeAccount sn));
      _ ← on_scores (SetNodeSuspicionState (ns_postponed state));
      emit ev1) t (λ r t', ∀ u, r = Ok u → postponed_now sn epochID strong (store t')).
Proof.
  intros Hv Hp Hacc. apply wp_bind, wp_zoom, wp_modify, wp_bind.
  destruct strong; [apply wp_zoom, wp_modify|apply wp_ret];
    (apply wp_bind, wp_zoom, wp_modify, wp_bind, wp_zoom, wp_modify, wp_emit; intros _ _;
     split; [by exists v|apply lookup_insert_eq| |apply lookup_delete_eq|]).
  1,3: intros Hs; try done; apply bool_decide_eq_true; cbn; set_solver.
  all: eexists; cbn; by rewrite Hacc, lookup_insert_eq.
Qed.

Lemma wp_setSupernodePostponed ctx sn reason (t : st audit_store) (k : M audit_store unit) Q :
  records_ok (au_sn (store t)) →
  (∀ v t', ValAddressFromBech32 (ValidatorAddress sn) = Some v → is_postponed v (au_sn (store t')) →
     wp k t' (λ r t'', ∀ u, r = Ok u → Q t'')) →
  wp (_ ← setSupernodePostponed ctx sn reason; k) t (λ r t'', ∀ u, r = Ok u → Q t'').
Proof.
  intros Hr Hk. unfold setSupernodePostponed, with_validator, at_validator.
  apply wp_bind, wp_zoom, wp_bind, wp_ensure; [intros _|done].
  apply wp_bind, wp_of_option; [|done]. intros v Hv.
  eapply wp_mono; [by apply wp_SetSuperNodePostponed|]. intros [[]|err] t1 Hp; [|done].
  apply (Hk v); [done|]. by apply (Hp tt).
Qed.

(** ** Faults on record

    What a supernode must have done to be postponed, in terms of the facts in the store:
    a failure is a record of the account in the last [w] epochs. *)
Definition recently (epochID w e : Z) : Prop := 0 ≤ e ∧ epochID - w < e ≤ epochID.
Definition failed (account : string) (epochID w : Z) (fs : fact_store) (k : string * Z * string * string)
    (r : storageTruthNodeFailureRecord) : Prop :=
  fa_failures fs !! k = Some r ∧ k.1.1.1 = account ∧ recently epochID w k.1.1.2.
Definition wrong_data (r : storageTruthNodeFailureRecord) : Prop :=
  nf_ResultClass r = CLASS_HASH_MISMATCH ∨ nf_ResultClass r = CLASS_RECHECK_CONFIRMED_FAIL.
Definition two_tickets (P : (string * Z * string * string) → storageTruthNodeFailureRecord → Prop) : Prop :=
  ∃ k k' r r', P k r ∧ P k' r' ∧ nf_TicketID r ≠ nf_TicketID r' ∧ nf_TicketID r ≠ "" ∧ nf_TicketID r' ≠ "".

(** The scans of the code find them. *)
Section Scans.
Context (account : string) (epochID : Z) (fs : fact_store) (He : 0 ≤ epochID < MaxUint64).
Lemma window_recently w e : 0 < w → in_epochs (storageTruthWindowStart epochID w) epochID e ↔ recently epochID w e.
Proof.
  intros Hw. unfold in_epochs, recently, storageTruthWindowStart, MaxUint64 in *.
  rewrite (u64_small (epochID + 1)) by (unfold in_u64; lia).
  destruct (Z.eqb_spec w 0); [lia|]. cbn. destruct (Z.leb_spec (epochID + 1) w); [lia|].
  rewrite (u64_small (epochID - w)), u64_small by (unfold in_u64; lia). lia.
Qed.
Lemma node_failures_failed w incl k r :
  0 < w → node_failures account (storageTruthWindowStart epochID w) epochID incl fs !! k = Some r ↔
  failed account epochID w fs k r ∧ incl r = true.
Proof.
  intros Hw. unfold node_failures, failed. rewrite map_lookup_filter_Some. cbn. rewrite window_recently by done. tauto.
Qed.
Lemma failed_tickets w incl :
  0 < w → (2 ≤ size (distinctNodeFailedTickets account (storageTruthWindowStart epochID w) epochID incl fs).1)%nat →
  two_tickets (λ k r, failed account epochID w fs k r ∧ incl r = true).
Proof.
  intros Hw Hs. unfold distinctNodeFailedTickets in Hs. cbn [fst] in Hs.
  match type of Hs with context [size ?X] => set (T := X) in Hs end.
  destruct (set_choose_L T) as [t Ht]; [by intros E; rewrite E, size_empty in Hs; lia|].
  destruct (set_choose_L (T ∖ {[t]})) as [t' Ht'].
  { intros E. assert (T ⊆ {[t]}) as Hsub%subseteq_size; [|rewrite size_singleton in Hsub; lia].
    intros x Hx. destruct (decide (x = t)) as [->|Hne]; [by apply elem_of_singleton|].
    assert (x ∈ T ∖ {[t]}) as Hd by by apply elem_of_difference; rewrite not_elem_of_singleton.
    rewrite E in Hd. by apply elem_of_empty in Hd. }
  assert (∀ x, x ∈ T → ∃ k r, (failed account epochID w fs k r ∧ incl r = true) ∧ nf_TicketID r = x ∧ x ≠ "") as Hin.
  { intros x. unfold T. rewrite elem_of_list_to_set, list_elem_of_filter, list_elem_of_fmap.
    intros [Hne (r & -> & Hr)]. apply list_elem_of_fmap in Hr as ([k r'] & -> & Hr%elem_of_map_to_list).
    exists k, r'. by rewrite <- (node_failures_failed w incl). }
  apply elem_of_difference in Ht' as [Ht' Hne%not_elem_of_singleton].
  destruct (Hin _ Ht) as (k & r & Hkr & <- & ?), (Hin _ Ht') as (k' & r' & Hkr' & <- & ?). by exists k, k', r, r'.
Qed.
(** As many keys as failures are counted *)
Lemma failed_keys w incl n :
  0 < w → Z.of_nat n ≤ (distinctNodeFailedTickets account (storageTruthWindowStart epochID w) epochID incl fs).2 →
  ∃ ks, NoDup ks ∧ length ks = n ∧ ∀ k, k ∈ ks → ∃ r, failed account epochID w fs k r ∧ incl r = true.
Proof.
  intros Hw Hn. unfold distinctNodeFailedTickets, zlen in Hn. cbn [snd] in Hn. rewrite length_fmap in Hn.
  set (m := node_failures _ _ _ _ _) in Hn. exists (take n (map_to_list m).*1). split_and!.
  - pose proof (NoDup_fst_map_to_list m) as Hnd. rewrite <- (take_drop n (map_to_list m).*1) in Hnd.
    by apply NoDup_app in Hnd as [Hnd _].
  - rewrite length_take, length_fmap. lia.
  - intros k Hk%elem_of_take. destruct Hk as (i & Hk & _). apply list_elem_of_lookup_2 in Hk.
    apply list_elem_of_fmap in Hk as ([k' r] & -> & Hr%elem_of_map_to_list). exists r. by apply node_failures_failed.
Qed.
Lemma no_failures w incl :
  0 < w → (distinctNodeFailedTickets account (storageTruthWindowStart epochID w) epochID incl fs).2 = 0 →
  ∀ k r, ¬ (failed account epochID w fs k r ∧ incl r = true).
Proof.
  intros Hw Hz k r Hf. apply node_failures_failed in Hf; [|done]. unfold distinctNodeFailedTickets, zlen, MaxUint32 in Hz.
  cbn [snd] in Hz. rewrite length_fmap in Hz. apply elem_of_map_to_list in Hf. destruct (map_to_list _); [|cbn in Hz; lia].
  by apply not_elem_of_nil in Hf.
Qed.
Lemma no_tickets w incl :
  0 < w → size (distinctNodeFailedTickets account (storageTruthWindowStart epochID w) epochID incl fs).1 = 0%nat →
  ∀ k r, failed account epochID w fs k r → incl r = true → nf_TicketID r = "".
Proof.
  intros Hw Hz k r Hf Hi. destruct (decide (nf_TicketID r = "")) as [|Hne]; [done|]. exfalso.
  unfold distinctNodeFailedTickets in Hz. cbn [fst] in Hz. apply size_empty_inv in Hz. apply (not_elem_of_empty (C := gset string) (nf_TicketID r)), Hz.
  rewrite elem_of_list_to_set, list_elem_of_filter. split; [done|]. apply list_elem_of_fmap_2, list_elem_of_fmap.
  exists (k, r). split; [done|]. apply elem_of_map_to_list. by apply node_failures_failed.
Qed.
End Scans.

Section Faults.
Context (account : string) (epochID : Z) (params : AuditParams) (st : NodeSuspicionState) (fs : fact_store).
Let wA := or_default (StorageTruthClassAFaultWindow params) 14.
Let wB := or_default (StorageTruthClassBFaultWindow params) 7.
Let wOld := or_default (StorageTruthOldClassAFaultWindow params) 21.

(** Any one of these postpones. *)
Inductive postpone_fault : Prop :=
| fault_recent k r k' r' : failed account epochID wA fs k r → nf_BucketType r = BUCKET_RECENT → wrong_data r →
    failed account epochID wA fs k' r' → k' ≠ k → postpone_fault
| fault_counted : (∀ k r, ¬ failed account epochID wA fs k r) → 1 ≤ ns_ClassACountWindow st →
    2 ≤ u32 (ns_ClassACountWindow st + ns_ClassBCountWindow st) → postpone_fault
| fault_silent ks : NoDup ks → length ks = 4%nat →
    (∀ k, k ∈ ks → ∃ r, failed account epochID wB fs k r ∧ nf_ResultClass r = CLASS_TIMEOUT_OR_NO_RESPONSE) → postpone_fault
| fault_old : two_tickets (λ k r, failed account epochID wOld fs k r ∧ nf_BucketType r = BUCKET_OLD ∧ wrong_data r) →
    postpone_fault.
(** Any one of these postpones until a stronger recovery. *)
Inductive strong_fault : Prop :=
| strong_tickets : two_tickets (λ k r, failed account epochID wA fs k r ∧ wrong_data r) → strong_fault
| strong_counted : (∀ k r, failed account epochID wA fs k r → wrong_data r → nf_TicketID r = "") →
    2 ≤ ns_ClassACountWindow st → strong_fault
| strong_index k r : failed account epochID wA fs k r → nf_ArtifactClass r = ARTIFACT_INDEX → strong_fault
| strong_index_epoch : 0 < ns_LastIndexFailEpoch st → epochID - ns_LastIndexFailEpoch st < wA → strong_fault
| strong_heal e ticket : (account, e, ticket) ∈ fa_failed_heals fs → recently epochID wA e → strong_fault.

Context (He : 0 ≤ epochID < MaxUint64) (Hp : params_valid params).
Lemma windows_positive : 0 < wA ∧ 0 < wB ∧ 0 < wOld.
Proof.
  pose proof (pv_history _ Hp) as Hh. rewrite Forall_forall in Hh.
  assert (∀ w d, w ∈ lookbacks params → 0 < d → 0 < or_default w d) as Hpos; [|split_and!; (apply Hpos; [unfold lookbacks; set_solver|done])].
  intros w d Hw Hd. unfold or_default. destruct (Z.eqb_spec w 0); [done|].
  assert (0 ≤ w ≤ KeepLastEpochEntries params) by (apply Hh; by right). lia.
Qed.
Lemma class_a_wrong r : storageTruthIsClassAFault r = true → wrong_data r.
Proof. unfold storageTruthIsClassAFault, is_class_a, wrong_data. by rewrite orb_true_iff, !bool_decide_eq_true. Qed.

(** One failure of wrong data and another one of any kind *)
Lemma recent_and_another k r ks :
  failed account epochID wA fs k r → nf_BucketType r = BUCKET_RECENT → wrong_data r → NoDup ks → length ks = 2%nat →
  (∀ k, k ∈ ks → ∃ r, failed account epochID wA fs k r ∧ true = true) → postpone_fault.
Proof.
  intros Hf Hb Hc Hnd Hl Hks. destruct ks as [|k1 [|k2 []]]; try done. apply NoDup_cons in Hnd as [Hnd _].
  rewrite list_elem_of_singleton in Hnd. destruct (decide (k1 = k)) as [->|Hne].
  - destruct (Hks k2) as (r2 & Hf2 & _); [set_solver|]. by apply (fault_recent k r k2 r2); auto.
  - destruct (Hks k1) as (r1 & Hf1 & _); [set_solver|]. by apply (fault_recent k r k1 r1); auto.
Qed.

Lemma postpone_met sc :
  sc_nodes sc !! account = Some st →
  storageTruthPostponePredicatesMet account storageTruthBandPostpone epochID params sc fs = true → postpone_fault.
Proof.
  intros Hst. unfold storageTruthPostponePredicatesMet. rewrite Hst. cbv zeta. fold wA wB wOld.
  destruct windows_positive as (HA & HB & HO).
  intros Hm. apply orb_true_iff in Hm as [Hm|Hm]; [apply orb_true_iff in Hm as [Hm|Hm]|].
  - destruct (Z.eqb_spec (distinctNodeFailedTickets account (storageTruthWindowStart epochID wA) epochID (λ _, true) fs).2 0) as [Hz|Hz].
    + apply andb_true_iff in Hm as [H1'%Z.leb_le H2'%Z.leb_le]. apply fault_counted; [|done..].
      intros k r Hf. by apply (no_failures account epochID fs He wA (λ _, true) HA Hz k r).
    + apply andb_true_iff in Hm as [H1'%Z.ltb_lt H2'%Z.leb_le].
      destruct (failed_keys account epochID fs He wA _ 1 HA (proj2 (Z.le_succ_l 0 _) H1')) as ([|k []] & _ & Hl & Hk); try done.
      destruct (Hk k) as (r & Hf & [Hb%bool_decide_eq_true Hc%class_a_wrong]%andb_true_iff); [by left|].
      destruct (failed_keys account epochID fs He wA _ 2 HA H2') as (ks & Hnd & Hl2 & Hks).
      by apply (recent_and_another k r ks).
  - apply Z.leb_le in Hm. destruct (failed_keys account epochID fs He wB _ 4 HB Hm) as (ks & Hnd & Hl & Hks).
    apply (fault_silent ks); [done..|]. intros k (r & Hf & Hc%bool_decide_eq_true)%Hks. eauto.
  - apply Nat.leb_le in Hm. apply fault_old.
    destruct (failed_tickets account epochID fs He wOld _ HO Hm) as (k & k' & r & r' & [Hf Hi] & [Hf' Hi'] & Hne).
    apply andb_true_iff in Hi as [?%bool_decide_eq_true ?%class_a_wrong].
    apply andb_true_iff in Hi' as [?%bool_decide_eq_true ?%class_a_wrong]. by exists k, k', r, r'.
Qed.
Lemma strong_met sc :
  sc_nodes sc !! account = Some st →
  storageTruthPostponePredicatesMet account storageTruthBandStrongPostpone epochID params sc fs = true → strong_fault.
Proof.
  intros Hst. unfold storageTruthPostponePredicatesMet. rewrite Hst. cbv zeta. fold wA.
  destruct windows_positive as (HA & _ & _).
  intros Hm. apply orb_true_iff in Hm as [Hm|Hm]; [apply orb_true_iff in Hm as [Hm|Hm]; [|apply orb_true_iff in Hm as [Hm|Hm]]|].
  - destruct (Nat.eqb_spec (size (distinctNodeFailedTickets account (storageTruthWindowStart epochID wA) epochID
      storageTruthIsClassAFault fs).1) 0) as [Hz|Hz].
    + apply Z.leb_le in Hm. apply strong_counted; [|done]. intros k r Hf Hw.
      apply (no_tickets account epochID fs He wA _ HA Hz k r Hf).
      unfold storageTruthIsClassAFault, is_class_a. by rewrite orb_true_iff, !bool_decide_eq_true.
    + apply Nat.leb_le in Hm. apply strong_tickets.
      destruct (failed_tickets account epochID fs He wA _ HA Hm) as (k & k' & r & r' & [Hf ?%class_a_wrong] & [Hf' ?%class_a_wrong] & Hne).
      by exists k, k', r, r'.
  - unfold hasNodeFailure in Hm. apply Z.ltb_lt in Hm.
    destruct (failed_keys account epochID fs He wA _ 1 HA (proj2 (Z.le_succ_l 0 _) Hm)) as ([|k []] & _ & Hl & Hk); try done.
    destruct (Hk k) as (r & Hf & Hc%bool_decide_eq_true); [by left|]. by apply (strong_index k r).
  - apply andb_true_iff in Hm as [Hm1%Z.ltb_lt Hm2%Z.ltb_lt]. apply strong_index_epoch; [done|].
    unfold epochDelta in Hm2. destruct (Z.leb_spec epochID (ns_LastIndexFailEpoch st)); lia.
  - unfold hasStorageTruthFailedHeal in Hm. apply existsb_exists in Hm as ([[a e] ticket] & Hin & Hm).
    apply andb_true_iff in Hm as [Ha%bool_decide_eq_true Hm%bool_decide_eq_true]. cbn in Ha, Hm. subst a.
    apply (strong_heal e ticket); [by apply elem_of_elements, list_elem_of_In|]. by apply window_recently in Hm.
Qed.
End Faults.

(** The two outcomes of the band check. *)
Definition band_outcome (sn : SuperNode) (epochID : Z) (params : AuditParams) (s : audit_store)
    (r : result unit) (s' : audit_store) : Prop :=
  let account := SupernodeAccount sn in
  let score := suspicion account epochID params s in
  let strong := bool_decide (StorageTruthNodeSuspicionThresholdStrongPostpone params ≤ score
                             ∧ 0 < StorageTruthNodeSuspicionThresholdStrongPostpone params) in
  (r = Ok tt ∧ s' = s) ∨
  ∃ st, (StorageTruthEnforcementMode params = STORAGE_TRUTH_ENFORCEMENT_MODE_SOFT ∨
         StorageTruthEnforcementMode params = STORAGE_TRUTH_ENFORCEMENT_MODE_FULL) ∧
    0 < score ∧ StorageTruthNodeSuspicionThresholdPostpone params ≤ score ∧
    sc_nodes (au_scores s) !! account = Some st ∧
    (if strong then strong_fault account epochID params st (au_facts s)
     else postpone_fault account epochID params st (au_facts s)) ∧
    (r = Ok tt → postponed_now sn epochID strong s').

Lemma band_strong params score :
  bool_decide (storageTruthBandForScore score params = storageTruthBandStrongPostpone) =
  bool_decide (StorageTruthNodeSuspicionThresholdStrongPostpone params ≤ score
               ∧ 0 < StorageTruthNodeSuspicionThresholdStrongPostpone params).
Proof.
  apply bool_decide_ext. unfold storageTruthBandForScore, reaches. destruct (_ && _) eqn:E1.
  - apply andb_true_iff in E1 as [?%Z.ltb_lt ?%Z.leb_le]. tauto.
  - apply andb_false_iff in E1 as [?%Z.ltb_ge|?%Z.leb_gt]; (split; [|lia]);
      repeat (destruct (_ && _); [done|]); done.
Qed.
Lemma enforcing params :
  params_valid params → ¬ observing params →
  StorageTruthEnforcementMode params = STORAGE_TRUTH_ENFORCEMENT_MODE_SOFT ∨
  StorageTruthEnforcementMode params = STORAGE_TRUTH_ENFORCEMENT_MODE_FULL.
Proof.
  intros Hp Ho. pose proof (pv_mode _ Hp) as Hm. unfold observing in Ho.
  destruct (StorageTruthEnforcementMode params) as [| | | |z]; auto; [tauto..|]. by destruct (Hm z).
Qed.
Lemma faults_met account epochID params st sc fs band :
  params_valid params → 0 ≤ epochID < MaxUint64 → sc_nodes sc !! account = Some st →
  band_int storageTruthBandPostpone ≤ band_int band →
  storageTruthPostponePredicatesMet account band epochID params sc fs = true →
  if bool_decide (band = storageTruthBandStrongPostpone) then strong_fault account epochID params st fs
  else postpone_fault account epochID params st fs.
Proof.
  intros Hp He Hst Hb Hm. destruct band; try done.
  - by apply (postpone_met account epochID params st fs He Hp sc).
  - by apply (strong_met account epochID params st fs He Hp sc).
Qed.

Lemma wp_band ctx sn epochID params (t : st audit_store) :
  params_valid params → 0 ≤ epochID < MaxUint64 → records_ok (au_sn (store t)) →
  (∀ a st, sc_nodes (au_scores (store t)) !! a = Some st → ns_SupernodeAccount st = a) →
  wp (applyStorageTruthBandAtEpochEnd ctx sn epochID params) t
    (λ r t', band_outcome sn epochID params (store t) r (store t')).
Proof.
  intros Hp He Hr Hk. set (account := SupernodeAccount sn). set (s := store t).
  unfold band_outcome. cbv zeta. fold account. set (score := suspicion account epochID params s).
  rewrite <- (band_strong params score). set (band := storageTruthBandForScore score params).
  unfold applyStorageTruthBandAtEpochEnd. cbv zeta. fold account.
  destruct (decide _) as [|Hm1]; [by apply wp_ret; left|].
  apply wp_bind, wp_gets. cbn [store]. fold s.
  destruct (sc_nodes (au_scores s) !! account) as [state|] eqn:Est; [|by apply wp_ret; left].
  assert (decayTowardZero (ns_SuspicionScore state) (StorageTruthNodeSuspicionDecayPerEpoch params)
            (epochDelta epochID (ns_LastUpdatedEpoch state)) = score) as ->
    by (unfold score, suspicion; by rewrite Est).
  destruct (Z.leb_spec score 0) as [|Hpos]; [by apply wp_ret; left|]. fold band.
  destruct (decide _); [by apply wp_ret; left|]. apply wp_bind, wp_emit.
  destruct (decide _) as [|Hm2]; [by apply wp_ret; left|].
  destruct (Z.ltb_spec (band_int band) (band_int storageTruthBandPostpone)) as [|Hband];
    [by apply wp_ret; left|]. apply wp_bind, wp_gets. cbn [store]. fold s.
  destruct (storageTruthPostponePredicatesMet account band epochID params (au_scores s) (au_facts s))
    eqn:Epred; [|by apply wp_ret; left]. simpl negb. cbv iota.
  eapply wp_mono; [apply (wp_setSupernodePostponed ctx sn _ _ _
    (postponed_now sn epochID (bool_decide (band = storageTruthBandStrongPostpone)) ∘ store)); [done|]|].
  - intros v t1 Hv Hpp. apply (wp_postpone_marks sn epochID _ state _ v); [done|done|by apply Hk].
  - intros r t' Hpost. right. exists state. split_and!; [|done|by apply band_threshold|done|by apply (faults_met _ _ _ _ (au_scores s))|].
    + apply enforcing; [done|]. by intros [?|?].
    + intros ->. by apply (Hpost tt).
Qed.

(** C14. Storage truth postpones a supernode only for recorded faults.  With validated
    parameters the band check at the end of an epoch either leaves the whole store as it
    is, or the enforcement mode is SOFT or FULL, the decayed suspicion score of the account
    has reached the postpone threshold, and one of the faults of its band is in the store:
    for a plain postponement, wrong data of a recent file and another failure, four
    timeouts, or wrong data of two old files, within their look-back windows; for a strong
    one, wrong data of two files, a failure or an epoch of an index artifact, or a failed
    heal; the counters of the score stand in where the window holds no failure.
    When it then succeeds the supernode is POSTPONED, its marker names the epoch, and the
    clean passes that recovery counts start from here. *)
Theorem storage_truth_postpones_guilty ctx sn epochID params s ev :
  params_valid params → 0 ≤ epochID < MaxUint64 → records_ok (au_sn s) →
  (∀ a st, sc_nodes (au_scores s) !! a = Some st → ns_SupernodeAccount st = a) →
  let '(r, t') := applyStorageTruthBandAtEpochEnd ctx sn epochID params (St s ev) in
  let account := SupernodeAccount sn in
  let score := suspicion account epochID params s in
  let strong := bool_decide (StorageTruthNodeSuspicionThresholdStrongPostpone params ≤ score
                             ∧ 0 < StorageTruthNodeSuspicionThresholdStrongPostpone params) in
  (r = Ok tt ∧ store t' = s) ∨
  ∃ st, (StorageTruthEnforcementMode params = STORAGE_TRUTH_ENFORCEMENT_MODE_SOFT ∨
         StorageTruthEnforcementMode params = STORAGE_TRUTH_ENFORCEMENT_MODE_FULL) ∧
    0 < score ∧ StorageTruthNodeSuspicionThresholdPostpone params ≤ score ∧
    sc_nodes (au_scores s) !! account = Some st ∧
    (if strong then strong_fault account epochID params st (au_facts s)
     else postpone_fault account epochID params st (au_facts s)) ∧
    (r = Ok tt → postponed_now sn epochID strong (store t')).
Proof.
  intros Hp He Hr Hk. pose proof (wp_band ctx sn epochID params (St s ev) Hp He Hr Hk) as Hwp.
  unfold wp in Hwp. by destruct (applyStorageTruthBandAtEpochEnd _ _ _ _ _).
Qed.

(** An old storage-truth marker shields an ACTIVE supernode from every other
    check.  When the account of an ACTIVE supernode still has a marker and the
    band check does not postpone it again (the mode only observes, or the score has
    decayed below the threshold), the end of the epoch leaves the whole store as it
    is, whatever [shouldPostponeAtEpochEnd] says of missing reports, host metrics,
    closed ports and failed finalizations. *)
Theorem stale_marker_shields ctx sn epochID params s ev at_ :
  params_valid params → 0 ≤ epochID < MaxUint64 → records_ok (au_sn s) →
  (∀ a st, sc_nodes (au_scores s) !! a = Some st → ns_SupernodeAccount st = a) →
  getStorageTruthPostponedAtEpochID (SupernodeAccount sn) (au_postpone s) = Some at_ →
  observing params ∨ suspicion (SupernodeAccount sn) epochID params s
                     < StorageTruthNodeSuspicionThresholdPostpone params →
  ∃ ev', enforce_active ctx epochID params sn (St s ev) = (Ok tt, St s ev').
Proof.
  intros Hp He Hr Hk Hmark Hcalm.
  assert (wp (enforce_active ctx epochID params sn) (St s ev) (λ r t', r = Ok tt ∧ store t' = s))
    as Hwp.
  { unfold enforce_active. cbv zeta. destruct (decide _); [by apply wp_ret|]. apply wp_bind.
    eapply wp_mono; [by apply wp_band|]. cbn [store].
    intros r t' [[-> Ht']|(st & Hm & _ & Hth & _)];
      [|exfalso; destruct Hcalm as [[Ho|Ho]|]; [rewrite Ho in Hm; by destruct Hm..|lia]].
    apply wp_bind, wp_gets. rewrite Ht', Hmark. by apply wp_ret. }
  unfold wp in Hwp. destruct (enforce_active _ _ _ _ _) as [r [s' ev']]. simpl in Hwp.
  destruct Hwp as [-> ->]. by exists ev'.
Qed.
End Band.
