(* ===== verification/AuditExamples.v ===== *)
(** * x/audit: one epoch, step by step

    Four supernodes; two of them report that the other has lost the artifacts of a
    ticket.  At the end of the epoch one of the two is postponed and a heal
    operation is scheduled, which the healer then reports and a verifier confirms.
    The states are reachable, and the properties of the module are applied to
    them. *)
From Stdlib Require Import ZArith Lia.
From stdpp Require Import base numbers strings list gmap sorting.
From S2P Require Import Prelude Sdk Float SupernodeTypes Supernode SupernodeMsg SupernodeInv.
From S2P Require Import SupernodeThm ActionStore AuditParam AuditTypes Epoch EpochThm Scoring.
From S2P Require Import Assign AssignThm AuditFacts ScoreKeeper HealOps HealMsg AuditReport.
From S2P Require Import AuditEvidence Enforcement AuditEnd ScoreInv AuditSys HealInv HealEpoch.
From S2P Require Import AuditThm PruneThm ReportThm EnforceThm.
Open Scope Z_scope.

Module AuditExamples.
Import Sdk.Concrete.
#[local] Open Scope string_scope.
#[local] Open Scope Z_scope.

#[export] Instance params_codec : ParamsCodec := {| params_Marshal p := u64be (EpochLengthBlocks p) |}.
#[export] Instance evidence_codec : EvidenceCodec :=
  {| json_to_proto _ s := Some (string_bytes s);
     unmarshalChallengeFailure _ := None |}.

(** The default parameters, with storage truth off and enforced. *)
Definition with_mode (m : EnforcementMode) : AuditParams :=
  match AuditDefaultParams with
  | mkAuditParams a1 a2 a3 a4 a5 a6 a7 a8 a9 a10 a11 a12 a13 a14 a15 a16 a17 a18 a19 a20 a21 a22 a23
      a24 a25 a26 a27 a28 a29 a30 a31 a32 a33 a34 a35 a36 _ b1 b2 b3 b4 b5 b6 b7 b8 b9 b10 b11 b12
      b13 b14 =>
      mkAuditParams a1 a2 a3 a4 a5 a6 a7 a8 a9 a10 a11 a12 a13 a14 a15 a16 a17 a18 a19 a20 a21 a22
        a23 a24 a25 a26 a27 a28 a29 a30 a31 a32 a33 a34 a35 a36 m
        b1 b2 b3 b4 b5 b6 b7 b8 b9 b10 b11 b12 b13 b14
  end.
Definition off : AuditParams := with_mode STORAGE_TRUTH_ENFORCEMENT_MODE_UNSPECIFIED.
Definition soft : AuditParams := with_mode STORAGE_TRUTH_ENFORCEMENT_MODE_SOFT.
Lemma off_typed : params_typed off.
Proof. unfold params_typed. split_and!; repeat constructor; vm_compute; done. Qed.
Lemma off_valid : AuditParams_Validate (AuditParams_WithDefaults off) = Ok tt.
Proof. vm_compute. reflexivity. Qed.
Lemma soft_typed : params_typed soft.
Proof. exact off_typed. Qed.
Lemma soft_valid : AuditParams_Validate soft = Ok tt.
Proof. vm_compute. reflexivity. Qed.
Lemma soft_defaults : AuditParams_WithDefaults soft = soft.
Proof. vm_compute. reflexivity. Qed.

Definition node (i : string) : MsgRegisterSupernode :=
  {| reg_Creator := "aval" +:+ i; reg_ValidatorAddress := "vval" +:+ i; reg_IpAddress := "10.0.0.1";
     reg_SupernodeAccount := "asn" +:+ i; reg_P2PPort := "" |}.
Definition nodes : sn_store :=
  store (for_each (RegisterSupernode (ctx_at 1 0)) [node "1"; node "2"; node "3"; node "4"]
           (St (SnStore ∅ ∅ ∅ SupernodeThm.Examples.params) [])).2.

(** The result of a proof that found other bytes than the index file should have. *)
Definition bad (reporter target ticket hash : string) (b : StorageProofBucketType)
    (c : StorageProofArtifactClass) : StorageProofResult :=
  mkProofResult target reporter ticket b c 0 "key" CLASS_HASH_MISMATCH hash "" 4 "derivation"
    "signature" [].
Definition report (reporter target : string) (results : list StorageProofResult)
    : MsgSubmitEpochReport :=
  {| rq_Creator := reporter; rq_EpochId := 1;
     rq_HostReport := mkHostReport (f64_of_Z 10) (f64_of_Z 10) (f64_of_Z 10) [] 0 (f64_of_Z 0);
     rq_StorageChallengeObservations := [Some (mkObservation target (replicate 3 AUDIT_PORT_OPEN))];
     rq_StorageProofResults := Some <$> results |}.
Definition report1 : MsgSubmitEpochReport :=
  report "asn1" "asn2" [bad "asn1" "asn2" "ticket1" "h1" BUCKET_OLD ARTIFACT_INDEX;
                        bad "asn1" "asn2" "ticket1" "h2" BUCKET_RECENT ARTIFACT_INDEX;
                        bad "asn1" "asn2" "ticket2" "h3" BUCKET_RECENT ARTIFACT_INDEX].
Definition report2 : MsgSubmitEpochReport :=
  report "asn2" "asn1" [bad "asn2" "asn1" "ticket1" "h4" BUCKET_OLD ARTIFACT_INDEX;
                        bad "asn2" "asn1" "ticket1" "h5" BUCKET_RECENT ARTIFACT_INDEX;
                        bad "asn2" "asn1" "ticket1" "h6" BUCKET_RECENT ARTIFACT_SYMBOL].
Definition claim : MsgClaimHealComplete :=
  {| ch_Creator := "asn4"; ch_HealOpId := 1; ch_TicketId := "ticket1";
     ch_HealManifestHash := "manifest"; ch_Details := "" |}.
Definition verification : MsgSubmitHealVerification :=
  {| hv_Creator := "asn3"; hv_HealOpId := 1; hv_Verified := true; hv_VerificationHash := "manifest";
     hv_Details := "" |}.
(** The operator of the postponed supernode stops it and starts it again. *)
Definition stop_start : M sn_store unit :=
  _ ← StopSupernode (ctx_at 801 0)
        {| stop_Creator := "aval2"; stop_ValidatorAddress := "vval2"; stop_Reason := "" |};
  StartSupernode (ctx_at 801 0) {| start_Creator := "aval2"; start_ValidatorAddress := "vval2" |}.

Definition run (h : Z) (c : audit_call) (s : audit_store) : audit_store :=
  store (run_tx (run_call "gov" "action" (ctx_at h 0) c) (St s [])).2.
Definition s0 : audit_store := audit_genesis off nodes.
Definition s1 : audit_store := run 401 Call_BeginBlocker s0.
Definition s2 : audit_store :=
  run 401 (Call_UpdateParams {| up_Authority := "gov"; up_Params := soft |}) s1.
Definition s3 : audit_store := run 402 (Call_SubmitEpochReport (λ l, l) report1) s2.
Definition s4 : audit_store := run 403 (Call_SubmitEpochReport (λ l, l) report2) s3.
Definition s5 : audit_store := run 800 (Call_EndBlocker sort_stable) s4.
Definition s6 : audit_store := run 801 (Call_ClaimHealComplete claim) s5.
Definition s7 : audit_store := run 802 (Call_SubmitHealVerification verification) s6.
Definition s8 : audit_store := run 801 (Call_Supernode stop_start) s5.

#[local] Notation reached := (audit_reachable "gov" "action").
Lemma reached_run h c s : reached s → call_ok s (ctx_at h 0) c → reached (run h c s).
Proof. apply audit_reach_call. Qed.
(** The parameters of a state, and the calls that they admit. *)
Lemma call_fine h c s p :
  AuditGetParams (au_epochs s) = p → 0 ≤ h → h + EpochLengthBlocks p ≤ MaxInt64 →
  match c with Call_UpdateParams msg => params_typed (up_Params msg)
             | Call_EndBlocker _ => ids_left s | _ => True end →
  call_ok s (ctx_at h 0) c.
Proof. intros <-. split; [assumption|split; assumption]. Qed.

Ltac compute_le := vm_compute; discriminate.
Ltac reach Hp := apply reached_run; [assumption|apply (call_fine _ _ _ _ Hp); [compute_le..|]].
Lemma s0_reached : reached s0.
Proof. apply audit_reach_genesis; [exact off_typed|exact off_valid]. Qed.
Lemma s1_reached : reached s1.
Proof.
  pose proof s0_reached. assert (AuditGetParams (au_epochs s0) = off) as Hp by (vm_compute; reflexivity).
  reach Hp. exact I.
Qed.
Lemma s2_reached : reached s2.
Proof.
  pose proof s1_reached. assert (AuditGetParams (au_epochs s1) = off) as Hp by (vm_compute; reflexivity).
  reach Hp. exact soft_typed.
Qed.
Lemma s3_reached : reached s3.
Proof.
  pose proof s2_reached. assert (AuditGetParams (au_epochs s2) = soft) as Hp by (vm_compute; reflexivity).
  reach Hp. exact I.
Qed.
Lemma s4_reached : reached s4.
Proof.
  pose proof s3_reached. assert (AuditGetParams (au_epochs s3) = soft) as Hp by (vm_compute; reflexivity).
  reach Hp. exact I.
Qed.
Lemma s5_reached : reached s5.
Proof.
  pose proof s4_reached. assert (AuditGetParams (au_epochs s4) = soft) as Hp by (vm_compute; reflexivity).
  reach Hp. vm_compute. reflexivity.
Qed.
Lemma s5_params : AuditGetParams (au_epochs s5) = soft.
Proof. vm_compute. reflexivity. Qed.
Lemma s6_reached : reached s6.
Proof. pose proof s5_reached. reach s5_params. exact I. Qed.
Lemma s8_reached : reached s8.
Proof. pose proof s5_reached. reach s5_params. exact I. Qed.
Lemma s7_reached : reached s7.
Proof.
  pose proof s6_reached. assert (AuditGetParams (au_epochs s6) = soft) as Hp by (vm_compute; reflexivity).
  reach Hp. exact I.
Qed.

(** Values of a few fields of the states. *)
Lemma Some_inj {A} (a b : A) : Some a = Some b → a = b.
Proof. by intros [= ->]. Qed.
Lemma fmap_Some_eq {A B} (f : A → B) (o : option A) b :
  f <$> o = Some b → ∃ a, o = Some a ∧ f a = b.
Proof. destruct o as [a|]; [|discriminate]. intros [= <-]. by exists a. Qed.
Ltac pick f o :=
  let H := fresh in
  eassert (f <$> o = Some _) as H by (vm_compute; reflexivity); apply fmap_Some_eq in H; revert H.

(** The heal operation is verified, by the one verifier that it has. *)
Lemma heal_safety_witness :
  ∃ op, hs_ops (au_heal s7) !! 1 = Some op ∧ ho_Status op = HEAL_VERIFIED ∧
        majority_of op ≤ count_votes true 1 op (au_heal s7) ∧
        ho_HealerSupernodeAccount op ∉ ho_VerifierSupernodeAccounts op.
Proof.
  pick ho_Status (hs_ops (au_heal s7) !! 1). intros (op & Hop & Hst).
  destruct (heal_safety "gov" "action" s7 s7_reached) as (_ & _ & _ & _ & Hops).
  destruct (Hops 1 op Hop) as (_ & _ & Hh & _ & Hv & _).
  exists op. exact (conj Hop (conj Hst (conj (Hv Hst) Hh))).
Defined.

Lemma scores_bounded_witness :
  ∃ st, sc_nodes (au_scores s5) !! "asn2" = Some st ∧ ns_SuspicionScore st = 98 ∧ node_ok "asn2" st.
Proof.
  pick ns_SuspicionScore (sc_nodes (au_scores s5) !! "asn2"). intros (st & Hst & Hs).
  exists st. split; [exact Hst|]. split; [exact Hs|].
  exact (scores_nodes _ (scores_bounded "gov" "action" s5 s5_reached) _ _ Hst).
Defined.

(** Nobody heals the ticket: at the end of epoch 4 the operation expires. *)
Lemma heal_ops_expire_witness :
  ∃ t' op', ProcessStorageTruthHealOpsAtEpochEnd (ctx_at 2000 0) 4 soft (St s5 []) = (Ok tt, t') ∧
    hs_ops (au_heal (store t')) !! 1 = Some op' ∧ ho_Status op' = HEAL_EXPIRED.
Proof.
  assert (accounts_read 4 s5) as Hacc by (eexists; vm_compute; reflexivity).
  pose proof (heal_ops_expire "gov" "action" s5 (ctx_at 2000 0) (mkEpochInfo 4 1601 2000)
                s5_reached) as Hx.
  cbv zeta in Hx. rewrite s5_params in Hx.
  destruct Hx as (t' & Ht' & _ & Hold);
    [apply (call_fine _ _ _ _ s5_params); [compute_le..|exact I]|vm_compute; reflexivity
    |vm_compute; reflexivity|exact Hacc|].
  pick (λ o, (ho_Status o, ho_DeadlineEpochId o)) (hs_ops (au_heal s5) !! 1).
  intros (op & Hop & [= Hst Hdl]). destruct (Hold 1 op Hop) as (op' & Hop' & Hrel).
  exists t', op'. split; [exact Ht'|]. split; [exact Hop'|].
  destruct Hrel as [[Hn _]|[_ Hexp]]; [|exact Hexp]. exfalso. apply Hn.
  split; [unfold open_op; rewrite Hst; reflexivity|]. rewrite Hdl. compute_le.
Defined.


(** Long after, pruning does not change what is decided about the accounts. *)
Lemma prune_invisible_witness :
  GetReport 1 "asn1" (au_reports (store (PruneOldEpochs 1000 soft (St s5 [])).2)) = None ∧
  shouldPostponeAtEpochEnd "asn1" (1000 + 1) soft (store (PruneOldEpochs 1000 soft (St s5 [])).2) =
  shouldPostponeAtEpochEnd "asn1" (1000 + 1) soft s5.
Proof.
  assert (0 ≤ 1000 < 2 ^ 62) as He by lia.
  assert (GetReport 1 "asn1" (au_reports (store (PruneOldEpochs 1000 soft (St s5 [])).2)) = None)
    as Hgone by (vm_compute; reflexivity).
  split; [exact Hgone|]. clear Hgone. generalize s5. intros s.
  destruct (prune_invisible 1000 soft (St s []) soft_defaults soft_typed soft_valid He)
    as (_ & Ha & Hd). exact (proj1 (Hd _ _ "asn1" Ha)).
Defined.

Lemma records_ok_list s :
  Forall (λ kv : bytes * SuperNode, SuperNode_Validate kv.2 = Ok kv.2 ∧
            ValAddressFromBech32 (ValidatorAddress kv.2) = Some kv.1) (map_to_list (sn_records s)) →
  records_ok s.
Proof.
  intros Hl v sn Hv. rewrite Forall_forall in Hl. apply (Hl (v, sn)). by apply elem_of_map_to_list.
Qed.
Lemma nodes_keyed s :
  reached s → ∀ a st, sc_nodes (au_scores s) !! a = Some st → ns_SupernodeAccount st = a.
Proof. intros Hs a st Hst. apply (scores_nodes _ (ok_scores _ (audit_reachable_ok _ _ _ Hs)) _ _ Hst). Qed.
Lemma s4_records : records_ok (au_sn s4).
Proof. apply records_ok_list. vm_compute. repeat constructor. Qed.
Lemma s8_records : records_ok (au_sn s8).
Proof. apply records_ok_list. vm_compute. repeat constructor. Qed.
Definition val2 : bytes := string_bytes "val2".
Definition marker (t : st audit_store) : option Z := pp_storage (au_postpone (store t)) !! "asn2".

Definition band_run (sn : SuperNode) : result unit * st audit_store :=
  applyStorageTruthBandAtEpochEnd (ctx_at 800 0) sn 1 soft (St s4 []).

(** The second supernode has reached 98 points, and two tickets failed. *)
Lemma storage_truth_postpones_guilty_witness :
  ∃ sn t', sn_records (au_sn s4) !! val2 = Some sn ∧
    applyStorageTruthBandAtEpochEnd (ctx_at 800 0) sn 1 soft (St s4 []) = (Ok tt, t') ∧
    postponed_now sn 1 false (store t').
Proof.
  assert (SupernodeAccount <$> sn_records (au_sn s4) !! val2 = Some "asn2") as Ha
    by (vm_compute; reflexivity).
  assert ((λ sn, is_ok (band_run sn).1) <$> sn_records (au_sn s4) !! val2 = Some true) as Hok
    by (vm_compute; reflexivity).
  assert ((λ sn, marker (band_run sn).2) <$> sn_records (au_sn s4) !! val2 = Some (Some 1)) as Hmark
    by (vm_compute; reflexivity).
  revert Ha Hok Hmark. destruct (sn_records (au_sn s4) !! val2) as [sn|] eqn:Hsn; [|discriminate].
  intros Ha%Some_inj Hok%Some_inj Hmark%Some_inj.
  assert (suspicion "asn2" 1 soft s4 = 98) as Hs by (vm_compute; reflexivity).
  assert (pp_storage (au_postpone s4) !! "asn2" = None) as Hnone by (vm_compute; reflexivity).
  pose proof (storage_truth_postpones_guilty (ctx_at 800 0) sn 1 soft s4 []
    (Validate_valid _ soft_typed soft_valid) ltac:(split; reflexivity || (intros Hc; discriminate Hc)) s4_records (nodes_keyed _ s4_reached)) as Hg.
  exists sn. revert Hg Hok Hmark. unfold band_run.
  destruct (applyStorageTruthBandAtEpochEnd (ctx_at 800 0) sn 1 soft (St s4 [])) as [[[]|err] t'];
    [|discriminate].
  cbv zeta. rewrite Ha, Hs. intros Hg _ Hmark. exists t'. split; [reflexivity|]. split; [reflexivity|].
  destruct Hg as [[_ Hsame]|(st & _ & _ & _ & _ & _ & Hp)]; [|exact (Hp eq_refl)].
  exfalso. cbn [snd] in Hmark. unfold marker in Hmark. rewrite Hsame, Hnone in Hmark. discriminate.
Defined.

(** After a stop and a start the postponed supernode is ACTIVE again.  It has sent no
    report for epoch 3, and is left alone. *)
Lemma stale_marker_shields_witness :
  ∃ sn ev', sn_records (au_sn s8) !! val2 = Some sn ∧ LastState sn = Some SuperNodeStateActive ∧
    shouldPostponeAtEpochEnd "asn2" 3 soft s8 = Ok (Some "audit_missing_reports") ∧
    enforce_active (ctx_at 1600 0) 3 soft sn (St s8 []) = (Ok tt, St s8 ev').
Proof.
  pick (λ sn, (SupernodeAccount sn, LastState sn)) (sn_records (au_sn s8) !! val2).
  intros (sn & Hsn & Heq). pose proof (f_equal fst Heq) as Ha. pose proof (f_equal snd Heq) as Hst.
  cbn [fst snd] in Ha, Hst.
  assert (getStorageTruthPostponedAtEpochID "asn2" (au_postpone s8) = Some 1) as Hm
    by (vm_compute; reflexivity).
  assert (suspicion "asn2" 3 soft s8 < StorageTruthNodeSuspicionThresholdPostpone soft) as Hlow
    by (vm_compute; reflexivity).
  assert (shouldPostponeAtEpochEnd "asn2" 3 soft s8 = Ok (Some "audit_missing_reports")) as Hwould
    by (vm_compute; reflexivity).
  exists sn. rewrite <- Ha in Hm, Hlow.
  destruct (stale_marker_shields (ctx_at 1600 0) sn 3 soft s8 [] 1
    (Validate_valid _ soft_typed soft_valid) ltac:(split; reflexivity || (intros Hc; discriminate Hc)) s8_records (nodes_keyed _ s8_reached) Hm
    (or_intror Hlow)) as [ev' Hev].
  exists ev'. exact (conj Hsn (conj Hst (conj Hwould Hev))).
Defined.

(** ** Assignments *)
Definition seed : bytes := [1; 2; 3; 4; 5; 6; 7; 8].
Lemma challenge_targets_exclusive_witness :
  "b" ∈ computeStorageTruthTargetsForReporter id soft ["a"; "b"] ["b"] seed "a" ∧
  ("b" ∈ computeStorageTruthTargetsForReporter id soft ["a"; "b"] ["b"] seed "b" → "a" = "b").
Proof.
  assert (computeStorageTruthTargetsForReporter id soft ["a"; "b"] ["b"] seed "a" = ["b"]) as E
    by (vm_compute; reflexivity).
  assert ("b" ∈ computeStorageTruthTargetsForReporter id soft ["a"; "b"] ["b"] seed "a") as Hin
    by (rewrite E; left).
  split; [exact Hin|].
  apply (challenge_targets_exclusive id soft ["a"; "b"] ["b"] seed "a" "b" "b" (λ l, Permutation_refl l)
           Hin).
Defined.

Lemma assignment_deterministic_witness :
  computeAuditPeerTargetsForReporter id soft ["a"; "b"] ["a"; "b"; "c"] seed "a" =
  computeAuditPeerTargetsForReporter reverse soft ["a"; "b"] ["a"; "b"; "c"] seed "a".
Proof.
  apply (assignment_deterministic id reverse); intros l; [reflexivity|]. apply reverse_Permutation.
Defined.

Lemma peer_targets_exact_witness :
  ∃ l, computeAuditPeerTargetsForReporter id off ["a"; "b"] ["a"; "b"; "c"] seed "a" = Ok (l, true) ∧
       zlen l = 2.
Proof.
  destruct (peer_targets_exact id off ["a"; "b"] ["a"; "b"; "c"] seed "a") as (l & Hl & Hk & _);
    [reflexivity|split; vm_compute; discriminate|discriminate|left|vm_compute; discriminate
    |repeat constructor; set_solver|split; reflexivity|].
  exists l. split; [exact Hl|]. rewrite Hk. reflexivity.
Defined.
End AuditExamples.
