(* ===== verification/Uint128.v ===== *)
(** * Arithmetic modulo 2^127 - 1 on 128-bit words

    x/lumeraid/legroast/uint128_utils.go on top of lukechampine.com/uint128.  A
    [Uint128] is the number it holds; its fields [Lo] and [Hi] are the two halves.
    The package's operations are an interface, with their documented results as
    laws: [Add], [Sub], [Mul64] and the like panic when the result does not fit. *)
From Stdlib Require Import ZArith Lia Zdiv.
From stdpp Require Import base numbers strings list.
From S2P Require Import Prelude.
Open Scope Z_scope.

(** ** The result monad *)
#[export] Instance result_ret : MRet result := λ A a, Ok a.
#[export] Instance result_bind : MBind result := λ A B k m,
  match m with Ok a => k a | Err e => Err e end.

(** [m] returns, with a value in [Q]. *)
Definition returns {A} (m : result A) (Q : A → Prop) : Prop :=
  match m with Ok a => Q a | Err _ => False end.

Lemma returns_ret {A} (a : A) (Q : A → Prop) : Q a → returns (mret a) Q.
Proof. done. Qed.
Lemma returns_bind {A B} (m : result A) (k : A → result B) (Q : B → Prop) :
  returns m (λ a, returns (k a) Q) → returns (m ≫= k) Q.
Proof. by destruct m. Qed.
Lemma returns_mono {A} (m : result A) (P Q : A → Prop) :
  returns m P → (∀ a, P a → Q a) → returns m Q.
Proof. destruct m; simpl; auto. Qed.
Lemma returns_inv {A} (m : result A) (Q : A → Prop) : returns m Q → ∃ a, m = Ok a ∧ Q a.
Proof. destruct m; simpl; [eauto|done]. Qed.

Lemma returns_mapM {A B} (f : A → result B) (R : A → B → Prop) l :
  (∀ x, x ∈ l → returns (f x) (R x)) → returns (mapM f l) (Forall2 R l).
Proof.
  induction l as [|x l IH]; intros Hf; [constructor|]. apply returns_bind.
  eapply returns_mono; [apply Hf; left|]. intros y Hy. apply returns_bind.
  eapply returns_mono; [apply IH; intros; apply Hf; by right|].
  intros k Hk. by constructor.
Qed.

(** ** lukechampine.com/uint128 *)
Definition u128_max : Z := 2 ^ 128.
Definition in_u128 (z : Z) : Prop := 0 ≤ z < u128_max.
Definition Lo (u : Z) : Z := u mod 2 ^ 64.
Definition Hi (u : Z) : Z := u / 2 ^ 64.

Class Uint128Lib := {
  u128_From64 : Z → Z;
  u128_Add : Z → Z → result Z;
  u128_Add64 : Z → Z → result Z;
  u128_Sub : Z → Z → result Z;
  u128_Mul64 : Z → Z → result Z;
  u128_Mod : Z → Z → result Z;
  u128_Lsh : Z → Z → Z;
  u128_Rsh : Z → Z → Z;
  u128_FromBytes : bytes → Z;
  u128_PutBytes : Z → bytes
}.

Class Uint128Laws `{Uint128Lib} : Prop := {
  from64_law v : 0 ≤ v < 2 ^ 64 → u128_From64 v = v;
  add_law u v : in_u128 u → in_u128 v → u + v < u128_max → u128_Add u v = Ok (u + v);
  add64_law u v : in_u128 u → 0 ≤ v < 2 ^ 64 → u + v < u128_max → u128_Add64 u v = Ok (u + v);
  sub_law u v : in_u128 u → in_u128 v → v ≤ u → u128_Sub u v = Ok (u - v);
  mul64_law u v : in_u128 u → 0 ≤ v < 2 ^ 64 → u * v < u128_max → u128_Mul64 u v = Ok (u * v);
  mod_law u v : in_u128 u → in_u128 v → v ≠ 0 → u128_Mod u v = Ok (u mod v);
  lsh_law u n : in_u128 u → 0 ≤ n ≤ 128 → u128_Lsh u n = (u * 2 ^ n) mod u128_max;
  rsh_law u n : in_u128 u → 0 ≤ n ≤ 128 → u128_Rsh u n = u / 2 ^ n;
  from_bytes_range b : length b = 16%nat → in_u128 (u128_FromBytes b);
  put_bytes_length u : length (u128_PutBytes u) = 16%nat;
  from_put_bytes u : in_u128 u → u128_FromBytes (u128_PutBytes u) = u
}.

(** ** uint128_utils.go *)
Definition m127 : Z := 2 ^ 127 - 1.
Definition Uint128Size : nat := 16.

Section Arith.
Context `{Uint128Lib}.

(** bits.Add64: the sum and the carry out. *)
Definition bits_Add64 (x y carry : Z) : Z * Z :=
  (u64 (x + y + carry), (x + y + carry) / 2 ^ 64).

Definition SafeAddUint128 (u v : Z) : Z * Z :=
  let '(lo, carryLo) := bits_Add64 (Lo u) (Lo v) 0 in
  let '(hi, carryHi) := bits_Add64 (Hi u) (Hi v) carryLo in
  (hi * 2 ^ 64 + lo, carryHi).

Definition reduceModP (pa : Z) : result Z := u128_Mod pa m127.

Definition addModP (pa b : Z) : result Z :=
  let '(sum, carry) := SafeAddUint128 pa b in
  if 0 <? carry then sum ← reduceModP sum; u128_Add64 sum 2 else Ok sum.

(** The new values of [*out] and [*a]. *)
Definition squareModP (a : Z) : result (Z * Z) :=
  a ← reduceModP a;
  let lowa := Lo a in
  let higha := Hi a in
  outLow ← u128_Mul64 (u128_From64 lowa) lowa;
  lohi ← u128_Mul64 (u128_From64 lowa) higha;
  let out64 := u128_Lsh lohi 1 in
  hihi ← u128_Mul64 (u128_From64 higha) higha;
  out127 ← u128_Add hihi (u128_Rsh out64 64);
  let out127 := u128_Lsh out127 1 in
  let out64 := u128_Lsh out64 64 in
  out ← addModP outLow out127;
  out ← addModP out out64;
  Ok (out, a).

(** The new values of [*out], [*a] and [*b]. *)
Definition mulAddModP (out a b : Z) : result (Z * Z * Z) :=
  a ← reduceModP a;
  b ← reduceModP b;
  out0 ← u128_Mul64 (u128_From64 (Lo a)) (Lo b);
  ab ← u128_Mul64 (u128_From64 (Lo a)) (Hi b);
  ba ← u128_Mul64 (u128_From64 (Lo b)) (Hi a);
  out64 ← u128_Add ab ba;
  hihi ← u128_Mul64 (u128_From64 (Hi a)) (Hi b);
  out127 ← u128_Add hihi (u128_Rsh out64 64);
  let out127 := u128_Lsh out127 1 in
  let out64 := u128_Lsh out64 64 in
  out ← addModP out out0;
  out ← addModP out out127;
  out ← addModP out out64;
  Ok (out, a, b).

(** [n] squarings in place. *)
Fixpoint square_times (n : nat) (temp : Z) : result Z :=
  match n with
  | O => Ok temp
  | S n' => '(temp, _) ← squareModP temp; square_times n' temp
  end.

(** [times] rounds of [n] squarings of [out] followed by a multiplication. *)
Fixpoint square_multiply (times n : nat) (out by_ : Z) : result (Z * Z) :=
  match times with
  | O => Ok (out, by_)
  | S times' =>
      temp ← square_times n out;
      '(out, _, by_) ← mulAddModP 0 temp by_;
      square_multiply times' n out by_
  end.

(** Five rounds of one squaring with [a], then twenty of six with the result of
    the first phase.  The byte is [(-out.Lo + 1) / 2] in 64-bit arithmetic. *)
Definition legendreSymbolCT (a : Z) : result Z :=
  '(out, _) ← square_multiply 5 1 a a;
  let temp2 := out in
  '(out, _) ← square_multiply 20 6 out temp2;
  out ← reduceModP out;
  Ok (u8 (u64 (- Lo out + 1) / 2)).
End Arith.

(** ** The arithmetic modulo p

    Results are words that need not be reduced; what is known of them is their
    residue. *)
Record eqz (m a b : Z) : Prop := Eqz { eqz_same : a mod m = b mod m }.
Abbreviation eqp := (eqz m127).

#[export] Instance eqz_equiv m : Equivalence (eqz m).
Proof.
  split.
  - by intros a.
  - intros a b [E]. by split.
  - intros a b c [E1] [E2]. split. congruence.
Qed.
#[export] Instance eqz_add m : Proper (eqz m ==> eqz m ==> eqz m) Z.add.
Proof. intros a b [E] c d [F]. split. by rewrite Zplus_mod, E, F, <-Zplus_mod. Qed.
#[export] Instance eqz_mul m : Proper (eqz m ==> eqz m ==> eqz m) Z.mul.
Proof. intros a b [E] c d [F]. split. by rewrite Zmult_mod, E, F, <-Zmult_mod. Qed.
#[export] Instance eqz_opp m : Proper (eqz m ==> eqz m) Z.opp.
Proof. intros a b E. by rewrite !Z.opp_eq_mul_m1, E. Qed.
#[export] Instance eqz_sub m : Proper (eqz m ==> eqz m ==> eqz m) Z.sub.
Proof. intros a b E c d F. by rewrite <-!Z.add_opp_r, E, F. Qed.
#[export] Instance eqz_pow m : Proper (eqz m ==> eq ==> eqz m) Z.pow.
Proof.
  intros a b E n _ <-. destruct (Z.neg_nonneg_cases n) as [Hn|Hn];
    [by rewrite !Z.pow_neg_r|].
  pattern n. apply natlike_ind; [done| |done].
  intros k Hk IH. rewrite !Z.pow_succ_r by done. rewrite IH. by apply eqz_mul.
Qed.

Lemma eqz_mod m a : eqz m (a mod m) a.
Proof. split. by rewrite Zmod_mod. Qed.
Lemma eqz_of_eq m a b : a = b → eqz m a b.
Proof. by intros ->. Qed.
Lemma eqz_divide m a b : m ≠ 0 → eqz m a b ↔ (m | a - b).
Proof.
  intros Hm. split.
  - intros [E]. apply Z.mod_divide; [done|]. by rewrite Zminus_mod, E, Z.sub_diag.
  - intros [k Hk]. split. replace a with (b + k * m) by lia. by rewrite Z_mod_plus_full.
Qed.
Lemma eqp_mod a : eqp (a mod m127) a.
Proof. apply eqz_mod. Qed.
Lemma eqp_of_eq a b : a = b → eqp a b.
Proof. apply eqz_of_eq. Qed.
Lemma eqp_zero : eqp m127 0.
Proof. done. Qed.
(** 2^128 is 2. *)
Lemma eqp_u128 : eqp u128_max 2.
Proof. done. Qed.
Lemma eqp_eq a b : 0 ≤ a < m127 → 0 ≤ b < m127 → eqp a b → a = b.
Proof. intros Ha Hb [E]. by rewrite !Z.mod_small in E. Qed.

Definition residue (r x : Z) : Prop := in_u128 r ∧ eqp r x.

Lemma mod_range a : 0 ≤ a mod m127 < m127.
Proof. by apply Z.mod_pos_bound. Qed.
Lemma mod_word a : in_u128 (a mod m127).
Proof. pose proof (mod_range a). unfold in_u128, u128_max, m127 in *. lia. Qed.
Lemma halves u : u = Hi u * 2 ^ 64 + Lo u.
Proof. unfold Hi, Lo. pose proof (Z.div_mod u (2 ^ 64)). lia. Qed.
Lemma Lo_range u : 0 ≤ Lo u < 2 ^ 64.
Proof. by apply Z.mod_pos_bound. Qed.
Lemma Hi_range u b : 0 ≤ u < b * 2 ^ 64 → 0 ≤ Hi u < b.
Proof. intros Hu. unfold Hi. split; [apply Z.div_pos; lia|]. apply Z.div_lt_upper_bound; lia. Qed.

Lemma SafeAdd_spec u v :
  in_u128 u → in_u128 v → SafeAddUint128 u v = ((u + v) mod u128_max, (u + v) / u128_max).
Proof.
  intros Hu Hv. unfold SafeAddUint128, bits_Add64, u64.
  pose proof (halves u). pose proof (halves v).
  pose proof (Lo_range u). pose proof (Lo_range v).
  pose proof (Hi_range u (2 ^ 64) Hu). pose proof (Hi_range v (2 ^ 64) Hv).
  unfold in_u128, u128_max in *.
  set (a := Lo u) in *; set (b := Lo v) in *; set (c := Hi u) in *; set (d := Hi v) in *.
  clearbody a b c d. f_equal; Z.to_euclidean_division_equations; lia.
Qed.

Section Spec.
Context `{Uint128Laws}.

Lemma reduceModP_eq a : in_u128 a → reduceModP a = Ok (a mod m127).
Proof. intros Ha. by apply mod_law. Qed.

Lemma addModP_spec a b x y :
  residue a x → residue b y → returns (addModP a b) (λ r, residue r (x + y)).
Proof.
  intros [Ha Ex] [Hb Ey]. unfold addModP. rewrite SafeAdd_spec by done.
  assert (eqp (a + b) (x + y)) as E by (by rewrite Ex, Ey).
  pose proof (Z.div_mod (a + b) u128_max) as Hdm.
  pose proof (Z.mod_pos_bound (a + b) u128_max eq_refl) as Hm.
  set (s := (a + b) mod u128_max) in *. set (c := (a + b) / u128_max) in *.
  assert (0 ≤ c ≤ 1) as Hc.
  { subst c. unfold in_u128 in *. split; [apply Z.div_pos; lia|].
    apply Z.lt_succ_r, Z.div_lt_upper_bound; lia. }
  destruct (Z.ltb_spec 0 c) as [Hc'|Hc'].
  - rewrite reduceModP_eq by done. cbn [mbind result_bind].
    pose proof (mod_range s). rewrite add64_law; [|apply mod_word|done|unfold u128_max, m127 in *; lia].
    split; [unfold in_u128, u128_max, m127 in *; lia|].
    rewrite eqp_mod, <-E, Hdm by done. replace c with 1 by lia.
    transitivity (s + u128_max); [by apply eqz_add|]. apply eqp_of_eq. ring.
  - split; [done|]. rewrite <-E, Hdm by done. replace c with 0 by lia. apply eqp_of_eq. ring.
Qed.

Lemma mul64_words a b :
  0 ≤ a < 2 ^ 64 → 0 ≤ b < 2 ^ 64 → u128_Mul64 (u128_From64 a) b = Ok (a * b).
Proof.
  intros Ha Hb. rewrite from64_law by done. apply mul64_law; unfold in_u128, u128_max; nia.
Qed.

(** Shifting the middle part of a product by 64 bits: what goes out at the top
    counts twice. *)
Lemma lsh64_split m : in_u128 m →
  u128_Lsh m 64 = Lo m * 2 ^ 64.
Proof.
  intros Hm. rewrite lsh_law by (done || lia). unfold Lo, u128_max.
  change (2 ^ 128) with (2 ^ 64 * 2 ^ 64). by rewrite Z.mul_mod_distr_r.
Qed.
Lemma product_split ah al bh bl m :
  m = al * bh + bl * ah →
  eqp (al * bl + (ah * bh + Hi m) * 2 + Lo m * 2 ^ 64)
      ((ah * 2 ^ 64 + al) * (bh * 2 ^ 64 + bl)).
Proof.
  intros Hm. pose proof (halves m) as Hs.
  transitivity (al * bl + (ah * bh + Hi m) * u128_max + Lo m * 2 ^ 64).
  { apply eqz_add; [|done]. apply eqz_add; [done|]. by apply eqz_mul. }
  apply eqp_of_eq. change u128_max with (2 ^ 64 * 2 ^ 64).
  transitivity (al * bl + ah * bh * (2 ^ 64 * 2 ^ 64) + (Hi m * 2 ^ 64 + Lo m) * 2 ^ 64); [ring|].
  rewrite <-Hs, Hm. ring.
Qed.

Lemma mulAddModP_spec out a b o x y :
  residue out o → residue a x → residue b y →
  returns (mulAddModP out a b) (λ r,
    residue r.1.1 (o + x * y) ∧ r.1.2 = a mod m127 ∧ r.2 = b mod m127).
Proof.
  intros Ho [Ha Ex] [Hb Ey]. unfold mulAddModP. rewrite !reduceModP_eq by done.
  cbn [mbind result_bind].
  assert (eqp (a mod m127 * (b mod m127)) (x * y)) as E by (by rewrite !eqp_mod, Ex, Ey).
  pose proof (mod_range a) as Ra. pose proof (mod_range b) as Rb.
  set (a' := a mod m127) in *. set (b' := b mod m127) in *. clearbody a' b'.
  pose proof (halves a') as Ea. pose proof (halves b') as Eb.
  pose proof (Lo_range a'). pose proof (Lo_range b').
  pose proof (Hi_range a' (2 ^ 63)) as Hha. pose proof (Hi_range b' (2 ^ 63)) as Hhb.
  unfold m127 in Ra, Rb. specialize (Hha ltac:(lia)). specialize (Hhb ltac:(lia)).
  rewrite !mul64_words by lia. cbn [mbind result_bind].
  set (m := Lo a' * Hi b' + Lo b' * Hi a').
  assert (in_u128 m) as Hm by (unfold in_u128, u128_max; subst m; nia).
  pose proof (Hi_range m (2 ^ 64) Hm) as Hmh.
  rewrite add_law by (unfold in_u128, u128_max in *; nia). fold m. cbn [mbind result_bind].
  rewrite rsh_law by (done || lia). change (m / 2 ^ 64) with (Hi m).
  assert (0 ≤ Hi a' * Hi b' ≤ 2 ^ 126) by nia.
  rewrite add_law by (unfold in_u128, u128_max in *; lia). cbn [mbind result_bind].
  rewrite lsh64_split by done.
  rewrite (lsh_law _ 1) by (unfold in_u128, u128_max in *; lia).
  rewrite Z.mod_small by (unfold u128_max; lia).
  pose proof (product_split (Hi a') (Lo a') (Hi b') (Lo b') m eq_refl) as Ep.
  rewrite <-Ea, <-Eb in Ep.
  apply returns_bind. eapply returns_mono.
  { apply addModP_spec; [exact Ho|]. split; [|reflexivity]. unfold in_u128, u128_max; nia. }
  intros o1 G1. apply returns_bind. eapply returns_mono.
  { apply addModP_spec; [exact G1|]. split; [|reflexivity]. unfold in_u128, u128_max in *; lia. }
  intros o2 G2. apply returns_bind. eapply returns_mono.
  { apply addModP_spec; [exact G2|]. split; [|reflexivity].
    pose proof (Lo_range m). unfold in_u128, u128_max in *; lia. }
  intros o3 [G3 E3]. simpl. split_and!; [|done..]. split; [done|]. rewrite E3.
  rewrite <-E, <-Ep. apply eqp_of_eq. ring.
Qed.

Lemma squareModP_spec a x :
  residue a x → returns (squareModP a) (λ r, residue r.1 (x * x)).
Proof.
  intros [Ha Ex]. unfold squareModP. rewrite !reduceModP_eq by done. cbn [mbind result_bind].
  assert (eqp (a mod m127 * (a mod m127)) (x * x)) as E by (by rewrite !eqp_mod, Ex).
  pose proof (mod_range a) as Ra. set (a' := a mod m127) in *. clearbody a'.
  pose proof (halves a') as Ea. pose proof (Lo_range a').
  pose proof (Hi_range a' (2 ^ 63)) as Hha. unfold m127 in Ra. specialize (Hha ltac:(lia)).
  rewrite !mul64_words by lia. cbn [mbind result_bind].
  rewrite (lsh_law _ 1) by (unfold in_u128, u128_max; nia).
  rewrite Z.mod_small by (unfold u128_max; nia).
  set (m := Lo a' * Hi a' * 2 ^ 1).
  assert (in_u128 m) as Hm by (unfold in_u128, u128_max; subst m; nia).
  pose proof (Hi_range m (2 ^ 64) Hm) as Hmh.
  rewrite rsh_law by (done || lia). change (m / 2 ^ 64) with (Hi m).
  assert (0 ≤ Hi a' * Hi a' ≤ 2 ^ 126) by nia.
  rewrite add_law by (unfold in_u128, u128_max in *; lia). cbn [mbind result_bind].
  rewrite lsh64_split by done.
  rewrite (lsh_law _ 1) by (unfold in_u128, u128_max in *; lia).
  rewrite Z.mod_small by (unfold u128_max; lia).
  pose proof (product_split (Hi a') (Lo a') (Hi a') (Lo a') m ltac:(subst m; ring)) as Ep.
  rewrite <-Ea in Ep.
  apply returns_bind. eapply returns_mono.
  { apply addModP_spec; (split; [|reflexivity]); unfold in_u128, u128_max; nia. }
  intros o1 G1. apply returns_bind. eapply returns_mono.
  { apply addModP_spec; [exact G1|]. split; [|reflexivity].
    pose proof (Lo_range m). unfold in_u128, u128_max in *; lia. }
  intros o3 [G3 E3]. split; [done|]. simpl. rewrite E3, <-E, <-Ep. apply eqp_of_eq. ring.
Qed.
End Spec.
