(* ===== verification/Field127.v ===== *)
(** * The field of 2^127 - 1 elements

    The number theory behind the residue symbols of x/lumeraid/legroast: 2^127 - 1
    is prime (the Lucas-Lehmer test, proved and evaluated), and a polynomial over
    the field has no more roots than its degree. *)
From Stdlib Require Import ZArith Lia Zdiv Znumtheory Zmod.ZmodInv.
From stdpp Require Import base numbers list.
From S2P Require Import Prelude Uint128.
Open Scope Z_scope.

(** ** The test *)
Fixpoint lucas_lehmer (n : nat) (s : Z) : Z :=
  match n with O => s | S n' => lucas_lehmer n' ((s * s - 2) mod m127) end.

(** Numbers x + y √3 with coefficients modulo [q]. *)
Section Extension.
Context (q : Z) (Hq : 1 < q).
Abbreviation ext := (Z * Z)%type.
Definition emul (a b : ext) : ext :=
  ((a.1 * b.1 + 3 * (a.2 * b.2)) mod q, (a.1 * b.2 + a.2 * b.1) mod q).
Definition eone : ext := (1, 0).
Fixpoint epow (a : ext) (n : nat) : ext :=
  match n with O => eone | S n' => emul a (epow a n') end.
Definition reduced (a : ext) : Prop := 0 ≤ a.1 < q ∧ 0 ≤ a.2 < q.

Lemma reduced_mul a b : reduced (emul a b).
Proof. split; apply Z.mod_pos_bound; lia. Qed.
Lemma emul_one a : reduced a → emul eone a = a.
Proof.
  destruct a as [x y]. intros [Hx Hy]. unfold emul. simpl in *. f_equal.
  - rewrite Z.mod_small; lia.
  - rewrite Z.mod_small; lia.
Qed.
Lemma emul_comm a b : emul a b = emul b a.
Proof. unfold emul. f_equal; f_equal; ring. Qed.
Lemma emul_assoc a b c : emul a (emul b c) = emul (emul a b) c.
Proof.
  unfold emul. simpl. f_equal; apply eqz_same; rewrite !eqz_mod; apply eqz_of_eq; ring.
Qed.

Lemma reduced_one : reduced eone.
Proof. split; simpl; lia. Qed.
Lemma reduced_pow a n : reduced (epow a n).
Proof. destruct n; [apply reduced_one|apply reduced_mul]. Qed.
Lemma epow_add a n m : epow a (n + m) = emul (epow a n) (epow a m).
Proof.
  induction n as [|n IH]; simpl; [by rewrite emul_one by apply reduced_pow|].
  by rewrite IH, emul_assoc.
Qed.
Lemma epow_mul a n m : epow a (n * m) = epow (epow a n) m.
Proof.
  induction m as [|m IH]; simpl; [by rewrite Nat.mul_0_r|].
  by rewrite Nat.mul_succ_r, Nat.add_comm, epow_add, IH.
Qed.
Lemma epow_one n : epow eone n = eone.
Proof. induction n as [|n IH]; simpl; [done|]. rewrite IH. apply emul_one, reduced_one. Qed.

Definition omega : ext := (2 mod q, 1).
Definition omega' : ext := (2 mod q, (- 1) mod q).
Lemma omega_inv : emul omega omega' = eone.
Proof.
  unfold emul, omega, omega', eone. simpl. f_equal.
  - transitivity (1 mod q); [|apply Z.mod_small; lia]. apply eqz_same. by rewrite !eqz_mod.
  - transitivity (0 mod q); [|done]. apply eqz_same. rewrite !eqz_mod. apply eqz_of_eq. ring.
Qed.
Lemma omega_cancel n m : epow omega (n + m) = epow omega n → epow omega m = eone.
Proof.
  intros E. assert (∀ k, emul (epow omega' k) (epow omega k) = eone) as Hinv.
  { induction k as [|k IH]; [apply emul_one, reduced_one|]. simpl.
    rewrite (emul_comm omega' _), emul_assoc, <-(emul_assoc _ omega' omega),
      (emul_comm omega' omega), omega_inv, <-emul_assoc, emul_one by apply reduced_pow.
    done. }
  rewrite epow_add in E. apply (f_equal (emul (epow omega' n))) in E.
  by rewrite emul_assoc, Hinv, emul_one in E by apply reduced_pow.
Qed.

(** The order of ω when some power with a power of two is -1. *)
Definition eminus : ext := (q - 1, 0).
Lemma odd_part d : (0 < d)%nat → ∃ j o, d = (2 ^ j * (2 * o + 1))%nat.
Proof.
  induction d as [d IH] using lt_wf_ind. intros Hd.
  destruct (Nat.Even_or_Odd d) as [[h ->]|[o ->]].
  - destruct (IH h ltac:(lia) ltac:(lia)) as (j & o & ->). exists (S j), o.
    rewrite Nat.pow_succ_r'. lia.
  - exists 0%nat, o. simpl. lia.
Qed.
Lemma eminus_odd o : epow eminus (2 * o + 1) = eminus.
Proof.
  assert (reduced eminus) as Hr by (split; simpl; lia).
  rewrite epow_add, epow_mul.
  assert (epow eminus 2 = eone) as ->.
  { cbn [epow]. rewrite (emul_comm eminus eone), emul_one by done. unfold emul, eminus, eone.
    simpl. f_equal; [|by rewrite Z.mul_0_r, Z.mod_0_l by lia].
    rewrite Z.mul_0_l, Z.mul_0_r, Z.add_0_r. replace ((q - 1) * (q - 1)) with (1 + (q - 2) * q) by ring.
    rewrite Z_mod_plus_full. apply Z.mod_small. lia. }
  rewrite epow_one. cbn [epow]. by rewrite (emul_comm eminus eone), (emul_one eminus), emul_one by done.
Qed.
Lemma omega_order k d :
  2 < q → epow omega (2 ^ k) = eminus → (0 < d < 2 ^ S k)%nat → epow omega d ≠ eone.
Proof.
  intros Hq2 Hk [Hd Hlt] E. destruct (odd_part d Hd) as (j & o & ->).
  assert (j ≤ k)%nat as Hjk.
  { destruct (decide (j ≤ k)%nat) as [|Hn]; [done|]. exfalso.
    assert (2 ^ S k ≤ 2 ^ j)%nat by (apply Nat.pow_le_mono_r; lia). nia. }
  assert (epow omega (2 ^ k * (2 * o + 1)) = eone) as E'.
  { replace (2 ^ k)%nat with (2 ^ j * 2 ^ (k - j))%nat
      by (rewrite <-Nat.pow_add_r; f_equal; lia).
    rewrite <-Nat.mul_assoc, (Nat.mul_comm (2 ^ (k - j))), Nat.mul_assoc, epow_mul, E.
    apply epow_one. }
  rewrite epow_mul, Hk, eminus_odd in E'. injection E' as E'. lia.
Qed.
Lemma omega_count k :
  2 < q → epow omega (2 ^ k) = eminus → Z.of_nat (2 ^ S k) ≤ q * q.
Proof.
  intros Hq2 Hk. set (l := epow omega <$> seq 0 (2 ^ S k)).
  assert (NoDup l) as Hnd.
  { apply NoDup_fmap_2_strong; [|apply NoDup_seq]. intros x y Hx%elem_of_seq Hy%elem_of_seq E.
    destruct (decide (x = y)) as [|Hne]; [done|exfalso].
    destruct (decide (x < y)%nat).
    - apply (omega_order k (y - x) Hq2 Hk); [lia|]. apply (omega_cancel x).
      by replace (x + (y - x))%nat with y by lia.
    - apply (omega_order k (x - y) Hq2 Hk); [lia|]. apply (omega_cancel y).
      by replace (y + (x - y))%nat with x by lia. }
  set (pairs := list_prod (seqZ 0 q) (seqZ 0 q)).
  assert (l ⊆+ pairs) as Hsub.
  { apply NoDup_submseteq; [done|]. intros [x y] (n & E & _)%list_elem_of_fmap.
    pose proof (reduced_pow omega n) as [Hx Hy]. rewrite <-E in Hx, Hy. simpl in Hx, Hy.
    apply list_elem_of_In, in_prod_iff. rewrite <-!list_elem_of_In, !elem_of_seqZ. lia. }
  apply submseteq_length in Hsub. unfold l, pairs in Hsub.
  rewrite length_fmap, length_seq, length_prod, !length_seqZ in Hsub. nia.
Qed.
End Extension.

(** ** Primality *)

(** The trace of ω^(2^n) is the n-th number of the sequence, and its norm is 1. *)
Lemma lucas_trace q n :
  1 < q → (q | m127) →
  let w := epow q (omega q) (2 ^ n) in
  eqz q (2 * w.1) (lucas_lehmer n 4) ∧ eqz q (w.1 * w.1 - 3 * (w.2 * w.2)) 1.
Proof.
  intros Hq Hdiv. assert (∀ m s, lucas_lehmer (S m) s
    = (lucas_lehmer m s * lucas_lehmer m s - 2) mod m127) as Hstep.
  { induction m as [|m IH]; intros s; [done|]. cbn [lucas_lehmer]. apply IH. }
  assert (∀ z, eqz q (z mod m127) z) as Hmod.
  { intros z. apply eqz_divide; [lia|]. destruct Hdiv as [c Hc].
    exists (- (z / m127) * c). pose proof (Z.div_mod z m127 ltac:(done)). nia. }
  induction n as [|n [IHt IHn]]; cbn zeta in *.
  { cbn [Nat.pow epow]. rewrite (emul_comm q (omega q)), emul_one
      by (split; simpl; [apply Z.mod_pos_bound|]; lia).
    cbn [omega fst snd lucas_lehmer]. by rewrite !eqz_mod. }
  rewrite Hstep, Hmod, <-IHt. rewrite Nat.pow_succ_r', (Nat.mul_comm 2), epow_mul by done.
  set (w := epow q (omega q) (2 ^ n)) in *. cbn [epow].
  assert (reduced q w) as Hw by (by apply reduced_pow).
  rewrite (emul_comm q w eone), emul_one by done. cbn [emul fst snd]. rewrite !eqz_mod.
  assert (eqz q (3 * (w.2 * w.2)) (w.1 * w.1 - 1)) as E3.
  { rewrite <-IHn. apply eqz_of_eq. ring. }
  split.
  - rewrite E3. apply eqz_of_eq. ring.
  - transitivity ((w.1 * w.1 - 3 * (w.2 * w.2)) * (w.1 * w.1 - 3 * (w.2 * w.2)));
      [apply eqz_of_eq; ring|by rewrite IHn].
Qed.

Lemma lucas_divisor q n :
  1 < q → (q | m127) → lucas_lehmer n 4 = 0 → Z.of_nat (2 ^ S (S n)) ≤ q * q.
Proof.
  intros Hq Hdiv H0. destruct (lucas_trace q n Hq Hdiv) as [Ht Hn].
  assert (2 < q ∧ rel_prime q 2) as [Hq2 Hcop].
  { assert (Z.odd q = true) as Hodd.
    { destruct Hdiv as [c Hc]. assert (Z.odd (c * q) = true) as Ho by (by rewrite <-Hc).
      rewrite Z.odd_mul in Ho. by apply andb_prop in Ho as [_ ?]. }
    assert (q ≠ 2) by (intros ->; done). split; [lia|].
    apply Z.odd_spec in Hodd as [h ->]. apply bezout_rel_prime, (Bezout_intro _ _ _ 1 (- h)). ring. }
  apply omega_count; [done..|].
  rewrite Nat.pow_succ_r', (Nat.mul_comm 2), epow_mul by done.
  assert (reduced q (epow q (omega q) (2 ^ n))) as Hw by (by apply reduced_pow).
  destruct (epow q (omega q) (2 ^ n)) as [x y]. simpl in *. destruct Hw as [Hx Hy]. simpl in *.
  assert (x = 0) as ->.
  { rewrite H0 in Ht. apply eqz_divide in Ht; [|lia]. rewrite Z.sub_0_r in Ht.
    apply Gauss in Ht; [|done]. destruct Ht as [c ->]. assert (c = 0) as -> by nia. lia. }
  rewrite (emul_comm q (0, y) eone), emul_one by (done || by split).
  unfold emul, eminus. simpl. rewrite !Z.mul_0_r. f_equal.
  transitivity ((q - 1) mod q); [|apply Z.mod_small; lia]. apply eqz_same.
  transitivity (- (0 * 0 - 3 * (y * y))); [apply eqz_of_eq; ring|].
  rewrite Hn. apply eqz_divide; [lia|]. exists (-1). ring.
Qed.

Lemma small_divisor n : 1 < n → ¬ Z.prime n → ∃ q, 1 < q ∧ (q | n) ∧ q * q ≤ n.
Proof.
  intros Hn Hp. rewrite prime_alt in Hp.
  destruct (not_prime_divide n Hn Hp) as (d & Hd & [e He]).
  destruct (Z.le_ge_cases d e).
  - exists d. split; [lia|]. split; [by exists e|nia].
  - exists e. split; [nia|]. split; [exists d; lia|nia].
Qed.

Lemma m127_prime : Z.prime m127.
Proof.
  destruct (prime_dec m127) as [Hp|Hn]; [by apply prime_alt|exfalso]. rewrite <-prime_alt in Hn.
  apply small_divisor in Hn as (q & Hq & Hdiv & Hle); [|done].
  pose proof (lucas_divisor q 125 Hq Hdiv) as Hc.
  assert (lucas_lehmer 125 4 = 0) as H0 by (vm_compute; reflexivity).
  specialize (Hc H0). rewrite Nat2Z.inj_pow in Hc.
  change (Z.of_nat 2 ^ Z.of_nat (S (S 125))) with (2 ^ 127) in Hc. unfold m127 in Hle. lia.
Qed.

(** ** The field *)
Lemma eqp_divide a : eqp a 0 ↔ (m127 | a).
Proof. rewrite eqz_divide by done. by rewrite Z.sub_0_r. Qed.
Lemma eqp_integral a b : eqp (a * b) 0 → eqp a 0 ∨ eqp b 0.
Proof.
  rewrite !eqp_divide. apply prime_mult. apply prime_alt, m127_prime.
Qed.
Lemma eqp_diff a b : eqp (a - b) 0 ↔ eqp a b.
Proof. rewrite eqp_divide. by rewrite eqz_divide. Qed.
Lemma fermat127 x : ¬ eqp x 0 → eqp (x ^ (m127 - 1)) 1.
Proof.
  intros Hx. split. rewrite (Z.mod_small 1) by done. apply ZmodInv.Z.fermat_nz; [apply m127_prime|].
  intros E. apply Hx. by split.
Qed.
Lemma eqp_cancel a b c : ¬ eqp c 0 → eqp (c * a) (c * b) → eqp a b.
Proof.
  intros Hc E. apply eqp_diff. destruct (eqp_integral c (a - b)) as [|]; [|done..].
  rewrite Z.mul_sub_distr_l, E. apply eqz_of_eq. ring.
Qed.

(** Polynomials, lowest coefficient first. *)
Definition eval (f : list Z) (x : Z) : Z := foldr (λ c acc, c + x * acc) 0 f.
(** Division by x - r, without the remainder. *)
Fixpoint quotient (r : Z) (f : list Z) : list Z :=
  match f with
  | [] => []
  | _ :: f' => match f' with [] => [] | _ => eval f' r :: quotient r f' end
  end.
Lemma eval_quotient r f x : eval f x = (x - r) * eval (quotient r f) x + eval f r.
Proof.
  induction f as [|c f IH]; [simpl; ring|].
  destruct f as [|c' f]; [simpl; ring|].
  assert (quotient r (c :: c' :: f) = eval (c' :: f) r :: quotient r (c' :: f)) as -> by done.
  cbn [eval foldr]. fold (eval f x) (eval f r) (eval (quotient r (c' :: f)) x).
  change (c + x * eval (c' :: f) x =
    (x - r) * (eval (c' :: f) r + x * eval (quotient r (c' :: f)) x) + (c + r * eval (c' :: f) r)).
  rewrite IH. ring.
Qed.
Lemma length_quotient r f : length (quotient r f) = pred (length f).
Proof.
  induction f as [|c f IH]; [done|]. destruct f as [|c' f]; [done|].
  change (S (length (quotient r (c' :: f))) = S (length f)). by rewrite IH.
Qed.
Lemma last_quotient r f c : last f = Some c → (2 ≤ length f)%nat → last (quotient r f) = Some c.
Proof.
  induction f as [|a f IH]; [done|]. destruct f as [|b f]; simpl length; [lia|]. intros Hl _.
  rewrite last_cons_cons in Hl.
  change (last (eval (b :: f) r :: quotient r (b :: f)) = Some c).
  destruct f as [|b' f].
  - simpl in *. by rewrite Z.mul_0_r, Z.add_0_r.
  - assert (last (quotient r (b :: b' :: f)) = Some c) as E.
    { apply IH; [done|]. simpl. lia. }
    rewrite last_cons, E. done.
Qed.

(** With as many roots as its degree, a polynomial has no others. *)
Lemma all_roots roots f c x :
  length f = S (length roots) → last f = Some c → ¬ eqp c 0 →
  (∀ i j a b, roots !! i = Some a → roots !! j = Some b → eqp a b → i = j) →
  (∀ r, r ∈ roots → eqp (eval f r) 0) → eqp (eval f x) 0 →
  ∃ r, r ∈ roots ∧ eqp x r.
Proof.
  revert f. induction roots as [|r roots IH]; intros f Hlen Hlast Hc Hdist Hroots Hx.
  - exfalso. apply Hc. destruct f as [|a [|]]; simplify_eq/=.
    by rewrite Z.mul_0_r, Z.add_0_r in Hx.
  - assert (eqp (eval f r) 0) as Hr by (apply Hroots; left).
    assert (∀ y, eqp (eval f y) 0 → eqp y r ∨ eqp (eval (quotient r f) y) 0) as Hy.
    { intros y Hy. rewrite (eval_quotient r), Hr, Z.add_0_r in Hy.
      apply eqp_integral in Hy as [Hy|Hy]; [|by right]. left. by apply eqp_diff. }
    destruct (Hy x Hx) as [E|E]; [exists r; split; [left|done]|].
    destruct (IH (quotient r f)) as (r' & Hin & E'); [| |done| | |done|].
    + rewrite length_quotient, Hlen. done.
    + apply last_quotient; [done|]. rewrite Hlen. simpl. lia.
    + intros i j a b Ha Hb Eab. specialize (Hdist (S i) (S j) a b Ha Hb Eab). lia.
    + intros r' Hin. destruct (Hy r') as [Er|]; [apply Hroots; by right| |done].
      exfalso. apply list_elem_of_lookup_1 in Hin as [i Hi].
      specialize (Hdist (S i) 0%nat r' r Hi eq_refl Er). lia.
    + exists r'. split; [by right|done].
Qed.
