(* ===== verification/Residue.v ===== *)
(** * Residue symbols

    x/lumeraid/legroast/power_residue_symbols.go, and what the Legendre symbol of
    uint128_utils.go and the power residue symbol compute: the discrete logarithm
    of a fixed power of the argument.  Both are homomorphisms. *)
From Stdlib Require Import ZArith Lia.
From stdpp Require Import base numbers list.
From S2P Require Import Prelude Uint128 Field127.
Open Scope Z_scope.

(** uint128.New *)
Definition New (lo hi : Z) : Z := hi * 2 ^ 64 + lo.

Definition powerResidueSymbolMap : list (Z * Z) :=
  [(New 1 0, 0); (New 18446726481523507199 9223372036854775807, 1); (New 0 16777216, 2);
   (New 18446744073709551583 9223372036854775807, 3); (New 562949953421312 0, 4);
   (New 18446744073709551615 9223372036317904895, 5); (New 1024 0, 6);
   (New 18428729675200069631 9223372036854775807, 7); (New 0 17179869184, 8);
   (New 18446744073709518847 9223372036854775807, 9); (New 576460752303423488 0, 10);
   (New 18446744073709551615 9223371487098961919, 11); (New 1048576 0, 12);
   (New 18446744073709551615 9223372036854775806, 13); (New 0 17592186044416, 14);
   (New 18446744073675997183 9223372036854775807, 15); (New 0 32, 16);
   (New 18446744073709551615 9222809086901354495, 17); (New 1073741824 0, 18);
   (New 18446744073709551615 9223372036854774783, 19); (New 0 18014398509481984, 20);
   (New 18446744039349813247 9223372036854775807, 21); (New 0 32768, 22);
   (New 18446744073709551615 8646911284551352319, 23); (New 1099511627776 0, 24);
   (New 18446744073709551615 9223372036853727231, 25); (New 2 0, 26);
   (New 18446708889337462783 9223372036854775807, 27); (New 0 33554432, 28);
   (New 18446744073709551551 9223372036854775807, 29); (New 1125899906842624 0, 30);
   (New 18446744073709551615 9223372035781033983, 31); (New 2048 0, 32);
   (New 18410715276690587647 9223372036854775807, 33); (New 0 34359738368, 34);
   (New 18446744073709486079 9223372036854775807, 35); (New 1152921504606846976 0, 36);
   (New 18446744073709551615 9223370937343148031, 37); (New 2097152 0, 38);
   (New 18446744073709551615 9223372036854775805, 39); (New 0 35184372088832, 40);
   (New 18446744073642442751 9223372036854775807, 41); (New 0 64, 42);
   (New 18446744073709551615 9222246136947933183, 43); (New 2147483648 0, 44);
   (New 18446744073709551615 9223372036854773759, 45); (New 0 36028797018963968, 46);
   (New 18446744004990074879 9223372036854775807, 47); (New 0 65536, 48);
   (New 18446744073709551615 8070450532247928831, 49); (New 2199023255552 0, 50);
   (New 18446744073709551615 9223372036852678655, 51); (New 4 0, 52);
   (New 18446673704965373951 9223372036854775807, 53); (New 0 67108864, 54);
   (New 18446744073709551487 9223372036854775807, 55); (New 2251799813685248 0, 56);
   (New 18446744073709551615 9223372034707292159, 57); (New 4096 0, 58);
   (New 18374686479671623679 9223372036854775807, 59); (New 0 68719476736, 60);
   (New 18446744073709420543 9223372036854775807, 61); (New 2305843009213693952 0, 62);
   (New 18446744073709551615 9223369837831520255, 63); (New 4194304 0, 64);
   (New 18446744073709551615 9223372036854775803, 65); (New 0 70368744177664, 66);
   (New 18446744073575333887 9223372036854775807, 67); (New 0 128, 68);
   (New 18446744073709551615 9221120237041090559, 69); (New 4294967296 0, 70);
   (New 18446744073709551615 9223372036854771711, 71); (New 0 72057594037927936, 72);
   (New 18446743936270598143 9223372036854775807, 73); (New 0 131072, 74);
   (New 18446744073709551615 6917529027641081855, 75); (New 4398046511104 0, 76);
   (New 18446744073709551615 9223372036850581503, 77); (New 8 0, 78);
   (New 18446603336221196287 9223372036854775807, 79); (New 0 134217728, 80);
   (New 18446744073709551359 9223372036854775807, 81); (New 4503599627370496 0, 82);
   (New 18446744073709551615 9223372032559808511, 83); (New 8192 0, 84);
   (New 18302628885633695743 9223372036854775807, 85); (New 0 137438953472, 86);
   (New 18446744073709289471 9223372036854775807, 87); (New 4611686018427387904 0, 88);
   (New 18446744073709551615 9223367638808264703, 89); (New 8388608 0, 90);
   (New 18446744073709551615 9223372036854775799, 91); (New 0 140737488355328, 92);
   (New 18446744073441116159 9223372036854775807, 93); (New 0 256, 94);
   (New 18446744073709551615 9218868437227405311, 95); (New 8589934592 0, 96);
   (New 18446744073709551615 9223372036854767615, 97); (New 0 144115188075855872, 98);
   (New 18446743798831644671 9223372036854775807, 99); (New 0 262144, 100);
   (New 18446744073709551615 4611686018427387903, 101); (New 8796093022208 0, 102);
   (New 18446744073709551615 9223372036846387199, 103); (New 16 0, 104);
   (New 18446462598732840959 9223372036854775807, 105); (New 0 268435456, 106);
   (New 18446744073709551103 9223372036854775807, 107); (New 9007199254740992 0, 108);
   (New 18446744073709551615 9223372028264841215, 109); (New 16384 0, 110);
   (New 18158513697557839871 9223372036854775807, 111); (New 0 274877906944, 112);
   (New 18446744073709027327 9223372036854775807, 113); (New 9223372036854775808 0, 114);
   (New 18446744073709551615 9223363240761753599, 115); (New 16777216 0, 116);
   (New 18446744073709551615 9223372036854775791, 117); (New 0 281474976710656, 118);
   (New 18446744073172680703 9223372036854775807, 119); (New 0 512, 120);
   (New 18446744073709551615 9214364837600034815, 121); (New 17179869184 0, 122);
   (New 18446744073709551615 9223372036854759423, 123); (New 0 288230376151711744, 124);
   (New 18446743523953737727 9223372036854775807, 125); (New 0 524288, 126);
   (New 18446744073709551614 9223372036854775807, 127); (New 17592186044416 0, 128);
   (New 18446744073709551615 9223372036837998591, 129); (New 32 0, 130);
   (New 18446181123756130303 9223372036854775807, 131); (New 0 536870912, 132);
   (New 18446744073709550591 9223372036854775807, 133); (New 18014398509481984 0, 134);
   (New 18446744073709551615 9223372019674906623, 135); (New 32768 0, 136);
   (New 17870283321406128127 9223372036854775807, 137); (New 0 549755813888, 138);
   (New 18446744073708503039 9223372036854775807, 139); (New 0 1, 140);
   (New 18446744073709551615 9223354444668731391, 141); (New 33554432 0, 142);
   (New 18446744073709551615 9223372036854775775, 143); (New 0 562949953421312, 144);
   (New 18446744072635809791 9223372036854775807, 145); (New 0 1024, 146);
   (New 18446744073709551615 9205357638345293823, 147); (New 34359738368 0, 148);
   (New 18446744073709551615 9223372036854743039, 149); (New 0 576460752303423488, 150);
   (New 18446742974197923839 9223372036854775807, 151); (New 0 1048576, 152);
   (New 18446744073709551613 9223372036854775807, 153); (New 35184372088832 0, 154);
   (New 18446744073709551615 9223372036821221375, 155); (New 64 0, 156);
   (New 18445618173802708991 9223372036854775807, 157); (New 0 1073741824, 158);
   (New 18446744073709549567 9223372036854775807, 159); (New 36028797018963968 0, 160);
   (New 18446744073709551615 9223372002495037439, 161); (New 65536 0, 162);
   (New 17293822569102704639 9223372036854775807, 163); (New 0 1099511627776, 164);
   (New 18446744073707454463 9223372036854775807, 165); (New 0 2, 166);
   (New 18446744073709551615 9223336852482686975, 167); (New 67108864 0, 168);
   (New 18446744073709551615 9223372036854775743, 169); (New 0 1125899906842624, 170);
   (New 18446744071562067967 9223372036854775807, 171); (New 0 2048, 172);
   (New 18446744073709551615 9187343239835811839, 173); (New 68719476736 0, 174);
   (New 18446744073709551615 9223372036854710271, 175); (New 0 1152921504606846976, 176);
   (New 18446741874686296063 9223372036854775807, 177); (New 0 2097152, 178);
   (New 18446744073709551611 9223372036854775807, 179); (New 70368744177664 0, 180);
   (New 18446744073709551615 9223372036787666943, 181); (New 128 0, 182);
   (New 18444492273895866367 9223372036854775807, 183); (New 0 2147483648, 184);
   (New 18446744073709547519 9223372036854775807, 185); (New 72057594037927936 0, 186);
   (New 18446744073709551615 9223371968135299071, 187); (New 131072 0, 188);
   (New 16140901064495857663 9223372036854775807, 189); (New 0 2199023255552, 190);
   (New 18446744073705357311 9223372036854775807, 191); (New 0 4, 192);
   (New 18446744073709551615 9223301668110598143, 193); (New 134217728 0, 194);
   (New 18446744073709551615 9223372036854775679, 195); (New 0 2251799813685248, 196);
   (New 18446744069414584319 9223372036854775807, 197); (New 0 4096, 198);
   (New 18446744073709551615 9151314442816847871, 199); (New 137438953472 0, 200);
   (New 18446744073709551615 9223372036854644735, 201); (New 0 2305843009213693952, 202);
   (New 18446739675663040511 9223372036854775807, 203); (New 0 4194304, 204);
   (New 18446744073709551607 9223372036854775807, 205); (New 140737488355328 0, 206);
   (New 18446744073709551615 9223372036720558079, 207); (New 256 0, 208);
   (New 18442240474082181119 9223372036854775807, 209); (New 0 4294967296, 210);
   (New 18446744073709543423 9223372036854775807, 211); (New 144115188075855872 0, 212);
   (New 18446744073709551615 9223371899415822335, 213); (New 262144 0, 214);
   (New 13835058055282163711 9223372036854775807, 215); (New 0 4398046511104, 216);
   (New 18446744073701163007 9223372036854775807, 217); (New 0 8, 218);
   (New 18446744073709551615 9223231299366420479, 219); (New 268435456 0, 220);
   (New 18446744073709551615 9223372036854775551, 221); (New 0 4503599627370496, 222);
   (New 18446744065119617023 9223372036854775807, 223); (New 0 8192, 224);
   (New 18446744073709551615 9079256848778919935, 225); (New 274877906944 0, 226);
   (New 18446744073709551615 9223372036854513663, 227); (New 0 4611686018427387904, 228);
   (New 18446735277616529407 9223372036854775807, 229); (New 0 8388608, 230);
   (New 18446744073709551599 9223372036854775807, 231); (New 281474976710656 0, 232);
   (New 18446744073709551615 9223372036586340351, 233); (New 512 0, 234);
   (New 18437736874454810623 9223372036854775807, 235); (New 0 8589934592, 236);
   (New 18446744073709535231 9223372036854775807, 237); (New 288230376151711744 0, 238);
   (New 18446744073709551615 9223371761976868863, 239); (New 524288 0, 240);
   (New 9223372036854775807 9223372036854775807, 241); (New 0 8796093022208, 242);
   (New 18446744073692774399 9223372036854775807, 243); (New 0 16, 244);
   (New 18446744073709551615 9223090561878065151, 245); (New 536870912 0, 246);
   (New 18446744073709551615 9223372036854775295, 247); (New 0 9007199254740992, 248);
   (New 18446744056529682431 9223372036854775807, 249); (New 0 16384, 250);
   (New 18446744073709551615 8935141660703064063, 251); (New 549755813888 0, 252);
   (New 18446744073709551615 9223372036854251519, 253)].

Fixpoint map_lookup (m : list (Z * Z)) (k : Z) : option Z :=
  match m with
  | [] => None
  | (k', v) :: m' => if k' =? k then Some v else map_lookup m' k
  end.

Section Power.
Context `{Uint128Lib}.
(** Seventeen rounds of seven squarings and a multiplication. *)
Definition powerResidueSymbol (a : Z) : result Z :=
  '(out, _) ← square_multiply 17 7 a a;
  out ← reduceModP out;
  Ok (default 0 (map_lookup powerResidueSymbolMap out)).
End Power.

(** ** The exponents *)
Fixpoint chain (times n : nat) (e : Z) : Z :=
  match times with O => e | S t => chain t n (e * 2 ^ Z.of_nat n + 1) end.
Lemma chain_pos t n e : 0 < e → 0 < chain t n e.
Proof. revert e. induction t as [|t IH]; intros e He; simpl; [done|]. apply IH. nia. Qed.

Section Chains.
Context `{Uint128Laws}.

Lemma square_times_spec n a x :
  residue a x → returns (square_times n a) (λ r, residue r (x ^ 2 ^ Z.of_nat n)).
Proof.
  revert a x. induction n as [|n IH]; intros a x Ha.
  { simpl. by rewrite Z.pow_1_r. }
  apply returns_bind. eapply returns_mono; [by apply squareModP_spec|].
  intros [t ?] Ht. eapply returns_mono; [by apply IH|]. intros r [Hr Er]. split; [done|].
  rewrite Er. rewrite Nat2Z.inj_succ, Z.pow_succ_r by lia.
  rewrite <-Z.pow_2_r, <-Z.pow_mul_r by lia. done.
Qed.

Lemma square_multiply_spec t n out b g e :
  0 < e → residue out (g ^ e) → residue b g →
  returns (square_multiply t n out b) (λ r, residue r.1 (g ^ chain t n e)).
Proof.
  revert out b e. induction t as [|t IH]; intros out b e He Ho Hb; [done|].
  apply returns_bind. eapply returns_mono; [by apply square_times_spec|]. intros tmp Ht.
  apply returns_bind. eapply returns_mono.
  { apply mulAddModP_spec; [|exact Ht|exact Hb]. by split. }
  intros [[o ?] b'] (Ho' & _ & Eb). simpl in *. apply IH; [nia| |].
  - destruct Ho' as [? Eo]. split; [done|]. rewrite Eo, Z.add_0_l.
    rewrite Z.pow_add_r, Z.pow_1_r, Z.pow_mul_r by lia. done.
  - subst b'. split; [apply mod_word|]. rewrite eqp_mod. apply Hb.
Qed.

Lemma reduce_residue a x : residue a x → reduceModP a = Ok (x mod m127).
Proof. intros [Ha [E]]. rewrite reduceModP_eq by done. by rewrite E. Qed.
End Chains.

(** ** The table

    The entries are the powers of [-2^44], in order.  Multiplication by 2^44 is a
    rotation of the 127 bits. *)
Definition zeta : Z := - 2 ^ 44.
Definition next_key (k : Z) : Z :=
  let s := Z.shiftl k 44 in m127 - (Z.land s m127 + Z.shiftr s 127).
Lemma next_key_spec k : eqp (next_key k) (k * zeta).
Proof.
  unfold next_key. set (s := Z.shiftl k 44).
  assert (s = Z.land s m127 + Z.shiftr s 127 * 2 ^ 127) as Hs.
  { change m127 with (Z.ones 127). rewrite Z.land_ones, Z.shiftr_div_pow2 by lia.
    pose proof (Z.div_mod s (2 ^ 127)). lia. }
  transitivity (- s).
  - apply eqz_divide; [done|]. exists (1 + Z.shiftr s 127). unfold m127 in *. lia.
  - apply eqz_of_eq. unfold s, zeta. rewrite Z.shiftl_mul_pow2 by lia. ring.
Qed.

Fixpoint is_table (m : list (Z * Z)) (i k : Z) : bool :=
  match m with
  | [] => true
  | (k', v) :: m' =>
      (k' =? k) && (v =? i) && (0 <=? k) && (k <? m127) && is_table m' (i + 1) (next_key k)
  end.
Lemma is_table_spec m i k :
  0 ≤ i → is_table m i k = true → eqp k (zeta ^ i) →
  ∀ k' v, (k', v) ∈ m → i ≤ v < i + Z.of_nat (length m) ∧ 0 ≤ k' < m127 ∧ eqp k' (zeta ^ v).
Proof.
  revert i k. induction m as [|[k0 v0] m IH]; intros i k Hi Hok Hk k' v Hin; [by apply not_elem_of_nil in Hin|].
  cbn [is_table] in Hok. apply andb_prop in Hok as [[[[->%Z.eqb_eq ->%Z.eqb_eq]%andb_prop
    Hge%Z.leb_le]%andb_prop Hlt%Z.ltb_lt]%andb_prop Hok].
  apply elem_of_cons in Hin as [[= -> ->]|Hin]; [simpl; split_and!; try done; lia|].
  destruct (IH (i + 1) (next_key k)) with (k' := k') (v := v) as (? & ? & ?); [lia|done| |done|].
  - rewrite next_key_spec, Hk, Z.pow_add_r, Z.pow_1_r by lia. done.
  - simpl. split_and!; try done; lia.
Qed.
Lemma table_entries k v :
  (k, v) ∈ powerResidueSymbolMap → 0 ≤ v < 254 ∧ 0 ≤ k < m127 ∧ eqp k (zeta ^ v).
Proof.
  intros Hin. apply (is_table_spec powerResidueSymbolMap 0 1); [done| |done|done].
  vm_compute. reflexivity.
Qed.
Lemma table_NoDup : NoDup powerResidueSymbolMap.*1.
Proof. apply (bool_decide_unpack _). vm_compute. done. Qed.
Lemma table_values : powerResidueSymbolMap.*2 = seqZ 0 254.
Proof. reflexivity. Qed.

Lemma map_lookup_Some m k v : map_lookup m k = Some v → (k, v) ∈ m.
Proof.
  induction m as [|[k' v'] m IH]; simpl; [done|].
  destruct (Z.eqb_spec k' k) as [->|Hne]; [injection 1 as ->; left|right; auto].
Qed.
Lemma map_lookup_None m k : map_lookup m k = None → k ∉ m.*1.
Proof.
  induction m as [|[k' v'] m IH]; simpl; [by intros _ ?%not_elem_of_nil|].
  destruct (Z.eqb_spec k' k) as [|Hne]; [done|]. intros Hn Hin.
  apply elem_of_cons in Hin as [?|Hin]; [done|]. by apply IH.
Qed.

Lemma map_lookup_entry m k v : NoDup m.*1 → (k, v) ∈ m → map_lookup m k = Some v.
Proof.
  induction m as [|[k' v'] m IH]; intros Hnd Hin; [by apply not_elem_of_nil in Hin|].
  apply NoDup_cons in Hnd as [Hk' Hnd]. simpl.
  apply elem_of_cons in Hin as [[= -> ->]|Hin]; [by rewrite Z.eqb_refl|].
  destruct (Z.eqb_spec k' k) as [->|]; [|by apply IH].
  destruct Hk'. apply list_elem_of_fmap. by exists (k, v).
Qed.

(** The 254-th roots of unity are in the table. *)
Definition unity (n : nat) : list Z := -1 :: replicate n 0 ++ [1].
Lemma eval_unity n x : eval (unity n) x = x ^ Z.of_nat (S n) - 1.
Proof.
  assert (∀ m, eval (replicate m 0 ++ [1]) x = x ^ Z.of_nat m) as E.
  { induction m as [|m IH].
    { change (1 + x * 0 = x ^ 0). rewrite Z.pow_0_r. ring. }
    rewrite Nat2Z.inj_succ, Z.pow_succ_r, <-IH by lia. apply Z.add_0_l. }
  change (-1 + x * eval (replicate n 0 ++ [1]) x = x ^ Z.of_nat (S n) - 1).
  rewrite E, Nat2Z.inj_succ, Z.pow_succ_r by lia. ring.
Qed.
Lemma zeta_order : eqp (zeta ^ 254) 1.
Proof. split. vm_compute. reflexivity. Qed.
Lemma unity_in_table y : eqp (y ^ 254) 1 → ∃ k, k ∈ powerResidueSymbolMap.*1 ∧ eqp y k.
Proof.
  intros Hy. apply (all_roots _ (unity 253) 1).
  - reflexivity.
  - reflexivity.
  - intros [E]. vm_compute in E. done.
  - intros i j a b Ha Hb E. pose proof table_NoDup as Hnd.
    assert (a = b) as <-; [|by eapply NoDup_lookup].
    assert (∀ k, k ∈ powerResidueSymbolMap.*1 → 0 ≤ k < m127) as Hr.
    { intros k ([k' v] & -> & Hin)%list_elem_of_fmap. apply (table_entries k' v Hin). }
    apply eqp_eq; [by eapply Hr, list_elem_of_lookup_2..|done].
  - intros r ([k v] & -> & Hin)%list_elem_of_fmap. destruct (table_entries k v Hin) as (Hv & _ & E).
    rewrite eval_unity. change (Z.of_nat 254) with 254. simpl. rewrite E.
    rewrite <-Z.pow_mul_r, Z.mul_comm, Z.pow_mul_r, zeta_order, Z.pow_1_l by lia. done.
  - rewrite eval_unity. change (Z.of_nat 254) with 254. rewrite Hy. done.
Qed.

(** ** Symbols

    A symbol of a non-zero x is the exponent of the generator that gives a fixed
    power of x. *)
Record residue_symbol := Symbol { sy_gen : Z; sy_order : Z; sy_exp : Z }.
Definition legendre_symbol : residue_symbol := Symbol (-1) 2 (2 ^ 126 - 1).
Definition power_symbol : residue_symbol := Symbol zeta 254 ((2 ^ 126 - 1) / 127).

Definition is_symbol (σ : residue_symbol) (x s : Z) : Prop :=
  0 ≤ s < sy_order σ ∧ (¬ eqp x 0 → eqp (sy_gen σ ^ s) (x ^ sy_exp σ)).

Record good_symbol (σ : residue_symbol) : Prop := {
  good_order : 0 < sy_order σ;
  good_exp : 0 ≤ sy_exp σ;
  good_unit : eqp (sy_gen σ ^ sy_order σ) 1;
  good_unique s t : 0 ≤ s < sy_order σ → 0 ≤ t < sy_order σ →
    eqp (sy_gen σ ^ s) (sy_gen σ ^ t) → s = t
}.

Lemma symbol_mul σ x y s t u :
  good_symbol σ → ¬ eqp x 0 → ¬ eqp y 0 →
  is_symbol σ x s → is_symbol σ y t → is_symbol σ (x * y) u →
  u = (s + t) mod sy_order σ.
Proof.
  intros [Hm He Hu Huniq] Hx Hy [Hs Es] [Ht Et] [Hu' Eu].
  specialize (Es Hx). specialize (Et Hy).
  assert (¬ eqp (x * y) 0) as Hxy by (intros [?|?]%eqp_integral; done). specialize (Eu Hxy).
  pose proof (Z.mod_pos_bound (s + t) (sy_order σ) Hm).
  apply Huniq; [done|done|]. rewrite Eu, Z.pow_mul_l, <-Es, <-Et.
  rewrite <-Z.pow_add_r by lia. rewrite (Z.div_mod (s + t) (sy_order σ)) at 1 by lia.
  assert (0 ≤ (s + t) / sy_order σ) by (apply Z.div_pos; lia).
  rewrite Z.pow_add_r, Z.pow_mul_r, Hu, Z.pow_1_l by nia.
  apply eqz_of_eq. ring.
Qed.
Lemma symbol_eqp σ x y s : eqp x y → is_symbol σ x s → is_symbol σ y s.
Proof.
  intros E [Hs Hx]. split; [done|]. intros Hy. rewrite <-E. apply Hx. by rewrite E.
Qed.
Lemma symbol_unique σ x s t :
  good_symbol σ → ¬ eqp x 0 → is_symbol σ x s → is_symbol σ x t → s = t.
Proof.
  intros Hg Hx [Hs Es] [Ht Et]. eapply good_unique; [done..|].
  by rewrite (Es Hx), (Et Hx).
Qed.

Lemma legendre_good : good_symbol legendre_symbol.
Proof.
  split; [done..|]. cbn [sy_gen sy_order legendre_symbol]. intros s t Hs Ht [E].
  assert (s = 0 ∨ s = 1) as [->| ->] by lia; assert (t = 0 ∨ t = 1) as [->| ->] by lia;
    vm_compute in E; done.
Qed.
Lemma table_at v : 0 ≤ v < 254 → ∃ k, powerResidueSymbolMap !! Z.to_nat v = Some (k, v).
Proof.
  intros Hv. destruct (lookup_lt_is_Some_2 powerResidueSymbolMap (Z.to_nat v)) as [[k w] Hw].
  - rewrite <-(length_fmap snd), table_values, length_seqZ. lia.
  - exists k. rewrite Hw. do 2 f_equal.
    assert (powerResidueSymbolMap.*2 !! Z.to_nat v = Some w) as Hw2
      by (by rewrite list_lookup_fmap, Hw).
    rewrite table_values in Hw2. apply lookup_seqZ in Hw2 as [-> _]. lia.
Qed.
(** The entry of a symbol is the power the symbol is the logarithm of. *)
Lemma symbol_entry x s :
  ¬ eqp x 0 → is_symbol power_symbol x s →
  (x ^ ((2 ^ 126 - 1) / 127) mod m127, s) ∈ powerResidueSymbolMap.
Proof.
  intros Hx [Hs E]. specialize (E Hx). cbn [sy_gen sy_order sy_exp power_symbol] in *.
  destruct (table_at s Hs) as [k Hk%list_elem_of_lookup_2].
  destruct (table_entries k s Hk) as (_ & Hr & Ek).
  assert (x ^ ((2 ^ 126 - 1) / 127) mod m127 = k) as ->; [|done].
  apply eqp_eq; [apply mod_range|done|]. by rewrite eqp_mod, Ek.
Qed.
Lemma power_good : good_symbol power_symbol.
Proof.
  split; [done|done|apply zeta_order|]. cbn [sy_gen sy_order power_symbol]. intros s t Hs Ht E.
  destruct (table_at s Hs) as [k1 H1], (table_at t Ht) as [k2 H2].
  destruct (table_entries k1 s) as (_ & R1 & E1); [by eapply list_elem_of_lookup_2|].
  destruct (table_entries k2 t) as (_ & R2 & E2); [by eapply list_elem_of_lookup_2|].
  assert (k1 = k2) as <- by (apply eqp_eq; [done..|]; by rewrite E1, E2).
  assert (Z.to_nat s = Z.to_nat t); [|lia].
  eapply (NoDup_lookup powerResidueSymbolMap.*1); [apply table_NoDup| |];
    rewrite list_lookup_fmap; [by rewrite H1|by rewrite H2].
Qed.

(** x^(2^126 - 1) is 1 or -1. *)
Lemma euler_values x : ¬ eqp x 0 → eqp (x ^ (2 ^ 126 - 1)) 1 ∨ eqp (x ^ (2 ^ 126 - 1)) (-1).
Proof.
  intros Hx. set (y := x ^ (2 ^ 126 - 1)).
  assert (eqp (y * y) 1) as Hy.
  { unfold y. rewrite <-Z.pow_add_r by done.
    assert (2 ^ 126 - 1 + (2 ^ 126 - 1) = m127 - 1) as -> by (vm_compute; reflexivity).
    by apply fermat127. }
  destruct (eqp_integral (y - 1) (y + 1)) as [E|E].
  - transitivity (y * y - 1); [apply eqz_of_eq; ring|]. by rewrite Hy.
  - left. by apply eqp_diff.
  - right. transitivity (y + 1 - 1); [apply eqz_of_eq; ring|]. by rewrite E.
Qed.

Section Symbols.
Context `{Uint128Laws}.

Lemma legendre_spec a x :
  residue a x → returns (legendreSymbolCT a) (is_symbol legendre_symbol x).
Proof.
  intros Ha. unfold legendreSymbolCT. apply returns_bind. eapply returns_mono.
  { apply (square_multiply_spec 5 1 a a x 1); [done|by rewrite Z.pow_1_r|done]. }
  intros [o1 ?] H1. cbn [fst] in H1. change (chain 5 1 1) with 63 in H1. apply returns_bind. eapply returns_mono.
  { apply (square_multiply_spec 20 6 o1 o1 (x ^ 63) 1); [done|by rewrite Z.pow_1_r|exact H1]. }
  intros [o2 ?] H2. cbn [fst] in H2. rewrite (reduce_residue _ _ H2). cbn [mbind result_bind returns].
  assert (eqp (x ^ (2 ^ 126 - 1)) ((x ^ 63) ^ chain 20 6 1)) as E.
  { rewrite <-Z.pow_mul_r by done.
    assert (63 * chain 20 6 1 = 2 ^ 126 - 1) as -> by (vm_compute; reflexivity). reflexivity. }
  clear H1 H2. unfold is_symbol. cbn [sy_gen sy_order sy_exp legendre_symbol].
  set (y := (x ^ 63) ^ chain 20 6 1) in *. clearbody y.
  assert (∀ w, eqp y w → y mod m127 = w mod m127) as Hz by (by intros w [Ez]).
  split.
  - assert (eqp x 0 ∨ ¬ eqp x 0) as [Hx|Hx].
    { destruct (decide (x mod m127 = 0 mod m127)) as [?|Hn]; [by left|right]. by intros [?]. }
    + rewrite (Hz 0); [done|]. rewrite <-E, Hx. rewrite Z.pow_0_l by done. done.
    + destruct (euler_values x Hx) as [Ex|Ex]; rewrite E in Ex; rewrite (Hz _ Ex);
        vm_compute; split; congruence.
  - intros Hx. rewrite E. destruct (euler_values x Hx) as [Ex|Ex]; rewrite E in Ex;
      rewrite (Hz _ Ex), Ex; done.
Qed.

Lemma power_spec a x :
  residue a x → returns (powerResidueSymbol a) (is_symbol power_symbol x).
Proof.
  intros Ha. unfold powerResidueSymbol. apply returns_bind. eapply returns_mono.
  { apply (square_multiply_spec 17 7 a a x 1); [done|by rewrite Z.pow_1_r|done]. }
  intros [o1 ?] H1. cbn [fst] in H1. rewrite (reduce_residue _ _ H1). cbn [mbind result_bind returns].
  assert (chain 17 7 1 = (2 ^ 126 - 1) / 127) as -> by (vm_compute; reflexivity).
  unfold is_symbol. cbn [sy_gen sy_order sy_exp power_symbol].
  destruct (map_lookup _ _) as [v|] eqn:Hl.
  - apply map_lookup_Some, table_entries in Hl as (Hv & _ & E). split; [done|]. intros _.
    simpl. by rewrite <-E, eqp_mod.
  - simpl. split; [done|]. intros Hx. exfalso. apply map_lookup_None in Hl.
    destruct (unity_in_table (x ^ ((2 ^ 126 - 1) / 127))) as (k & Hk & E).
    { rewrite <-Z.pow_mul_r by done.
      assert ((2 ^ 126 - 1) / 127 * 254 = m127 - 1) as -> by (vm_compute; reflexivity).
      by apply fermat127. }
    apply Hl. apply list_elem_of_fmap in Hk as ([k' v] & -> & Hin).
    destruct (table_entries k' v Hin) as (_ & Hr & _). simpl in E.
    assert (x ^ ((2 ^ 126 - 1) / 127) mod m127 = k') as ->; [|apply list_elem_of_fmap; by exists (k', v)].
    apply eqp_eq; [apply mod_range|done|]. by rewrite eqp_mod.
Qed.

(** p is 3 modulo 4: x^(2^125) is a root of a square x. *)
Lemma squares x : ¬ eqp x 0 → is_symbol legendre_symbol x 0 ↔ ∃ y, eqp (y * y) x.
Proof.
  intros Hx. unfold is_symbol. cbn [sy_gen sy_order sy_exp legendre_symbol].
  rewrite Z.pow_0_r. split.
  - intros [_ E]. specialize (E Hx). exists (x ^ 2 ^ 125).
    rewrite <-Z.pow_add_r by done.
    assert (2 ^ 125 + 2 ^ 125 = Z.succ (2 ^ 126 - 1)) as -> by (vm_compute; reflexivity).
    rewrite Z.pow_succ_r, <-E by done. apply eqz_of_eq. ring.
  - intros [y Ey]. split; [done|]. intros _. rewrite <-Ey.
    assert (¬ eqp y 0) as Hy.
    { intros E. apply Hx. rewrite <-Ey, E. reflexivity. }
    rewrite <-Z.pow_2_r, <-Z.pow_mul_r by done.
    assert (2 * (2 ^ 126 - 1) = m127 - 1) as -> by (vm_compute; reflexivity).
    symmetry. by apply fermat127.
Qed.
Lemma nonzero_residue a : a mod m127 ≠ 0 → ¬ eqp a 0.
Proof. intros Ha [E]. by rewrite E in Ha. Qed.
End Symbols.

(** C38. The constant-time symbols are the mathematical ones.  For words a and b
    that are not zero modulo p = 2^127 - 1, and a word c congruent to their
    product, no operation overflows or divides by zero; the Legendre symbol is one
    bit, zero exactly for the squares modulo p, and the symbol of c is the exclusive
    or of the symbols of a and b; the 127-th power residue a^((p-1)/254) is a key
    of the table, the power symbol of a is the value stored there and not the zero
    of a missed lookup, and the symbol of c is the sum modulo 254 of the symbols of
    a and b. *)
Theorem residue_symbols `{Uint128Laws} a b c :
  in_u128 a → in_u128 b → in_u128 c →
  a mod m127 ≠ 0 → b mod m127 ≠ 0 → c mod m127 = (a * b) mod m127 →
  (∃ s t, legendreSymbolCT a = Ok s ∧ legendreSymbolCT b = Ok t ∧
     legendreSymbolCT c = Ok (Z.lxor s t) ∧ (s = 0 ∨ s = 1) ∧
     (s = 0 ↔ ∃ y, (y * y) mod m127 = a mod m127)) ∧
  (∃ s t, powerResidueSymbol a = Ok s ∧ powerResidueSymbol b = Ok t ∧
     powerResidueSymbol c = Ok ((s + t) mod 254) ∧ 0 ≤ s < 254 ∧
     (a ^ ((2 ^ 126 - 1) / 127) mod m127, s) ∈ powerResidueSymbolMap ∧
     map_lookup powerResidueSymbolMap (a ^ ((2 ^ 126 - 1) / 127) mod m127) = Some s).
Proof.
  intros Ha Hb Hc Hna%nonzero_residue Hnb%nonzero_residue Ec.
  assert (residue c (a * b)) as Rc by (by split).
  assert (residue a a) as Ra by (by split). assert (residue b b) as Rb by (by split). split.
  - destruct (returns_inv _ _ (legendre_spec a a Ra)) as (s & -> & Hs).
    destruct (returns_inv _ _ (legendre_spec b b Rb)) as (t & -> & Ht).
    destruct (returns_inv _ _ (legendre_spec c _ Rc)) as (u & -> & Hu).
    exists s, t. pose proof (symbol_mul _ _ _ _ _ _ legendre_good Hna Hnb Hs Ht Hu) as Eu.
    assert (s = 0 ∨ s = 1) as Hs01 by (destruct Hs as [Hs _]; simpl in Hs; lia).
    assert (t = 0 ∨ t = 1) as Ht01 by (destruct Ht as [Ht _]; simpl in Ht; lia).
    split_and!; [done|done| |done|].
    + rewrite Eu. destruct Hs01 as [->| ->], Ht01 as [->| ->]; done.
    + split.
      * intros ->. apply (squares a Hna) in Hs as [y [Ey]]. by exists y.
      * intros [y Ey]. apply (symbol_unique _ a s 0 legendre_good Hna Hs).
        apply (squares a Hna). exists y. by split.
  - destruct (returns_inv _ _ (power_spec a a Ra)) as (s & -> & Hs).
    destruct (returns_inv _ _ (power_spec b b Rb)) as (t & -> & Ht).
    destruct (returns_inv _ _ (power_spec c _ Rc)) as (u & -> & Hu).
    exists s, t. rewrite (symbol_mul _ _ _ _ _ _ power_good Hna Hnb Hs Ht Hu).
    pose proof (symbol_entry a s Hna Hs) as Hin.
    split_and!; [done|done|done|apply Hs|apply Hs|done|].
    apply map_lookup_entry; [apply table_NoDup|done].
Qed.
