(* ===== verification/LegRoast.v ===== *)
(** * LegRoast signatures

    x/lumeraid/legroast: params.go, seedtree.go, uint128_matrix.go, legroast.go and
    signing.go.  SHAKE-128, Argon2 and the keyring are interfaces; the root seeds
    drawn from crypto/rand are an argument of [Sign].

    Sizes and offsets are uint32 in the code and small (a signature has fewer than
    2^15 bytes), so they are natural numbers here.  A flat buffer that a loop fills
    slot by slot is the concatenation of its slots; a matrix is a list of planes;
    the seed tree of a round is the list of its nodes.  Reads keep the offsets of
    the code.  Arguments passed by pointer are returned, since the arithmetic
    reduces them in place. *)
From Stdlib Require Import ZArith Lia.
From stdpp Require Import base numbers strings list.
From S2P Require Import Prelude Sdk Uint128 Residue.
Open Scope Z_scope.

(** ** params.go *)
Inductive LegRoastAlgorithm : Set :=
| LegendreFast | LegendreMiddle | LegendreCompact
| PowerFast | PowerMiddle | PowerCompact
| AlgorithmCount.
#[export] Instance LegRoastAlgorithm_eq_dec : EqDecision LegRoastAlgorithm.
Proof. solve_decision. Defined.

Definition alg_int (a : LegRoastAlgorithm) : nat :=
  match a with
  | LegendreFast => 0 | LegendreMiddle => 1 | LegendreCompact => 2
  | PowerFast => 3 | PowerMiddle => 4 | PowerCompact => 5 | AlgorithmCount => 6
  end.

Definition primeBytes : nat := 16.
Definition seedBytes : nat := 16.
Definition hashBytes : nat := 32.
Definition pkDepth : nat := 15.
Definition PkBytes : nat := 2 ^ (pkDepth - 3).
Definition shareK : nat := 0.
Definition sharesTriple : nat := shareK + 1.
Definition sharesR : nat := sharesTriple + 3.
Definition message1DeltaK : nat := hashBytes.
Definition message3Alpha : nat := hashBytes.

Definition LegRoastAlgorithm_String (a : LegRoastAlgorithm) : string :=
  match a with
  | LegendreFast => "LegendreFast"
  | LegendreMiddle => "LegendreMiddle"
  | LegendreCompact => "LegendreCompact"
  | PowerFast => "PowerFast"
  | PowerMiddle => "PowerMiddle"
  | PowerCompact => "PowerCompact"
  | AlgorithmCount => "Unknown"
  end.

Record LegRoastParams := mkLegRoastParams {
  Alg : LegRoastAlgorithm;
  NRounds : nat;
  NResiduositySymbolsPerRound : nat;
  NPartyDepth : nat;
  RESSYMPerRound : nat;
  Parties : nat;
  SharesPerParty : nat;
  Message1DeltaTriple : nat;
  Message1Bytes : nat;
  Challenge1Bytes : nat;
  Message2Bytes : nat;
  Challenge2Lambda : nat;
  Challenge2Bytes : nat;
  Message3Beta : nat;
  Message3Bytes : nat;
  Challenge3Bytes : nat;
  Message4Commitment : nat;
  Message4Bytes : nat;
  SigBytes : nat
}.

Definition newLegRoastParams (alg : LegRoastAlgorithm)
    (nRounds nResiduositySymbolsPerRound nPartyDepth : nat) : LegRoastParams :=
  let ressymPerRound := (nRounds * nResiduositySymbolsPerRound)%nat in
  let parties := (2 ^ nPartyDepth)%nat in
  let sharesPerParty := (sharesR + nResiduositySymbolsPerRound)%nat in
  let message1DeltaTriple := (message1DeltaK + nRounds * 16)%nat in
  let message1Bytes := (message1DeltaTriple + nRounds * primeBytes)%nat in
  let challenge1Bytes := (ressymPerRound * 4)%nat in
  let message2Bytes := (ressymPerRound * primeBytes)%nat in
  let challenge2Lambda := (nRounds * primeBytes)%nat in
  let challenge2Bytes := (challenge2Lambda + ressymPerRound * primeBytes)%nat in
  let message3Beta := (message3Alpha + nRounds * primeBytes)%nat in
  let message3Bytes := (message3Beta + nRounds * primeBytes)%nat in
  let challenge3Bytes := (nRounds * 4)%nat in
  let message4Commitment := (nRounds * nPartyDepth * seedBytes)%nat in
  let message4Bytes := (message4Commitment + nRounds * hashBytes)%nat in
  let sigBytes := (message1Bytes + message2Bytes + message3Bytes + message4Bytes)%nat in
  mkLegRoastParams alg nRounds nResiduositySymbolsPerRound nPartyDepth ressymPerRound parties
    sharesPerParty message1DeltaTriple message1Bytes challenge1Bytes message2Bytes
    challenge2Lambda challenge2Bytes message3Beta message3Bytes challenge3Bytes
    message4Commitment message4Bytes sigBytes.

Definition legRoastParamsList : list LegRoastParams :=
  [newLegRoastParams LegendreFast 54 9 4;
   newLegRoastParams LegendreMiddle 37 12 6;
   newLegRoastParams LegendreCompact 26 16 8;
   newLegRoastParams PowerFast 39 4 4;
   newLegRoastParams PowerMiddle 27 5 6;
   newLegRoastParams PowerCompact 21 5 8].

Definition GetLegRoastParams (alg : LegRoastAlgorithm) : option LegRoastParams :=
  legRoastParamsList !! alg_int alg.

Definition GetAlgorithmBySigSize (sigSize : nat) : result LegRoastAlgorithm :=
  match List.find (λ p, (SigBytes p =? sigSize)%nat) legRoastParamsList with
  | Some p => Ok (Alg p)
  | None => Err (ErrOther "incorrect signature size for LegRoast algorithm")
  end.

Definition GetLegRoastAlgorithm (alg : string) : result LegRoastAlgorithm :=
  if decide (alg = ""%string) then Ok LegendreMiddle else
  match List.find (λ p, bool_decide (LegRoastAlgorithm_String (Alg p) = alg)) legRoastParamsList with
  | Some p => Ok (Alg p)
  | None => Err (ErrOther "unknown LegRoast algorithm")
  end.

(** ** Byte slices and little-endian words *)
Definition u16 (z : Z) : Z := z mod 2 ^ 16.
Definition slice (b : bytes) (from len : nat) : bytes := take len (drop from b).

Definition uint32ToBytesLE (a : Z) : bytes :=
  [a mod 256; a / 256 mod 256; a / 65536 mod 256; a / 16777216 mod 256].
(** binary.LittleEndian.Uint32 *)
Definition LittleEndian_Uint32 (b : bytes) : Z :=
  match b with
  | b0 :: b1 :: b2 :: b3 :: _ => b0 + 256 * b1 + 65536 * b2 + 16777216 * b3
  | _ => 0
  end.

(** golang.org/x/crypto/sha3: so many bytes of SHAKE-128 *)
Class Shake128 := { shake128 : bytes → nat → bytes }.
Class Shake128Laws `{Shake128} : Prop := {
  shake128_length data n : length (shake128 data n) = n
}.

Section LegRoast_.
Context `{Shake128} `{Uint128Lib}.

Definition LRExpand (data : bytes) (n : nat) : bytes := shake128 data n.
Definition LRHash (data : bytes) : bytes := LRExpand data hashBytes.

Definition sampleModP (seed : bytes) : result Z := reduceModP (u128_FromBytes (LRExpand seed 16)).
Definition computeIndex (a : Z) : Z := u128_FromBytes (LRExpand (uint32ToBytesLE a) 16).

(** ** seedtree.go: the nodes of one round *)
Definition leftChild (i : nat) : nat := (2 * i + 1)%nat.
Definition parent (i : nat) : nat := ((i - 1) / 2)%nat.
Definition sibling (i : nat) : nat := if Nat.even i then (i - 1)%nat else (i + 1)%nat.

Definition zero_seed : bytes := replicate seedBytes 0.
Definition expand_node (t : list bytes) (i : nat) : list bytes :=
  let e := LRExpand (t !!! i) (2 * seedBytes) in
  <[leftChild i := take seedBytes e]> (<[S (leftChild i) := drop seedBytes e]> t).

(** The tree is cleared before; the root is the random seed. *)
Definition Generate (parties : nat) (root : bytes) : list bytes :=
  foldl expand_node (root :: replicate (2 * parties - 2) zero_seed) (seq 0 (parties - 1)).

(** The seeds next to the path from the unopened leaf, top of the tree first. *)
Fixpoint release (t : list bytes) (node toReveal : nat) (out : list bytes) : list bytes :=
  let out := t !!! sibling node :: out in
  match toReveal with
  | O => out
  | S k => release t (parent node) k out
  end.
Definition ReleaseSeeds (params : LegRoastParams) (t : list bytes) (unopenedIndex : nat)
    : list bytes :=
  release t (unopenedIndex + (Parties params - 1)) (NPartyDepth params - 1) [].

Fixpoint insert_released (inp : bytes) (node toInsert : nat) (t : list bytes) : list bytes :=
  let t := <[sibling node := slice inp (toInsert * seedBytes) seedBytes]> t in
  match toInsert with
  | O => t
  | S k => insert_released inp (parent node) k t
  end.
Definition refill_node (t : list bytes) (i : nat) : list bytes :=
  if bool_decide (t !!! 0%nat = t !!! i) then t else expand_node t i.
Definition FillDown (params : LegRoastParams) (unopenedIndex : nat) (inp : bytes) : list bytes :=
  let t := replicate (2 * Parties params - 1) zero_seed in
  let t := insert_released inp (unopenedIndex + (Parties params - 1))
             (NPartyDepth params - 1) t in
  foldl refill_node t (seq 0 (Parties params - 1)).

(** ** Keys *)
Record LegRoast := mkLegRoast {
  pk : bytes;
  sk : bytes;
  lr_params : LegRoastParams;
  isLegendre : bool
}.

(** A nil pointer is dereferenced when there are no parameters. *)
Definition NewLegRoast (alg : LegRoastAlgorithm) : result LegRoast :=
  match GetLegRoastParams alg with
  | None => Err (Panic "nil parameters")
  | Some params =>
      Ok (mkLegRoast (replicate PkBytes 0) (replicate seedBytes 0) params
            (alg_int alg <? alg_int PowerFast)%nat)
  end.

Definition SetPublicKey (lr : LegRoast) (key : bytes) : result LegRoast :=
  if (length key =? PkBytes)%nat
  then Ok (mkLegRoast key (sk lr) (lr_params lr) (isLegendre lr))
  else Err (ErrOther "invalid public key length").

Definition getBit (lr : LegRoast) (nBit : Z) : Z :=
  if isLegendre lr then
    if 0 <? Z.land (pk lr !!! Z.to_nat (nBit / 8)) (Z.shiftl 1 (nBit mod 8)) then 1 else 0
  else pk lr !!! Z.to_nat nBit.

(** The symbol of either kind. *)
Definition residuosity (legendre : bool) (x : Z) : result Z :=
  if legendre then legendreSymbolCT x else powerResidueSymbol x.

Fixpoint legendre_key (indices : list nat) (key : Z) (out : bytes) : result bytes :=
  match indices with
  | [] => Ok out
  | i :: indices' =>
      temp ← addModP (computeIndex (Z.of_nat i)) key;
      s ← legendreSymbolCT temp;
      let bit := u8 (Z.shiftl s (Z.of_nat i mod 8)) in
      legendre_key indices' key (alter (λ b, Z.lor b bit) (i / 8)%nat out)
  end.

Definition Keygen (lr : LegRoast) (rand : bytes) (seed : option bytes) : result LegRoast :=
  seed ← match seed with
         | None => Ok rand
         | Some s => if (length s =? seedBytes)%nat then Ok s
                     else Err (ErrOther "invalid seed length")
         end;
  key ← sampleModP seed;
  out ← (if isLegendre lr then legendre_key (seq 0 (PkBytes * 8)) key (replicate PkBytes 0)
         else mapM (λ i, temp ← addModP (computeIndex (Z.of_nat i)) key;
                         powerResidueSymbol temp) (seq 0 PkBytes));
  Ok (mkLegRoast out seed (lr_params lr) (isLegendre lr)).

(** ** Commitment *)
Definition expand_shares (params : LegRoastParams) (seed : bytes) : list Z :=
  let expanded := LRExpand seed (SharesPerParty params * Uint128Size) in
  (λ j, u128_FromBytes (slice expanded (j * Uint128Size) Uint128Size))
    <$> seq 0 (SharesPerParty params).

Definition add_all (sums shares : list Z) : result (list Z) :=
  mapM (λ p, addModP p.1 p.2) (zip sums shares).
Fixpoint sum_shares (sums : list Z) (parties : list (list Z)) : result (list Z) :=
  match parties with
  | [] => Ok sums
  | sh :: parties' => sums ← add_all sums sh; sum_shares sums parties'
  end.

(** What the prover keeps of a round. *)
Record round_secret := RoundSecret {
  rs_tree : list bytes;
  rs_shares : list (list Z);
  rs_sums : list Z
}.
(** What a round writes into the commitment and into message 1. *)
Record round_commit := RoundCommit {
  rc_seeds : list bytes;
  rc_symbols : list Z;
  rc_deltaK : Z;
  rc_deltaTriple : Z
}.

Definition leaf (params : LegRoastParams) (t : list bytes) (nParty : nat) : bytes :=
  t !!! (Parties params - 1 + nParty)%nat.

Definition commit_round (lr : LegRoast) (key : Z) (root : bytes)
    : result (round_secret * round_commit) :=
  let params := lr_params lr in
  let tree := Generate (Parties params) root in
  let seeds := leaf params tree <$> seq 0 (Parties params) in
  let shares := expand_shares params <$> seeds in
  sums ← sum_shares (replicate (SharesPerParty params) 0) shares;
  sums ← mapM reduceModP sums;
  symbols ← mapM (λ i, residuosity (isLegendre lr) (sums !!! (sharesR + i)%nat))
              (seq 0 (NResiduositySymbolsPerRound params));
  let first := shares !!! 0%nat in
  deltaK ← u128_Sub m127 (sums !!! shareK);
  deltaK ← addModP deltaK key;
  deltaK ← reduceModP deltaK;
  k0 ← addModP (first !!! shareK) deltaK;
  deltaTriple ← u128_Sub m127 (sums !!! (sharesTriple + 2)%nat);
  '(deltaTriple, _, _) ← mulAddModP deltaTriple (sums !!! sharesTriple)
                           (sums !!! (sharesTriple + 1)%nat);
  deltaTriple ← reduceModP deltaTriple;
  c0 ← addModP (first !!! (sharesTriple + 2)%nat) deltaTriple;
  let first := <[(sharesTriple + 2)%nat := c0]> (<[shareK := k0]> first) in
  Ok (RoundSecret tree (<[0%nat := first]> shares) sums,
      RoundCommit (LRHash <$> seeds) symbols deltaK deltaTriple).

Definition message1_of (rcs : list round_commit) : bytes :=
  LRHash (concat ((λ rc, concat (rc_seeds rc)) <$> rcs) ++ concat (rc_symbols <$> rcs))
  ++ concat (u128_PutBytes ∘ rc_deltaK <$> rcs)
  ++ concat (u128_PutBytes ∘ rc_deltaTriple <$> rcs).

Definition commit (lr : LegRoast) (rand : nat → bytes) : result (list round_secret * bytes) :=
  key ← sampleModP (sk lr);
  rounds ← mapM (λ r, commit_round lr key (rand r)) (seq 0 (NRounds (lr_params lr)));
  Ok (rounds.*1, message1_of rounds.*2).

(** ** Challenges *)
Definition generateChallenge1 (lr : LegRoast) (hash : bytes) : bytes :=
  let params := lr_params lr in
  let c := LRExpand hash (Challenge1Bytes params) in
  let mask := if isLegendre lr then 2 ^ Z.of_nat pkDepth - 1
              else 2 ^ (Z.of_nat pkDepth - 3) - 1 in
  concat ((λ i, uint32ToBytesLE (Z.land (LittleEndian_Uint32 (slice c (i * 4) 4)) mask))
            <$> seq 0 (RESSYMPerRound params)).

Definition computeIndices (lr : LegRoast) (challenge1 : bytes) : list Z :=
  (λ i, computeIndex (LittleEndian_Uint32 (slice challenge1 (i * 4) 4)))
    <$> seq 0 (RESSYMPerRound (lr_params lr)).

Definition generateChallenge2 (lr : LegRoast) (hash : bytes) : bytes :=
  LRExpand hash (Challenge2Bytes (lr_params lr)).

Definition generateChallenge3 (lr : LegRoast) (hash : bytes) : bytes :=
  let params := lr_params lr in
  let c := LRExpand hash (Challenge3Bytes params) in
  concat ((λ i, uint32ToBytesLE (Z.land (LittleEndian_Uint32 (slice c (i * 4) 4))
                                        (Z.of_nat (Parties params) - 1)))
            <$> seq 0 (NRounds params)).

Definition unopenedParty (challenge3 : bytes) (nRound : nat) : nat :=
  Z.to_nat (LittleEndian_Uint32 (slice challenge3 (nRound * 4) 4)).

(** ** Responses *)

(** [i]-th symbol of round [nRound]: the product of the shifted key and the random
    number. *)
Definition respond1_at (lr : LegRoast) (indices : list Z) (key : Z)
    (rounds : list round_secret) (nRound i : nat) : result Z :=
  let index := (nRound * NResiduositySymbolsPerRound (lr_params lr) + i)%nat in
  match rounds !! nRound with
  | None => Err (Panic "index out of range")
  | Some rs =>
      keyPlusI ← addModP (indices !!! index) key;
      '(out, _, _) ← mulAddModP 0 keyPlusI (rs_sums rs !!! (sharesR + i)%nat);
      reduceModP out
  end.

Definition respond1 (lr : LegRoast) (rounds : list round_secret) (challenge1 : bytes)
    : result bytes :=
  let params := lr_params lr in
  let indices := computeIndices lr challenge1 in
  key ← sampleModP (sk lr);
  output ← mapM (λ nRound, mapM (respond1_at lr indices key rounds nRound)
                             (seq 0 (NResiduositySymbolsPerRound params)))
             (seq 0 (NRounds params));
  Ok (concat (u128_PutBytes <$> concat output)).

(** A loop that carries a state and produces a list. *)
Fixpoint traverse_st {S A B} (f : S → A → result (S * B)) (s : S) (l : list A)
    : result (S * list B) :=
  match l with
  | [] => Ok (s, [])
  | x :: l' =>
      '(s, y) ← f s x;
      '(s, ys) ← traverse_st f s l';
      Ok (s, y :: ys)
  end.

(** The values of a round that both sides read: the indices, the lambdas of
    challenge 2 and the products of message 2. *)
Record round_view := RoundView {
  rv_index : nat → Z;
  rv_lambda : nat → Z;
  rv_product : nat → Z
}.
Definition round_view_of (params : LegRoastParams) (indices : list Z)
    (challenge2 message2 : bytes) (nRound : nat) : round_view :=
  let base := (nRound * NResiduositySymbolsPerRound params)%nat in
  RoundView
    (λ j, indices !!! (base + j)%nat)
    (λ j, u128_FromBytes (slice challenge2
            (Challenge2Lambda params + base * Uint128Size + j * Uint128Size) Uint128Size))
    (λ j, u128_FromBytes (slice message2 (base * Uint128Size + j * Uint128Size) Uint128Size)).

(** The shares of beta and z of a party: the signer reduces the share of beta in
    every step, the verifier once after the loop. *)
Definition reduce_if (b : bool) (z : Z) : result Z := if b then reduceModP z else Ok z.
Fixpoint beta_z (signer : bool) (view : round_view) (nParty : nat) (shares : list Z)
    (js : list nat) (beta z : Z) : result (Z * Z) :=
  match js with
  | [] => Ok (beta, z)
  | j :: js' =>
      let lambdaValue := rv_lambda view j in
      '(beta, r, lambdaValue) ← mulAddModP beta (shares !!! (sharesR + j)%nat) lambdaValue;
      beta ← reduce_if signer beta;
      '(temp2, r, lambdaValue) ← mulAddModP 0 r lambdaValue;
      temp2 ← reduceModP temp2;
      temp2 ← u128_Sub m127 temp2;
      '(z, _, _) ← mulAddModP z temp2 (rv_index view j);
      z ← (if (nParty =? 0)%nat
           then '(z, _, _) ← mulAddModP z lambdaValue (rv_product view j); Ok z
           else Ok z);
      beta_z signer view nParty shares js' beta z
  end.

(** The openings of a party; epsilon, alpha and beta are reduced on the way. *)
Definition opening (signer : bool) (params : LegRoastParams) (view : round_view)
    (eab : Z * Z * Z) (nParty : nat) (shares : list Z) : result ((Z * Z * Z) * (Z * Z * Z)) :=
  let '(epsilon, alpha, beta) := eab in
  '(p0, epsilon, _) ← mulAddModP 0 epsilon (shares !!! shareK);
  p0 ← addModP p0 (shares !!! sharesTriple);
  p0 ← reduceModP p0;
  '(p1, zShare) ← beta_z signer view nParty shares
                    (seq 0 (NResiduositySymbolsPerRound params))
                    (shares !!! (sharesTriple + 1)%nat) 0;
  p1 ← reduce_if (negb signer) p1;
  let p2 := shares !!! (sharesTriple + 2)%nat in
  '(p2, alpha, beta) ← (if (nParty =? 0)%nat then mulAddModP p2 alpha beta
                        else Ok (p2, alpha, beta));
  p2 ← reduceModP p2;
  p2 ← u128_Sub m127 p2;
  '(p2, alpha, _) ← mulAddModP p2 alpha (shares !!! (sharesTriple + 1)%nat);
  '(p2, beta, _) ← mulAddModP p2 beta (shares !!! sharesTriple);
  '(p2, epsilon, _) ← mulAddModP p2 epsilon zShare;
  p2 ← reduceModP p2;
  Ok ((epsilon, alpha, beta), (p0, p1, p2)).

Definition rounds_at (rounds : list round_secret) (nRound : nat) : result round_secret :=
  match rounds !! nRound with
  | None => Err (Panic "index out of range")
  | Some rs => Ok rs
  end.

Fixpoint clear_beta (view : round_view) (sums : list Z) (js : list nat) (beta : Z) : result Z :=
  match js with
  | [] => Ok beta
  | j :: js' =>
      '(beta, _, _) ← mulAddModP beta (rv_lambda view j) (sums !!! (sharesR + j)%nat);
      clear_beta view sums js' beta
  end.

Definition epsilon_of (challenge2 : bytes) (nRound : nat) : Z :=
  u128_FromBytes (slice challenge2 (nRound * Uint128Size) Uint128Size).

(** Alpha, beta and the openings of a round. *)
Definition respond2_round (lr : LegRoast) (indices : list Z) (key : Z)
    (rounds : list round_secret) (challenge2 message2 : bytes) (nRound : nat)
    : result (Z * Z * list (Z * Z * Z)) :=
  let params := lr_params lr in
  let view := round_view_of params indices challenge2 message2 nRound in
  rs ← rounds_at rounds nRound;
  let sums := rs_sums rs in
  '(alpha, epsilon, _) ← mulAddModP 0 (epsilon_of challenge2 nRound) key;
  alpha ← addModP alpha (sums !!! sharesTriple);
  alpha ← reduceModP alpha;
  beta ← clear_beta view sums (seq 0 (NResiduositySymbolsPerRound params))
           (sums !!! (sharesTriple + 1)%nat);
  beta ← reduceModP beta;
  '(_, openings) ← traverse_st (λ eab p, opening true params view eab p.1 p.2)
                     (epsilon, alpha, beta)
                     (zip (seq 0 (Parties params)) (rs_shares rs));
  Ok (alpha, beta, openings).

(** uint128_matrix.go, GetAsBytes *)
Definition openings_bytes (openings : list (list (Z * Z * Z))) : bytes :=
  concat ((λ o, u128_PutBytes o.1.1 ++ u128_PutBytes o.1.2 ++ u128_PutBytes o.2)
            <$> concat openings).

Definition respond2 (lr : LegRoast) (rounds : list round_secret)
    (challenge1 challenge2 message2 : bytes) : result bytes :=
  let params := lr_params lr in
  let indices := computeIndices lr challenge1 in
  key ← sampleModP (sk lr);
  outs ← mapM (respond2_round lr indices key rounds challenge2 message2)
           (seq 0 (NRounds params));
  Ok (LRHash (openings_bytes (snd <$> outs))
      ++ concat ((λ o, u128_PutBytes o.1.1) <$> outs)
      ++ concat ((λ o, u128_PutBytes o.1.2) <$> outs)).

Definition respond3 (lr : LegRoast) (rounds : list round_secret) (challenge3 : bytes)
    : result bytes :=
  let params := lr_params lr in
  outs ← mapM (λ nRound,
           rs ← rounds_at rounds nRound;
           let unopened := unopenedParty challenge3 nRound in
           Ok (concat (ReleaseSeeds params (rs_tree rs) unopened),
               LRHash (leaf params (rs_tree rs) unopened))) (seq 0 (NRounds params));
  Ok (concat outs.*1 ++ concat outs.*2).

(** ** Sign

    The four hashes chain: each new one is the hash of the previous and of the new
    message. *)
Definition chain_hash (previous message : bytes) : bytes := LRHash (previous ++ LRHash message).

Definition LegRoast_Sign (lr : LegRoast) (rand : nat → bytes) (msg : bytes) : result bytes :=
  let hash1 := LRHash msg in
  '(rounds, message1) ← commit lr rand;
  let hash2 := chain_hash hash1 message1 in
  let challenge1 := generateChallenge1 lr hash2 in
  message2 ← respond1 lr rounds challenge1;
  let hash3 := chain_hash hash2 message2 in
  let challenge2 := generateChallenge2 lr hash3 in
  message3 ← respond2 lr rounds challenge1 challenge2 message2;
  let hash4 := chain_hash hash3 message3 in
  let challenge3 := generateChallenge3 lr hash4 in
  message4 ← respond3 lr rounds challenge3;
  Ok (message1 ++ message2 ++ message3 ++ message4).

(** ** Verify *)

(** The shares of an opened party, from its seed; party 0 adds the deltas. *)
Definition opened_shares (params : LegRoastParams) (message1 : bytes) (nRound nParty : nat)
    (seed : bytes) : result (list Z) :=
  let shares := expand_shares params seed in
  if (nParty =? 0)%nat then
    let deltaK := u128_FromBytes (slice message1 (message1DeltaK + nRound * Uint128Size)
                                    Uint128Size) in
    k ← addModP (shares !!! shareK) deltaK;
    let shares := <[shareK := k]> shares in
    let deltaTriple := u128_FromBytes (slice message1
                         (Message1DeltaTriple params + nRound * Uint128Size) Uint128Size) in
    c ← addModP (shares !!! (sharesTriple + 2)%nat) deltaTriple;
    Ok (<[(sharesTriple + 2)%nat := c]> shares)
  else Ok shares.

(** The symbol that the product of message 2 gives for the random number. *)
Definition check_symbol (lr : LegRoast) (challenge1 message2 : bytes) (index : nat) : result Z :=
  let ui := u128_FromBytes (slice message2 (index * Uint128Size) Uint128Size) in
  let challengeIndex := LittleEndian_Uint32 (slice challenge1 (index * 4) 4) in
  if isLegendre lr then
    s ← legendreSymbolCT ui;
    Ok (Z.lxor s (getBit lr challengeIndex))
  else
    prs ← powerResidueSymbol ui;
    Ok (u16 (prs + u16 (254 - pk lr !!! Z.to_nat challengeIndex)) mod 254).

(** The commitments, symbols and shares of a round.  The shares of the unopened
    party are never read. *)
Definition check_commit_round (lr : LegRoast)
    (message1 challenge1 message2 challenge3 message4 : bytes) (nRound : nat)
    : result (list bytes * list Z * list (list Z)) :=
  let params := lr_params lr in
  let unopened := unopenedParty challenge3 nRound in
  let tree := FillDown params unopened
                (drop (nRound * NPartyDepth params * seedBytes) message4) in
  let seeds := (λ nParty,
      if (nParty =? unopened)%nat
      then slice message4 (Message4Commitment params + nRound * hashBytes) hashBytes
      else LRHash (leaf params tree nParty)) <$> seq 0 (Parties params) in
  shares ← mapM (λ nParty, if (nParty =? unopened)%nat then Ok []
                           else opened_shares params message1 nRound nParty
                                  (leaf params tree nParty)) (seq 0 (Parties params));
  symbols ← mapM (λ i, check_symbol lr challenge1 message2
                         (nRound * NResiduositySymbolsPerRound params + i)%nat)
              (seq 0 (NResiduositySymbolsPerRound params));
  Ok (seeds, symbols, shares).

(** One party of the second loop: the state holds epsilon, alpha and beta and the
    sums of the shares. *)
Definition check_party (params : LegRoastParams) (view : round_view) (unopened : nat)
    (s : (Z * Z * Z) * (Z * Z * Z)) (p : nat * list Z)
    : result (((Z * Z * Z) * (Z * Z * Z)) * (Z * Z * Z)) :=
  if (p.1 =? unopened)%nat then Ok (s, (0, 0, 0)) else
  let '(eab, (sumAlpha, sumBeta, sumV)) := s in
  '(eab, o) ← opening false params view eab p.1 p.2;
  sumAlpha ← addModP sumAlpha o.1.1;
  sumBeta ← addModP sumBeta o.1.2;
  sumV ← addModP sumV o.2;
  Ok ((eab, (sumAlpha, sumBeta, sumV)), o).

Definition check_open_round (lr : LegRoast) (indices : list Z)
    (challenge2 message2 message3 challenge3 : bytes) (shares : list (list Z)) (nRound : nat)
    : result (list (Z * Z * Z)) :=
  let params := lr_params lr in
  let view := round_view_of params indices challenge2 message2 nRound in
  let unopened := unopenedParty challenge3 nRound in
  let alpha := u128_FromBytes (slice message3 (message3Alpha + nRound * Uint128Size)
                                 Uint128Size) in
  let beta := u128_FromBytes (slice message3 (Message3Beta params + nRound * Uint128Size)
                                Uint128Size) in
  '(eab, sums, openings) ← traverse_st (check_party params view unopened)
                             ((epsilon_of challenge2 nRound, alpha, beta), (0, 0, 0))
                             (zip (seq 0 (Parties params)) shares);
  let '(_, alpha, beta) := eab in
  let '(sumAlpha, sumBeta, sumV) := sums in
  sumAlpha ← reduceModP sumAlpha;
  sumBeta ← reduceModP sumBeta;
  sumV ← reduceModP sumV;
  a ← u128_Sub m127 sumAlpha;
  b ← u128_Sub m127 sumBeta;
  v ← u128_Sub m127 sumV;
  a ← addModP a alpha;
  b ← addModP b beta;
  a ← reduceModP a;
  b ← reduceModP b;
  v ← reduceModP v;
  Ok (<[unopened := (a, b, v)]> openings).

Definition check (lr : LegRoast)
    (message1 challenge1 message2 challenge2 message3 challenge3 message4 : bytes)
    : result unit :=
  let params := lr_params lr in
  let indices := computeIndices lr challenge1 in
  rounds ← mapM (check_commit_round lr message1 challenge1 message2 challenge3 message4)
             (seq 0 (NRounds params));
  let buf := concat ((λ o, concat o.1.1) <$> rounds) ++ concat ((λ o, o.1.2) <$> rounds) in
  if negb (bool_decide (LRHash buf = slice message1 0 hashBytes))
  then Err (ErrOther "first commitment verification failed") else
  openings ← mapM (λ p, check_open_round lr indices challenge2 message2 message3 challenge3
                          p.2 p.1) (zip (seq 0 (NRounds params)) (snd <$> rounds));
  if negb (bool_decide (LRHash (openings_bytes openings) = slice message3 0 hashBytes))
  then Err (ErrOther "second hash failed") else
  Ok tt.

Definition LegRoast_Verify (lr : LegRoast) (msg signature : bytes) : result unit :=
  let params := lr_params lr in
  let m1 := Message1Bytes params in
  let m2 := Message2Bytes params in
  let m3 := Message3Bytes params in
  if (length msg =? 0)%nat then Err (ErrOther "message is empty") else
  if negb (length signature =? SigBytes params)%nat
  then Err (ErrOther "invalid signature length") else
  if bool_decide (pk lr = replicate PkBytes 0) then Err (ErrOther "public key is not set") else
  let hash1 := LRHash msg in
  let sigMsg1 := slice signature 0 m1 in
  let hash2 := chain_hash hash1 sigMsg1 in
  let challenge1 := generateChallenge1 lr hash2 in
  let sigMsg2 := slice signature m1 m2 in
  let hash3 := chain_hash hash2 sigMsg2 in
  let challenge2 := generateChallenge2 lr hash3 in
  let sigMsg3 := slice signature (m1 + m2) m3 in
  let hash4 := chain_hash hash3 sigMsg3 in
  let challenge3 := generateChallenge3 lr hash4 in
  check lr sigMsg1 challenge1 sigMsg2 challenge2 sigMsg3 challenge3
    (drop (m1 + m2 + m3) signature).
End LegRoast_.

(** ** signing.go *)
Class Keyring := {
  keyring : Type;
  (** the public key of an address of the keyring *)
  KeyByAddress : keyring → bytes → option bytes;
  SignByAddress : keyring → bytes → bytes → option bytes;
  (** argon2.IDKey with time 1, 64 MiB, 4 threads and 32 bytes of output *)
  argon2_IDKey : bytes → bytes → bytes
}.

Section Signing.
Context `{SdkAddress} `{Shake128} `{Uint128Lib} `{Keyring}.

Definition LegRoastSeedPassphrase : string := "Lumera_LegRoast_Seed_Generator".

Definition GenerateLegRoastKeySeed (address : string) (kr : option keyring) : result bytes :=
  match AccAddressFromBech32 address with
  | None => Err ErrInvalidAddress
  | Some addr =>
      match kr with
      | None => Err (ErrOther "keyring is not set")
      | Some kr =>
          match KeyByAddress kr addr with
          | None => Err (ErrOther "address not found in keyring")
          | Some pubKey =>
              match SignByAddress kr addr (pubKey ++ string_bytes LegRoastSeedPassphrase) with
              | None => Err (ErrOther "failed to sign data")
              | Some sig =>
                  Ok (take 16 (argon2_IDKey sig (string_bytes LegRoastSeedPassphrase)))
              end
          end
      end
  end.

(** The signature and the public key. *)
Definition Sign (address : string) (kr : option keyring) (rand : nat → bytes) (message : bytes)
    (algorithm : LegRoastAlgorithm) : result (bytes * bytes) :=
  seed ← GenerateLegRoastKeySeed address kr;
  lr ← NewLegRoast algorithm;
  lr ← Keygen lr [] (Some seed);
  signature ← LegRoast_Sign lr rand message;
  Ok (signature, pk lr).

Definition LR_Verify (message pubKey signature : bytes) : result unit :=
  algorithm ← GetAlgorithmBySigSize (length signature);
  lr ← NewLegRoast algorithm;
  lr ← SetPublicKey lr pubKey;
  LegRoast_Verify lr message signature.
End Signing.
