(* ===== verification/LegTree.v ===== *)
(** * The seed trees of LegRoast

    The seeds released for an unopened leaf rebuild every other leaf: [FillDown]
    undoes [ReleaseSeeds] as long as no inner seed is all zero, the value that
    marks the nodes that are not known. *)
From Stdlib Require Import ZArith Lia.
From stdpp Require Import base numbers list.
From S2P Require Import Prelude Uint128 Residue LegRoast.
Open Scope nat_scope.

Section Tree.
Context `{Shake128Laws}.
Implicit Types (t : list bytes) (u i k d n : nat).

(** ** Lists with total lookup *)
Lemma total_insert_eq {A} `{Inhabited A} (l : list A) i x :
  i < length l → <[i := x]> l !!! i = x.
Proof. intros Hi. apply list_lookup_total_correct. by apply list_lookup_insert_eq. Qed.
Lemma total_insert_ne {A} `{Inhabited A} (l : list A) i j x :
  i ≠ j → <[i := x]> l !!! j = l !!! j.
Proof. intros Hi. rewrite !list_lookup_total_alt. by rewrite list_lookup_insert_ne. Qed.
Lemma total_replicate {A} `{Inhabited A} n (x : A) i : i < n → replicate n x !!! i = x.
Proof. intros Hi. apply list_lookup_total_correct. by apply lookup_replicate_2. Qed.

(** ** Children and generation *)
Definition child1 (seed : bytes) : bytes := take seedBytes (LRExpand seed (2 * seedBytes)).
Definition child2 (seed : bytes) : bytes := drop seedBytes (LRExpand seed (2 * seedBytes)).

Lemma expand_node_spec t i j :
  2 * i + 2 < length t →
  expand_node t i !!! j =
    (if decide (j = 2 * i + 1) then child1 (t !!! i)
     else if decide (j = 2 * i + 2) then child2 (t !!! i) else t !!! j).
Proof.
  intros Hi. unfold expand_node, leftChild.
  destruct (decide (j = 2 * i + 1)) as [->|H1].
  { rewrite total_insert_eq; [done|]. rewrite length_insert. lia. }
  rewrite total_insert_ne by lia.
  destruct (decide (j = 2 * i + 2)) as [->|H2].
  { replace (S (2 * i + 1)) with (2 * i + 2) by lia. by rewrite total_insert_eq by lia. }
  by rewrite total_insert_ne by lia.
Qed.
Lemma expand_node_length t i : length (expand_node t i) = length t.
Proof. unfold expand_node. by rewrite !length_insert. Qed.

(** A tree whose nodes below [n] have been expanded. *)
Definition expanded t n : Prop :=
  ∀ i, i < n → t !!! (2 * i + 1) = child1 (t !!! i) ∧ t !!! (2 * i + 2) = child2 (t !!! i).

Lemma foldl_seq_inv {A} (f : A → nat → A) (P : nat → A → Prop) n a :
  P 0 a → (∀ k b, k < n → P k b → P (S k) (f b k)) → P n (foldl f a (seq 0 n)).
Proof.
  intros Hbase HS. assert (∀ m, m ≤ n → P m (foldl f a (seq 0 m))) as Hm.
  { induction m as [|m IH]; intros Hm; [done|].
    rewrite seq_S, foldl_app. simpl. apply HS; [lia|]. apply IH. lia. }
  by apply Hm.
Qed.

Lemma Generate_spec n root :
  1 ≤ n → length root = seedBytes →
  length (Generate n root) = 2 * n - 1 ∧ expanded (Generate n root) (n - 1) ∧
  ∀ i, i < 2 * n - 1 → length (Generate n root !!! i) = seedBytes.
Proof.
  intros Hn Hroot. unfold Generate.
  set (P := λ k t, length t = 2 * n - 1 ∧ expanded t k ∧
    ∀ i, i < 2 * n - 1 → length (t !!! i) = seedBytes).
  apply (foldl_seq_inv expand_node P).
  - split_and!.
    + simpl. rewrite length_replicate. lia.
    + intros i Hi. lia.
    + intros [|i] Hi; [done|]. simpl. rewrite total_replicate by lia. done.
  - intros k t Hk (Hl & He & Hs). split_and!; [by rewrite expand_node_length| |].
    + intros i Hi. rewrite !expand_node_spec by lia.
      destruct (decide (i = k)) as [->|Hne]; repeat case_decide; try lia; [done|].
      apply He. lia.
    + intros i Hi. rewrite expand_node_spec by lia.
      unfold child1, child2, LRExpand. repeat case_decide; [| |by apply Hs].
      * rewrite length_take, shake128_length. unfold seedBytes. lia.
      * rewrite length_drop, shake128_length. unfold seedBytes. lia.
Qed.

(** ** The path of a leaf *)
Definition up u k : nat := Nat.iter k parent u.
Lemma up_S u k : up u (S k) = parent (up u k).
Proof. done. Qed.
Lemma up_parent u k : up (parent u) k = up u (S k).
Proof. unfold up. by rewrite Nat.iter_succ_r. Qed.
Lemma parent_heap i : 1 ≤ i → parent i + 1 = (i + 1) / 2.
Proof.
  intros Hi. unfold parent. replace (i + 1) with (i - 1 + 1 * 2) by lia.
  rewrite Nat.div_add by done. done.
Qed.
Lemma up_heap u d k :
  2 ^ d ≤ u + 1 < 2 * 2 ^ d → k ≤ d → up u k + 1 = (u + 1) / 2 ^ k.
Proof.
  intros Hu. induction k as [|k IH]; intros Hk; [by rewrite Nat.div_1_r|].
  specialize (IH ltac:(lia)). rewrite up_S, parent_heap.
  - rewrite IH, Nat.Div0.div_div, (Nat.mul_comm (2 ^ k)). done.
  - assert (2 ≤ (u + 1) / 2 ^ k); [|lia]. apply Nat.div_le_lower_bound; [by apply Nat.pow_nonzero|].
    transitivity (2 ^ d); [|lia]. replace d with (k + 1 + (d - k - 1)) by lia.
    rewrite !Nat.pow_add_r. change (2 ^ 1) with 2.
    assert (1 ≤ 2 ^ (d - k - 1)) by (apply Nat.neq_0_lt_0, Nat.pow_nonzero; done). nia.
Qed.
Lemma up_root u d : 2 ^ d ≤ u + 1 < 2 * 2 ^ d → up u d = 0.
Proof.
  intros Hu. pose proof (up_heap u d d Hu ltac:(done)) as E.
  assert ((u + 1) / 2 ^ d = 1); [|lia].
  symmetry. apply (Nat.div_unique _ _ _ (u + 1 - 2 ^ d)); lia.
Qed.
Lemma up_pos u d k : 2 ^ d ≤ u + 1 < 2 * 2 ^ d → k < d → 1 ≤ up u k.
Proof.
  intros Hu Hk. pose proof (up_heap u d k Hu ltac:(lia)) as E.
  assert (2 ≤ (u + 1) / 2 ^ k); [|lia]. apply Nat.div_le_lower_bound; [by apply Nat.pow_nonzero|].
  transitivity (2 ^ S k); [rewrite Nat.pow_succ_r'; lia|].
  transitivity (2 ^ d); [apply Nat.pow_le_mono_r; lia|lia].
Qed.

(** ** Released seeds *)
Lemma release_spec t u d out j :
  j ≤ d → release t u d out !! j = Some (t !!! sibling (up u (d - j))).
Proof.
  assert (∀ d u out m, release t u d out !! (S d + m) = out !! m) as Htail.
  { clear. induction d as [|d IH]; intros u out m; [done|]. cbn [release].
    replace (S (S d) + m) with (S d + S m) by lia. by rewrite IH. }
  revert u out. induction d as [|d IH]; intros u out Hj.
  - replace j with 0 by lia. done.
  - cbn [release]. destruct (decide (j = S d)) as [->|Hne].
    + rewrite <-(Nat.add_0_r (S d)) at 1. rewrite Htail, Nat.sub_diag. done.
    + rewrite IH by lia. rewrite up_parent. by replace (S d - j) with (S (d - j)) by lia.
Qed.
Lemma release_length t u d out : length (release t u d out) = S d + length out.
Proof.
  revert u out. induction d as [|d IH]; intros u out; [done|].
  cbn [release]. rewrite IH. simpl. lia.
Qed.

Lemma slice_concat (l : list bytes) (rest : bytes) n j x :
  (∀ y, y ∈ l → length y = n) → l !! j = Some x → slice (concat l ++ rest) (j * n) n = x.
Proof.
  intros Hlen Hj. unfold slice. revert j Hj. induction l as [|y l IH]; intros [|j] Hj; simplify_eq/=.
  - rewrite drop_0, <-app_assoc, take_app_length'; [done|]. symmetry. apply Hlen. left.
  - rewrite <-app_assoc, drop_app_ge by (rewrite (Hlen y) by left; lia).
    rewrite (Hlen y) by left. replace (n + j * n - n) with (j * n) by lia.
    apply IH; [|done]. intros z Hz. apply Hlen. by right.
Qed.

Lemma insert_released_spec inp u d t (v : nat → bytes) :
  (∀ k, k ≤ d → sibling (up u k) < length t ∧
     slice inp ((d - k) * seedBytes) seedBytes = v (sibling (up u k))) →
  let t' := insert_released inp u d t in
  length t' = length t ∧ (∀ k, k ≤ d → t' !!! sibling (up u k) = v (sibling (up u k))) ∧
  ∀ i, (∀ k, k ≤ d → i ≠ sibling (up u k)) → t' !!! i = t !!! i.
Proof.
  assert (∀ d u t, length (insert_released inp u d t) = length t) as Hlen.
  { clear. induction d as [|d IH]; intros u t; cbn [insert_released]; [|rewrite IH];
      apply length_insert. }
  assert (∀ d u t i, (∀ k, k ≤ d → i ≠ sibling (up u k)) →
    insert_released inp u d t !!! i = t !!! i) as Hother.
  { clear. induction d as [|d IH]; intros u t i Hi; cbn [insert_released].
    - rewrite total_insert_ne; [done|]. intros <-. by apply (Hi 0).
    - rewrite IH; [rewrite total_insert_ne; [done|]; intros <-; apply (Hi 0); [lia|done]|].
      intros k Hk. rewrite up_parent. apply Hi. lia. }
  intros Hv. cbn zeta. split_and!; [done| |by apply Hother].
  revert u t Hv. induction d as [|d IH]; intros u t Hv k Hk; destruct (Hv 0) as [Hl Hs];
    [lia| |lia|]; rewrite Nat.sub_0_r in Hs; unfold up in Hl, Hs; cbn [Nat.iter] in Hl, Hs;
    cbn [insert_released].
  - replace k with 0 by lia. unfold up. cbn [Nat.iter]. by rewrite total_insert_eq.
  - assert (∀ m, m ≤ d → sibling (up (parent u) m) < length t ∧
      slice inp ((d - m) * seedBytes) seedBytes = v (sibling (up (parent u) m))) as Hv'.
    { intros m Hm. rewrite up_parent. apply (Hv (S m)). lia. }
    assert (∀ m, m ≤ d → insert_released inp (parent u) d
        (<[sibling u := slice inp (S d * seedBytes) seedBytes]> t)
        !!! sibling (up (parent u) m) = v (sibling (up (parent u) m))) as Hin.
    { intros m Hm. apply IH; [|done]. intros m' Hm'. rewrite length_insert. by apply Hv'. }
    destruct k as [|k]; [|rewrite <-up_parent; apply Hin; lia].
    destruct (decide (Exists (λ m, sibling u = sibling (up (parent u) m)) (seq 0 (S d)))) as [He|Hne].
    + apply Exists_exists in He as (m & Hm%elem_of_seq & E).
      pose proof (Hin m ltac:(lia)) as Hin'. rewrite <-E in Hin'. exact Hin'.
    + rewrite Hother.
      * unfold up. cbn [Nat.iter]. by rewrite total_insert_eq.
      * intros m Hm E. apply Hne, Exists_exists. exists m. split; [apply elem_of_seq; lia|done].
Qed.

(** ** Refilling *)
Section Refill.
Context (d u : nat) (T : list bytes) (inp : bytes).
Let N : nat := 2 ^ d.
Context (Hd : 1 ≤ d) (Hu : N ≤ u + 1 < 2 * N).
Context (HT : length T = 2 * N - 1) (Hexp : expanded T (N - 1)).
Context (Hnz : ∀ i, 1 ≤ i < N - 1 → T !!! i ≠ zero_seed).
Context (Hinp : ∀ k, k < d →
  slice inp ((d - 1 - k) * seedBytes) seedBytes = T !!! sibling (up u k)).

Definition on_path i : Prop := ∃ k, k ≤ d ∧ i = up u k.
#[local] Instance on_path_dec i : Decision (on_path i).
Proof.
  destruct (decide (Exists (λ k, i = up u k) (seq 0 (S d)))) as [He|Hn].
  - left. apply Exists_exists in He as (k & Hk%elem_of_seq & E). exists k. split; [lia|done].
  - right. intros (k & Hk & E). apply Hn, Exists_exists. exists k.
    split; [apply elem_of_seq; lia|done].
Defined.

Lemma root_on_path : on_path 0.
Proof. exists d. split; [done|]. symmetry. by apply up_root. Qed.
Lemma parent_on_path i : 1 ≤ i → on_path i → on_path (parent i).
Proof.
  intros Hi (k & Hk & ->). exists (S k). split; [|done].
  destruct (decide (k = d)) as [->|]; [|lia]. rewrite (up_root u d Hu) in Hi. lia.
Qed.
Lemma sibling_parent i : 1 ≤ i → parent (sibling i) = parent i ∧ 1 ≤ sibling i ∧ sibling i ≠ i.
Proof.
  intros Hi. unfold sibling. destruct (Nat.even i) eqn:E.
  - apply Nat.even_spec in E as [h ->]. unfold parent.
    replace (2 * h - 1 - 1) with ((h - 1) * 2) by lia. rewrite Nat.div_mul by done.
    replace (2 * h - 1) with (1 + (h - 1) * 2) by lia. rewrite Nat.div_add by done.
    simpl. split; [lia|lia].
  - assert (Nat.odd i = true) as [h ->]%Nat.odd_spec by (by rewrite <-Nat.negb_even, E).
    unfold parent. replace (2 * h + 1 + 1 - 1) with (1 + h * 2) by lia.
    replace (2 * h + 1 - 1) with (h * 2) by lia. rewrite Nat.div_add, Nat.div_mul by done.
    simpl. split; lia.
Qed.
Lemma children i : 1 ≤ i → i = 2 * parent i + 1 ∨ i = 2 * parent i + 2.
Proof.
  intros Hi. unfold parent. pose proof (Nat.div_mod_eq (i - 1) 2).
  pose proof (Nat.mod_upper_bound (i - 1) 2). lia.
Qed.
Lemma parent_child i : parent (2 * i + 1) = i ∧ parent (2 * i + 2) = i.
Proof.
  unfold parent. replace (2 * i + 1 - 1) with (i * 2) by lia.
  replace (2 * i + 2 - 1) with (1 + i * 2) by lia.
  rewrite Nat.div_add, Nat.div_mul by done. done.
Qed.
(** A node off the path whose parent is on it is the sibling of a path node. *)
Lemma off_path_sibling i :
  1 ≤ i < 2 * N - 1 → ¬ on_path i → on_path (parent i) → ∃ k, k < d ∧ i = sibling (up u k).
Proof.
  intros [Hi Hi'] Hoff (k & Hk & E). destruct k as [|k].
  - exfalso. destruct (children i Hi); unfold up in E; simpl in E; lia.
  - exists k. split; [lia|]. rewrite up_S in E.
    pose proof (up_pos u d k Hu ltac:(lia)) as Hp.
    assert (i ≠ up u k) by (intros ->; apply Hoff; exists k; split; [lia|done]).
    destruct (sibling_parent (up u k) Hp) as (Es & Hs1 & Hne).
    pose proof (children i Hi). pose proof (children (up u k) Hp).
    pose proof (children _ Hs1). rewrite Es in *. rewrite <-E in *. lia.
Qed.
Lemma sibling_off_path k : k < d → ¬ on_path (sibling (up u k)).
Proof.
  intros Hk (j & Hj & E). pose proof (up_pos u d k Hu Hk) as Hp.
  destruct (sibling_parent _ Hp) as (Es & Hs1 & Hne).
  assert (j < d) as Hjd.
  { destruct (decide (j = d)) as [->|]; [|lia]. rewrite (up_root u d Hu) in E. lia. }
  assert (up u (S j) = up u (S k)) as E'.
  { rewrite !up_S, <-E. done. }
  (* equal ancestors are at equal levels *)
  assert (j = k) as ->; [|by rewrite E in Hne].
  pose proof (up_heap u d j Hu ltac:(lia)) as Ej. pose proof (up_heap u d k Hu ltac:(lia)) as Ek.
  pose proof (up_heap u d (S j) Hu ltac:(lia)) as Ej'.
  pose proof (up_heap u d (S k) Hu ltac:(lia)) as Ek'. rewrite E' in Ej'.
  assert (∀ a b, a < b → b ≤ d → (u + 1) / 2 ^ b < (u + 1) / 2 ^ a) as Hdec.
  { intros a b Hab Hb. replace b with (a + (b - a)) by lia.
    rewrite Nat.pow_add_r, <-Nat.Div0.div_div. apply Nat.div_lt.
    - apply Nat.div_str_pos. split; [apply Nat.neq_0_lt_0, Nat.pow_nonzero; done|].
      transitivity (2 ^ d); [apply Nat.pow_le_mono_r; lia|unfold N in *; lia].
    - apply (Nat.pow_gt_1 2); lia. }
  destruct (lt_eq_lt_dec j k) as [[Hlt|]|Hlt]; [|done|].
  - specialize (Hdec (S j) (S k) ltac:(lia) ltac:(lia)). lia.
  - specialize (Hdec (S k) (S j) ltac:(lia) ltac:(lia)). lia.
Qed.

Lemma sibling_range k : k < d → sibling (up u k) < 2 * N - 1.
Proof.
  intros Hk. pose proof (up_pos u d k Hu Hk) as Hp.
  destruct (sibling_parent _ Hp) as (Es & Hs1 & Hne).
  assert (parent (up u k) + 1 ≤ N - 1).
  { pose proof (up_heap u d (S k) Hu ltac:(lia)) as E. rewrite up_S in E. rewrite E.
    assert ((u + 1) / 2 ^ S k < N); [|lia]. apply Nat.Div0.div_lt_upper_bound.
    rewrite Nat.pow_succ_r'. assert (1 ≤ 2 ^ k) by (apply Nat.neq_0_lt_0, Nat.pow_nonzero; done).
    nia. }
  destruct (children _ Hs1); rewrite Es in *; lia.
Qed.

(** The tree the verifier ends with. *)
Lemma refill_spec i :
  i < 2 * N - 1 →
  foldl refill_node (insert_released inp u (d - 1) (replicate (2 * N - 1) zero_seed))
    (seq 0 (N - 1)) !!! i = if decide (on_path i) then zero_seed else T !!! i.
Proof.
  set (t0 := insert_released _ _ _ _).
  destruct (insert_released_spec inp u (d - 1) (replicate (2 * N - 1) zero_seed)
    (λ i, T !!! i)) as (Hl0 & Hin & Hother).
  { intros k Hk. rewrite length_replicate. split; [apply sibling_range; lia|apply Hinp; lia]. }
  fold t0 in Hl0, Hin, Hother. rewrite length_replicate in Hl0.
  set (P := λ k t, length t = 2 * N - 1 ∧ (∀ i, i < 2 * N - 1 → on_path i → t !!! i = zero_seed) ∧
    ∀ i, i < 2 * N - 1 → ¬ on_path i → on_path (parent i) ∨ parent i < k → t !!! i = T !!! i).
  assert (P (N - 1) (foldl refill_node t0 (seq 0 (N - 1)))) as (Hl & Hp & Ho).
  { apply foldl_seq_inv.
    - split_and!; [done| |].
      + intros j Hj Hp. rewrite Hother; [by rewrite total_replicate|].
        intros k Hk ->. by apply (sibling_off_path k); [lia|].
      + intros j Hj Hoff [Hpar|]; [|lia].
        assert (1 ≤ j) by (destruct j; [destruct Hoff; apply root_on_path|lia]).
        destruct (off_path_sibling j) as (k & Hk & ->); [lia|done|done|]. apply Hin. lia.
    - intros k t Hk (Hl & Hp & Ho). unfold refill_node.
      rewrite (Hp 0) by (lia || apply root_on_path). case_bool_decide as Hz.
      + split_and!; [done|done|]. intros j Hj Hoff Hpar. apply Ho; [done|done|].
        destruct Hpar as [|Hlt]; [by left|]. destruct (decide (parent j = k)) as [E|]; [|right; lia].
        left. destruct (decide (on_path (parent j))) as [|Hn]; [done|exfalso].
        rewrite E in Hn. assert (1 ≤ k) by (destruct k; [destruct Hn; apply root_on_path|lia]).
        apply (Hnz k); [lia|]. rewrite <-(Ho k) by (done || lia || (right; unfold parent;
          apply Nat.Div0.div_lt_upper_bound; lia)). done.
      + assert (¬ on_path k) as Hn by (intros Hk'; apply Hz; symmetry; apply Hp; [lia|done]).
        assert (1 ≤ k) by (destruct k; [destruct Hn; apply root_on_path|lia]).
        assert (t !!! k = T !!! k) as Ek.
        { apply Ho; [lia|done|]. right. unfold parent. apply Nat.Div0.div_lt_upper_bound; lia. }
        destruct (parent_child k) as [Hc1 Hc2]. destruct (Hexp k) as [He1 He2]; [lia|].
        split_and!; [by rewrite expand_node_length| |].
        * intros j Hj Hpj. rewrite expand_node_spec by lia.
          repeat case_decide; subst; [exfalso; apply Hn..|by apply Hp].
          -- rewrite <-Hc1. apply parent_on_path; [lia|done].
          -- rewrite <-Hc2. apply parent_on_path; [lia|done].
        * intros j Hj Hoff Hpar. rewrite expand_node_spec, Ek by lia.
          repeat case_decide; subst; [done..|]. apply Ho; [done|done|].
          destruct Hpar as [|Hlt]; [by left|right].
          assert (1 ≤ j) as Hj1 by (destruct j; [destruct Hoff; apply root_on_path|lia]).
          destruct (children j Hj1); lia. }
  intros Hi. case_decide as Hpi; [by apply Hp|]. apply Ho; [done|done|]. right.
  assert (1 ≤ i) as Hi1 by (destruct i; [destruct Hpi; apply root_on_path|lia]).
  destruct (children i Hi1); lia.
Qed.

(** Every other leaf is recovered. *)
Lemma refill_leaf i :
  N - 1 ≤ i < 2 * N - 1 → i ≠ u →
  foldl refill_node (insert_released inp u (d - 1) (replicate (2 * N - 1) zero_seed))
    (seq 0 (N - 1)) !!! i = T !!! i.
Proof.
  intros Hi Hne. rewrite refill_spec by lia. case_decide as Hp; [|done]. exfalso.
  destruct Hp as ([|k] & Hk & E); [done|].
  pose proof (up_heap u d (S k) Hu Hk) as E'. rewrite <-E in E'.
  assert ((u + 1) / 2 ^ S k < N); [|lia]. apply Nat.Div0.div_lt_upper_bound.
  rewrite Nat.pow_succ_r'. assert (1 ≤ 2 ^ k) by (apply Nat.neq_0_lt_0, Nat.pow_nonzero; done).
  nia.
Qed.
End Refill.
End Tree.
