(* ===== verification/LegOpen.v ===== *)
(** * The openings of LegRoast

    What the parties open in a round, as residues: the shares of alpha and beta add
    up to alpha and beta, and those of v to zero, which lets the verifier fill in
    the party it does not see. *)
From Stdlib Require Import ZArith Lia.
From stdpp Require Import base numbers list.
From S2P Require Import Prelude Uint128 Field127 Residue LegRoast.
Open Scope Z_scope.

(** ** Sums over lists *)
Definition sumover {A} (f : A → Z) (l : list A) : Z := foldr (λ x acc, f x + acc) 0 l.

Lemma sumover_cons {A} (f : A → Z) x l : sumover f (x :: l) = f x + sumover f l.
Proof. done. Qed.
Lemma sumover_app {A} (f : A → Z) l k : sumover f (l ++ k) = sumover f l + sumover f k.
Proof. induction l as [|x l IH]; [done|]. simpl app. rewrite !sumover_cons, IH. ring. Qed.
Lemma sumover_add {A} (f g : A → Z) l : sumover (λ x, f x + g x) l = sumover f l + sumover g l.
Proof. induction l as [|x l IH]; [done|]. rewrite !sumover_cons, IH. ring. Qed.
Lemma sumover_opp {A} (f : A → Z) l : sumover (λ x, - f x) l = - sumover f l.
Proof. induction l as [|x l IH]; [done|]. rewrite !sumover_cons, IH. ring. Qed.
Lemma sumover_scale {A} c (f : A → Z) l : sumover (λ x, c * f x) l = c * sumover f l.
Proof. induction l as [|x l IH]; [simpl; ring|]. rewrite !sumover_cons, IH. ring. Qed.
Lemma sumover_const0 {A} (l : list A) : sumover (λ _, 0) l = 0.
Proof. induction l as [|x l IH]; [done|]. by rewrite sumover_cons, IH. Qed.
Lemma sumover_swap {A B} (f : A → B → Z) (l : list A) (k : list B) :
  sumover (λ x, sumover (f x) k) l = sumover (λ y, sumover (λ x, f x y) l) k.
Proof.
  induction l as [|x l IH].
  - simpl. by rewrite sumover_const0.
  - rewrite sumover_cons, IH, <-sumover_add. done.
Qed.
Lemma sumover_eqp {A} (f g : A → Z) l :
  (∀ x, x ∈ l → eqp (f x) (g x)) → eqp (sumover f l) (sumover g l).
Proof.
  induction l as [|x l IH]; intros E; [done|]. rewrite !sumover_cons.
  rewrite IH by (intros; apply E; by right). by rewrite E by left.
Qed.
Lemma sumover_eq {A} (f g : A → Z) l :
  (∀ x, x ∈ l → f x = g x) → sumover f l = sumover g l.
Proof.
  induction l as [|x l IH]; intros E; [done|]. rewrite !sumover_cons.
  rewrite IH by (intros; apply E; by right). by rewrite E by left.
Qed.
Lemma sumover_fmap {A B} (f : B → Z) (g : A → B) l : sumover f (g <$> l) = sumover (f ∘ g) l.
Proof. induction l as [|x l IH]; [done|]. rewrite fmap_cons, !sumover_cons, IH. done. Qed.
Lemma sumover_zip {A B} (f : B → Z) (k : list A) (l : list B) :
  length k = length l → sumover (λ p, f p.2) (zip k l) = sumover f l.
Proof.
  revert k. induction l as [|x l IH]; intros [|y k] Hl; simplify_eq/=; [done|].
  by rewrite <-(IH k).
Qed.
Lemma sumover_zero {A} (f : A → Z) l : (∀ x, x ∈ l → f x = 0) → sumover f l = 0.
Proof. intros Hf. rewrite (sumover_eq f (λ _, 0)) by done. apply sumover_const0. Qed.
(** The term of one index, and all but one. *)
Lemma sumover_only n u (h : nat → Z) :
  (u < n)%nat → sumover (λ j, if (j =? u)%nat then h j else 0) (seq 0 n) = h u.
Proof.
  intros Hu. replace n with (u + S (n - u - 1))%nat by lia. rewrite seq_app, sumover_app.
  cbn [seq]. rewrite sumover_cons, Nat.add_0_l, Nat.eqb_refl.
  rewrite (sumover_zero _ (seq 0 u)), (sumover_zero _ (seq (S u) _)); [ring|..];
    intros j Hj%elem_of_seq; destruct (Nat.eqb_spec j u); lia.
Qed.
Lemma sumover_first n (c : Z) :
  (0 < n)%nat → sumover (λ j, if (j =? 0)%nat then c else 0) (seq 0 n) = c.
Proof. apply (sumover_only n 0 (λ _, c)). Qed.
Lemma sumover_except n u (h : nat → Z) :
  (u < n)%nat → sumover (λ j, if (j =? u)%nat then 0 else h j) (seq 0 n)
    = sumover h (seq 0 n) - h u.
Proof.
  intros Hu. rewrite <-(sumover_only n u h Hu) at 1.
  rewrite (sumover_eq h (λ j, (if (j =? u)%nat then 0 else h j)
    + (if (j =? u)%nat then h j else 0))) by (intros j _; destruct (j =? u)%nat; ring).
  rewrite sumover_add. ring.
Qed.
Lemma sumover_zip_seq {A} `{Inhabited A} (f : nat * A → Z) n (l : list A) :
  length l = n → sumover f (zip (seq 0 n) l) = sumover (λ j, f (j, l !!! j)) (seq 0 n).
Proof.
  intros Hl. transitivity (sumover f ((λ j, (j, l !!! j)) <$> seq 0 n));
    [|apply (sumover_fmap f (λ j, (j, l !!! j)))]. f_equal.
  apply list_eq. intros j. rewrite list_lookup_fmap, lookup_zip_with.
  destruct (decide (j < n)%nat) as [Hj|Hj].
  - rewrite !lookup_seq_lt by done. simpl.
    destruct (lookup_lt_is_Some_2 l j) as [x Hx]; [lia|]. rewrite Hx. simpl.
    by rewrite (list_lookup_total_correct _ _ _ Hx).
  - rewrite !lookup_seq_ge by lia. done.
Qed.

(** ** One party *)
Section Opening.
Context (js : list nat) (view : round_view) (E A B : Z).

Definition z_share (j : nat) (sh : list Z) : Z :=
  sumover (λ i, - (sh !!! (sharesR + i)%nat * rv_lambda view i) * rv_index view i
                + if (j =? 0)%nat then rv_lambda view i * rv_product view i else 0) js.
Definition alpha_share (sh : list Z) : Z := E * (sh !!! shareK) + sh !!! sharesTriple.
Definition beta_share (sh : list Z) : Z :=
  sh !!! (sharesTriple + 1)%nat
  + sumover (λ i, sh !!! (sharesR + i)%nat * rv_lambda view i) js.
Definition v_share (j : nat) (sh : list Z) : Z :=
  - (sh !!! (sharesTriple + 2)%nat + if (j =? 0)%nat then A * B else 0)
  + A * (sh !!! (sharesTriple + 1)%nat) + B * (sh !!! sharesTriple) + E * z_share j sh.
Definition opening_value (j : nat) (sh : list Z) : Z * Z * Z :=
  (alpha_share sh mod m127, beta_share sh mod m127, v_share j sh mod m127).

(** ** All parties *)
Section Sum.
Context (n : nat) (shares : list (list Z)) (key a b : Z) (r : nat → Z).
Let l := zip (seq 0 n) shares.
Context (Hn : (0 < n)%nat) (Hlen : length shares = n).
Context (Hkey : eqp (sumover (λ sh, sh !!! shareK) shares) key).
Context (Ha : eqp (sumover (λ sh, sh !!! sharesTriple) shares) a).
Context (Hb : eqp (sumover (λ sh, sh !!! (sharesTriple + 1)%nat) shares) b).
Context (Hc : eqp (sumover (λ sh, sh !!! (sharesTriple + 2)%nat) shares) (a * b)).
Context (Hr : ∀ i, i ∈ js → eqp (sumover (λ sh, sh !!! (sharesR + i)%nat) shares) (r i)).
Context (Hu : ∀ i, i ∈ js → eqp (rv_product view i) ((rv_index view i + key) * r i)).
Context (HA : eqp A (E * key + a)).
Context (HB : eqp B (b + sumover (λ i, rv_lambda view i * r i) js)).

Lemma sum_second (f : list Z → Z) : sumover (λ p, f p.2) l = sumover f shares.
Proof. apply sumover_zip. by rewrite length_seq. Qed.
Lemma sum_zero (c : Z) : sumover (λ p : nat * list Z, if (p.1 =? 0)%nat then c else 0) l = c.
Proof.
  transitivity (sumover ((λ j, if (j =? 0)%nat then c else 0) ∘ fst) l); [done|].
  rewrite <-sumover_fmap. unfold l. rewrite fst_zip by (rewrite length_seq; lia).
  by apply sumover_first.
Qed.

Lemma alpha_sum : eqp (sumover (λ p, alpha_share p.2) l) A.
Proof.
  rewrite sum_second. unfold alpha_share. rewrite sumover_add, sumover_scale.
  by rewrite Hkey, Ha, HA.
Qed.
Lemma r_lambda_sum :
  eqp (sumover (λ sh, sumover (λ i, sh !!! (sharesR + i)%nat * rv_lambda view i) js) shares)
      (sumover (λ i, rv_lambda view i * r i) js).
Proof.
  rewrite sumover_swap. apply sumover_eqp. intros i Hi. rewrite <-(Hr i Hi).
  rewrite <-sumover_scale. apply eqz_of_eq, sumover_eq. intros sh _. ring.
Qed.
Lemma beta_sum : eqp (sumover (λ p, beta_share p.2) l) B.
Proof.
  rewrite sum_second. unfold beta_share. rewrite sumover_add. by rewrite Hb, r_lambda_sum, HB.
Qed.
Lemma z_sum :
  eqp (sumover (λ p, z_share p.1 p.2) l) (key * sumover (λ i, rv_lambda view i * r i) js).
Proof.
  unfold z_share. rewrite sumover_swap, <-sumover_scale. apply sumover_eqp. intros i Hi.
  rewrite sumover_add, sum_zero.
  rewrite (sumover_eq _ (λ p : nat * list Z,
    (- rv_lambda view i * rv_index view i) * (p.2 !!! (sharesR + i)%nat))) by (intros; ring).
  rewrite sumover_scale, (sum_second (λ sh, sh !!! (sharesR + i)%nat)), (Hr i Hi), (Hu i Hi).
  apply eqz_of_eq. ring.
Qed.
Lemma v_sum : eqp (sumover (λ p, v_share p.1 p.2) l) 0.
Proof.
  unfold v_share. rewrite !sumover_add, !sumover_scale, sumover_opp, sumover_add, sum_zero.
  rewrite (sum_second (λ sh, sh !!! (sharesTriple + 2)%nat)), Hc.
  rewrite (sum_second (λ sh, sh !!! (sharesTriple + 1)%nat)), Hb.
  rewrite (sum_second (λ sh, sh !!! sharesTriple)), Ha, z_sum.
  rewrite HA, HB. apply eqz_of_eq. ring.
Qed.
End Sum.
End Opening.

(** ** The code *)
Definition words (sh : list Z) : Prop := ∀ k, in_u128 (sh !!! k).
Lemma words_Forall sh : Forall in_u128 sh → words sh.
Proof.
  intros Hsh k. rewrite list_lookup_total_alt. destruct (sh !! k) eqn:E; simpl; [|done].
  by eapply Forall_lookup_1.
Qed.
Record view_ok (js : list nat) (view : round_view) : Prop := {
  view_index j : j ∈ js → in_u128 (rv_index view j);
  view_lambda j : j ∈ js → in_u128 (rv_lambda view j);
  view_product j : j ∈ js → in_u128 (rv_product view j)
}.
Lemma view_ok_tail j js view : view_ok (j :: js) view → view_ok js view.
Proof. intros [Hi Hl Hp]. split; intros k Hk; [apply Hi|apply Hl|apply Hp]; by right. Qed.

Lemma residue_refl z : in_u128 z → residue z z.
Proof. done. Qed.
Lemma residue_eqp z x y : eqp x y → residue z x → residue z y.
Proof. intros E [Hz Hx]. split; [done|]. by rewrite Hx. Qed.
Lemma residue_mod z x : residue z x → residue (z mod m127) x.
Proof. intros [Hz Hx]. split; [apply mod_word|]. by rewrite eqp_mod. Qed.
Lemma residue_zero : residue 0 0.
Proof. done. Qed.

Section Code.
Context `{Uint128Laws}.

Lemma reduceModP_spec a x :
  residue a x → returns (reduceModP a) (λ r, r = x mod m127 ∧ residue r x).
Proof.
  intros Ha. rewrite (reduce_residue a x Ha). split; [done|]. split; [apply mod_word|].
  apply eqp_mod.
Qed.
Lemma reduce_if_spec b a x :
  residue a x → returns (reduce_if b a) (λ r,
    residue r x ∧ r = if b then x mod m127 else a).
Proof.
  intros Ha. destruct b; simpl; [|done]. eapply returns_mono; [by apply reduceModP_spec|].
  by intros r [-> Hr].
Qed.
(** m127 - x for a reduced x. *)
Lemma negate_spec a x :
  a = x mod m127 → returns (u128_Sub m127 a) (λ r, residue r (- x)).
Proof.
  intros ->. pose proof (mod_range x). rewrite sub_law; [|done|apply mod_word|lia].
  split; [unfold in_u128, u128_max, m127 in *; lia|].
  rewrite eqp_mod. apply eqz_divide; [done|]. exists 1. ring.
Qed.

Lemma beta_z_spec signer view j sh js beta z x y :
  view_ok js view → words sh → residue beta x → residue z y →
  returns (beta_z signer view j sh js beta z) (λ r,
    let x' := x + sumover (λ i, sh !!! (sharesR + i)%nat * rv_lambda view i) js in
    residue r.1 x' ∧ (signer = true → js ≠ [] ∨ beta = x mod m127 → r.1 = x' mod m127) ∧
    residue r.2 (y + z_share js view j sh)).
Proof.
  intros Hview Hsh. revert beta z x y Hview.
  induction js as [|i js IH]; intros beta z x y Hview Hb Hz; cbn [beta_z].
  { unfold z_share. cbn [returns sumover foldr fst snd]. rewrite !Z.add_0_r.
    split_and!; [done| |done]. by intros _ [?|?]. }
  apply returns_bind. eapply returns_mono.
  { apply mulAddModP_spec; [exact Hb|apply residue_refl, Hsh|apply residue_refl, Hview; left]. }
  intros [[b1 r1] l1] (Hb1 & Er1 & El1). cbn [fst snd] in *. apply returns_bind.
  eapply returns_mono; [by apply reduce_if_spec|]. intros b2 [Hb2 Hb2r]. apply returns_bind.
  assert (residue r1 (sh !!! (sharesR + i)%nat)) as Hr1.
  { rewrite Er1. apply residue_mod, residue_refl, Hsh. }
  assert (residue l1 (rv_lambda view i)) as Hl1.
  { rewrite El1. apply residue_mod, residue_refl, Hview. left. }
  eapply returns_mono; [apply mulAddModP_spec; [apply residue_zero|exact Hr1|exact Hl1]|].
  intros [[t1 r2] l2] (Ht1 & _ & El2). cbn [fst snd] in *. apply returns_bind.
  eapply returns_mono; [by apply reduceModP_spec|]. intros t2 [Et2 _]. apply returns_bind.
  eapply returns_mono; [by apply (negate_spec _ _ Et2)|]. intros t3 Ht3. apply returns_bind.
  eapply returns_mono; [apply mulAddModP_spec; [exact Hz|exact Ht3|apply residue_refl, Hview; left]|].
  intros [[z1 w1] w2] (Hz1 & _). cbn [fst snd] in *. apply returns_bind.
  assert (residue l2 (rv_lambda view i)) as Hl2 by (rewrite El2; by apply residue_mod).
  set (w := if (j =? 0)%nat then rv_lambda view i * rv_product view i else 0).
  apply (returns_mono _ (λ z2, residue z2 (y + - (0 + sh !!! (sharesR + i)%nat * rv_lambda view i)
    * rv_index view i + w))).
  { unfold w. destruct (j =? 0)%nat.
    - apply returns_bind. eapply returns_mono.
      { apply mulAddModP_spec; [exact Hz1|exact Hl2|apply residue_refl, Hview; left]. }
      intros [[z2 w3] w4] (Hz2 & _). exact Hz2.
    - cbn [returns]. by rewrite Z.add_0_r. }
  intros z2 Hz2. eapply returns_mono; [apply IH; [by eapply view_ok_tail|exact Hb2|exact Hz2]|]. intros [b3 z3] (Hb3 & Hb3r & Hz3).
  cbn [fst snd] in *. rewrite sumover_cons, Z.add_assoc. split_and!; [done| |].
  - intros Hs _. apply Hb3r; [done|]. right. by rewrite Hb2r, Hs.
  - eapply residue_eqp; [|exact Hz3]. unfold z_share. rewrite sumover_cons. fold w.
    apply eqz_of_eq. ring.
Qed.

Lemma opening_spec signer params view j sh e a b E A B :
  let js := seq 0 (NResiduositySymbolsPerRound params) in
  js ≠ [] → view_ok js view → words sh → residue e E → residue a A → residue b B →
  returns (opening signer params view (e, a, b) j sh) (λ r,
    residue r.1.1.1 E ∧ residue r.1.1.2 A ∧ residue r.1.2 B ∧
    r.2 = opening_value js view E A B j sh).
Proof.
  intros js Hjs Hview Hsh He Ha Hb. unfold opening.
  apply returns_bind. eapply returns_mono.
  { apply mulAddModP_spec; [apply residue_zero|exact He|apply residue_refl, Hsh]. }
  intros [[p0 e1] x0] (Hp0 & Ee1 & _). cbn [fst snd] in *.
  assert (residue e1 E) as He1 by (rewrite Ee1; by apply residue_mod).
  apply returns_bind. eapply returns_mono.
  { apply addModP_spec; [exact Hp0|apply residue_refl, Hsh]. }
  intros p0' Hp0'. apply returns_bind. eapply returns_mono; [apply reduceModP_spec, Hp0'|].
  intros p0'' [E0 _]. apply returns_bind. eapply returns_mono.
  { apply beta_z_spec; [done|done|apply residue_refl, Hsh|apply residue_zero]. }
  intros [p1 z] (Hp1 & Hp1r & Hz). cbn [fst snd] in *. fold js in Hp1, Hp1r, Hz.
  rewrite Z.add_0_l in Hz. apply returns_bind.
  eapply returns_mono; [by apply reduce_if_spec|]. intros p1' [Hp1' Hp1r'].
  assert (p1' = beta_share js view sh mod m127) as E1.
  { destruct signer; [|done]. simpl in Hp1r'. rewrite Hp1r'. by apply Hp1r; [|left]. }
  set (c := sh !!! (sharesTriple + 2)%nat + if (j =? 0)%nat then A * B else 0).
  apply returns_bind. apply (returns_mono _ (λ r, residue r.1.1 c ∧ residue r.1.2 A ∧ residue r.2 B)).
  { unfold c. destruct (j =? 0)%nat.
    - eapply returns_mono; [apply mulAddModP_spec; [apply residue_refl, Hsh|exact Ha|exact Hb]|].
      intros [[q x1] x2] (Hq & -> & ->). cbn [fst snd]. split_and!; [done|by apply residue_mod..].
    - cbn [returns fst snd]. rewrite Z.add_0_r. split_and!; [apply residue_refl, Hsh|done..]. }
  intros [[p2 a1] b1] (Hp2 & Ha1 & Hb1). cbn [fst snd] in *. apply returns_bind.
  eapply returns_mono; [by apply reduceModP_spec|]. intros p3 [E3 _]. apply returns_bind.
  eapply returns_mono; [by apply (negate_spec _ _ E3)|]. intros p4 Hp4. apply returns_bind.
  eapply returns_mono; [apply mulAddModP_spec; [exact Hp4|exact Ha1|apply residue_refl, Hsh]|].
  intros [[p5 a2] x1] (Hp5 & Ea2 & _). cbn [fst snd] in *. apply returns_bind.
  eapply returns_mono; [apply mulAddModP_spec; [exact Hp5|exact Hb1|apply residue_refl, Hsh]|].
  intros [[p6 b2] x2] (Hp6 & Eb2 & _). cbn [fst snd] in *. apply returns_bind.
  eapply returns_mono; [apply mulAddModP_spec; [exact Hp6|exact He1|exact Hz]|].
  intros [[p7 e2] x3] (Hp7 & Ee2 & _). cbn [fst snd] in *. apply returns_bind.
  eapply returns_mono; [by apply reduceModP_spec|]. intros p8 [E8 _]. cbn [returns fst snd].
  rewrite Ea2, Eb2, Ee2. split_and!; [by apply residue_mod..|].
  rewrite E0, E1, E8. unfold opening_value, alpha_share, v_share. fold c. repeat f_equal.
Qed.
End Code.
