(* ===== verification/LegRound.v ===== *)
(** * One round of LegRoast

    What a round of the signer produces and what the verifier recomputes from it. *)
From Stdlib Require Import ZArith Lia.
From stdpp Require Import base numbers list.
From S2P Require Import Prelude Uint128 Field127 Residue LegRoast LegTree LegOpen.
Open Scope Z_scope.

(** ** Loops *)
Lemma returns_traverse {S A B} (f : S → A → result (S * B)) (I : list A → S → Prop)
    (g : A → B) s l k :
  I k s →
  (∀ s x k', x ∈ l → I k' s → returns (f s x) (λ r, I (k' ++ [x]) r.1 ∧ r.2 = g x)) →
  returns (traverse_st f s l) (λ r, I (k ++ l) r.1 ∧ r.2 = g <$> l).
Proof.
  revert s k. induction l as [|x l IH]; intros s k Hs Hf; cbn [traverse_st].
  { by rewrite app_nil_r. }
  apply returns_bind. eapply returns_mono; [apply Hf; [left|exact Hs]|].
  intros [s' y] [Hs' Hy]. cbn [fst snd] in *. apply returns_bind.
  eapply returns_mono; [apply (IH s' (k ++ [x])); [done|intros; apply Hf; [by right|done]]|].
  intros [s'' ys] [Hs'' Hys]. cbn [fst snd returns] in *. rewrite <-app_assoc in Hs''.
  split; [done|]. by rewrite fmap_cons, Hy, Hys.
Qed.

Lemma returns_assoc {A B C} (m : result A) (f : A → result B) (g : B → result C) Q :
  returns ((m ≫= f) ≫= g) Q → returns (m ≫= λ a, f a ≫= g) Q.
Proof. by destruct m. Qed.

(** A loop whose results are given by index. *)
Lemma returns_mapM_seq {B} `{Inhabited B} (f : nat → result B) (R : nat → B → Prop) n :
  (∀ i, (i < n)%nat → returns (f i) (R i)) →
  returns (mapM f (seq 0 n)) (λ l, length l = n ∧ ∀ i, (i < n)%nat → R i (l !!! i)).
Proof.
  intros Hf. eapply returns_mono; [apply returns_mapM; intros i Hi%elem_of_seq; apply Hf; lia|].
  intros l Hl. split; [apply Forall2_length in Hl; by rewrite length_seq in Hl|].
  intros i Hi. assert (seq 0 n !! i = Some i) as Hs by (by apply lookup_seq_lt).
  destruct (Forall2_lookup_l _ _ _ _ _ Hl Hs) as (y & Hy & HR).
  by rewrite (list_lookup_total_correct _ _ _ Hy).
Qed.

Lemma length_slice b from len : (from + len ≤ length b)%nat → length (slice b from len) = len.
Proof. intros Hl. unfold slice. rewrite length_take, length_drop. lia. Qed.

Section Round.
Context `{Uint128Laws} `{Shake128Laws}.

Lemma clear_beta_spec view sums js beta x :
  view_ok js view → words sums → residue beta x →
  returns (clear_beta view sums js beta) (λ r,
    residue r (x + sumover (λ j, rv_lambda view j * sums !!! (sharesR + j)%nat) js)).
Proof.
  intros Hv Hs. revert beta x Hv. induction js as [|j js IH]; intros beta x Hv Hb; cbn [clear_beta].
  { cbn [returns sumover foldr]. by rewrite Z.add_0_r. }
  apply returns_bind. eapply returns_mono.
  { apply mulAddModP_spec; [exact Hb|apply residue_refl, Hv; left|apply residue_refl, Hs]. }
  intros [[b x1] x2] (Hb' & _). cbn [fst snd] in *.
  eapply returns_mono; [apply IH; [by eapply view_ok_tail|exact Hb']|].
  intros r Hr. by rewrite sumover_cons, Z.add_assoc.
Qed.

(** ** Shares *)
Lemma expand_shares_words params seed :
  length (expand_shares params seed) = SharesPerParty params ∧
  Forall in_u128 (expand_shares params seed).
Proof.
  unfold expand_shares. split; [by rewrite length_fmap, length_seq|].
  apply Forall_fmap, Forall_forall. intros j Hj%elem_of_seq. simpl.
  apply from_bytes_range, length_slice. unfold LRExpand. rewrite shake128_length.
  unfold Uint128Size. lia.
Qed.

Lemma add_all_spec sums sh xs :
  Forall2 residue sums xs → Forall in_u128 sh →
  returns (add_all sums sh) (λ r, Forall2 residue r (zip_with Z.add xs sh)).
Proof.
  intros Hx. revert sh. induction Hx as [|a x sums xs Ha Hx IH]; intros [|b sh] Hsh;
    try by constructor.
  apply Forall_cons in Hsh as [Hb Hsh]. unfold add_all. cbn [zip zip_with mapM fst snd].
  apply returns_bind. eapply returns_mono; [apply addModP_spec; [exact Ha|by apply residue_refl]|].
  intros c Hc. apply returns_bind. eapply returns_mono; [by apply IH|].
  intros r Hr. by constructor.
Qed.
Lemma sum_shares_spec sums parties xs :
  Forall2 residue sums xs → Forall (Forall in_u128) parties →
  returns (sum_shares sums parties) (λ r, Forall2 residue r (foldl (zip_with Z.add) xs parties)).
Proof.
  revert sums xs. induction parties as [|sh parties IH]; intros sums xs Hx Hp; [done|].
  apply Forall_cons in Hp as [Hsh Hp]. cbn [sum_shares foldl]. apply returns_bind.
  eapply returns_mono; [by apply add_all_spec|]. intros r Hr. by apply IH.
Qed.
Lemma foldl_columns n xs parties :
  length xs = n → Forall (λ sh, length sh = n) parties →
  length (foldl (zip_with Z.add) xs parties) = n ∧
  ∀ k, (k < n)%nat → foldl (zip_with Z.add) xs parties !!! k
    = xs !!! k + sumover (λ sh, sh !!! k) parties.
Proof.
  intros Hn Hp. revert xs Hn. induction Hp as [|sh parties Hsh Hp IH]; intros xs Hn; cbn [foldl].
  { split; [done|]. intros k Hk. simpl. ring. }
  destruct (IH (zip_with Z.add xs sh)) as [Hl Hk].
  { rewrite length_zip_with. lia. }
  split; [done|]. intros k Hlt. rewrite Hk by done. rewrite sumover_cons.
  destruct (lookup_lt_is_Some_2 xs k) as [a Ha]; [lia|].
  destruct (lookup_lt_is_Some_2 sh k) as [b Hb]; [lia|].
  rewrite (list_lookup_total_correct xs k a), (list_lookup_total_correct sh k b) by done.
  rewrite (list_lookup_total_correct _ k (a + b)); [ring|].
  by rewrite lookup_zip_with, Ha, Hb.
Qed.

(** The sums of a round, reduced. *)
Lemma sums_spec n parties :
  Forall (λ sh, length sh = n ∧ Forall in_u128 sh) parties →
  returns (sums ← sum_shares (replicate n 0) parties; mapM reduceModP sums) (λ sums,
    length sums = n ∧ words sums ∧
    ∀ k, (k < n)%nat → sums !!! k = sumover (λ sh, sh !!! k) parties mod m127).
Proof.
  intros Hp. apply returns_bind. eapply returns_mono.
  { apply (sum_shares_spec _ _ (replicate n 0)).
    - apply Forall2_replicate, residue_zero.
    - eapply Forall_impl; [exact Hp|]. by intros sh [_ ?]. }
  intros r Hr. destruct (foldl_columns n (replicate n 0) parties) as [Hl Hk].
  { apply length_replicate. }
  { eapply Forall_impl; [exact Hp|]. by intros sh [? _]. }
  assert (returns (mapM reduceModP r) (λ s, s = (λ x, x mod m127) <$>
    foldl (zip_with Z.add) (replicate n 0) parties)) as Hm.
  { clear Hl Hk. induction Hr as [|a x r xs Ha Hr IH]; [done|]. cbn [mapM].
    apply returns_bind. rewrite (reduce_residue _ _ Ha). cbn [returns]. apply returns_bind.
    eapply returns_mono; [exact IH|]. intros s ->. done. }
  eapply returns_mono; [exact Hm|]. intros s ->. split_and!.
  - by rewrite length_fmap.
  - apply words_Forall, Forall_fmap, Forall_true. intros x. apply mod_word.
  - intros k Hlt. rewrite (list_lookup_total_fmap (A:=Z) (λ x, x mod m127)) by lia.
    rewrite Hk, total_replicate by done. done.
Qed.

(** ** The commitment of a round *)
Definition sigma (legendre : bool) : residue_symbol :=
  if legendre then legendre_symbol else power_symbol.
Lemma residuosity_spec legendre a x :
  residue a x → returns (residuosity legendre a) (is_symbol (sigma legendre) x).
Proof. destruct legendre; [apply legendre_spec|apply power_spec]. Qed.
Lemma sigma_good legendre : good_symbol (sigma legendre).
Proof. destruct legendre; [apply legendre_good|apply power_good]. Qed.

Definition round_seeds (params : LegRoastParams) (root : bytes) : list bytes :=
  leaf params (Generate (Parties params) root) <$> seq 0 (Parties params).

(** The shares a party has after the deltas. *)
Definition dealt (params : LegRoastParams) (rc : round_commit) (j : nat) (seed : bytes)
    (sh : list Z) : Prop :=
  let raw := expand_shares params seed in
  if (j =? 0)%nat then
    ∃ k c, addModP (raw !!! shareK) (rc_deltaK rc) = Ok k ∧
      addModP (raw !!! (sharesTriple + 2)%nat) (rc_deltaTriple rc) = Ok c ∧
      sh = <[(sharesTriple + 2)%nat := c]> (<[shareK := k]> raw)
  else sh = raw.

Record round_ok (lr : LegRoast) (key : Z) (root : bytes) (rs : round_secret) (rc : round_commit)
    : Prop := {
  ro_tree : rs_tree rs = Generate (Parties (lr_params lr)) root;
  ro_count : length (rs_shares rs) = Parties (lr_params lr);
  ro_words j sh : rs_shares rs !! j = Some sh → words sh;
  ro_dealt j seed sh : round_seeds (lr_params lr) root !! j = Some seed →
    rs_shares rs !! j = Some sh → dealt (lr_params lr) rc j seed sh;
  ro_sum_words : words (rs_sums rs);
  ro_sums k : (k < SharesPerParty (lr_params lr))%nat → rs_sums rs !!! k =
    sumover (λ seed, expand_shares (lr_params lr) seed !!! k)
      (round_seeds (lr_params lr) root) mod m127;
  ro_key : eqp (sumover (λ sh, sh !!! shareK) (rs_shares rs)) key;
  ro_triple : eqp (sumover (λ sh, sh !!! (sharesTriple + 2)%nat) (rs_shares rs))
    (rs_sums rs !!! sharesTriple * rs_sums rs !!! (sharesTriple + 1)%nat);
  ro_other k : (k < SharesPerParty (lr_params lr))%nat → k ≠ shareK → k ≠ (sharesTriple + 2)%nat →
    eqp (sumover (λ sh, sh !!! k) (rs_shares rs)) (rs_sums rs !!! k);
  ro_seeds : rc_seeds rc = LRHash <$> round_seeds (lr_params lr) root;
  ro_symbols : length (rc_symbols rc) = NResiduositySymbolsPerRound (lr_params lr) ∧
    ∀ i, (i < NResiduositySymbolsPerRound (lr_params lr))%nat →
      is_symbol (sigma (isLegendre lr)) (rs_sums rs !!! (sharesR + i)%nat) (rc_symbols rc !!! i);
  ro_deltas : in_u128 (rc_deltaK rc) ∧ in_u128 (rc_deltaTriple rc)
}.

(** Changing two entries of the first party changes two column sums. *)
Lemma sumover_first_insert (shares : list (list Z)) first k v :
  shares !! 0%nat = Some first → 
  sumover (λ sh, sh !!! k) (<[0%nat := v]> shares)
    = sumover (λ sh, sh !!! k) shares + (v !!! k - first !!! k).
Proof.
  destruct shares as [|f shares]; intros Hf; simplify_eq/=. ring.
Qed.

Lemma commit_round_spec lr key root :
  (1 ≤ Parties (lr_params lr))%nat →
  SharesPerParty (lr_params lr) = (4 + NResiduositySymbolsPerRound (lr_params lr))%nat →
  0 ≤ key < m127 →
  returns (commit_round lr key root) (λ r, round_ok lr key root r.1 r.2).
Proof.
  intros HN HS Hkey. set (params := lr_params lr) in *. unfold commit_round. fold params.
  change (leaf params (Generate (Parties params) root) <$> seq 0 (Parties params))
    with (round_seeds params root).
  set (seeds := round_seeds params root). set (shares := expand_shares params <$> seeds).
  assert (Forall (λ sh, length sh = SharesPerParty params ∧ Forall in_u128 sh) shares) as Hshares.
  { apply Forall_fmap, Forall_true. intros seed. apply expand_shares_words. }
  assert (length seeds = Parties params) as Hseeds.
  { unfold seeds, round_seeds. by rewrite length_fmap, length_seq. }
  assert (length shares = Parties params) as Hlen by (unfold shares; by rewrite length_fmap).
  destruct (lookup_lt_is_Some_2 shares 0) as [first Hfirst]; [lia|].
  assert (shares !!! 0%nat = first) as Ef by (by apply list_lookup_total_correct).
  destruct (Forall_lookup_1 _ _ _ _ Hshares Hfirst) as [Hfl Hfw%words_Forall].
  apply returns_assoc. apply returns_bind. eapply returns_mono; [by apply sums_spec|].
  intros sums (Hsl & Hsw & Hsums).
  assert (∀ k, (k < SharesPerParty params)%nat →
    sums !!! k = sumover (λ seed, expand_shares params seed !!! k) seeds mod m127) as Hsums'.
  { intros k Hk. rewrite Hsums by done. unfold shares. by rewrite sumover_fmap. }
  assert (∀ k, (k < SharesPerParty params)%nat → residue (sums !!! k)
    (sumover (λ sh, sh !!! k) shares)) as Hres.
  { intros k Hk. rewrite Hsums by done. split; [apply mod_word|apply eqp_mod]. }
  apply returns_bind. eapply returns_mono.
  { apply (returns_mapM_seq _ (λ i s, is_symbol (sigma (isLegendre lr))
      (sums !!! (sharesR + i)%nat) s)). intros i Hi. apply residuosity_spec, residue_refl, Hsw. }
  intros symbols Hsym. apply returns_bind. rewrite Ef.
  eapply returns_mono; [apply negate_spec, Hsums; unfold shareK; lia|]. intros dk0 Hdk0. apply returns_bind.
  assert (in_u128 key) as Hkw by (unfold in_u128, u128_max, m127 in *; lia).
  eapply returns_mono; [apply addModP_spec; [exact Hdk0|by apply residue_refl]|].
  intros dk1 Hdk1. apply returns_bind.
  eapply returns_mono; [apply reduceModP_spec, Hdk1|]. intros dk [_ Hdk]. apply returns_bind.
  destruct (returns_inv _ _ (addModP_spec (first !!! shareK) dk _ _
    (residue_refl _ (Hfw shareK)) Hdk)) as (k0 & Ek0 & Hk0).
  rewrite Ek0. cbn [returns]. apply returns_bind.
  eapply returns_mono; [apply negate_spec, Hsums; unfold sharesTriple, shareK; lia|].
  intros dt0 Hdt0. apply returns_bind. eapply returns_mono.
  { apply mulAddModP_spec; [exact Hdt0|apply residue_refl, Hsw|apply residue_refl, Hsw]. }
  intros [[dt1 x1] x2] (Hdt1 & _). cbn [fst snd] in *. apply returns_bind.
  eapply returns_mono; [apply reduceModP_spec, Hdt1|]. intros dt [_ Hdt]. apply returns_bind.
  destruct (returns_inv _ _ (addModP_spec (first !!! (sharesTriple + 2)%nat) dt _ _
    (residue_refl _ (Hfw _)) Hdt)) as (c0 & Ec0 & Hc0).
  rewrite Ec0. cbn [returns fst snd].
  set (first' := <[(sharesTriple + 2)%nat := c0]> (<[shareK := k0]> first)).
  assert (first' !!! shareK = k0) as Fk.
  { unfold first'. rewrite total_insert_ne by done. rewrite total_insert_eq; [done|].
    unfold shareK. lia. }
  assert (first' !!! (sharesTriple + 2)%nat = c0) as Fc.
  { unfold first'. rewrite total_insert_eq; [done|]. rewrite length_insert.
    unfold sharesTriple, shareK. lia. }
  assert (∀ k, k ≠ shareK → k ≠ (sharesTriple + 2)%nat → first' !!! k = first !!! k) as Fo.
  { intros k Hk Hc. unfold first'. by rewrite !total_insert_ne by done. }
  split; cbn [rs_tree rs_shares rs_sums rc_seeds rc_symbols rc_deltaK rc_deltaTriple]; fold params.
  - done.
  - by rewrite length_insert.
  - intros [|j] sh Hj.
    + rewrite list_lookup_insert_eq in Hj by lia. injection Hj as <-. intros k.
      destruct (decide (k = shareK)) as [->|Hk]; [rewrite Fk; apply Hk0|].
      destruct (decide (k = (sharesTriple + 2)%nat)) as [->|Hc]; [rewrite Fc; apply Hc0|].
      by rewrite Fo.
    + rewrite list_lookup_insert_ne in Hj by done. apply words_Forall.
      apply (Forall_lookup_1 _ _ _ _ Hshares Hj).
  - intros [|j] seed sh Hseed Hj; unfold dealt; simpl.
    + rewrite list_lookup_insert_eq in Hj by lia. injection Hj as <-. exists k0, c0.
      assert (expand_shares params seed = first) as ->; [|done].
      unfold shares in Hfirst. fold seeds in Hseed. rewrite list_lookup_fmap, Hseed in Hfirst.
      by injection Hfirst.
    + rewrite list_lookup_insert_ne in Hj by done. fold seeds in Hseed.
      unfold shares in Hj. rewrite list_lookup_fmap, Hseed in Hj. by injection Hj.
  - done.
  - done.
  - rewrite (sumover_first_insert _ _ _ _ Hfirst), Fk. destruct Hk0 as [_ ->].
    apply eqz_of_eq. ring.
  - rewrite (sumover_first_insert _ _ _ _ Hfirst), Fc. destruct Hc0 as [_ ->].
    apply eqz_of_eq. ring.
  - intros k Hk H1' H2'. rewrite (sumover_first_insert _ _ _ _ Hfirst), Fo by done.
    destruct (Hres k Hk) as [_ ->]. apply eqz_of_eq. ring.
  - done.
  - done.
  - split; [apply Hdk|apply Hdt].
Qed.

(** ** The openings of a round *)
Section Openings.
Context (lr : LegRoast) (key : Z) (root : bytes) (rs : round_secret) (rc : round_commit).
Let params : LegRoastParams := lr_params lr.
Let js : list nat := seq 0 (NResiduositySymbolsPerRound params).
Context (Hround : round_ok lr key root rs rc) (Hkey : 0 ≤ key < m127).
Context (HN : (1 ≤ Parties params)%nat) (Hjs : js ≠ []).
Context (HS : SharesPerParty params = (4 + NResiduositySymbolsPerRound params)%nat).
Context (view : round_view) (Hview : view_ok js view) (E : Z) (HE : in_u128 E).
Context (Hprod : ∀ i, i ∈ js → eqp (rv_product view i)
  ((rv_index view i + key) * rs_sums rs !!! (sharesR + i)%nat)).

Definition clear_alpha : Z := (E * key + rs_sums rs !!! sharesTriple) mod m127.
Definition clear_beta_value : Z :=
  (rs_sums rs !!! (sharesTriple + 1)%nat
   + sumover (λ j, rv_lambda view j * rs_sums rs !!! (sharesR + j)%nat) js) mod m127.
Definition all_openings : list (Z * Z * Z) :=
  (λ p, opening_value js view E clear_alpha clear_beta_value p.1 p.2)
    <$> zip (seq 0 (Parties params)) (rs_shares rs).

Lemma party_words p : p ∈ zip (seq 0 (Parties params)) (rs_shares rs) → words p.2.
Proof.
  intros (k & Hk)%list_elem_of_lookup_1. destruct p as [j sh].
  apply lookup_zip_Some in Hk as [_ Hsh]. by apply (ro_words _ _ _ _ _ Hround k).
Qed.

Lemma signer_openings e a b :
  residue e E → residue a clear_alpha → residue b clear_beta_value →
  returns (traverse_st (λ eab p, opening true params view eab p.1 p.2) (e, a, b)
    (zip (seq 0 (Parties params)) (rs_shares rs))) (λ r, r.2 = all_openings).
Proof.
  intros He Ha Hb. eapply returns_mono.
  - apply (returns_traverse _ (λ _ eab, residue eab.1.1 E ∧ residue eab.1.2 clear_alpha ∧
      residue eab.2 clear_beta_value)
      (λ p, opening_value js view E clear_alpha clear_beta_value p.1 p.2) _ _ []); [done|].
    intros [[e' a'] b'] p _ Hp (He' & Ha' & Hb'). cbn [fst snd] in *. eapply returns_mono.
    + apply opening_spec; [done|done|by apply party_words|exact He'|exact Ha'|exact Hb'].
    + intros r (? & ? & ? & ?). done.
  - by intros r [_ ->].
Qed.

Lemma column k :
  (k < SharesPerParty params)%nat → k ≠ shareK → k ≠ (sharesTriple + 2)%nat →
  eqp (sumover (λ sh, sh !!! k) (rs_shares rs)) (rs_sums rs !!! k).
Proof. apply (ro_other _ _ _ _ _ Hround). Qed.
Lemma openings_sums :
  let l := zip (seq 0 (Parties params)) (rs_shares rs) in
  eqp (sumover (λ p, alpha_share E p.2) l) clear_alpha ∧
  eqp (sumover (λ p, beta_share js view p.2) l) clear_beta_value ∧
  eqp (sumover (λ p, v_share js view E clear_alpha clear_beta_value p.1 p.2) l) 0.
Proof.
  cbn zeta. unfold sharesTriple, sharesR, shareK in *.
  assert (∀ i, i ∈ js → eqp (sumover (λ sh, sh !!! (sharesR + i)%nat) (rs_shares rs))
    (rs_sums rs !!! (sharesR + i)%nat)) as Hcol.
  { intros i Hi%elem_of_seq. apply column; unfold sharesR, sharesTriple, shareK; lia. }
  assert (eqp clear_alpha (E * key + rs_sums rs !!! sharesTriple)) as HA by apply eqp_mod.
  assert (eqp clear_beta_value (rs_sums rs !!! (sharesTriple + 1)%nat
   + sumover (λ j, rv_lambda view j * rs_sums rs !!! (sharesR + j)%nat) js)) as HB by apply eqp_mod.
  assert (eqp (sumover (λ sh, sh !!! sharesTriple) (rs_shares rs)) (rs_sums rs !!! sharesTriple)) as Ha
    by (apply column; unfold sharesTriple, shareK; lia).
  assert (eqp (sumover (λ sh, sh !!! (sharesTriple + 1)%nat) (rs_shares rs))
    (rs_sums rs !!! (sharesTriple + 1)%nat)) as Hb
    by (apply column; unfold sharesTriple, shareK; lia).
  pose proof (ro_key _ _ _ _ _ Hround) as Hk. pose proof (ro_triple _ _ _ _ _ Hround) as Hc.
  pose proof (ro_count _ _ _ _ _ Hround) as Hlen. fold params in Hlen.
  split_and!.
  - by eapply alpha_sum.
  - by eapply (beta_sum js view _ (Parties params) (rs_shares rs) _ (λ i, rs_sums rs !!! (sharesR + i)%nat)).
  - eapply (v_sum js view E _ _ (Parties params) (rs_shares rs) key _ _ (λ i, rs_sums rs !!! (sharesR + i)%nat)); done || lia.
Qed.

(** The parties the verifier sees. *)
Section Verifier.
Context (u : nat) (seen : list (list Z)).
Context (Hu : (u < Parties params)%nat) (Hseen : length seen = Parties params).
Context (Hsame : ∀ j, j ≠ u → seen !! j = rs_shares rs !! j).

Let l := zip (seq 0 (Parties params)) (rs_shares rs).
Let l' := zip (seq 0 (Parties params)) seen.
Definition others (f : nat → list Z → Z) (k : list (nat * list Z)) : Z :=
  sumover (λ p, if (p.1 =? u)%nat then 0 else f p.1 p.2) k.

Lemma others_spec f :
  others f l' = sumover (λ p, f p.1 p.2) l - f u (rs_shares rs !!! u).
Proof.
  pose proof (ro_count _ _ _ _ _ Hround) as Hlen. fold params in Hlen.
  unfold others, l, l'. rewrite !sumover_zip_seq by done. cbn [fst snd].
  rewrite <-(sumover_except (Parties params) u (λ j, f j (rs_shares rs !!! j))) by done.
  apply sumover_eq. intros j _. destruct (Nat.eqb_spec j u) as [|Hne]; [done|].
  by rewrite !list_lookup_total_alt, Hsame.
Qed.

Let OV := opening_value js view E clear_alpha clear_beta_value.
Let fa (j : nat) (sh : list Z) : Z := alpha_share E sh.
Let fb (j : nat) (sh : list Z) : Z := beta_share js view sh.
Let fv : nat → list Z → Z := v_share js view E clear_alpha clear_beta_value.

Lemma others_snoc f k p :
  others f (k ++ [p]) = others f k + if (p.1 =? u)%nat then 0 else f p.1 p.2.
Proof. unfold others. rewrite sumover_app, sumover_cons. simpl. ring. Qed.
Lemma residue_add_mod s x y : residue s x → returns (addModP s (y mod m127)) (λ r, residue r (x + y)).
Proof.
  intros Hs. apply addModP_spec; [done|]. split; [apply mod_word|apply eqp_mod].
Qed.

Definition seen_state (k : list (nat * list Z)) (s : (Z * Z * Z) * (Z * Z * Z)) : Prop :=
  (residue s.1.1.1 E ∧ residue s.1.1.2 clear_alpha ∧ residue s.1.2 clear_beta_value) ∧
  residue s.2.1.1 (others fa k) ∧ residue s.2.1.2 (others fb k) ∧ residue s.2.2 (others fv k).

Lemma check_party_spec s p k :
  p ∈ l' → seen_state k s →
  returns (check_party params view u s p) (λ r, seen_state (k ++ [p]) r.1 ∧
    r.2 = if (p.1 =? u)%nat then (0, 0, 0) else OV p.1 p.2).
Proof.
  intros Hp [(He & Ha & Hb) (Sa & Sb & Sv)]. destruct s as [[[e a] b] [[sa sb] sv]].
  cbn [fst snd] in *. unfold check_party.
  destruct (Nat.eqb_spec p.1 u) as [Hpu|Hpu].
  { cbn [returns fst snd]. split; [|done]. unfold seen_state. rewrite !others_snoc.
    rewrite (proj2 (Nat.eqb_eq _ _) Hpu), !Z.add_0_r. done. }
  assert (words p.2) as Hw.
  { apply list_elem_of_lookup_1 in Hp as [i Hi]. destruct p as [j sh]. cbn [fst snd] in *.
    apply lookup_zip_Some in Hi as [Hj Hsh]. apply lookup_seq in Hj as [-> _].
    rewrite Hsame in Hsh by done. by apply (ro_words _ _ _ _ _ Hround _ _ Hsh). }
  apply returns_bind. eapply returns_mono.
  { apply (opening_spec false params view p.1 p.2 e a b E clear_alpha clear_beta_value); done. }
  intros [[[e' a'] b'] o] (He' & Ha' & Hb' & Ho). cbn [fst snd] in *. subst o.
  unfold opening_value. cbn [fst snd].
  apply returns_bind. eapply returns_mono; [by apply residue_add_mod|]. intros sa' Sa'.
  apply returns_bind. eapply returns_mono; [by apply residue_add_mod|]. intros sb' Sb'.
  apply returns_bind. eapply returns_mono; [by apply residue_add_mod|]. intros sv' Sv'.
  cbn [returns fst snd]. split; [|done]. unfold seen_state. rewrite !others_snoc.
  rewrite (proj2 (Nat.eqb_neq _ _) Hpu). cbn [fst snd]. done.
Qed.

(** The unopened share is what is missing from the total. *)
Lemma missing_share f total :
  eqp (sumover (λ p, f p.1 p.2) l) total →
  (- others f l' + total) mod m127 = f u (rs_shares rs !!! u) mod m127.
Proof.
  intros Ht. apply eqz_same. rewrite others_spec, <-Ht. apply eqz_of_eq. ring.
Qed.

Lemma check_open_round_spec indices challenge2 message2 message3 challenge3 nRound :
  round_view_of params indices challenge2 message2 nRound = view →
  epsilon_of challenge2 nRound = E →
  unopenedParty challenge3 nRound = u →
  u128_FromBytes (slice message3 (message3Alpha + nRound * Uint128Size) Uint128Size)
    = clear_alpha →
  u128_FromBytes (slice message3 (Message3Beta params + nRound * Uint128Size) Uint128Size)
    = clear_beta_value →
  returns (check_open_round lr indices challenge2 message2 message3 challenge3 seen nRound)
    (λ o, o = all_openings).
Proof.
  intros Ev Ee Eu Ea Eb. unfold check_open_round. fold params. rewrite Ev, Ee, Eu, Ea, Eb.
  destruct openings_sums as (SA & SB & SV). fold l in SA, SB, SV.
  apply returns_bind. eapply returns_mono.
  { apply (returns_traverse _ seen_state
      (λ p, if (p.1 =? u)%nat then (0, 0, 0) else OV p.1 p.2) _ l' []).
    - split; [|done]. split_and!; [done|apply residue_refl, mod_word..].
    - intros s p k Hp Hs. by apply check_party_spec. }
  intros [[[[e a] b] [[sa sb] sv]] openings] [[(_ & Ha & Hb) (Sa & Sb & Sv)] Ho].
  cbn [fst snd app] in *. subst openings. cbn [app] in *.
  apply returns_bind. eapply returns_mono; [apply reduceModP_spec, Sa|]. intros sa' [Esa _].
  apply returns_bind. eapply returns_mono; [apply reduceModP_spec, Sb|]. intros sb' [Esb _].
  apply returns_bind. eapply returns_mono; [apply reduceModP_spec, Sv|]. intros sv' [Esv _].
  apply returns_bind. eapply returns_mono; [apply (negate_spec _ _ Esa)|]. intros xa Xa.
  apply returns_bind. eapply returns_mono; [apply (negate_spec _ _ Esb)|]. intros xb Xb.
  apply returns_bind. eapply returns_mono; [apply (negate_spec _ _ Esv)|]. intros xv Xv.
  apply returns_bind. eapply returns_mono; [apply addModP_spec; [exact Xa|exact Ha]|]. intros ya Ya.
  apply returns_bind. eapply returns_mono; [apply addModP_spec; [exact Xb|exact Hb]|]. intros yb Yb.
  apply returns_bind. eapply returns_mono; [apply reduceModP_spec, Ya|]. intros za [-> _].
  apply returns_bind. eapply returns_mono; [apply reduceModP_spec, Yb|]. intros zb [-> _].
  apply returns_bind. eapply returns_mono; [apply reduceModP_spec, Xv|]. intros zv [-> _].
  cbn [returns]. rewrite (missing_share fa _ SA), (missing_share fb _ SB).
  rewrite <-(Z.add_0_r (- others fv l')), (missing_share fv _ SV).
  pose proof (ro_count _ _ _ _ _ Hround) as Hlen. fold params in Hlen.
  apply list_eq. intros j. unfold all_openings. fold l.
  destruct (decide (j < Parties params)%nat) as [Hj|Hj].
  - destruct (lookup_lt_is_Some_2 (rs_shares rs) j) as [sh Hsh]; [lia|].
    rewrite list_lookup_fmap. unfold l. rewrite lookup_zip_with, lookup_seq_lt, Hsh by done. simpl.
    destruct (decide (j = u)) as [->|Hne].
    + rewrite list_lookup_insert_eq.
      * by rewrite (list_lookup_total_correct _ _ _ Hsh).
      * unfold l'. rewrite length_fmap, length_zip, length_seq, Hseen. lia.
    + rewrite list_lookup_insert_ne by done. rewrite list_lookup_fmap. unfold l'.
      rewrite lookup_zip_with, lookup_seq_lt, Hsame, Hsh by done. simpl.
      by rewrite (proj2 (Nat.eqb_neq _ _) Hne).
  - rewrite !lookup_ge_None_2; [done|..]; [|rewrite length_insert];
      rewrite length_fmap; unfold l, l'; rewrite length_zip, length_seq; lia.
Qed.
End Verifier.
End Openings.
End Round.
