(* ===== verification/LegRoastThm.v ===== *)
(** * LegRoast signatures verify

    A signature made by [Sign] is accepted by [LR_Verify] under the signer's public
    key, for every algorithm, unless one of the events of negligible probability
    happens in which the scheme does not work: a random number or a shifted key is
    zero in the field, or a seed is all zeros. *)
From Stdlib Require Import ZArith Lia.
From stdpp Require Import base numbers strings list.
From S2P Require Import Prelude Sdk Uint128 Field127 Residue LegRoast LegTree LegOpen LegRound.
Open Scope Z_scope.

(** ** The parameter sets *)
Record params_ok (P : LegRoastParams) : Prop := {
  ok_rounds : (1 ≤ NRounds P)%nat;
  ok_syms : (1 ≤ NResiduositySymbolsPerRound P)%nat;
  ok_depth : (1 ≤ NPartyDepth P ≤ 31)%nat;
  ok_ressym : RESSYMPerRound P = (NRounds P * NResiduositySymbolsPerRound P)%nat;
  ok_parties : Parties P = (2 ^ NPartyDepth P)%nat;
  ok_shares : SharesPerParty P = (4 + NResiduositySymbolsPerRound P)%nat;
  ok_delta : Message1DeltaTriple P = (32 + NRounds P * 16)%nat;
  ok_m1 : Message1Bytes P = (32 + NRounds P * 16 + NRounds P * 16)%nat;
  ok_c1 : Challenge1Bytes P = (RESSYMPerRound P * 4)%nat;
  ok_m2 : Message2Bytes P = (RESSYMPerRound P * 16)%nat;
  ok_lambda : Challenge2Lambda P = (NRounds P * 16)%nat;
  ok_c2 : Challenge2Bytes P = (NRounds P * 16 + RESSYMPerRound P * 16)%nat;
  ok_beta : Message3Beta P = (32 + NRounds P * 16)%nat;
  ok_m3 : Message3Bytes P = (32 + NRounds P * 16 + NRounds P * 16)%nat;
  ok_m4c : Message4Commitment P = (NRounds P * NPartyDepth P * 16)%nat;
  ok_sig : SigBytes P = (Message1Bytes P + Message2Bytes P + Message3Bytes P
    + (NRounds P * NPartyDepth P * 16 + NRounds P * 32))%nat
}.
Lemma new_params_ok alg r n d :
  (1 ≤ r)%nat → (1 ≤ n)%nat → (1 ≤ d ≤ 31)%nat → params_ok (newLegRoastParams alg r n d).
Proof.
  intros Hr Hn Hd. split; cbn -[Nat.pow Nat.mul Nat.add];
    unfold message1DeltaK, message3Alpha, primeBytes, seedBytes, hashBytes, sharesR,
      sharesTriple, shareK; lia.
Qed.
Lemma get_params_ok alg P : GetLegRoastParams alg = Some P → params_ok P ∧ Alg P = alg.
Proof.
  unfold GetLegRoastParams. destruct alg; cbn [alg_int legRoastParamsList lookup list_lookup];
    [..|done]; intros [= <-]; (split; [apply new_params_ok; lia|done]).
Qed.
Lemma algorithm_by_size alg P :
  GetLegRoastParams alg = Some P → GetAlgorithmBySigSize (SigBytes P) = Ok alg.
Proof.
  unfold GetLegRoastParams. destruct alg; cbn [alg_int legRoastParamsList lookup list_lookup];
    [..|done]; intros [= <-]; vm_compute; reflexivity.
Qed.

Lemma mapM_returns {A B} (f : A → result B) (Q : A → B → Prop) l :
  (∀ x, x ∈ l → returns (f x) (Q x)) → ∃ k, mapM f l = Ok k ∧ Forall2 Q l k.
Proof. intros Hf. by apply returns_inv, returns_mapM. Qed.

(** ** Buffers *)
Lemma slice_app_ge (a b : bytes) n m len :
  length a = n → slice (a ++ b) (n + m) len = slice b m len.
Proof. intros <-. unfold slice. by rewrite drop_app_add. Qed.
Lemma slice_app_le (a b : bytes) m len :
  (m + len ≤ length a)%nat → slice (a ++ b) m len = slice a m len.
Proof.
  intros Hl. unfold slice. rewrite drop_app_le by lia. rewrite take_app_le; [done|].
  rewrite length_drop. lia.
Qed.
Lemma slice_all (a b : bytes) len : length a = len → slice (a ++ b) 0 len = a.
Proof. intros <-. unfold slice. by rewrite drop_0, take_app_length. Qed.
Lemma slice_drop (a : bytes) n m len : slice (drop n a) m len = slice a (n + m) len.
Proof. unfold slice. by rewrite drop_drop. Qed.
Lemma slice_concat_end (l : list bytes) n j x :
  (∀ y, y ∈ l → length y = n) → l !! j = Some x → slice (concat l) (j * n) n = x.
Proof. intros Hl Hj. rewrite <-(app_nil_r (concat l)). by eapply slice_concat. Qed.
Lemma length_concat_uniform {A} (l : list (list A)) n :
  (∀ y, y ∈ l → length y = n) → length (concat l) = (length l * n)%nat.
Proof.
  induction l as [|x l IH]; intros Hl; [done|]. cbn [concat length]. rewrite length_app, IH.
  - rewrite (Hl x) by left. lia.
  - intros y Hy. apply Hl. by right.
Qed.
Lemma concat_lookup {A} (l : list (list A)) n i j x y :
  (∀ y, y ∈ l → length y = n) → l !! i = Some x → x !! j = Some y →
  concat l !! (i * n + j)%nat = Some y.
Proof.
  intros Hl. revert i. induction l as [|z l IH]; intros [|i] Hi Hj; simplify_eq/=.
  - rewrite lookup_app_l; [done|]. by eapply lookup_lt_Some.
  - rewrite lookup_app_r by (rewrite (Hl z) by left; lia).
    rewrite (Hl z) by left. replace (n + i * n + j - n)%nat with (i * n + j)%nat by lia.
    apply IH; [|done|done]. intros w Hw. apply Hl. by right.
Qed.
Lemma concat_concat {A} (l : list (list (list A))) : concat ((λ x, concat x) <$> l) = concat (concat l).
Proof.
  induction l as [|x l IH]; [done|]. rewrite fmap_cons. cbn [concat]. by rewrite IH, concat_app.
Qed.

(** Little-endian words *)
Lemma uint32_roundtrip c : 0 ≤ c < 2 ^ 32 → LittleEndian_Uint32 (uint32ToBytesLE c) = c.
Proof.
  intros Hc. unfold LittleEndian_Uint32, uint32ToBytesLE.
  Z.to_euclidean_division_equations. lia.
Qed.
Lemma land_mask z n : 0 ≤ n → 0 ≤ Z.land z (2 ^ n - 1) < 2 ^ n.
Proof.
  intros Hn. rewrite Z.sub_1_r, <-Z.ones_equiv, Z.land_ones by done.
  apply Z.mod_pos_bound. apply Z.pow_pos_nonneg; lia.
Qed.

(** ** Keys *)
Lemma land_bit b k : 0 ≤ k → (0 <? Z.land b (Z.shiftl 1 k)) = Z.testbit b k.
Proof.
  intros Hk. rewrite Z.shiftl_1_l.
  assert (Z.land b (2 ^ k) = if Z.testbit b k then 2 ^ k else 0) as ->.
  { apply Z.bits_inj'. intros n Hn. rewrite Z.land_spec, Z.pow2_bits_eqb by done.
    destruct (Z.eqb_spec k n) as [->|Hne].
    - rewrite andb_true_r. destruct (Z.testbit b n) eqn:E.
      + by rewrite Z.pow2_bits_true by lia.
      + by rewrite Z.bits_0.
    - rewrite andb_false_r. destruct (Z.testbit b k).
      + by rewrite Z.pow2_bits_false by done.
      + by rewrite Z.bits_0. }
  destruct (Z.testbit b k); [|done]. apply Z.ltb_lt, Z.pow_pos_nonneg; lia.
Qed.

Definition key_bit (out : bytes) (i : nat) : Z :=
  if Z.testbit (out !!! (i / 8)%nat) (Z.of_nat i mod 8) then 1 else 0.

Section Keys.
Context `{Uint128Laws} `{Shake128Laws}.

Lemma computeIndex_word c : in_u128 (computeIndex c).
Proof. apply from_bytes_range. apply shake128_length. Qed.
Lemma sampleModP_spec seed :
  returns (sampleModP seed) (λ key,
    key = u128_FromBytes (LRExpand seed 16) mod m127 ∧ 0 ≤ key < m127).
Proof.
  unfold sampleModP. rewrite (reduce_residue _ (u128_FromBytes (LRExpand seed 16))).
  - split; [done|apply mod_range].
  - apply residue_refl, from_bytes_range, shake128_length.
Qed.
Lemma shifted_key c key :
  0 ≤ key < m127 → returns (addModP (computeIndex c) key) (λ t, residue t (computeIndex c + key)).
Proof.
  intros Hk. apply addModP_spec; [apply residue_refl, computeIndex_word|].
  apply residue_refl. unfold in_u128, u128_max, m127 in *. lia.
Qed.

(** The bits of the key up to [a] are symbols, the others still zero. *)
Definition legendre_upto (key : Z) (a : nat) (out : bytes) : Prop :=
  length out = PkBytes ∧
  (∀ i, (i < a)%nat → is_symbol legendre_symbol (computeIndex (Z.of_nat i) + key) (key_bit out i)) ∧
  ∀ i, (a ≤ i < PkBytes * 8)%nat → key_bit out i = 0.

Lemma key_bit_alter out i v j :
  (i / 8 < length out)%nat → v = 0 ∨ v = 1 → key_bit out i = 0 →
  key_bit (alter (λ b, Z.lor b (u8 (Z.shiftl v (Z.of_nat i mod 8)))) (i / 8)%nat out) j
    = if decide (j = i) then v else key_bit out j.
Proof.
  intros Hi Hv H0i. unfold key_bit in *.
  pose proof (Z.mod_pos_bound (Z.of_nat i) 8 ltac:(lia)) as Hb.
  assert (u8 (Z.shiftl v (Z.of_nat i mod 8)) = Z.shiftl v (Z.of_nat i mod 8)) as ->.
  { unfold u8. apply Z.mod_small. rewrite Z.shiftl_mul_pow2 by lia.
    assert (1 * 2 ^ (Z.of_nat i mod 8) ≤ 2 ^ 7) by (rewrite Z.mul_1_l; apply Z.pow_le_mono_r; lia).
    assert (0 < 2 ^ (Z.of_nat i mod 8)) by (apply Z.pow_pos_nonneg; lia).
    destruct Hv as [->| ->]; lia. }
  destruct (decide (j / 8 = i / 8)%nat) as [Eq|Hq].
  - rewrite Eq. assert (alter (λ b, Z.lor b (Z.shiftl v (Z.of_nat i mod 8))) (i / 8)%nat out !!! (i / 8)%nat
      = Z.lor (out !!! (i / 8)%nat) (Z.shiftl v (Z.of_nat i mod 8))) as ->.
    { destruct (lookup_lt_is_Some_2 out (i / 8)%nat Hi) as [b Hb'].
      rewrite (list_lookup_total_correct _ _ _ Hb').
      apply list_lookup_total_correct. by rewrite list_lookup_alter_eq, Hb'. }
    rewrite Z.lor_spec.
    pose proof (Z.mod_pos_bound (Z.of_nat j) 8 ltac:(lia)) as Hbj.
    assert (Z.testbit (Z.shiftl v (Z.of_nat i mod 8)) (Z.of_nat j mod 8)
      = if decide (j = i) then bool_decide (v = 1) else false) as ->.
    { rewrite Z.shiftl_spec by lia. case_decide as Hji.
      - subst j. rewrite Z.sub_diag. by destruct Hv as [->| ->].
      - assert (Z.of_nat j mod 8 ≠ Z.of_nat i mod 8) as Hne.
        { intros E. apply Hji. pose proof (Nat.div_mod_eq j 8). pose proof (Nat.div_mod_eq i 8).
          assert ((j mod 8)%nat = (i mod 8)%nat); [|lia].
          apply Nat2Z.inj. by rewrite !Nat2Z.inj_mod. }
        destruct Hv as [->| ->]; [apply Z.bits_0|].
        destruct (Z.lt_trichotomy (Z.of_nat j mod 8 - Z.of_nat i mod 8) 0) as [?|[?|?]].
        + by apply Z.testbit_neg_r.
        + lia.
        + change 1 with (2 ^ 0). apply Z.pow2_bits_false. lia. }
    case_decide as Hji.
    + subst j. destruct (Z.testbit _ _); [done|]. by destruct Hv as [->| ->].
    + by rewrite orb_false_r.
  - rewrite list_lookup_total_alt, list_lookup_alter_ne, <-list_lookup_total_alt by done.
    rewrite decide_False; [done|]. by intros ->.
Qed.

Lemma legendre_key_spec m a key out :
  0 ≤ key < m127 → (a + m ≤ PkBytes * 8)%nat → legendre_upto key a out →
  returns (legendre_key (seq a m) key out) (legendre_upto key (a + m)).
Proof.
  intros Hk. revert a out. induction m as [|m IH]; intros a out Ham Hout.
  { by rewrite Nat.add_0_r. }
  cbn [seq legendre_key]. apply returns_bind. eapply returns_mono; [by apply shifted_key|].
  intros t Ht. apply returns_bind. eapply returns_mono; [apply legendre_spec, Ht|].
  intros s Hs. rewrite Nat.add_succ_r, <-Nat.add_succ_l. apply IH; [lia|].
  destruct Hout as (Hl & Hdone & Hrest).
  assert (s = 0 ∨ s = 1) as Hs01 by (destruct Hs as [Hr _]; simpl in Hr; lia).
  assert (a / 8 < length out)%nat as Ha8.
  { rewrite Hl. apply Nat.Div0.div_lt_upper_bound. lia. }
  split_and!; [by rewrite length_alter| |].
  - intros i Hi. rewrite key_bit_alter by (done || apply Hrest; lia).
    case_decide as Hia; [by subst|]. apply Hdone. lia.
  - intros i Hi. rewrite key_bit_alter by (done || apply Hrest; lia).
    rewrite decide_False by lia. apply Hrest. lia.
Qed.

(** The secret number of a seed, and the number of symbols of the public key. *)
Definition key_of (seed : bytes) : Z := u128_FromBytes (LRExpand seed 16) mod m127.
Definition symbol_count (legendre : bool) : Z := if legendre then 2 ^ 15 else 2 ^ 12.

Record keyed (lr : LegRoast) (seed : bytes) : Prop := {
  keyed_sk : sk lr = seed;
  keyed_length : length (pk lr) = PkBytes;
  keyed_symbols c : 0 ≤ c < symbol_count (isLegendre lr) →
    is_symbol (sigma (isLegendre lr)) (computeIndex c + key_of seed) (getBit lr c)
}.

Lemma Keygen_spec lr rand seed :
  length seed = seedBytes →
  returns (Keygen lr rand (Some seed)) (λ lr', keyed lr' seed ∧
    lr_params lr' = lr_params lr ∧ isLegendre lr' = isLegendre lr).
Proof.
  intros Hlen. unfold Keygen. rewrite (proj2 (Nat.eqb_eq _ _) Hlen). apply returns_bind.
  cbn [returns]. apply returns_bind. eapply returns_mono; [apply sampleModP_spec|].
  intros key [Ekey Hkey]. fold (key_of seed) in Ekey. subst key. apply returns_bind.
  destruct (isLegendre lr) eqn:Eleg.
  - assert (legendre_upto (key_of seed) 0 (replicate PkBytes 0)) as Hinit.
    { split_and!; [apply length_replicate|lia|]. intros i Hi. unfold key_bit.
      rewrite total_replicate by (apply Nat.Div0.div_lt_upper_bound; lia). by rewrite Z.bits_0. }
    eapply returns_mono; [apply legendre_key_spec; [apply mod_range|done|exact Hinit]|].
    intros out (Hl & Hdone & _). cbn [returns isLegendre lr_params]. split; [|done].
    split; [done|done|]. intros c Hc. cbn [isLegendre symbol_count sigma] in *.
    unfold getBit. cbn [isLegendre pk]. rewrite land_bit by (apply Z.mod_pos_bound; lia).
    specialize (Hdone (Z.to_nat c)). rewrite Z2Nat.id in Hdone by lia.
    assert (key_bit out (Z.to_nat c)
      = if Z.testbit (out !!! Z.to_nat (c / 8)) (c mod 8) then 1 else 0) as <-.
    { unfold key_bit. rewrite Z2Nat.id by lia.
      by replace (Z.to_nat (c / 8)) with (Z.to_nat c / 8)%nat by (rewrite Z2Nat.inj_div by lia; done). }
    apply Hdone. assert (Z.of_nat (PkBytes * 8) = 2 ^ 15) by (vm_compute; reflexivity). lia.
  - eapply returns_mono.
    { apply (returns_mapM_seq _ (λ i s, is_symbol power_symbol
        (computeIndex (Z.of_nat i) + key_of seed) s)).
      intros i Hi. apply returns_bind. eapply returns_mono; [apply shifted_key, mod_range|].
      intros t Ht. apply power_spec, Ht. }
    intros out (Hl & Hdone). cbn [returns isLegendre lr_params]. split; [|done].
    split; [done|done|]. intros c Hc. cbn [isLegendre symbol_count sigma] in *.
    unfold getBit. cbn [isLegendre pk].
    specialize (Hdone (Z.to_nat c)). rewrite Z2Nat.id in Hdone by lia. apply Hdone.
    assert (Z.of_nat PkBytes = 2 ^ 12) by (vm_compute; reflexivity). lia.
Qed.
End Keys.

(** ** Signing *)
Section Signing.
Context `{Uint128Laws} `{Shake128Laws}.
Context (lr : LegRoast) (seed : bytes) (rand : nat → bytes).
Let P : LegRoastParams := lr_params lr.
Let R : nat := NRounds P.
Let NS : nat := NResiduositySymbolsPerRound P.
Let key : Z := key_of seed.
Context (HP : params_ok P) (Hkeyed : keyed lr seed).

Lemma key_range : 0 ≤ key < m127.
Proof. apply mod_range. Qed.
Lemma parties_pos : (1 ≤ Parties P)%nat.
Proof. rewrite (ok_parties _ HP). apply Nat.neq_0_lt_0, Nat.pow_nonzero. done. Qed.
Lemma js_nonempty : seq 0 (NResiduositySymbolsPerRound P) ≠ [].
Proof. pose proof (ok_syms _ HP). destruct (NResiduositySymbolsPerRound P); [lia|done]. Qed.

Definition rounds_ok (rounds : list round_secret) (rcs : list round_commit) : Prop :=
  length rounds = R ∧ length rcs = R ∧
  ∀ r rs rc, rounds !! r = Some rs → rcs !! r = Some rc → round_ok lr key (rand r) rs rc.

Lemma sample_key : returns (sampleModP (sk lr)) (λ k, k = key).
Proof.
  rewrite (keyed_sk _ _ Hkeyed). eapply returns_mono; [apply sampleModP_spec|]. by intros k [-> _].
Qed.

Lemma commit_spec :
  returns (commit lr rand) (λ r, ∃ rcs, rounds_ok r.1 rcs ∧ r.2 = message1_of rcs).
Proof.
  unfold commit. apply returns_bind. eapply returns_mono; [apply sample_key|].
  intros k ->. apply returns_bind. eapply returns_mono.
  { apply (returns_mapM _ (λ r o, round_ok lr key (rand r) o.1 o.2)). intros r _.
    apply commit_round_spec; [apply parties_pos|apply HP|apply key_range]. }
  intros outs Houts. cbn [returns fst snd]. exists outs.*2. split; [|done].
  pose proof (Forall2_length _ _ _ Houts) as Hl. rewrite length_seq in Hl.
  split_and!; [by rewrite length_fmap..|]. intros r rs rc Hrs Hrc.
  apply list_lookup_fmap_Some in Hrs as ([rs1 rc1] & -> & Ho).
  rewrite list_lookup_fmap, Ho in Hrc. injection Hrc as <-.
  destruct (Forall2_lookup_r _ _ _ _ _ Houts Ho) as (r' & Hr' & Hok).
  apply lookup_seq in Hr' as [-> _]. exact Hok.
Qed.

Lemma put_bytes_all (l : list Z) : ∀ y, y ∈ u128_PutBytes <$> l → length y = 16%nat.
Proof. intros y (z & -> & _)%list_elem_of_fmap. apply put_bytes_length. Qed.
Lemma read_word (l : list Z) rest j z :
  l !! j = Some z → in_u128 z →
  u128_FromBytes (slice (concat (u128_PutBytes <$> l) ++ rest) (j * 16) 16) = z.
Proof.
  intros Hj Hz. rewrite (slice_concat _ rest 16 j (u128_PutBytes z)).
  - by apply from_put_bytes.
  - apply put_bytes_all.
  - by rewrite list_lookup_fmap, Hj.
Qed.
Lemma words_length (l : list Z) : length (concat (u128_PutBytes <$> l)) = (length l * 16)%nat.
Proof. rewrite (length_concat_uniform _ 16) by apply put_bytes_all. by rewrite length_fmap. Qed.

(** Message 1 *)
Lemma message1_length rcs : length (message1_of rcs) = (32 + length rcs * 16 + length rcs * 16)%nat.
Proof.
  unfold message1_of. rewrite !length_app. unfold LRHash, LRExpand. rewrite shake128_length.
  rewrite (list_fmap_compose rc_deltaK u128_PutBytes), (list_fmap_compose rc_deltaTriple u128_PutBytes).
  rewrite !words_length, !length_fmap. unfold hashBytes. lia.
Qed.
Lemma message1_deltas rounds rcs r rc :
  rounds_ok rounds rcs → rcs !! r = Some rc →
  u128_FromBytes (slice (message1_of rcs) (message1DeltaK + r * Uint128Size) Uint128Size)
    = rc_deltaK rc ∧
  u128_FromBytes (slice (message1_of rcs) (Message1DeltaTriple P + r * Uint128Size) Uint128Size)
    = rc_deltaTriple rc.
Proof.
  intros (Hl & Hlc & Hok) Hrc. pose proof (lookup_lt_Some _ _ _ Hrc) as Hlt.
  destruct (lookup_lt_is_Some_2 rounds r) as [rs Hrs]; [lia|].
  destruct (ro_deltas _ _ _ _ _ (Hok r rs rc Hrs Hrc)) as [Hk Ht].
  unfold message1_of, Uint128Size. rewrite (ok_delta _ HP). fold R.
  rewrite (list_fmap_compose rc_deltaK u128_PutBytes), (list_fmap_compose rc_deltaTriple u128_PutBytes).
  assert (∀ x, length (LRHash x) = 32%nat) as Hh by (intros x; apply shake128_length). split.
  - unfold message1DeltaK, hashBytes. rewrite slice_app_ge by apply Hh.
    apply read_word; [by rewrite list_lookup_fmap, Hrc|done].
  - rewrite <-Nat.add_assoc, slice_app_ge by apply Hh.
    rewrite slice_app_ge by (rewrite words_length, length_fmap; lia).
    rewrite <-(app_nil_r (concat _)). apply read_word; [by rewrite list_lookup_fmap, Hrc|done].
Qed.

(** Challenge 1 *)
Lemma challenge1_at hash i :
  (i < R * NS)%nat →
  0 ≤ LittleEndian_Uint32 (slice (generateChallenge1 lr hash) (i * 4) 4)
    < symbol_count (isLegendre lr).
Proof.
  intros Hi. unfold generateChallenge1. fold P. set (mask := if isLegendre lr then _ else _).
  set (f := λ i, uint32ToBytesLE _).
  rewrite (slice_concat_end _ 4 i (f i)).
  - unfold f. assert (0 ≤ Z.land (LittleEndian_Uint32 (slice (LRExpand hash (Challenge1Bytes P))
      (i * 4) 4)) mask < symbol_count (isLegendre lr)) as Hb.
    { unfold mask, symbol_count. destruct (isLegendre lr); by apply land_mask. }
    rewrite uint32_roundtrip; [done|]. unfold symbol_count in *. destruct (isLegendre lr); lia.
  - intros y (j & -> & _)%list_elem_of_fmap. done.
  - rewrite list_lookup_fmap, lookup_seq_lt; [done|]. by rewrite (ok_ressym _ HP).
Qed.
Lemma indices_at c1 i :
  (i < R * NS)%nat →
  computeIndices lr c1 !!! i = computeIndex (LittleEndian_Uint32 (slice c1 (i * 4) 4)).
Proof.
  intros Hi. unfold computeIndices. fold P. apply list_lookup_total_correct.
  rewrite list_lookup_fmap, lookup_seq_lt; [done|]. by rewrite (ok_ressym _ HP).
Qed.
Lemma indices_words c1 : words (computeIndices lr c1).
Proof.
  apply words_Forall, Forall_fmap, Forall_true. intros i. apply computeIndex_word.
Qed.

(** Message 2 *)
Definition product_of (c1 : bytes) (rs : round_secret) (r i : nat) : Z :=
  ((computeIndices lr c1 !!! (r * NS + i)%nat + key) * rs_sums rs !!! (sharesR + i)%nat) mod m127.
Definition message2_ok (rounds : list round_secret) (c1 m2 : bytes) : Prop :=
  length m2 = Message2Bytes P ∧
  ∀ r rs i, rounds !! r = Some rs → (i < NS)%nat →
    u128_FromBytes (slice m2 ((r * NS + i) * 16) 16) = product_of c1 rs r i.

Lemma respond1_at_spec rounds rcs c1 r i :
  rounds_ok rounds rcs → (r < R)%nat → (i < NS)%nat →
  returns (respond1_at lr (computeIndices lr c1) key rounds r i) (λ z,
    ∃ rs, rounds !! r = Some rs ∧ z = product_of c1 rs r i).
Proof.
  intros (Hl & Hlc & Hok) Hr Hi. destruct (lookup_lt_is_Some_2 rounds r) as [rs Hrs]; [lia|].
  destruct (lookup_lt_is_Some_2 rcs r) as [rc Hrc]; [lia|]. specialize (Hok r rs rc Hrs Hrc).
  unfold respond1_at. rewrite Hrs. apply returns_bind. eapply returns_mono.
  { apply addModP_spec; [apply residue_refl, indices_words|].
    apply (residue_refl key). pose proof key_range. unfold in_u128, u128_max, m127 in *. lia. }
  intros kp Hkp. apply returns_bind. eapply returns_mono.
  { apply mulAddModP_spec; [apply residue_zero|exact Hkp|].
    apply residue_refl, (ro_sum_words _ _ _ _ _ Hok). }
  intros [[o x1] x2] (Ho & _). cbn [fst snd] in *.
  eapply returns_mono; [apply reduceModP_spec, Ho|]. intros z [-> _]. exists rs.
  split; [done|]. unfold product_of, NS, P. by rewrite Z.add_0_l.
Qed.
Lemma respond1_spec rounds rcs c1 :
  rounds_ok rounds rcs → returns (respond1 lr rounds c1) (message2_ok rounds c1).
Proof.
  intros Hok. unfold respond1. apply returns_bind. eapply returns_mono; [apply sample_key|].
  intros k ->. apply returns_bind. eapply returns_mono.
  { apply (returns_mapM _ (λ r l, length l = NS ∧ ∀ i, (i < NS)%nat →
      ∃ rs, rounds !! r = Some rs ∧ l !!! i = product_of c1 rs r i)).
    intros r Hr%elem_of_seq. apply (returns_mapM_seq _ (λ i z,
      ∃ rs, rounds !! r = Some rs ∧ z = product_of c1 rs r i)). intros i Hi.
    eapply respond1_at_spec; [done|fold P R in Hr; lia|done]. }
  intros output Hout. cbn [returns]. pose proof (Forall2_length _ _ _ Hout) as Hlen.
  rewrite length_seq in Hlen. fold P R in Hlen.
  assert (∀ y, y ∈ output → length y = NS) as Huni.
  { intros y (r & Hy)%list_elem_of_lookup_1.
    by destruct (Forall2_lookup_r _ _ _ _ _ Hout Hy) as (r' & _ & Hl & _). }
  split.
  - rewrite words_length, (length_concat_uniform _ NS), <-Hlen by done.
    rewrite (ok_m2 _ HP), (ok_ressym _ HP). fold R NS. lia.
  - intros r rs i Hrs Hi. pose proof (lookup_lt_Some _ _ _ Hrs) as Hlt.
    destruct Hok as (Hl & _). destruct (lookup_lt_is_Some_2 output r) as [l Hr]; [lia|].
    destruct (Forall2_lookup_r _ _ _ _ _ Hout Hr) as (r' & Hr' & Hll & Hvals).
    apply lookup_seq in Hr' as [-> _]. destruct (Hvals i Hi) as (rs' & Hrs' & Ev).
    cbn [Nat.add] in Hrs', Ev. rewrite Hrs in Hrs'. injection Hrs' as <-.
    rewrite <-(app_nil_r (concat _)). apply read_word; [|apply mod_word].
    apply (concat_lookup output NS r i l); [done|done|]. rewrite <-Ev.
    apply list_lookup_lookup_total_lt. lia.
Qed.

(** Challenge 2 and the values of a round *)
Lemma view_of c1 hash m2 rounds rcs r rs :
  rounds_ok rounds rcs → message2_ok rounds c1 m2 → rounds !! r = Some rs →
  let view := round_view_of P (computeIndices lr c1) (generateChallenge2 lr hash) m2 r in
  view_ok (seq 0 NS) view ∧ in_u128 (epsilon_of (generateChallenge2 lr hash) r) ∧
  ∀ i, i ∈ seq 0 NS → eqp (rv_product view i)
    ((rv_index view i + key) * rs_sums rs !!! (sharesR + i)%nat).
Proof.
  intros (Hl & Hlc & Hok) [Hm2 Hprod] Hrs. cbn zeta.
  pose proof (lookup_lt_Some _ _ _ Hrs) as Hlt. rewrite Hl in Hlt.
  assert (∀ j, (j < NS)%nat → (r * NS + j + 1 ≤ R * NS)%nat) as Hix by (intros j Hj; nia).
  assert (length (generateChallenge2 lr hash) = (R * 16 + R * NS * 16)%nat) as Hc2.
  { unfold generateChallenge2, LRExpand. rewrite shake128_length. fold P.
    rewrite (ok_c2 _ HP), (ok_ressym _ HP). done. }
  assert (∀ j, (j < NS)%nat → rv_product (round_view_of P (computeIndices lr c1)
    (generateChallenge2 lr hash) m2 r) j = product_of c1 rs r j) as Hp.
  { intros j Hj. rewrite <-(Hprod r rs j Hrs Hj). unfold round_view_of. cbn [rv_product].
    fold NS. unfold Uint128Size. do 2 f_equal. lia. }
  split_and!.
  - split; intros j Hj%elem_of_seq.
    + apply indices_words.
    + cbn [rv_lambda round_view_of]. apply from_bytes_range, length_slice. fold NS.
      unfold Uint128Size. rewrite (ok_lambda _ HP), Hc2. fold R.
      specialize (Hix j ltac:(lia)). lia.
    + rewrite Hp by lia. apply mod_word.
  - apply from_bytes_range, length_slice. unfold Uint128Size. rewrite Hc2. lia.
  - intros j Hj%elem_of_seq. rewrite Hp by lia. apply eqp_mod.
Qed.

(** Message 3 *)
Section Message3.
Context (rounds : list round_secret) (rcs : list round_commit) (c1 hash m2 : bytes).
Context (Hok : rounds_ok rounds rcs) (Hm2 : message2_ok rounds c1 m2).
Let c2 : bytes := generateChallenge2 lr hash.
Let view (r : nat) : round_view := round_view_of P (computeIndices lr c1) c2 m2 r.
Let eps (r : nat) : Z := epsilon_of c2 r.

Definition alpha_of (rs : round_secret) (r : nat) : Z := clear_alpha key rs (eps r).
Definition beta_of (rs : round_secret) (r : nat) : Z := clear_beta_value lr rs (view r).
Definition openings_of (rs : round_secret) (r : nat) : list (Z * Z * Z) :=
  all_openings lr key rs (view r) (eps r).

Lemma respond2_round_spec r rs :
  rounds !! r = Some rs →
  returns (respond2_round lr (computeIndices lr c1) key rounds c2 m2 r) (λ o,
    o = (alpha_of rs r, beta_of rs r, openings_of rs r)).
Proof.
  intros Hrs. destruct (view_of c1 hash m2 rounds rcs r rs Hok Hm2 Hrs) as (Hv & He & Hp).
  pose proof Hok as (Hl & Hlc & Hall). pose proof (lookup_lt_Some _ _ _ Hrs) as Hlt.
  destruct (lookup_lt_is_Some_2 rcs r) as [rc Hrc]; [lia|].
  specialize (Hall r rs rc Hrs Hrc). pose proof key_range as Hkr.
  unfold respond2_round. fold P. change (round_view_of P _ c2 m2 r) with (view r).
  unfold rounds_at. rewrite Hrs. apply returns_bind. cbn [returns].
  apply returns_bind. eapply returns_mono.
  { apply mulAddModP_spec; [apply residue_zero|apply residue_refl, He|].
    apply (residue_refl key). unfold in_u128, u128_max, m127 in *. lia. }
  intros [[a0 e0] x0] (Ha0 & Ee0 & _). cbn [fst snd] in *. apply returns_bind.
  pose proof (ro_sum_words _ _ _ _ _ Hall) as Hsw.
  eapply returns_mono; [apply addModP_spec; [exact Ha0|apply residue_refl, Hsw]|].
  intros a1 Ha1. apply returns_bind. eapply returns_mono; [apply reduceModP_spec, Ha1|].
  intros a2 [Ea2 _]. apply returns_bind.
  eapply returns_mono; [apply clear_beta_spec; [exact Hv|done|apply residue_refl, Hsw]|].
  intros b1 Hb1. apply returns_bind. eapply returns_mono; [apply reduceModP_spec, Hb1|].
  intros b2 [Eb2 _]. rewrite Z.add_0_l in Ea2. fold (eps r) in *.
  change (a2 = alpha_of rs r) in Ea2. change (b2 = beta_of rs r) in Eb2. subst a2 b2.
  apply returns_bind. eapply returns_mono.
  { apply (signer_openings lr key (rand r) rs rc Hall js_nonempty (view r) Hv (eps r)).
    - rewrite Ee0. apply residue_mod. by apply residue_refl.
    - apply residue_refl, mod_word.
    - apply residue_refl, mod_word. }
  intros [x1 os] Hos. cbn [fst snd returns] in *. by rewrite Hos.
Qed.

Definition message3_ok (m3 : bytes) : Prop :=
  length m3 = Message3Bytes P ∧
  (∃ all, length all = R ∧ slice m3 0 hashBytes = LRHash (openings_bytes all) ∧
     ∀ r rs, rounds !! r = Some rs → all !! r = Some (openings_of rs r)) ∧
  ∀ r rs, rounds !! r = Some rs →
    u128_FromBytes (slice m3 (message3Alpha + r * Uint128Size) Uint128Size) = alpha_of rs r ∧
    u128_FromBytes (slice m3 (Message3Beta P + r * Uint128Size) Uint128Size) = beta_of rs r.

Lemma respond2_spec : returns (respond2 lr rounds c1 c2 m2) message3_ok.
Proof.
  unfold respond2. fold P. apply returns_bind. eapply returns_mono; [apply sample_key|].
  intros k ->. apply returns_bind. pose proof Hok as (Hl & Hlc & _). eapply returns_mono.
  { apply (returns_mapM _ (λ r o, ∃ rs, rounds !! r = Some rs ∧
      o = (alpha_of rs r, beta_of rs r, openings_of rs r))).
    intros r Hr%elem_of_seq. fold R in Hr.
    destruct (lookup_lt_is_Some_2 rounds r) as [rs Hrs]; [lia|].
    eapply returns_mono; [by apply respond2_round_spec|]. intros o ->. by exists rs. }
  intros outs Houts. cbn [returns]. pose proof (Forall2_length _ _ _ Houts) as Hlen.
  rewrite length_seq in Hlen. fold R in Hlen.
  assert (∀ r rs, rounds !! r = Some rs →
    outs !! r = Some (alpha_of rs r, beta_of rs r, openings_of rs r)) as Hat.
  { intros r rs Hrs. pose proof (lookup_lt_Some _ _ _ Hrs) as Hlt.
    destruct (lookup_lt_is_Some_2 outs r) as [o Ho]; [lia|].
    destruct (Forall2_lookup_r _ _ _ _ _ Houts Ho) as (r' & Hr' & rs' & Hrs' & ->).
    apply lookup_seq in Hr' as [-> _]. cbn [Nat.add] in *. rewrite Hrs in Hrs'.
    by injection Hrs' as ->. }
  assert (∀ x, length (LRHash x) = 32%nat) as Hh by (intros x; apply shake128_length).
  assert ((λ o : Z * Z * list (Z * Z * Z), u128_PutBytes o.1.1) <$> outs
    = u128_PutBytes <$> ((λ o, o.1.1) <$> outs)) as -> by (by rewrite <-list_fmap_compose).
  assert ((λ o : Z * Z * list (Z * Z * Z), u128_PutBytes o.1.2) <$> outs
    = u128_PutBytes <$> ((λ o, o.1.2) <$> outs)) as -> by (by rewrite <-list_fmap_compose).
  split_and!.
  - rewrite !length_app, Hh, !words_length, !length_fmap, <-Hlen, (ok_m3 _ HP). fold R. lia.
  - exists (snd <$> outs). rewrite length_fmap. split_and!; [done|by apply slice_all|].
    intros r rs Hrs. by rewrite list_lookup_fmap, (Hat r rs Hrs).
  - intros r rs Hrs. unfold message3Alpha, Uint128Size, hashBytes. rewrite (ok_beta _ HP).
    fold R. split.
    + rewrite slice_app_ge by apply Hh.
      apply read_word; [by rewrite list_lookup_fmap, (Hat r rs Hrs)|apply mod_word].
    + rewrite <-Nat.add_assoc, slice_app_ge by apply Hh.
      rewrite slice_app_ge by (rewrite words_length, length_fmap; lia).
      rewrite <-(app_nil_r (concat _)).
      apply read_word; [by rewrite list_lookup_fmap, (Hat r rs Hrs)|apply mod_word].
Qed.
End Message3.

(** Challenge 3 and message 4 *)
Context (Hrand : ∀ r, length (rand r) = seedBytes).

Lemma unopened_range hash r :
  (r < R)%nat → (unopenedParty (generateChallenge3 lr hash) r < Parties P)%nat.
Proof.
  intros Hr. unfold unopenedParty, generateChallenge3. fold P. set (f := λ i, uint32ToBytesLE _).
  rewrite (slice_concat_end _ 4 r (f r)).
  - unfold f. assert (Z.of_nat (Parties P) = 2 ^ Z.of_nat (NPartyDepth P)) as EP.
    { rewrite (ok_parties _ HP), Nat2Z.inj_pow. done. }
    rewrite EP. pose proof (ok_depth _ HP) as Hd.
    pose proof (land_mask (LittleEndian_Uint32 (slice (LRExpand hash (Challenge3Bytes P)) (r * 4) 4))
      (Z.of_nat (NPartyDepth P)) ltac:(lia)) as Hb.
    assert (2 ^ Z.of_nat (NPartyDepth P) ≤ 2 ^ 31) by (apply Z.pow_le_mono_r; lia).
    rewrite uint32_roundtrip by lia. lia.
  - intros y (j & -> & _)%list_elem_of_fmap. done.
  - rewrite list_lookup_fmap, lookup_seq_lt; [done|]. done.
Qed.

Definition tree_of (r : nat) : list bytes := Generate (Parties P) (rand r).
Lemma leaf_node u : (u < Parties P)%nat →
  (2 ^ NPartyDepth P ≤ u + (Parties P - 1) + 1 < 2 * 2 ^ NPartyDepth P)%nat.
Proof. pose proof parties_pos. rewrite (ok_parties _ HP) in *. lia. Qed.

Definition message4_ok (c3 m4 : bytes) : Prop :=
  length m4 = (R * NPartyDepth P * 16 + R * 32)%nat ∧
  ∀ r, (r < R)%nat →
    let u := unopenedParty c3 r in
    (∀ k, (k < NPartyDepth P)%nat →
       slice (drop (r * NPartyDepth P * seedBytes) m4) ((NPartyDepth P - 1 - k) * seedBytes)
         seedBytes = tree_of r !!! sibling (up (u + (Parties P - 1)) k)) ∧
    slice m4 (Message4Commitment P + r * hashBytes) hashBytes = LRHash (leaf P (tree_of r) u).

Lemma released_lengths r u y :
  (u < Parties P)%nat → y ∈ ReleaseSeeds P (tree_of r) u → length y = seedBytes.
Proof.
  intros Hu (j & Hj)%list_elem_of_lookup_1. unfold ReleaseSeeds in Hj.
  pose proof (lookup_lt_Some _ _ _ Hj) as Hlt. rewrite release_length in Hlt. simpl in Hlt.
  pose proof (ok_depth _ HP) as Hd. rewrite release_spec in Hj by lia. injection Hj as <-.
  destruct (Generate_spec (Parties P) (rand r) parties_pos (Hrand r)) as (Hl & _ & Hs).
  apply Hs. pose proof (sibling_range (NPartyDepth P) _ (Generate (Parties P) (rand r))
    ltac:(lia) (leaf_node u Hu)) as Hsib. rewrite <-(ok_parties _ HP) in Hsib.
  apply Hsib; [done|lia].
Qed.

Lemma respond3_spec rounds rcs hash :
  rounds_ok rounds rcs →
  let c3 := generateChallenge3 lr hash in
  returns (respond3 lr rounds c3) (message4_ok c3).
Proof.
  intros (Hl & Hlc & Hok) c3. unfold respond3. fold P. apply returns_bind.
  set (rel := λ r, ReleaseSeeds P (tree_of r) (unopenedParty c3 r)).
  set (com := λ r, LRHash (leaf P (tree_of r) (unopenedParty c3 r))).
  eapply returns_mono.
  { apply (returns_mapM _ (λ r o, o = (concat (rel r), com r))).
    intros r Hr%elem_of_seq. fold R in Hr.
    destruct (lookup_lt_is_Some_2 rounds r) as [rs Hrs]; [lia|].
    destruct (lookup_lt_is_Some_2 rcs r) as [rc Hrc]; [lia|].
    unfold rounds_at. rewrite Hrs. cbn [mbind result_bind returns].
    by rewrite (ro_tree _ _ _ _ _ (Hok r rs rc Hrs Hrc)). }
  intros outs Houts. cbn [returns]. fold R in Houts.
  assert (outs = (λ r, (concat (rel r), com r)) <$> seq 0 R) as ->.
  { clear -Houts. induction Houts as [|r o l outs -> _ IH]; [done|]. by rewrite fmap_cons, IH. }
  rewrite <-!list_fmap_compose. set (D := NPartyDepth P).
  assert (concat ((fst ∘ (λ r, (concat (rel r), com r))) <$> seq 0 R)
    = concat (concat (rel <$> seq 0 R))) as ->.
  { rewrite <-concat_concat, <-list_fmap_compose. done. }
  assert ((snd ∘ (λ r, (concat (rel r), com r))) <$> seq 0 R = com <$> seq 0 R) as -> by done.
  assert (∀ y, y ∈ rel <$> seq 0 R → length y = D) as Hrl.
  { intros y (r & -> & _)%list_elem_of_fmap. unfold rel, ReleaseSeeds. rewrite release_length.
    pose proof (ok_depth _ HP). unfold D. simpl. lia. }
  assert (∀ y, y ∈ concat (rel <$> seq 0 R) → length y = seedBytes) as Hsl.
  { intros y Hy%list_elem_of_In. apply in_concat in Hy as (l & Hin%list_elem_of_In & Hy%list_elem_of_In).
    apply list_elem_of_fmap in Hin as (r & -> & Hr%elem_of_seq). unfold rel in Hy.
    eapply released_lengths; [|exact Hy]. apply unopened_range. lia. }
  assert (length (concat (concat (rel <$> seq 0 R))) = (R * D * 16)%nat) as Hlen1.
  { rewrite (length_concat_uniform _ seedBytes), (length_concat_uniform _ D) by done.
    rewrite length_fmap, length_seq. done. }
  split.
  - rewrite length_app, Hlen1, (length_concat_uniform _ 32), length_fmap, length_seq; [done|].
    intros y (r & -> & _)%list_elem_of_fmap. apply shake128_length.
  - intros r Hr. cbn zeta. split.
    + intros k Hk. rewrite slice_drop. fold D in Hk |- *.
      replace (r * D * seedBytes + (D - 1 - k) * seedBytes)%nat
        with ((r * D + (D - 1 - k)) * seedBytes)%nat by lia.
      eapply slice_concat; [done|].
      apply (concat_lookup _ D r (D - 1 - k) (rel r)); [done| |].
      * rewrite list_lookup_fmap, lookup_seq_lt by done. done.
      * unfold rel, ReleaseSeeds. fold D. rewrite release_spec by lia.
        by replace (D - 1 - (D - 1 - k))%nat with k by lia.
    + rewrite (ok_m4c _ HP). fold R D. rewrite slice_app_ge by done.
      apply (slice_concat_end _ hashBytes r).
      * intros y (r' & -> & _)%list_elem_of_fmap. apply shake128_length.
      * rewrite list_lookup_fmap, lookup_seq_lt by done. done.
Qed.

(** ** Verifying *)

(** The events in which the scheme fails do not happen: no inner seed is all zero,
    no random number is zero, no shifted key is zero. *)
Definition good_seeds (params : LegRoastParams) (root : bytes) : Prop :=
  ∀ i, (1 ≤ i < Parties params - 1)%nat →
    Generate (Parties params) root !!! i ≠ zero_seed.
Definition good_numbers (params : LegRoastParams) (root : bytes) : Prop :=
  ∀ i, (i < NResiduositySymbolsPerRound params)%nat →
    sumover (λ s, expand_shares params s !!! (sharesR + i)%nat) (round_seeds params root)
      mod m127 ≠ 0.
Definition good_key (legendre : bool) (s : bytes) : Prop :=
  ∀ c, 0 ≤ c < symbol_count legendre → (computeIndex c + key_of s) mod m127 ≠ 0.

Context (Hkey : good_key (isLegendre lr) seed).
Context (Hgood : ∀ r, (r < R)%nat → good_seeds P (rand r) ∧ good_numbers P (rand r)).

Lemma nonzero x : x mod m127 ≠ 0 → ¬ eqp x 0.
Proof. intros Hx [E]. by rewrite E in Hx. Qed.

Lemma recover_symbol legendre x y s t u :
  ¬ eqp x 0 → ¬ eqp y 0 → is_symbol (sigma legendre) x s → is_symbol (sigma legendre) y t →
  is_symbol (sigma legendre) (x * y) u →
  (if legendre then Z.lxor u s else u16 (u + u16 (254 - s)) mod 254) = t.
Proof.
  intros Hx Hy Hs Ht Hu. pose proof (symbol_mul _ x y s t u (sigma_good legendre) Hx Hy Hs Ht Hu) as E.
  destruct Hs as [Hs _], Ht as [Ht _], Hu as [Hu _]. destruct legendre; simpl in *.
  - assert (s = 0 ∨ s = 1) as [->| ->] by lia; assert (t = 0 ∨ t = 1) as [->| ->] by lia;
      subst u; done.
  - unfold u16. rewrite (Z.mod_small (254 - s)) by lia.
    rewrite (Z.mod_small (u + _)) by lia. subst u.
    Z.to_euclidean_division_equations. lia.
Qed.

Lemma check_symbol_spec rounds rcs hash m2 r rs rc i :
  let c1 := generateChallenge1 lr hash in
  rounds_ok rounds rcs → message2_ok rounds c1 m2 →
  rounds !! r = Some rs → rcs !! r = Some rc → (i < NS)%nat →
  returns (check_symbol lr c1 m2 (r * NS + i)) (λ s, s = rc_symbols rc !!! i).
Proof.
  intros c1 (Hl & Hlc & Hall) [_ Hprod] Hrs Hrc Hi. specialize (Hall r rs rc Hrs Hrc).
  pose proof (lookup_lt_Some _ _ _ Hrs) as Hlt. rewrite Hl in Hlt.
  assert (r * NS + i < R * NS)%nat as Hix by nia.
  pose proof (challenge1_at hash _ Hix) as Hc. fold c1 in Hc.
  set (c := LittleEndian_Uint32 (slice c1 ((r * NS + i) * 4) 4)) in *.
  pose proof (Hprod r rs i Hrs Hi) as Hp. unfold product_of in Hp.
  rewrite (indices_at c1 _ Hix) in Hp. fold c in Hp.
  set (x := computeIndex c + key) in *. set (y := rs_sums rs !!! (sharesR + i)%nat) in *.
  assert (¬ eqp x 0) as Hx by (by apply nonzero, Hkey).
  assert (¬ eqp y 0) as Hy.
  { apply nonzero. unfold y. rewrite (ro_sums _ _ _ _ _ Hall).
    - rewrite Zmod_mod. destruct (Hgood r Hlt) as [_ Hg]. by apply Hg.
    - fold P. rewrite (ok_shares _ HP). fold NS. unfold sharesR, sharesTriple, shareK. lia. }
  pose proof (keyed_symbols _ _ Hkeyed c Hc) as Hsx. fold key x in Hsx.
  destruct (ro_symbols _ _ _ _ _ Hall) as [_ Hsy]. specialize (Hsy i Hi). fold y in Hsy.
  assert (residue ((x * y) mod m127) (x * y)) as Hres.
  { split; [apply mod_word|apply eqp_mod]. }
  unfold check_symbol, Uint128Size. rewrite Hp. fold c.
  pose proof (residuosity_spec (isLegendre lr) _ _ Hres) as Hu. unfold residuosity in Hu.
  unfold getBit in *. destruct (isLegendre lr); apply returns_bind;
    (eapply returns_mono; [exact Hu|]); intros u Hu'; cbn [returns].
  - by apply (recover_symbol true x y _ _ u).
  - by apply (recover_symbol false x y _ _ u).
Qed.

Lemma opened_leaf hash m4 r j :
  let c3 := generateChallenge3 lr hash in
  let u := unopenedParty c3 r in
  (r < R)%nat → message4_ok c3 m4 → (j < Parties P)%nat → j ≠ u →
  leaf P (FillDown P u (drop (r * NPartyDepth P * seedBytes) m4)) j = leaf P (tree_of r) j.
Proof.
  intros c3 u Hr [_ Hm4] Hj Hne. destruct (Hm4 r Hr) as [Hrel _]. fold u in Hrel.
  assert (u < Parties P)%nat as Hu by by apply unopened_range.
  destruct (Generate_spec (Parties P) (rand r) parties_pos (Hrand r)) as (Hl & Hexp & _).
  destruct (Hgood r Hr) as [Hg _]. pose proof (ok_depth _ HP) as Hd.
  pose proof (refill_leaf (NPartyDepth P) (u + (Parties P - 1)) (tree_of r)
    (drop (r * NPartyDepth P * seedBytes) m4)) as Href.
  rewrite <-(ok_parties _ HP) in Href. unfold leaf, FillDown. apply Href; [lia| |done|done|done|done| |lia].
  - pose proof (leaf_node u Hu). rewrite (ok_parties _ HP) in *. lia.
  - pose proof parties_pos. lia.
Qed.

Lemma opened_shares_spec rounds rcs r rs rc j sh :
  rounds_ok rounds rcs → rounds !! r = Some rs → rcs !! r = Some rc →
  rs_shares rs !! j = Some sh →
  opened_shares P (message1_of rcs) r j (leaf P (tree_of r) j) = Ok sh.
Proof.
  intros Hok Hrs Hrc Hsh. destruct (message1_deltas rounds rcs r rc Hok Hrc) as [Ek Et].
  destruct Hok as (Hl & Hlc & Hall). specialize (Hall r rs rc Hrs Hrc).
  pose proof (lookup_lt_Some _ _ _ Hsh) as Hlt. rewrite (ro_count _ _ _ _ _ Hall) in Hlt.
  assert (round_seeds P (rand r) !! j = Some (leaf P (tree_of r) j)) as Hseed.
  { unfold round_seeds. rewrite list_lookup_fmap, lookup_seq_lt by done. done. }
  pose proof (ro_dealt _ _ _ _ _ Hall j _ sh Hseed Hsh) as Hdealt. unfold dealt in Hdealt.
  unfold opened_shares. fold P in Hdealt. rewrite Ek, Et. destruct (j =? 0)%nat; [|by rewrite Hdealt].
  destruct Hdealt as (k & c & Hk & Hc & ->). rewrite Hk. cbn [mbind result_bind].
  rewrite total_insert_ne by done. by rewrite Hc.
Qed.

Lemma check_commit_round_spec rounds rcs hash1 m2 hash3 m4 r rs rc :
  let c1 := generateChallenge1 lr hash1 in
  let c3 := generateChallenge3 lr hash3 in
  rounds_ok rounds rcs → message2_ok rounds c1 m2 → message4_ok c3 m4 →
  rounds !! r = Some rs → rcs !! r = Some rc →
  returns (check_commit_round lr (message1_of rcs) c1 m2 c3 m4 r) (λ o,
    o.1.1 = rc_seeds rc ∧ o.1.2 = rc_symbols rc ∧ length o.2 = Parties P ∧
    ∀ j, j ≠ unopenedParty c3 r → o.2 !! j = rs_shares rs !! j).
Proof.
  intros c1 c3 Hok Hm2 Hm4 Hrs Hrc. pose proof Hok as (Hl & Hlc & Hall).
  specialize (Hall r rs rc Hrs Hrc). pose proof (lookup_lt_Some _ _ _ Hrs) as Hlt.
  rewrite Hl in Hlt. set (u := unopenedParty c3 r). unfold check_commit_round. fold P u.
  pose proof (ro_count _ _ _ _ _ Hall) as Hcount. fold P in Hcount.
  set (tree := FillDown P u _).
  assert (∀ j, (j < Parties P)%nat → j ≠ u → leaf P tree j = leaf P (tree_of r) j) as Hleaf.
  { intros j Hj Hne. by apply (opened_leaf hash3 m4 r). }
  apply returns_bind. eapply returns_mono.
  { apply (returns_mapM_seq _ (λ j sh, j ≠ u → rs_shares rs !! j = Some sh)). intros j Hj.
    destruct (Nat.eqb_spec j u) as [Hju|Hne]; [by intros Hx|].
    destruct (lookup_lt_is_Some_2 (rs_shares rs) j) as [sh Hsh]; [lia|].
    rewrite Hleaf by done. rewrite (opened_shares_spec rounds rcs r rs rc j sh) by done.
    by intros _. }
  intros shares (Hsl & Hshares). apply returns_bind. eapply returns_mono.
  { apply (returns_mapM_seq _ (λ i s, s = rc_symbols rc !!! i)). intros i Hi.
    by apply (check_symbol_spec rounds rcs hash1 m2 r rs rc i). }
  intros symbols (Hyl & Hsym). cbn [returns fst snd].
  destruct (ro_symbols _ _ _ _ _ Hall) as [Hcl _]. fold P in Hcl.
  split_and!.
  - rewrite (ro_seeds _ _ _ _ _ Hall). unfold round_seeds. fold P.
    rewrite <-list_fmap_compose. apply list_fmap_ext. intros k j Hkj.
    apply lookup_seq in Hkj as [-> Hk]. cbn [Nat.add compose].
    destruct (Nat.eqb_spec k u) as [->|Hne].
    + destruct Hm4 as [_ Hm4]. apply (Hm4 r Hlt).
    + by rewrite Hleaf.
  - apply list_eq_same_length with (NResiduositySymbolsPerRound P); [done..|].
    intros i x y Hi Hx Hy. apply list_lookup_total_correct in Hx, Hy. subst x y. by apply Hsym.
  - done.
  - intros j Hne. destruct (decide (j < Parties P)%nat) as [Hj|Hj].
    + rewrite (Hshares j Hj Hne). apply list_lookup_lookup_total_lt. lia.
    + rewrite !lookup_ge_None_2 by lia. done.
Qed.

Lemma check_spec rounds rcs hash1 m2 hash2 m3 hash3 m4 :
  let c1 := generateChallenge1 lr hash1 in
  let c2 := generateChallenge2 lr hash2 in
  let c3 := generateChallenge3 lr hash3 in
  rounds_ok rounds rcs → message2_ok rounds c1 m2 → message3_ok rounds c1 hash2 m2 m3 →
  message4_ok c3 m4 →
  check lr (message1_of rcs) c1 m2 c2 m3 c3 m4 = Ok tt.
Proof.
  intros c1 c2 c3 Hok Hm2 (Hm3l & (all & Hall & Hhash & Hopen) & Hab) Hm4.
  pose proof Hok as (Hl & Hlc & Hrounds). unfold check. fold P.
  destruct (mapM_returns (check_commit_round lr (message1_of rcs) c1 m2 c3 m4)
    (λ r o, ∃ rs rc, rounds !! r = Some rs ∧ rcs !! r = Some rc ∧
      o.1.1 = rc_seeds rc ∧ o.1.2 = rc_symbols rc ∧ length o.2 = Parties P ∧
      ∀ j, j ≠ unopenedParty c3 r → o.2 !! j = rs_shares rs !! j) (seq 0 (NRounds P)))
    as (outs & Eouts & Houts).
  { intros r Hr%elem_of_seq. fold R in Hr.
    destruct (lookup_lt_is_Some_2 rounds r) as [rs Hrs]; [lia|].
    destruct (lookup_lt_is_Some_2 rcs r) as [rc Hrc]; [lia|].
    eapply returns_mono; [by apply (check_commit_round_spec rounds rcs hash1 m2 hash3 m4 r rs rc)|].
    intros o Ho. by exists rs, rc. }
  rewrite Eouts. cbn [mbind result_bind].
  pose proof (Forall2_length _ _ _ Houts) as Hlen. rewrite length_seq in Hlen. fold R in Hlen.
  assert (∀ r o, outs !! r = Some o → ∃ rs rc, rounds !! r = Some rs ∧ rcs !! r = Some rc ∧
      o.1.1 = rc_seeds rc ∧ o.1.2 = rc_symbols rc ∧ length o.2 = Parties P ∧
      ∀ j, j ≠ unopenedParty c3 r → o.2 !! j = rs_shares rs !! j) as Hat.
  { intros r o Ho. destruct (Forall2_lookup_r _ _ _ _ _ Houts Ho) as (r' & Hr' & HR).
    by apply lookup_seq in Hr' as [-> _]. }
  assert ((λ o : list bytes * list Z * list (list Z), concat o.1.1) <$> outs
    = (λ rc, concat (rc_seeds rc)) <$> rcs) as ->.
  { apply list_eq_same_length with R; [rewrite length_fmap; lia..|]. intros r x y Hr Hx Hy.
    apply list_lookup_fmap_Some in Hx as (o & -> & Ho).
    apply list_lookup_fmap_Some in Hy as (rc & -> & Hrc).
    destruct (Hat r o Ho) as (rs & rc' & _ & Hrc' & -> & _). congruence. }
  assert ((λ o : list bytes * list Z * list (list Z), o.1.2) <$> outs = rc_symbols <$> rcs) as ->.
  { apply list_eq_same_length with R; [rewrite length_fmap; lia..|]. intros r x y Hr Hx Hy.
    apply list_lookup_fmap_Some in Hx as (o & -> & Ho).
    apply list_lookup_fmap_Some in Hy as (rc & -> & Hrc).
    destruct (Hat r o Ho) as (rs & rc' & _ & Hrc' & _ & -> & _). congruence. }
  rewrite bool_decide_eq_true_2.
  2: { unfold message1_of. symmetry. apply slice_all, shake128_length. }
  cbn [negb].
  assert (∀ r rs, rounds !! r = Some rs → (r < R)%nat) as Hbound.
  { intros r rs Hrs. apply lookup_lt_Some in Hrs. lia. }
  destruct (mapM_returns (λ p : nat * list (list Z),
      check_open_round lr (computeIndices lr c1) c2 m2 m3 c3 p.2 p.1)
    (λ p o, ∃ rs, rounds !! p.1 = Some rs ∧ o = openings_of c1 hash2 m2 rs p.1)
    (zip (seq 0 (NRounds P)) (snd <$> outs))) as (opens & Eopens & Hopens).
  { intros [r seen] (k & Hk)%list_elem_of_lookup_1. apply lookup_zip_Some in Hk as [Hr Hseen].
    apply lookup_seq in Hr as [-> _]. cbn [Nat.add fst snd].
    apply list_lookup_fmap_Some in Hseen as (o & -> & Ho).
    destruct (Hat k o Ho) as (rs & rc & Hrs & Hrc & _ & _ & Hsl & Hsame).
    destruct (view_of c1 hash2 m2 rounds rcs k rs Hok Hm2 Hrs) as (Hv & He & Hp).
    destruct (Hab k rs Hrs) as [Ea Eb].
    eapply returns_mono.
    - apply (check_open_round_spec lr key (rand k) rs rc (Hrounds k rs rc Hrs Hrc))
        with (u := unopenedParty c3 k);
        [apply parties_pos|apply js_nonempty|apply HP|exact Hv|exact He|exact Hp| |done|done
        |reflexivity|reflexivity|reflexivity|exact Ea|exact Eb].
      apply unopened_range. by eapply Hbound.
    - intros x ->. by exists rs. }
  rewrite Eopens. cbn [mbind result_bind].
  assert (opens = all) as ->.
  { pose proof (Forall2_length _ _ _ Hopens) as Ho. rewrite length_zip, length_seq, length_fmap in Ho.
    apply list_eq_same_length with R; [done|fold R in Ho; lia|]. intros r x y Hr Hx Hy.
    destruct (Forall2_lookup_r _ _ _ _ _ Hopens Hx) as ([r' seen] & Hp & rs & Hrs & ->).
    apply lookup_zip_Some in Hp as [Hr' _]. apply lookup_seq in Hr' as [-> _]. cbn [Nat.add fst] in *.
    rewrite (Hopen r rs Hrs) in Hy. by injection Hy. }
  rewrite bool_decide_eq_true_2 by (by rewrite Hhash). done.
Qed.

Lemma sign_then_check msg :
  msg ≠ [] →
  ∃ sig, LegRoast_Sign lr rand msg = Ok sig ∧ length sig = SigBytes P ∧
    (pk lr ≠ replicate PkBytes 0 → LegRoast_Verify lr msg sig = Ok tt).
Proof.
  intros Hmsg. unfold LegRoast_Sign.
  destruct (returns_inv _ _ commit_spec) as ([rounds m1] & -> & rcs & Hok & Em1).
  cbn [mbind result_bind fst snd] in *. subst m1.
  set (hash2 := chain_hash (LRHash msg) (message1_of rcs)).
  destruct (returns_inv _ _ (respond1_spec rounds rcs (generateChallenge1 lr hash2) Hok))
    as (m2 & -> & Hm2). cbn [mbind result_bind].
  set (hash3 := chain_hash hash2 m2).
  destruct (returns_inv _ _ (respond2_spec rounds rcs (generateChallenge1 lr hash2) hash3 m2 Hok Hm2))
    as (m3 & -> & Hm3). cbn [mbind result_bind].
  set (hash4 := chain_hash hash3 m3).
  destruct (returns_inv _ _ (respond3_spec rounds rcs hash4 Hok)) as (m4 & -> & Hm4).
  cbn [mbind result_bind]. eexists. split; [reflexivity|].
  assert (length (message1_of rcs) = Message1Bytes P) as L1.
  { destruct Hok as (_ & Hlc & _). rewrite message1_length, Hlc, (ok_m1 _ HP). done. }
  pose proof (proj1 Hm2) as L2. pose proof (proj1 Hm3) as L3. pose proof (proj1 Hm4) as L4.
  assert (length (message1_of rcs ++ m2 ++ m3 ++ m4) = SigBytes P) as L.
  { rewrite !length_app, L1, L2, L3, L4, (ok_sig _ HP). fold R. lia. }
  split; [done|]. intros Hpk. unfold LegRoast_Verify. fold P.
  destruct (Nat.eqb_spec (length msg) 0) as [E|_]; [by apply length_zero_iff_nil in E|].
  rewrite L, Nat.eqb_refl. cbn [negb]. rewrite bool_decide_eq_false_2 by done.
  assert (slice (message1_of rcs ++ m2 ++ m3 ++ m4) 0 (Message1Bytes P) = message1_of rcs) as ->
    by (by apply slice_all).
  assert (slice (message1_of rcs ++ m2 ++ m3 ++ m4) (Message1Bytes P) (Message2Bytes P) = m2) as ->.
  { rewrite <-(Nat.add_0_r (Message1Bytes P)) at 1. rewrite slice_app_ge by done. by apply slice_all. }
  assert (slice (message1_of rcs ++ m2 ++ m3 ++ m4) (Message1Bytes P + Message2Bytes P)
    (Message3Bytes P) = m3) as ->.
  { rewrite slice_app_ge by done. rewrite <-(Nat.add_0_r (Message2Bytes P)).
    rewrite slice_app_ge by done. by apply slice_all. }
  assert (drop (Message1Bytes P + Message2Bytes P + Message3Bytes P)
    (message1_of rcs ++ m2 ++ m3 ++ m4) = m4) as ->.
  { rewrite !app_assoc. apply drop_app_length'. rewrite !length_app. lia. }
  by apply (check_spec rounds).
Qed.
End Signing.

(** Verification does not read the secret key. *)
Lemma verify_public `{Shake128} `{Uint128Lib} lr lr' msg sig :
  pk lr' = pk lr → lr_params lr' = lr_params lr → isLegendre lr' = isLegendre lr →
  LegRoast_Verify lr' msg sig = LegRoast_Verify lr msg sig.
Proof. destruct lr, lr'. simpl. intros -> -> ->. reflexivity. Qed.

(** Opening a seed tree.  From the seeds that [ReleaseSeeds] gives out for an
    unopened party, one per level of the tree, [FillDown] recovers the leaf of every
    other party of the tree made by [Generate], unless an inner seed is all zeros,
    which [FillDown] takes for a missing one. *)
Theorem seed_tree_recovered `{Shake128Laws} algorithm params root unopened j :
  GetLegRoastParams algorithm = Some params → length root = seedBytes →
  (∀ i, (1 ≤ i < Parties params - 1)%nat → Generate (Parties params) root !!! i ≠ zero_seed) →
  (unopened < Parties params)%nat → (j < Parties params)%nat → j ≠ unopened →
  let tree := Generate (Parties params) root in
  let released := ReleaseSeeds params tree unopened in
  length released = NPartyDepth params ∧
  leaf params (FillDown params unopened (concat released)) j = leaf params tree j.
Proof.
  intros Hparams Hroot Hgood Hu Hj Hne tree released.
  destruct (get_params_ok _ _ Hparams) as [HP _]. pose proof (ok_depth _ HP) as Hd.
  assert (1 ≤ Parties params)%nat as Hpos by lia. pose proof (ok_parties _ HP) as EN.
  destruct (Generate_spec (Parties params) root Hpos Hroot) as (Hl & Hexp & Hs).
  fold tree in Hl, Hexp, Hs, Hgood.
  assert (length released = NPartyDepth params) as Hlen.
  { unfold released, ReleaseSeeds. rewrite release_length. simpl. lia. }
  set (D := NPartyDepth params) in *. set (N := Parties params) in *.
  assert (2 ^ D ≤ unopened + (N - 1) + 1 < 2 * 2 ^ D)%nat as Hleaf by lia.
  assert (∀ k, (k < D)%nat →
    released !! (D - 1 - k)%nat = Some (tree !!! sibling (up (unopened + (N - 1)) k))) as Hrel.
  { intros k Hk. unfold released, ReleaseSeeds. fold D N. rewrite release_spec by lia.
    by replace (D - 1 - (D - 1 - k))%nat with k by lia. }
  split; [done|].
  pose proof (refill_leaf D (unopened + (N - 1)) tree (concat released)) as Href.
  rewrite <-EN in Href. unfold leaf, FillDown. fold D N.
  apply Href; [lia|lia|done|done|done| |lia|lia].
  intros k Hk. apply slice_concat_end; [|by apply Hrel]. intros y (m & Hm)%list_elem_of_lookup_1.
  pose proof (lookup_lt_Some _ _ _ Hm) as Hmlt.
  replace m with (D - 1 - (D - 1 - m))%nat in Hm by lia. rewrite Hrel in Hm by lia.
  injection Hm as <-. apply Hs. rewrite EN.
  apply (sibling_range D _ tree); lia.
Qed.

(** argon2.IDKey returns as many bytes as it is asked for. *)
Class KeyringLaws `{Keyring} : Prop := {
  argon2_length password salt : length (argon2_IDKey password salt) = 32%nat
}.

(** C5. Whenever the key of the address is in the keyring, [Sign] returns a
    signature and a public key, of the sizes of the algorithm, and [LR_Verify]
    accepts the signature under that public key, for each of the six algorithms
    and every non-empty message.  Excluded are the coincidences in which the
    scheme fails: a seed of zeros inside a tree, a random number or a shifted key
    that is zero modulo 2^127 - 1, and the public key of zeros, which the verifier
    takes for a missing one. *)
Theorem legroast_roundtrip `{SdkAddress} `{Shake128Laws} `{Uint128Laws} `{KeyringLaws}
    address kr rand message algorithm seed params :
  GenerateLegRoastKeySeed address kr = Ok seed →
  GetLegRoastParams algorithm = Some params →
  message ≠ [] →
  (∀ r, length (rand r) = seedBytes) →
  good_key (alg_int algorithm <? alg_int PowerFast)%nat seed →
  (∀ r, (r < NRounds params)%nat → good_seeds params (rand r) ∧ good_numbers params (rand r)) →
  ∃ signature pubKey,
    Sign address kr rand message algorithm = Ok (signature, pubKey) ∧
    length signature = SigBytes params ∧ length pubKey = PkBytes ∧
    (pubKey ≠ replicate PkBytes 0 → LR_Verify message pubKey signature = Ok tt).
Proof.
  intros Hseed Hparams Hmsg Hrand Hkey Hgood. destruct (get_params_ok _ _ Hparams) as [HP _].
  assert (length seed = seedBytes) as Hlen.
  { unfold GenerateLegRoastKeySeed in Hseed. repeat case_match; simplify_eq/=.
    rewrite length_take, argon2_length. done. }
  unfold Sign, NewLegRoast. rewrite Hseed, Hparams. cbn [mbind result_bind].
  set (lr0 := mkLegRoast _ _ _ _).
  destruct (returns_inv _ _ (Keygen_spec lr0 [] seed Hlen)) as (lr & -> & Hkeyed & Ep & El).
  cbn [mbind result_bind]. cbn [lr0 lr_params isLegendre] in Ep, El.
  destruct (sign_then_check lr seed rand) with (msg := message) as (sig & -> & Hsl & Hver);
    [by rewrite Ep|done|done|by rewrite El|by rewrite Ep|done|].
  rewrite Ep in Hsl. cbn [mbind result_bind]. exists sig, (pk lr).
  split_and!; [done|done|apply Hkeyed|]. intros Hpk. unfold LR_Verify.
  rewrite Hsl, (algorithm_by_size _ _ Hparams). cbn [mbind result_bind].
  unfold NewLegRoast. rewrite Hparams. cbn [mbind result_bind]. unfold SetPublicKey.
  rewrite (keyed_length _ _ Hkeyed), Nat.eqb_refl. cbn [mbind result_bind].
  rewrite (verify_public lr); [by apply Hver|done|done|done].
Qed.
