(* ===== verification/LegExamples.v ===== *)
(** * A LegRoast signature

    The interfaces of LegRoast instantiated: machine words as integers, an
    expansion function that repeats a block of sixteen bytes, and a keyring that
    holds every key.  The witness signs and verifies a message. *)
From Stdlib Require Import ZArith Lia.
From stdpp Require Import base numbers strings list.
From S2P Require Import Prelude Sdk Uint128 Field127 Residue LegRoast LegTree LegOpen LegRound.
From S2P Require Import LegRoastThm.
Open Scope Z_scope.

Lemma sign_inv `{SdkAddress, Shake128, Uint128Lib, Keyring} address kr rand message alg sig pubKey :
  Sign address kr rand message alg = Ok (sig, pubKey) →
  ∃ seed lr lr', GenerateLegRoastKeySeed address kr = Ok seed ∧ NewLegRoast alg = Ok lr ∧
    Keygen lr [] (Some seed) = Ok lr' ∧ pubKey = pk lr'.
Proof.
  unfold Sign. destruct (GenerateLegRoastKeySeed address kr) as [seed|]; [|done].
  destruct (NewLegRoast alg) as [lr|]; [|done]. cbn [mbind result_bind].
  destruct (Keygen lr [] (Some seed)) as [lr'|] eqn:E; [|done]. cbn [mbind result_bind].
  destruct (LegRoast_Sign lr' rand message); [|done]. intros [= _ <-]. by exists seed, lr, lr'.
Qed.

Module LegExamples.
Fixpoint le_bytes (n : nat) (u : Z) : bytes :=
  match n with O => [] | S n' => u mod 256 :: le_bytes n' (u / 256) end.
Definition le_value (b : bytes) : Z := foldr (λ x acc, x + 256 * acc) 0 b.

Lemma le_roundtrip n u : 0 ≤ u < 256 ^ Z.of_nat n → le_value (le_bytes n u) = u.
Proof.
  revert u. induction n as [|n IH]; intros u Hu; [simpl in *; lia|].
  rewrite Nat2Z.inj_succ, Z.pow_succ_r in Hu by lia. cbn [le_bytes le_value foldr].
  fold (le_value (le_bytes n (u / 256))). rewrite IH.
  - pose proof (Z.div_mod u 256). lia.
  - split; [apply Z.div_pos; lia|apply Z.div_lt_upper_bound; lia].
Qed.

Definition fits (z : Z) : result Z :=
  if (0 <=? z) && (z <? u128_max) then Ok z else Err (Panic "overflow").
Lemma fits_ok z : in_u128 z → fits z = Ok z.
Proof.
  intros [H1 H2]. unfold fits. by rewrite (proj2 (Z.leb_le _ _) H1), (proj2 (Z.ltb_lt _ _) H2).
Qed.

#[local] Instance uint128 : Uint128Lib := {
  u128_From64 v := v;
  u128_Add u v := fits (u + v);
  u128_Add64 u v := fits (u + v);
  u128_Sub u v := fits (u - v);
  u128_Mul64 u v := fits (u * v);
  u128_Mod u v := if v =? 0 then Err (Panic "division by zero") else Ok (u mod v);
  u128_Lsh u n := (u * 2 ^ n) mod u128_max;
  u128_Rsh u n := u / 2 ^ n;
  u128_FromBytes b := le_value b mod u128_max;
  u128_PutBytes := le_bytes 16
}.
#[local] Instance uint128_laws : Uint128Laws.
Proof.
  split; cbn -[le_bytes le_value fits Z.pow Z.mul Z.modulo Z.div]; try done.
  - intros u v Hu Hv Hs. apply fits_ok. unfold in_u128 in *. lia.
  - intros u v Hu Hv Hs. apply fits_ok. unfold in_u128 in *. lia.
  - intros u v Hu Hv Hs. apply fits_ok. unfold in_u128 in *. lia.
  - intros u v Hu Hv Hs. apply fits_ok. unfold in_u128 in *. nia.
  - intros u v _ _ Hv. by rewrite (proj2 (Z.eqb_neq _ _) Hv).
  - intros b _. by apply Z.mod_pos_bound.
  - intros u Hu. rewrite (le_roundtrip 16) by done. by apply Z.mod_small.
Qed.

#[local] Existing Instance Concrete.address.

(** Indices expand to p - 2, seeds to ones. *)
Definition pattern (data : bytes) : bytes :=
  if (length data =? 4)%nat then le_bytes 16 (m127 - 2) else le_bytes 16 1.
#[local] Instance shake : Shake128 := {
  shake128 data n := (λ i, pattern data !!! (i mod 16)%nat) <$> seq 0 n
}.
#[local] Instance shake_laws : Shake128Laws.
Proof. split. intros data n. simpl. by rewrite length_fmap, length_seq. Qed.
#[local] Instance ring_of_all : Keyring := {
  keyring := unit;
  KeyByAddress _ a := Some a;
  SignByAddress _ _ m := Some m;
  argon2_IDKey _ _ := replicate 32 7
}.
#[local] Instance ring_laws : KeyringLaws.
Proof. by split. Qed.

Definition seed : bytes := replicate 16 7.
Definition ring : option (@keyring ring_of_all) := Some tt.
Definition root (r : nat) : bytes := replicate 16 9.
Definition params : LegRoastParams := newLegRoastParams LegendreFast 54 9 4.

Lemma index_value c : computeIndex c = m127 - 2.
Proof. vm_compute. reflexivity. Qed.
Lemma key_value : key_of seed = 1.
Proof. vm_compute. reflexivity. Qed.
Lemma keys_good : good_key true seed.
Proof. intros c _. rewrite index_value, key_value. vm_compute. done. Qed.
Lemma seeds_good r : good_seeds params (root r).
Proof.
  assert (forallb (λ i, bool_decide (Generate 16 (replicate 16 9) !!! i ≠ zero_seed)) (seq 1 14)
    = true) as Hall by (vm_compute; reflexivity).
  rewrite forallb_forall in Hall. intros i Hi.
  eapply bool_decide_eq_true_1, Hall, list_elem_of_In, elem_of_seq. change (Parties params) with 16%nat in Hi. lia.
Qed.
Lemma numbers_good r : good_numbers params (root r).
Proof.
  assert (forallb (λ i, bool_decide (sumover (λ s, expand_shares params s !!! (sharesR + i)%nat)
      (round_seeds params (replicate 16 9)) mod m127 ≠ 0)) (seq 0 9) = true) as Hall
    by (vm_compute; reflexivity).
  rewrite forallb_forall in Hall. intros i Hi.
  eapply bool_decide_eq_true_1, Hall, list_elem_of_In, elem_of_seq. change (NResiduositySymbolsPerRound params) with 9%nat in Hi.
  lia.
Qed.

(** The first bit of the public key is set: -1 is not a square. *)
Lemma odd_power n : 0 ≤ n → (-1) ^ (2 * n + 1) = -1.
Proof. intros Hn. rewrite Z.pow_add_r, Z.pow_mul_r by lia. change ((-1) ^ 2) with 1. by rewrite Z.pow_1_l. Qed.
Lemma exponent_odd : sy_exp (sigma true) = 2 * (2 ^ 125 - 1) + 1.
Proof. vm_compute. reflexivity. Qed.
Lemma not_square x : eqp x (-1) → ¬ is_symbol (sigma true) x 0.
Proof.
  intros E [_ Hs]. assert (¬ eqp (-1) 0) as Hnz by (intros [E0]; vm_compute in E0; discriminate E0).
  rewrite <-E in Hnz. specialize (Hs Hnz). rewrite E, exponent_odd, odd_power in Hs.
  - rewrite Z.pow_0_r in Hs. destruct Hs as [Hs]. vm_compute in Hs. discriminate Hs.
  - apply Z.lt_succ_r. vm_compute. reflexivity.
Qed.
Lemma zero_bit lr : isLegendre lr = true → pk lr = replicate PkBytes 0 → getBit lr 0 = 0.
Proof. intros Hl Hpk. unfold getBit. rewrite Hl, Hpk. reflexivity. Qed.

Lemma key_nonzero sig pk_bytes message :
  Sign "a1" ring root message LegendreFast = Ok (sig, pk_bytes) →
  pk_bytes ≠ replicate PkBytes 0.
Proof.
  intros (s & lr & lr' & Es & Elr & Ekg & ->)%sign_inv Hzero.
  assert (GenerateLegRoastKeySeed "a1" ring = Ok seed) as Eseed by (vm_compute; reflexivity).
  rewrite Eseed in Es. injection Es as <-.
  pose proof (Keygen_spec lr [] seed eq_refl) as Hk. rewrite Ekg in Hk.
  destruct Hk as (Hkeyed & _ & Eleg).
  assert (isLegendre lr = true) as Hl by (injection Elr as <-; reflexivity). rewrite Hl in Eleg.
  pose proof (keyed_symbols _ _ Hkeyed 0) as Hsym.
  rewrite Eleg, index_value, key_value, zero_bit in Hsym by done.
  eapply not_square, Hsym; [|done]. constructor. vm_compute. reflexivity.
Qed.

Lemma legroast_roundtrip_witness :
  ∃ signature pubKey,
    Sign "a1" ring root [1; 2; 3] LegendreFast = Ok (signature, pubKey) ∧
    length signature = SigBytes params ∧ LR_Verify [1; 2; 3] pubKey signature = Ok tt.
Proof.
  destruct (legroast_roundtrip "a1" ring root [1; 2; 3] LegendreFast seed params)
    as (sig & pubKey & Hsign & Hlen & _ & Hverify).
  - vm_compute. reflexivity.
  - vm_compute. reflexivity.
  - done.
  - done.
  - exact keys_good.
  - intros r _. split; [apply seeds_good|apply numbers_good].
  - exists sig, pubKey. split; [exact Hsign|]. split; [exact Hlen|].
    apply Hverify. eapply key_nonzero. exact Hsign.
Defined.

Lemma residue_symbols_witness :
  ∃ s t, legendreSymbolCT 3 = Ok s ∧ legendreSymbolCT 5 = Ok t ∧
    legendreSymbolCT 15 = Ok (Z.lxor s t).
Proof.
  destruct (residue_symbols 3 5 15) as [(s & t & Hs & Ht & Hu & _) _];
    [by split|by split|by split|by vm_compute|by vm_compute|vm_compute; reflexivity|].
  exists s, t. split; [exact Hs|]. split; [exact Ht|exact Hu].
Defined.

Lemma seed_tree_recovered_witness :
  let tree := Generate 16 (root 0) in
  leaf params (FillDown params 3 (concat (ReleaseSeeds params tree 3))) 7 = leaf params tree 7.
Proof.
  destruct (seed_tree_recovered LegendreFast params (root 0) 3 7) as [_ E];
    [vm_compute; reflexivity|done|exact (seeds_good 0)|vm_compute; lia|vm_compute; lia|done|].
  exact E.
Defined.
End LegExamples.
