(* ===== verification/FloatPos.v ===== *)
(** * Positive float64

    Products, quotients and sums of positive numbers stay positive as long as
    their exponents are far from the underflow threshold. *)
From Stdlib Require Import ZArith Lia SpecFloat.
From stdpp Require Import base numbers list.
From S2P Require Import Prelude Float FloatFmt.
Open Scope Z_scope.

(** [f] is infinite or a positive number with its leading bit at or above [k]. *)
Definition pos_from (k : Z) (f : float64) : Prop :=
  match f with
  | S754_infinity false => True
  | S754_finite false m e => k ≤ Z.log2 (Zpos m) + e ∧ -1074 ≤ e
  | _ => False
  end.
(** The same for a number of any exponent. *)
Definition top_from (k : Z) (f : float64) : Prop :=
  match f with
  | S754_infinity false => True
  | S754_finite false m e => k ≤ Z.log2 (Zpos m) + e
  | _ => False
  end.
Definition positive_float (f : float64) : Prop := ∃ k, pos_from k f.

Lemma digits_log m : 0 < m → Zdigits2 m = Z.log2 m + 1.
Proof. destruct m as [|p|p]; [lia| |lia]. intros _. apply digits_log2. Qed.

Lemma shr_1_div r : 0 ≤ shr_m r → shr_m (shr_1 r) = shr_m r / 2.
Proof.
  destruct r as [[|[p|p|]|p] r s]; cbn [shr_m]; intros Hm; cbn [shr_1 shr_m];
    [done| | |done|lia].
  - rewrite (Pos2Z.inj_xI p). apply (Z.div_unique _ _ _ 1); lia.
  - rewrite (Pos2Z.inj_xO p). apply (Z.div_unique _ _ _ 0); lia.
Qed.
Lemma shr_iter_div n r :
  0 ≤ shr_m r → shr_m (Nat.iter n shr_1 r) = shr_m r / 2 ^ Z.of_nat n.
Proof.
  intros Hm. induction n as [|n IH]; [by rewrite Z.div_1_r|].
  rewrite Nat.iter_succ, shr_1_div, IH, Z.div_div by (try apply Z.pow_pos_nonneg; try rewrite IH;
    try (apply Z.div_pos; [done|apply Z.pow_pos_nonneg; lia]); lia).
  f_equal. rewrite Nat2Z.inj_succ, Z.pow_succ_r by lia. lia.
Qed.
Lemma shr_m_of_loc m l : shr_m (shr_record_of_loc m l) = m.
Proof. by destruct l as [|[]]. Qed.

(** Shifting to 53 bits keeps the leading bit. *)
Lemma shr_fexp_top m e l :
  0 < m → -1000 ≤ Z.log2 m + e →
  ∃ r e', shr_fexp 53 1024 m e l = (r, e') ∧ 0 < shr_m r ∧ -1074 ≤ e' ∧
    Z.log2 (shr_m r) + e' = Z.log2 m + e.
Proof.
  intros Hm Ht. unfold shr_fexp, fexp. rewrite digits_log by done.
  change (emin 53 1024) with (-1074). rewrite Z.max_l by lia. pose proof (Z.log2_nonneg m).
  destruct (Z.log2 m + 1 + e - 53 - e) as [|p|p] eqn:En; cbn [shr].
  - eexists _, _. split; [done|]. rewrite shr_m_of_loc. lia.
  - eexists _, _. split; [done|]. rewrite iter_pos_nat, shr_iter_div, shr_m_of_loc
      by (rewrite shr_m_of_loc; lia).
    rewrite positive_nat_Z. rewrite <-Z.shiftr_div_pow2, Z.log2_shiftr by lia.
    split; [|lia]. assert (Z.log2 (Z.shiftr m (Zpos p)) = 52) as Hl by (rewrite Z.log2_shiftr; lia).
    destruct (Z.le_gt_cases (Z.shiftr m (Zpos p)) 0) as [Hle|]; [|done].
    rewrite Z.log2_nonpos in Hl by done. lia.
  - eexists _, _. split; [done|]. rewrite shr_m_of_loc. lia.
Qed.

Lemma round_even_up m l : 0 ≤ m → m ≤ round_nearest_even m l.
Proof. intros Hm. destruct l as [|[]]; cbn; try lia. case_match; lia. Qed.

Lemma round_aux_pos m e l k :
  0 < m → -1000 ≤ k → k ≤ Z.log2 m + e → pos_from k (binary_round_aux 53 1024 false m e l).
Proof.
  intros Hm Hk Htop. unfold binary_round_aux.
  destruct (shr_fexp_top m e l) as (r & e1 & -> & Hr & He1 & Ht1); [done|lia|].
  pose proof (round_even_up (shr_m r) (loc_of_shr_record r) ltac:(lia)) as Hq.
  set (q := round_nearest_even _ _) in *. pose proof (Z.log2_le_mono _ _ Hq) as Hlog.
  destruct (shr_fexp_top q e1 loc_Exact) as (r2 & e2 & -> & Hr2 & He2 & Ht2); [lia|lia|].
  destruct (shr_m r2) as [|M|M] eqn:EM; [lia| |lia].
  destruct (e2 <=? 1024 - 53); cbn [pos_from]; [lia|done].
Qed.

Lemma mul_pos x y a b :
  top_from a x → top_from b y → -1000 ≤ a + b → pos_from (a + b) (f64_mul x y).
Proof.
  destruct x as [|[]| |[] mx ex], y as [|[]| |[] my ey]; try done. cbn [top_from]. intros Ha Hb Hab.
  apply round_aux_pos; [done|done|]. rewrite Pos2Z.inj_mul.
  pose proof (Z.log2_mul_below (Zpos mx) (Zpos my) ltac:(done) ltac:(done)). lia.
Qed.

(** A positive number below 2^b. *)
Definition bounded_float (b : Z) (f : float64) : Prop :=
  match f with S754_finite false m e => Z.log2 (Zpos m) + e < b | _ => False end.

Lemma div_pos x y a b :
  top_from a x → bounded_float b y → -900 ≤ a - b → pos_from (a - b) (f64_div x y).
Proof.
  destruct x as [|[]| |[] mx ex]; try done; destruct y as [|[]| |[] my ey]; try done.
  intros Ha Hb Hab. cbn [top_from bounded_float] in *. unfold f64_div. cbn [SFdiv xorb].
  unfold SFdiv_core_binary. cbn [Zdigits2]. rewrite !digits_log2.
  set (lx := Z.log2 (Zpos mx)) in *. set (ly := Z.log2 (Zpos my)) in *.
  unfold fexp. change (emin 53 1024) with (-1074). rewrite (Z.max_l _ (-1074)) by lia.
  set (e' := Z.min _ _). set (s := ex - ey - e'). assert (0 ≤ s) as Hs by lia.
  set (m' := match s with Z0 => _ | _ => _ end).
  assert (m' = Z.shiftl (Zpos mx) s) as ->.
  { unfold m'. destruct s; [by rewrite Z.shiftl_0_r|done|lia]. }
  pose proof (Z.div_eucl_eq (Z.shiftl (Zpos mx) s) (Zpos my) ltac:(done)) as Heq.
  destruct (Z.div_eucl (Z.shiftl (Zpos mx) s) (Zpos my)) as [q r] eqn:Ediv.
  assert (q = Z.shiftl (Zpos mx) s / Zpos my) as Eq by (unfold Z.div; by rewrite Ediv).
  assert (2 ^ (lx + s - ly - 1) ≤ q) as Hq.
  { rewrite Eq. apply Z.div_le_lower_bound; [done|]. rewrite Z.shiftl_mul_pow2 by lia.
    pose proof (Z.log2_spec (Zpos mx) ltac:(done)) as [Hx _].
    pose proof (Z.log2_spec (Zpos my) ltac:(done)) as [_ Hy]. fold lx in Hx. fold ly in Hy.
    assert (0 ≤ lx + s - ly - 1) by lia. pose proof (Z.log2_nonneg (Zpos my)).
    transitivity (2 ^ Z.succ ly * 2 ^ (lx + s - ly - 1)).
    - apply Z.mul_le_mono_nonneg_r; [apply Z.pow_nonneg; done|lia].
    - rewrite <-Z.pow_add_r by lia. replace (Z.succ ly + (lx + s - ly - 1)) with (lx + s) by lia.
      pose proof (Z.log2_nonneg (Zpos mx)). rewrite Z.pow_add_r by lia.
      apply Z.mul_le_mono_nonneg_r; [apply Z.pow_nonneg; done|done]. }
  assert (0 < q) as Hqpos.
  { pose proof (Z.pow_pos_nonneg 2 (lx + s - ly - 1) ltac:(lia) ltac:(lia)). lia. }
  apply round_aux_pos; [done|lia|].
  assert (lx + s - ly - 1 ≤ Z.log2 q); [|lia]. apply Z.log2_le_pow2; [lia|done].
Qed.

Lemma pos_top k f : pos_from k f → top_from k f.
Proof. destruct f as [|[]| |[] m e]; try done. by intros [? _]. Qed.

(** ** Integers *)
Lemma of_Z_pos z : 1 ≤ z < 2 ^ 64 → pos_from (-1) (f64_of_Z z) ∧ bounded_float 66 (f64_of_Z z).
Proof.
  intros Hz. destruct z as [|p|p]; [lia| |lia]. cbn [f64_of_Z binary_normalize].
  unfold f64_of_Z, binary_normalize. pose proof (round_spec p 0 ltac:(lia)) as Hr.
  change (0 + 1074) with 1074 in Hr. set (w := 2 ^ 1074) in Hr.
  assert (Zpos p * w < 2 ^ 1138) as Hub.
  { assert (2 ^ 1138 = 2 ^ 64 * w) as -> by reflexivity. apply Z.mul_lt_mono_pos_r; [done|lia]. }
  assert (1 * w ≤ Zpos p * w) as Hlb by (apply Z.mul_le_mono_nonneg_r; lia).
  assert (2 ^ 1138 < 2 ^ 2000) as Hc by reflexivity.
  destruct (binary_round 53 1024 false p 0) as [|[]| |[] M E]; cbn [rounded] in Hr; try done; [lia|].
  destruct Hr as (HE & _ & _ & Hnear). unfold near in Hnear. cbn [fval] in Hnear.
  set (v := Zpos M * 2 ^ (E + 1074)) in *.
  assert (2 ^ 1073 ≤ v < 2 ^ 1139) as Hv.
  { assert (w = 2 * 2 ^ 1073) as Ew by reflexivity. assert (2 ^ 1139 = 2 * 2 ^ 1138) as -> by reflexivity.
    set (c := 2 ^ 1073) in *. set (d := 2 ^ 1138) in *. clearbody c d v w. lia. }
  assert (Z.log2 v = Z.log2 (Zpos M) + (E + 1074)) as Hlog.
  { unfold v. rewrite Z.log2_mul_pow2; lia. }
  assert (1073 ≤ Z.log2 v) by (apply Z.log2_le_pow2; lia).
  assert (Z.log2 v < 1139) by (apply Z.log2_lt_pow2; lia).
  cbn [pos_from bounded_float]. lia.
Qed.

(** ** Sums *)
Lemma add_pos_from k x y :
  pos_from k x → positive_float y ∨ y = S754_zero false → positive_float (f64_add x y).
Proof.
  intros Hx [[j Hy]| ->]; [|by exists k; destruct x as [|[]| |[] mx ex]].
  destruct x as [|[]| |[] mx ex], y as [|[]| |[] my ey]; try done; try (by exists 0).
  destruct Hx as [_ Hex], Hy as [_ Hey].
  assert (∀ m e, 0 < fval (S754_finite false m e) ∨ e < -1074) as Hv.
  { intros m e. destruct (Z.lt_ge_cases e (-1074)) as [|He]; [by right|left]. cbn [fval].
    apply Z.mul_pos_pos; [done|apply Z.pow_pos_nonneg; lia]. }
  pose proof (add_rounded (S754_finite false mx ex) (S754_finite false my ey) Hex Hey
    ltac:(destruct (Hv mx ex); [done|lia]) ltac:(destruct (Hv my ey); [done|lia])) as Hr.
  destruct (f64_add _ _) as [|[]| |[] M E]; cbn [rounded] in Hr; try done; [by exists 0|].
  exists (Z.log2 (Zpos M) + E). split; [done|apply Hr].
Qed.
Lemma sum_positive {B} (g : B → float64) l t :
  positive_float t → (∀ c, c ∈ l → positive_float (g c)) →
  positive_float (foldl (λ acc c, f64_add acc (g c)) t l).
Proof.
  revert t. induction l as [|c l IH]; intros t Ht Hl; [done|]. cbn [foldl]. apply IH.
  - destruct Ht as [k Ht]. eapply add_pos_from; [done|]. left. apply Hl. left.
  - intros d Hd. apply Hl. by right.
Qed.
Lemma positive_not_le f : positive_float f → f64_leb f (S754_zero false) = false.
Proof. intros [k Hf]. by destruct f as [|[]| |[] m e]. Qed.

(** A number whose integer part is positive. *)
Lemma trunc_top f : 1 ≤ f64_trunc f → top_from 0 f.
Proof.
  destruct f as [| | |[] m e]; cbn [f64_trunc top_from]; try lia.
  - intros Hm. exfalso. case_match; [|pose proof (Z.div_pos (Zpos m) (2 ^ (- e)) ltac:(done)
      ltac:(apply Z.pow_pos_nonneg; lia)); lia].
    assert (0 ≤ Zpos m * 2 ^ e) by (apply Z.mul_nonneg_nonneg; [done|by apply Z.pow_nonneg]). lia.
  - intros Hm. pose proof (Z.log2_nonneg (Zpos m)). destruct (Z.leb_spec 0 e) as [He|He]; [lia|].
    assert (- e ≤ Z.log2 (Zpos m)); [|lia]. apply Z.log2_le_pow2; [done|].
    apply Z.nlt_ge. intros Hlt. rewrite Z.div_small in Hm; lia.
Qed.
