(* ===== verification/Reward.v ===== *)
(** * x/supernode/v1: the distribution of rewards

    keeper/state.go, audit_metrics.go, distribution.go, abci.go and the eligibility
    query.  Every payment period the balance of the module account is divided
    among the supernodes in proportion to the bytes they report to store. *)
From Stdlib Require Import ZArith Lia Ascii SpecFloat.
From stdpp Require Import base numbers strings list gmap.
From S2P Require Import Prelude Sdk Float FloatFmt Bank SupernodeTypes Supernode SupernodeParams.
From S2P Require Import Metrics.
Open Scope Z_scope.

(** ** Interfaces *)

(** LegacyDec: quotients and truncated products *)
Class DecQuo `{LegacyDecOps} := {
  dec_Quo : Dec → Dec → Dec;
  dec_MulTruncate : Dec → Dec → Dec
}.
(** The bank: all balances of an account *)
Class PayoutBank `{BankKeeper} := { GetAllBalances : bank → bytes → list Coin }.
Class AccAddressText := { AccAddress_String : bytes → string }.

(** ** State *)
Record SNDistState := mkSNDistState {
  SmoothedBytes : float64;
  PrevRawBytes : float64;
  EligibilityStartHeight : Z;
  PeriodsActive : Z
}.
Record PayoutHistoryEntry := {
  ph_Height : Z;
  ph_ValidatorAddress : string;
  ph_SupernodeAccount : string;
  ph_Amount : list Coin;
  ph_RawBytes : float64;
  ph_SmoothedBytes : float64;
  ph_EffectiveWeight : float64;
  ph_RampWeight : float64
}.

Section Store.
Context `{BankKeeper}.
Record rw_store := RwStore {
  rw_sn : sn_store;
  rw_bank : bank;
  rw_last : Z;
  rw_total : list Coin;
  rw_dist : gmap string SNDistState;
  rw_history : gmap string PayoutHistoryEntry
}.
Definition put_bank (b : bank) (s : rw_store) : rw_store :=
  RwStore (rw_sn s) b (rw_last s) (rw_total s) (rw_dist s) (rw_history s).
Definition put_last (h : Z) (s : rw_store) : rw_store :=
  RwStore (rw_sn s) (rw_bank s) h (rw_total s) (rw_dist s) (rw_history s).
Definition put_total (cs : list Coin) (s : rw_store) : rw_store :=
  RwStore (rw_sn s) (rw_bank s) (rw_last s) cs (rw_dist s) (rw_history s).
Definition put_dist (v : string) (d : SNDistState) (s : rw_store) : rw_store :=
  RwStore (rw_sn s) (rw_bank s) (rw_last s) (rw_total s) (<[v := d]> (rw_dist s)) (rw_history s).
Definition put_history (k : string) (e : PayoutHistoryEntry) (s : rw_store) : rw_store :=
  RwStore (rw_sn s) (rw_bank s) (rw_last s) (rw_total s) (rw_dist s) (<[k := e]> (rw_history s)).
End Store.

Definition everlightDenom : string := "ulume".
Definition sn_ModuleName : string := "supernode".
Definition EventTypeDistribution : string := "reward_distribution".

(** ** Arithmetic of state.go *)
Definition f1 : float64 := f64_of_Z 1.

Definition applyGrowthCap (rawBytes prevRawBytes : float64) (growthCapBps : Z) : float64 :=
  if f64_leb prevRawBytes f0 then rawBytes else
  let maxGrowthFraction := f64_div (f64_of_Z growthCapBps) (f64_of_Z 10000) in
  let maxAllowed := f64_mul prevRawBytes (f64_add f1 maxGrowthFraction) in
  if f64_ltb maxAllowed rawBytes then maxAllowed else rawBytes.

(** Each operation rounds on its own, as on amd64. *)
Definition applyEMA (prevSmoothed newValue : float64) (smoothingPeriods : Z) : float64 :=
  if smoothingPeriods =? 0 then newValue else
  let alpha := f64_div (f64_of_Z 2) (f64_add (f64_of_Z smoothingPeriods) f1) in
  if f64_leb prevSmoothed f0 then newValue else
  f64_add (f64_mul alpha newValue) (f64_mul (f64_sub f1 alpha) prevSmoothed).

Definition computeRampUpWeight (periodsActive rampUpPeriods : Z) : float64 :=
  if rampUpPeriods =? 0 then f1 else
  if rampUpPeriods <=? periodsActive then f1 else
  f64_div (f64_of_Z (u64 (periodsActive + 1))) (f64_of_Z rampUpPeriods).

(** The conversion of 2^64 itself, which the guard lets through, is 2^63 on amd64. *)
Definition floatToUint64 (f : float64) : Z :=
  if f64_leb f f0 || f64_isNaN f then 0 else
  if f64_isInf f || f64_ltb (f64_of_Z (2 ^ 64)) f then 2 ^ 64 - 1 else
  if f64_trunc f <? 2 ^ 64 then f64_trunc f else 2 ^ 63.

(** ** Coins.Add of at most one coin to a sorted list *)
Fixpoint add_coin (c : Coin) (cs : list Coin) : list Coin :=
  match cs with
  | [] => [c]
  | d :: cs' =>
      if decide (Denom c = Denom d) then mkCoin (Denom d) (Amount c + Amount d) :: cs'
      else if bytes_leb (string_bytes (Denom c)) (string_bytes (Denom d)) then c :: cs
      else d :: add_coin c cs'
  end.
Definition Coins_Add (cs amt : list Coin) : list Coin := foldl (λ acc c, add_coin c acc) cs amt.

Section Keeper.
Context `{SdkAddress} `{AccAddressText} `{DecQuo} `{PayoutBank}.

(** ** Store access of state.go *)
Definition GetLastDistributionHeight (s : rw_store) : Z := rw_last s.
Definition SetLastDistributionHeight (height : Z) : M rw_store unit :=
  modify (put_last (if height <? 0 then 0 else height)).
Definition GetPoolBalance (s : rw_store) : list Coin :=
  GetAllBalances (rw_bank s) (module_address sn_ModuleName).
Definition GetTotalDistributed (s : rw_store) : list Coin := rw_total s.
Definition SetTotalDistributed (coins : list Coin) : M rw_store unit := modify (put_total coins).
Definition AddTotalDistributed (amt : list Coin) : M rw_store unit :=
  current ← gets GetTotalDistributed;
  SetTotalDistributed (Coins_Add current amt).
Definition GetSNDistState (valAddr : string) (s : rw_store) : option SNDistState :=
  rw_dist s !! valAddr.

(** json.Marshal refuses NaN and infinities. *)
Definition json_float (f : float64) : bool := negb (f64_isNaN f || f64_isInf f).
Definition SetSNDistState (valAddr : string) (state : SNDistState) : M rw_store unit :=
  _ ← ensure (json_float (SmoothedBytes state) && json_float (PrevRawBytes state))
        (Panic "failed to marshal SN dist state");
  modify (put_dist valAddr state).

(** %s%020d *)
Definition history_key (validator : string) (height : Z) : string :=
  ("rhist/" +:+ validator +:+ "/" +:+ pad_left 20 (FormatInt height))%string.
Definition AppendPayoutHistoryEntry (entry : PayoutHistoryEntry) : M rw_store unit :=
  if decide (ph_ValidatorAddress entry = "") then mret tt
  else modify (put_history (history_key (ph_ValidatorAddress entry) (ph_Height entry)) entry).

(** ** audit_metrics.go *)
Definition getLatestCascadeBytesFromAudit (supernodeAccount : string) (s : rw_store)
    : option (float64 * Z) :=
  if decide (supernodeAccount = "") then None else
  sn ← GetSuperNodeByAccount supernodeAccount (rw_sn s);
  valAddr ← ValAddressFromBech32 (ValidatorAddress sn);
  state ← GetMetricsState valAddr (rw_sn s);
  metrics ← ms_Metrics state;
  Some (CascadeKademliaDbBytes metrics, ms_Height state).
Definition isFreshByBlockHeight (currentHeight reportHeight maxBlocks : Z) : bool :=
  if reportHeight <=? 0 then false else
  if currentHeight <? reportHeight then false else
  if maxBlocks =? 0 then true else
  u64 (currentHeight - reportHeight) <=? maxBlocks.

(** The reward parameters; the keeper dereferences the pointer. *)
Definition reward_params (s : rw_store) : RewardDistribution :=
  default DefaultRewardDistribution (RewardDistributionParams (GetParams (rw_sn s))).
Definition payable_states : list SuperNodeState :=
  [SuperNodeStateActive; SuperNodeStateStorageFull].

(** The fresh report of a supernode. *)
Definition fresh_bytes (ctx : Ctx) (supernodeAccount : string) (s : rw_store) : option float64 :=
  '(rawBytes, reportHeight) ← getLatestCascadeBytesFromAudit supernodeAccount s;
  if isFreshByBlockHeight (BlockHeight ctx) reportHeight
       (MetricsFreshnessMaxBlocks (GetParams (rw_sn s)))
  then Some rawBytes else None.

(** ** distribution.go *)
Definition counted (ctx : Ctx) (s : rw_store) (sn : SuperNode) : bool :=
  let dist := reward_params s in
  match fresh_bytes ctx (SupernodeAccount sn) s with
  | None => false
  | Some rawBytes =>
      let smoothedBytes :=
        match GetSNDistState (ValidatorAddress sn) s with
        | None => rawBytes
        | Some distState =>
            applyEMA (SmoothedBytes distState)
              (applyGrowthCap rawBytes (PrevRawBytes distState) (UsageGrowthCapBpsPerPeriod dist))
              (MeasurementSmoothingPeriods dist)
        end in
      MinCascadeBytesForPayment dist <=? floatToUint64 smoothedBytes
  end.
Definition CountEligibleSNs (ctx : Ctx) (s : rw_store) : Z :=
  zlen (List.filter (counted ctx s) (GetAllSuperNodes payable_states (rw_sn s))).

Record snCandidate := {
  validatorAddr : string;
  supernodeAccount : string;
  rawBytes : float64;
  cappedBytes : float64;
  smoothedBytes : float64;
  rampWeight : float64;
  effectiveWeight : float64;
  distState : SNDistState
}.

(** What the loop computes for a supernode with a fresh report. *)
Definition candidate_of (ctx : Ctx) (s : rw_store) (sn : SuperNode) (raw : float64) : snCandidate :=
  let dist := reward_params s in
  let distState :=
    default (mkSNDistState f0 f0 (BlockHeight ctx) 0) (GetSNDistState (ValidatorAddress sn) s) in
  let capped := applyGrowthCap raw (PrevRawBytes distState) (UsageGrowthCapBpsPerPeriod dist) in
  let smoothed := applyEMA (SmoothedBytes distState) capped (MeasurementSmoothingPeriods dist) in
  let ramp := computeRampUpWeight (PeriodsActive distState) (NewSnRampUpPeriods dist) in
  {| validatorAddr := ValidatorAddress sn; supernodeAccount := SupernodeAccount sn;
     rawBytes := raw; cappedBytes := capped; smoothedBytes := smoothed; rampWeight := ramp;
     effectiveWeight := f64_mul smoothed ramp; distState := distState |}.
Definition below_minimum (s : rw_store) (c : snCandidate) : bool :=
  floatToUint64 (smoothedBytes c) <? MinCascadeBytesForPayment (reward_params s).
Definition next_state (c : snCandidate) : SNDistState :=
  mkSNDistState (smoothedBytes c) (rawBytes c) (EligibilityStartHeight (distState c))
    (u64 (PeriodsActive (distState c) + 1)).

Fixpoint build_candidates (ctx : Ctx) (sns : list SuperNode) : M rw_store (list snCandidate) :=
  match sns with
  | [] => mret []
  | sn :: sns' =>
      fresh ← gets (fresh_bytes ctx (SupernodeAccount sn));
      match fresh with
      | None => build_candidates ctx sns'
      | Some raw =>
          c ← gets (λ s, candidate_of ctx s sn raw);
          below ← gets (λ s, below_minimum s c);
          if (below : bool) then
            _ ← SetSNDistState (validatorAddr c) (next_state c);
            build_candidates ctx sns'
          else
            rest ← build_candidates ctx sns';
            mret (c :: rest)
      end
  end.

Definition legacyDecFromFloat64 (value : float64) : option Dec :=
  if f64_isNaN value || f64_isInf value || f64_ltb value f0 then None
  else dec_FromStr (FormatFloat_shortest value).

(** The payouts: recipient, amount and candidate. *)
Fixpoint payouts_of (pool : Z) (totalWeightDec : Dec) (cs : list snCandidate)
    : list (bytes * Z * snCandidate) :=
  match cs with
  | [] => []
  | c :: cs' =>
      let rest := payouts_of pool totalWeightDec cs' in
      match legacyDecFromFloat64 (effectiveWeight c) with
      | None => rest
      | Some weightDec =>
          let shareDec := dec_Quo weightDec totalWeightDec in
          let payoutAmount := dec_TruncateInt (dec_MulTruncate (dec_FromInt pool) shareDec) in
          if 0 <? payoutAmount then
            match AccAddressFromBech32 (supernodeAccount c) with
            | None => rest
            | Some recipientAddr => (recipientAddr, payoutAmount, c) :: rest
            end
          else rest
      end
  end.

Definition distribution_event (attrs : list (string * string)) : event :=
  Event EventTypeDistribution attrs.
Definition pay (ctx : Ctx) (p : bytes * Z * snCandidate) : M rw_store unit :=
  let '(addr, amount, c) := p in
  coin ← NewCoin everlightDenom amount;
  let coins := NewCoins coin in
  _ ← lift rw_bank put_bank (SendCoinsFromModuleToAccount sn_ModuleName addr coins);
  _ ← AppendPayoutHistoryEntry
        {| ph_Height := BlockHeight ctx; ph_ValidatorAddress := validatorAddr c;
           ph_SupernodeAccount := supernodeAccount c; ph_Amount := coins;
           ph_RawBytes := rawBytes c; ph_SmoothedBytes := smoothedBytes c;
           ph_EffectiveWeight := effectiveWeight c; ph_RampWeight := rampWeight c |};
  emit (distribution_event
          [("reward_recipient", AccAddress_String addr); ("reward_validator", validatorAddr c);
           ("reward_amount", FormatInt amount);
           ("reward_smoothed_bytes", FormatFloat_int (smoothedBytes c));
           ("reward_raw_bytes", FormatFloat_int (rawBytes c))]%string).

Definition total_weight (cs : list snCandidate) : float64 :=
  foldl (λ acc c, f64_add acc (effectiveWeight c)) f0 cs.
Definition total_paid (ps : list (bytes * Z * snCandidate)) : Z :=
  foldr (λ p acc, p.1.2 + acc) 0 ps.

Definition distributePool (ctx : Ctx) : M rw_store unit :=
  let currentHeight := BlockHeight ctx in
  poolBalance ← gets GetPoolBalance;
  let poolUlume := AmountOf poolBalance everlightDenom in
  if poolUlume =? 0 then
    _ ← emit (distribution_event [("reward_skip_reason", "pool_balance_zero");
                                  ("reward_pool_balance", "0")]%string);
    SetLastDistributionHeight currentHeight
  else
  supernodes ← gets (λ s, GetAllSuperNodes payable_states (rw_sn s));
  candidates ← build_candidates ctx supernodes;
  match candidates with
  | [] =>
      _ ← emit (distribution_event [("reward_skip_reason", "no_eligible_supernodes");
                                    ("reward_pool_balance", FormatInt poolUlume)]%string);
      SetLastDistributionHeight currentHeight
  | _ =>
      let totalWeight := total_weight candidates in
      if f64_leb totalWeight f0 then SetLastDistributionHeight currentHeight else
      totalWeightDec ← of_option (ErrOther "invalid total distribution weight")
                         (legacyDecFromFloat64 totalWeight);
      let payouts := payouts_of poolUlume totalWeightDec candidates in
      let totalDistributed := total_paid payouts in
      _ ← for_each (pay ctx) payouts;
      _ ← for_each (λ c, SetSNDistState (validatorAddr c) (next_state c)) candidates;
      coin ← NewCoin everlightDenom totalDistributed;
      _ ← AddTotalDistributed (NewCoins coin);
      _ ← SetLastDistributionHeight currentHeight;
      emit (distribution_event
              [("reward_eligible_count", FormatInt (zlen candidates));
               ("reward_total_payout", FormatInt totalDistributed);
               ("reward_pool_balance", FormatInt poolUlume)]%string)
  end.

(** ** abci.go *)
Definition distributeSuperNodeRewards (ctx : Ctx) : M rw_store unit :=
  dist ← gets reward_params;
  if PaymentPeriodBlocks dist =? 0 then mret tt else
  let currentHeight := BlockHeight ctx in
  lastDistHeight ← gets GetLastDistributionHeight;
  if (0 <? lastDistHeight) && (u64 (currentHeight - lastDistHeight) <? PaymentPeriodBlocks dist)
  then mret tt else
  if (lastDistHeight =? 0) && (currentHeight =? 0) then mret tt else
  distributePool ctx.
Definition sn_EndBlocker (ctx : Ctx) : M rw_store unit := distributeSuperNodeRewards ctx.

(** ** query_get_reward_eligibility.go

    The text of the address codec's error is left out of the reason. *)
Record QuerySNEligibilityResponse := {
  qe_Eligible : bool;
  qe_Reason : string;
  qe_CascadeKademliaDbBytes : float64;
  qe_SmoothedWeight : float64
}.
Definition not_eligible (reason : string) : QuerySNEligibilityResponse :=
  {| qe_Eligible := false; qe_Reason := reason; qe_CascadeKademliaDbBytes := f0;
     qe_SmoothedWeight := f0 |}.
Definition SNEligibility (ctx : Ctx) (validatorAddress : string) (s : rw_store)
    : QuerySNEligibilityResponse :=
  let dist := reward_params s in
  if decide (validatorAddress = "") then not_eligible "validator_address is required" else
  match ValAddressFromBech32 validatorAddress with
  | None => not_eligible "invalid validator address"
  | Some valAddr =>
      match QuerySuperNode valAddr (rw_sn s) with
      | None => not_eligible "supernode not found"
      | Some sn =>
          match LastState sn with
          | None => not_eligible "supernode has no state history"
          | Some lastState =>
              if negb (stateIn lastState payable_states)
              then not_eligible "supernode state is not eligible" else
              match getLatestCascadeBytesFromAudit (SupernodeAccount sn) s with
              | None => not_eligible "no audit epoch report found"
              | Some (rawBytes, reportHeight) =>
                  if negb (isFreshByBlockHeight (BlockHeight ctx) reportHeight
                             (MetricsFreshnessMaxBlocks (GetParams (rw_sn s))))
                  then {| qe_Eligible := false; qe_Reason := "audit report is stale";
                          qe_CascadeKademliaDbBytes := rawBytes; qe_SmoothedWeight := f0 |} else
                  let smoothedBytes :=
                    match GetSNDistState validatorAddress s with
                    | None => rawBytes
                    | Some distState =>
                        applyEMA (SmoothedBytes distState)
                          (applyGrowthCap rawBytes (PrevRawBytes distState)
                             (UsageGrowthCapBpsPerPeriod dist))
                          (MeasurementSmoothingPeriods dist)
                    end in
                  let below := floatToUint64 smoothedBytes <? MinCascadeBytesForPayment dist in
                  {| qe_Eligible := negb below;
                     qe_Reason := if below then "cascade bytes below minimum threshold"
                                  else "eligible";
                     qe_CascadeKademliaDbBytes := rawBytes;
                     qe_SmoothedWeight := smoothedBytes |}
              end
          end
      end
  end.
End Keeper.
