(* ===== verification/RewardThm.v ===== *)
(** * Properties of the reward distribution *)
From Stdlib Require Import ZArith Lia SpecFloat.
From stdpp Require Import base numbers strings list gmap.
From S2P Require Import Prelude Sdk Float FloatFmt FloatPos Bank SupernodeTypes Supernode.
From S2P Require Import SupernodeInv SupernodeParams Metrics Reward.
Open Scope Z_scope.

(** ** Values of the Go types *)
Record reward_typed (d : RewardDistribution) : Prop := {
  typed_min : in_u64 (MinCascadeBytesForPayment d);
  typed_ramp : in_u64 (NewSnRampUpPeriods d)
}.
Definition dist_typed (m : gmap string SNDistState) : Prop :=
  map_Forall (λ _ d, in_u64 (PeriodsActive d)) m.

(** ** Weights are positive *)
Lemma ramp_top pa ru :
  in_u64 pa → in_u64 ru → top_from (-67) (computeRampUpWeight pa ru).
Proof.
  intros Hpa Hru. unfold computeRampUpWeight, in_u64 in *.
  assert (top_from (-67) f1) as H1 by (vm_compute; congruence).
  destruct (Z.eqb_spec ru 0) as [|Hne]; [done|]. destruct (Z.leb_spec ru pa) as [|Hlt]; [done|].
  rewrite u64_small by (unfold in_u64; lia). destruct (of_Z_pos (pa + 1) ltac:(lia)) as [Ha _].
  destruct (of_Z_pos ru ltac:(lia)) as [_ Hb]. apply pos_top.
  by apply (div_pos _ _ (-1) 66); [apply pos_top|done|].
Qed.
Lemma payable_top f min : 1 ≤ min → (floatToUint64 f <? min) = false → top_from 0 f.
Proof.
  intros Hmin. unfold floatToUint64. destruct (f64_leb f f0 || f64_isNaN f) eqn:E1.
  { intros H%Z.ltb_ge. lia. }
  apply orb_false_iff in E1 as [Ele Enan].
  destruct (f64_isInf f || f64_ltb (f64_of_Z (2 ^ 64)) f) eqn:E2.
  - intros _. destruct f as [|[]| |[] m e]; try done. cbn [top_from].
    apply orb_true_iff in E2 as [?|E2]; [done|]. revert E2.
    unfold f64_ltb, SFltb. assert (f64_of_Z (2 ^ 64) = S754_finite false (2 ^ 52) 12) as ->
      by (vm_compute; reflexivity). cbn [SFcompare]. pose proof (Z.log2_nonneg (Zpos m)).
    destruct (Z.compare_spec 12 e) as [<-|?|?]; [lia|lia|done].
  - destruct (f64_trunc f <? 2 ^ 64) eqn:E3; intros H%Z.ltb_ge.
    + apply trunc_top. lia.
    + apply trunc_top. apply Z.ltb_ge in E3. lia.
Qed.

Section Rewards.
Context `{SdkAddress} `{AccAddressText} `{DecQuo} `{PayoutBank}.

Lemma reward_min s : reward_typed (reward_params s) → 1 ≤ MinCascadeBytesForPayment (reward_params s).
Proof.
  intros [[Hmin _] _]. unfold reward_params, GetParams, WithDefaults in *. simpl in *.
  assert (∀ v d, 0 < d → 0 ≤ unless_zero v d → 1 ≤ unless_zero v d) as Hu.
  { intros v d Hd. unfold unless_zero. destruct (Z.eqb_spec v 0); lia. }
  destruct (RewardDistributionParams (sn_params (rw_sn s))); simpl in *; [|lia]. by apply Hu.
Qed.

(** Weights of candidates are positive numbers. *)
Definition good_candidate (d : RewardDistribution) (c : snCandidate) : Prop :=
  (floatToUint64 (smoothedBytes c) <? MinCascadeBytesForPayment d) = false ∧
  in_u64 (PeriodsActive (distState c)) ∧
  rampWeight c = computeRampUpWeight (PeriodsActive (distState c)) (NewSnRampUpPeriods d) ∧
  effectiveWeight c = f64_mul (smoothedBytes c) (rampWeight c).
Lemma weight_positive d c :
  reward_typed d → 1 ≤ MinCascadeBytesForPayment d → good_candidate d c →
  positive_float (effectiveWeight c).
Proof.
  intros Hd Hmin (Hlow & Hpa & Hramp & ->). exists (-67).
  apply (mul_pos _ _ 0 (-67)); [by eapply payable_top| |done].
  rewrite Hramp. apply ramp_top; [done|apply Hd].
Qed.

(** ** The first loop *)
Definition same_registry (s s' : rw_store) : Prop :=
  rw_sn s' = rw_sn s ∧ rw_bank s' = rw_bank s.
Lemma fresh_same ctx a s s' : rw_sn s' = rw_sn s → fresh_bytes ctx a s' = fresh_bytes ctx a s.
Proof. intros E. unfold fresh_bytes, getLatestCascadeBytesFromAudit. by rewrite E. Qed.
Lemma params_same s s' : rw_sn s' = rw_sn s → reward_params s' = reward_params s.
Proof. intros E. unfold reward_params. by rewrite E. Qed.

(** Each fresh report has been written to the store or made a candidate. *)
Definition reported (ctx : Ctx) (s : rw_store) (cs : list snCandidate) (sn : SuperNode) : Prop :=
  ∀ raw, fresh_bytes ctx (SupernodeAccount sn) s = Some raw →
    json_float raw = true ∨ ∃ c, c ∈ cs ∧ rawBytes c = raw.

Lemma build_candidates_ok ctx sns s :
  dist_typed (rw_dist (store s)) →
  wp (build_candidates ctx sns) s (λ r s', same_registry (store s) (store s') ∧
    ∀ cs, r = Ok cs → Forall (reported ctx (store s) cs) sns ∧
      Forall (good_candidate (reward_params (store s))) cs).
Proof.
  revert s. induction sns as [|sn sns IH]; intros s Hd; cbn [build_candidates].
  { apply wp_ret. split; [done|]. by intros cs [= <-]. }
  apply wp_bind, wp_gets. destruct (fresh_bytes ctx (SupernodeAccount sn) (store s)) as [raw|] eqn:Ef.
  2: { eapply wp_mono; [by apply IH|]. intros r s' [Hs Hr]. split; [done|]. intros cs E.
       destruct (Hr cs E). split; [constructor; [|done]|done]. intros raw'. by rewrite Ef. }
  apply wp_bind, wp_gets. set (c := candidate_of ctx (store s) sn raw).
  apply wp_bind, wp_gets. destruct (below_minimum (store s) c) eqn:Eb.
  - apply wp_bind. unfold SetSNDistState. apply wp_bind, wp_ensure; intros Ej; [|by split].
    apply wp_modify. cbn [store events].
    set (s1 := put_dist _ _ _). assert (rw_sn s1 = rw_sn (store s)) as E1 by done.
    assert (dist_typed (rw_dist s1)) as Hd1.
    { apply map_Forall_insert_2; [apply u64_range|done]. }
    eapply wp_mono; [by apply (IH (St s1 (events s)))|]. intros r s' [Hs Hr]. cbn [store] in *.
    split; [by destruct Hs; split|]. intros cs E. destruct (Hr cs E) as [Hrep Hgood].
    rewrite (params_same _ _ E1) in Hgood. split; [|done]. constructor.
    + intros raw' E'. left. rewrite Ef in E'. injection E' as <-.
      apply andb_true_iff in Ej as [_ Ej]. exact Ej.
    + eapply Forall_impl; [done|]. intros sn' Hsn raw' E'. apply Hsn.
      by rewrite (fresh_same ctx _ (store s)).
  - apply wp_bind. eapply wp_mono; [by apply IH|]. intros [rest|e] s' [Hs Hr]; [|by split].
    apply wp_ret. split; [done|]. intros cs [= <-]. destruct (Hr rest eq_refl) as [Hrep Hgood].
    split; constructor.
    + intros raw' E'. rewrite Ef in E'. injection E' as <-. right. exists c. split; [left|done].
    + eapply Forall_impl; [done|]. intros sn' Hsn raw' E'.
      destruct (Hsn raw' E') as [?|(c' & Hc & ?)]; [by left|right]. exists c'. split; [by right|done].
    + split_and!; [done| |done|done]. simpl.
      destruct (GetSNDistState (ValidatorAddress sn) (store s)) as [d|] eqn:Eg; simpl; [|done].
      by apply (Hd _ _ Eg).
    + done.
Qed.

(** ** A report that is not a number *)
Definition fails {A} (m : M rw_store A) (s : st rw_store) : Prop := is_ok (m s).1 = false.

Lemma fails_bind {A B} (m : M rw_store A) (k : A → M rw_store B) s :
  wp m s (λ r s', ∀ a, r = Ok a → fails (k a) s') → fails (m ≫= k) s.
Proof.
  unfold wp, fails, mbind, M_bind. destruct (m s) as [[a|e] s']; simpl; [|done].
  intros Hk. by apply Hk.
Qed.
Lemma fails_any {A B} (m : M rw_store A) (k : A → M rw_store B) s :
  (∀ a s', fails (k a) s') → fails (m ≫= k) s.
Proof. intros Hk. apply fails_bind. intros a _. apply Hk. Qed.
Lemma fails_for_each {A} (f : A → M rw_store unit) x l s :
  x ∈ l → (∀ s', fails (f x) s') → fails (for_each f l) s.
Proof.
  intros Hx Hf. revert s Hx. induction l as [|y l IH]; intros s Hx; [by apply not_elem_of_nil in Hx|].
  cbn [for_each]. apply elem_of_cons in Hx as [<-|Hx].
  - specialize (Hf s). unfold fails, mbind, M_bind in *. by destruct (f x s) as [[]].
  - apply fails_any. intros _ s'. by apply IH.
Qed.

(** The block is one in which the pool is distributed. *)
Definition payment_due (ctx : Ctx) (s : rw_store) : bool :=
  negb (PaymentPeriodBlocks (reward_params s) =? 0)
  && negb ((0 <? rw_last s)
           && (u64 (BlockHeight ctx - rw_last s) <? PaymentPeriodBlocks (reward_params s)))
  && negb ((rw_last s =? 0) && (BlockHeight ctx =? 0)).
Lemma end_block_due ctx s :
  payment_due ctx (store s) = true → sn_EndBlocker ctx s = distributePool ctx s.
Proof.
  intros [[Hp Hl]%andb_true_iff Hz]%andb_true_iff. apply negb_true_iff in Hp, Hl, Hz.
  unfold sn_EndBlocker, distributeSuperNodeRewards. rewrite bind_gets, Hp, bind_gets.
  unfold GetLastDistributionHeight. by rewrite Hl, Hz.
Qed.

Lemma bad_report_fails ctx s sn raw :
  reward_typed (reward_params (store s)) → dist_typed (rw_dist (store s)) →
  AmountOf (GetPoolBalance (store s)) everlightDenom ≠ 0 →
  sn ∈ GetAllSuperNodes payable_states (rw_sn (store s)) →
  fresh_bytes ctx (SupernodeAccount sn) (store s) = Some raw → json_float raw = false →
  fails (distributePool ctx) s.
Proof.
  intros Hp Hd Hpool Hsn Hraw Hbad. unfold distributePool. apply fails_bind, wp_gets.
  intros pool [= <-]. rewrite (proj2 (Z.eqb_neq _ _) Hpool). apply fails_bind, wp_gets.
  intros sns [= <-]. apply fails_bind. eapply wp_mono; [by apply build_candidates_ok|].
  intros r s' [_ Hr] cs ->. destruct (Hr cs eq_refl) as [Hrep Hgood].
  rewrite Forall_forall in Hrep. destruct (Hrep sn Hsn raw Hraw) as [?|(c & Hc & Ec)]; [congruence|].
  destruct cs as [|c0 cs]; [by apply not_elem_of_nil in Hc|].
  assert (f64_leb (total_weight (c0 :: cs)) f0 = false) as ->.
  { apply positive_not_le. rewrite Forall_forall in Hgood.
    assert (∀ c, c ∈ c0 :: cs → positive_float (effectiveWeight c)) as Hpos.
    { intros c' Hc'. eapply weight_positive; [done|by apply reward_min|by apply Hgood]. }
    unfold total_weight. cbn [foldl]. apply sum_positive.
    - destruct (Hpos c0 ltac:(left)) as [k Hk]. exists k.
      by destruct (effectiveWeight c0) as [|[]| |[]].
    - intros c' Hc'. apply Hpos. by right. }
  apply fails_any. intros D s1. apply fails_any. intros [] s2. apply fails_bind.
  assert (fails (for_each (λ c, SetSNDistState (validatorAddr c) (next_state c)) (c0 :: cs)) s2) as Hf.
  { apply (fails_for_each _ c); [done|]. intros s3. unfold SetSNDistState, fails.
    assert (json_float (PrevRawBytes (next_state c)) = false) as Ej by (simpl; by rewrite Ec).
    by rewrite Ej, andb_false_r. }
  unfold wp. intros a Ea. unfold fails in Hf. by rewrite Ea in Hf.
Qed.

Lemma listed_payable s v sn st :
  sn_records s !! v = Some sn → LastState sn = Some st → stateIn st payable_states = true →
  sn ∈ GetAllSuperNodes payable_states s.
Proof.
  intros Hv Hl Hst. unfold GetAllSuperNodes. apply elem_of_List_filter. split.
  - rewrite Hl, Hst. apply orb_true_r.
  - apply list_elem_of_fmap. exists (v, sn). split; [done|]. by apply elem_of_kv_iter.
Qed.

Context `{!SdkAddressLaws} `{Semver}.

Lemma nonfinite_noncompliant params m :
  json_float (CascadeKademliaDbBytes m) = false → IsCompliant (evaluateCompliance params m) = false.
Proof.
  intros Hb. unfold json_float in Hb. apply negb_false_iff in Hb.
  assert ("invalid numeric value for cascade_kademlia_db_bytes"%string
    ∈ Issues (evaluateCompliance params m)) as Hin.
  { unfold evaluateCompliance. destruct (port_states (OpenPorts m)) as [ps pi]. cbn [Issues].
    repeat first [apply elem_of_app; left; unfold checkFinite, issue_if; rewrite Hb; left; fail 1
                 |apply elem_of_app; left; unfold checkFinite, issue_if; rewrite Hb;
                  apply list_elem_of_singleton; reflexivity
                 |apply elem_of_app; right]. }
  unfold IsCompliant. destruct (Issues _); [by apply not_elem_of_nil in Hin|done].
Qed.

(** The report of the registered account is stored whatever its metrics are. *)
Lemma report_stored ctx msg v sn s :
  sn_inv (store s) → sn_records (store s) !! v = Some sn →
  ValAddressFromBech32 (rep_ValidatorAddress msg) = Some v →
  rep_SupernodeAccount msg = SupernodeAccount sn →
  is_Some (AccAddressFromBech32 (SupernodeAccount sn)) →
  let result := evaluateCompliance (GetParams (store s)) (rep_Metrics msg) in
  ∃ count s1,
    ReportSupernodeMetrics ctx msg s = (Ok (IsCompliant result, AllIssues result), s1) ∧
    store s1 = set_metrics <[v := Build_SupernodeMetricsState (ValidatorAddress sn)
      (Some (rep_Metrics msg)) count (BlockHeight ctx)]> (store s).
Proof.
  intros [Hrec Hidx] Hv Hval Hacc Hdec result. destruct (Hrec v sn Hv) as [Hvalid Hself].
  pose proof (Validate_account_nonempty _ Hvalid) as Hne.
  assert (sn_accounts (store s) !! SupernodeAccount sn = Some v) as Hix by (apply Hidx; by exists sn).
  assert (MsgReportSupernodeMetrics_ValidateBasic msg = true) as Hbasic.
  { unfold MsgReportSupernodeMetrics_ValidateBasic. rewrite !andb_true_iff, !negb_true_iff,
      !bool_decide_eq_true, !bool_decide_eq_false, Hval, Hacc.
    split_and!; try done. intros E. by rewrite E, val_decode_empty in Hval. }
  eexists _, _. split.
  - unfold ReportSupernodeMetrics. rewrite bind_ensure by done. rewrite (bind_of_option _ _ v) by done.
    rewrite (bind_gets_option _ _ sn) by done.
    rewrite bind_ensure by (by rewrite bool_decide_eq_false_2).
    rewrite bind_ensure by (by rewrite bool_decide_eq_true_2). rewrite bind_gets, bind_gets.
    unfold SetMetricsState. cbn [ms_ValidatorAddress]. erewrite (bind_ok _ _ _ tt).
    2: { rewrite (bind_of_option _ _ v) by done. reflexivity. }
    erewrite (bind_ok _ _ _ tt) by (by apply (save_same v sn)).
    reflexivity.
  - done.
Qed.

(** C22. One supernode can stop the chain.  A metrics report whose stored bytes are
    NaN or infinite is answered as non-compliant and stored all the same; at the next
    payment, as long as the report is fresh and the pool is not empty, the end
    blocker fails, whatever the other supernodes report. *)
Theorem nonfinite_report_halts ctx msg v sn st s :
  sn_inv (store s) → sn_records (store s) !! v = Some sn →
  ValAddressFromBech32 (rep_ValidatorAddress msg) = Some v →
  rep_SupernodeAccount msg = SupernodeAccount sn →
  is_Some (AccAddressFromBech32 (SupernodeAccount sn)) →
  LastState sn = Some st → stateIn st payable_states = true →
  0 < BlockHeight ctx → json_float (CascadeKademliaDbBytes (rep_Metrics msg)) = false →
  ∃ issues s1, ReportSupernodeMetrics ctx msg s = (Ok (false, issues), s1) ∧
    ∀ ctx' w, rw_sn (store w) = store s1 →
      reward_typed (reward_params (store w)) → dist_typed (rw_dist (store w)) →
      BlockHeight ctx ≤ BlockHeight ctx' →
      u64 (BlockHeight ctx' - BlockHeight ctx) ≤ MetricsFreshnessMaxBlocks (GetParams (store s)) →
      payment_due ctx' (store w) = true →
      AmountOf (GetPoolBalance (store w)) everlightDenom ≠ 0 →
      is_ok (sn_EndBlocker ctx' w).1 = false.
Proof.
  intros Hinv Hv Hval Hacc Hdec Hl Hst Hh Hbad. pose proof Hinv as [Hrec Hidx].
  destruct (report_stored ctx msg v sn s Hinv Hv Hval Hacc Hdec) as (count & s1 & Hrun & Es1).
  rewrite nonfinite_noncompliant in Hrun by done. exists (AllIssues (evaluateCompliance
    (GetParams (store s)) (rep_Metrics msg))), s1. split; [done|].
  intros ctx' w Ew Hp Hd Hle Hfresh Hdue Hpool. rewrite (end_block_due _ _ Hdue).
  destruct (Hrec v sn Hv) as [Hvalid Hself]. pose proof (Validate_account_nonempty _ Hvalid) as Hne.
  assert (sn_accounts (store s) !! SupernodeAccount sn = Some v) as Hix by (apply Hidx; by exists sn).
  apply (bad_report_fails ctx' w sn (CascadeKademliaDbBytes (rep_Metrics msg))); try done.
  - rewrite Ew, Es1. by eapply listed_payable.
  - unfold fresh_bytes, getLatestCascadeBytesFromAudit. rewrite decide_False by done.
    unfold GetSuperNodeByAccount, GetMetricsState, QuerySuperNode. rewrite Ew, Es1.
    cbn [set_metrics sn_accounts sn_records sn_metrics]. rewrite Hix, Hv. rewrite decide_True by done.
    cbn [mbind option_bind]. rewrite Hself. cbn [mbind option_bind]. rewrite lookup_insert_eq.
    cbn [mbind option_bind ms_Metrics ms_Height]. unfold isFreshByBlockHeight.
    rewrite (proj2 (Z.leb_gt _ _)), (proj2 (Z.ltb_ge _ _)) by lia. rewrite (proj2 (Z.leb_le _ _)); [|exact Hfresh].
    by destruct (_ =? 0).
Qed.
End Rewards.
