(* ===== verification/RewardPay.v ===== *)
(** * The payouts of the reward distribution

    How the pool is divided: the payouts are proportional to the weights up to two
    units, and their sum never exceeds the pool. *)
From Stdlib Require Import ZArith Lia SpecFloat.
From stdpp Require Import base numbers strings list gmap.
From S2P Require Import Prelude Sdk Float FloatFmt FloatPos Bank SupernodeTypes Supernode.
From S2P Require Import SupernodeInv SupernodeParams Metrics Reward RewardThm.
Open Scope Z_scope.

(** ** Interfaces: what the payouts rely on *)
Class DecQuoLaws `{DecQuo} `{!LegacyDecLaws} : Prop := {
  (** a quotient is off by at most one unit of the last place *)
  raw_Quo d e :
    0 ≤ dec_raw d < 2 ^ 250 → 0 < dec_raw e →
    0 ≤ dec_raw (dec_Quo d e) ∧
    Z.abs (dec_raw (dec_Quo d e) * dec_raw e - dec_raw d * decPrecision) ≤ dec_raw e;
  (** a truncated product *)
  raw_MulTruncate d e :
    0 ≤ dec_raw d → 0 ≤ dec_raw e → dec_raw d * dec_raw e < 2 ^ 300 →
    dec_raw (dec_MulTruncate d e) = dec_raw d * dec_raw e / decPrecision;
  (** plain decimals of at most 18 places are read exactly, others are refused *)
  parse_decimal m k :
    0 ≤ m → -18 ≤ k → m * 10 ^ (k + 18) < 2 ^ 250 →
    ∃ d, dec_FromStr (decimal_text m k) = Some d ∧ dec_raw d = m * 10 ^ (k + 18);
  parse_places m k d : 0 ≤ m → dec_FromStr (decimal_text m k) = Some d → -18 ≤ k
}.
Class PayoutBankLaws `{PayoutBank} := {
  (** the bank's blocked addresses and those that a send restriction refuses *)
  refused : bytes → bool;
  all_balances b a d : AmountOf (GetAllBalances b a) d = GetBalance b a d;
  send_succeeds m a c b :
    refused a = false → 0 < Amount c ≤ GetBalance b (module_address m) (Denom c) →
    is_ok (SendCoinsFromModuleToAccount m a [c] b).1 = true;
  send_refused m a c b :
    refused a = true → is_ok (SendCoinsFromModuleToAccount m a [c] b).1 = false
}.

(** ** Error analysis of one share

    [w] of the total [W] in floating point, [t] the rounded sum of [n] weights, [d]
    and [D] the decimals of [w] and [t], [s] their quotient, all as integers. *)
Definition close (x w : Z) : Prop := 2 ^ 51 * Z.abs (x - w) ≤ w.

Section Share.
Context (w W t d D s n : Z).
Context (Hn : 0 ≤ n < 2 ^ 20) (Hw : 0 ≤ w) (Ht : 0 < t) (Hs : 0 ≤ s) (HD : 0 < D).
Context (Hlo : W * (2 ^ 53 - n) ≤ 2 ^ 53 * t) (Hhi : t * (2 ^ 53 - n) ≤ 2 ^ 53 * W).
Context (Hd : close (d * 2 ^ 1074) (w * 10 ^ 18)) (HDt : close (D * 2 ^ 1074) (t * 10 ^ 18)).
Context (Hq : Z.abs (s * D - d * 10 ^ 18) ≤ D).

Lemma share_upper : (s - 1) * (W * (2 ^ 53 - n) * (2 ^ 51 - 1)) ≤ w * 10 ^ 18 * ((2 ^ 51 + 1) * 2 ^ 53).
Proof.
  destruct (Z.le_gt_cases s 0) as [Hs0|Hs0].
  { assert (0 < W) by nia. nia. }
  unfold close in *. set (T := 10 ^ 18) in *. set (V := 2 ^ 1074) in *.
  assert (0 < T) as HT by done. assert (0 < V) as HV by done. clearbody T V.
  set (A := 2 ^ 53) in *. set (B := 2 ^ 51) in *.
  assert (A = 9007199254740992) as EA by reflexivity. assert (B = 2251799813685248) as EB by reflexivity.
  assert ((s - 1) * (D * V) ≤ d * V * T) as H1 by nia.
  assert (B * (d * V) ≤ w * T * (B + 1)) as H2 by nia.
  assert (t * T * (B - 1) ≤ B * (D * V)) as H3 by nia.
  clearbody A B.
  assert ((s - 1) * (t * T * (B - 1)) ≤ w * T * (B + 1) * T) as H4.
  { transitivity ((s - 1) * (B * (D * V))); [apply Z.mul_le_mono_nonneg_l; lia|].
    transitivity (B * (d * V) * T); [|apply Z.mul_le_mono_nonneg_r; lia].
    replace ((s - 1) * (B * (D * V))) with (B * ((s - 1) * (D * V))) by ring.
    replace (B * (d * V) * T) with (B * (d * V * T)) by ring. apply Z.mul_le_mono_nonneg_l; lia. }
  assert ((s - 1) * (t * (B - 1)) ≤ w * T * (B + 1)) as H5.
  { apply (Z.mul_le_mono_pos_r _ _ T); [done|]. 
    replace ((s - 1) * (t * (B - 1)) * T) with ((s - 1) * (t * T * (B - 1))) by ring. done. }
  transitivity ((s - 1) * (A * t * (B - 1))).
  - apply Z.mul_le_mono_nonneg_l; [lia|]. apply Z.mul_le_mono_nonneg_r; lia.
  - replace ((s - 1) * (A * t * (B - 1))) with (A * ((s - 1) * (t * (B - 1)))) by ring.
    replace (w * T * ((B + 1) * A)) with (A * (w * T * (B + 1))) by ring.
    apply Z.mul_le_mono_nonneg_l; lia.
Qed.

Lemma share_lower : w * 10 ^ 18 * ((2 ^ 51 - 1) * (2 ^ 53 - n)) ≤ (s + 1) * (W * 2 ^ 53 * (2 ^ 51 + 1)).
Proof.
  unfold close in *. set (T := 10 ^ 18) in *. set (V := 2 ^ 1074) in *.
  assert (0 < T) as HT by done. assert (0 < V) as HV by done. clearbody T V.
  set (A := 2 ^ 53) in *. set (B := 2 ^ 51) in *.
  assert (A = 9007199254740992) as EA by reflexivity. assert (B = 2251799813685248) as EB by reflexivity.
  assert (d * V * T ≤ (s + 1) * (D * V)) as H1 by nia.
  assert (w * T * (B - 1) ≤ B * (d * V)) as H2 by nia.
  assert (B * (D * V) ≤ t * T * (B + 1)) as H3 by nia.
  clearbody A B.
  assert (w * T * (B - 1) * T ≤ (s + 1) * (t * T * (B + 1))) as H4.
  { transitivity ((s + 1) * (B * (D * V))); [|apply Z.mul_le_mono_nonneg_l; lia].
    transitivity (B * (d * V) * T); [apply Z.mul_le_mono_nonneg_r; lia|].
    replace ((s + 1) * (B * (D * V))) with (B * ((s + 1) * (D * V))) by ring.
    replace (B * (d * V) * T) with (B * (d * V * T)) by ring. apply Z.mul_le_mono_nonneg_l; lia. }
  assert (w * T * (B - 1) ≤ (s + 1) * (t * (B + 1))) as H5.
  { apply (Z.mul_le_mono_pos_r _ _ T); [done|].
    replace ((s + 1) * (t * (B + 1)) * T) with ((s + 1) * (t * T * (B + 1))) by ring. done. }
  transitivity ((s + 1) * (t * (A - n) * (B + 1))).
  - replace (w * T * ((B - 1) * (A - n))) with ((A - n) * (w * T * (B - 1))) by ring.
    replace ((s + 1) * (t * (A - n) * (B + 1))) with ((A - n) * ((s + 1) * (t * (B + 1)))) by ring.
    apply Z.mul_le_mono_nonneg_l; lia.
  - apply Z.mul_le_mono_nonneg_l; [lia|]. apply Z.mul_le_mono_nonneg_r; lia.
Qed.
End Share.

(** ** From shares to payouts *)
Definition lowC (n : Z) : Z := (2 ^ 53 - n) * (2 ^ 51 - 1).
Definition highC : Z := (2 ^ 51 + 1) * 2 ^ 53.

(** The pool is small enough for the error of [n] roundings to stay below a unit. *)
Definition pool_ok (P n : Z) : Prop := 0 ≤ P ∧ 1 ≤ n < 2 ^ 20 ∧ P * (n + 6) ≤ 2 ^ 52.

Lemma error_small P n :
  pool_ok P n →
  0 < lowC n ∧ 0 ≤ highC - lowC n ∧ 10 * (P * n * lowC n) ≤ 10 ^ 18 * lowC n ∧
  100 * ((P + 3) * (highC - lowC n)) ≤ 70 * lowC n ∧ 10 * (P * highC) ≤ 10 ^ 18 * lowC n.
Proof.
  intros (HP & Hn & Hb). unfold lowC, highC.
  change (2 ^ 53) with 9007199254740992. change (2 ^ 51) with 2251799813685248.
  change (2 ^ 52) with 4503599627370496 in Hb. change (2 ^ 20) with 1048576 in Hn.
  change (10 ^ 18) with 1000000000000000000.
  assert (P * 7 ≤ 4503599627370496) as HP7.
  { transitivity (P * (n + 6)); [|done]. apply Z.mul_le_mono_nonneg_l; lia. }
  assert (P * n ≤ 4503599627370496) as HPn.
  { transitivity (P * (n + 6)); [|done]. apply Z.mul_le_mono_nonneg_l; lia. }
  split_and!; [lia|lia| | |].
  - replace (10 * (P * n * ((9007199254740992 - n) * (2251799813685248 - 1))))
      with (10 * (P * n) * ((9007199254740992 - n) * (2251799813685248 - 1))) by ring.
    apply Z.mul_le_mono_nonneg_r; lia.
  - replace ((P + 3) * ((2251799813685248 + 1) * 9007199254740992
        - (9007199254740992 - n) * (2251799813685248 - 1)))
      with (P * n * 2251799813685247 + P * 18014398509481984
            + 3 * (18014398509481984 + n * 2251799813685247)) by ring. lia.
  - lia.
Qed.

Lemma payout_close P n w W s amt :
  pool_ok P n → 0 ≤ w ≤ W → 0 < W → amt = P * s / 10 ^ 18 → 0 ≤ s →
  (s - 1) * (W * lowC n) ≤ w * 10 ^ 18 * highC →
  w * 10 ^ 18 * lowC n ≤ (s + 1) * (W * highC) →
  Z.abs (amt * W - P * w) ≤ 2 * W.
Proof.
  intros Hp Hw HW Ha Hs Hup Hlow. pose proof Hp as (HP & Hn & _).
  destruct (error_small P n Hp) as (Hc & Hce & He1 & He2 & He3).
  set (T := 10 ^ 18) in *. assert (0 < T) as HT by done.
  assert (amt * T ≤ P * s < (amt + 1) * T) as [Ha1 Ha2].
  { rewrite Ha. pose proof (Z.div_mod (P * s) T). pose proof (Z.mod_pos_bound (P * s) T HT). lia. }
  assert (0 ≤ amt) as Hamt by (rewrite Ha; apply Z.div_pos; [|done]; by apply Z.mul_nonneg_nonneg).
  clear Ha. set (c := lowC n) in *. set (e := highC) in *. clearbody T c e.
  assert (P * c ≤ P * n * c) as He0 by (apply Z.mul_le_mono_nonneg_r; [lia|]; nia).
  assert (P * (e - c) ≤ (P + 3) * (e - c)) as He4 by (apply Z.mul_le_mono_nonneg_r; lia).
  assert (0 < T * c) as HTc by (by apply Z.mul_pos_pos).
  assert (amt * W ≤ P * w + 2 * W) as Hu.
  { apply (Z.mul_le_mono_pos_r _ _ (T * c)); [done|].
    assert (amt * W * (T * c) ≤ P * s * (W * c)) as H1.
    { replace (amt * W * (T * c)) with (amt * T * (W * c)) by ring.
      apply Z.mul_le_mono_nonneg_r; [|done]. apply Z.mul_nonneg_nonneg; lia. }
    assert (P * ((s - 1) * (W * c)) ≤ P * (w * T * e)) as H2 by (by apply Z.mul_le_mono_nonneg_l).
    assert (w * (T * (P * (e - c))) ≤ W * (T * (P * (e - c)))) as H3.
    { apply Z.mul_le_mono_nonneg_r; [|lia]. repeat apply Z.mul_nonneg_nonneg; lia. }
    assert (W * (T * (P * (e - c)) + P * c) ≤ W * (2 * (T * c))) as H4; [|lia].
    apply Z.mul_le_mono_nonneg_l; [lia|].
    assert (T * (P * (e - c)) ≤ T * c) by (apply Z.mul_le_mono_nonneg_l; lia). lia. }
  assert (P * w ≤ amt * W + 2 * W) as Hl; [|lia].
  apply (Z.mul_le_mono_pos_r _ _ (T * c)); [done|].
  assert (amt ≤ P + 2) as Hamt2.
  { apply (Z.mul_le_mono_pos_r _ _ W); [done|]. assert (P * w ≤ P * W) by (apply Z.mul_le_mono_nonneg_l; lia). lia. }
  assert (P * (w * T * c) ≤ P * ((s + 1) * (W * e))) as H1 by (by apply Z.mul_le_mono_nonneg_l).
  assert (P * s * (W * e) ≤ (amt + 1) * T * (W * e)) as H2.
  { apply Z.mul_le_mono_nonneg_r; [|lia]. apply Z.mul_nonneg_nonneg; lia. }
  assert ((amt + 1) * (T * W * (e - c)) ≤ (P + 3) * (T * W * (e - c))) as H3.
  { apply Z.mul_le_mono_nonneg_r; [|lia]. repeat apply Z.mul_nonneg_nonneg; lia. }
  assert (W * (T * ((P + 3) * (e - c)) + P * e) ≤ W * (T * c)) as H4; [|lia].
  apply Z.mul_le_mono_nonneg_l; [lia|].
  assert (T * (100 * ((P + 3) * (e - c))) ≤ T * (70 * c)) by (apply Z.mul_le_mono_nonneg_l; lia). lia.
Qed.

Section Sum.
Context {A : Type} (amount weight : A → Z) (P W n : Z).
Definition bounded_share (x : A) : Prop :=
  ∃ s, amount x * 10 ^ 18 ≤ P * s ∧ (s - 1) * (W * lowC n) ≤ weight x * 10 ^ 18 * highC.
Definition sum_by (f : A → Z) (l : list A) : Z := foldr (λ x acc, f x + acc) 0 l.

Lemma shares_total l :
  0 ≤ P → 0 ≤ W * lowC n → Forall bounded_share l →
  sum_by amount l * 10 ^ 18 * (W * lowC n)
  ≤ P * (sum_by weight l * 10 ^ 18 * highC + Z.of_nat (length l) * (W * lowC n)).
Proof.
  intros HP HW. set (T := 10 ^ 18). set (e := highC). induction 1 as [|x l (s & Hs1 & Hs2) _ IH].
  { cbn [sum_by foldr length]. lia. }
  cbn [sum_by foldr length] in *. fold (sum_by amount l) in *. fold (sum_by weight l) in *.
  fold T e in Hs1, Hs2. rewrite Nat2Z.inj_succ. clearbody T e. set (k := W * lowC n) in *. clearbody k.
  assert (amount x * T * k ≤ P * s * k) as H1 by (by apply Z.mul_le_mono_nonneg_r).
  assert (P * ((s - 1) * k) ≤ P * (weight x * T * e)) as H2 by (by apply Z.mul_le_mono_nonneg_l).
  lia.
Qed.

(** The payouts never exceed the pool. *)
Lemma payouts_le_pool l :
  pool_ok P n → 0 < W → sum_by weight l ≤ W → Z.of_nat (length l) ≤ n →
  Forall bounded_share l → sum_by amount l ≤ P.
Proof.
  intros Hp HW Hsum Hlen Hl. pose proof Hp as (HP & Hn & _).
  destruct (error_small P n Hp) as (Hc & Hce & He1 & He2 & _).
  pose proof (shares_total l HP ltac:(apply Z.mul_nonneg_nonneg; lia) Hl) as Ht. revert Ht He1.
  set (T := 10 ^ 18). set (e := highC) in *. set (c := lowC n) in *. assert (0 < T) as HT by done.
  intros Ht He1.
  destruct (Z.le_gt_cases (sum_by amount l) P) as [?|Hgt]; [done|exfalso].
  clearbody T c e. set (m := sum_by amount l) in *. set (v := sum_by weight l) in *.
  assert (P * (v * T * e) ≤ P * (W * T * e)) as H1.
  { apply Z.mul_le_mono_nonneg_l; [done|]. apply Z.mul_le_mono_nonneg_r; [lia|].
    apply Z.mul_le_mono_nonneg_r; lia. }
  assert (P * (Z.of_nat (length l) * (W * c)) ≤ P * (n * (W * c))) as H2.
  { apply Z.mul_le_mono_nonneg_l; [done|]. apply Z.mul_le_mono_nonneg_r; [|done].
    apply Z.mul_nonneg_nonneg; lia. }
  assert ((P + 1) * (T * (W * c)) ≤ m * (T * (W * c))) as H3.
  { apply Z.mul_le_mono_nonneg_r; [|lia]. repeat apply Z.mul_nonneg_nonneg; lia. }
  assert (W * (T * c) ≤ W * (T * (P * (e - c)) + P * n * c)) as H4 by lia.
  apply Z.mul_le_mono_pos_l in H4; [|done].
  assert (P * (e - c) ≤ (P + 3) * (e - c)) as H5 by (apply Z.mul_le_mono_nonneg_r; lia).
  assert (T * (100 * ((P + 3) * (e - c))) ≤ T * (70 * c)) as H6 by (apply Z.mul_le_mono_nonneg_l; lia).
  assert (T * (P * (e - c)) ≤ T * ((P + 3) * (e - c))) as H7 by (by apply Z.mul_le_mono_nonneg_l; lia).
  assert (0 < T * c) by (by apply Z.mul_pos_pos). lia.
Qed.
End Sum.

(** ** The candidates *)
Section Candidates.
Context `{SdkAddress} `{AccAddressText} `{DecQuo} `{PayoutBank}.

Definition candidate (ctx : Ctx) (s : rw_store) (sn : SuperNode) : option snCandidate :=
  raw ← fresh_bytes ctx (SupernodeAccount sn) s;
  let c := candidate_of ctx s sn raw in
  if below_minimum s c then None else Some c.
Definition candidates (ctx : Ctx) (s : rw_store) : list snCandidate :=
  omap (candidate ctx s) (GetAllSuperNodes payable_states (rw_sn s)).

(** What a supernode reports, and the average of it, are numbers. *)
Definition finite_report (ctx : Ctx) (s : rw_store) (sn : SuperNode) : Prop :=
  ∀ raw, fresh_bytes ctx (SupernodeAccount sn) s = Some raw →
    json_float raw = true ∧ json_float (smoothedBytes (candidate_of ctx s sn raw)) = true.

Lemma candidate_of_same ctx s s' sn raw :
  rw_sn s' = rw_sn s → rw_dist s' !! ValidatorAddress sn = rw_dist s !! ValidatorAddress sn →
  candidate_of ctx s' sn raw = candidate_of ctx s sn raw.
Proof. intros E Ed. unfold candidate_of, GetSNDistState. by rewrite Ed, (params_same _ _ E). Qed.
Lemma candidate_same ctx s s' sn :
  rw_sn s' = rw_sn s → rw_dist s' !! ValidatorAddress sn = rw_dist s !! ValidatorAddress sn →
  candidate ctx s' sn = candidate ctx s sn.
Proof.
  intros E Ed. unfold candidate. rewrite (fresh_same _ _ _ _ E). destruct (fresh_bytes _ _ _); [|done].
  cbn [mbind option_bind]. unfold below_minimum.
  by rewrite (candidate_of_same _ _ _ _ _ E Ed), (params_same _ _ E).
Qed.
Lemma finite_same ctx s s' sn :
  rw_sn s' = rw_sn s → rw_dist s' !! ValidatorAddress sn = rw_dist s !! ValidatorAddress sn →
  finite_report ctx s sn → finite_report ctx s' sn.
Proof.
  intros E Ed Hf raw. rewrite (fresh_same _ _ _ _ E), (candidate_of_same _ _ _ _ _ E Ed). apply Hf.
Qed.

Lemma candidate_fresh ctx s sn raw :
  fresh_bytes ctx (SupernodeAccount sn) s = Some raw →
  candidate ctx s sn = if below_minimum s (candidate_of ctx s sn raw) then None
                       else Some (candidate_of ctx s sn raw).
Proof. intros E. unfold candidate. by rewrite E. Qed.
Lemma candidates_cons ctx s sn sns :
  omap (candidate ctx s) (sn :: sns) =
  match candidate ctx s sn with Some c => [c] | None => [] end ++ omap (candidate ctx s) sns.
Proof. simpl. by destruct (candidate ctx s sn). Qed.

(** Only the averages change. *)
Definition only_dist (s s' : st rw_store) : Prop :=
  ∃ d, s' = St (RwStore (rw_sn (store s)) (rw_bank (store s)) (rw_last (store s))
                  (rw_total (store s)) d (rw_history (store s))) (events s).

Lemma build_candidates_spec ctx sns s :
  NoDup (ValidatorAddress <$> sns) →
  wp (build_candidates ctx sns) s (λ r s', only_dist s s' ∧
    (∀ cs, r = Ok cs → cs = omap (candidate ctx (store s)) sns) ∧
    (Forall (finite_report ctx (store s)) sns → is_ok r = true)).
Proof.
  revert s. induction sns as [|sn sns IH]; intros s Hnd; cbn [build_candidates].
  { apply wp_ret. split_and!; [by exists (rw_dist (store s)); destruct s as [[]]| |done].
    by intros cs [= <-]. }
  rewrite fmap_cons in Hnd. apply NoDup_cons in Hnd as [Hni Hnd].
  apply wp_bind, wp_gets. destruct (fresh_bytes ctx (SupernodeAccount sn) (store s)) as [raw|] eqn:Ef.
  2: { eapply wp_mono; [by apply IH|]. intros r s' (Hs & Hr & Hok). split_and!; [done| |].
       - intros cs E. rewrite (Hr cs E), candidates_cons. unfold candidate at 2. by rewrite Ef.
       - intros Hf. inv Hf. by apply Hok. }
  apply wp_bind, wp_gets. set (c := candidate_of ctx (store s) sn raw).
  apply wp_bind, wp_gets. destruct (below_minimum (store s) c) eqn:Eb.
  - apply wp_bind. unfold SetSNDistState. apply wp_bind, wp_ensure; intros Ej.
    2: { split_and!; [by exists (rw_dist (store s)); destruct s as [[]]|done|]. intros Hf. inv Hf.
         match goal with Hf : finite_report _ _ sn |- _ => destruct (Hf raw Ef) as [Hj1 Hj2] end.
         unfold next_state in Ej. cbn [SmoothedBytes PrevRawBytes] in Ej.
         change (rawBytes c) with raw in Ej. fold c in Hj2. by rewrite Hj1, Hj2 in Ej. }
    apply wp_modify. cbn [store events]. set (s1 := put_dist _ _ _).
    assert (∀ sn', sn' ∈ sns → rw_dist s1 !! ValidatorAddress sn' = rw_dist (store s) !! ValidatorAddress sn')
      as Hd.
    { intros sn' Hin. unfold s1. cbn [put_dist rw_dist]. apply lookup_insert_ne. simpl. intros E.
      apply Hni. rewrite E. by apply list_elem_of_fmap_2. }
    eapply wp_mono; [by apply (IH (St s1 (events s)))|]. intros r s' (Hs & Hr & Hok). cbn [store] in *.
    split_and!.
    + destruct Hs as [d ->]. by exists d.
    + intros cs E. rewrite (Hr cs E), candidates_cons, (candidate_fresh _ _ _ _ Ef).
      fold c. rewrite Eb. apply list_omap_ext. apply Forall2_same_length_lookup_2; [done|].
      intros i x y Hx Hy. rewrite Hx in Hy. injection Hy as <-.
      apply candidate_same; [done|]. apply Hd. by eapply list_elem_of_lookup_2.
    + intros Hf. inv Hf. apply Hok. apply Forall_forall. intros sn' Hin.
      eapply finite_same; [| |by eapply Forall_forall]; [done|by apply Hd].
  - apply wp_bind. eapply wp_mono; [by apply IH|]. intros [rest|e] s' (Hs & Hr & Hok).
    + apply wp_ret. split_and!; [done| |done]. intros cs [= <-].
      rewrite candidates_cons, (candidate_fresh _ _ _ _ Ef). fold c. rewrite Eb. cbn [app]. f_equal. by apply Hr.
    + split_and!; [done|done|]. intros Hf. inv Hf. by apply Hok.
Qed.

Lemma GetAllSuperNodes_NoDup fs s :
  records_ok s → NoDup (ValidatorAddress <$> GetAllSuperNodes fs s).
Proof.
  intros Hr. unfold GetAllSuperNodes. set (f := λ sn : SuperNode, _ : bool).
  assert (∀ l : list (bytes * SuperNode), NoDup l.*1 → (∀ v sn, (v, sn) ∈ l → sn_records s !! v = Some sn) →
    NoDup (ValidatorAddress <$> List.filter f l.*2)) as Hl.
  { induction l as [|[v sn] l IH]; intros Hnd Hin; [constructor|]. rewrite !fmap_cons in *. cbn [fst snd] in *.
    apply NoDup_cons in Hnd as [Hni Hnd].
    assert (NoDup (ValidatorAddress <$> List.filter f l.*2)) as IHl.
    { apply IH; [done|]. intros v' sn' Hv'. apply Hin. by right. }
    cbn [List.filter]. destruct (f sn); [|done]. rewrite fmap_cons. apply NoDup_cons. split; [|done].
    intros (sn' & E & Hsn')%list_elem_of_fmap. apply elem_of_List_filter in Hsn' as [_ Hsn'].
    apply list_elem_of_fmap in Hsn' as ([v' sn''] & -> & Hv'). cbn [snd] in E.
    destruct (Hr v sn (Hin v sn ltac:(left))) as [_ Hd].
    destruct (Hr v' sn'' (Hin v' sn'' ltac:(by right))) as [_ Hd'].
    rewrite E in Hd. assert (v = v') as -> by congruence. apply Hni.
    apply list_elem_of_fmap. by exists (v', sn''). }
  apply Hl; [apply NoDup_kv_iter_keys|]. intros v sn. by apply elem_of_kv_iter.
Qed.
End Candidates.

(** ** Eligibility *)
Section Eligibility.
Context `{SdkAddress} `{AccAddressText} `{DecQuo} `{PayoutBank} `{!SdkAddressLaws}.

(** The average that the query and the count compute. *)
Definition queried_bytes (s : rw_store) (validatorAddress : string) (raw : float64) : float64 :=
  match GetSNDistState validatorAddress s with
  | None => raw
  | Some d => applyEMA (SmoothedBytes d)
                (applyGrowthCap raw (PrevRawBytes d) (UsageGrowthCapBpsPerPeriod (reward_params s)))
                (MeasurementSmoothingPeriods (reward_params s))
  end.
Lemma queried_smoothed ctx s sn raw :
  queried_bytes s (ValidatorAddress sn) raw = smoothedBytes (candidate_of ctx s sn raw).
Proof.
  unfold queried_bytes, candidate_of. cbn [smoothedBytes].
  destruct (GetSNDistState (ValidatorAddress sn) s) as [d|]; [done|]. cbn [default SmoothedBytes PrevRawBytes].
  unfold applyEMA, applyGrowthCap. change (f64_leb f0 f0) with true. cbn iota. by destruct (_ =? 0).
Qed.

Lemma counted_candidate ctx s sn :
  counted ctx s sn = match candidate ctx s sn with Some _ => true | None => false end.
Proof.
  unfold counted. destruct (fresh_bytes ctx (SupernodeAccount sn) s) as [raw|] eqn:Ef.
  - rewrite (candidate_fresh _ _ _ _ Ef). fold (queried_bytes s (ValidatorAddress sn) raw).
    rewrite (queried_smoothed ctx). unfold below_minimum. rewrite Z.leb_antisym. by destruct (_ <? _).
  - unfold candidate. by rewrite Ef.
Qed.
Lemma CountEligibleSNs_candidates ctx s : CountEligibleSNs ctx s = zlen (candidates ctx s).
Proof.
  unfold CountEligibleSNs, candidates, zlen. f_equal.
  induction (GetAllSuperNodes payable_states (rw_sn s)) as [|sn sns IH]; [done|].
  rewrite candidates_cons. cbn [List.filter]. rewrite counted_candidate.
  destruct (candidate ctx s sn); cbn [app length]; by rewrite IH.
Qed.

Lemma elem_of_candidates ctx s c :
  records_ok (rw_sn s) →
  c ∈ candidates ctx s ↔ ∃ v sn st, sn_records (rw_sn s) !! v = Some sn ∧ LastState sn = Some st ∧
    stateIn st payable_states = true ∧ candidate ctx s sn = Some c.
Proof.
  intros Hr. unfold candidates. rewrite list_elem_of_omap. split.
  - intros (sn & Hsn & Hc). apply elem_of_List_filter in Hsn as [Hf Hin].
    apply list_elem_of_fmap in Hin as ([v sn'] & -> & Hv). apply elem_of_kv_iter in Hv.
    cbn [snd] in *. destruct (LastState sn') as [st|] eqn:El; [|done]. by exists v, sn', st.
  - intros (v & sn & st & Hv & Hl & Hst & Hc). exists sn. split; [|done]. by eapply listed_payable.
Qed.
Lemma candidate_address ctx s sn c : candidate ctx s sn = Some c → validatorAddr c = ValidatorAddress sn.
Proof.
  unfold candidate. destruct (fresh_bytes _ _ _); [|done]. cbn [mbind option_bind].
  destruct (below_minimum _ _); [done|]. by intros [= <-].
Qed.
Lemma candidate_of_record ctx s c v sn :
  records_ok (rw_sn s) → sn_records (rw_sn s) !! v = Some sn → c ∈ candidates ctx s →
  validatorAddr c = ValidatorAddress sn →
  candidate ctx s sn = Some c ∧ ∃ st, LastState sn = Some st ∧ stateIn st payable_states = true.
Proof.
  intros Hr Hv Hc E. apply elem_of_candidates in Hc as (v' & sn' & st & Hv' & Hl & Hst & Hc); [|done].
  rewrite (candidate_address _ _ _ _ Hc) in E. destruct (Hr _ _ Hv) as [_ Hd], (Hr _ _ Hv') as [_ Hd'].
  rewrite E in Hd'. assert (v' = v) as -> by congruence. assert (sn' = sn) as -> by congruence.
  split; [done|]. by exists st.
Qed.

Lemma eligibility_query ctx s v sn :
  records_ok (rw_sn s) → sn_records (rw_sn s) !! v = Some sn →
  let q := SNEligibility ctx (ValidatorAddress sn) s in
  match LastState sn with
  | Some st =>
      if stateIn st payable_states then
        match candidate ctx s sn with
        | Some c => qe_Eligible q = true ∧ qe_SmoothedWeight q = smoothedBytes c
        | None => qe_Eligible q = false
        end
      else qe_Eligible q = false
  | None => qe_Eligible q = false
  end.
Proof.
  intros Hr Hv q. destruct (Hr v sn Hv) as [_ Hd]. unfold q, SNEligibility.
  rewrite decide_False by (intros E; rewrite E, val_decode_empty in Hd; done). rewrite Hd.
  unfold QuerySuperNode. rewrite Hv. destruct (LastState sn) as [st|]; [|done].
  destruct (stateIn st payable_states); [|done]. cbn [negb]. unfold candidate, fresh_bytes.
  destruct (getLatestCascadeBytesFromAudit _ _) as [[raw h]|]; [|done]. cbn [mbind option_bind].
  destruct (isFreshByBlockHeight _ _ _); [|done]. cbn [negb mbind option_bind].
  fold (queried_bytes s (ValidatorAddress sn) raw). rewrite (queried_smoothed ctx).
  unfold below_minimum. by destruct (_ <? _).
Qed.

(** C39. The eligibility query agrees with the payments.  When the distribution forms
    its list of candidates, their number is the one that the pool query reports, and
    the eligibility query, asked for the address of a registered supernode, answers
    yes exactly for the candidates, with the average the payment is made by. *)
Theorem eligibility_agrees ctx s s' cs :
  sn_inv (rw_sn (store s)) →
  build_candidates ctx (GetAllSuperNodes payable_states (rw_sn (store s))) s = (Ok cs, s') →
  CountEligibleSNs ctx (store s) = zlen cs ∧
  ∀ v sn, sn_records (rw_sn (store s)) !! v = Some sn →
    let q := SNEligibility ctx (ValidatorAddress sn) (store s) in
    (qe_Eligible q = true ↔ ∃ c, c ∈ cs ∧ validatorAddr c = ValidatorAddress sn) ∧
    (∀ c, c ∈ cs → validatorAddr c = ValidatorAddress sn → qe_SmoothedWeight q = smoothedBytes c).
Proof.
  intros [Hr _] Hrun.
  pose proof (build_candidates_spec ctx _ s (GetAllSuperNodes_NoDup payable_states _ Hr)) as Hb.
  unfold wp in Hb. rewrite Hrun in Hb. destruct Hb as (_ & Hcs & _). specialize (Hcs cs eq_refl).
  fold (candidates ctx (store s)) in Hcs. subst cs.
  split; [apply CountEligibleSNs_candidates|]. intros v sn Hv q.
  pose proof (eligibility_query ctx (store s) v sn Hr Hv) as Hq. fold q in Hq. split; [split|].
  - intros Hel. destruct (LastState sn) as [st|] eqn:El; [|congruence].
    destruct (stateIn st payable_states) eqn:Es; [|congruence].
    destruct (candidate ctx (store s) sn) as [c|] eqn:Ec; [|congruence]. exists c. split.
    + apply elem_of_candidates; [done|]. by exists v, sn, st.
    + by eapply candidate_address.
  - intros (c & Hc & E). destruct (candidate_of_record _ _ _ _ _ Hr Hv Hc E) as (Ec & st & El & Es).
    rewrite El, Es, Ec in Hq. apply Hq.
  - intros c Hc E. destruct (candidate_of_record _ _ _ _ _ Hr Hv Hc E) as (Ec & st & El & Es).
    rewrite El, Es, Ec in Hq. apply Hq.
Qed.
End Eligibility.

(** ** The payment *)
Section Payment.
Context `{SdkAddress} `{AccAddressText} `{DecQuo} `{!LegacyDecLaws} `{!DecQuoLaws}.
Context `{PayoutBank} `{!BankLaws} `{!PayoutBankLaws}.

Abbreviation weight c := (fval (effectiveWeight c)) (only parsing).
Definition weights (cs : list snCandidate) : Z := sum_by (λ c, weight c) cs.
(** A non-negative number below 2^128 *)
Definition small_weight (f : float64) : Prop := nonneg_finite f ∧ fval f < 2 ^ 1202.

(** *** Weights as decimals *)
Lemma finite_dec f : nonneg_finite f → legacyDecFromFloat64 f = dec_FromStr (FormatFloat_shortest f).
Proof. by destruct f as [| | |[]]. Qed.

Lemma close_bound x w : 0 ≤ x → close x w → x ≤ 2 * w.
Proof. unfold close. lia. Qed.

Lemma small_decimal f m k :
  fval f < 2 ^ 1202 → close (m * 10 ^ (k + 18) * 2 ^ 1074) (fval f * 10 ^ 18) →
  0 ≤ m * 10 ^ (k + 18) → m * 10 ^ (k + 18) < 2 ^ 250.
Proof.
  intros Hb Hc Hnn. set (d := m * 10 ^ (k + 18)) in *. set (V := 2 ^ 1074) in *.
  assert (0 < V) as HV by done. assert (2 ^ 1202 = 2 ^ 128 * V) as E by reflexivity.
  assert (d * V ≤ 2 * (fval f * 10 ^ 18)) as Hle.
  { apply close_bound; [|done]. apply Z.mul_nonneg_nonneg; [done|lia]. }
  assert (2 * 10 ^ 18 * 2 ^ 128 < 2 ^ 250) as Hlt by reflexivity. rewrite E in Hb.
  set (c1 := 2 ^ 128) in *. set (c2 := 2 ^ 250) in *. set (t := 10 ^ 18) in *. assert (0 < t) by done.
  clearbody V d c1 c2 t. nia.
Qed.

Lemma dec_close f d :
  small_weight f → legacyDecFromFloat64 f = Some d →
  0 ≤ dec_raw d < 2 ^ 250 ∧ close (dec_raw d * 2 ^ 1074) (fval f * 10 ^ 18).
Proof.
  intros [Hf Hb]. rewrite finite_dec by done. unfold FormatFloat_shortest.
  assert (fval f < 2 ^ 2000) as Hb2 by (eapply Z.lt_trans; [done|vm_compute; reflexivity]).
  pose proof (shortest_spec f Hf Hb2) as Hsh. destruct (shortest f) as [m k].
  destruct Hsh as (Hm & Hc & _). intros Hd. pose proof (parse_places m k d Hm Hd) as Hk.
  specialize (Hc Hk). assert (0 ≤ m * 10 ^ (k + 18)) as Hnn.
  { apply Z.mul_nonneg_nonneg; [done|]. apply Z.pow_nonneg. lia. }
  pose proof (small_decimal f m k Hb Hc Hnn) as Hs.
  destruct (parse_decimal m k Hm Hk Hs) as (d' & Hd' & E). rewrite Hd in Hd'. injection Hd' as <-.
  rewrite E. by split.
Qed.
Lemma dec_exists f :
  small_weight f → 2 ^ 1074 ≤ fval f → ∃ d, legacyDecFromFloat64 f = Some d ∧ 0 < dec_raw d.
Proof.
  intros [Hf Hb] Hone. rewrite finite_dec by done. unfold FormatFloat_shortest.
  assert (fval f < 2 ^ 2000) as Hb2 by (eapply Z.lt_trans; [done|vm_compute; reflexivity]).
  pose proof (shortest_spec f Hf Hb2) as Hsh. destruct (shortest f) as [m k].
  destruct Hsh as (Hm & Hc & Hk). destruct (Hk Hone) as [Hk17 Hmpos]. specialize (Hc ltac:(lia)).
  assert (0 < 10 ^ (k + 18)) as Hp by (apply Z.pow_pos_nonneg; lia).
  assert (0 < m * 10 ^ (k + 18)) as Hnn by (by apply Z.mul_pos_pos).
  pose proof (small_decimal f m k Hb Hc ltac:(lia)) as Hs.
  destruct (parse_decimal m k Hm ltac:(lia) Hs) as (d & Hd & E). exists d. split; [done|]. by rewrite E.
Qed.

Section Division.
Context (P : Z) (cs : list snCandidate) (D : Dec).
Context (Hp : pool_ok P (zlen cs)) (Hfin : ∀ c, c ∈ cs → nonneg_finite (effectiveWeight c)).
Context (HW : 2 ^ 1075 ≤ weights cs < 2 ^ 1201).

Lemma weight_le c l : c ∈ l → 0 ≤ weight c ≤ weights l.
Proof.
  induction l as [|x l IH]; intros Hc; [by apply not_elem_of_nil in Hc|].
  unfold weights in *. cbn [sum_by foldr] in *. fold (sum_by (λ c, weight c) l) in *.
  assert (0 ≤ sum_by (λ c, weight c) l) as Hs.
  { clear. induction l as [|x l IH]; [done|]. cbn [sum_by foldr]. pose proof (fval_nonneg (effectiveWeight x)).
    unfold sum_by in IH. lia. }
  pose proof (fval_nonneg (effectiveWeight x)). apply elem_of_cons in Hc as [->|Hc]; [lia|].
  specialize (IH Hc). lia.
Qed.
Lemma candidate_small c : c ∈ cs → small_weight (effectiveWeight c).
Proof.
  intros Hc. split; [by apply Hfin|]. pose proof (weight_le c cs Hc).
  assert (2 ^ 1201 < 2 ^ 1202) by (vm_compute; reflexivity). lia.
Qed.

Lemma total_close :
  partial_sum (weights cs) (zlen cs) (total_weight cs) ∧
  2 ^ 1074 ≤ fval (total_weight cs) < 2 ^ 1202 ∧ weights cs ≤ 2 * fval (total_weight cs).
Proof.
  destruct Hp as (_ & Hn & _).
  assert (partial_sum (weights cs) (zlen cs) (total_weight cs)) as Hsum.
  { apply (sum_of effectiveWeight cs f0 0 0); [done|done|unfold zlen in Hn; lia| |done|].
    - rewrite Z.add_0_l. change (weights cs < 2 ^ 1999).
      assert (2 ^ 1201 < 2 ^ 1999) by (vm_compute; reflexivity). lia.
    - by split. }
  split; [done|]. destruct Hsum as (_ & Hlo & Hhi). set (t := fval (total_weight cs)) in *.
  set (W := weights cs) in *. assert (0 ≤ t) as Ht by apply fval_nonneg.
  change (2 ^ 53) with 9007199254740992 in *. change (2 ^ 20) with 1048576 in Hn.
  assert (2 ^ 1075 = 2 * 2 ^ 1074) as E1 by reflexivity. assert (2 ^ 1202 = 2 * 2 ^ 1201) as E2 by reflexivity.
  rewrite E1 in HW. rewrite E2. assert (0 < 2 ^ 1074) as HV by done.
  set (V := 2 ^ 1074) in *. set (U := 2 ^ 1201) in *. set (n := zlen cs) in *.
  clearbody V U n t W. assert (W ≤ 2 * t) by nia. split; [split; [lia|nia]|done].
Qed.

Context (HD : legacyDecFromFloat64 (total_weight cs) = Some D).

Lemma share_spec c d :
  c ∈ cs → legacyDecFromFloat64 (effectiveWeight c) = Some d →
  let s := dec_raw (dec_Quo d D) in
  0 ≤ s ∧ dec_TruncateInt (dec_MulTruncate (dec_FromInt P) (dec_Quo d D)) = P * s / 10 ^ 18 ∧
  (s - 1) * (weights cs * lowC (zlen cs)) ≤ weight c * 10 ^ 18 * highC ∧
  weight c * 10 ^ 18 * lowC (zlen cs) ≤ (s + 1) * (weights cs * highC).
Proof.
  intros Hc Hd s. destruct total_close as ((Hft & Hlo & Hhi) & Ht & HWt).
  pose proof Hp as (HP & Hn & HPn). pose proof (weight_le c cs Hc) as Hw.
  destruct (dec_close _ _ (candidate_small c Hc) Hd) as [Hdr Hdc].
  assert (small_weight (total_weight cs)) as Hst by (split; [done|apply Ht]).
  destruct (dec_close (total_weight cs) D Hst HD) as [HDr HDc].
  assert (0 < dec_raw D) as HDpos.
  { destruct (dec_exists (total_weight cs) Hst) as (D' & HD' & HDp); [apply Ht|]. congruence. }
  destruct (raw_Quo d D Hdr HDpos) as [Hs Hq]. fold s in Hs, Hq.
  set (T := 10 ^ 18) in *. change decPrecision with T in Hq.
  assert (0 < 2 ^ 1074) as HV by done. set (V := 2 ^ 1074) in *.
  assert (T = 1000000000000000000) as ET by reflexivity.
  assert (s ≤ 8 * T + 1) as Hsb.
  { unfold close in Hdc, HDc. set (t := fval (total_weight cs)) in *. set (w := fval (effectiveWeight c)) in *.
    set (rd := dec_raw d) in *. set (rD := dec_raw D) in *.
    assert (rd * V ≤ 2 * (w * T)) as Hb1 by (apply close_bound; [apply Z.mul_nonneg_nonneg; lia|done]).
    assert (t * T ≤ 2 * (rD * V)) as Hb2 by lia. assert (w * T ≤ 2 * (t * T)) as Hb3 by nia.
    assert (rd * V ≤ 8 * rD * V) as Hb4 by lia. apply Z.mul_le_mono_pos_r in Hb4; [|done].
    clear -Hb4 Hq HDpos ET. nia. }
  assert (0 < fval (total_weight cs)) as Ht' by (clear -Ht HV; lia).
  assert (0 ≤ zlen cs < 2 ^ 20) as Hn' by (clear -Hn; lia).
  split_and!; [done| | |].
  - rewrite raw_TruncateInt, raw_MulTruncate, raw_FromInt.
    + fold s. change decPrecision with T. replace (P * T * s) with (P * s * T) by ring.
      rewrite Z.div_mul by done. apply Z.quot_div_nonneg; [|done]. by apply Z.mul_nonneg_nonneg.
    + rewrite raw_FromInt. apply Z.mul_nonneg_nonneg; [done|]. by change decPrecision with T.
    + done.
    + rewrite raw_FromInt. change decPrecision with T. fold s.
      assert (P ≤ 2 ^ 52) as HP52.
      { transitivity (P * (zlen cs + 6)); [|done]. assert (P * 1 ≤ P * (zlen cs + 6)); [|lia].
        apply Z.mul_le_mono_nonneg_l; lia. }
      apply Z.le_lt_trans with (2 ^ 52 * T * (8 * T + 1)); [|vm_compute; reflexivity].
      apply Z.mul_le_mono_nonneg; [by apply Z.mul_nonneg_nonneg| |done|done].
      apply Z.mul_le_mono_nonneg_r; [done|done].
  - unfold lowC, highC. rewrite (Z.mul_assoc (weights cs)).
    refine (share_upper _ _ (fval (total_weight cs)) (dec_raw d) (dec_raw D) _ _ Hn' _ Ht' _ _ Hlo Hhi Hdc HDc Hq);
      first [exact Hs|exact HDpos|apply Hw].
  - unfold lowC, highC. rewrite (Z.mul_comm (2 ^ 53 - _)), (Z.mul_comm (2 ^ 51 + 1)), (Z.mul_assoc (weights cs)).
    refine (share_lower _ _ (fval (total_weight cs)) (dec_raw d) (dec_raw D) _ _ Hn' _ Ht' _ _ Hhi Hdc HDc Hq);
      first [exact Hs|exact HDpos|apply Hw].
Qed.

Abbreviation p_addr := (λ p : bytes * Z * snCandidate, p.1.1) (only parsing).
Abbreviation p_amount := (λ p : bytes * Z * snCandidate, p.1.2) (only parsing).
Abbreviation p_weight := (λ p : bytes * Z * snCandidate, weight p.2) (only parsing).

(** A payout goes to the account of the supernode and is its part of the pool. *)
Definition fair (p : bytes * Z * snCandidate) : Prop :=
  AccAddressFromBech32 (supernodeAccount p.2) = Some (p_addr p) ∧ 0 < p_amount p ∧
  Z.abs (p_amount p * weights cs - P * p_weight p) ≤ 2 * weights cs.

Lemma weights_pos : 0 < weights cs.
Proof. assert (0 < 2 ^ 1075) by done. lia. Qed.

Lemma amount_close c d :
  c ∈ cs → legacyDecFromFloat64 (effectiveWeight c) = Some d →
  let amt := dec_TruncateInt (dec_MulTruncate (dec_FromInt P) (dec_Quo d D)) in
  Z.abs (amt * weights cs - P * weight c) ≤ 2 * weights cs ∧
  ∀ a, bounded_share p_amount p_weight P (weights cs) (zlen cs) (a, amt, c).
Proof.
  intros Hc Hd. destruct (share_spec c d Hc Hd) as (Hs & -> & Hup & Hlow). set (s := dec_raw _) in *.
  split; [by eapply payout_close; [exact Hp|apply weight_le|apply weights_pos|reflexivity|..]|].
  intros a. exists s. split; [|done]. cbn [fst snd]. rewrite Z.mul_comm. apply Z.mul_div_le. done.
Qed.

Lemma payouts_spec l :
  (∀ c, c ∈ l → c ∈ cs) →
  Forall (λ p, fair p ∧ bounded_share p_amount p_weight P (weights cs) (zlen cs) p) (payouts_of P D l) ∧
  sublist (payouts_of P D l).*2 l.
Proof.
  induction l as [|c l IH]; intros Hl; cbn [payouts_of]; [by repeat constructor|].
  destruct IH as [IH1 IH2]; [intros c' Hc'; apply Hl; by right|].
  assert (sublist (payouts_of P D l).*2 (c :: l)) as Hskip by (by constructor).
  destruct (legacyDecFromFloat64 (effectiveWeight c)) as [d|] eqn:Ed; [|done].
  destruct (amount_close c d (Hl c ltac:(left)) Ed) as [Hclose Hshare].
  destruct (Z.ltb_spec 0 (dec_TruncateInt (dec_MulTruncate (dec_FromInt P) (dec_Quo d D)))); [|done].
  destruct (AccAddressFromBech32 (supernodeAccount c)) as [a|] eqn:Ea; [|done].
  rewrite fmap_cons. split; [|by constructor]. constructor; [|done]. split; [by split_and!|apply Hshare].
Qed.

Lemma payouts_complete l c :
  (∀ c, c ∈ l → c ∈ cs) → c ∈ l → is_Some (AccAddressFromBech32 (supernodeAccount c)) →
  2 ^ 1074 ≤ weight c → 2 * weights cs < P * weight c → c ∈ (payouts_of P D l).*2.
Proof.
  intros Hl Hc [a Ha] Hone Hbig. revert Hc. induction l as [|c' l IH]; intros Hc;
    [by apply not_elem_of_nil in Hc|]. cbn [payouts_of].
  assert (∀ c, c ∈ l → c ∈ cs) as Hl' by (intros x Hx; apply Hl; by right).
  apply elem_of_cons in Hc as [<-|Hc].
  - destruct (dec_exists _ (candidate_small c (Hl c ltac:(left))) Hone) as (d & Hd & _). rewrite Hd.
    destruct (amount_close c d (Hl c ltac:(left)) Hd) as [Hclose _].
    destruct (Z.ltb_spec 0 (dec_TruncateInt (dec_MulTruncate (dec_FromInt P) (dec_Quo d D)))) as [_|Hle].
    + rewrite Ha, fmap_cons. left.
    + exfalso. pose proof weights_pos. set (amt := dec_TruncateInt _) in *.
      assert (amt * weights cs ≤ 0) by (apply Z.mul_nonpos_nonneg; lia). lia.
  - specialize (IH Hl' Hc). repeat case_match; try done. rewrite fmap_cons. by right.
Qed.

(** With accounts and weights in order, at most two units per candidate stay. *)
Lemma payouts_exhaust l :
  (∀ c, c ∈ l → c ∈ cs ∧ is_Some (AccAddressFromBech32 (supernodeAccount c)) ∧ 2 ^ 1074 ≤ weight c) →
  P * weights l - weights cs * total_paid (payouts_of P D l) ≤ 2 * weights cs * zlen l.
Proof.
  pose proof weights_pos as Hpos. induction l as [|c l IH]; intros Hl.
  { change (P * 0 - weights cs * 0 ≤ 2 * weights cs * 0). lia. }
  specialize (IH (λ x Hx, Hl x (list_elem_of_further _ _ _ Hx))).
  destruct (Hl c ltac:(left)) as (Hc & [a Ha] & Hone). cbn [payouts_of].
  destruct (dec_exists _ (candidate_small c Hc) Hone) as (d & Hd & _). rewrite Hd.
  destruct (amount_close c d Hc Hd) as [Hclose _].
  set (amt := dec_TruncateInt _) in *. clearbody amt.
  assert (weights (c :: l) = weight c + weights l) as -> by done.
  assert (zlen (c :: l) = zlen l + 1) as -> by (unfold zlen; cbn [length]; lia).
  destruct (Z.ltb_spec 0 amt) as [Hlt|Hle].
  - rewrite Ha. cbn [total_paid foldr fst snd]. fold (total_paid (payouts_of P D l)). lia.
  - assert (amt * weights cs ≤ 0) by (apply Z.mul_nonpos_nonneg; lia). lia.
Qed.

Lemma sublist_weights l k : sublist l k → 0 ≤ weights l ≤ weights k.
Proof.
  induction 1 as [|c l k _ IH|c l k _ IH]; [done|..]; unfold weights, sum_by in *; cbn [foldr];
    cbv beta in *; pose proof (fval_nonneg (effectiveWeight c)); lia.
Qed.
Lemma payouts_total : total_paid (payouts_of P D cs) ≤ P.
Proof.
  destruct (payouts_spec cs ltac:(done)) as [Hf Hs].
  apply (payouts_le_pool p_amount p_weight P (weights cs) (zlen cs)); [done|apply weights_pos| | |].
  - assert (sum_by p_weight (payouts_of P D cs) = weights (payouts_of P D cs).*2) as ->.
    { clear. induction (payouts_of P D cs) as [|p l IH]; [done|]. cbn [sum_by foldr] in *.
      unfold sum_by in IH. rewrite IH. done. }
    by apply sublist_weights.
  - apply sublist_length in Hs. rewrite length_fmap in Hs. unfold zlen. lia.
  - eapply Forall_impl; [exact Hf|]. by intros p [_ ?].
Qed.
End Division.
End Payment.
