(* ===== verification/RewardRun.v ===== *)
(** * The run of the reward distribution

    A due end block pays every supernode its part of the pool. *)
From Stdlib Require Import ZArith Lia SpecFloat.
From stdpp Require Import base numbers strings list gmap.
From S2P Require Import Prelude Sdk Float FloatFmt FloatPos Bank SupernodeTypes Supernode.
From S2P Require Import SupernodeInv SupernodeParams Metrics Reward RewardThm RewardPay.
Open Scope Z_scope.

(** ** The total *)
Lemma AmountOf_cons c cs d :
  AmountOf (c :: cs) d = (if decide (Denom c = d) then Amount c else 0) + AmountOf cs d.
Proof. done. Qed.
Lemma AmountOf_add_coin c cs d :
  AmountOf (add_coin c cs) d = AmountOf cs d + (if decide (Denom c = d) then Amount c else 0).
Proof.
  induction cs as [|x cs IH]; cbn [add_coin]; [by rewrite AmountOf_cons, Z.add_comm|].
  destruct (decide (Denom c = Denom x)) as [E|].
  - rewrite !AmountOf_cons. cbn [Denom Amount]. repeat case_decide; first [lia|congruence].
  - destruct (bytes_leb _ _); rewrite !AmountOf_cons; [lia|]. rewrite IH. lia.
Qed.
Lemma AmountOf_Coins_Add1 cs c d :
  AmountOf (Coins_Add cs (NewCoins c)) d = AmountOf cs d + (if decide (Denom c = d) then Amount c else 0).
Proof.
  unfold NewCoins, Coins_Add. destruct (Z.eqb_spec (Amount c) 0) as [E|]; cbn [foldl].
  - rewrite E. case_decide; lia.
  - apply AmountOf_add_coin.
Qed.
Lemma NewCoin_ok {S} d n (s : st S) : 0 ≤ n → NewCoin d n s = (Ok (mkCoin d n), s).
Proof. intros Hn. unfold NewCoin. by rewrite (proj2 (Z.ltb_ge _ _) Hn). Qed.

Section Run.
Context `{SdkAddress} `{AccAddressText} `{DecQuo} `{!LegacyDecLaws} `{!DecQuoLaws}.
Context `{PayoutBank} `{!BankLaws} `{!PayoutBankLaws} `{!SdkAddressLaws}.

(** ** The transfers *)
Definition paid_to (a : bytes) (ps : list (bytes * Z * snCandidate)) : Z :=
  sum_by (λ p, if decide (p.1.1 = a) then p.1.2 else 0) ps.
(** [ps] has been paid from the pool. *)
Definition paid (ps : list (bytes * Z * snCandidate)) (b b' : bank) : Prop :=
  ∀ a d, GetBalance b' a d = GetBalance b a d +
    (if decide (d = everlightDenom)
     then paid_to a ps - (if decide (a = module_address sn_ModuleName) then total_paid ps else 0)
     else 0).
(** Only the bank and the payout history change. *)
Definition only_paid (s s' : rw_store) : Prop :=
  rw_sn s' = rw_sn s ∧ rw_last s' = rw_last s ∧ rw_total s' = rw_total s ∧ rw_dist s' = rw_dist s.

Lemma pay_one ctx p s :
  0 < p.1.2 ≤ GetBalance (rw_bank (store s)) (module_address sn_ModuleName) everlightDenom →
  refused p.1.1 = false →
  ∃ s', pay ctx p s = (Ok tt, s') ∧ only_paid (store s) (store s') ∧
    paid [p] (rw_bank (store s)) (rw_bank (store s')).
Proof.
  destruct p as [[a amt] c]. cbn [fst snd]. intros Hamt Href.
  set (coin := mkCoin everlightDenom amt).
  pose proof (send_succeeds sn_ModuleName a coin (rw_bank (store s)) Href Hamt) as Hok.
  pose proof (send_module_account sn_ModuleName a [coin] ltac:(simpl; lia) (rw_bank (store s))) as Hlaw.
  unfold pay. rewrite (bind_ok _ _ _ coin s) by (apply NewCoin_ok; lia).
  assert (NewCoins coin = [coin]) as ->.
  { unfold NewCoins. by rewrite (proj2 (Z.eqb_neq _ _)) by (simpl; lia). }
  destruct (SendCoinsFromModuleToAccount sn_ModuleName a [coin] (rw_bank (store s))) as [r b'] eqn:Es.
  destruct r as [[]|]; [|done]. destruct Hlaw as [_ Hmove].
  rewrite (bind_ok _ _ _ tt (St (put_bank b' (store s)) (events s))) by (unfold lift; by rewrite Es).
  assert (paid [((a, amt), c)] (rw_bank (store s)) b') as Hpaid.
  { intros a' d. rewrite Hmove. unfold paid_to, total_paid, sum_by. cbn [foldr fst snd AmountOf Denom Amount].
    assert ((if decide (everlightDenom = d) then amt else 0) = (if decide (d = everlightDenom) then amt else 0))
      as Ed by (repeat case_decide; congruence). unfold coin. cbn [Denom Amount]. rewrite Ed.
    destruct (decide (d = everlightDenom)); repeat case_decide; subst; try done; lia. }
  unfold AppendPayoutHistoryEntry. cbn [ph_ValidatorAddress ph_Height]. case_decide;
    by eexists; (split; [reflexivity|]).
Qed.

Lemma paid_app ps qs b b' b'' : paid ps b b' → paid qs b' b'' → paid (ps ++ qs) b b''.
Proof.
  intros H1' H2' a d. rewrite H2', H1'. unfold paid_to, total_paid, sum_by. rewrite !foldr_app.
  assert (∀ (f : bytes * Z * snCandidate → Z) l z,
    foldr (λ x acc, f x + acc) z l = foldr (λ x acc, f x + acc) 0 l + z) as Hz.
  { intros f l z. induction l as [|x l IH]; cbn [foldr]; lia. }
  rewrite (Hz _ ps (foldr _ 0 qs)).
  rewrite (Hz (λ p, p.1.2) ps (foldr (λ p acc, p.1.2 + acc) 0 qs)). case_decide; [|lia]. case_decide; lia.
Qed.

Lemma pay_all ctx ps s :
  Forall (λ p, 0 < p.1.2 ∧ refused p.1.1 = false ∧ p.1.1 ≠ module_address sn_ModuleName) ps →
  total_paid ps ≤ GetBalance (rw_bank (store s)) (module_address sn_ModuleName) everlightDenom →
  ∃ s', for_each (pay ctx) ps s = (Ok tt, s') ∧ only_paid (store s) (store s') ∧
    paid ps (rw_bank (store s)) (rw_bank (store s')).
Proof.
  intros Hps. revert s. induction Hps as [|p ps (Hpos & Href & Hne) Hps IH]; intros s Htot.
  { exists s. split_and!; [done|done|]. intros a d. cbn. repeat case_decide; lia. }
  cbn [total_paid foldr] in Htot. fold (total_paid ps) in Htot.
  assert (0 ≤ total_paid ps) as Hnn.
  { clear -Hps. induction Hps as [|p ps (? & _) _ IH]; [done|]. cbn [total_paid foldr].
    unfold total_paid in IH. lia. }
  destruct (pay_one ctx p s ltac:(lia) Href) as (s1 & E1 & (Hs1 & Hl1 & Ht1 & Hd1) & Hp1).
  destruct (IH s1) as (s2 & E2 & (Hs2 & Hl2 & Ht2 & Hd2) & Hp2).
  { rewrite Hp1. rewrite !decide_True by done. unfold paid_to, total_paid, sum_by. cbn [foldr].
    unfold total_paid in Htot. rewrite decide_False by done. lia. }
  exists s2. split_and!.
  - cbn [for_each]. by rewrite (bind_ok _ _ _ _ _ E1).
  - split_and!; congruence.
  - by apply (paid_app [p] ps _ (rw_bank (store s1))).
Qed.

(** ** The averages *)
Lemma store_states cs s :
  NoDup (validatorAddr <$> cs) →
  Forall (λ c, json_float (smoothedBytes c) = true ∧ json_float (rawBytes c) = true) cs →
  ∃ s', for_each (λ c, SetSNDistState (validatorAddr c) (next_state c)) cs s = (Ok tt, s') ∧
    only_dist s s' ∧ (∀ c, c ∈ cs → rw_dist (store s') !! validatorAddr c = Some (next_state c)) ∧
    (∀ v, v ∉ validatorAddr <$> cs → rw_dist (store s') !! v = rw_dist (store s) !! v).
Proof.
  revert s. induction cs as [|c cs IH]; intros s Hnd Hj.
  { exists s. split_and!; [done|by exists (rw_dist (store s)); destruct s as [[]]| |done].
    intros c Hc. by apply not_elem_of_nil in Hc. }
  rewrite fmap_cons in Hnd. apply NoDup_cons in Hnd as [Hni Hnd]. inv Hj.
  match goal with Hj : _ ∧ _ |- _ => destruct Hj as [Hj1 Hj2] end.
  set (s1 := St (put_dist (validatorAddr c) (next_state c) (store s)) (events s)).
  destruct (IH s1) as (s2 & E2 & [d2 Ed] & Hin & Hout); [done|done|]. exists s2. split_and!.
  - cbn [for_each]. rewrite (bind_ok _ _ _ tt s1); [done|]. unfold SetSNDistState, next_state.
    cbn [SmoothedBytes PrevRawBytes]. by rewrite Hj1, Hj2.
  - by exists d2.
  - intros c' [->|Hc']%elem_of_cons; [|by apply Hin]. rewrite Hout by done.
    apply lookup_insert_eq.
  - intros v [Hv1 Hv2]%not_elem_of_cons. rewrite Hout by done. by apply lookup_insert_ne.
Qed.

Lemma candidates_NoDup ctx s : records_ok (rw_sn s) → NoDup (validatorAddr <$> candidates ctx s).
Proof.
  intros Hr. pose proof (GetAllSuperNodes_NoDup payable_states _ Hr) as Hnd. unfold candidates.
  induction (GetAllSuperNodes payable_states (rw_sn s)) as [|sn sns IH]; [constructor|].
  rewrite fmap_cons in Hnd. apply NoDup_cons in Hnd as [Hni Hnd]. rewrite candidates_cons.
  destruct (candidate ctx s sn) as [c|] eqn:Ec; cbn [app]; [|by apply IH].
  rewrite fmap_cons. apply NoDup_cons. split; [|by apply IH].
  rewrite (candidate_address _ _ _ _ Ec). intros (c' & E & Hc')%list_elem_of_fmap. apply Hni.
  apply list_elem_of_omap in Hc' as (sn' & Hsn' & Ec'). rewrite E, (candidate_address _ _ _ _ Ec').
  by apply list_elem_of_fmap_2.
Qed.
Lemma candidates_finite ctx s :
  Forall (finite_report ctx s) (GetAllSuperNodes payable_states (rw_sn s)) →
  Forall (λ c, json_float (smoothedBytes c) = true ∧ json_float (rawBytes c) = true) (candidates ctx s).
Proof.
  intros Hf. apply Forall_forall. intros c Hc. apply list_elem_of_omap in Hc as (sn & Hsn & Hc).
  rewrite Forall_forall in Hf. specialize (Hf sn Hsn). unfold candidate in Hc.
  destruct (fresh_bytes _ _ _) as [raw|] eqn:Ef; [|done]. cbn [mbind option_bind] in Hc.
  destruct (below_minimum _ _); [done|]. injection Hc as <-. destruct (Hf raw Ef). by split.
Qed.

(** ** The end block *)
Definition pool (s : rw_store) : Z :=
  GetBalance (rw_bank s) (module_address sn_ModuleName) everlightDenom.

(** What the division needs: reports and averages are numbers, the weights sum to
    between 2 and 2^127, and the pool is small next to the precision of a float64. *)
Record payment_ok (ctx : Ctx) (s : rw_store) : Prop := {
  ok_reports : Forall (finite_report ctx s) (GetAllSuperNodes payable_states (rw_sn s));
  ok_weights c : c ∈ candidates ctx s → nonneg_finite (effectiveWeight c);
  ok_total : 2 ^ 1075 ≤ weights (candidates ctx s) < 2 ^ 1201;
  ok_pool : 0 < pool s ∧ pool_ok (pool s) (zlen (candidates ctx s))
}.
(** The bank sends to the accounts of the candidates. *)
Definition payees_ok (ctx : Ctx) (s : rw_store) : Prop :=
  ∀ c a, c ∈ candidates ctx s → AccAddressFromBech32 (supernodeAccount c) = Some a →
    refused a = false ∧ a ≠ module_address sn_ModuleName.

(** What the end block did with the payouts [ps]. *)
Record distributed (ctx : Ctx) (s s' : rw_store) (ps : list (bytes * Z * snCandidate)) : Prop := {
  done_fair : Forall (fair (pool s) (candidates ctx s)) ps;
  done_once : sublist ps.*2 (candidates ctx s);
  done_complete c :
    c ∈ candidates ctx s → is_Some (AccAddressFromBech32 (supernodeAccount c)) →
    2 ^ 1074 ≤ fval (effectiveWeight c) →
    2 * weights (candidates ctx s) < pool s * fval (effectiveWeight c) → c ∈ ps.*2;
  done_total : total_paid ps ≤ pool s;
  done_empties :
    (∀ c, c ∈ candidates ctx s →
       is_Some (AccAddressFromBech32 (supernodeAccount c)) ∧ 2 ^ 1074 ≤ fval (effectiveWeight c)) →
    pool s - total_paid ps ≤ 2 * zlen (candidates ctx s);
  done_bank : paid ps (rw_bank s) (rw_bank s');
  done_sum d : AmountOf (rw_total s') d =
    AmountOf (rw_total s) d + (if decide (everlightDenom = d) then total_paid ps else 0);
  done_states c : c ∈ candidates ctx s → rw_dist s' !! validatorAddr c = Some (next_state c);
  done_last : rw_last s' = Z.max 0 (BlockHeight ctx);
  done_registry : rw_sn s' = rw_sn s
}.

Lemma total_paid_nonneg P cs ps : Forall (fair P cs) ps → 0 ≤ total_paid ps.
Proof.
  induction 1 as [|p ps (_ & Hpos & _) _ IH]; [done|]. cbn [total_paid foldr].
  unfold total_paid in IH. cbv beta in Hpos. lia.
Qed.

(** Up to the transfers, the distribution runs without an error. *)
Lemma distribution_starts ctx s :
  sn_inv (rw_sn (store s)) → payment_ok ctx (store s) →
  ∃ D d1, let cs := candidates ctx (store s) in
    let P := pool (store s) in
    let ps := payouts_of P D cs in
    legacyDecFromFloat64 (total_weight cs) = Some D ∧
    distributePool ctx s =
      (_ ← for_each (pay ctx) ps;
       _ ← for_each (λ c, SetSNDistState (validatorAddr c) (next_state c)) cs;
       coin ← NewCoin everlightDenom (total_paid ps);
       _ ← AddTotalDistributed (NewCoins coin);
       _ ← SetLastDistributionHeight (BlockHeight ctx);
       emit (distribution_event
               [("reward_eligible_count", FormatInt (zlen cs));
                ("reward_total_payout", FormatInt (total_paid ps));
                ("reward_pool_balance", FormatInt P)]%string))
      (St (RwStore (rw_sn (store s)) (rw_bank (store s)) (rw_last (store s)) (rw_total (store s)) d1
             (rw_history (store s))) (events s)).
Proof.
  intros [Hr _] [Hfin Hw HW [Hpos Hp]]. set (cs := candidates ctx (store s)) in *.
  set (P := pool (store s)) in *. destruct (total_close P cs Hp Hw HW) as ((Hft & _) & Ht & _).
  assert (small_weight (total_weight cs)) as Hst by (split; [done|apply Ht]).
  destruct (dec_exists _ Hst) as (D & HD & _); [apply Ht|].
  pose proof (build_candidates_spec ctx _ s (GetAllSuperNodes_NoDup payable_states _ Hr)) as Hb.
  unfold wp in Hb.
  destruct (build_candidates ctx (GetAllSuperNodes payable_states (rw_sn (store s))) s) as [r s1] eqn:Eb.
  cbn [fst snd] in Hb. destruct Hb as ([d1 ->] & Hcs & Hok). specialize (Hok Hfin).
  destruct r as [cs'|]; [|done]. specialize (Hcs cs' eq_refl). fold (candidates ctx (store s)) in Hcs.
  fold cs in Hcs. subst cs'. exists D, d1. split; [done|].
  unfold distributePool. rewrite bind_gets. unfold GetPoolBalance. rewrite all_balances.
  fold (pool (store s)). fold P. rewrite (proj2 (Z.eqb_neq P 0)) by lia. rewrite bind_gets.
  rewrite (bind_ok _ _ _ _ _ Eb). assert (∃ c0 cs0, cs = c0 :: cs0) as (c0 & cs0 & Ecs).
  { destruct Hp as (_ & Hn & _). revert Hn. generalize cs.
    intros [|c0 cs0] Hn; [change (zlen []) with 0 in Hn; lia|]. by exists c0, cs0. }
  rewrite Ecs. cbn match. rewrite <-Ecs.
  assert (f64_leb (total_weight cs) f0 = false) as ->.
  { destruct (total_weight cs) as [| | |[]]; try done; exfalso; cbn [fval] in Ht;
      apply (proj1 Ht); reflexivity. }
  by rewrite (bind_of_option _ _ D) by done.
Qed.

(** C6. A payment reaches everybody and stays within the pool.  In a block in which
    the pool is due, with the reports, weights and pool in range and accounts that
    can receive, the end blocker succeeds.  Every payout goes to the account of a
    different candidate and is its part of the pool up to two units; every candidate
    whose part is larger than two units is paid; the payouts together do not exceed
    the pool and leave at most two units per candidate in it, and are what the
    balances and the running total change by; the averages of all candidates and the
    height of the payment are stored. *)
Theorem distribution_pays ctx s :
  sn_inv (rw_sn (store s)) → payment_due ctx (store s) = true →
  payment_ok ctx (store s) → payees_ok ctx (store s) →
  ∃ ps s', sn_EndBlocker ctx s = (Ok tt, s') ∧ distributed ctx (store s) (store s') ps.
Proof.
  intros Hinv Hdue Hpay Hacc. rewrite (end_block_due _ _ Hdue).
  destruct (distribution_starts ctx s Hinv Hpay) as (D & d1 & HD & ->).
  destruct Hinv as [Hr _]. destruct Hpay as [Hfin Hw HW [Hpos Hp]].
  set (cs := candidates ctx (store s)) in *. set (P := pool (store s)) in *. set (ps := payouts_of P D cs).
  destruct (payouts_spec P cs D Hp Hw HW HD cs ltac:(done)) as [Hfair Honce]. fold ps in Hfair, Honce.
  pose proof (payouts_total P cs D Hp Hw HW HD) as Htotal. fold ps in Htotal.
  assert (Forall (fair P cs) ps) as Hfair' by (eapply Forall_impl; [exact Hfair|]; by intros p [? _]).
  pose proof (total_paid_nonneg P cs ps Hfair') as Hnn. set (s1 := St _ _).
  destruct (pay_all ctx ps s1) as (s2 & E2 & (Hsn2 & Hl2 & Ht2 & Hd2) & Hpaid); [|exact Htotal|].
  { apply Forall_forall. intros p Hin. rewrite Forall_forall in Hfair'.
    destruct (Hfair' p Hin) as (Ha & Hpp & _). split; [done|]. apply (Hacc p.2); [|done].
    eapply elem_of_submseteq; [|by apply sublist_submseteq]. by apply list_elem_of_fmap_2. }
  destruct (store_states cs s2) as (s3 & E3 & [d3 Ed3] & Hin & _);
    [by apply candidates_NoDup|by apply candidates_finite|].
  eexists ps, _. split.
  - rewrite (bind_ok _ _ _ _ _ E2), (bind_ok _ _ _ _ _ E3), (bind_ok _ _ _ _ _ (NewCoin_ok _ _ _ Hnn)).
    reflexivity.
  - split; try done.
    + intros c Hc Ha Hone Hbig. by apply (payouts_complete P cs D Hp Hw HW HD).
    + intros Hall. pose proof (payouts_exhaust P cs D Hp Hw HW HD cs) as Hex. fold ps in Hex.
      pose proof (weights_pos cs HW) as HWpos. apply (Z.mul_le_mono_pos_l _ _ (weights cs)); [done|].
      specialize (Hex (λ c Hc, conj Hc (Hall c Hc))). fold P. fold cs. lia.
    + cbn. rewrite Ed3. exact Hpaid.
    + intros d. cbn -[AmountOf Coins_Add]. rewrite AmountOf_Coins_Add1. rewrite Ed3. cbn. by rewrite Ht2.
    + cbn. destruct (Z.ltb_spec (BlockHeight ctx) 0); lia.
    + cbn. by rewrite Ed3.
Qed.

(** ** A recipient the bank refuses *)
Lemma pay_refused ctx p s : refused p.1.1 = true → 0 < p.1.2 → fails (pay ctx p) s.
Proof.
  destruct p as [[a amt] c]. cbn [fst snd]. intros Href Hamt. unfold pay, fails.
  rewrite (bind_ok _ _ _ (mkCoin everlightDenom amt) s) by (apply NewCoin_ok; lia).
  assert (NewCoins (mkCoin everlightDenom amt) = [mkCoin everlightDenom amt]) as ->.
  { unfold NewCoins. by rewrite (proj2 (Z.eqb_neq _ _)) by (simpl; lia). }
  pose proof (send_refused sn_ModuleName a (mkCoin everlightDenom amt) (rw_bank (store s)) Href) as Hs.
  unfold lift, mbind, M_bind. by destruct (SendCoinsFromModuleToAccount _ _ _ _) as [[[]|] b'].
Qed.

(** One account that cannot receive stops all payments and the chain with them:
    when the bank refuses the account of one candidate whose part of the pool is more
    than two units, the end blocker fails in every block in which the pool is due. *)
Theorem refused_recipient_halts ctx s c a :
  sn_inv (rw_sn (store s)) → payment_due ctx (store s) = true → payment_ok ctx (store s) →
  c ∈ candidates ctx (store s) → AccAddressFromBech32 (supernodeAccount c) = Some a →
  refused a = true → 2 ^ 1074 ≤ fval (effectiveWeight c) →
  2 * weights (candidates ctx (store s)) < pool (store s) * fval (effectiveWeight c) →
  is_ok (sn_EndBlocker ctx s).1 = false.
Proof.
  intros Hinv Hdue Hpay Hc Ha Href Hone Hbig. rewrite (end_block_due _ _ Hdue).
  destruct (distribution_starts ctx s Hinv Hpay) as (D & d1 & HD & ->).
  destruct Hpay as [Hfin Hw HW [Hpos Hp]].
  destruct (payouts_spec _ _ D Hp Hw HW HD (candidates ctx (store s)) ltac:(done)) as [Hfair _].
  assert (c ∈ (payouts_of (pool (store s)) D (candidates ctx (store s))).*2) as Hin.
  { by apply (payouts_complete _ _ D Hp Hw HW HD). }
  apply list_elem_of_fmap in Hin as (p & -> & Hin). rewrite Forall_forall in Hfair.
  destruct (Hfair p Hin) as [(Hpa & Hpp & _) _]. cbv beta in *. rewrite Ha in Hpa. injection Hpa as Hpa.
  apply fails_bind. unfold wp. intros [] Ef. exfalso.
  assert (fails (for_each (pay ctx) (payouts_of (pool (store s)) D (candidates ctx (store s))))
    (St (RwStore (rw_sn (store s)) (rw_bank (store s)) (rw_last (store s)) (rw_total (store s)) d1
       (rw_history (store s))) (events s))) as Hf.
  { apply (fails_for_each _ p); [done|]. intros s'. apply pay_refused; [|done]. by rewrite <-Hpa. }
  unfold fails in Hf. by rewrite Ef in Hf.
Qed.
End Run.
