(* ===== verification/RewardExamples.v ===== *)
(** * Instances of the reward interfaces and theorems

    Decimals with the parser and the rounding of LegacyDec, a ledger with a blocked
    address, and a chain of two supernodes. *)
From Stdlib Require Import ZArith Lia SpecFloat Ascii.
From stdpp Require Import base numbers strings list gmap pretty.
From S2P Require Import Prelude Sdk Float FloatFmt FloatPos Bank SupernodeTypes Supernode.
From S2P Require Import SupernodeInv SupernodeThm SupernodeParams Metrics Reward RewardThm RewardPay.
From S2P Require Import RewardRun.
Open Scope Z_scope.

(** ** Decimals *)
Module Decimals.

Definition digit (c : ascii) : option Z :=
  let n := Z.of_nat (nat_of_ascii c) - 48 in
  if (0 <=? n) && (n <=? 9) then Some n else None.
(** Digits with at most one point; [frac] counts the digits behind it. *)
Fixpoint parse (s : string) (acc : Z) (frac : option nat) : option Z :=
  match s with
  | EmptyString =>
      let k := default O frac in
      if decide (k ≤ 18)%nat then Some (acc * 10 ^ (18 - Z.of_nat k)) else None
  | String c s' =>
      match digit c with
      | Some n => parse s' (acc * 10 + n) (S <$> frac)
      | None =>
          if decide (c = "."%char) then
            match frac with None => parse s' acc (Some O) | Some _ => None end
          else None
      end
  end.

Lemma parse_digit_char x s acc frac :
  (x < 10)%N →
  parse (String (pretty_N_char x) s) acc frac = parse s (acc * 10 + Z.of_N x) (S <$> frac).
Proof.
  intros Hx. assert (x = 0 ∨ x = 1 ∨ x = 2 ∨ x = 3 ∨ x = 4 ∨ x = 5 ∨ x = 6
          ∨ x = 7 ∨ x = 8 ∨ x = 9)%N as Hd by lia.
  by destruct_or! Hd; subst.
Qed.

(** The number of digits that are printed for [x]. *)
Lemma parse_go x : ∃ n : nat, (∀ s, String.length (pretty_N_go x s) = n + String.length s)%nat ∧
  (∀ k, Z.of_N x < 10 ^ Z.of_nat k → (n ≤ k)%nat) ∧
  ∀ s acc frac, parse (pretty_N_go x s) acc frac =
    parse s (acc * 10 ^ Z.of_nat n + Z.of_N x) (Nat.add n <$> frac).
Proof.
  induction (N.lt_wf_0 x) as [x _ IH]. destruct (decide (0 < x)%N) as [Hx|Hx].
  - destruct (IH (x `div` 10)%N) as (n & Hlen & Hb & Hp); [by apply N.div_lt|].
    assert (Z.of_N x = Z.of_N (x `div` 10) * 10 + Z.of_N (x `mod` 10)) as E.
    { pose proof (N.div_mod x 10). lia. }
    exists (S n). split_and!.
    + intros s. rewrite pretty_N_go_step by done. rewrite Hlen. simpl. lia.
    + intros [|k] Hk; [change (10 ^ Z.of_nat 0) with 1 in Hk; lia|].
      assert (n ≤ k)%nat; [|lia]. apply Hb. rewrite N2Z.inj_div.
      apply Z.div_lt_upper_bound; [done|]. rewrite Nat2Z.inj_succ, Z.pow_succ_r in Hk by lia. done.
    + intros s acc frac. rewrite pretty_N_go_step by done. rewrite Hp, parse_digit_char by (by apply N.mod_lt).
      rewrite Nat2Z.inj_succ, Z.pow_succ_r by lia. f_equal; [lia|]. by destruct frac.
  - assert (x = 0%N) as -> by lia. exists O. split_and!.
    + intros s. by rewrite pretty_N_go_0.
    + lia.
    + intros s acc frac. rewrite pretty_N_go_0. f_equal; [lia|]. by destruct frac.
Qed.

Lemma parse_int z : 0 ≤ z → ∃ n : nat, String.length (FormatInt z) = n ∧
  (∀ k, (0 < k)%nat → z < 10 ^ Z.of_nat k → (n ≤ k)%nat) ∧
  ∀ s acc frac, parse (FormatInt z +:+ s) acc frac =
    parse s (acc * 10 ^ Z.of_nat n + z) (Nat.add n <$> frac).
Proof.
  intros Hz. unfold FormatInt. destruct z as [|p|p]; [| |lia].
  - exists 1%nat. split_and!; [done|intros k Hk _; lia|].
    intros s acc frac. transitivity (parse (String (pretty_N_char 0) s) acc frac); [done|].
    by rewrite parse_digit_char by done.
  - destruct (parse_go (N.pos p)) as (n & Hlen & Hb & Hp). exists n.
    assert (pretty (Z.pos p) = pretty_N_go (N.pos p) "") as -> by done. split_and!.
    + rewrite Hlen. simpl. lia.
    + intros k _ Hk. by apply Hb.
    + intros s acc frac. rewrite Ledger.pretty_N_go_app. apply Hp.
Qed.

Lemma string_app_nil_r s : (s +:+ "")%string = s.
Proof. induction s as [|c s IH]; [done|]. transitivity (String c (s +:+ "")); [done|]. by rewrite IH. Qed.
Lemma parse_zeros n s acc frac :
  parse (zeros n +:+ s) acc frac = parse s (acc * 10 ^ Z.of_nat n) (Nat.add n <$> frac).
Proof.
  revert acc frac. induction n as [|n IH]; intros acc frac.
  - transitivity (parse s acc frac); [done|]. f_equal; [by rewrite Z.mul_1_r|by destruct frac].
  - transitivity (parse (String (pretty_N_char 0) (zeros n +:+ s)) acc frac); [done|].
    rewrite parse_digit_char by done. rewrite IH, Nat2Z.inj_succ, Z.pow_succ_r by lia. f_equal; [lia|]. destruct frac; [|done].
    simpl. f_equal. lia.
Qed.

Lemma decimal_parses m k :
  0 ≤ m →
  parse (decimal_text m k) 0 None = if decide (-18 ≤ k) then Some (m * 10 ^ (k + 18)) else None.
Proof.
  intros Hm. unfold decimal_text. destruct (Z.leb_spec 0 k) as [Hk|Hk].
  - rewrite decide_True by lia. assert (0 ≤ m * 10 ^ k) as Hmk.
    { apply Z.mul_nonneg_nonneg; [done|]. by apply Z.pow_nonneg. }
    destruct (parse_int (m * 10 ^ k) Hmk) as (n & _ & _ & Hp). specialize (Hp "" 0 None).
    rewrite string_app_nil_r in Hp. rewrite Hp. rewrite Z.mul_0_l, Z.add_0_l.
    transitivity (Some (m * 10 ^ k * 10 ^ 18)); [done|]. f_equal. rewrite Z.pow_add_r by lia. ring.
  - set (j := - k). set (hi := m / 10 ^ j). set (lo := m mod 10 ^ j).
    assert (0 < 10 ^ j) as Hj by (apply Z.pow_pos_nonneg; lia).
    assert (0 ≤ hi) as Hhi by (by apply Z.div_pos). assert (0 ≤ lo < 10 ^ j) as Hlo by (by apply Z.mod_pos_bound).
    assert (m = hi * 10 ^ j + lo) as Em by (unfold hi, lo; pose proof (Z.div_mod m (10 ^ j)); lia).
    destruct (parse_int hi Hhi) as (n & _ & _ & Hp). rewrite Hp, Z.mul_0_l, Z.add_0_l.
    destruct (parse_int lo ltac:(lia)) as (l & Hlen & Hl & Hq).
    assert (l ≤ Z.to_nat j)%nat as Hlj by (apply Hl; [lia|]; rewrite Z2Nat.id by lia; lia).
    transitivity (parse (pad_left (Z.to_nat j) (FormatInt lo)) hi (Some O)); [done|].
    unfold pad_left. rewrite Hlen, parse_zeros.
    specialize (Hq ""). rewrite string_app_nil_r in Hq. rewrite Hq. cbn [parse from_option id fmap option_fmap option_map].
    rewrite Nat.add_0_r. replace (l + (Z.to_nat j - l))%nat with (Z.to_nat j) by lia.
    destruct (decide (-18 ≤ k)); [rewrite decide_True by lia|by rewrite decide_False by lia].
    f_equal. rewrite Z2Nat.id by lia. rewrite <-Z.mul_assoc, <-Z.pow_add_r by lia.
    replace (Z.of_nat (Z.to_nat j - l) + Z.of_nat l) with j by lia. rewrite <-Em. f_equal. f_equal. lia.
Qed.

#[export] Instance dec : LegacyDecOps := {
  Dec := Z;
  dec_FromInt z := z * decPrecision;
  dec_FromStr s := parse s 0 None;
  dec_IsZero d := d =? 0;
  dec_IsNegative d := d <? 0;
  dec_Equal d e := d =? e;
  dec_Add := Z.add;
  dec_Mul d e := Concrete.chop_round (d * e);
  dec_TruncateInt d := Z.quot d decPrecision
}.
#[export] Instance dec_laws : LegacyDecLaws.
Proof.
  refine (@Build_LegacyDecLaws dec (λ d : Z, d) _ _ _ _ _ _ _).
  - done.
  - intros d. apply Z.eqb_eq.
  - intros d. apply Z.ltb_lt.
  - intros d e. apply Z.eqb_eq.
  - done.
  - intros d e r Hr. simpl in *. rewrite Hr. apply Concrete.chop_round_exact.
  - done.
Defined.

(** The quotient is computed to 36 places and rounded. *)
#[export] Instance dec_quo : DecQuo := {
  dec_Quo d e := Concrete.chop_round (Z.quot (d * (decPrecision * decPrecision)) e) : @Dec dec;
  dec_MulTruncate d e := Z.quot (d * e) decPrecision : @Dec dec
}.

Lemma chop_round_near z :
  0 ≤ z → 0 ≤ Concrete.chop_round z ∧ 2 * Z.abs (Concrete.chop_round z * decPrecision - z) ≤ decPrecision.
Proof.
  intros Hz. unfold Concrete.chop_round. rewrite (Z.abs_eq z) by done.
  destruct (decide (z = 0)) as [->|Hne]; [done|]. rewrite Z.sgn_pos by lia. rewrite Z.mul_1_l.
  rewrite Z.quot_div_nonneg, Z.rem_mod_nonneg by done. set (p := decPrecision).
  assert (p = 1000000000000000000) as Ep by reflexivity.
  assert (p / 2 = 500000000000000000) as Eh by reflexivity. rewrite Eh.
  assert (0 ≤ z / p) by (apply Z.div_pos; lia).
  pose proof (Z.div_mod z p ltac:(lia)) as Hdm. pose proof (Z.mod_pos_bound z p ltac:(lia)) as Hb.
  set (q := z / p) in *. set (r := z mod p) in *. clearbody q r p.
  destruct (Z.ltb_spec r 500000000000000000); [lia|].
  destruct (Z.ltb_spec 500000000000000000 r); [lia|]. destruct (Z.even q); lia.
Qed.

#[export] Instance quo_laws : DecQuoLaws.
Proof.
  split; cbn -[Concrete.chop_round Z.quot decPrecision Z.pow parse decimal_text].
  - intros d e [Hd _] He. set (p := decPrecision). assert (0 < p) as Hp by done.
    assert (0 ≤ d * (p * p)) as Hn by (apply Z.mul_nonneg_nonneg; lia).
    rewrite Z.quot_div_nonneg by lia. set (q := d * (p * p) / e).
    assert (0 ≤ q) as Hq by (by apply Z.div_pos).
    destruct (chop_round_near q Hq) as [Hc1 Hc2]. fold p in Hc2. split; [done|].
    set (s := Concrete.chop_round q) in *.
    assert (q * e ≤ d * (p * p) < q * e + e) as Hqe.
    { unfold q. pose proof (Z.div_mod (d * (p * p)) e ltac:(lia)) as Hdm.
      pose proof (Z.mod_pos_bound (d * (p * p)) e He). lia. }
    assert (2 < p) as Hp2 by done. clearbody p q s.
    apply (Z.mul_le_mono_pos_l _ _ p Hp).
    assert (2 * Z.abs ((s * p - q) * e) ≤ p * e) as Ha.
    { rewrite Z.abs_mul, (Z.abs_eq e) by lia. rewrite Z.mul_assoc. apply Z.mul_le_mono_nonneg_r; lia. }
    rewrite <-(Z.abs_eq p) at 1 by lia. rewrite <-Z.abs_mul. nia.
  - intros d e Hd He _. apply Z.quot_div_nonneg; [|done]. by apply Z.mul_nonneg_nonneg.
  - intros m k Hm Hk _. exists (m * 10 ^ (k + 18)). by rewrite decimal_parses, decide_True.
  - intros m k d Hm. rewrite decimal_parses by done. by case_decide.
Qed.
End Decimals.

(** ** A ledger that refuses one address *)
Module Vault.
Import Bank.Ledger.

Definition blocked : bytes := string_bytes "sn9".
#[export] Instance vault : BankKeeper := {|
  bank := ledger;
  GetBalance := balance;
  SpendableCoins := spendable;
  module_address := address_of_module;
  SendCoinsFromAccountToModule a m := transfer a (address_of_module m);
  SendCoinsFromModuleToModule m m' := transfer (address_of_module m) (address_of_module m');
  SendCoinsFromModuleToAccount m a cs b :=
    if decide (a = blocked) then (Err ErrUnauthorized, b) else transfer (address_of_module m) a cs b;
  FundCommunityPool cs a := transfer a (address_of_module "distribution") cs;
  MintCoins m := mint (address_of_module m);
  BurnCoins m := burn (address_of_module m)
|}.
#[export] Instance vault_laws : BankLaws.
Proof.
  split.
  - apply balance_pos.
  - apply spendable_balance.
  - intros. apply transfer_ok.
  - intros. apply transfer_ok.
  - intros m a cs Hlen b. simpl. case_decide; [done|]. by apply transfer_ok.
  - intros. apply transfer_ok.
  - intros m cs Hlen b. by apply burn_ok.
Qed.
#[export] Instance vault_payout : PayoutBank := { GetAllBalances := spendable }.

Lemma AmountOf_entry a d p l :
  AmountOf (omap (coin_of a) (p :: l)) d =
  (if decide (p.1 = (a, d)) then Z.of_N p.2 else 0) + AmountOf (omap (coin_of a) l) d.
Proof.
  destruct p as [[a' d'] m]. cbn [fst snd].
  assert (omap (coin_of a) ((a', d', m) :: l) =
    (if decide (a' = a) then [mkCoin d' (Z.of_N m)] else []) ++ omap (coin_of a) l) as ->.
  { simpl. unfold coin_of at 1. simpl. by case_decide. }
  destruct (decide (a' = a)) as [->|Hne]; cbn [app].
  - rewrite AmountOf_cons. cbn [Denom Amount]. repeat case_decide; congruence.
  - rewrite decide_False; [done|]. congruence.
Qed.
Lemma AmountOf_entries_ge a d n l :
  0 ≤ AmountOf (omap (coin_of a) l) d ∧
  ((a, d, n) ∈ l → Z.of_N n ≤ AmountOf (omap (coin_of a) l) d).
Proof.
  induction l as [|p l [IH1 IH2]]; [split; [done|intros Hin; by apply not_elem_of_nil in Hin]|].
  rewrite AmountOf_entry. split; [case_decide; lia|].
  intros [<-|Hin]%elem_of_cons; [rewrite decide_True by done; cbn; lia|]. specialize (IH2 Hin). case_decide; lia.
Qed.
Lemma spendable_all b a d : AmountOf (spendable b a) d = balance b a d.
Proof.
  change (AmountOf (omap (coin_of a) (map_to_list b)) d = balance b a d). unfold balance.
  destruct (AmountOf_entries (map_to_list b) a d) as [E|(n & Hin & E)]; [apply NoDup_fst_map_to_list|..];
    rewrite E.
  - destruct (b !! (a, d)) as [n|] eqn:En; [|done]. simpl. apply elem_of_map_to_list in En.
    pose proof (proj2 (AmountOf_entries_ge a d n (map_to_list b)) En). lia.
  - apply elem_of_map_to_list in Hin. by rewrite Hin.
Qed.
#[export] Instance payout_laws : PayoutBankLaws.
Proof.
  refine {| refused a := bool_decide (a = blocked) |}.
  - apply spendable_all.
  - intros m a c b Hr Hc. simpl in *. apply bool_decide_eq_false in Hr. rewrite decide_False by done.
    cbn. by rewrite (proj2 (Z.leb_le 0 (Amount c))), (proj2 (Z.leb_le _ _)) by lia.
  - intros m a c b Hr. simpl in *. apply bool_decide_eq_true in Hr. by rewrite decide_True.
Defined.
End Vault.

(** ** Two supernodes *)
Module Registry.
Import Sdk.Concrete SupernodeThm.Examples.

Definition second (account : string) : MsgRegisterSupernode :=
  {| reg_Creator := "aval2"; reg_ValidatorAddress := "vval2"; reg_IpAddress := "10.0.0.2";
     reg_SupernodeAccount := account; reg_P2PPort := "" |}.
Definition two (account : string) : st sn_store :=
  (run_tx (sn_exec (ctx_at 6 0) (CallRegister (second account))) st1).2.
Lemma two_inv account : sn_inv (store (two account)).
Proof.
  apply (reachable_ok 6). apply (reach_call 5 (ctx_at 6 0) (CallRegister (second account)) st1 st1_reachable).
  by simpl.
Qed.

Definition metrics (bytes : float64) : SupernodeMetrics :=
  {| VersionMajor := 2; VersionMinor := 0; VersionPatch := 0; CpuCoresTotal := f64_of_Z 16;
     CpuUsagePercent := f64_of_Z 10; MemTotalGb := f64_of_Z 64; MemUsagePercent := f64_of_Z 10;
     MemFreeGb := f64_of_Z 50; DiskTotalGb := f64_of_Z 4000; DiskUsagePercent := f64_of_Z 10;
     DiskFreeGb := f64_of_Z 3000; UptimeSeconds := f64_of_Z 1000; PeersCount := 20; OpenPorts := [];
     CascadeKademliaDbBytes := bytes |}.
Definition reported (v : string) (bytes : float64) (height : Z) (s : sn_store) : sn_store :=
  set_metrics <[string_bytes v := Build_SupernodeMetricsState (String "v" v) (Some (metrics bytes)) 1 height]> s.
End Registry.

Module Payments.
Import Decimals Vault.
#[local] Existing Instance Concrete.address.
#[local] Existing Instance Concrete.address_laws.
#[local] Instance text : AccAddressText := { AccAddress_String a := String "a" (bytes_string a) }.
#[local] Instance versions : Semver :=
  {| semver_version := string; semver_NewVersion v := Some v; semver_error _ := "invalid";
     semver_String v := v; semver_LessThan _ _ := false |}.

Definition staking : StakingKeeper := {| sk_Validator _ := Ok None; sk_Delegation _ _ := Ok None |}.
Definition ctx_at (height : Z) : Ctx :=
  {| BlockHeight := height; BlockTime := 0; HeaderHash := []; stakingKeeper := staking |}.

(** A pool of 10^9 units; three and one billion bytes. *)
Definition purse : @bank vault := {[ (Ledger.address_of_module "supernode", "ulume"%string) := 1000000000%N ]}.
Definition chain (sn : sn_store) : st rw_store := St (RwStore sn purse 0 [] ∅ ∅) [].
Definition gib : Z := 1073741824.
Definition fed (account : string) : sn_store :=
  Registry.reported "val2" (f64_of_Z (2 * gib)) 110
    (Registry.reported "val1" (f64_of_Z (6 * gib)) 100 (store (Registry.two account))).
Definition now : Ctx := ctx_at 120.

Lemma fed_inv account : sn_inv (fed account).
Proof. exact (Registry.two_inv account). Qed.


(** The conditions of a payment, as a boolean. *)
Definition finiteb (ctx : Ctx) (s : rw_store) (sn : SuperNode) : bool :=
  match fresh_bytes ctx (SupernodeAccount sn) s with
  | None => true
  | Some raw => json_float raw && json_float (smoothedBytes (candidate_of ctx s sn raw))
  end.
Definition payableb (ctx : Ctx) (s : rw_store) : bool :=
  let cs := candidates ctx s in
  let n := zlen cs in
  forallb (finiteb ctx s) (GetAllSuperNodes payable_states (rw_sn s)) &&
  forallb (λ c, match effectiveWeight c with S754_finite false _ e => -1074 <=? e | _ => false end) cs &&
  (2 ^ 1075 <=? weights cs) && (weights cs <? 2 ^ 1201) && (0 <? pool s) && (1 <=? n) && (n <? 2 ^ 20) &&
  (pool s * (n + 6) <=? 2 ^ 52).
Lemma payableb_ok ctx s : payableb ctx s = true → payment_ok ctx s.
Proof.
  unfold payableb. rewrite !andb_true_iff, !Z.leb_le, !Z.ltb_lt, !forallb_forall.
  intros [[[[[[[Hf Hw] Hlo] Hhi] Hpos] Hn] Hn'] Hp]. split.
  - apply Forall_forall. intros sn Hsn raw Er. apply list_elem_of_In in Hsn. specialize (Hf sn Hsn).
    unfold finiteb in Hf. rewrite Er in Hf. by apply andb_true_iff in Hf.
  - intros c Hc. apply list_elem_of_In in Hc. specialize (Hw c Hc). cbv beta in Hw.
    destruct (effectiveWeight c) as [| | |[]]; try done. by apply Z.leb_le.
  - done.
  - split; [done|]. split_and!; [lia|done|done|done].
Qed.

Definition good : st rw_store := chain (fed "asn2").
Definition listed : list (string * string * float64) :=
  [("vval1", "asn1", f64_of_Z (6 * gib / 4)); ("vval2", "asn2", f64_of_Z (2 * gib / 4))]%string.
Lemma good_candidates :
  (λ c, (validatorAddr c, supernodeAccount c, effectiveWeight c)) <$> candidates now (store good) = listed.
Proof. vm_compute. reflexivity. Qed.
Lemma good_payable : payableb now (store good) = true.
Proof. vm_compute. reflexivity. Qed.
Lemma good_due : payment_due now (store good) = true.
Proof. vm_compute. reflexivity. Qed.
Lemma good_payees : payees_ok now (store good).
Proof.
  intros c a Hc Ha. apply (list_elem_of_fmap_2 (λ c, (validatorAddr c, supernodeAccount c, effectiveWeight c))) in Hc.
  rewrite good_candidates in Hc. unfold listed in Hc. rewrite !elem_of_cons in Hc.
  destruct Hc as [[= _ E _]|[[= _ E _]|Hc]]; [| |by apply not_elem_of_nil in Hc]; rewrite E in Ha;
    injection Ha as <-; by split.
Qed.

Lemma paid_amount ps (b b' : @bank vault) a n :
  paid ps b b' → a ≠ module_address sn_ModuleName → GetBalance b a everlightDenom = 0 →
  GetBalance b' a everlightDenom = n → paid_to a ps = n.
Proof.
  intros Hp Ha E0 En. specialize (Hp a everlightDenom). rewrite En, E0, decide_True, decide_False in Hp by done.
  lia.
Qed.

(** The two supernodes are paid three quarters and one quarter of the pool. *)
Lemma distribution_pays_witness :
  ∃ ps s', sn_EndBlocker now good = (Ok tt, s') ∧ distributed now (store good) (store s') ps ∧
    paid_to (string_bytes "sn1") ps = 750000000 ∧ paid_to (string_bytes "sn2") ps = 250000000.
Proof.
  destruct (distribution_pays now good (fed_inv "asn2") good_due (payableb_ok _ _ good_payable) good_payees)
    as (ps & s' & Hrun & Hd). exists ps, s'. split; [exact Hrun|]. split; [exact Hd|].
  assert (s' = (sn_EndBlocker now good).2) as Es by (rewrite Hrun; reflexivity).
  split; (eapply paid_amount; [exact (done_bank _ _ _ _ Hd)|discriminate|vm_compute; reflexivity|
    rewrite Es; vm_compute; reflexivity]).
Defined.

Definition forming : result (list snCandidate) * st rw_store :=
  build_candidates now (GetAllSuperNodes payable_states (rw_sn (store good))) good.
Definition formed : list snCandidate := match forming.1 with Ok cs => cs | Err _ => [] end.
Lemma forming_ok : forming = (Ok formed, forming.2).
Proof.
  assert (is_ok forming.1 = true) as Hok by (vm_compute; reflexivity). unfold formed.
  destruct forming as [[cs|] s]; [reflexivity|discriminate Hok].
Qed.
Definition node2 : SuperNode :=
  default {| ValidatorAddress := ""; States := []; EvidenceList := []; PrevIpAddresses := []; Note := "";
             AggregateMetrics := None; SupernodeAccount := ""; P2PPort := ""; PrevSupernodeAccounts := [] |}
    (sn_records (rw_sn (store good)) !! string_bytes "val2").
Lemma node2_ok : sn_records (rw_sn (store good)) !! string_bytes "val2" = Some node2.
Proof. vm_compute. reflexivity. Qed.

Lemma node2_account : SupernodeAccount node2 = "asn2"%string.
Proof. vm_compute. reflexivity. Qed.

Lemma eligibility_agrees_witness :
  CountEligibleSNs now (store good) = 2 ∧
  qe_Eligible (SNEligibility now "vval2" (store good)) = true.
Proof.
  destruct (eligibility_agrees now good forming.2 formed (fed_inv "asn2") forming_ok) as [Hn Hq].
  destruct (Hq (string_bytes "val2") node2 node2_ok) as [[_ Hback] _]. split.
  - rewrite Hn. vm_compute. reflexivity.
  - assert (ValidatorAddress node2 = "vval2"%string) as Ea by (vm_compute; reflexivity).
    rewrite Ea in Hback. apply Hback.
    destruct formed as [|c1 [|c2 cs]] eqn:Ef; [exfalso; vm_compute in Ef; discriminate Ef..|].
    exists c2. split; [right; left|]. vm_compute in Ef. injection Ef as <- <- <-. reflexivity.
Defined.

(** The second supernode changes its account to one that cannot receive. *)
Definition stuck : st rw_store := chain (fed "asn9").
Lemma stuck_payable : payableb now (store stuck) = true.
Proof. vm_compute. reflexivity. Qed.
Lemma refused_recipient_halts_witness : is_ok (sn_EndBlocker now stuck).1 = false.
Proof.
  destruct (candidates now (store stuck)) as [|c1 [|c2 cs]] eqn:E;
    [exfalso; vm_compute in E; discriminate E|exfalso; vm_compute in E; discriminate E|].
  apply (refused_recipient_halts now stuck c2 Vault.blocked (fed_inv "asn9") ltac:(vm_compute; reflexivity)
    (payableb_ok _ _ stuck_payable)); rewrite ?E; [right; left| | |..].
  all: vm_compute in E; injection E as <- <- <-; try reflexivity; vm_compute; discriminate.
Defined.

(** A supernode that reports NaN bytes. *)
Definition nan_report : MsgReportSupernodeMetrics :=
  {| rep_ValidatorAddress := "vval2"; rep_SupernodeAccount := "asn2"; rep_Metrics := Registry.metrics S754_nan |}.
Definition after : result (bool * list string) * st sn_store :=
  ReportSupernodeMetrics (ctx_at 115) nan_report (St (fed "asn2") []).
Lemma after_typed : reward_typed (reward_params (store (chain (store after.2)))).
Proof.
  assert (reward_params (store (chain (store after.2))) = DefaultRewardDistribution) as -> by (vm_compute; reflexivity).
  split; vm_compute; split; congruence.
Qed.
Lemma nonfinite_report_halts_witness :
  is_ok after.1 = true ∧ is_ok (sn_EndBlocker now (chain (store after.2))).1 = false.
Proof.
  destruct (nonfinite_report_halts (ctx_at 115) nan_report (string_bytes "val2") node2 SuperNodeStateActive
    (St (fed "asn2") []) (fed_inv "asn2") node2_ok eq_refl) as (issues & s1 & Hrun & Hhalt);
    [vm_compute; reflexivity|rewrite node2_account; by eexists|vm_compute; reflexivity..|].
  fold after in Hrun. assert (after.2 = s1) as Es by (rewrite Hrun; reflexivity).
  split; [rewrite Hrun; reflexivity|]. apply Hhalt; [rewrite Es; reflexivity|apply after_typed|apply map_Forall_empty|..];
    vm_compute; first [reflexivity|discriminate].
Defined.
End Payments.
