(* ===== verification/GoTime.v ===== *)
(** * time.Time

    Go's instants in UTC: seconds since 1970 and nanoseconds, the proleptic Gregorian
    calendar of Date and AddDate, and the text of String. *)
From Stdlib Require Import ZArith Lia.
From stdpp Require Import base numbers strings list.
From S2P Require Import Prelude.
Open Scope Z_scope.

Record Time := mkTime { t_sec : Z; t_nsec : Z }.

(** The seconds are kept since the year 1, in an int64. *)
Definition unixToInternal : Z := 62135596800.
Definition time_Unix (sec nsec : Z) : Time :=
  mkTime (i64 (sec + nsec / 10 ^ 9 + unixToInternal) - unixToInternal) (nsec mod 10 ^ 9).
Definition After (t u : Time) : bool :=
  (t_sec u <? t_sec t) || ((t_sec t =? t_sec u) && (t_nsec u <? t_nsec t)).

(** ** The calendar

    Days are counted from 1970-01-01; years start in March, so that the leap day is
    the last of a year, and repeat every 400 years. *)
Definition leap_year (y : Z) : bool := (y mod 4 =? 0) && (negb (y mod 100 =? 0) || (y mod 400 =? 0)).
Definition days_in_month (y m : Z) : Z :=
  if m =? 2 then (if leap_year y then 29 else 28)
  else if (m =? 4) || (m =? 6) || (m =? 9) || (m =? 11) then 30 else 31.

(** Days from 0000-03-01 to the first of March of year [y]; [y] counts from March. *)
Definition year_start (y : Z) : Z := 365 * y + y / 4 - y / 100 + y / 400.
(** Days from the first of March to the first of the [i]-th month after it. *)
Definition month_start (i : Z) : Z := (153 * i + 2) / 5.
Definition epoch_days : Z := 719468.

Definition days_from_civil (y m d : Z) : Z :=
  let y' := if m <=? 2 then y - 1 else y in
  let i := if m <=? 2 then m + 9 else m - 3 in
  year_start y' + month_start i + (d - 1) - epoch_days.
(** The year and the day in it: 400 years, 100 years, 4 years, one year; the last of
    four centuries and the last of four years may be one day longer. *)
Definition year_of_days (z : Z) : Z * Z :=
  let n := z / 146097 in
  let r := z mod 146097 in
  let c := r / 36524 - r / 36524 / 4 in
  let r1 := r - 36524 * c in
  let q := r1 / 1461 in
  let r2 := r1 - 1461 * q in
  let k := r2 / 365 - r2 / 365 / 4 in
  (400 * n + 100 * c + 4 * q + k, r2 - 365 * k).
Definition civil_from_days (z : Z) : Z * Z * Z :=
  let '(y, doy) := year_of_days (z + epoch_days) in
  let i := (5 * doy + 2) / 153 in
  let m := if i <? 10 then i + 3 else i - 9 in
  ((if m <=? 2 then y + 1 else y), m, doy - month_start i + 1).

Definition valid_civil (c : Z * Z * Z) : Prop :=
  let '(y, m, d) := c in 1 ≤ m ≤ 12 ∧ 1 ≤ d ≤ days_in_month y m.

(** Date and Clock of an instant; Date with a month and a day that may be out of range. *)
Definition Time_Date (t : Time) : Z * Z * Z := civil_from_days (t_sec t / 86400).
Definition Date (y m d : Z) (clock nsec : Z) : Time :=
  mkTime ((days_from_civil (y + (m - 1) / 12) ((m - 1) mod 12 + 1) 1 + (d - 1)) * 86400 + clock) nsec.
Definition AddDate (t : Time) (years months days : Z) : Time :=
  let '(y, m, d) := Time_Date t in
  Date (y + years) (m + months) (d + days) (t_sec t mod 86400) (t_nsec t).

(** ** Text: 2006-01-02 15:04:05.999999999 -0700 MST *)
Definition pad2 (n : Z) : string := if n <? 10 then ("0" +:+ FormatInt n)%string else FormatInt n.
(** The digits of a fraction of a second without trailing zeros *)
Fixpoint fraction (k : nat) (n : Z) : string :=
  match k with
  | O => ""
  | S k' => if n =? 0 then "" else
      (FormatInt (n / 10 ^ Z.of_nat k')%Z +:+ fraction k' (n mod 10 ^ Z.of_nat k')%Z)%string
  end.
Definition year_text (y : Z) : string :=
  let a := Z.abs y in
  let digits := FormatInt a in
  ((if (y <? 0)%Z then "-" else "") +:+
   (if (a <? 10)%Z then "000" else if (a <? 100)%Z then "00" else if (a <? 1000)%Z then "0" else "") +:+ digits)%string.
Definition Time_String (t : Time) : string :=
  let '(y, m, d) := Time_Date t in
  let c := t_sec t mod 86400 in
  (year_text y +:+ "-" +:+ pad2 m +:+ "-" +:+ pad2 d +:+ " " +:+ pad2 (c / 3600)%Z +:+ ":" +:+
   pad2 (c / 60 mod 60)%Z +:+ ":" +:+ pad2 (c mod 60)%Z +:+
   (if (t_nsec t =? 0)%Z then "" else "." +:+ fraction 9 (t_nsec t)) +:+ " +0000 UTC")%string.

(** Linear arithmetic with quotients by constants. *)
Ltac dlia := Z.div_mod_to_equations; lia.

(** ** The calendar is a bijection *)
Lemma year_of_days_spec z :
  let '(y, doy) := year_of_days z in
  z = year_start y + doy ∧ 0 ≤ doy ∧ year_start y + doy < year_start (y + 1).
Proof.
  unfold year_of_days, year_start.
  assert (z = 146097 * (z / 146097) + z mod 146097 ∧ 0 ≤ z mod 146097 < 146097) as [Hz Hr].
  { pose proof (Z.div_mod z 146097). pose proof (Z.mod_pos_bound z 146097). lia. }
  revert Hz Hr. generalize (z / 146097) (z mod 146097). intros n r -> Hr. set (c := r / 36524 - r / 36524 / 4). set (r1 := r - 36524 * c).
  assert (0 ≤ c < 4 ∧ 0 ≤ r1 ≤ 36524 ∧ (r1 = 36524 → c = 3)) as (Hc & Hr1 & Hc3) by (unfold r1, c; dlia).
  assert (r = 36524 * c + r1) as Er by lia. clearbody c r1. subst r. set (q := r1 / 1461).
  set (r2 := r1 - 1461 * q).
  assert (0 ≤ q < 25 ∧ 0 ≤ r2 < 1461 ∧ (q = 24 → r2 = 1460 → r1 = 36524)) as (Hq & Hr2 & Hq24) by (unfold r2, q; dlia).
  assert (r1 = 1461 * q + r2) as Er by lia. clearbody q r2. subst r1. set (k := r2 / 365 - r2 / 365 / 4).
  assert (0 ≤ k < 4 ∧ 0 ≤ r2 - 365 * k < 366 ∧ (r2 - 365 * k = 365 → k = 3)) as (Hk & Hd & Hk3) by (unfold k; dlia).
  set (doy := r2 - 365 * k) in *. assert (r2 = 365 * k + doy) as Er by lia. clearbody k doy. subst r2.
  set (y := 400 * n + 100 * c + 4 * q + k).
  assert (y / 4 = 100 * n + 25 * c + q) as -> by (unfold y; dlia).
  assert (y / 100 = 4 * n + c) as -> by (unfold y; dlia). assert (y / 400 = n) as -> by (unfold y; dlia).
  split_and!; [lia|lia|]. destruct (decide (doy = 365)) as [Ed|]; [|unfold y; dlia].
  specialize (Hk3 Ed). subst k. assert ((y + 1) / 4 = 100 * n + 25 * c + q + 1) as -> by (unfold y; dlia).
  destruct (decide (q = 24)) as [->|].
  - assert (c = 3) as -> by lia. dlia.
  - assert ((y + 1) / 100 = 4 * n + c) as -> by (unfold y; dlia). dlia.
Qed.

Lemma year_start_mono y1 y2 : y1 ≤ y2 → year_start y1 ≤ year_start y2.
Proof. intros Hy. unfold year_start. dlia. Qed.
Lemma year_start_unique y1 y2 x :
  year_start y1 ≤ x < year_start (y1 + 1) → year_start y2 ≤ x < year_start (y2 + 1) → y1 = y2.
Proof.
  intros H1 H2. destruct (Z.lt_trichotomy y1 y2) as [Hlt|[?|Hlt]]; [|done|].
  - pose proof (year_start_mono (y1 + 1) y2). lia.
  - pose proof (year_start_mono (y2 + 1) y1). lia.
Qed.

Lemma year_length y : year_start (y + 1) - year_start y = if leap_year (y + 1) then 366 else 365.
Proof.
  unfold year_start, leap_year.
  destruct (Z.eqb_spec ((y + 1) mod 4) 0), (Z.eqb_spec ((y + 1) mod 100) 0), (Z.eqb_spec ((y + 1) mod 400) 0);
    cbn [andb orb negb]; dlia.
Qed.

(** The months from March on, by number. *)
Lemma month_length y i :
  0 ≤ i < 12 → i ≠ 11 →
  month_start (i + 1) - month_start i = days_in_month y (if i <? 10 then i + 3 else i - 9).
Proof.
  intros Hi Hne. assert (i = 0 ∨ i = 1 ∨ i = 2 ∨ i = 3 ∨ i = 4 ∨ i = 5 ∨ i = 6 ∨ i = 7 ∨ i = 8 ∨ i = 9 ∨ i = 10)
    as Hd by lia. by destruct_or! Hd; subst.
Qed.
Lemma month_of_day doy :
  0 ≤ doy < 366 →
  let i := (5 * doy + 2) / 153 in 0 ≤ i < 12 ∧ month_start i ≤ doy < month_start (i + 1).
Proof. intros Hd i. unfold month_start, i. dlia. Qed.
Lemma month_start_unique i j x :
  month_start i ≤ x < month_start (i + 1) → month_start j ≤ x < month_start (j + 1) → i = j.
Proof. unfold month_start. intros H1 H2. dlia. Qed.

Lemma civil_of_days z :
  let '(y, m, d) := civil_from_days z in days_from_civil y m d = z ∧ valid_civil (y, m, d).
Proof.
  unfold civil_from_days. pose proof (year_of_days_spec (z + epoch_days)) as Hy.
  destruct (year_of_days (z + epoch_days)) as [y doy]. destruct Hy as (Hz & Hd & Hlt).
  pose proof (year_length y) as Hlen.
  assert (doy < 366) as H366 by (destruct (leap_year (y + 1)); lia).
  destruct (month_of_day doy (conj Hd H366)) as [Hi Hm]. set (i := (5 * doy + 2) / 153) in *. clearbody i.
  set (m := if i <? 10 then i + 3 else i - 9). cbv zeta.
  assert (1 ≤ m ≤ 12 ∧ (m ≤ 2 ↔ 10 ≤ i)) as [Hm12 Hmi] by (unfold m; destruct (Z.ltb_spec i 10); lia).
  assert ((if m <=? 2 then m + 9 else m - 3) = i) as Ei.
  { unfold m. destruct (Z.ltb_spec i 10); [rewrite (proj2 (Z.leb_gt _ _))|rewrite (proj2 (Z.leb_le _ _))]; lia. }
  split; [|split; [done|split; [lia|]]].
  - unfold days_from_civil. rewrite Ei. destruct (Z.leb_spec m 2); rewrite ?Z.add_simpl_r; lia.
  - destruct (decide (i = 11)) as [->|Hne].
    + subst m. cbn [Z.ltb Z.compare Pos.compare Pos.compare_cont]. change (11 <? 10) with false. cbn iota.
      change (11 - 9 <=? 2) with true. cbn iota. unfold days_in_month. change (11 - 9 =? 2) with true. cbn iota.
      change (month_start 11) with 337. destruct (leap_year (y + 1)); lia.
    + rewrite <-(month_length _ i) by lia. lia.
Qed.

Lemma civil_inverse y m d :
  valid_civil (y, m, d) → civil_from_days (days_from_civil y m d) = (y, m, d).
Proof.
  intros [Hm Hd]. unfold civil_from_days, days_from_civil.
  set (y' := if m <=? 2 then y - 1 else y). set (i := if m <=? 2 then m + 9 else m - 3).
  rewrite Z.sub_add. set (doy := month_start i + (d - 1)). rewrite <-Z.add_assoc. fold doy.
  assert (0 ≤ i < 12 ∧ (if i <? 10 then i + 3 else i - 9) = m) as [Hi Em].
  { unfold i. destruct (Z.leb_spec m 2); [rewrite (proj2 (Z.ltb_ge _ _))|rewrite (proj2 (Z.ltb_lt _ _))]; lia. }
  assert (d ≤ (if decide (i = 11) then (if leap_year (y' + 1) then 29 else 28)
               else month_start (i + 1) - month_start i)) as Hd2.
  { case_decide as Ei.
    - assert (m = 2) as -> by (rewrite Ei in Em; simpl in Em; lia). unfold y'. simpl. rewrite Z.sub_add. apply Hd.
    - rewrite (month_length y), Em by done. lia. }
  pose proof (year_length y') as Hlen.
  assert (0 ≤ doy ∧ year_start y' + doy < year_start (y' + 1) ∧ month_start i ≤ doy < month_start (i + 1))
    as (Hdoy & Hlt & Hmo).
  { unfold doy. case_decide as Ei.
    - rewrite Ei. change (month_start 11) with 337. change (month_start (11 + 1)) with 367.
      destruct (leap_year (y' + 1)); lia.
    - assert (0 ≤ month_start i ∧ month_start (i + 1) ≤ 337) by (unfold month_start; dlia).
      destruct (leap_year (y' + 1)); lia. }
  pose proof (year_of_days_spec (year_start y' + doy)) as Hy.
  destruct (year_of_days (year_start y' + doy)) as [y2 doy2]. destruct Hy as (Hz & Hd0 & Hlt2).
  assert (y2 = y') as -> by (apply (year_start_unique _ _ (year_start y' + doy)); lia).
  assert (doy2 = doy) as -> by lia.
  assert (doy < 366) as H366 by (destruct (leap_year (y' + 1)); lia).
  destruct (month_of_day doy (conj Hdoy H366)) as [Hj Hmj].
  rewrite (month_start_unique _ i doy Hmj Hmo), Em. f_equal; [f_equal|unfold doy; lia].
  unfold y'. destruct (Z.leb_spec m 2); lia.
Qed.

(** ** Adding months *)

(** The number of days before the first of the [n]-th month, counted from year 0. *)
Definition first_of (n : Z) : Z := days_from_civil (n / 12) (n mod 12 + 1) 1.
Lemma first_of_next n : first_of (n + 1) - first_of n = days_in_month (n / 12) (n mod 12 + 1).
Proof.
  unfold first_of, days_from_civil. set (y := n / 12). set (m := n mod 12 + 1).
  assert (1 ≤ m ≤ 12 ∧ n = 12 * y + m - 1) as [Hm En] by (unfold m, y; dlia).
  assert ((n + 1) / 12 = (if m =? 12 then y + 1 else y) ∧ (n + 1) mod 12 + 1 = (if m =? 12 then 1 else m + 1))
    as [-> ->] by (destruct (Z.eqb_spec m 12); split; dlia).
  clearbody y m. pose proof (year_length (y - 1)) as Hl. rewrite Z.sub_add in Hl.
  assert (m = 1 ∨ m = 2 ∨ m = 3 ∨ m = 4 ∨ m = 5 ∨ m = 6 ∨ m = 7 ∨ m = 8 ∨ m = 9 ∨ m = 10 ∨ m = 11 ∨ m = 12)
    as Hd by lia.
  revert Hl. destruct_or! Hd; subst m; unfold month_start, days_in_month; simpl;
    rewrite ?Z.add_simpl_r; try destruct (leap_year y); intros Hl; dlia.
Qed.

Lemma AddDate_months t n :
  let '(y, m, d) := Time_Date t in
  t_sec (AddDate t 0 n 0) =
    t_sec t + 86400 * (first_of (12 * y + (m - 1) + n) - first_of (12 * y + (m - 1))).
Proof.
  unfold AddDate, Time_Date. pose proof (civil_of_days (t_sec t / 86400)) as Hc.
  destruct (civil_from_days (t_sec t / 86400)) as [[y m] d]. destruct Hc as [Hc [Hm _]].
  unfold Date, first_of. cbn [t_sec].
  assert (y + 0 + (m + n - 1) / 12 = (12 * y + (m - 1) + n) / 12 ∧
    (m + n - 1) mod 12 + 1 = (12 * y + (m - 1) + n) mod 12 + 1) as [-> ->] by (split; dlia).
  assert ((12 * y + (m - 1)) / 12 = y ∧ (12 * y + (m - 1)) mod 12 + 1 = m) as [-> ->] by (split; dlia).
  assert (days_from_civil y m d = days_from_civil y m 1 + (d - 1)) as E by (unfold days_from_civil; lia).
  pose proof (Z.div_mod (t_sec t) 86400 ltac:(done)). lia.
Qed.

(** The length of month [i], counted from January of a year that is a leap year by
    [l0] and whose successor is by [l1]. *)
Definition month_days (l0 l1 : bool) (i : Z) : Z :=
  let m := i mod 12 + 1 in
  if m =? 2 then (if (if i <? 12 then l0 else l1) then 29 else 28) else days_in_month 0 m.
Lemma month_days_spec n j :
  0 ≤ j < 12 →
  days_in_month ((n + j) / 12) ((n + j) mod 12 + 1) =
  month_days (leap_year (n / 12)) (leap_year (n / 12 + 1)) (n mod 12 + j).
Proof.
  intros Hj. unfold month_days, days_in_month.
  assert ((n + j) mod 12 = (n mod 12 + j) mod 12) as <- by dlia.
  destruct ((n + j) mod 12 + 1 =? 2); [|done].
  destruct (Z.ltb_spec (n mod 12 + j) 12).
  - by assert ((n + j) / 12 = n / 12) as -> by dlia.
  - by assert ((n + j) / 12 = n / 12 + 1) as -> by dlia.
Qed.
Lemma six_months_sum l0 l1 r :
  0 ≤ r < 12 →
  181 ≤ month_days l0 l1 r + month_days l0 l1 (r + 1) + month_days l0 l1 (r + 2) +
        month_days l0 l1 (r + 3) + month_days l0 l1 (r + 4) + month_days l0 l1 (r + 5) ≤ 184.
Proof.
  intros Hr.
  assert (r = 0 ∨ r = 1 ∨ r = 2 ∨ r = 3 ∨ r = 4 ∨ r = 5 ∨ r = 6 ∨ r = 7 ∨ r = 8 ∨ r = 9 ∨ r = 10 ∨ r = 11)
    as Hd by lia.
  destruct_or! Hd; subst r; destruct l0, l1; vm_compute; split; discriminate.
Qed.
(** Six months are 181 to 184 days. *)
Lemma six_months n : 181 ≤ first_of (n + 6) - first_of n ≤ 184.
Proof.
  pose proof (six_months_sum (leap_year (n / 12)) (leap_year (n / 12 + 1)) (n mod 12)
    ltac:(by apply Z.mod_pos_bound)) as Hs. rewrite <-!month_days_spec in Hs by lia.
  assert (month_days (leap_year (n / 12)) (leap_year (n / 12 + 1)) (n mod 12) = days_in_month (n / 12) (n mod 12 + 1))
    as E.
  { pose proof (month_days_spec n 0 ltac:(lia)) as E. by rewrite !Z.add_0_r in E. }
  rewrite E, <-!first_of_next in Hs. rewrite <-!Z.add_assoc in Hs.
  change (1 + 1) with 2 in Hs. change (2 + 1) with 3 in Hs. change (3 + 1) with 4 in Hs.
  change (4 + 1) with 5 in Hs. change (5 + 1) with 6 in Hs. lia.
Qed.
Lemma half_years n k : 0 ≤ k → 181 * k ≤ first_of (n + 6 * k) - first_of n ≤ 184 * k.
Proof.
  intros Hk. pattern k. apply natlike_ind; [rewrite Z.mul_0_r, Z.add_0_r; lia| |done].
  intros j Hj IH. pose proof (six_months (n + 6 * j)) as Hs.
  replace (n + 6 * Z.succ j) with (n + 6 * j + 6) by lia. lia.
Qed.

(** A day that exists in the target month is kept. *)
Lemma AddDate_date t n :
  let '(y, m, d) := Time_Date t in
  let y' := y + (m - 1 + n) / 12 in
  let m' := (m - 1 + n) mod 12 + 1 in
  d ≤ days_in_month y' m' → Time_Date (AddDate t 0 n 0) = (y', m', d).
Proof.
  unfold AddDate, Time_Date. pose proof (civil_of_days (t_sec t / 86400)) as Hc.
  destruct (civil_from_days (t_sec t / 86400)) as [[y m] d]. destruct Hc as [_ [_ Hd]].
  set (y' := y + (m - 1 + n) / 12). set (m' := (m - 1 + n) mod 12 + 1). intros Hd'. unfold Date. cbn [t_sec].
  replace (m + n - 1) with (m - 1 + n) by lia. rewrite Z.add_0_r. fold y'. fold m'.
  assert (0 ≤ t_sec t mod 86400 < 86400) by (by apply Z.mod_pos_bound).
  rewrite Z.div_add_l, Z.div_small, Z.add_0_r by lia. rewrite Z.add_0_r.
  replace (days_from_civil y' m' 1 + (d - 1)) with (days_from_civil y' m' d) by (unfold days_from_civil; lia).
  apply civil_inverse. split; [unfold m'; dlia|lia].
Qed.

(** 2025-08-31 12:00:00.5 plus six months is 2026-03-03. *)
Lemma AddDate_overflow :
  let t := mkTime 1756641600 500000000 in
  Time_String t = "2025-08-31 12:00:00.5 +0000 UTC"%string ∧
  Time_String (AddDate t 0 6 0) = "2026-03-03 12:00:00.5 +0000 UTC"%string.
Proof. vm_compute. by split. Qed.
