(* ===== verification/Claim.v ===== *)
(** * x/claim: claims of balances of the old chain

    keeper/msg_server_claim.go, msg_server_delayed_claim.go, claim_record.go,
    claim_count_per_block.go, abci.go, params.go, msg_update_params.go,
    keeper/crypto/utils.go, types/params.go, types/message_claim.go,
    types/message_delayed_claim.go and module/genesis.go. *)
From Stdlib Require Import ZArith Lia Ascii.
From stdpp Require Import base numbers strings list gmap.
From S2P Require Import Prelude Sdk Bank GoHash GoTime SupernodeParams AuditEvidence.
Open Scope Z_scope.

(** ** Interfaces *)

(** RIPEMD-160, base58 and secp256k1 *)
Class ClaimCrypto := {
  ripemd160 : bytes → bytes;
  base58_text : bytes → string;
  (** key, message, signature; the message is hashed again *)
  secp256k1_VerifySignature : bytes → bytes → bytes → bool;
  secp256k1_PrivKey : Type;
  secp256k1_PubKey : secp256k1_PrivKey → bytes;
  secp256k1_Sign : secp256k1_PrivKey → bytes → result bytes
}.
(** Account types of x/auth and x/auth/vesting *)
Class AuthTypes := {
  BaseAccount : Type;
  BaseVestingAccount : Type;
  OtherAccount : Type;
  NewBaseAccountWithAddress : bytes → BaseAccount;
  NewBaseVestingAccount : BaseAccount → list Coin → Z → result BaseVestingAccount
}.
(** The dynamic type of an account: *BaseAccount, *DelayedVestingAccount, any other *)
Inductive AccountI `{AuthTypes} :=
| IsBaseAccount (a : BaseAccount)
| IsDelayedVestingAccount (v : BaseVestingAccount)
| IsOtherAccount (o : OtherAccount).
(** AccountI.GetAddress *)
Class AccountAddresses `{AuthTypes} := { account_address : AccountI → bytes }.
(** The account keeper; NewAccount assigns the next account number. *)
Class AccountKeeper `{AuthTypes} := {
  accounts : Type;
  GetAccount : accounts → bytes → option AccountI;
  SetAccount : AccountI → accounts → accounts;
  NewAccount : AccountI → accounts → AccountI * accounts;
  NewAccountWithAddress : bytes → accounts → AccountI * accounts;
  (** finds the module account, or makes it if its permissions are known *)
  GetModuleAccount : string → accounts → bool * accounts;
  SetModuleAccount : string → list string → accounts → accounts
}.
(** math.NewIntFromString *)
Class IntParser := { NewIntFromString : string → option Z }.

(** ** Data *)
Record CParams := { EnableClaims : bool; ClaimEndTime : Z; MaxClaimsPerBlock : Z }.
Record ClaimRecord := mkClaimRecord {
  cr_OldAddress : string;
  cr_Balance : list Coin;
  cr_Claimed : bool;
  cr_ClaimTime : Z;
  cr_DestAddress : string;
  cr_VestedTier : Z
}.
Record MsgClaim := {
  cm_Creator : string; cm_OldAddress : string; cm_NewAddress : string; cm_PubKey : string;
  cm_Signature : string
}.
Record MsgDelayedClaim := {
  dm_Creator : string; dm_OldAddress : string; dm_NewAddress : string; dm_PubKey : string;
  dm_Signature : string; dm_Tier : Z
}.
(** The block, and the clock of the node *)
Record ClaimCtx := { cc_BlockTime : Time; cc_Now : Z }.

Definition claim_ModuleName : string := "claim".
Definition DefaultClaimsDenom : string := "ulume".

Section Store.
Context `{BankKeeper} `{AccountKeeper}.
Record claim_store := ClaimStore {
  cl_records : gmap string ClaimRecord;
  cl_count : Z;
  (** the transient store: the claims of this block *)
  cl_block : Z;
  cl_params : option CParams;
  cl_bank : bank;
  cl_accounts : accounts
}.
Definition put_records (f : gmap string ClaimRecord → gmap string ClaimRecord) (s : claim_store) :=
  ClaimStore (f (cl_records s)) (cl_count s) (cl_block s) (cl_params s) (cl_bank s) (cl_accounts s).
Definition put_count (n : Z) (s : claim_store) :=
  ClaimStore (cl_records s) n (cl_block s) (cl_params s) (cl_bank s) (cl_accounts s).
Definition put_block (n : Z) (s : claim_store) :=
  ClaimStore (cl_records s) (cl_count s) n (cl_params s) (cl_bank s) (cl_accounts s).
Definition put_params (p : CParams) (s : claim_store) :=
  ClaimStore (cl_records s) (cl_count s) (cl_block s) (Some p) (cl_bank s) (cl_accounts s).
Definition put_cbank (b : bank) (s : claim_store) :=
  ClaimStore (cl_records s) (cl_count s) (cl_block s) (cl_params s) b (cl_accounts s).
Definition put_accounts (a : accounts) (s : claim_store) :=
  ClaimStore (cl_records s) (cl_count s) (cl_block s) (cl_params s) (cl_bank s) a.
End Store.

(** ** types *)
Definition CParams_Validate (p : CParams) : result unit :=
  if MaxClaimsPerBlock p <? 1 then Err (ErrOther "invalid max claims per block") else
  if ClaimEndTime p <? 1 then Err (ErrOther "invalid claim duration") else Ok tt.
(** The end time is 400 hours after the clock of the node. *)
Definition CDefaultParams (now : Z) : CParams :=
  {| EnableClaims := true; ClaimEndTime := now + 400 * 3600; MaxClaimsPerBlock := 100 |}.

Section Messages.
Context `{SdkAddress}.
Definition MsgClaim_ValidateBasic (msg : MsgClaim) : result unit :=
  match AccAddressFromBech32 (cm_Creator msg) with None => Err ErrInvalidAddress | Some _ => Ok tt end.
Definition MsgDelayedClaim_ValidateBasic (msg : MsgDelayedClaim) : result unit :=
  match AccAddressFromBech32 (dm_Creator msg) with
  | None => Err ErrInvalidAddress
  | Some _ => if (dm_Tier msg <? 1) || (5 <? dm_Tier msg) then Err ErrInvalidRequest else Ok tt
  end.
End Messages.

(** ** encoding/hex *)
Definition hex_value (c : ascii) : option Z :=
  let n := Z.of_nat (nat_of_ascii c) in
  if (48 <=? n) && (n <=? 57) then Some (n - 48)
  else if (97 <=? n) && (n <=? 102) then Some (n - 87)
  else if (65 <=? n) && (n <=? 70) then Some (n - 55) else None.
Fixpoint hex_DecodeString (s : string) : option bytes :=
  match s with
  | EmptyString => Some []
  | String a (String b s') =>
      x ← hex_value a; y ← hex_value b; r ← hex_DecodeString s'; Some (16 * x + y :: r)
  | String _ EmptyString => None
  end.

(** ** crypto/utils.go *)
Section Crypto.
Context `{ClaimCrypto}.
Definition GetAddressFromPubKey (pubKey : string) : option string :=
  if decide (pubKey = "") then None else
  publicKeyBytes ← hex_DecodeString pubKey;
  let pubKeyHash := ripemd160 (Sha256.sum256 publicKeyBytes) in
  let versionedPayload := [0x0c; 0xe3] ++ pubKeyHash in
  let checksum := take 4 (Sha256.sum256 (Sha256.sum256 versionedPayload)) in
  Some (base58_text (versionedPayload ++ checksum)).
Definition VerifySignature (compressedPubKeyHex message signatureHex : string) : option bool :=
  compressedPubKey ← hex_DecodeString compressedPubKeyHex;
  if negb ((length compressedPubKey =? 33)%nat
           && (bool_decide (head compressedPubKey = Some 2) || bool_decide (head compressedPubKey = Some 3)))
  then None else
  signature ← hex_DecodeString signatureHex;
  if negb (length signature =? 65)%nat then None else
  let messageHash := Sha256.sum256 (string_bytes message) in
  Some (secp256k1_VerifySignature compressedPubKey messageHash (drop 1 signature)).
(** The recovery byte is always 27. *)
Definition SignMessage (privKey : option secp256k1_PrivKey) (message : string) : result string :=
  match privKey with
  | None => Err (ErrOther "private key cannot be nil")
  | Some privKey =>
      let messageHash := Sha256.sum256 (string_bytes message) in
      match secp256k1_Sign privKey messageHash with
      | Err _ => Err (ErrOther "failed to sign message")
      | Ok signature => Ok (hex_EncodeToString (27 :: signature))
      end
  end.
End Crypto.

(** sdk.Coins.String *)
Definition Coins_String (cs : list Coin) : string := strings_Join (Coin_String <$> cs) ",".

Section Keeper.
Context `{SdkAddress} `{ClaimCrypto} `{AccountKeeper} `{BankKeeper} `{IntParser} `{DenomValidator}.

(** ** claim_record.go, claim_count_per_block.go, params.go *)
Definition GetClaimRecord (address : string) (s : claim_store) : option ClaimRecord :=
  cl_records s !! address.
Definition GetClaimRecordCount (s : claim_store) : Z := cl_count s.
Definition incrementClaimRecordCount : M claim_store unit :=
  count ← gets GetClaimRecordCount; modify (put_count (u64 (count + 1))).
Definition SetClaimRecord (claimRecord : ClaimRecord) : M claim_store unit :=
  let key := cr_OldAddress claimRecord in
  old ← gets (GetClaimRecord key);
  _ ← modify (put_records <[key := claimRecord]>);
  match old with None => incrementClaimRecordCount | Some _ => mret tt end.
Definition GetBlockClaimCount (s : claim_store) : Z := cl_block s.
Definition IncrementBlockClaimCount : M claim_store unit :=
  count ← gets GetBlockClaimCount; modify (put_block (u64 (count + 1))).
Definition CGetParams (ctx : ClaimCtx) (s : claim_store) : CParams :=
  default (CDefaultParams (cc_Now ctx)) (cl_params s).
Definition CSetParams (params : CParams) : M claim_store unit := modify (put_params params).

(** ** msg_server_claim.go, msg_server_delayed_claim.go *)
Definition AccountCreatorFunc : Type := Time → bytes → list Coin → Z → M claim_store Z.

Definition CreateBaseAccount : AccountCreatorFunc := λ _ destAddr _ _,
  acc ← gets (λ s, GetAccount (cl_accounts s) destAddr);
  match acc with
  | Some _ => mret 0
  | None =>
      acc ← lift cl_accounts put_accounts
              (λ a, let '(acc, a') := NewAccountWithAddress destAddr a in (Ok acc, a'));
      _ ← modify (λ s, put_accounts (SetAccount acc (cl_accounts s)) s);
      mret 0
  end.

Definition CreateDelayedAccount : AccountCreatorFunc := λ blockTime destAddr balance vestedTier,
  acc ← gets (λ s, GetAccount (cl_accounts s) destAddr);
  baseAccount ←
    match acc with
    | None =>
        acc ← lift cl_accounts put_accounts
                (λ a, let '(acc, a') := NewAccount (IsBaseAccount (NewBaseAccountWithAddress destAddr)) a in
                      (Ok acc, a'));
        match acc with
        | IsBaseAccount b => mret b
        | _ => fail (Panic "interface conversion")
        end
    | Some (IsBaseAccount a) => mret a
    | Some _ => fail ErrInvalidRequest
    end;
  let delayMonth := u32 (vestedTier * 6) in
  let endTime := t_sec (AddDate blockTime 0 delayMonth 0) in
  baseVestingAccount ←
    match NewBaseVestingAccount baseAccount balance endTime with
    | Ok v => mret v
    | Err _ => fail ErrInvalidRequest
    end;
  _ ← modify (λ s, put_accounts (SetAccount (IsDelayedVestingAccount baseVestingAccount) (cl_accounts s)) s);
  mret endTime.

Definition claim_signed (msg : MsgClaim) : string :=
  (cm_OldAddress msg +:+ "." +:+ cm_PubKey msg +:+ "." +:+ cm_NewAddress msg)%string.

Definition processClaim (ctx : ClaimCtx) (msg : MsgClaim) (createAccount : AccountCreatorFunc)
    (eventName : string) (vestedTier : Z) : M claim_store unit :=
  params ← gets (CGetParams ctx);
  _ ← ensure (EnableClaims params) (ErrOther "claim is disabled");
  _ ← ensure (negb (After (cc_BlockTime ctx) (time_Unix (ClaimEndTime params) 0)))
        (ErrOther "claim period has expired");
  claimsCount ← gets GetBlockClaimCount;
  _ ← ensure (negb (MaxClaimsPerBlock params <=? claimsCount)) (ErrOther "too many claims in a block");
  claimRecord ← gets (GetClaimRecord (cm_OldAddress msg)) ≫= of_option (ErrOther "claim not found");
  _ ← ensure (negb (cr_Claimed claimRecord)) (ErrOther "claim already claimed");
  reconstructedAddress ← of_option (ErrOther "invalid public key") (GetAddressFromPubKey (cm_PubKey msg));
  _ ← ensure (bool_decide (reconstructedAddress = cm_OldAddress msg))
        (ErrOther "reconstructed address does not match old address");
  valid ← of_option ErrInvalidSignature
            (VerifySignature (cm_PubKey msg) (claim_signed msg) (cm_Signature msg));
  _ ← ensure valid ErrInvalidSignature;
  _ ← IncrementBlockClaimCount;
  destAddr ← of_option (ErrOther "invalid address") (AccAddressFromBech32 (cm_NewAddress msg));
  endTime ← createAccount (cc_BlockTime ctx) destAddr (cr_Balance claimRecord) vestedTier;
  _ ← lift cl_bank put_cbank
        (SendCoinsFromModuleToAccount claim_ModuleName destAddr (cr_Balance claimRecord));
  let claimRecord := mkClaimRecord (cr_OldAddress claimRecord) (cr_Balance claimRecord) true
                       (t_sec (cc_BlockTime ctx)) (cm_NewAddress msg) vestedTier in
  _ ← SetClaimRecord claimRecord;
  emit (Event eventName
          [("module", claim_ModuleName); ("amount", Coins_String (cr_Balance claimRecord));
           ("old_address", cm_OldAddress msg); ("new_address", cm_NewAddress msg);
           ("claim_time", FormatInt (cr_ClaimTime claimRecord));
           ("delayed_end_time", FormatInt endTime)]%string).

Definition Claim (ctx : ClaimCtx) (msg : MsgClaim) : M claim_store unit :=
  processClaim ctx msg CreateBaseAccount "claim_processed" 0.
Definition DelayedClaim (ctx : ClaimCtx) (msg : MsgDelayedClaim) : M claim_store unit :=
  let msgClaim := {| cm_Creator := ""; cm_OldAddress := dm_OldAddress msg; cm_NewAddress := dm_NewAddress msg;
                     cm_PubKey := dm_PubKey msg; cm_Signature := dm_Signature msg |} in
  processClaim ctx msgClaim CreateDelayedAccount "delayed_claim_processed" (dm_Tier msg).

(** ** abci.go *)
Definition claim_EndBlocker (ctx : ClaimCtx) : M claim_store unit :=
  params ← gets (CGetParams ctx);
  if negb (EnableClaims params) then mret tt else
  if negb (After (cc_BlockTime ctx) (time_Unix (ClaimEndTime params) 1)) then mret tt else
  _ ← emit (Event "claim_period_end" [("end_time", Time_String (cc_BlockTime ctx))]%string);
  found ← lift cl_accounts put_accounts
            (λ a, let '(found, a') := GetModuleAccount claim_ModuleName a in (Ok found, a'));
  _ ← ensure found (Panic "invalid memory address or nil pointer dereference");
  let moduleAddr := module_address claim_ModuleName in
  balance ← gets (λ s, mkCoin DefaultClaimsDenom (GetBalance (cl_bank s) moduleAddr DefaultClaimsDenom));
  _ ← (if Amount balance =? 0 then mret tt else
       _ ← lift cl_bank put_cbank (BurnCoins claim_ModuleName (NewCoins balance));
       emit (Event "burn_unclaimed_tokens"
               [("amount", Coin_String balance); ("burn_time", Time_String (cc_BlockTime ctx))]%string));
  CSetParams {| EnableClaims := false; ClaimEndTime := ClaimEndTime params;
                MaxClaimsPerBlock := MaxClaimsPerBlock params |}.

(** ** msg_update_params.go *)
Definition claim_UpdateParams (authority reqAuthority : string) (params : CParams) : M claim_store unit :=
  _ ← ensure (bool_decide (authority = reqAuthority)) ErrInvalidSigner;
  CSetParams params.

(** ** module/genesis.go

    [csv] is what reading the file of claims gives, [skip] the flag
    skip-claims-check. *)
Record ClaimGenesis := {
  g_Params : CParams;
  g_ClaimRecords : list ClaimRecord;
  g_TotalClaimableAmount : Z;
  g_ClaimsDenom : string
}.
Definition csv_record (claimsDenom : string) (row : list string) : result ClaimRecord :=
  match row with
  | address :: balance :: _ =>
      match NewIntFromString balance with
      | None => Err (Panic "invalid balance in CSV row")
      | Some amount =>
          if ValidateDenom claimsDenom && (0 <=? amount)
          then Ok (mkClaimRecord address (NewCoins (mkCoin claimsDenom amount)) false 0 "" 0)
          else Err (Panic "invalid coin")
      end
  | _ => Err (Panic "invalid CSV row")
  end.
Fixpoint csv_records (claimsDenom : string) (rows : list (list string))
    : result (list ClaimRecord) :=
  match rows with
  | [] => Ok []
  | row :: rows' =>
      match csv_record claimsDenom row with
      | Err e => Err e
      | Ok r => match csv_records claimsDenom rows' with
                | Err e => Err e
                | Ok rs => Ok (r :: rs)
                end
      end
  end.
(** The slice for the records is made with room for one less than the rows. *)
Definition loadClaimRecordsFromCSV (claimsDenom : string) (csv : result (list (list string)))
    : result (list ClaimRecord) :=
  match csv with
  | Err _ => Err (Panic "failed to load CSV")
  | Ok [] => Err (Panic "makeslice: cap out of range")
  | Ok rows => csv_records claimsDenom rows
  end.
Definition initModuleAccount : M claim_store unit :=
  found ← lift cl_accounts put_accounts
            (λ a, let '(found, a') := GetModuleAccount claim_ModuleName a in (Ok found, a'));
  if (found : bool) then mret tt
  else modify (λ s, put_accounts (SetModuleAccount claim_ModuleName ["minter"; "burner"]%string (cl_accounts s)) s).
Definition claim_InitGenesis (skip : bool) (csv : result (list (list string))) (genState : ClaimGenesis)
    : M claim_store unit :=
  _ ← ensure (is_ok (CParams_Validate (g_Params genState))) (Panic "failed to validate genesis state");
  _ ← CSetParams (g_Params genState);
  _ ← initModuleAccount;
  if skip then mret tt else
  if negb (0 <? g_TotalClaimableAmount genState) then mret tt else
  let genesisClaimsDenom := g_ClaimsDenom genState in
  records ← of_result (loadClaimRecordsFromCSV genesisClaimsDenom csv);
  _ ← for_each SetClaimRecord records;
  let totalCoins := foldr (λ r acc, AmountOf (cr_Balance r) genesisClaimsDenom + acc) 0 records in
  if negb (0 <? totalCoins) then mret tt else
  _ ← ensure (totalCoins <? 2 ^ 64) (Panic "Uint64() out of bounds");
  _ ← ensure (totalCoins =? g_TotalClaimableAmount genState) (Panic "total coins in CSV does not match");
  lift cl_bank put_cbank
    (λ b, match MintCoins claim_ModuleName (NewCoins (mkCoin genesisClaimsDenom totalCoins)) b with
          | (Ok _, b') => (Ok tt, b')
          | (Err _, b') => (Err (Panic "failed to mint coins"), b')
          end).
Definition claim_ExportGenesis (ctx : ClaimCtx) (s : claim_store) : ClaimGenesis :=
  {| g_Params := CGetParams ctx s; g_ClaimRecords := []; g_TotalClaimableAmount := 0;
     g_ClaimsDenom := DefaultClaimsDenom |}.
End Keeper.
