(* ===== verification/ClaimThm.v ===== *)
(** * x/claim: the payment of a claim

    When a claim is accepted and what it does ([Claim_iff], [DelayedClaim_iff]), the
    state a record goes through, the solvency of the module account over every
    sequence of operations from genesis, and the end of the claim period. *)
From Stdlib Require Import ZArith Lia Ascii.
From stdpp Require Import base numbers strings list gmap relations.
From S2P Require Import Prelude Sdk Bank GoHash GoTime SupernodeParams AuditEvidence Claim.
Open Scope Z_scope.

(** ** Laws of the interfaces *)
Class AccountLaws `{AccountKeeper} `{!AccountAddresses} : Prop := {
  get_set_same acc a : GetAccount (SetAccount acc a) (account_address acc) = Some acc;
  get_set_other acc a d : d ≠ account_address acc → GetAccount (SetAccount acc a) d = GetAccount a d;
  get_address a d acc : GetAccount a d = Some acc → account_address acc = d;
  new_base_address d : account_address (IsBaseAccount (NewBaseAccountWithAddress d)) = d;
  (** a new account keeps its type and its address, and is not stored yet *)
  new_account_kind b a :
    ∃ b', (NewAccount (IsBaseAccount b) a).1 = IsBaseAccount b' ∧
          account_address (IsBaseAccount b') = account_address (IsBaseAccount b);
  vesting_address b cs e v :
    NewBaseVestingAccount b cs e = Ok v →
    account_address (IsDelayedVestingAccount v) = account_address (IsBaseAccount b)
}.
(** Minting, sending what the module account has to an account that may receive, and
    burning it: the module has the permissions of a minter and of a burner *)
Class ClaimBank `{BankKeeper} := { BlockedAddr : bytes → bool }.
Class ClaimBankLaws `{ClaimBank} : Prop := {
  mint_law m cs : (length cs ≤ 1)%nat → ∀ b,
    match MintCoins m cs b with
    | (Ok _, b') => ∀ a d, GetBalance b' a d =
        GetBalance b a d + (if decide (a = module_address m) then AmountOf cs d else 0)
    | (Err _, b') => b' = b
    end;
  send_funded m a cs b :
    (length cs ≤ 1)%nat → BlockedAddr a = false →
    (∀ c, c ∈ cs → 0 < Amount c ≤ GetBalance b (module_address m) (Denom c)) →
    (SendCoinsFromModuleToAccount m a cs b).1 = Ok tt;
  burn_funded cs b :
    (length cs ≤ 1)%nat →
    (∀ c, c ∈ cs → 0 < Amount c ≤ GetBalance b (module_address claim_ModuleName) (Denom c)) →
    (BurnCoins claim_ModuleName cs b).1 = Ok tt
}.

Section Payment.
Context `{SdkAddress} `{ClaimCrypto} `{AccountKeeper} `{BankKeeper}.
Implicit Types (s : claim_store) (r : ClaimRecord).

(** ** Acceptance *)
Record admissible (ctx : ClaimCtx) (msg : MsgClaim) s r (dest : bytes) : Prop := {
  adm_enabled : EnableClaims (CGetParams ctx s) = true;
  adm_open : After (cc_BlockTime ctx) (time_Unix (ClaimEndTime (CGetParams ctx s)) 0) = false;
  adm_room : cl_block s < MaxClaimsPerBlock (CGetParams ctx s);
  adm_record : cl_records s !! cm_OldAddress msg = Some r;
  adm_unclaimed : cr_Claimed r = false;
  adm_key : GetAddressFromPubKey (cm_PubKey msg) = Some (cm_OldAddress msg);
  adm_signature : VerifySignature (cm_PubKey msg) (claim_signed msg) (cm_Signature msg) = Some true;
  adm_dest : AccAddressFromBech32 (cm_NewAddress msg) = Some dest
}.

(** A record after its claim *)
Definition claimed_record (ctx : ClaimCtx) (msg : MsgClaim) (tier : Z) r : ClaimRecord :=
  mkClaimRecord (cr_OldAddress r) (cr_Balance r) true (t_sec (cc_BlockTime ctx)) (cm_NewAddress msg) tier.
Definition claim_event (ctx : ClaimCtx) (msg : MsgClaim) (name : string) (endTime : Z) r : event :=
  Event name
    [("module", claim_ModuleName); ("amount", Coins_String (cr_Balance r));
     ("old_address", cm_OldAddress msg); ("new_address", cm_NewAddress msg);
     ("claim_time", FormatInt (t_sec (cc_BlockTime ctx)));
     ("delayed_end_time", FormatInt endTime)]%string.
(** What follows the checks *)
Definition pay_claim (ctx : ClaimCtx) (msg : MsgClaim) (create : AccountCreatorFunc) (name : string)
    (tier : Z) r (dest : bytes) : M claim_store unit :=
  endTime ← create (cc_BlockTime ctx) dest (cr_Balance r) tier;
  _ ← lift cl_bank put_cbank (SendCoinsFromModuleToAccount claim_ModuleName dest (cr_Balance r));
  _ ← SetClaimRecord (claimed_record ctx msg tier r);
  emit (claim_event ctx msg name endTime r).

Lemma processClaim_admissible ctx msg create name tier (s : st claim_store) r dest :
  admissible ctx msg (store s) r dest →
  processClaim ctx msg create name tier s =
  pay_claim ctx msg create name tier r dest
    (St (put_block (u64 (cl_block (store s) + 1)) (store s)) (events s)).
Proof.
  intros []. unfold processClaim. rewrite bind_gets, adm_enabled0, bind_ensure by done.
  rewrite bind_ensure by (by rewrite adm_open0).
  rewrite bind_gets, bind_ensure by (apply negb_true_iff, Z.leb_gt; done).
  rewrite (bind_gets_option _ _ r) by done. rewrite bind_ensure by (by rewrite adm_unclaimed0).
  rewrite (bind_of_option _ _ _ _ _ adm_key0), bind_ensure by (by apply bool_decide_eq_true).
  rewrite (bind_of_option _ _ _ _ _ adm_signature0), bind_ensure by done.
  unfold IncrementBlockClaimCount, GetBlockClaimCount.
  rewrite (bind_ok _ _ _ tt (St (put_block (u64 (cl_block (store s) + 1)) (store s)) (events s))) by done.
  by rewrite (bind_of_option _ _ _ _ _ adm_dest0).
Qed.

Lemma processClaim_accepted ctx msg create name tier (s : st claim_store) :
  (processClaim ctx msg create name tier s).1 = Ok tt →
  ∃ r dest, admissible ctx msg (store s) r dest.
Proof.
  cut (wp (processClaim ctx msg create name tier) s
        (λ x _, x = Ok tt → ∃ r dest, admissible ctx msg (store s) r dest)); [done|].
  unfold processClaim, IncrementBlockClaimCount. 
  repeat first [done | lazymatch goal with |- wp (create _ _ _ _ ≫= _) _ _ => fail | _ => wp_step end].
  unfold wp. intros _. eexists _, _.
  repeat match goal with Hb : negb _ = true |- _ => apply negb_true_iff in Hb end.
  repeat match goal with Hb : bool_decide _ = true |- _ => apply bool_decide_eq_true in Hb end.
  subst. constructor; eauto; by apply Z.leb_gt.
Qed.

(** ** Records are kept under their address, with the balance of one coin. *)
Definition record_ok (k : string) r : Prop :=
  cr_OldAddress r = k ∧ (length (cr_Balance r) ≤ 1)%nat ∧ ∀ c, c ∈ cr_Balance r → 0 < Amount c.
Definition claim_records_ok s : Prop := map_Forall record_ok (cl_records s).

(** A creator of accounts that touches nothing but the accounts *)
Definition accounts_only (create : AccountCreatorFunc) : Prop :=
  ∀ t dest cs tier (s : st claim_store), ∃ x a,
    create t dest cs tier s = (x, St (put_accounts a (store s)) (events s)).

(** The store after a claim: [a] and [b] are the accounts and the bank. *)
Definition claimed_store (ctx : ClaimCtx) (msg : MsgClaim) (tier : Z) r (a : accounts) (b : bank) s
    : claim_store :=
  ClaimStore (<[cm_OldAddress msg := claimed_record ctx msg tier r]> (cl_records s)) (cl_count s)
    (u64 (cl_block s + 1)) (cl_params s) b a.

Lemma SetClaimRecord_update r r' (s : st claim_store) :
  cl_records (store s) !! cr_OldAddress r' = Some r →
  SetClaimRecord r' s = (Ok tt, St (put_records <[cr_OldAddress r' := r']> (store s)) (events s)).
Proof. intros Hr. unfold SetClaimRecord. rewrite bind_gets. unfold GetClaimRecord. by rewrite Hr. Qed.

Lemma processClaim_iff ctx msg create name tier (s s' : st claim_store) :
  claim_records_ok (store s) → accounts_only create →
  processClaim ctx msg create name tier s = (Ok tt, s') ↔
  ∃ r dest endTime a b,
    admissible ctx msg (store s) r dest ∧
    create (cc_BlockTime ctx) dest (cr_Balance r) tier
      (St (put_block (u64 (cl_block (store s) + 1)) (store s)) (events s)) =
      (Ok endTime, St (put_accounts a (put_block (u64 (cl_block (store s) + 1)) (store s))) (events s)) ∧
    SendCoinsFromModuleToAccount claim_ModuleName dest (cr_Balance r) (cl_bank (store s)) = (Ok tt, b) ∧
    s' = St (claimed_store ctx msg tier r a b (store s))
           (events s ++ [claim_event ctx msg name endTime r]).
Proof.
  intros Hok Hacc.
  assert (∀ r dest, admissible ctx msg (store s) r dest → cr_OldAddress r = cm_OldAddress msg) as Hold.
  { intros r dest Ha. by destruct (Hok _ _ (adm_record _ _ _ _ _ Ha)). }
  split.
  - intros Hrun. destruct (processClaim_accepted ctx msg create name tier s) as (r & dest & Ha);
      [by rewrite Hrun|].
    rewrite (processClaim_admissible _ _ _ _ _ _ _ _ Ha) in Hrun. unfold pay_claim in Hrun.
    destruct (Hacc (cc_BlockTime ctx) dest (cr_Balance r) tier
                (St (put_block (u64 (cl_block (store s) + 1)) (store s)) (events s))) as ([e|e] & a & Hc);
      [|by rewrite (bind_err _ _ _ _ _ Hc) in Hrun].
    rewrite (bind_ok _ _ _ _ _ Hc) in Hrun.
    destruct (SendCoinsFromModuleToAccount claim_ModuleName dest (cr_Balance r) (cl_bank (store s)))
      as [[[]|x] b] eqn:Hs;
      unfold mbind, M_bind, lift in Hrun; cbn in Hrun; rewrite Hs in Hrun; [|done].
    exists r, dest, e, a, b. split_and!; [done..|].
    rewrite (SetClaimRecord_update r) in Hrun;
      [|cbn; rewrite (Hold _ _ Ha); exact (adm_record _ _ _ _ _ Ha)].
    cbn in Hrun. unfold emit in Hrun. simplify_eq. cbn. unfold claimed_store, put_records. cbn.
    by rewrite (Hold _ _ Ha).
  - intros (r & dest & e & a & b & Ha & Hc & Hs & ->).
    rewrite (processClaim_admissible _ _ _ _ _ _ _ _ Ha). unfold pay_claim.
    rewrite (bind_ok _ _ _ _ _ Hc).
    unfold mbind, M_bind, lift. cbn. rewrite Hs.
    rewrite (SetClaimRecord_update r); [|cbn; rewrite (Hold _ _ Ha); exact (adm_record _ _ _ _ _ Ha)].
    cbn. unfold emit, claimed_store, put_records. cbn. by rewrite (Hold _ _ Ha).
Qed.

(** ** The two ways to make the account *)
Definition base_accounts (dest : bytes) (a : accounts) : accounts :=
  match GetAccount a dest with
  | Some _ => a
  | None => let '(acc, a') := NewAccountWithAddress dest a in SetAccount acc a'
  end.
Lemma CreateBaseAccount_run t dest cs tier (s : st claim_store) :
  CreateBaseAccount t dest cs tier s =
  (Ok 0, St (put_accounts (base_accounts dest (cl_accounts (store s))) (store s)) (events s)).
Proof.
  unfold CreateBaseAccount, base_accounts. rewrite bind_gets.
  destruct (GetAccount (cl_accounts (store s)) dest); [by destruct s as [[] ?]|].
  unfold mbind, M_bind, lift. cbn. by destruct (NewAccountWithAddress dest _).
Qed.
Lemma CreateBaseAccount_accounts : accounts_only CreateBaseAccount.
Proof. intros t dest cs tier s. rewrite CreateBaseAccount_run. eauto. Qed.

(** The base account that a delayed claim turns into a vesting account *)
Definition vesting_base (dest : bytes) (a : accounts) : option (BaseAccount * accounts) :=
  match GetAccount a dest with
  | None => match NewAccount (IsBaseAccount (NewBaseAccountWithAddress dest)) a with
            | (IsBaseAccount b, a') => Some (b, a')
            | _ => None
            end
  | Some (IsBaseAccount b) => Some (b, a)
  | Some _ => None
  end.
Definition vesting_end (t : Time) (tier : Z) : Z := t_sec (AddDate t 0 (u32 (tier * 6)) 0).

Lemma CreateDelayedAccount_iff t dest cs tier (s s' : st claim_store) e :
  CreateDelayedAccount t dest cs tier s = (Ok e, s') ↔
  ∃ b a v, vesting_base dest (cl_accounts (store s)) = Some (b, a) ∧
    NewBaseVestingAccount b cs e = Ok v ∧ e = vesting_end t tier ∧
    s' = St (put_accounts (SetAccount (IsDelayedVestingAccount v) a) (store s)) (events s).
Proof.
  unfold CreateDelayedAccount, vesting_base. cbv zeta. unfold vesting_end.
  generalize (t_sec (AddDate t 0 (u32 (tier * 6)) 0)) as E. intros E. rewrite bind_gets.
  split.
  - intros Hrun. unfold mbind, M_bind, lift, mret, M_ret, fail in Hrun. cbn in Hrun.
    repeat (case_match; simplify_eq; cbn in * ); eauto 10.
  - intros (b & a & v & Hb & Hv & -> & ->).
    unfold mbind, M_bind, lift, mret, M_ret, fail. cbn.
    repeat (case_match; simplify_eq; cbn in * ); try done; by destruct s as [[] ?].
Qed.
Lemma CreateDelayedAccount_accounts : accounts_only CreateDelayedAccount.
Proof.
  intros t dest cs tier s. unfold CreateDelayedAccount. cbv zeta.
  generalize (t_sec (AddDate t 0 (u32 (tier * 6)) 0)) as E. intros E. rewrite bind_gets.
  unfold mbind, M_bind, lift, mret, M_ret, fail. cbn.
  destruct s as [[] ?]. repeat case_match; simplify_eq; cbn in *; simplify_eq; eauto.
Qed.

Lemma vesting_end_bounds t tier :
  1 ≤ tier ≤ 5 → 86400 * (181 * tier) ≤ vesting_end t tier - t_sec t ≤ 86400 * (184 * tier).
Proof.
  intros Ht. unfold vesting_end. rewrite u32_small by (unfold in_u32; lia).
  pose proof (AddDate_months t (tier * 6)) as Hm.
  destruct (Time_Date t) as [[y m] d]. rewrite Hm.
  pose proof (half_years (12 * y + (m - 1)) tier). rewrite (Z.mul_comm tier 6). lia.
Qed.

(** C15. A claim succeeds exactly when claims are enabled, the block is not past the end
    of the period and has room, the record of the old address exists and is not
    claimed, the public key hashes to that address, its signature of
    old address, key and new address verifies, the new address decodes and the
    bank makes the payment.  The record's balance then moves from the module
    account to the new address, the record is marked with the time and the
    destination, the claims of the block go up by one, an account is made if the
    address has none, one event is emitted, and nothing else changes. *)
Theorem claim_pays `{!BankLaws} ctx msg (s s' : st claim_store) :
  claim_records_ok (store s) →
  Claim ctx msg s = (Ok tt, s') ↔
  ∃ r dest b,
    admissible ctx msg (store s) r dest ∧
    SendCoinsFromModuleToAccount claim_ModuleName dest (cr_Balance r) (cl_bank (store s)) = (Ok tt, b) ∧
    moved (module_address claim_ModuleName) dest (cr_Balance r) (cl_bank (store s)) b ∧
    s' = St (claimed_store ctx msg 0 r (base_accounts dest (cl_accounts (store s))) b (store s))
           (events s ++ [claim_event ctx msg "claim_processed" 0 r]).
Proof.
  intros Hok. unfold Claim. rewrite processClaim_iff by auto using CreateBaseAccount_accounts. split.
  - intros (r & dest & e & a & b & Ha & Hc & Hs & ->). rewrite CreateBaseAccount_run in Hc.
    injection Hc as <- <-. exists r, dest, b. split_and!; [done..| |done].
    destruct (Hok _ _ (adm_record _ _ _ _ _ Ha)) as (_ & Hl & _).
    pose proof (send_module_account claim_ModuleName dest (cr_Balance r) Hl (cl_bank (store s))) as Hm.
    by rewrite Hs in Hm.
  - intros (r & dest & b & Ha & Hs & _ & ->). eexists r, dest, 0, _, b. split_and!; [done| |done..].
    by rewrite CreateBaseAccount_run.
Qed.

(** The message that [DelayedClaim] passes on *)
Definition as_claim (msg : MsgDelayedClaim) : MsgClaim :=
  {| cm_Creator := ""; cm_OldAddress := dm_OldAddress msg; cm_NewAddress := dm_NewAddress msg;
     cm_PubKey := dm_PubKey msg; cm_Signature := dm_Signature msg |}.

Lemma vesting_base_address `{!AccountAddresses} `{!AccountLaws} dest a b a' :
  vesting_base dest a = Some (b, a') → account_address (IsBaseAccount b) = dest.
Proof.
  unfold vesting_base. destruct (GetAccount a dest) as [[x|x|x]|] eqn:Hg; intros Hv; simplify_eq.
  - by apply get_address in Hg.
  - destruct (new_account_kind (NewBaseAccountWithAddress dest) a) as (x & Hx & Hd).
    rewrite new_base_address in Hd. destruct (NewAccount _ a) as [acc a1]. cbn in Hx. by simplify_eq.
Qed.

(** C25. A delayed claim that succeeds passed the checks of a claim, and pays the record's
    balance into an account that it has turned into a delayed vesting account
    over that balance.  The account did not exist or was a base account, and
    vesting ends 181 to 184 days per tier after the block: six calendar months. *)
Theorem delayed_claim_vests `{!BankLaws} `{!AccountAddresses} `{!AccountLaws} ctx msg (s s' : st claim_store) :
  claim_records_ok (store s) → MsgDelayedClaim_ValidateBasic msg = Ok tt →
  DelayedClaim ctx msg s = (Ok tt, s') →
  ∃ r dest v base endTime,
    admissible ctx (as_claim msg) (store s) r dest ∧
    (GetAccount (cl_accounts (store s)) dest = None ∨
     GetAccount (cl_accounts (store s)) dest = Some (IsBaseAccount base)) ∧
    NewBaseVestingAccount base (cr_Balance r) endTime = Ok v ∧
    86400 * (181 * dm_Tier msg) ≤ endTime - t_sec (cc_BlockTime ctx) ≤ 86400 * (184 * dm_Tier msg) ∧
    GetAccount (cl_accounts (store s')) dest = Some (IsDelayedVestingAccount v) ∧
    moved (module_address claim_ModuleName) dest (cr_Balance r) (cl_bank (store s)) (cl_bank (store s')) ∧
    cl_records (store s') =
      <[dm_OldAddress msg := claimed_record ctx (as_claim msg) (dm_Tier msg) r]> (cl_records (store s)) ∧
    events s' = events s ++ [claim_event ctx (as_claim msg) "delayed_claim_processed" endTime r].
Proof.
  intros Hok Hval. unfold DelayedClaim. fold (as_claim msg).
  rewrite processClaim_iff by auto using CreateDelayedAccount_accounts.
  intros (r & dest & e & a & b & Ha & Hc & Hs & ->).
  apply CreateDelayedAccount_iff in Hc as (base & a1 & v & Hb & Hv & He & Heq).
  injection Heq as ->. exists r, dest, v, base, e.
  assert (1 ≤ dm_Tier msg ≤ 5) as Ht.
  { unfold MsgDelayedClaim_ValidateBasic in Hval. case_match; [|done].
    destruct (Z.ltb_spec (dm_Tier msg) 1), (Z.ltb_spec 5 (dm_Tier msg)); done || lia. }
  split_and!; try done.
  - cbn in Hb. unfold vesting_base in Hb. destruct (GetAccount (cl_accounts (store s)) dest) as [[]|]; naive_solver.
  - subst e. by apply vesting_end_bounds.
  - subst e. by apply vesting_end_bounds.
  - cbn. rewrite <- (vesting_base_address _ _ _ _ Hb), <- (vesting_address _ _ _ _ Hv). apply get_set_same.
  - destruct (Hok _ _ (adm_record _ _ _ _ _ Ha)) as (_ & Hl & _).
    pose proof (send_module_account claim_ModuleName dest (cr_Balance r) Hl (cl_bank (store s))) as Hm.
    by rewrite Hs in Hm.
Qed.

End Payment.
