(* ===== verification/ClaimRun.v ===== *)
(** * x/claim: sequences of operations

    The claim module from genesis through claims, delayed claims, parameter updates,
    ends of blocks and whatever the rest of the chain does to the bank and to the
    accounts: the module account covers the unclaimed records until the period
    ends, a record is paid once, a block accepts no more claims than its limit. *)
From Stdlib Require Import ZArith Lia Ascii.
From stdpp Require Import base numbers strings list gmap relations.
From S2P Require Import Prelude Sdk Bank GoHash GoTime SupernodeParams AuditEvidence Claim ClaimThm.
Open Scope Z_scope.

Section Run.
Context `{SdkAddress} `{ClaimCrypto} `{AccountKeeper} `{ClaimBankLaws} `{!BankLaws}.
Context `{IntParser} `{DenomValidator}.
Implicit Types (s : claim_store) (r : ClaimRecord).

Definition enabled s : bool := match cl_params s with None => true | Some p => EnableClaims p end.
(** What is still owed in a denomination *)
Definition owed (d : string) r : Z := if cr_Claimed r then 0 else AmountOf (cr_Balance r) d.
Definition unclaimed (d : string) s : Z := map_sum (owed d) (cl_records s).
Definition module_balance (d : string) s : Z := GetBalance (cl_bank s) (module_address claim_ModuleName) d.
(** The module account covers every unclaimed record. *)
Definition covered s : Prop := ∀ d, unclaimed d s ≤ module_balance d s.
Record claims_sound s : Prop := {
  cs_records : claim_records_ok s;
  cs_count : cl_count s = u64 (Z.of_nat (size (cl_records s)))
}.

(** The condition of the end of a block that ends the period and burns *)
Definition period_over ctx s : bool :=
  EnableClaims (CGetParams ctx s) &&
  After (cc_BlockTime ctx) (time_Unix (ClaimEndTime (CGetParams ctx s)) 1).

(** ** Steps

    Messages, parameter updates of any content, ends of blocks, and any change of
    the bank and of the accounts by the rest of the chain.  A chain does not go on
    after a failed end of block.  The label says what a step means for the period:
    an accepted update carries the flag it sets, an end of block whether it ends
    the period. *)
Inductive chain_event := EvClaim | EvParams (enable : bool) | EvEndBlock (over : bool) | EvOther.
Inductive claim_step : chain_event → claim_store → claim_store → Prop :=
| step_claim ctx msg (s : st claim_store) :
    claim_step EvClaim (store s) (store (run_tx (Claim ctx msg) s).2)
| step_delayed ctx msg (s : st claim_store) :
    claim_step EvClaim (store s) (store (run_tx (DelayedClaim ctx msg) s).2)
| step_params authority req p (s : st claim_store) :
    claim_step (EvParams (bool_decide (authority = req) && EnableClaims p))
      (store s) (store (run_tx (claim_UpdateParams authority req p) s).2)
| step_end_block ctx (s s' : st claim_store) :
    claim_EndBlocker ctx s = (Ok tt, s') →
    claim_step (EvEndBlock (period_over ctx (store s))) (store s) (put_block 0 (store s'))
| step_other s a b :
    claim_step EvOther s (put_cbank b (put_accounts a s)).
Definition any_step s s' : Prop := ∃ e, claim_step e s s'.

(** The period runs until the end of a block burns the module account; an update
    may enable claims again after that. *)
Inductive phase := Running | Ended | Reopened.
#[global] Instance phase_eq_dec : EqDecision phase.
Proof. solve_decision. Defined.
Definition next_phase (e : chain_event) (φ : phase) : phase :=
  match e, φ with
  | EvEndBlock true, _ => Ended
  | EvParams true, Ended => Reopened
  | _, _ => φ
  end.
(** A step after which the module account was not drawn on by another module *)
Definition funded_step (x y : phase * claim_store) : Prop :=
  ∃ e, claim_step e x.2 y.2 ∧ y.1 = next_phase e x.1 ∧
    (e = EvOther → ∀ d, module_balance d x.2 ≤ module_balance d y.2).
Definition phase_ok (φ : phase) s : Prop :=
  match φ with Running => covered s | Ended => enabled s = false | Reopened => True end.

(** ** A claim in a sequence *)
Lemma processClaim_tx ctx msg create name tier (s : st claim_store) :
  claim_records_ok (store s) → accounts_only create →
  (is_ok (run_tx (processClaim ctx msg create name tier) s).1 = false ∧
   (run_tx (processClaim ctx msg create name tier) s).2 = s) ∨
  ∃ r dest a b,
    is_ok (run_tx (processClaim ctx msg create name tier) s).1 = true ∧
    admissible ctx msg (store s) r dest ∧
    moved (module_address claim_ModuleName) dest (cr_Balance r) (cl_bank (store s)) b ∧
    store (run_tx (processClaim ctx msg create name tier) s).2 = claimed_store ctx msg tier r a b (store s).
Proof.
  intros Hok Hacc. unfold run_tx.
  destruct (processClaim ctx msg create name tier s) as [[[]|e] s'] eqn:Hrun; [right|by left].
  apply processClaim_iff in Hrun as (r & dest & e & a & b & Ha & _ & Hs & ->); [|done..].
  exists r, dest, a, b. split_and!; try done.
  all: destruct (Hok _ _ (adm_record _ _ _ _ _ Ha)) as (_ & Hl & _);
    pose proof (send_module_account claim_ModuleName dest (cr_Balance r) Hl (cl_bank (store s))) as Hm;
    rewrite Hs in Hm; apply Hm.
Qed.

Lemma AmountOf_nonneg cs d : (∀ c, c ∈ cs → 0 < Amount c) → 0 ≤ AmountOf cs d.
Proof.
  induction cs as [|c cs IH]; intros Hc; [done|]. cbn -[Z.add].
  assert (0 < Amount c) by (apply Hc; left).
  assert (0 ≤ AmountOf cs d) by (apply IH; intros x Hx; apply Hc; by right).
  unfold AmountOf in *. case_decide; lia.
Qed.
Lemma owed_nonneg k d r : record_ok k r → 0 ≤ owed d r.
Proof. intros (_ & _ & Hc). unfold owed. case_match; [done|]. by apply AmountOf_nonneg. Qed.
Lemma claimed_record_ok ctx msg tier k r : record_ok k r → record_ok k (claimed_record ctx msg tier r).
Proof. by intros (? & ? & ?). Qed.

Lemma claimed_store_sound ctx msg tier r dest a b s :
  claims_sound s → admissible ctx msg s r dest →
  claims_sound (claimed_store ctx msg tier r a b s).
Proof.
  intros [Hok Hn] Ha. pose proof (adm_record _ _ _ _ _ Ha) as Hr. split.
  - apply map_Forall_insert_2; [|done]. by apply claimed_record_ok, Hok.
  - cbn. rewrite Hn, map_size_insert_Some; [done|by eexists].
Qed.
Lemma claimed_store_covered ctx msg tier r dest a b s :
  covered s → admissible ctx msg s r dest →
  moved (module_address claim_ModuleName) dest (cr_Balance r) (cl_bank s) b →
  covered (claimed_store ctx msg tier r a b s).
Proof.
  intros Hsol Ha [Hle Hm] d. pose proof (adm_record _ _ _ _ _ Ha) as Hr.
  specialize (Hsol d). unfold unclaimed, module_balance in *. cbn.
  rewrite (map_sum_update _ _ _ r) by done. rewrite Hm.
  unfold owed at 2 3. rewrite (adm_unclaimed _ _ _ _ _ Ha). cbn -[Z.sub Z.add].
  specialize (Hle d). rewrite decide_True by done. case_decide; lia.
Qed.

Lemma processClaim_sound ctx msg create name tier (s : st claim_store) :
  accounts_only create → claims_sound (store s) →
  let s' := store (run_tx (processClaim ctx msg create name tier) s).2 in
  claims_sound s' ∧ (covered (store s) → covered s') ∧ cl_params s' = cl_params (store s).
Proof.
  intros Hacc Hs. destruct (processClaim_tx ctx msg create name tier s) as
    [[_ ->]|(r & dest & a & b & _ & Ha & Hm & ->)]; [apply Hs|done|done|].
  split_and!; [by eapply claimed_store_sound| |done]. intros Hc. by eapply claimed_store_covered.
Qed.

(** ** The end of a block *)
Definition disabled_params (p : CParams) : CParams :=
  {| EnableClaims := false; ClaimEndTime := ClaimEndTime p; MaxClaimsPerBlock := MaxClaimsPerBlock p |}.
(** The bank after the balance of the module account in [DefaultClaimsDenom] is burnt *)
Definition burnt (b b' : bank) : Prop :=
  ∀ a d, GetBalance b' a d =
    if decide (a = module_address claim_ModuleName ∧ d = DefaultClaimsDenom) then 0 else GetBalance b a d.

Lemma claim_EndBlocker_idle ctx (s : st claim_store) :
  period_over ctx (store s) = false → claim_EndBlocker ctx s = (Ok tt, s).
Proof.
  unfold period_over, claim_EndBlocker. rewrite bind_gets. intros Hp.
  destruct (EnableClaims _); cbn in *; [|done]. by rewrite Hp.
Qed.
Lemma claim_EndBlocker_over ctx (s s' : st claim_store) :
  period_over ctx (store s) = true → claim_EndBlocker ctx s = (Ok tt, s') →
  ∃ a b, burnt (cl_bank (store s)) b ∧
    store s' = ClaimStore (cl_records (store s)) (cl_count (store s)) (cl_block (store s))
                 (Some (disabled_params (CGetParams ctx (store s)))) b a.
Proof.
  intros Hp. apply andb_true_iff in Hp as [Hen Hafter].
  unfold claim_EndBlocker. rewrite bind_gets, Hen, Hafter. cbn [negb].
  unfold mbind, M_bind, lift, emit, ensure, gets, mret, M_ret, fail. cbn -[NewCoins].
  destruct (GetModuleAccount claim_ModuleName (cl_accounts (store s))) as [[] a]; cbn -[NewCoins]; [|done].
  set (n := GetBalance (cl_bank (store s)) (module_address claim_ModuleName) DefaultClaimsDenom).
  destruct (Z.eqb_spec n 0) as [Hn|Hn]; cbn -[NewCoins].
  - intros [= <-]. exists a, (cl_bank (store s)). split; [|done].
    intros a' d. case_decide as Hd; [|done]. by destruct Hd as [-> ->].
  - pose proof (burn_law claim_ModuleName _ (length_NewCoins (mkCoin DefaultClaimsDenom n)) (cl_bank (store s))) as Hb.
    destruct (BurnCoins _ _ _) as [[[]|e] b]; cbn -[NewCoins]; [|done].
    intros [= <-]. exists a, b. split; [|done]. intros a' d. destruct Hb as [_ ->].
    rewrite AmountOf_NewCoins. cbn [Denom Amount]. fold n.
    repeat case_decide; destruct_and?; subst; try lia; naive_solver lia.
Qed.
Lemma claim_EndBlocker_total ctx (s : st claim_store) :
  (GetModuleAccount claim_ModuleName (cl_accounts (store s))).1 = true →
  ∃ s' : st claim_store, claim_EndBlocker ctx s = (Ok tt, s').
Proof.
  intros Hacc. destruct (period_over ctx (store s)) eqn:Hp; [|eexists; by apply claim_EndBlocker_idle].
  apply andb_true_iff in Hp as [Hen Hafter].
  unfold claim_EndBlocker. rewrite bind_gets, Hen, Hafter. cbn [negb].
  unfold mbind, M_bind, lift, emit, ensure, gets, mret, M_ret, fail. cbn -[NewCoins].
  destruct (GetModuleAccount claim_ModuleName (cl_accounts (store s))) as [[] a]; cbn -[NewCoins] in *; [|done].
  set (n := GetBalance (cl_bank (store s)) (module_address claim_ModuleName) DefaultClaimsDenom).
  destruct (Z.eqb_spec n 0) as [Hn|Hn]; cbn -[NewCoins]; [by eexists|].
  pose proof (balance_nonneg (cl_bank (store s)) (module_address claim_ModuleName) DefaultClaimsDenom) as Hpos.
  fold n in Hpos.
  pose proof (burn_funded (NewCoins (mkCoin DefaultClaimsDenom n)) (cl_bank (store s)) (length_NewCoins _)) as Hb.
  destruct (BurnCoins _ _ _) as [x b]; cbn -[NewCoins] in *. rewrite Hb; [by eexists|].
  unfold NewCoins. cbn [Amount]. destruct (Z.eqb_spec n 0); [done|].
  intros c Hc%list_elem_of_singleton. subst c. cbn. fold n. lia.
Qed.

Lemma disabled_refuses ctx msg create name tier (s : st claim_store) p :
  cl_params (store s) = Some p → EnableClaims p = false →
  is_ok (processClaim ctx msg create name tier s).1 = false.
Proof.
  intros Hp Hen. unfold processClaim. rewrite bind_gets. unfold CGetParams. rewrite Hp. cbn [default from_option id].
  by rewrite Hen.
Qed.

(** The end of a block never fails while the module account exists.  Once claims are
    enabled and the block is more than a nanosecond past the end of the period,
    it burns what the module account holds in ulume, leaves every other balance
    and every record as it is, and disables claims, so that no claim succeeds
    afterwards; before that it changes nothing. *)
Theorem claim_period_ends ctx (s : st claim_store) :
  (GetModuleAccount claim_ModuleName (cl_accounts (store s))).1 = true →
  ∃ s' : st claim_store, claim_EndBlocker ctx s = (Ok tt, s') ∧
  if EnableClaims (CGetParams ctx (store s)) &&
     After (cc_BlockTime ctx) (time_Unix (ClaimEndTime (CGetParams ctx (store s))) 1)
  then burnt (cl_bank (store s)) (cl_bank (store s')) ∧
       cl_records (store s') = cl_records (store s) ∧
       cl_params (store s') = Some (disabled_params (CGetParams ctx (store s))) ∧
       ∀ ctx', (∀ msg, is_ok (Claim ctx' msg s').1 = false) ∧
               (∀ msg, is_ok (DelayedClaim ctx' msg s').1 = false)
  else s' = s.
Proof.
  intros Hacc. destruct (claim_EndBlocker_total ctx s Hacc) as [s' Hrun]. exists s'. split; [done|].
  fold (period_over ctx (store s)). destruct (period_over ctx (store s)) eqn:Hp.
  - destruct (claim_EndBlocker_over _ _ _ Hp Hrun) as (a & b & Hb & Hs). rewrite Hs. cbn.
    split_and!; [done..|]. intros ctx'. split; intros msg; by eapply disabled_refuses; [rewrite Hs|].
  - rewrite claim_EndBlocker_idle in Hrun by done. by simplify_eq.
Qed.

(** ** Every step keeps the module sound *)
Lemma CGetParams_enabled ctx s : EnableClaims (CGetParams ctx s) = enabled s.
Proof. unfold CGetParams, enabled. by destruct (cl_params s). Qed.

Lemma EndBlocker_sound ctx (s s' : st claim_store) φ :
  claim_EndBlocker ctx s = (Ok tt, s') → claims_sound (store s) → phase_ok φ (store s) →
  claims_sound (put_block 0 (store s')) ∧
  phase_ok (next_phase (EvEndBlock (period_over ctx (store s))) φ) (put_block 0 (store s')).
Proof.
  intros Hrun [Hok Hn] Hφ. destruct (period_over ctx (store s)) eqn:Hp.
  - by destruct (claim_EndBlocker_over _ _ _ Hp Hrun) as (a & b & _ & ->).
  - rewrite claim_EndBlocker_idle in Hrun by done. by simplify_eq.
Qed.
Lemma UpdateParams_sound authority req p (s : st claim_store) φ :
  claims_sound (store s) → phase_ok φ (store s) →
  let s' := store (run_tx (claim_UpdateParams authority req p) s).2 in
  claims_sound s' ∧ phase_ok (next_phase (EvParams (bool_decide (authority = req) && EnableClaims p)) φ) s'.
Proof.
  intros [Hok Hn] Hφ. unfold run_tx, claim_UpdateParams.
  destruct (bool_decide (authority = req)); cbn; [|done]. split; [done..|].
  destruct (EnableClaims p) eqn:He; destruct φ; done.
Qed.
(** Whatever happens, the records stay well formed; what is owed stays covered until the period ends. *)
Lemma claim_step_sound e s s' : claim_step e s s' → claims_sound s → claims_sound s'.
Proof.
  intros [ctx msg s1|ctx msg s1|authority req p s1|ctx s1 s2 Hrun|s1 a b] Hs.
  - by apply processClaim_sound; [apply CreateBaseAccount_accounts|].
  - by apply processClaim_sound; [apply CreateDelayedAccount_accounts|].
  - by apply (UpdateParams_sound _ _ _ _ Reopened).
  - by eapply (EndBlocker_sound _ _ _ Reopened).
  - by destruct Hs.
Qed.
Lemma phase_ok_kept φ s s' :
  (covered s → covered s') → cl_params s' = cl_params s → phase_ok φ s → phase_ok φ s'.
Proof. intros Hc Hp. destruct φ; cbn; [done| |done]. unfold enabled. by rewrite Hp. Qed.
Lemma funded_step_ok x y :
  funded_step x y → claims_sound x.2 → phase_ok x.1 x.2 → claims_sound y.2 ∧ phase_ok y.1 y.2.
Proof.
  destruct x as [φ s], y as [φ' s']. intros (e & He & -> & Hb) Hs Hφ. cbn [fst snd] in *.
  destruct He as [ctx msg s1|ctx msg s1|authority req p s1|ctx s1 s2 Hrun|s1 a b].
  - destruct (processClaim_sound ctx msg CreateBaseAccount "claim_processed" 0 s1) as (Hs' & Hc & Hp);
      [apply CreateBaseAccount_accounts|done|]. split; [exact Hs'|by eapply phase_ok_kept].
  - destruct (processClaim_sound ctx (as_claim msg) CreateDelayedAccount "delayed_claim_processed" (dm_Tier msg) s1)
      as (Hs' & Hc & Hp); [apply CreateDelayedAccount_accounts|done|]. split; [exact Hs'|by eapply phase_ok_kept].
  - by apply UpdateParams_sound.
  - by eapply EndBlocker_sound.
  - split; [by destruct Hs|]. destruct φ; [|done..]. intros d. etrans; [apply Hφ|by apply Hb].
Qed.

(** ** Genesis *)
Lemma SetClaimRecord_store r (s : st claim_store) :
  ∃ s' : st claim_store, SetClaimRecord r s = (Ok tt, s') ∧ cl_bank (store s') = cl_bank (store s) ∧
    cl_records (store s') = <[cr_OldAddress r := r]> (cl_records (store s)) ∧
    cl_count (store s') = (if decide (is_Some (cl_records (store s) !! cr_OldAddress r))
                           then cl_count (store s) else u64 (cl_count (store s) + 1)).
Proof.
  unfold SetClaimRecord, GetClaimRecord. rewrite bind_gets.
  destruct (cl_records (store s) !! cr_OldAddress r) as [r0|]; eexists; by split_and!.
Qed.

Lemma SetClaimRecord_owed r (m : gmap string ClaimRecord) d :
  map_Forall record_ok m → record_ok (cr_OldAddress r) r → cr_Claimed r = false →
  map_sum (owed d) (<[cr_OldAddress r := r]> m) ≤ AmountOf (cr_Balance r) d + map_sum (owed d) m.
Proof.
  intros Hm Hr Hc. assert (owed d r = AmountOf (cr_Balance r) d) as <- by (unfold owed; by rewrite Hc).
  destruct (m !! cr_OldAddress r) as [r0|] eqn:Hr0.
  - rewrite (map_sum_update _ _ _ r0) by done. pose proof (owed_nonneg _ d _ (Hm _ _ Hr0)). lia.
  - rewrite map_sum_insert_new by done. lia.
Qed.

Definition total (d : string) (rs : list ClaimRecord) : Z :=
  foldr (λ r acc, AmountOf (cr_Balance r) d + acc) 0 rs.

Lemma SetClaimRecords_sound rs (s : st claim_store) :
  Forall (λ r, record_ok (cr_OldAddress r) r ∧ cr_Claimed r = false) rs →
  claim_records_ok (store s) → cl_count (store s) = u64 (Z.of_nat (size (cl_records (store s)))) →
  ∃ s' : st claim_store, for_each SetClaimRecord rs s = (Ok tt, s') ∧
    cl_bank (store s') = cl_bank (store s) ∧ claim_records_ok (store s') ∧
    cl_count (store s') = u64 (Z.of_nat (size (cl_records (store s')))) ∧
    ∀ d, unclaimed d (store s') ≤ total d rs + unclaimed d (store s).
Proof.
  revert s. induction rs as [|r rs IH]; intros s Hrs Hok Hn; [exists s; by split_and!|].
  apply Forall_cons_1 in Hrs as [[Hr Hc] Hrs].
  destruct (SetClaimRecord_store r s) as (s1 & Hset & Hb & Hrec & Hcnt).
  assert (claim_records_ok (store s1)) as Hok1 by (unfold claim_records_ok; rewrite Hrec; by apply map_Forall_insert_2).
  destruct (IH s1 Hrs Hok1) as (s2 & Hrest & Hb2 & Hok2 & Hn2 & Ho).
  { rewrite Hcnt, Hrec, Hn. case_decide as Hd; [by rewrite map_size_insert_Some|].
    rewrite map_size_insert_None by (by apply eq_None_not_Some). unfold u64. rewrite Zplus_mod_idemp_l. f_equal. lia. }
  exists s2. cbn. rewrite (bind_ok _ _ _ _ _ Hset). split_and!; [done|by rewrite Hb2|done|done|].
  intros d. specialize (Ho d). unfold unclaimed in *. rewrite Hrec in Ho.
  pose proof (SetClaimRecord_owed r (cl_records (store s)) d Hok Hr Hc). cbn -[Z.add]. unfold total in Ho. lia.
Qed.

Lemma csv_record_ok denom row r :
  csv_record denom row = Ok r →
  record_ok (cr_OldAddress r) r ∧ cr_Claimed r = false ∧
  ∀ d, d ≠ denom → AmountOf (cr_Balance r) d = 0.
Proof.
  unfold csv_record. destruct row as [|x [|y row]]; [done..|].
  destruct (NewIntFromString y) as [n|]; [|done].
  destruct (ValidateDenom denom); [|done]. destruct (Z.leb_spec 0 n); [|done]. cbn -[NewCoins]. intros [= <-].
  split_and!; [|done|].
  - split_and!; [done|apply length_NewCoins|]. cbn -[NewCoins]. unfold NewCoins. cbn [Amount].
    destruct (Z.eqb_spec n 0); intros c Hc; [by apply not_elem_of_nil in Hc|].
    apply list_elem_of_singleton in Hc. subst c. cbn. lia.
  - intros d Hd. cbn [cr_Balance]. rewrite AmountOf_NewCoins. cbn [Denom]. by rewrite decide_False by congruence.
Qed.
Lemma csv_records_ok denom rows rs :
  csv_records denom rows = Ok rs →
  Forall (λ r, record_ok (cr_OldAddress r) r ∧ cr_Claimed r = false) rs ∧
  ∀ d, d ≠ denom → total d rs = 0.
Proof.
  revert rs. induction rows as [|row rows IH]; intros rs; cbn; [by intros [= <-]|].
  destruct (csv_record denom row) as [r|] eqn:Hr; [|done].
  destruct (csv_records denom rows) as [rs'|]; [|done]. intros [= <-].
  destruct (csv_record_ok _ _ _ Hr) as (Hok & Hc & Hd). destruct (IH _ eq_refl) as [Hrs Hd'].
  split; [by constructor|]. intros d Hne. cbn -[Z.add]. rewrite (Hd d Hne). unfold total in Hd'. by rewrite (Hd' d Hne).
Qed.
Lemma total_nonneg rs d :
  Forall (λ r, record_ok (cr_OldAddress r) r ∧ cr_Claimed r = false) rs → 0 ≤ total d rs.
Proof.
  induction 1 as [|r rs [(_ & _ & Hc) _] _ IH]; [done|]. cbn -[Z.add].
  pose proof (AmountOf_nonneg _ d Hc). unfold total in IH. lia.
Qed.

(** A store before genesis: no record, no claim *)
Definition fresh s : Prop := cl_records s = ∅ ∧ cl_count s = 0 ∧ cl_block s = 0.

Lemma initModuleAccount_run (s : st claim_store) :
  ∃ a, initModuleAccount s = (Ok tt, St (put_accounts a (store s)) (events s)).
Proof.
  unfold initModuleAccount, mbind, M_bind, lift. cbn.
  destruct (GetModuleAccount _ _) as [[] a]; cbn; by eexists.
Qed.
Lemma no_records_sound s : cl_records s = ∅ → cl_count s = 0 → claims_sound s ∧ covered s.
Proof.
  intros Hr Hc. split; [split|].
  - unfold claim_records_ok. rewrite Hr. apply map_Forall_empty.
  - by rewrite Hr, Hc.
  - intros d. unfold unclaimed. rewrite Hr, map_sum_empty. apply balance_nonneg.
Qed.

Lemma InitGenesis_sound skip csv g (s s' : st claim_store) :
  fresh (store s) → claim_InitGenesis skip csv g s = (Ok tt, s') →
  claims_sound (store s') ∧ covered (store s').
Proof.
  intros (Hr & Hc & _). unfold claim_InitGenesis, CSetParams.
  destruct (is_ok _); [|done]. rewrite bind_ensure, bind_modify by done.
  destruct (initModuleAccount_run (St (put_params (g_Params g) (store s)) (events s))) as [a Ha].
  rewrite (bind_ok _ _ _ _ _ Ha). cbn [store events].
  set (s1 := St _ _). assert (claims_sound (store s1) ∧ covered (store s1)) as [Hs1 Hc1] by (by apply no_records_sound).
  assert (∀ d, unclaimed d (store s1) = 0) as Hz.
  { intros d. unfold unclaimed. cbn. by rewrite Hr, map_sum_empty. }
  destruct skip; [by intros [= <-]|]. destruct (0 <? g_TotalClaimableAmount g); [|by intros [= <-]].
  cbn [negb]. destruct (loadClaimRecordsFromCSV _ _) as [rs|] eqn:Hload; [|done].
  rewrite (bind_of_result _ rs) by done.
  assert (csv_records (g_ClaimsDenom g) (default [] (match csv with Ok x => Some x | _ => None end)) = Ok rs) as Hrows.
  { revert Hload. by destruct csv as [[|? ?]|]. }
  apply csv_records_ok in Hrows as [Hrs Hd].
  destruct (SetClaimRecords_sound rs s1 Hrs (cs_records _ Hs1) (cs_count _ Hs1)) as (s2 & Hset & Hb & Hok & Hn & Ho).
  rewrite (bind_ok _ _ _ _ _ Hset). fold (total (g_ClaimsDenom g) rs).
  pose proof (total_nonneg rs (g_ClaimsDenom g) Hrs) as Hpos.
  destruct (Z.ltb_spec 0 (total (g_ClaimsDenom g) rs)) as [Ht|Ht]; cbn [negb].
  - destruct (_ <? 2 ^ 64); [|done]. rewrite bind_ensure by done.
    destruct (_ =? g_TotalClaimableAmount g); [|done]. rewrite bind_ensure by done.
    pose proof (mint_law claim_ModuleName _ (length_NewCoins (mkCoin (g_ClaimsDenom g) (total (g_ClaimsDenom g) rs)))
                  (cl_bank (store s2))) as Hm.
    unfold lift. destruct (MintCoins _ _ _) as [[[]|] b]; [|done]. intros [= <-].
    split; [by split|]. intros d. cbn [store]. specialize (Ho d). rewrite Hz in Ho.
    change (unclaimed d (put_cbank b (store s2))) with (unclaimed d (store s2)).
    unfold module_balance. cbn [put_cbank cl_bank]. rewrite Hm, decide_True, AmountOf_NewCoins by done. cbn [Denom Amount].
    pose proof (balance_nonneg (cl_bank (store s2)) (module_address claim_ModuleName) d).
    case_decide as He; [subst d; lia|]. rewrite (Hd d) in Ho by congruence. lia.
  - intros [= <-]. split; [by split|]. intros d. specialize (Ho d). rewrite Hz in Ho.
    pose proof (balance_nonneg (cl_bank (store s2)) (module_address claim_ModuleName) d).
    unfold module_balance. destruct (decide (d = g_ClaimsDenom g)) as [->|He]; [lia|]. rewrite (Hd d) in Ho by done. lia.
Qed.

Lemma claim_run_sound s s' : rtc any_step s s' → claims_sound s → claims_sound s'.
Proof. induction 1 as [|x y z [e He] _ IH]; eauto using claim_step_sound. Qed.
Lemma funded_run_ok x y :
  rtc funded_step x y → claims_sound x.2 → phase_ok x.1 x.2 → claims_sound y.2 ∧ phase_ok y.1 y.2.
Proof.
  induction 1 as [|x y z Hxy _ IH]; [done|]. intros Hs Hφ.
  destruct (funded_step_ok _ _ Hxy Hs Hφ). by apply IH.
Qed.

Lemma claim_run_funded ctx msg (s : st claim_store) r dest :
  claims_sound (store s) → covered (store s) →
  admissible ctx msg (store s) r dest → BlockedAddr dest = false →
  ∃ b, SendCoinsFromModuleToAccount claim_ModuleName dest (cr_Balance r) (cl_bank (store s)) = (Ok tt, b).
Proof.
  intros Hs Hsol Ha Hd. pose proof (adm_record _ _ _ _ _ Ha) as Hr.
  pose proof (cs_records _ Hs) as Hok. destruct (Hok _ _ Hr) as (_ & Hl & Hc).
  pose proof (send_funded claim_ModuleName dest (cr_Balance r) (cl_bank (store s)) Hl Hd) as Hsend.
  destruct (SendCoinsFromModuleToAccount _ _ _ _) as [x b]. exists b. cbn in Hsend. rewrite Hsend; [done|].
  intros c Hin. split; [by apply Hc|].
  assert (Amount c ≤ owed (Denom c) r) as Hone.
  { unfold owed. rewrite (adm_unclaimed _ _ _ _ _ Ha). destruct (cr_Balance r) as [|x0 [|]]; [by apply not_elem_of_nil in Hin| |cbn in Hl; lia].
    apply list_elem_of_singleton in Hin. subst x0. cbn -[Z.add]. rewrite decide_True by done. lia. }
  assert (owed (Denom c) r ≤ unclaimed (Denom c) (store s)) as Hall.
  { eapply map_sum_lookup_le; [|exact Hr]. intros k0 r0 Hr0. by eapply owed_nonneg, Hok. }
  specialize (Hsol (Denom c)).
  unfold module_balance in Hsol. lia.
Qed.

(** C7. From genesis on, through every sequence of claims, delayed claims, parameter
    updates of any content, ends of blocks and changes of the bank and of the
    accounts in which no other module takes from the claim module account: until
    the end of a block ends the period, the module account holds at least what the
    unclaimed records add up to, and a claim that passes the checks, to an address
    that may receive, is paid; after it, claims are disabled, until an update
    enables them again. *)
Theorem claims_redeemable skip csv g (s0 s1 s : st claim_store) φ :
  fresh (store s0) → claim_InitGenesis skip csv g s0 = (Ok tt, s1) →
  rtc funded_step (Running, store s1) (φ, store s) →
  (φ = Running →
     (∀ d, unclaimed d (store s) ≤ module_balance d (store s)) ∧
     ∀ ctx msg r dest, admissible ctx msg (store s) r dest → BlockedAddr dest = false →
       is_ok (Claim ctx msg s).1 = true) ∧
  (φ = Ended → enabled (store s) = false ∧
     ∀ ctx, (∀ msg, is_ok (Claim ctx msg s).1 = false) ∧
            (∀ msg, is_ok (DelayedClaim ctx msg s).1 = false)).
Proof.
  intros Hf Hg Hrun. destruct (InitGenesis_sound _ _ _ _ _ Hf Hg) as [Hs1 Hc1].
  destruct (funded_run_ok _ _ Hrun Hs1 Hc1) as [Hs Hφ]. cbn [fst snd] in *. split; intros ->.
  - split; [exact Hφ|]. intros ctx msg r dest Ha Hd.
    destruct (claim_run_funded ctx msg s r dest Hs Hφ Ha Hd) as [b Hb].
    assert (∃ s' : st claim_store, Claim ctx msg s = (Ok tt, s')) as [s' ->]; [|done].
    eexists. apply (processClaim_iff _ _ _ _ _ _ _ (cs_records _ Hs) CreateBaseAccount_accounts).
    eexists r, dest, _, _, b. split_and!; [done| |done|done]. by rewrite CreateBaseAccount_run.
  - split; [exact Hφ|]. cbn in Hφ. unfold enabled in Hφ.
    destruct (cl_params (store s)) as [p|] eqn:Hp; [|done].
    intros ctx. split; intros msg; by eapply disabled_refuses.
Qed.

(** ** One payment per record *)
Lemma processClaim_records ctx msg create name tier (s : st claim_store) k r :
  accounts_only create → claim_records_ok (store s) → cl_records (store s) !! k = Some r → cr_Claimed r = true →
  cl_records (store (run_tx (processClaim ctx msg create name tier) s).2) !! k = Some r.
Proof.
  intros Hacc Hok Hr Hc. destruct (processClaim_tx ctx msg create name tier s) as
    [[_ ->]|(r' & dest & a & b & _ & Ha & _ & ->)]; [done..|].
  cbn. destruct Ha as [_ _ _ Hr' Hu _ _ _].
  rewrite lookup_insert_ne; [done|]. intros Hk. rewrite Hk in Hr'. congruence.
Qed.
Lemma claim_step_records s s' k r :
  any_step s s' → claims_sound s → cl_records s !! k = Some r → cr_Claimed r = true →
  cl_records s' !! k = Some r.
Proof.
  intros [e [ctx msg s1|ctx msg s1|authority req p s1|ctx s1 s2 Hrun|s1 a b]] Hs Hr Hc.
  - apply processClaim_records; auto using CreateBaseAccount_accounts, cs_records.
  - apply processClaim_records; auto using CreateDelayedAccount_accounts, cs_records.
  - unfold run_tx, claim_UpdateParams. by destruct (bool_decide (authority = req)).
  - destruct (period_over ctx (store s1)) eqn:Hp.
    + by destruct (claim_EndBlocker_over _ _ _ Hp Hrun) as (a & b & _ & ->).
    + rewrite claim_EndBlocker_idle in Hrun by done. by simplify_eq.
  - done.
Qed.
Lemma claim_run_records s s' k r :
  rtc any_step s s' → claims_sound s → cl_records s !! k = Some r → cr_Claimed r = true →
  cl_records s' !! k = Some r.
Proof.
  induction 1 as [|x y z Hxy _ IH]; [done|]. intros Hs Hr Hc. destruct (Hxy) as [e He].
  apply IH; eauto using claim_step_sound, claim_step_records.
Qed.

Lemma processClaim_marks ctx msg create name tier (s s' : st claim_store) :
  accounts_only create → claims_sound (store s) → processClaim ctx msg create name tier s = (Ok tt, s') →
  claims_sound (store s') ∧
  ∃ r, cl_records (store s') !! cm_OldAddress msg = Some r ∧ cr_Claimed r = true.
Proof.
  intros Hacc Hs Hrun. destruct (processClaim_sound ctx msg create name tier s Hacc Hs) as [Hs' _].
  unfold run_tx in Hs'. rewrite Hrun in Hs'. split; [done|].
  apply processClaim_iff in Hrun as (r & dest & e & a & b & _ & _ & _ & ->); [|apply Hs|done].
  cbn. rewrite lookup_insert_eq. by eexists.
Qed.
Lemma claimed_refused ctx msg create name tier (s : st claim_store) r :
  cl_records (store s) !! cm_OldAddress msg = Some r → cr_Claimed r = true →
  is_ok (processClaim ctx msg create name tier s).1 = false.
Proof.
  intros Hr Hc. destruct (processClaim ctx msg create name tier s).1 as [[]|] eqn:Hrun; [|done].
  apply processClaim_accepted in Hrun as (r' & d & [_ _ _ Hr' Hu _ _ _]). congruence.
Qed.

(** C23. A record is paid once: in any state that is reached from genesis, after a
    claim or a delayed claim for an old address, no later claim or delayed claim for
    it succeeds, in this block or in any block, whatever happens in between (claims
    enabled again by an update, any change of the bank and of the accounts), and its
    record stays as the claim left it. *)
Theorem claim_once skip csv g (ctx : ClaimCtx) msg dmsg (s0 sg s s1 t : st claim_store) :
  fresh (store s0) → claim_InitGenesis skip csv g s0 = (Ok tt, sg) →
  rtc any_step (store sg) (store s) →
  dm_OldAddress dmsg = cm_OldAddress msg →
  Claim ctx msg s = (Ok tt, s1) ∨ DelayedClaim ctx dmsg s = (Ok tt, s1) →
  rtc any_step (store s1) (store t) →
  cl_records (store t) !! cm_OldAddress msg = cl_records (store s1) !! cm_OldAddress msg ∧
  ∀ ctx', (∀ msg', cm_OldAddress msg' = cm_OldAddress msg → is_ok (Claim ctx' msg' t).1 = false) ∧
          (∀ msg', dm_OldAddress msg' = cm_OldAddress msg → is_ok (DelayedClaim ctx' msg' t).1 = false).
Proof.
  intros Hf Hg Hrun0 Hold Hclaim Hrun.
  destruct (InitGenesis_sound _ _ _ _ _ Hf Hg) as [Hsg _].
  pose proof (claim_run_sound _ _ Hrun0 Hsg) as Hs.
  assert (claims_sound (store s1) ∧
          ∃ r, cl_records (store s1) !! cm_OldAddress msg = Some r ∧ cr_Claimed r = true) as [Hs1 (r & Hr & Hc)].
  { destruct Hclaim as [Hcl|Hcl].
    - by apply processClaim_marks in Hcl; [|apply CreateBaseAccount_accounts|].
    - rewrite <- Hold. by apply processClaim_marks in Hcl; [|apply CreateDelayedAccount_accounts|]. }
  pose proof (claim_run_records _ _ _ _ Hrun Hs1 Hr Hc) as Ht. rewrite Hr, Ht. split; [done|].
  intros ctx'. split; intros msg' Hm; eapply claimed_refused; cbn; by rewrite ?Hm.
Qed.

(** ** The claims of a block *)
Definition claim_tx (ctx : ClaimCtx) (tx : MsgClaim + MsgDelayedClaim) : M claim_store unit :=
  match tx with inl msg => Claim ctx msg | inr msg => DelayedClaim ctx msg end.
(** The transactions in order; the number that succeed and the state after them *)
Fixpoint run_block (ctx : ClaimCtx) (txs : list (MsgClaim + MsgDelayedClaim)) (s : st claim_store)
    : nat * st claim_store :=
  match txs with
  | [] => (0%nat, s)
  | tx :: txs' =>
      let '(x, s1) := run_tx (claim_tx ctx tx) s in
      let '(n, s2) := run_block ctx txs' s1 in
      ((if is_ok x then 1 else 0) + n, s2)%nat
  end.

Lemma claim_tx_counts ctx tx (s : st claim_store) p :
  claim_records_ok (store s) → cl_params (store s) = Some p →
  let '(x, s1) := run_tx (claim_tx ctx tx) s in
  claim_records_ok (store s1) ∧ cl_params (store s1) = Some p ∧
  if is_ok x then cl_block (store s) < MaxClaimsPerBlock p ∧ cl_block (store s1) = u64 (cl_block (store s) + 1)
  else s1 = s.
Proof.
  intros Hok Hp.
  assert (∀ msg create name tier, accounts_only create →
    let '(x, s1) := run_tx (processClaim ctx msg create name tier) s in
    claim_records_ok (store s1) ∧ cl_params (store s1) = Some p ∧
    if is_ok x then cl_block (store s) < MaxClaimsPerBlock p ∧ cl_block (store s1) = u64 (cl_block (store s) + 1)
    else s1 = s) as Hall.
  { intros msg create name tier Hacc. pose proof (processClaim_tx ctx msg create name tier s Hok Hacc) as Htx.
    destruct (run_tx _ s) as [x s1]. destruct Htx as [[Hx Hs]|(r & dest & a & b & Hx & Ha & _ & Hs)]; cbn in Hx, Hs.
    - by rewrite Hx, Hs.
    - rewrite Hx, Hs. cbn. split_and!; [|done| |done].
      + apply map_Forall_insert_2; [|done]. apply claimed_record_ok, Hok, Ha.
      + pose proof (adm_room _ _ _ _ _ Ha) as Hroom. unfold CGetParams in Hroom. by rewrite Hp in Hroom. }
  destruct tx; apply Hall; [apply CreateBaseAccount_accounts|apply CreateDelayedAccount_accounts].
Qed.
Lemma run_block_counts ctx txs (s : st claim_store) p :
  claim_records_ok (store s) → cl_params (store s) = Some p → in_u64 (MaxClaimsPerBlock p) →
  0 ≤ cl_block (store s) ≤ MaxClaimsPerBlock p →
  let '(n, s') := run_block ctx txs s in
  cl_block (store s') = cl_block (store s) + Z.of_nat n ∧ cl_block (store s') ≤ MaxClaimsPerBlock p.
Proof.
  revert s. induction txs as [|tx txs IH]; intros s Hok Hp Hmax Hb; cbn; [lia|].
  pose proof (claim_tx_counts ctx tx s p Hok Hp) as Htx.
  destruct (run_tx (claim_tx ctx tx) s) as [x s1]. destruct Htx as (Hok1 & Hp1 & Hx).
  specialize (IH s1 Hok1 Hp1 Hmax). destruct (run_block ctx txs s1) as [n s2].
  destruct (is_ok x).
  - destruct Hx as [Hlt Heq]. rewrite u64_small in Heq by (unfold in_u64 in *; lia). lia.
  - subst s1. destruct IH; lia.
Qed.

(** A block accepts at most MaxClaimsPerBlock claims and delayed claims together,
    whatever transactions it holds: starting from a reset counter, the counter
    after the block is the number of claims that were paid.  Those that fail do
    not count. *)
Theorem block_claims_limited ctx txs (s : st claim_store) p :
  claim_records_ok (store s) → cl_params (store s) = Some p → in_u64 (MaxClaimsPerBlock p) →
  cl_block (store s) = 0 →
  Z.of_nat (run_block ctx txs s).1 ≤ MaxClaimsPerBlock p ∧
  cl_block (store (run_block ctx txs s).2) = Z.of_nat (run_block ctx txs s).1.
Proof.
  intros Hok Hp Hmax Hb. pose proof (run_block_counts ctx txs s p Hok Hp Hmax) as Hrun.
  destruct (run_block ctx txs s) as [n s']. unfold in_u64 in Hmax. cbn. destruct Hrun; lia.
Qed.
End Run.

(** ** Signatures *)
Definition byte_range (b : bytes) : Prop := Forall (λ x, 0 ≤ x < 256) b.
(** A signature has 64 bytes and verifies; a compressed key has 33 and starts with 2 or 3. *)
Class SecpLaws `{ClaimCrypto} : Prop := {
  sign_verifies k m sig :
    secp256k1_Sign k m = Ok sig →
    secp256k1_VerifySignature (secp256k1_PubKey k) m sig = true ∧ length sig = 64%nat ∧ byte_range sig;
  pubkey_format k :
    length (secp256k1_PubKey k) = 33%nat ∧ byte_range (secp256k1_PubKey k) ∧
    (head (secp256k1_PubKey k) = Some 2 ∨ head (secp256k1_PubKey k) = Some 3)
}.

Lemma hex_digit_value n : 0 ≤ n < 16 → hex_value (hex_digit n) = Some n.
Proof.
  intros Hn. assert (n ∈ seqZ 0 16) as Hin by (apply elem_of_seqZ; lia). clear Hn. revert n Hin.
  apply Forall_forall. vm_compute. repeat constructor.
Qed.
Lemma hex_decode_encode b : byte_range b → hex_DecodeString (hex_EncodeToString b) = Some b.
Proof.
  induction 1 as [|x b Hx _ IH]; [done|]. cbn -[hex_digit Z.div Z.modulo Z.mul Z.add].
  rewrite !hex_digit_value by (Z.div_mod_to_equations; lia). cbn -[Z.div Z.modulo Z.mul Z.add].
  rewrite IH. cbn -[Z.div Z.modulo Z.mul Z.add]. do 2 f_equal. Z.div_mod_to_equations; lia.
Qed.

(** What SignMessage signs, VerifySignature accepts: the text of a signature decodes
    to the recovery byte and the 64 bytes, and the text of the public key to the
    33 bytes of the key. *)
Theorem signed_message_verifies `{SecpLaws} k message signature :
  SignMessage (Some k) message = Ok signature →
  VerifySignature (hex_EncodeToString (secp256k1_PubKey k)) message signature = Some true.
Proof.
  unfold SignMessage, VerifySignature.
  destruct (secp256k1_Sign k _) as [sig|] eqn:Hs; [|done]. intros Hsig.
  assert (signature = hex_EncodeToString (27 :: sig)) as -> by congruence.
  destruct (sign_verifies _ _ _ Hs) as (Hv & Hl & Hr). destruct (pubkey_format k) as (Hl' & Hr' & Hh).
  rewrite (hex_decode_encode (secp256k1_PubKey k)) by done.
  rewrite (hex_decode_encode (27 :: sig)) by (constructor; [lia|done]). cbn [mbind option_bind length].
  rewrite Hl', Hl.
  replace (bool_decide (head (secp256k1_PubKey k) = Some 2) || bool_decide (head (secp256k1_PubKey k) = Some 3))
    with true by (symmetry; apply orb_true_iff; rewrite !bool_decide_eq_true; done).
  change (drop 1 (27 :: sig)) with sig. by rewrite Hv.
Qed.
