(* ===== verification/ClaimExamples.v ===== *)
(** * Instances of the claim interfaces and theorems

    A chain with two records of 500 and 300 ulume at genesis, whose accounts are a map
    and whose bank is the ledger; a signature scheme whose signature is the padded
    message; and the theorems on the claim of the first record. *)
From Stdlib Require Import ZArith Lia Ascii.
From stdpp Require Import base numbers strings list gmap relations.
From S2P Require Import Prelude Sdk Bank GoHash GoTime SupernodeParams AuditEvidence Claim ClaimThm ClaimRun.
Open Scope Z_scope.

Module ClaimExamples.
#[local] Existing Instance Concrete.address.
#[local] Existing Instance Ledger.ledger_bank.
#[local] Existing Instance Ledger.ledger_laws.

(** ** Signatures *)
Definition pad (m : bytes) : bytes := (λ x, x mod 256) <$> take 64 (m ++ replicate 64 0).
#[export] Instance crypto : ClaimCrypto := {
  ripemd160 b := take 20 b;
  base58_text b := hex_EncodeToString (drop 22 b);
  secp256k1_VerifySignature _ m sig := bool_decide (sig = pad m);
  secp256k1_PrivKey := Z;
  secp256k1_PubKey k := 2 :: replicate 31 0 ++ [k mod 256];
  secp256k1_Sign _ m := Ok (pad m)
}.
#[export] Instance crypto_laws : SecpLaws.
Proof.
  split.
  - intros k m sig [= <-]. split_and!.
    + by apply bool_decide_eq_true.
    + unfold pad. rewrite length_fmap, length_take, length_app, length_replicate. lia.
    + apply Forall_fmap, Forall_true. intros x. cbn -[Z.modulo]. apply Z.mod_pos_bound. lia.
  - intros k. split_and!; [done| |by left].
    constructor; [lia|]. apply Forall_app. split; [apply Forall_replicate; lia|].
    repeat constructor; apply Z.mod_pos_bound; lia.
Qed.

(** ** Accounts *)
Inductive payload := PBase (n : Z) | PVesting (n : Z) (cs : list Coin) (e : Z) | POther.
#[export] Instance auth : AuthTypes := {
  BaseAccount := bytes * Z;
  BaseVestingAccount := bytes * Z * list Coin * Z;
  OtherAccount := bytes;
  NewBaseAccountWithAddress d := (d, 0);
  NewBaseVestingAccount b cs e := if e <? 0 then Err (ErrOther "end time cannot be negative") else Ok (b, cs, e)
}.
Definition kind_of (acc : AccountI) : bytes * payload :=
  match acc with
  | IsBaseAccount (d, n) => (d, PBase n)
  | IsDelayedVestingAccount (d, n, cs, e) => (d, PVesting n cs e)
  | IsOtherAccount d => (d, POther)
  end.
Definition account_of (d : bytes) (p : payload) : AccountI :=
  match p with
  | PBase n => IsBaseAccount (d, n)
  | PVesting n cs e => IsDelayedVestingAccount (d, n, cs, e)
  | POther => IsOtherAccount d
  end.
#[export] Instance account_addresses : AccountAddresses := { account_address acc := (kind_of acc).1 }.
#[export] Instance keeper : AccountKeeper := {
  accounts := gmap (list Z) payload * Z;
  GetAccount a d := account_of d <$> a.1 !! d;
  SetAccount acc a := (<[(kind_of acc).1 := (kind_of acc).2]> a.1, a.2);
  NewAccount acc a :=
    (match acc with IsBaseAccount (d, _) => IsBaseAccount (d, a.2) | _ => acc end, (a.1, a.2 + 1));
  NewAccountWithAddress d a := (IsBaseAccount (d, a.2), (a.1, a.2 + 1));
  GetModuleAccount _ a := (true, a);
  SetModuleAccount m _ a := (<[Ledger.address_of_module m := POther]> a.1, a.2)
}.
Lemma account_of_kind acc : account_of (kind_of acc).1 (kind_of acc).2 = acc.
Proof. by destruct acc as [[? ?]|[[[? ?] ?] ?]|?]. Qed.
#[export] Instance account_laws : AccountLaws.
Proof.
  split.
  - intros acc a. cbn. rewrite lookup_insert_eq. cbn. by rewrite account_of_kind.
  - intros acc a d Hd. cbn. by rewrite lookup_insert_ne.
  - intros a d acc. cbn. destruct (a.1 !! d) as [[]|]; cbn; intros [= <-]; done.
  - done.
  - intros [d n] a. by eexists (d, a.2).
  - intros [d n] cs e v. cbn. destruct (e <? 0); [done|]. by intros [= <-].
Qed.

(** ** The bank *)
#[export] Instance claim_bank : ClaimBank := { BlockedAddr _ := false }.
#[export] Instance claim_bank_laws : ClaimBankLaws.
Proof.
  split.
  - intros m cs Hl b. destruct cs as [|c [|]]; [done| |cbn in Hl; lia].
    cbn -[Z.add]. destruct (Z.leb_spec 0 (Amount c)); [|done]. intros a d.
    rewrite Ledger.balance_insert. pose proof (Ledger.balance_pos b (Ledger.address_of_module m) (Denom c)).
    repeat case_decide; destruct_and?; subst; try lia; naive_solver lia.
  - intros m a cs b Hl _ Hc. destruct cs as [|c [|]]; [done| |cbn in Hl; lia]. cbn.
    destruct (Hc c (list_elem_of_here _ _)) as [H1 H2]. cbn in H2.
    destruct (Z.leb_spec 0 (Amount c)), (Z.leb_spec (Amount c) (Ledger.balance b (Ledger.address_of_module m) (Denom c)));
      done || lia.
  - intros cs b Hl Hc. destruct cs as [|c [|]]; [done| |cbn in Hl; lia]. cbn.
    destruct (Hc c (list_elem_of_here _ _)) as [H1 H2]. cbn in H2.
    destruct (Z.leb_spec 0 (Amount c)),
      (Z.leb_spec (Amount c) (Ledger.balance b (Ledger.address_of_module claim_ModuleName) (Denom c))); done || lia.
Qed.

(** ** Decimal numbers and denominations *)
Fixpoint decimal (s : string) (acc : Z) : option Z :=
  match s with
  | EmptyString => Some acc
  | String c s' =>
      let n := Z.of_nat (nat_of_ascii c) - 48 in
      if (0 <=? n) && (n <=? 9) then decimal s' (acc * 10 + n) else None
  end.
#[export] Instance ints : IntParser := { NewIntFromString s := if decide (s = ""%string) then None else decimal s 0 }.
#[export] Instance denoms : DenomValidator := { ValidateDenom d := bool_decide (d ≠ ""%string) }.

(** ** A chain *)
Definition key : string := Eval vm_compute in hex_EncodeToString (secp256k1_PubKey 7).
Definition old : string := Eval vm_compute in default ""%string (GetAddressFromPubKey key).
Definition message_text : string := (old +:+ "." +:+ key +:+ "." +:+ "anew")%string.
Definition signature : string := Eval vm_compute in
  match SignMessage (Some 7) message_text with Ok x => x | Err _ => ""%string end.
Definition msg : MsgClaim :=
  {| cm_Creator := "asender"; cm_OldAddress := old; cm_NewAddress := "anew"; cm_PubKey := key;
     cm_Signature := signature |}.
Definition delayed (tier : Z) : MsgDelayedClaim :=
  {| dm_Creator := "amallory"; dm_OldAddress := old; dm_NewAddress := "anew"; dm_PubKey := key;
     dm_Signature := signature; dm_Tier := tier |}.
Definition dest : bytes := string_bytes "new".

Definition demo_params : CParams := {| EnableClaims := true; ClaimEndTime := 1800000000; MaxClaimsPerBlock := 2 |}.
Definition genesis : ClaimGenesis :=
  {| g_Params := demo_params; g_ClaimRecords := []; g_TotalClaimableAmount := 800; g_ClaimsDenom := "ulume" |}.
Definition rows : list (list string) := [[old; "500"]; ["other"; "300"; "x"]]%string.
Definition s0 : st claim_store := St (ClaimStore ∅ 0 0 None ∅ (∅, 0)) [].
Definition s1 : st claim_store := (claim_InitGenesis false (Ok rows) genesis s0).2.
Definition at_time (t : Z) : ClaimCtx := {| cc_BlockTime := mkTime t 500000000; cc_Now := t |}.
Definition now : ClaimCtx := at_time 1756641600.
Definition first_record : ClaimRecord := mkClaimRecord old [mkCoin "ulume" 500] false 0 "" 0.

Lemma fresh_s0 : fresh (store s0).
Proof. done. Qed.
Lemma genesis_runs : claim_InitGenesis false (Ok rows) genesis s0 = (Ok tt, s1).
Proof.
  assert ((claim_InitGenesis false (Ok rows) genesis s0).1 = Ok tt) as E by (vm_compute; reflexivity).
  unfold s1. rewrite <- E. apply surjective_pairing.
Qed.
Lemma s1_sound : claims_sound (store s1).
Proof. exact (proj1 (InitGenesis_sound _ _ _ _ _ fresh_s0 genesis_runs)). Qed.

Lemma key_ok : GetAddressFromPubKey key = Some old.
Proof. vm_compute. reflexivity. Qed.
Lemma signature_ok : VerifySignature key message_text signature = Some true.
Proof. vm_compute. reflexivity. Qed.
Lemma s1_params : cl_params (store s1) = Some demo_params.
Proof. vm_compute. reflexivity. Qed.
Lemma s1_block : cl_block (store s1) = 0.
Proof. vm_compute. reflexivity. Qed.
Lemma s1_record : cl_records (store s1) !! old = Some first_record.
Proof. vm_compute. reflexivity. Qed.

Lemma msg_admissible m :
  cm_OldAddress m = old → cm_NewAddress m = "anew"%string → cm_PubKey m = key → cm_Signature m = signature →
  admissible now m (store s1) first_record dest.
Proof.
  intros Ho Hn Hk Hs.
  assert (CGetParams now (store s1) = demo_params) as Hp by (unfold CGetParams; by rewrite s1_params).
  split; rewrite ?Hp, ?Ho, ?Hn, ?Hk, ?Hs.
  - done.
  - vm_compute. reflexivity.
  - rewrite s1_block. vm_compute. reflexivity.
  - exact s1_record.
  - done.
  - exact key_ok.
  - unfold claim_signed. rewrite Ho, Hn, Hk. exact signature_ok.
  - vm_compute. reflexivity.
Qed.

Definition paid_bank : bank :=
  (SendCoinsFromModuleToAccount claim_ModuleName dest (cr_Balance first_record) (cl_bank (store s1))).2.
Lemma payment_runs :
  SendCoinsFromModuleToAccount claim_ModuleName dest (cr_Balance first_record) (cl_bank (store s1)) =
  (Ok tt, paid_bank).
Proof.
  assert ((SendCoinsFromModuleToAccount claim_ModuleName dest (cr_Balance first_record) (cl_bank (store s1))).1 = Ok tt)
    as E by (vm_compute; reflexivity).
  unfold paid_bank. rewrite <- E. apply surjective_pairing.
Qed.
Lemma no_account : vesting_base dest (cl_accounts (store s1)) = Some (dest, 0, (∅, 1)).
Proof. vm_compute. reflexivity. Qed.

Lemma vesting_ok b cs e : 0 ≤ e → NewBaseVestingAccount b cs e = Ok (b, cs, e).
Proof. intros He. cbn. by destruct (Z.ltb_spec e 0); [lia|]. Qed.

Lemma claim_runs : ∃ s2, Claim now msg s1 = (Ok tt, s2).
Proof.
  eexists. unfold Claim.
  refine (proj2 (processClaim_iff now msg CreateBaseAccount _ _ s1 _ (cs_records _ s1_sound) CreateBaseAccount_accounts) _).
  eexists first_record, dest, _, _, paid_bank. split_and!; [by apply msg_admissible| |exact payment_runs|reflexivity].
  by rewrite CreateBaseAccount_run.
Qed.
Lemma delayed_runs tier : 0 ≤ vesting_end (cc_BlockTime now) tier → ∃ s2, DelayedClaim now (delayed tier) s1 = (Ok tt, s2).
Proof.
  intros He. eexists. unfold DelayedClaim.
  refine (proj2 (processClaim_iff now (as_claim (delayed tier)) CreateDelayedAccount _ _ s1 _ (cs_records _ s1_sound)
                   CreateDelayedAccount_accounts) _).
  eexists first_record, dest, _, _, paid_bank. split_and!; [by apply msg_admissible| |exact payment_runs|reflexivity].
  apply CreateDelayedAccount_iff. eexists _, _, _. split_and!; [exact no_account|by apply vesting_ok|reflexivity|reflexivity].
Qed.
Lemma vesting_end_pos tier : 1 ≤ tier ≤ 5 → 0 ≤ vesting_end (cc_BlockTime now) tier.
Proof. intros Ht. pose proof (vesting_end_bounds (cc_BlockTime now) tier Ht). cbn [t_sec cc_BlockTime now at_time] in *. lia. Qed.

(** ** Instances of the theorems *)
Lemma claim_pays_witness :
  ∃ s2 : st claim_store, Claim now msg s1 = (Ok tt, s2) ∧
    cl_records (store s2) !! old = Some (claimed_record now msg 0 first_record).
Proof.
  eexists. split.
  - apply (proj2 (claim_pays now msg s1 _ (cs_records _ s1_sound))).
    exists first_record, dest, paid_bank. split_and!; [by apply msg_admissible|exact payment_runs| |reflexivity].
    pose proof (send_module_account claim_ModuleName dest (cr_Balance first_record) (Nat.le_refl 1)
                       (cl_bank (store s1))) as Hm; rewrite payment_runs in Hm; exact Hm.
  - cbn [store claimed_store cl_records]. apply lookup_insert_eq.
Defined.

Lemma delayed_claim_vests_witness :
  ∃ s2 : st claim_store, DelayedClaim now (delayed 2) s1 = (Ok tt, s2) ∧
    ∃ v, GetAccount (cl_accounts (store s2)) dest = Some (IsDelayedVestingAccount v).
Proof.
  destruct (delayed_runs 2) as [s2 Hrun]; [apply vesting_end_pos; lia|]. exists s2. split; [exact Hrun|].
  assert (MsgDelayedClaim_ValidateBasic (delayed 2) = Ok tt) as Hval by (vm_compute; reflexivity).
  destruct (delayed_claim_vests now (delayed 2) s1 s2 (cs_records _ s1_sound) Hval Hrun)
    as (r & d & v & base & e & Ha & _ & _ & _ & Hg & _).
  exists v. pose proof (adm_dest _ _ _ _ _ Ha) as Hd.
  assert (AccAddressFromBech32 "anew" = Some dest) as Hd' by reflexivity.
  cbn [as_claim cm_NewAddress delayed dm_NewAddress] in Hd. rewrite Hd' in Hd. injection Hd as <-. exact Hg.
Defined.


Definition later : ClaimCtx := at_time 1800000001.
Lemma claim_period_ends_witness :
  ∃ s2 : st claim_store, claim_EndBlocker later s1 = (Ok tt, s2) ∧ enabled (store s2) = false.
Proof.
  destruct (claim_period_ends later s1 eq_refl) as (s2 & Hrun & Hs). exists s2. split; [exact Hrun|].
  assert (CGetParams later (store s1) = demo_params) as Hp by (unfold CGetParams; by rewrite s1_params).
  rewrite Hp in Hs.
  replace (After (cc_BlockTime later) (time_Unix (ClaimEndTime demo_params) 1)) with true in Hs
    by (vm_compute; reflexivity).
  destruct Hs as (_ & _ & Hd & _). unfold enabled. by rewrite Hd.
Defined.

(** An update that sets the parameters again, with claims enabled *)
Definition reopened : st claim_store := (run_tx (claim_UpdateParams "gov" "gov" demo_params) s1).2.
Lemma reopened_run : rtc funded_step (Running, store s1) (Running, store reopened).
Proof.
  apply rtc_once. exists (EvParams true). split_and!; [|reflexivity|discriminate].
  exact (step_params "gov" "gov" demo_params s1).
Qed.
(** The end of the first block past the period *)
Lemma ended_run : ∃ s2 : st claim_store, rtc funded_step (Running, store s1) (Ended, store s2).
Proof.
  destruct (claim_EndBlocker_total later s1 eq_refl) as [s2 Hrun].
  exists (St (put_block 0 (store s2)) []). apply rtc_once. exists (EvEndBlock true).
  split_and!; [|reflexivity|discriminate].
  assert (period_over later (store s1) = true) as <-.
  { unfold period_over, CGetParams. rewrite s1_params. vm_compute. reflexivity. }
  exact (step_end_block later s1 s2 Hrun).
Qed.
Lemma claims_redeemable_witness :
  (unclaimed "ulume" (store reopened) ≤ module_balance "ulume" (store reopened) ∧
   is_ok (Claim now msg s1).1 = true) ∧
  ∃ s2 : st claim_store, rtc funded_step (Running, store s1) (Ended, store s2) ∧
    is_ok (Claim now msg s2).1 = false.
Proof.
  split; [split|].
  - destruct (claims_redeemable false (Ok rows) genesis s0 s1 reopened Running fresh_s0 genesis_runs reopened_run)
      as [Hrunning _]. exact (proj1 (Hrunning eq_refl) "ulume").
  - destruct (claims_redeemable false (Ok rows) genesis s0 s1 s1 Running fresh_s0 genesis_runs (rtc_refl _ _))
      as [Hrunning _].
    exact (proj2 (Hrunning eq_refl) now msg first_record dest (msg_admissible msg eq_refl eq_refl eq_refl eq_refl) eq_refl).
  - destruct ended_run as [s2 Hend]. exists s2. split; [exact Hend|].
    destruct (claims_redeemable false (Ok rows) genesis s0 s1 s2 Ended fresh_s0 genesis_runs Hend) as [_ Hended].
    exact (proj1 (proj2 (Hended eq_refl) now) msg).
Defined.

Lemma claim_once_witness :
  ∃ s2 : st claim_store, Claim now msg s1 = (Ok tt, s2) ∧
    is_ok (DelayedClaim now (delayed 1) (run_tx (claim_UpdateParams "gov" "gov" demo_params) s2).2).1 = false.
Proof.
  destruct claim_runs as [s2 Hrun]. exists s2. split; [exact Hrun|].
  assert (rtc any_step (store s2) (store (run_tx (claim_UpdateParams "gov" "gov" demo_params) s2).2)) as Hstep
    by (apply rtc_once; eexists; apply step_params).
  apply (claim_once false (Ok rows) genesis now msg (delayed 1) s0 s1 s1 s2 _ fresh_s0 genesis_runs (rtc_refl _ _)
           eq_refl (or_introl Hrun) Hstep). reflexivity.
Defined.

Lemma block_claims_limited_witness :
  Z.of_nat (run_block now [inl msg; inr (delayed 1); inl msg] s1).1 ≤ 2.
Proof.
  apply (block_claims_limited now [inl msg; inr (delayed 1); inl msg] s1 demo_params);
    [exact (cs_records _ s1_sound)|exact s1_params|by vm_compute|exact s1_block].
Defined.

Lemma signed_message_verifies_witness :
  ∃ x, SignMessage (Some 7) "claim"%string = Ok x ∧
    VerifySignature (hex_EncodeToString (secp256k1_PubKey 7)) "claim" x = Some true.
Proof. eexists. split; [reflexivity|]. apply signed_message_verifies. reflexivity. Defined.
End ClaimExamples.
