(* ===== verification/EvProof.v ===== *)
(** * x/evmigration: migration proofs

    types/proof.go, types/sigverify/sigverify.go, keeper/verify.go and the basic
    validation of types/types.go.  A migration carries two proofs, one of the legacy
    key and one of the new key, over a text that names the chain, the kind of
    migration and both addresses. *)
From Stdlib Require Import ZArith Lia Ascii.
From stdpp Require Import base numbers strings list gmap.
From S2P Require Import Prelude Sdk GoHash Reward.
Open Scope Z_scope.

(** The keys of the Cosmos SDK and of the EVM module: the address of a compressed key
    and of a threshold key, and the verification of a signature *)
Inductive SubKeyType := SubKeyTypeCosmosSecp256k1 | SubKeyTypeEthSecp256k1.
Class MigrationKeys := {
  key_Address : SubKeyType → bytes → bytes;
  key_VerifySignature : SubKeyType → bytes → bytes → bytes → bool;
  LegacyAmino_Address : SubKeyType → Z → list bytes → bytes
}.

(** ** Data *)
Inductive Side := SideLegacy | SideNew.
Inductive SigFormat :=
| SIG_FORMAT_UNSPECIFIED | SIG_FORMAT_CLI | SIG_FORMAT_ADR036 | SIG_FORMAT_EIP191
| SIG_FORMAT_unknown (n : Z).
#[export] Instance SigFormat_eq_dec : EqDecision SigFormat.
Proof. solve_decision. Defined.
Record SingleKeyProof := { sp_PubKey : bytes; sp_Signature : bytes; sp_SigFormat : SigFormat }.
Record MultisigProof := {
  mp_Threshold : Z;
  mp_SubPubKeys : list bytes;
  mp_SignerIndices : list Z;
  mp_SubSignatures : list bytes;
  mp_SigFormat : SigFormat
}.
(** The alternatives of the message; a pointer may be nil. *)
Inductive MigrationProof :=
| MigrationProof_unset
| MigrationProof_Single (p : option SingleKeyProof)
| MigrationProof_Multisig (p : option MultisigProof).

Definition ErrInvalidMigrationProof : error := ErrOther "invalid migration proof".
Definition ErrInvalidMigrationPubKey : error := ErrOther "invalid public key in migration proof".
Definition ErrInvalidMigrationSignature : error := ErrOther "migration signature verification failed".
Definition ErrPubKeyAddressMismatch : error := ErrOther "public key does not derive to claimed address".
Definition ErrMirrorSourceMismatch : error := ErrOther "legacy and new proofs violate the mirror-source rule".
Definition ErrSameAddress : error := ErrOther "legacy and new address must be different".

Definition PubKeySize : Z := 33.

(** ** Validation: types/proof.go *)
Definition check (b : bool) (e : error) : result unit := if b then Ok tt else Err e.
Fixpoint first_error (l : list (result unit)) : result unit :=
  match l with
  | [] => Ok tt
  | Ok _ :: l' => first_error l'
  | Err e :: _ => Err e
  end.

Definition single_validateBasic (side : Side) (s : option SingleKeyProof) : result unit :=
  match s with
  | None => Err ErrInvalidMigrationProof
  | Some s => first_error [
      check (zlen (sp_PubKey s) =? PubKeySize) ErrInvalidMigrationPubKey;
      check (match side with
             | SideLegacy => zlen (sp_Signature s) =? 64
             | SideNew => zlen (sp_Signature s) =? 65
             end) ErrInvalidMigrationSignature;
      check (bool_decide (sp_SigFormat s ≠ SIG_FORMAT_UNSPECIFIED)) ErrInvalidMigrationProof;
      check (match side with
             | SideLegacy => bool_decide (sp_SigFormat s ≠ SIG_FORMAT_EIP191)
             | SideNew => true
             end) ErrInvalidMigrationProof ]
  end.

(** The signer indices go up strictly. *)
Fixpoint ascending (l : list Z) : bool :=
  match l with
  | x :: (y :: _) as l' => (x <? y) && ascending l'
  | _ => true
  end.
Definition validateStructure (m : MultisigProof) : result unit :=
  let n := u32 (zlen (mp_SubPubKeys m)) in
  first_error [
    check (negb (n =? 0)) ErrInvalidMigrationProof;
    check ((1 <=? mp_Threshold m) && (mp_Threshold m <=? n)) ErrInvalidMigrationProof;
    check (u32 (zlen (mp_SignerIndices m)) =? mp_Threshold m) ErrInvalidMigrationProof;
    check (zlen (mp_SubSignatures m) =? zlen (mp_SignerIndices m)) ErrInvalidMigrationProof;
    check (ascending (mp_SignerIndices m)) ErrInvalidMigrationProof;
    check (forallb (λ idx, idx <? n) (mp_SignerIndices m)) ErrInvalidMigrationProof;
    check (bool_decide (mp_SigFormat m ≠ SIG_FORMAT_UNSPECIFIED)) ErrInvalidMigrationProof ].

(** Every key has its length and differs from those before it. *)
Fixpoint check_sub_keys (seen : list bytes) (l : list bytes) : result unit :=
  match l with
  | [] => Ok tt
  | raw :: l' =>
      if negb (zlen raw =? PubKeySize) then Err ErrInvalidMigrationPubKey else
      if bool_decide (raw ∈ seen) then Err ErrInvalidMigrationPubKey else
      check_sub_keys (raw :: seen) l'
  end.
Definition multisig_validateBasic (side : Side) (m : option MultisigProof) : result unit :=
  match m with
  | None => Err ErrInvalidMigrationProof
  | Some m =>
      let expectedSigLen := match side with SideLegacy => 64 | SideNew => 65 end in
      first_error [
        check (bool_decide (mp_SigFormat m ≠ SIG_FORMAT_EIP191)) ErrInvalidMigrationProof;
        validateStructure m;
        check_sub_keys [] (mp_SubPubKeys m);
        check (forallb (λ sig, zlen sig =? expectedSigLen) (mp_SubSignatures m)) ErrInvalidMigrationSignature ]
  end.

Definition proof_ValidateBasic (side : Side) (p : MigrationProof) : result unit :=
  match p with
  | MigrationProof_unset => Err ErrInvalidMigrationProof
  | MigrationProof_Single s => single_validateBasic side s
  | MigrationProof_Multisig m => multisig_validateBasic side m
  end.
Definition MultisigProofValidateParams (m : option MultisigProof) (maxSubKeys : Z) : result unit :=
  match m with
  | None => Ok tt
  | Some m => check (negb (maxSubKeys <? u32 (zlen (mp_SubPubKeys m)))) ErrInvalidMigrationProof
  end.
Definition proof_ValidateParams (p : MigrationProof) (maxSubKeys : Z) : result unit :=
  match p with
  | MigrationProof_Multisig m => MultisigProofValidateParams m maxSubKeys
  | _ => Ok tt
  end.

Definition ValidateProofPair (legacy newProof : MigrationProof) : result unit :=
  match legacy, newProof with
  | MigrationProof_Single _, MigrationProof_Single _ => Ok tt
  | MigrationProof_Multisig None, MigrationProof_Multisig _ => Err ErrInvalidMigrationProof
  | MigrationProof_Multisig (Some _), MigrationProof_Multisig None => Err ErrInvalidMigrationProof
  | MigrationProof_Multisig (Some l), MigrationProof_Multisig (Some n) => first_error [
      check (mp_Threshold l =? mp_Threshold n) ErrMirrorSourceMismatch;
      check (zlen (mp_SubPubKeys l) =? zlen (mp_SubPubKeys n)) ErrMirrorSourceMismatch;
      check (bool_decide (mp_SignerIndices l = mp_SignerIndices n)) ErrMirrorSourceMismatch ]
  | _, _ => Err ErrMirrorSourceMismatch
  end.

Definition key_type_of (side : Side) : SubKeyType :=
  match side with SideLegacy => SubKeyTypeCosmosSecp256k1 | SideNew => SubKeyTypeEthSecp256k1 end.

(** ** encoding/base64, standard alphabet with padding *)
Definition base64_alphabet : string := "ABCDEFGHIJKLMNOPQRSTUVWXYZabcdefghijklmnopqrstuvwxyz0123456789+/".
Definition base64_char (n : Z) : ascii := default "="%char (String.get (Z.to_nat n) base64_alphabet).
Fixpoint base64_EncodeToString (b : bytes) : string :=
  match b with
  | x :: y :: z :: r =>
      String (base64_char (x / 4)) (String (base64_char (x mod 4 * 16 + y / 16))
        (String (base64_char (y mod 16 * 4 + z / 64)) (String (base64_char (z mod 64))
          (base64_EncodeToString r))))
  | [x; y] =>
      String (base64_char (x / 4)) (String (base64_char (x mod 4 * 16 + y / 16))
        (String (base64_char (y mod 16 * 4)) "="))
  | [x] => String (base64_char (x / 4)) (String (base64_char (x mod 4 * 16)) "==")
  | [] => ""
  end.

(** ** sigverify.go *)
(** Text in which a backquote stands for a quotation mark *)
Fixpoint quoted (s : string) : string :=
  match s with
  | EmptyString => EmptyString
  | String c s' => String (if decide (c = "`"%char) then ascii_of_nat 34 else c) (quoted s')
  end.
Definition EIP191PersonalSignPayload (msg : bytes) : bytes :=
  [0x19] ++ string_bytes "Ethereum Signed Message:" ++ [10] ++ string_bytes (FormatInt (zlen msg)) ++ msg.
Definition ADR036SignDoc (signer : string) (data : bytes) : bytes :=
  string_bytes
    (quoted "{`account_number`:`0`,`chain_id`:``,`fee`:{`amount`:[],`gas`:`0`}," +:+
     quoted "`memo`:``,`msgs`:[{`type`:`sign/MsgSignData`,`value`:" +:+
     quoted "{`data`:`" +:+ base64_EncodeToString data +:+ quoted "`,`signer`:`" +:+ signer +:+
     quoted "`}}],`sequence`:`0`}")%string.

Section Verify.
Context `{MigrationKeys} `{AccAddressText} `{SdkAddress}.

(** kmultisig.NewLegacyAminoPubKey panics on a threshold out of range. *)
Definition multisig_Address (ty : SubKeyType) (threshold : Z) (keys : list bytes) : result bytes :=
  if (threshold <=? 0) || (zlen keys <? threshold) then Err (Panic "threshold k of n multisignature")
  else Ok (LegacyAmino_Address ty threshold keys).

Definition DerivedAddress (side : Side) (p : MigrationProof) : result bytes :=
  match proof_ValidateBasic side p with
  | Err e => Err e
  | Ok _ =>
      match p with
      | MigrationProof_Single (Some s) => Ok (key_Address (key_type_of side) (sp_PubKey s))
      | MigrationProof_Multisig (Some m) =>
          multisig_Address (key_type_of side) (mp_Threshold m) (mp_SubPubKeys m)
      | _ => Err ErrInvalidMigrationProof
      end
  end.
Definition ValidateAddressBinding (side : Side) (expected : bytes) (p : MigrationProof) : result unit :=
  match DerivedAddress side p with
  | Err e => Err e
  | Ok derived => check (bool_decide (derived = expected)) ErrPubKeyAddressMismatch
  end.

Definition VerifyCosmosSecp256k1 (pk : bytes) (signerAddr payload sig : bytes) (format : SigFormat)
    : result unit :=
  match format with
  | SIG_FORMAT_CLI =>
      check (key_VerifySignature SubKeyTypeCosmosSecp256k1 pk (Sha256.sum256 payload) sig)
        ErrInvalidMigrationSignature
  | SIG_FORMAT_ADR036 =>
      check (key_VerifySignature SubKeyTypeCosmosSecp256k1 pk
               (ADR036SignDoc (AccAddress_String signerAddr) payload) sig) ErrInvalidMigrationSignature
  | _ => Err ErrInvalidMigrationProof
  end.
Definition eth_message (signerAddr payload : bytes) (format : SigFormat) : option bytes :=
  match format with
  | SIG_FORMAT_CLI => Some payload
  | SIG_FORMAT_EIP191 => Some (EIP191PersonalSignPayload payload)
  | SIG_FORMAT_ADR036 => Some (ADR036SignDoc (AccAddress_String signerAddr) payload)
  | _ => None
  end.
Definition VerifyEthSecp256k1 (pk : bytes) (signerAddr payload sig : bytes) (format : SigFormat)
    : result unit :=
  if negb (zlen sig =? 65) then Err ErrInvalidMigrationSignature else
  match eth_message signerAddr payload format with
  | None => Err ErrInvalidMigrationProof
  | Some msg => check (key_VerifySignature SubKeyTypeEthSecp256k1 pk msg (take 64 sig)) ErrInvalidMigrationSignature
  end.
Definition verify_signature (ty : SubKeyType) : bytes → bytes → bytes → bytes → SigFormat → result unit :=
  match ty with
  | SubKeyTypeCosmosSecp256k1 => VerifyCosmosSecp256k1
  | SubKeyTypeEthSecp256k1 => VerifyEthSecp256k1
  end.

(** ** keeper/verify.go *)
Definition migrationPayload (chainID : string) (evmChainID : Z) (kind : string) (legacyAddr newAddr : bytes) : bytes :=
  string_bytes ("lumera-evm-migration:" +:+ chainID +:+ ":" +:+ FormatInt evmChainID +:+ ":" +:+ kind +:+ ":" +:+
                AccAddress_String legacyAddr +:+ ":" +:+ AccAddress_String newAddr)%string.

Definition verifySingleKeyProofSide (payload boundAddr : bytes) (p : SingleKeyProof) (keyType : SubKeyType)
    : result unit :=
  if negb (zlen (sp_PubKey p) =? PubKeySize) then Err ErrInvalidMigrationPubKey else
  let derived := key_Address keyType (sp_PubKey p) in
  if negb (bool_decide (derived = boundAddr)) then Err ErrPubKeyAddressMismatch else
  verify_signature keyType (sp_PubKey p) boundAddr payload (sp_Signature p) (sp_SigFormat p).

(** The signature at position [i] of the proof is of the key at [idx]. *)
Definition verify_sub (payload : bytes) (m : MultisigProof) (keyType : SubKeyType) (i : nat) (idx : Z) : result unit :=
  match mp_SubPubKeys m !! Z.to_nat idx with
  | None => Err ErrInvalidMigrationProof
  | Some pk =>
      match mp_SubSignatures m !! i with
      | None => Err (Panic "index out of range")
      | Some sig =>
          match verify_signature keyType pk (key_Address keyType pk) payload sig (mp_SigFormat m) with
          | Ok _ => Ok tt
          | Err _ => Err ErrInvalidMigrationSignature
          end
      end
  end.
Definition verifyMultisigProofSide (payload boundAddr : bytes) (m : MultisigProof) (keyType : SubKeyType)
    : result unit :=
  if negb (forallb (λ raw, zlen raw =? PubKeySize) (mp_SubPubKeys m)) then Err ErrInvalidMigrationPubKey else
  match multisig_Address keyType (mp_Threshold m) (mp_SubPubKeys m) with
  | Err e => Err e
  | Ok derived =>
      if negb (bool_decide (derived = boundAddr)) then Err ErrPubKeyAddressMismatch else
      first_error (imap (verify_sub payload m keyType) (mp_SignerIndices m))
  end.

Definition side_of (keyType : SubKeyType) : Side :=
  match keyType with SubKeyTypeEthSecp256k1 => SideNew | SubKeyTypeCosmosSecp256k1 => SideLegacy end.
Definition VerifyMigrationProof (chainID : string) (evmChainID : Z) (kind : string)
    (legacyAddr newAddr boundAddr : bytes) (proof : MigrationProof) (keyType : SubKeyType) : result unit :=
  match proof_ValidateBasic (side_of keyType) proof with
  | Err e => Err e
  | Ok _ =>
      let payload := migrationPayload chainID evmChainID kind legacyAddr newAddr in
      match proof with
      | MigrationProof_Single (Some p) => verifySingleKeyProofSide payload boundAddr p keyType
      | MigrationProof_Multisig (Some m) => verifyMultisigProofSide payload boundAddr m keyType
      | _ => Err ErrInvalidMigrationProof
      end
  end.

(** ** types/types.go *)
Record MsgClaimLegacyAccount := {
  cl_NewAddress : string; cl_LegacyAddress : string;
  cl_LegacyProof : MigrationProof; cl_NewProof : MigrationProof
}.
Definition MsgClaimLegacyAccount_ValidateBasic (msg : MsgClaimLegacyAccount) : result unit :=
  match AccAddressFromBech32 (cl_NewAddress msg), AccAddressFromBech32 (cl_LegacyAddress msg) with
  | Some newAddr, Some legacyAddr => first_error [
      check (bool_decide (cl_NewAddress msg ≠ cl_LegacyAddress msg)) ErrSameAddress;
      proof_ValidateBasic SideLegacy (cl_LegacyProof msg);
      proof_ValidateBasic SideNew (cl_NewProof msg);
      ValidateAddressBinding SideLegacy legacyAddr (cl_LegacyProof msg);
      ValidateAddressBinding SideNew newAddr (cl_NewProof msg);
      ValidateProofPair (cl_LegacyProof msg) (cl_NewProof msg) ]
  | _, _ => Err ErrInvalidAddress
  end.
End Verify.
