(* ===== verification/EvKeepers.v ===== *)
(** * x/evmigration: the keepers it moves state between

    What the migration uses of x/auth, x/bank, x/staking, x/distribution, x/authz and
    x/feegrant (types/expected_keepers.go), as interfaces with one store each, and the
    store of the module with the action and supernode modules in it. *)
From Stdlib Require Import ZArith Lia.
From stdpp Require Import base numbers strings list gmap.
From S2P Require Import Prelude Sdk Bank GoTime SupernodeTypes Supernode ActionTypes ActionStore Reward EvProof.
Open Scope Z_scope.

(** ** Accounts of x/auth and x/auth/vesting *)
Class AccTypes := { BaseAcc : Type; ModuleAcc : Type; OtherAcc : Type; Period : Type }.
(** vestingtypes.BaseVestingAccount *)
Record BaseVesting `{AccTypes} := {
  bv_Base : BaseAcc;
  bv_OriginalVesting : list Coin;
  bv_DelegatedFree : list Coin;
  bv_DelegatedVesting : list Coin;
  bv_EndTime : Z
}.
(** The dynamic type of an account *)
Inductive Acc `{AccTypes} :=
| ABase (b : BaseAcc)
| AContinuous (v : BaseVesting) (start : Z)
| ADelayed (v : BaseVesting)
| APeriodic (v : BaseVesting) (start : Z) (periods : list Period)
| APermanentLocked (v : BaseVesting)
| AModule (m : ModuleAcc)
| AOther (o : OtherAcc).
Class AccOps `{AccTypes} := {
  (** GetPubKey().Bytes(), if a key is set *)
  acc_PubKey : Acc → option bytes;
  (** the bytes of the threshold key of eth keys, and SetPubKey of it *)
  multisig_Bytes : Z → list bytes → bytes;
  acc_SetPubKey : Z → list bytes → Acc → result Acc;
  vest_NewBase : BaseAcc → list Coin → Z → result BaseVesting;
  vest_NewPermanentLocked : BaseAcc → list Coin → result BaseVesting;
  (** NewBaseAccount with the key, number and sequence of an account *)
  base_part : bytes → Acc → BaseAcc
}.
Class Auth `{AccTypes} := {
  auth : Type;
  auth_GetAccount : auth → bytes → option Acc;
  auth_SetAccount : Acc → auth → auth;
  auth_RemoveAccount : Acc → auth → auth;
  auth_NewAccountWithAddress : bytes → auth → Acc * auth
}.
(** SendCoins makes the account of the recipient if there is none. *)
Class CoinSender `{BankKeeper} `{Auth} := {
  SendCoins : bytes → bytes → list Coin → bank * auth → result unit * (bank * auth)
}.

(** ** x/staking *)
Class StakingTypes `{LegacyDecOps} := {
  SValidator : Type;
  TokensFromSharesTruncated : SValidator → Dec → Dec;
  UBDEntry : Type; ubd_CompletionTime : UBDEntry → Time; ubd_UnbondingId : UBDEntry → Z;
  REDEntry : Type; red_CompletionTime : REDEntry → Time; red_UnbondingId : REDEntry → Z
}.
Record Delegation `{LegacyDecOps} := mkDelegation {
  del_DelegatorAddress : string; del_ValidatorAddress : string; del_Shares : Dec
}.
Record UnbondingDelegation `{StakingTypes} := mkUBD {
  ubd_DelegatorAddress : string; ubd_ValidatorAddress : string; ubd_Entries : list UBDEntry
}.
Record Redelegation `{StakingTypes} := mkRED {
  red_DelegatorAddress : string; red_ValidatorSrcAddress : string; red_ValidatorDstAddress : string;
  red_Entries : list REDEntry
}.
Arguments mkDelegation {_} _ _ _.
Arguments mkUBD {_ _} _ _ _.
Arguments mkRED {_ _} _ _ _ _.
Definition ErrNoValidatorFound : error := ErrOther "validator does not exist".
Class StakingStore `{StakingTypes} := {
  staking : Type;
  st_GetValidator : staking → bytes → result SValidator;
  GetDelegatorDelegations : bytes → Z → staking → result (list Delegation);
  GetUnbondingDelegations : bytes → Z → staking → result (list UnbondingDelegation);
  GetRedelegations : bytes → Z → staking → result (list Redelegation);
  SetDelegation : Delegation → staking → result unit * staking;
  RemoveDelegation : Delegation → staking → result unit * staking;
  SetUnbondingDelegation : UnbondingDelegation → staking → result unit * staking;
  RemoveUnbondingDelegation : UnbondingDelegation → staking → result unit * staking;
  InsertUBDQueue : UnbondingDelegation → Time → staking → result unit * staking;
  SetUnbondingDelegationByUnbondingID : UnbondingDelegation → Z → staking → result unit * staking;
  SetRedelegation : Redelegation → staking → result unit * staking;
  RemoveRedelegation : Redelegation → staking → result unit * staking;
  InsertRedelegationQueue : Redelegation → Time → staking → result unit * staking;
  SetRedelegationByUnbondingID : Redelegation → Z → staking → result unit * staking
}.

(** ** x/distribution *)
Record StartingInfo `{LegacyDecOps} := { si_Height : Z; si_PreviousPeriod : Z; si_Stake : Dec }.
Class Distribution `{BankKeeper} `{Auth} `{StakingStore} := {
  distr : Type;
  HistoricalRewards : Type;
  ReferenceCount : HistoricalRewards → Z;
  set_ReferenceCount : Z → HistoricalRewards → HistoricalRewards;
  GetDelegatorWithdrawAddr : distr → bytes → result bytes;
  SetDelegatorWithdrawAddr : bytes → bytes → distr → result unit * distr;
  GetDelegatorStartingInfo : distr → bytes → bytes → result StartingInfo;
  SetDelegatorStartingInfo : bytes → bytes → StartingInfo → distr → result unit * distr;
  DeleteDelegatorStartingInfo : bytes → bytes → distr → result unit * distr;
  CurrentRewards : Type;
  cr_Period : CurrentRewards → Z;
  GetValidatorCurrentRewards : distr → bytes → result CurrentRewards;
  (** the row of the store; an error when it does not decode *)
  distr_HistoricalReward : distr → bytes → Z → result (option HistoricalRewards);
  SetValidatorHistoricalRewards : bytes → Z → HistoricalRewards → distr → result unit * distr;
  (** pays into the withdraw address *)
  WithdrawDelegationRewards : staking → bytes → bytes → distr * (bank * auth) → result unit * (distr * (bank * auth))
}.

(** ** x/authz and x/feegrant *)
Class Authz := {
  authz : Type; Grant : Type; Authorization : Type;
  GetAuthorization : Grant → result Authorization;
  MsgTypeURL : Authorization → string;
  Grant_Expiration : Grant → option Time;
  (** granter, grantee and grant, in store order *)
  IterateGrants : authz → list (bytes * bytes * Grant);
  DeleteGrant : bytes → bytes → string → authz → result unit * authz;
  (** the first argument is the time of the block *)
  SaveGrant : Time → bytes → bytes → Authorization → option Time → authz → result unit * authz
}.
Class Feegrant `{Auth} := {
  feegrant : Type; FeeGrant : Type; Allowance : Type;
  fg_Granter : FeeGrant → string; fg_Grantee : FeeGrant → string; GetGrant : FeeGrant → result Allowance;
  IterateAllFeeAllowances : feegrant → result (list FeeGrant);
  GrantAllowance : Time → bytes → bytes → Allowance → feegrant * auth → result unit * (feegrant * auth);
  (** RevokeAllowance of the message server *)
  RevokeAllowance : bytes → bytes → feegrant → result unit * feegrant
}.

(** ** The store of the module *)
Record MParams := {
  EnableMigration : bool; MigrationEndTime : Z; MaxMigrationsPerBlock : Z; MaxValidatorDelegations : Z;
  MaxMultisigSubKeys : Z
}.
Record MigrationRecord := mkMigrationRecord {
  mr_LegacyAddress : string; mr_NewAddress : string; mr_MigrationTime : Z; mr_MigrationHeight : Z
}.
Record MigCtx := { mc_ChainID : string; mc_BlockTime : Time; mc_BlockHeight : Z }.

Section Store.
Context `{Hd : LegacyDecOps} `{Hb : BankKeeper} `{!AuditKeeper} `{Hat : AccTypes} `{!Auth}.
Context `{Hst : !StakingTypes} `{!StakingStore} `{!Distribution} `{Hz : Authz} `{!Feegrant}.
Record mig_store := MigStore {
  mg_params : option MParams;
  mg_records : gmap string MigrationRecord;
  mg_by_new : gmap string string;
  mg_count : option Z;
  mg_val_count : option Z;
  mg_block : gmap Z Z;
  mg_auth : auth;
  mg_staking : staking;
  mg_distr : distr;
  mg_authz : authz;
  mg_feegrant : feegrant;
  (** the action module, with the bank and the supernode registry *)
  mg_act : act_store
}.
Definition put_mparams (p : MParams) (s : mig_store) : mig_store :=
  MigStore (Some p) (mg_records s) (mg_by_new s) (mg_count s) (mg_val_count s) (mg_block s) (mg_auth s)
    (mg_staking s) (mg_distr s) (mg_authz s) (mg_feegrant s) (mg_act s).
Definition put_migrated (records : gmap string MigrationRecord) (by_new : gmap string string) (s : mig_store) : mig_store :=
  MigStore (mg_params s) records by_new (mg_count s) (mg_val_count s) (mg_block s) (mg_auth s)
    (mg_staking s) (mg_distr s) (mg_authz s) (mg_feegrant s) (mg_act s).
Definition put_counters (count val_count : option Z) (block : gmap Z Z) (s : mig_store) : mig_store :=
  MigStore (mg_params s) (mg_records s) (mg_by_new s) count val_count block (mg_auth s)
    (mg_staking s) (mg_distr s) (mg_authz s) (mg_feegrant s) (mg_act s).
(** The stores of the other modules *)
Definition put_world (a : auth) (st : staking) (d : distr) (z : authz) (f : feegrant) (act : act_store) (s : mig_store)
    : mig_store :=
  MigStore (mg_params s) (mg_records s) (mg_by_new s) (mg_count s) (mg_val_count s) (mg_block s) a st d z f act.
Definition put_auth (a : auth) (s : mig_store) : mig_store :=
  put_world a (mg_staking s) (mg_distr s) (mg_authz s) (mg_feegrant s) (mg_act s) s.
Definition put_staking (st : staking) (s : mig_store) : mig_store :=
  put_world (mg_auth s) st (mg_distr s) (mg_authz s) (mg_feegrant s) (mg_act s) s.
Definition put_distr (d : distr) (s : mig_store) : mig_store :=
  put_world (mg_auth s) (mg_staking s) d (mg_authz s) (mg_feegrant s) (mg_act s) s.
Definition put_authz (z : authz) (s : mig_store) : mig_store :=
  put_world (mg_auth s) (mg_staking s) (mg_distr s) z (mg_feegrant s) (mg_act s) s.
Definition put_feegrant (f : feegrant) (s : mig_store) : mig_store :=
  put_world (mg_auth s) (mg_staking s) (mg_distr s) (mg_authz s) f (mg_act s) s.
Definition put_act (act : act_store) (s : mig_store) : mig_store :=
  put_world (mg_auth s) (mg_staking s) (mg_distr s) (mg_authz s) (mg_feegrant s) act s.
Definition put_mbank (b : bank) (s : mig_store) : mig_store := put_act (set_bank b (mg_act s)) s.
Definition put_sn_store (t : sn_store) (s : mig_store) : mig_store :=
  let a := mg_act s in
  put_act (ActStore (act_actions a) (act_count a) (act_by_state a) (act_by_creator a) (act_by_type a)
             (act_by_block a) (act_by_sn a) (act_params a) (act_bank a) t (act_audit a)) s.

(** Calls into the other modules *)
Definition on_staking {A} (op : staking → result A * staking) : M mig_store A := lift mg_staking put_staking op.
Definition on_distr {A} (op : distr → result A * distr) : M mig_store A := lift mg_distr put_distr op.
Definition on_authz {A} (op : authz → result A * authz) : M mig_store A := lift mg_authz put_authz op.
Definition on_feegrant {A} (op : feegrant → result A * feegrant) : M mig_store A :=
  lift mg_feegrant put_feegrant op.
Definition on_bank_auth {A} (op : bank * auth → result A * (bank * auth)) : M mig_store A :=
  lift (λ s, (act_bank (mg_act s), mg_auth s)) (λ p s, put_auth p.2 (put_mbank p.1 s)) op.
Definition on_feegrant_auth {A} (op : feegrant * auth → result A * (feegrant * auth)) : M mig_store A :=
  lift (λ s, (mg_feegrant s, mg_auth s)) (λ p s, put_auth p.2 (put_feegrant p.1 s)) op.
Definition on_rewards {A} (op : distr * (bank * auth) → result A * (distr * (bank * auth))) : M mig_store A :=
  lift (λ s, (mg_distr s, (act_bank (mg_act s), mg_auth s)))
    (λ p s, put_distr p.1 (put_auth p.2.2 (put_mbank p.2.1 s))) op.
End Store.
