(* ===== verification/EvMigrate.v ===== *)
(** * x/evmigration: the migration of an account

    keeper/msg_server_claim_legacy.go and the steps it runs: migrate_distribution.go,
    migrate_staking.go, migrate_auth.go, migrate_bank.go, migrate_authz.go,
    migrate_feegrant.go, migrate_supernode.go, migrate_action.go; msg_update_params.go,
    genesis.go and the parameters. *)
From Stdlib Require Import ZArith Lia.
From stdpp Require Import base numbers strings list gmap.
From S2P Require Import Prelude Sdk Bank GoTime SupernodeTypes Supernode RegistryClients ActionTypes ActionStore Reward EvProof EvKeepers.
Open Scope Z_scope.

Definition EVMChainID : Z := 76857769.
Definition migrationPayloadKindClaim : string := "claim".
Definition migrationPayloadKindValidator : string := "validator".

(** ** types/params.go *)
Definition MDefaultParams : MParams :=
  {| EnableMigration := true; MigrationEndTime := 0; MaxMigrationsPerBlock := 50; MaxValidatorDelegations := 2500;
     MaxMultisigSubKeys := 20 |}.
Definition MParams_Validate (p : MParams) : result unit :=
  if MaxMigrationsPerBlock p =? 0 then Err (ErrOther "max_migrations_per_block must be positive") else
  if MaxValidatorDelegations p =? 0 then Err (ErrOther "max_validator_delegations must be positive") else
  if MaxMultisigSubKeys p =? 0 then Err (ErrOther "max_multisig_sub_keys must be positive") else Ok tt.

(** The largest number of records the staking keeper is asked for *)
Definition maxRetrieve : Z := 65535.

Inductive VestingType := VestingTypeContinuous | VestingTypeDelayed | VestingTypePeriodic | VestingTypePermanentLocked.

Section Migrate.
Context `{MigrationKeys} `{AccAddressText} `{SdkAddress}.
Context `{Hd : LegacyDecOps} `{Hb : BankKeeper} `{!AuditKeeper} `{!PayoutBank}.
Context `{Hat : AccTypes} `{!AccOps} `{!Auth} `{!CoinSender}.
Context `{Hst : !StakingTypes} `{!StakingStore} `{!Distribution} `{Hz : Authz} `{!Feegrant}.

Definition Params_Get : M mig_store MParams := gets mg_params ≫= of_option (ErrOther "collections: not found").

(** ** migrate_distribution.go *)
Definition adjustHistoricalRewardsReferenceCount (valAddr : bytes) (period : Z) (delta : Z) (repairZero : bool)
    : M mig_store unit :=
  row ← gets (λ s, distr_HistoricalReward (mg_distr s) valAddr period);
  found ← of_result row;
  historical ← of_option (ErrOther "validator historical rewards not found") found;
  if repairZero && (0 <? ReferenceCount historical) then mret tt else
  let next := ReferenceCount historical + delta in
  let next := if repairZero && (ReferenceCount historical =? 0) && (0 <? delta) then 1 else next in
  if next <? 0 then fail (ErrOther "negative historical rewards reference count") else
  on_distr (SetValidatorHistoricalRewards valAddr period (set_ReferenceCount (u32 next) historical)).
Definition incrementHistoricalRewardsReferenceCount (valAddr : bytes) (period : Z) : M mig_store unit :=
  adjustHistoricalRewardsReferenceCount valAddr period 1 false.
Definition ensureDelegatorStartingInfoReferenceCount (valAddr delAddr : bytes) : M mig_store unit :=
  startingInfo ← gets (λ s, GetDelegatorStartingInfo (mg_distr s) valAddr delAddr);
  match startingInfo with
  | Err _ => mret tt
  | Ok si => adjustHistoricalRewardsReferenceCount valAddr (si_PreviousPeriod si) 1 true
  end.
Definition redirectWithdrawAddrIfMigrated (legacyAddr : bytes) : M mig_store unit :=
  withdrawAddr ← gets (λ s, GetDelegatorWithdrawAddr (mg_distr s) legacyAddr);
  match withdrawAddr with
  | Err _ => mret tt
  | Ok w =>
      if bool_decide (w = legacyAddr) then mret tt else
      has ← gets (λ s, bool_decide (is_Some (mg_records s !! AccAddress_String w)));
      if negb has then mret tt else on_distr (SetDelegatorWithdrawAddr legacyAddr legacyAddr)
  end.
Definition MigrateDistribution (legacyAddr : bytes) : M mig_store unit :=
  _ ← redirectWithdrawAddrIfMigrated legacyAddr;
  ds ← gets (λ s, GetDelegatorDelegations legacyAddr maxRetrieve (mg_staking s));
  delegations ← of_result ds;
  for_each (λ del,
    valAddr ← of_option (ErrOther "invalid address") (ValAddressFromBech32 (del_ValidatorAddress del));
    _ ← ensureDelegatorStartingInfoReferenceCount valAddr legacyAddr;
    st ← gets mg_staking;
    on_rewards (WithdrawDelegationRewards st legacyAddr valAddr)) delegations.

(** ** migrate_staking.go *)
Definition migrateActiveDelegations (ctx : MigCtx) (legacyAddr newAddr : bytes) : M mig_store unit :=
  ds ← gets (λ s, GetDelegatorDelegations legacyAddr maxRetrieve (mg_staking s));
  delegations ← of_result ds;
  for_each (λ del,
    valAddr ← of_option (ErrOther "invalid address") (ValAddressFromBech32 (del_ValidatorAddress del));
    _ ← on_distr (DeleteDelegatorStartingInfo valAddr legacyAddr);
    _ ← on_staking (RemoveDelegation del);
    let newDel := mkDelegation (AccAddress_String newAddr) (del_ValidatorAddress del) (del_Shares del) in
    _ ← on_staking (SetDelegation newDel);
    cr ← gets (λ s, GetValidatorCurrentRewards (mg_distr s) valAddr);
    currentRewards ← of_result cr;
    let previousPeriod := u64 (cr_Period currentRewards - 1) in
    v ← gets (λ s, st_GetValidator (mg_staking s) valAddr);
    val ← of_result v;
    let startingInfo := {| si_Height := u64 (mc_BlockHeight ctx); si_PreviousPeriod := previousPeriod;
                           si_Stake := TokensFromSharesTruncated val (del_Shares del) |} in
    _ ← incrementHistoricalRewardsReferenceCount valAddr previousPeriod;
    on_distr (SetDelegatorStartingInfo valAddr newAddr startingInfo)) delegations.
Definition migrateUnbondingDelegations (legacyAddr newAddr : bytes) : M mig_store unit :=
  us ← gets (λ s, GetUnbondingDelegations legacyAddr maxRetrieve (mg_staking s));
  unbondings ← of_result us;
  for_each (λ ubd,
    _ ← on_staking (RemoveUnbondingDelegation ubd);
    let newUbd := mkUBD (AccAddress_String newAddr) (ubd_ValidatorAddress ubd) (ubd_Entries ubd) in
    _ ← on_staking (SetUnbondingDelegation newUbd);
    for_each (λ entry,
      _ ← on_staking (InsertUBDQueue newUbd (ubd_CompletionTime entry));
      if 0 <? ubd_UnbondingId entry
      then on_staking (SetUnbondingDelegationByUnbondingID newUbd (ubd_UnbondingId entry))
      else mret tt) (ubd_Entries newUbd)) unbondings.
Definition migrateRedelegations (legacyAddr newAddr : bytes) : M mig_store unit :=
  rs ← gets (λ s, GetRedelegations legacyAddr maxRetrieve (mg_staking s));
  redelegations ← of_result rs;
  for_each (λ red,
    _ ← on_staking (RemoveRedelegation red);
    let newRed := mkRED (AccAddress_String newAddr) (red_ValidatorSrcAddress red) (red_ValidatorDstAddress red)
                    (red_Entries red) in
    _ ← on_staking (SetRedelegation newRed);
    for_each (λ entry,
      _ ← on_staking (InsertRedelegationQueue newRed (red_CompletionTime entry));
      if 0 <? red_UnbondingId entry
      then on_staking (SetRedelegationByUnbondingID newRed (red_UnbondingId entry))
      else mret tt) (red_Entries newRed)) redelegations.
(** A third-party withdraw address that was migrated is followed to its new address. *)
Definition migrateWithdrawAddress (legacyAddr newAddr : bytes) (origWithdrawAddr : option bytes) : M mig_store unit :=
  match origWithdrawAddr with
  | None => on_distr (SetDelegatorWithdrawAddr newAddr newAddr)
  | Some orig =>
      if bool_decide (orig = legacyAddr) then on_distr (SetDelegatorWithdrawAddr newAddr newAddr) else
      record ← gets (λ s, mg_records s !! AccAddress_String orig);
      let resolvedAddr :=
        match record with
        | Some r => if decide (mr_NewAddress r = "") then orig else default orig (AccAddressFromBech32 (mr_NewAddress r))
        | None => orig
        end in
      on_distr (SetDelegatorWithdrawAddr newAddr resolvedAddr)
  end.
Definition MigrateStaking (ctx : MigCtx) (legacyAddr newAddr : bytes) (origWithdrawAddr : option bytes) : M mig_store unit :=
  _ ← migrateActiveDelegations ctx legacyAddr newAddr;
  _ ← migrateUnbondingDelegations legacyAddr newAddr;
  _ ← migrateRedelegations legacyAddr newAddr;
  migrateWithdrawAddress legacyAddr newAddr origWithdrawAddr.

(** ** migrate_bank.go, migrate_authz.go, migrate_feegrant.go *)
Definition MigrateBank (legacyAddr newAddr : bytes) : M mig_store unit :=
  balances ← gets (λ s, GetAllBalances (act_bank (mg_act s)) legacyAddr);
  if Coins_IsZero balances then mret tt else on_bank_auth (SendCoins legacyAddr newAddr balances).
Definition renamed (legacyAddr newAddr a : bytes) : bytes := if bool_decide (a = legacyAddr) then newAddr else a.
Definition MigrateAuthz (ctx : MigCtx) (legacyAddr newAddr : bytes) : M mig_store unit :=
  grants ← gets (λ s, IterateGrants (mg_authz s));
  let toMigrate := List.filter (λ g, bool_decide (g.1.1 = legacyAddr) || bool_decide (g.1.2 = legacyAddr)) grants in
  for_each (λ g,
    auth ← of_result (GetAuthorization g.2);
    _ ← on_authz (DeleteGrant g.1.2 g.1.1 (MsgTypeURL auth));
    on_authz (SaveGrant (mc_BlockTime ctx) (renamed legacyAddr newAddr g.1.2) (renamed legacyAddr newAddr g.1.1)
                auth (Grant_Expiration g.2))) toMigrate.
Definition allowance_addresses (g : FeeGrant) : option (bytes * bytes) :=
  granter ← AccAddressFromBech32 (fg_Granter g); grantee ← AccAddressFromBech32 (fg_Grantee g); Some (granter, grantee).
Definition MigrateFeegrant (ctx : MigCtx) (legacyAddr newAddr : bytes) : M mig_store unit :=
  gs ← gets (λ s, IterateAllFeeAllowances (mg_feegrant s));
  grants ← of_result gs;
  let toMigrate := omap (λ g,
    p ← allowance_addresses g;
    if bool_decide (p.1 = legacyAddr) || bool_decide (p.2 = legacyAddr) then Some (p, g) else None) grants in
  for_each (λ a : bytes * bytes * FeeGrant,
    allowance ← of_result (GetGrant a.2);
    _ ← on_feegrant_auth (GrantAllowance (mc_BlockTime ctx) (renamed legacyAddr newAddr a.1.1)
                            (renamed legacyAddr newAddr a.1.2) allowance);
    on_feegrant (RevokeAllowance a.1.1 a.1.2)) toMigrate.

(** ** migrate_supernode.go, migrate_action.go *)
Definition MigrateSupernode (ctx : MigCtx) (legacyAddr newAddr : bytes) : M mig_store unit :=
  zoom (λ s, act_sn (mg_act s)) put_sn_store
    (migrate_supernode_account (mc_BlockHeight ctx) (AccAddress_String legacyAddr) (AccAddress_String newAddr)).
(** The first action of each id, in order *)
Fixpoint dedupe_actions (seen : list string) (l : list Action) : list Action :=
  match l with
  | [] => []
  | a :: l' => if bool_decide (a_ActionID a ∈ seen) then dedupe_actions seen l'
               else a :: dedupe_actions (a_ActionID a :: seen) l'
  end.
Definition rename_action (legacy new : string) (a : Action) : Action :=
  mkAction (renamed_text legacy new (a_Creator a)) (a_ActionID a) (a_ActionType a) (a_Metadata a) (a_Price a)
    (a_ExpirationTime a) (a_State a) (a_BlockHeight a) (renamed_text legacy new <$> a_SuperNodes a)
    (a_FileSizeKbs a) (a_AppPubkey a).
Definition MigrateActions (legacyAddr newAddr : bytes) : M mig_store unit :=
  let legacyStr := AccAddress_String legacyAddr in
  let newStr := AccAddress_String newAddr in
  byCreator ← gets (λ s, GetActionsByCreator legacyStr (mg_act s));
  bySuperNode ← gets (λ s, GetActionsBySuperNode legacyStr (mg_act s));
  for_each (λ action, zoom mg_act put_act (SetAction (rename_action legacyStr newStr action)))
    (dedupe_actions [] (byCreator ++ bySuperNode)).

(** ** migrate_auth.go *)
Record VestingInfo := {
  vi_Type : VestingType;
  vi_OriginalVesting : list Coin;
  vi_DelegatedFree : list Coin;
  vi_DelegatedVesting : list Coin;
  vi_EndTime : Z;
  vi_StartTime : Z;
  vi_Periods : list Period
}.
Definition vesting_info (acc : Acc) : option VestingInfo :=
  let info ty (v : BaseVesting) start periods := Some
    {| vi_Type := ty; vi_OriginalVesting := bv_OriginalVesting v; vi_DelegatedFree := bv_DelegatedFree v;
       vi_DelegatedVesting := bv_DelegatedVesting v; vi_EndTime := bv_EndTime v; vi_StartTime := start;
       vi_Periods := periods |} in
  match acc with
  | AContinuous v start => info VestingTypeContinuous v start []
  | ADelayed v => info VestingTypeDelayed v 0 []
  | APeriodic v start periods => info VestingTypePeriodic v start periods
  | APermanentLocked v => info VestingTypePermanentLocked v 0 []
  | _ => None
  end.
Definition is_module (acc : Acc) : bool := match acc with AModule _ => true | _ => false end.

(** The destination is fresh or a plain base account. *)
Definition check_destination (existing : option Acc) : result unit :=
  match existing with
  | None => Ok tt
  | Some (ABase _) => Ok tt
  | Some (AModule _) => Err (ErrOther "cannot migrate a module account")
  | Some _ => Err (ErrOther "invalid migration destination account type")
  end.
(** The threshold key to set on the destination, if it has none yet *)
Definition destination_key (existing : option Acc) (newAddr : bytes) (destProof : MigrationProof)
    : result (option (Z * list bytes)) :=
  match destProof with
  | MigrationProof_Multisig (Some ms) =>
      match multisig_Address SubKeyTypeEthSecp256k1 (mp_Threshold ms) (mp_SubPubKeys ms) with
      | Err e => Err e
      | Ok derived =>
          if negb (bool_decide (derived = newAddr)) then Err ErrPubKeyAddressMismatch else
          match existing ≫= acc_PubKey with
          | Some pk => if bool_decide (pk = multisig_Bytes (mp_Threshold ms) (mp_SubPubKeys ms)) then Ok None
                       else Err ErrPubKeyAddressMismatch
          | None => Ok (Some (mp_Threshold ms, mp_SubPubKeys ms))
          end
      end
  | _ => Ok None
  end.
Definition MigrateAuth (legacyAddr newAddr : bytes) (destProof : MigrationProof) : M mig_store (option VestingInfo) :=
  _ ← of_result (proof_ValidateBasic SideNew destProof);
  existingNewAcc ← gets (λ s, auth_GetAccount (mg_auth s) newAddr);
  _ ← of_result (check_destination existingNewAcc);
  destMultiPK ← of_result (destination_key existingNewAcc newAddr destProof);
  acc ← gets (λ s, auth_GetAccount (mg_auth s) legacyAddr);
  legacyAcc ← of_option (ErrOther "legacy account not found in x/auth") acc;
  _ ← ensure (negb (is_module legacyAcc)) (ErrOther "cannot migrate a module account");
  _ ← modify (λ s, put_auth (auth_RemoveAccount legacyAcc (mg_auth s)) s);
  newAcc ← match existingNewAcc with
           | Some a => mret a
           | None => lift mg_auth put_auth
                       (λ a, let '(acc, a') := auth_NewAccountWithAddress newAddr a in (Ok acc, a'))
           end;
  newAcc ← of_result (match destMultiPK with
                      | Some (threshold, keys) => acc_SetPubKey threshold keys newAcc
                      | None => Ok newAcc
                      end);
  _ ← modify (λ s, put_auth (auth_SetAccount newAcc (mg_auth s)) s);
  mret (vesting_info legacyAcc).

Definition with_delegated (vi : VestingInfo) (v : BaseVesting) : BaseVesting :=
  {| bv_Base := bv_Base v; bv_OriginalVesting := bv_OriginalVesting v; bv_DelegatedFree := vi_DelegatedFree vi;
     bv_DelegatedVesting := vi_DelegatedVesting vi; bv_EndTime := bv_EndTime v |}.
Definition vesting_account (baseAcc : BaseAcc) (vi : VestingInfo) : result Acc :=
  let bva (k : BaseVesting → Acc) :=
    match vest_NewBase baseAcc (vi_OriginalVesting vi) (vi_EndTime vi) with
    | Err e => Err e
    | Ok v => Ok (k (with_delegated vi v))
    end in
  match vi_Type vi with
  | VestingTypeContinuous => bva (λ v, AContinuous v (vi_StartTime vi))
  | VestingTypeDelayed => bva ADelayed
  | VestingTypePeriodic => bva (λ v, APeriodic v (vi_StartTime vi) (vi_Periods vi))
  | VestingTypePermanentLocked =>
      match vest_NewPermanentLocked baseAcc (vi_OriginalVesting vi) with
      | Err e => Err e
      | Ok v => Ok (APermanentLocked (with_delegated vi v))
      end
  end.
Definition FinalizeVestingAccount (newAddr : bytes) (vi : VestingInfo) : M mig_store unit :=
  acc ← gets (λ s, auth_GetAccount (mg_auth s) newAddr);
  newAcc ← of_option (ErrOther "new account not found after bank transfer") acc;
  let baseAcc := match newAcc with ABase b => b | _ => base_part newAddr newAcc end in
  vestingAcc ← of_result (vesting_account baseAcc vi);
  modify (λ s, put_auth (auth_SetAccount vestingAcc (mg_auth s)) s).

(** ** msg_server_claim_legacy.go *)
Definition check_window (ctx : MigCtx) (params : MParams) : M mig_store unit :=
  _ ← ensure (EnableMigration params) (ErrOther "migration is disabled");
  ensure (negb ((0 <? MigrationEndTime params) && After (mc_BlockTime ctx) (time_Unix (MigrationEndTime params) 0)))
    (ErrOther "migration window has closed").
(** The checks on the two addresses, of preChecks and of verifyMigrationAdmissionState *)
Definition check_addresses (legacyAddr newAddr : bytes) : M mig_store unit :=
  _ ← ensure (negb (bool_decide (legacyAddr = newAddr))) ErrSameAddress;
  migrated ← gets mg_records;
  used ← gets mg_by_new;
  _ ← ensure (bool_decide (migrated !! AccAddress_String legacyAddr = None)) (ErrOther "legacy address has already been migrated");
  _ ← ensure (bool_decide (migrated !! AccAddress_String newAddr = None)) (ErrOther "new address is a previously-migrated legacy address");
  _ ← ensure (bool_decide (used !! AccAddress_String newAddr = None)) (ErrOther "new address was already used as a migration destination");
  acc ← gets (λ s, auth_GetAccount (mg_auth s) legacyAddr);
  legacyAcc ← of_option (ErrOther "legacy account not found in x/auth") acc;
  ensure (negb (is_module legacyAcc)) (ErrOther "cannot migrate a module account").
Definition preChecks (ctx : MigCtx) (legacyAddr newAddr : bytes) : M mig_store unit :=
  params ← Params_Get;
  _ ← check_window ctx params;
  blockCount ← gets (λ s, default 0 (mg_block s !! mc_BlockHeight ctx));
  _ ← ensure (negb (MaxMigrationsPerBlock params <=? blockCount)) (ErrOther "block migration rate limit exceeded");
  check_addresses legacyAddr newAddr.

Definition migrateAccount (ctx : MigCtx) (legacyAddr newAddr : bytes) (destProof : MigrationProof) : M mig_store unit :=
  w ← gets (λ s, GetDelegatorWithdrawAddr (mg_distr s) legacyAddr);
  let origWithdrawAddr := match w with Ok a => Some a | Err _ => None end in
  _ ← MigrateDistribution legacyAddr;
  _ ← MigrateStaking ctx legacyAddr newAddr origWithdrawAddr;
  vestingInfo ← MigrateAuth legacyAddr newAddr destProof;
  _ ← MigrateBank legacyAddr newAddr;
  _ ← match vestingInfo with Some vi => FinalizeVestingAccount newAddr vi | None => mret tt end;
  _ ← MigrateAuthz ctx legacyAddr newAddr;
  _ ← MigrateFeegrant ctx legacyAddr newAddr;
  _ ← MigrateSupernode ctx legacyAddr newAddr;
  MigrateActions legacyAddr newAddr.

Definition finalizeMigration (ctx : MigCtx) (legacyAddr newAddr : bytes) (isValidator : bool) : M mig_store unit :=
  let legacyStr := AccAddress_String legacyAddr in
  let newStr := AccAddress_String newAddr in
  let record := mkMigrationRecord legacyStr newStr (t_sec (mc_BlockTime ctx)) (mc_BlockHeight ctx) in
  _ ← modify (λ s, put_migrated (<[legacyStr := record]> (mg_records s)) (<[newStr := legacyStr]> (mg_by_new s)) s);
  _ ← modify (λ s, put_counters (Some (u64 (default 0 (mg_count s) + 1)))
                     (if isValidator then Some (u64 (default 0 (mg_val_count s) + 1)) else mg_val_count s)
                     (<[mc_BlockHeight ctx := u64 (default 0 (mg_block s !! mc_BlockHeight ctx) + 1)]> (mg_block s)) s);
  emit (Event (if isValidator then "migrate_validator" else "claim_legacy_account")
          [("legacy_address", legacyStr); ("new_address", newStr);
           ("migration_time", FormatInt (t_sec (mc_BlockTime ctx))); ("block_height", FormatInt (mc_BlockHeight ctx))]%string).

(** The checks of the two proofs, of the message and of the ante handler *)
Definition check_proofs (ctx : MigCtx) (kind : string) (params : MParams) (legacyAddr newAddr : bytes)
    (legacyProof newProof : MigrationProof) : M mig_store unit :=
  _ ← of_result (proof_ValidateParams legacyProof (MaxMultisigSubKeys params));
  _ ← of_result (proof_ValidateParams newProof (MaxMultisigSubKeys params));
  _ ← of_result (ValidateProofPair legacyProof newProof);
  _ ← of_result (VerifyMigrationProof (mc_ChainID ctx) EVMChainID kind legacyAddr newAddr legacyAddr legacyProof
                   SubKeyTypeCosmosSecp256k1);
  of_result (VerifyMigrationProof (mc_ChainID ctx) EVMChainID kind legacyAddr newAddr newAddr newProof
               SubKeyTypeEthSecp256k1).

Definition ClaimLegacyAccount (ctx : MigCtx) (msg : MsgClaimLegacyAccount) : M mig_store unit :=
  legacyAddr ← of_option ErrInvalidAddress (AccAddressFromBech32 (cl_LegacyAddress msg));
  newAddr ← of_option ErrInvalidAddress (AccAddressFromBech32 (cl_NewAddress msg));
  _ ← preChecks ctx legacyAddr newAddr;
  v ← gets (λ s, st_GetValidator (mg_staking s) legacyAddr);
  _ ← match v with
      | Ok _ => fail (ErrOther "legacy address is a validator operator; use MsgMigrateValidator instead")
      | Err e => ensure (bool_decide (e = ErrNoValidatorFound)) e
      end;
  params ← Params_Get;
  _ ← check_proofs ctx migrationPayloadKindClaim params legacyAddr newAddr (cl_LegacyProof msg) (cl_NewProof msg);
  _ ← migrateAccount ctx legacyAddr newAddr (cl_NewProof msg);
  finalizeMigration ctx legacyAddr newAddr false.

(** ** msg_update_params.go, genesis.go *)
Definition mig_UpdateParams (authority : bytes) (reqAuthority : string) (params : MParams) : M mig_store unit :=
  a ← of_option (ErrOther "invalid authority address") (AccAddressFromBech32 reqAuthority);
  _ ← ensure (bool_decide (authority = a)) ErrInvalidSigner;
  _ ← of_result (MParams_Validate params);
  modify (put_mparams params).
Record MigGenesis := {
  gm_Params : MParams; gm_MigrationRecords : list MigrationRecord; gm_TotalMigrated : Z;
  gm_TotalValidatorsMigrated : Z
}.
Definition mig_InitGenesis (genState : MigGenesis) : M mig_store unit :=
  _ ← modify (put_mparams (gm_Params genState));
  _ ← for_each (λ record, modify (λ s,
        put_migrated (<[mr_LegacyAddress record := record]> (mg_records s))
          (<[mr_NewAddress record := mr_LegacyAddress record]> (mg_by_new s)) s)) (gm_MigrationRecords genState);
  modify (λ s, put_counters (Some (gm_TotalMigrated genState)) (Some (gm_TotalValidatorsMigrated genState)) (mg_block s) s).
Definition mig_ExportGenesis (s : mig_store) : result MigGenesis :=
  match mg_params s, mg_count s, mg_val_count s with
  | Some p, Some n, Some v =>
      Ok {| gm_Params := p; gm_MigrationRecords := (kv_iter string_bytes (mg_records s)).*2; gm_TotalMigrated := n;
            gm_TotalValidatorsMigrated := v |}
  | _, _, _ => Err (ErrOther "collections: not found")
  end.
End Migrate.
