(* ===== verification/EvValidator.v ===== *)
(** * x/evmigration: the migration of a validator

    keeper/msg_server_migrate_validator.go with migrate_validator.go,
    migrate_validator_scoped.go, migrate_validator_finalize.go and the parts of
    migrate_distribution.go that only it uses; the admission check of keeper/ante.go for
    both messages.  The store handles of x/staking and x/distribution are wired, as
    app.go does (their absence is for tests). *)
From Stdlib Require Import ZArith Lia.
From stdpp Require Import base numbers strings list gmap.
From S2P Require Import Prelude Sdk Bank GoTime SupernodeTypes Supernode ActionTypes ActionStore Reward.
From S2P Require Import RegistryClients EvProof EvKeepers EvMigrate.
Open Scope Z_scope.

(** ** What it uses of the other modules *)
Class DecFractions `{LegacyDecOps} := {
  dec_Sub : Dec → Dec → Dec;
  dec_LT : Dec → Dec → bool;
  dec_LTE : Dec → Dec → bool;
  dec_MulTruncate : Dec → Dec → Dec;
  dec_QuoTruncate : Dec → Dec → Dec;
  (** LegacySmallestDec().MulInt64(n) *)
  dec_Smallest : Z → Dec
}.
Inductive BondStatus := Unspecified | Unbonded | Unbonding | Bonded.
#[export] Instance BondStatus_eq_dec : EqDecision BondStatus.
Proof. solve_decision. Defined.

Class ValidatorStore `{StakingStore} := {
  v_Jailed : SValidator → bool;
  v_Status : SValidator → BondStatus;
  (** nil in a validator that was never initialised *)
  v_DelegatorShares : SValidator → option Dec;
  v_TokensFromShares : SValidator → Dec → Dec;
  v_SetOperatorAddress : string → SValidator → SValidator;
  GetValidatorDelegations : bytes → staking → result (list Delegation);
  GetUnbondingDelegationsFromValidator : bytes → staking → result (list UnbondingDelegation);
  (** the keys of the records that the two indices of a validator name, in store order *)
  REDsFromValSrc : bytes → staking → list bytes;
  REDsToValDst : bytes → staking → list bytes;
  (** the row of a redelegation; an error when it does not decode *)
  RED_row : bytes → staking → result (option Redelegation);
  SetValidator : SValidator → staking → result unit * staking;
  DeleteValidatorByPowerIndex : SValidator → staking → result unit * staking;
  SetValidatorByPowerIndex : SValidator → staking → result unit * staking;
  SetValidatorByConsAddr : SValidator → staking → result unit * staking;
  GetLastValidatorPower : bytes → staking → result Z;
  DeleteLastValidatorPower : bytes → staking → result unit * staking;
  SetLastValidatorPower : bytes → Z → staking → result unit * staking;
  (** store.Delete of GetValidatorKey *)
  DeleteValidatorRow : bytes → staking → result unit * staking
}.

Class ValidatorDistribution `{Distribution} := {
  Commission : Type;
  Outstanding : Type;
  SlashEvent : Type;
  se_ValidatorPeriod : SlashEvent → Z;
  se_Fraction : SlashEvent → Dec;
  ErrNoValidatorCommission : error;
  WithdrawValidatorCommission : bytes → distr * (bank * auth) → result unit * (distr * (bank * auth));
  DeleteValidatorCurrentRewards : bytes → distr → result unit * distr;
  SetValidatorCurrentRewards : bytes → CurrentRewards → distr → result unit * distr;
  GetValidatorAccumulatedCommission : bytes → distr → result Commission;
  DeleteValidatorAccumulatedCommission : bytes → distr → result unit * distr;
  SetValidatorAccumulatedCommission : bytes → Commission → distr → result unit * distr;
  GetValidatorOutstandingRewards : bytes → distr → result Outstanding;
  DeleteValidatorOutstandingRewards : bytes → distr → result unit * distr;
  SetValidatorOutstandingRewards : bytes → Outstanding → distr → result unit * distr;
  (** the rows under the prefix of a validator, in store order *)
  HistoricalRewards_rows : bytes → distr → result (list (Z * HistoricalRewards));
  DeleteValidatorHistoricalRewards : bytes → distr → distr;
  SlashEvent_rows : bytes → distr → result (list (Z * SlashEvent));
  DeleteValidatorSlashEvents : bytes → distr → distr;
  SetValidatorSlashEvent : bytes → Z → Z → SlashEvent → distr → result unit * distr
}.

Record MsgMigrateValidator := {
  mv_NewAddress : string; mv_LegacyAddress : string; mv_LegacyProof : MigrationProof; mv_NewProof : MigrationProof
}.

Section Validator.
Context `{MigrationKeys} `{AccAddressText} `{SdkAddress}.
Context `{Hd : LegacyDecOps} `{!DecFractions} `{Hb : BankKeeper} `{!AuditKeeper} `{!PayoutBank}.
Context `{Hat : AccTypes} `{!AccOps} `{!Auth} `{!CoinSender}.
Context `{Hst : !StakingTypes} `{!StakingStore} `{!ValidatorStore}.
Context `{!Distribution} `{!ValidatorDistribution} `{Hz : Authz} `{!Feegrant}.

(** ** migrate_validator_scoped.go: the redelegations of a validator, in store order *)
Fixpoint collectRedelegationsByIndex (keys : list bytes) (st : staking) (out : gmap bytes Redelegation)
    : result (gmap bytes Redelegation) :=
  match keys with
  | [] => Ok out
  | redKey :: keys' =>
      match RED_row redKey st with
      | Err e => Err e
      | Ok None => Err (ErrOther "redelegation index points to missing record")
      | Ok (Some red) => collectRedelegationsByIndex keys' st (<[redKey := red]> out)
      end
  end.
Definition redelegationsForValidator (valAddr : bytes) (st : staking) : result (list Redelegation) :=
  match collectRedelegationsByIndex (REDsFromValSrc valAddr st) st ∅ with
  | Err e => Err e
  | Ok seen =>
      match collectRedelegationsByIndex (REDsToValDst valAddr st) st seen with
      | Err e => Err e
      | Ok seen => Ok (kv_iter id seen).*2
      end
  end.

Definition validatorHistoricalRewards (valAddr : bytes) (s : mig_store) : result (list (Z * HistoricalRewards)) :=
  HistoricalRewards_rows valAddr (mg_distr s).
Definition validatorSlashEvents (valAddr : bytes) (s : mig_store) : result (list (Z * SlashEvent)) :=
  SlashEvent_rows valAddr (mg_distr s).

(** ** migrate_distribution.go *)
(** The address to restore, if the withdraw address was redirected *)
Definition temporaryRedirectWithdrawAddr (addr : bytes) : M mig_store (option bytes) :=
  withdrawAddr ← gets (λ s, GetDelegatorWithdrawAddr (mg_distr s) addr);
  match withdrawAddr with
  | Err _ => mret None
  | Ok w =>
      if bool_decide (w = addr) then mret None else
      has ← gets (λ s, bool_decide (is_Some (mg_records s !! AccAddress_String w)));
      if negb has then mret None else
      _ ← on_distr (SetDelegatorWithdrawAddr addr addr);
      mret (Some w)
  end.
(** The stake after the slashes that are replayed over it *)
Definition replay_slashes (height : Z) (info : StartingInfo) (slashEvents : list (Z * SlashEvent)) : Dec :=
  foldl (λ finalStake e,
    if (e.1 <? si_Height info) || (u64 height <? e.1) then finalStake else
    if se_ValidatorPeriod e.2 <=? si_PreviousPeriod info then finalStake else
    dec_MulTruncate finalStake (dec_Sub (dec_FromInt 1) (se_Fraction e.2))) (si_Stake info) slashEvents.
Definition repairLegacyRawShareStartingInfo (ctx : MigCtx) (val : SValidator) (del : Delegation) (delAddr : bytes)
    : M mig_store unit :=
  if negb (match v_DelegatorShares val with
           | None => false
           | Some sh => negb (dec_IsZero sh) && negb (dec_IsNegative sh)
           end) then mret tt else
  let currentStake := v_TokensFromShares val (del_Shares del) in
  if negb (dec_LT currentStake (del_Shares del)) then mret tt else
  valAddr ← of_option (ErrOther "invalid address") (ValAddressFromBech32 (del_ValidatorAddress del));
  si ← gets (λ s, GetDelegatorStartingInfo (mg_distr s) valAddr delAddr);
  startingInfo ← of_result si;
  if negb (dec_Equal (si_Stake startingInfo) (del_Shares del)) then mret tt else
  se ← gets (validatorSlashEvents valAddr);
  slashEvents ← of_result se;
  let finalStake := replay_slashes (mc_BlockHeight ctx) startingInfo slashEvents in
  let marginOfErr := dec_Smallest 3 in
  if dec_LTE finalStake (dec_Add currentStake marginOfErr) then mret tt else
  let repairedStake := dec_MulTruncate (si_Stake startingInfo) (dec_QuoTruncate currentStake finalStake) in
  on_distr (SetDelegatorStartingInfo valAddr delAddr
    {| si_Height := si_Height startingInfo; si_PreviousPeriod := si_PreviousPeriod startingInfo;
       si_Stake := repairedStake |}).
Definition setHistoricalRewardsReferenceCount (valAddr : bytes) (period count : Z) : M mig_store unit :=
  row ← gets (λ s, distr_HistoricalReward (mg_distr s) valAddr period);
  found ← of_result row;
  historical ← of_option (ErrOther "validator historical rewards not found") found;
  on_distr (SetValidatorHistoricalRewards valAddr period (set_ReferenceCount count historical)).

(** ** migrate_validator.go *)
Definition MigrateValidatorRecord (oldValAddr newValAddr : bytes) : M mig_store unit :=
  v ← gets (λ s, st_GetValidator (mg_staking s) oldValAddr);
  val ← of_result v;
  _ ← on_staking (DeleteValidatorByPowerIndex val);
  let val := v_SetOperatorAddress (ValAddress_String newValAddr) val in
  _ ← on_staking (SetValidator val);
  _ ← on_staking (SetValidatorByPowerIndex val);
  p ← gets (λ s, GetLastValidatorPower oldValAddr (mg_staking s));
  _ ← match p with
      | Ok power =>
          if 0 <? power then
            _ ← on_staking (DeleteLastValidatorPower oldValAddr);
            on_staking (SetLastValidatorPower newValAddr power)
          else mret tt
      | Err _ => mret tt
      end;
  on_staking (SetValidatorByConsAddr val).

(** The period that the delegations will refer to and the validator; neither is read
    without delegations *)
Definition delegations_target (newValAddr : bytes) (delegations : list Delegation)
    : M mig_store (option (Z * SValidator)) :=
  if bool_decide (delegations = []) then mret None else
  cr ← gets (λ s, GetValidatorCurrentRewards (mg_distr s) newValAddr);
  currentRewards ← of_result cr;
  let targetPeriod := u64 (cr_Period currentRewards - 1) in
  _ ← setHistoricalRewardsReferenceCount newValAddr targetPeriod (u32 (1 + zlen delegations));
  v ← gets (λ s, st_GetValidator (mg_staking s) newValAddr);
  val ← of_result v;
  mret (Some (targetPeriod, val)).
Definition rekey_delegation (ctx : MigCtx) (oldValAddr newValAddr : bytes) (targetPeriod : Z) (val : SValidator)
    (del : Delegation) : M mig_store unit :=
  delAddr ← of_option ErrInvalidAddress (AccAddressFromBech32 (del_DelegatorAddress del));
  _ ← on_distr (DeleteDelegatorStartingInfo oldValAddr delAddr);
  _ ← on_staking (RemoveDelegation del);
  let newDel := mkDelegation (del_DelegatorAddress del) (ValAddress_String newValAddr) (del_Shares del) in
  _ ← on_staking (SetDelegation newDel);
  let startingInfo := {| si_Height := u64 (mc_BlockHeight ctx); si_PreviousPeriod := targetPeriod;
                         si_Stake := TokensFromSharesTruncated val (del_Shares del) |} in
  on_distr (SetDelegatorStartingInfo newValAddr delAddr startingInfo).
Definition rekey_unbonding (newValAddr : bytes) (ubd : UnbondingDelegation) : M mig_store unit :=
  _ ← on_staking (RemoveUnbondingDelegation ubd);
  let newUbd := mkUBD (ubd_DelegatorAddress ubd) (ValAddress_String newValAddr) (ubd_Entries ubd) in
  _ ← on_staking (SetUnbondingDelegation newUbd);
  for_each (λ entry,
    _ ← on_staking (InsertUBDQueue newUbd (ubd_CompletionTime entry));
    if 0 <? ubd_UnbondingId entry
    then on_staking (SetUnbondingDelegationByUnbondingID newUbd (ubd_UnbondingId entry))
    else mret tt) (ubd_Entries newUbd).
Definition rekey_redelegation (oldValAddr newValAddr : bytes) (red : Redelegation) : M mig_store unit :=
  _ ← on_staking (RemoveRedelegation red);
  let rename := renamed_text (ValAddress_String oldValAddr) (ValAddress_String newValAddr) in
  let newRed := mkRED (red_DelegatorAddress red) (rename (red_ValidatorSrcAddress red))
                  (rename (red_ValidatorDstAddress red)) (red_Entries red) in
  _ ← on_staking (SetRedelegation newRed);
  for_each (λ entry,
    _ ← on_staking (InsertRedelegationQueue newRed (red_CompletionTime entry));
    if 0 <? red_UnbondingId entry
    then on_staking (SetRedelegationByUnbondingID newRed (red_UnbondingId entry))
    else mret tt) (red_Entries newRed).
(** The redelegations of [redelegationsForValidator] are never a nil slice, so they are
    not read again. *)
Definition MigrateValidatorDelegations (ctx : MigCtx) (oldValAddr newValAddr : bytes) (delegations : list Delegation)
    (ubds : list UnbondingDelegation) (reds : list Redelegation) : M mig_store unit :=
  target ← delegations_target newValAddr delegations;
  _ ← match target with
      | Some (targetPeriod, val) => for_each (rekey_delegation ctx oldValAddr newValAddr targetPeriod val) delegations
      | None => mret tt
      end;
  _ ← for_each (rekey_unbonding newValAddr) ubds;
  for_each (rekey_redelegation oldValAddr newValAddr) reds.

(** A row that is there moves to the new validator. *)
Definition move_row {A} (read : bytes → distr → result A) (del : bytes → distr → result unit * distr)
    (set : bytes → A → distr → result unit * distr) (oldValAddr newValAddr : bytes) : M mig_store unit :=
  r ← gets (λ s, read oldValAddr (mg_distr s));
  match r with
  | Ok row =>
      _ ← on_distr (del oldValAddr);
      on_distr (set newValAddr row)
  | Err _ => mret tt
  end.
Definition MigrateValidatorDistribution (oldValAddr newValAddr : bytes) : M mig_store unit :=
  _ ← move_row (λ v d, GetValidatorCurrentRewards d v) DeleteValidatorCurrentRewards SetValidatorCurrentRewards
        oldValAddr newValAddr;
  _ ← move_row GetValidatorAccumulatedCommission DeleteValidatorAccumulatedCommission
        SetValidatorAccumulatedCommission oldValAddr newValAddr;
  _ ← move_row GetValidatorOutstandingRewards DeleteValidatorOutstandingRewards
        SetValidatorOutstandingRewards oldValAddr newValAddr;
  hr ← gets (validatorHistoricalRewards oldValAddr);
  historicalRewards ← of_result hr;
  _ ← modify (λ s, put_distr (DeleteValidatorHistoricalRewards oldValAddr (mg_distr s)) s);
  _ ← for_each (λ hr, on_distr (SetValidatorHistoricalRewards newValAddr hr.1 hr.2)) historicalRewards;
  se ← gets (validatorSlashEvents oldValAddr);
  slashEvents ← of_result se;
  _ ← modify (λ s, put_distr (DeleteValidatorSlashEvents oldValAddr (mg_distr s)) s);
  for_each (λ se, on_distr (SetValidatorSlashEvent newValAddr se.1 (se_ValidatorPeriod se.2) se.2)) slashEvents.

Definition MigrateValidatorSupernode (ctx : MigCtx) (oldValAddr newValAddr legacyAddr newAddr : bytes) : M mig_store unit :=
  zoom (λ s, act_sn (mg_act s)) put_sn_store
    (migrate_supernode_validator (mc_BlockHeight ctx) oldValAddr (ValAddress_String oldValAddr)
       (ValAddress_String newValAddr) (AccAddress_String legacyAddr) (AccAddress_String newAddr)).
Definition MigrateValidatorActions (legacyAddr newAddr : bytes) : M mig_store unit := MigrateActions legacyAddr newAddr.

(** ** migrate_validator_finalize.go *)
Definition DeleteValidatorRecordNoHooks (oldValAddr newValAddr : bytes) : M mig_store unit :=
  v ← gets (λ s, st_GetValidator (mg_staking s) newValAddr);
  _ ← of_result v;
  on_staking (DeleteValidatorRow oldValAddr).

(** ** msg_server_migrate_validator.go *)
(** The validator to migrate with the records that refer to it *)
Definition validator_checks (oldValAddr newValAddr : bytes)
    : M mig_store (SValidator * list Delegation * list UnbondingDelegation * list Redelegation) :=
  v ← gets (λ s, st_GetValidator (mg_staking s) oldValAddr);
  val ← match v with
        | Ok val => mret val
        | Err e => fail (if bool_decide (e = ErrNoValidatorFound) then ErrOther "not a validator operator" else e)
        end;
  _ ← ensure (negb (v_Jailed val)) (ErrOther "validator is unbonding or jailed");
  _ ← ensure (negb (bool_decide (v_Status val = Unbonding))) (ErrOther "validator is unbonding or jailed");
  w ← gets (λ s, st_GetValidator (mg_staking s) newValAddr);
  _ ← match w with
      | Ok _ => fail (ErrOther "new address is already a validator operator")
      | Err e => ensure (bool_decide (e = ErrNoValidatorFound)) e
      end;
  params ← Params_Get;
  ds ← gets (λ s, GetValidatorDelegations oldValAddr (mg_staking s));
  delegations ← of_result ds;
  us ← gets (λ s, GetUnbondingDelegationsFromValidator oldValAddr (mg_staking s));
  ubds ← of_result us;
  rs ← gets (λ s, redelegationsForValidator oldValAddr (mg_staking s));
  reds ← of_result rs;
  let totalRecords := zlen delegations + zlen ubds + zlen reds in
  _ ← ensure (negb (MaxValidatorDelegations params <? totalRecords)) (ErrOther "too many delegators");
  mret (val, delegations, ubds, reds).
(** Step V1 *)
Definition withdraw_all (ctx : MigCtx) (oldValAddr : bytes) (val : SValidator) (delegations : list Delegation)
    : M mig_store unit :=
  commission ← attempt (on_rewards (WithdrawValidatorCommission oldValAddr));
  _ ← match commission with
      | Ok _ => mret tt
      | Err e => ensure (bool_decide (e = ErrNoValidatorCommission)) e
      end;
  for_each (λ del,
    delAddr ← of_option ErrInvalidAddress (AccAddressFromBech32 (del_DelegatorAddress del));
    _ ← repairLegacyRawShareStartingInfo ctx val del delAddr;
    restored ← temporaryRedirectWithdrawAddr delAddr;
    st ← gets mg_staking;
    _ ← on_rewards (WithdrawDelegationRewards st delAddr oldValAddr);
    match restored with
    | Some origWD => on_distr (SetDelegatorWithdrawAddr delAddr origWD)
    | None => mret tt
    end) delegations.
(** Step V7: the account of the operator, without the supernode and the actions *)
Definition migrateOperatorAccount (ctx : MigCtx) (legacyAddr newAddr : bytes) (destProof : MigrationProof) : M mig_store unit :=
  w ← gets (λ s, GetDelegatorWithdrawAddr (mg_distr s) legacyAddr);
  let origWithdrawAddr := match w with Ok a => Some a | Err _ => None end in
  _ ← MigrateDistribution legacyAddr;
  _ ← MigrateStaking ctx legacyAddr newAddr origWithdrawAddr;
  vestingInfo ← MigrateAuth legacyAddr newAddr destProof;
  _ ← MigrateBank legacyAddr newAddr;
  _ ← match vestingInfo with Some vi => FinalizeVestingAccount newAddr vi | None => mret tt end;
  _ ← MigrateAuthz ctx legacyAddr newAddr;
  MigrateFeegrant ctx legacyAddr newAddr.
(** An address of a validator has the bytes of the account of its operator. *)
Definition migrate_validator_steps (ctx : MigCtx) (legacyAddr newAddr : bytes) (destProof : MigrationProof)
    (records : SValidator * list Delegation * list UnbondingDelegation * list Redelegation) : M mig_store unit :=
  let '(val, delegations, ubds, reds) := records in
  _ ← withdraw_all ctx legacyAddr val delegations;
  _ ← MigrateValidatorRecord legacyAddr newAddr;
  _ ← MigrateValidatorDistribution legacyAddr newAddr;
  _ ← MigrateValidatorDelegations ctx legacyAddr newAddr delegations ubds reds;
  _ ← MigrateValidatorSupernode ctx legacyAddr newAddr legacyAddr newAddr;
  _ ← MigrateValidatorActions legacyAddr newAddr;
  _ ← migrateOperatorAccount ctx legacyAddr newAddr destProof;
  DeleteValidatorRecordNoHooks legacyAddr newAddr.
Definition MsgMigrateValidator_ValidateBasic (msg : MsgMigrateValidator) : result unit :=
  match AccAddressFromBech32 (mv_NewAddress msg), AccAddressFromBech32 (mv_LegacyAddress msg) with
  | Some newAddr, Some legacyAddr => first_error [
      check (bool_decide (mv_NewAddress msg ≠ mv_LegacyAddress msg)) ErrSameAddress;
      proof_ValidateBasic SideLegacy (mv_LegacyProof msg);
      proof_ValidateBasic SideNew (mv_NewProof msg);
      ValidateAddressBinding SideLegacy legacyAddr (mv_LegacyProof msg);
      ValidateAddressBinding SideNew newAddr (mv_NewProof msg);
      ValidateProofPair (mv_LegacyProof msg) (mv_NewProof msg) ]
  | _, _ => Err ErrInvalidAddress
  end.
Definition MigrateValidator (ctx : MigCtx) (msg : MsgMigrateValidator) : M mig_store unit :=
  legacyAddr ← of_option ErrInvalidAddress (AccAddressFromBech32 (mv_LegacyAddress msg));
  newAddr ← of_option ErrInvalidAddress (AccAddressFromBech32 (mv_NewAddress msg));
  _ ← preChecks ctx legacyAddr newAddr;
  records ← validator_checks legacyAddr newAddr;
  params ← Params_Get;
  _ ← check_proofs ctx migrationPayloadKindValidator params legacyAddr newAddr (mv_LegacyProof msg) (mv_NewProof msg);
  _ ← migrate_validator_steps ctx legacyAddr newAddr (mv_NewProof msg) records;
  finalizeMigration ctx legacyAddr newAddr true.

(** ** ante.go: what a transaction must pass to enter the mempool *)
Inductive MigrationMsg :=
| MigrationMsg_Claim (m : MsgClaimLegacyAccount)
| MigrationMsg_Validator (m : MsgMigrateValidator).
Definition verifyMigrationAdmissionState (msg : MigrationMsg) (legacyAddr newAddr : bytes) : M mig_store unit :=
  _ ← check_addresses legacyAddr newAddr;
  match msg with
  | MigrationMsg_Claim _ => mret tt
  | MigrationMsg_Validator _ =>
      v ← gets (λ s, st_GetValidator (mg_staking s) legacyAddr);
      match v with
      | Ok _ => mret tt
      | Err e => fail (if bool_decide (e = ErrNoValidatorFound) then ErrOther "not a validator operator" else e)
      end
  end.
Definition msg_kind (msg : MigrationMsg) : string :=
  match msg with
  | MigrationMsg_Claim _ => migrationPayloadKindClaim
  | MigrationMsg_Validator _ => migrationPayloadKindValidator
  end.
Definition msg_legacyAddress (msg : MigrationMsg) : string :=
  match msg with MigrationMsg_Claim m => cl_LegacyAddress m | MigrationMsg_Validator m => mv_LegacyAddress m end.
Definition msg_newAddress (msg : MigrationMsg) : string :=
  match msg with MigrationMsg_Claim m => cl_NewAddress m | MigrationMsg_Validator m => mv_NewAddress m end.
Definition msg_legacyProof (msg : MigrationMsg) : MigrationProof :=
  match msg with MigrationMsg_Claim m => cl_LegacyProof m | MigrationMsg_Validator m => mv_LegacyProof m end.
Definition msg_newProof (msg : MigrationMsg) : MigrationProof :=
  match msg with MigrationMsg_Claim m => cl_NewProof m | MigrationMsg_Validator m => mv_NewProof m end.
Definition VerifyMigrationProofsForAnte (ctx : MigCtx) (msg : MigrationMsg) : M mig_store unit :=
  legacyAddr ← of_option ErrInvalidAddress (AccAddressFromBech32 (msg_legacyAddress msg));
  newAddr ← of_option ErrInvalidAddress (AccAddressFromBech32 (msg_newAddress msg));
  params ← Params_Get;
  _ ← check_window ctx params;
  _ ← verifyMigrationAdmissionState msg legacyAddr newAddr;
  check_proofs ctx (msg_kind msg) params legacyAddr newAddr (msg_legacyProof msg) (msg_newProof msg).

(** The message server *)
Definition handle_migration (ctx : MigCtx) (msg : MigrationMsg) : M mig_store unit :=
  match msg with
  | MigrationMsg_Claim m => ClaimLegacyAccount ctx m
  | MigrationMsg_Validator m => MigrateValidator ctx m
  end.
End Validator.
