(* ===== verification/EvThm.v ===== *)
(** * x/evmigration: who authorises a migration

    What a verified proof means: a signature, or a quorum of distinct keys, over a text
    that determines the kind of migration and both addresses. *)
From Stdlib Require Import ZArith Lia Ascii Sorted.
From stdpp Require Import base numbers strings list gmap.
From S2P Require Import Prelude Sdk GoHash Bank GoTime SupernodeTypes Supernode ActionTypes ActionStore Reward.
From S2P Require Import EvProof EvKeepers EvMigrate.
Open Scope Z_scope.

(** ** Texts without a colon *)
Fixpoint no_colon (s : string) : bool :=
  match s with
  | EmptyString => true
  | String c s' => negb (bool_decide (c = ":"%char)) && no_colon s'
  end.
Lemma colon_split x x' y y' :
  no_colon x = true → no_colon x' = true →
  (x +:+ String ":" y = x' +:+ String ":" y')%string → x = x' ∧ y = y'.
Proof.
  revert x'. induction x as [|c x IH]; intros [|c' x'] Hx Hx' E; cbn in *.
  - by injection E as ->.
  - injection E as <- _. by rewrite bool_decide_true in Hx'.
  - injection E as -> _. by rewrite bool_decide_true in Hx.
  - apply andb_true_iff in Hx as [_ Hx], Hx' as [_ Hx']. injection E as <- E.
    by destruct (IH _ Hx Hx' E) as [-> ->].
Qed.

(** ** Laws of the address text

    Bech32 text of a decoded address decodes to it, and has neither of the separators. *)
Class AccTextLaws `{AccAddressText} `{SdkAddress} : Prop := {
  acc_roundtrip s a : AccAddressFromBech32 s = Some a → AccAddressFromBech32 (AccAddress_String a) = Some a;
  acc_no_colon s a : AccAddressFromBech32 s = Some a → no_colon (AccAddress_String a) = true
}.

Section Proofs.
Context `{MigrationKeys} `{AccAddressText} `{SdkAddress}.

Definition is_address (a : bytes) : Prop := ∃ s, AccAddressFromBech32 s = Some a.

Lemma AccAddress_String_inj `{!AccTextLaws} a b :
  is_address a → is_address b → AccAddress_String a = AccAddress_String b → a = b.
Proof. intros [s Ha%acc_roundtrip] [t Hb%acc_roundtrip] E. rewrite E in Ha. congruence. Qed.

(** ** What is signed *)
Definition envelope (ty : SubKeyType) (signer payload : bytes) (format : SigFormat) : option bytes :=
  match ty, format with
  | SubKeyTypeCosmosSecp256k1, SIG_FORMAT_CLI => Some (Sha256.sum256 payload)
  | SubKeyTypeCosmosSecp256k1, SIG_FORMAT_ADR036 => Some (ADR036SignDoc (AccAddress_String signer) payload)
  | SubKeyTypeCosmosSecp256k1, _ => None
  | SubKeyTypeEthSecp256k1, _ => eth_message signer payload format
  end.
(** The key [pk] signed the text, in the envelope of the format, as [signer]. *)
Definition signed (ty : SubKeyType) (pk signer payload sig : bytes) (format : SigFormat) : Prop :=
  ∃ m, envelope ty signer payload format = Some m ∧
    key_VerifySignature ty pk m
      (match ty with SubKeyTypeCosmosSecp256k1 => sig | SubKeyTypeEthSecp256k1 => take 64 sig end) = true.

Lemma check_Ok b e : check b e = Ok tt → b = true.
Proof. by destruct b. Qed.
Lemma verify_signature_signed ty pk signer payload sig format :
  verify_signature ty pk signer payload sig format = Ok tt → signed ty pk signer payload sig format.
Proof.
  destruct ty; cbn.
  - unfold VerifyCosmosSecp256k1. destruct format; try done; intros Hc%check_Ok; by eexists.
  - unfold VerifyEthSecp256k1. destruct (negb _); [done|]. unfold signed. cbn.
    destruct (eth_message signer payload format) as [m|]; [|done]. intros Hc%check_Ok. by eexists.
Qed.

(** [addr] authorises [payload]: its key signed, or the threshold of distinct keys of it did. *)
Inductive authorised (ty : SubKeyType) (payload addr : bytes) : MigrationProof → Prop :=
| authorised_single p :
    key_Address ty (sp_PubKey p) = addr →
    signed ty (sp_PubKey p) addr payload (sp_Signature p) (sp_SigFormat p) →
    authorised ty payload addr (MigrationProof_Single (Some p))
| authorised_multisig m signers :
    LegacyAmino_Address ty (mp_Threshold m) (mp_SubPubKeys m) = addr →
    NoDup (mp_SubPubKeys m) → NoDup signers → signers ⊆ mp_SubPubKeys m →
    1 ≤ mp_Threshold m → mp_Threshold m = zlen signers →
    Forall (λ pk, ∃ sig, signed ty pk (key_Address ty pk) payload sig (mp_SigFormat m)) signers →
    authorised ty payload addr (MigrationProof_Multisig (Some m)).

(** The lengths and indices of a proof are those of a message on the wire. *)
Definition proof_sized (p : MigrationProof) : Prop :=
  match p with
  | MigrationProof_Multisig (Some m) =>
      zlen (mp_SignerIndices m) < 2 ^ 32 ∧ Forall (λ i, 0 ≤ i) (mp_SignerIndices m)
  | _ => True
  end.

(** ** Reading the checks *)
Lemma first_error_Ok l : first_error l = Ok tt → Forall (λ x, x = Ok tt) l.
Proof. induction l as [|[[]|e] l IH]; cbn; [constructor| |done]. intros Hl. constructor; auto. Qed.

Lemma ascending_NoDup l : ascending l = true → NoDup l.
Proof.
  intros Ha. cut (StronglySorted Z.lt l).
  { clear. induction 1 as [|x l _ IH Hx]; constructor; [|done].
    intros Hin. rewrite Forall_forall in Hx. specialize (Hx _ Hin). lia. }
  apply Sorted_StronglySorted; [intros x y z; lia|].
  revert Ha. induction l as [|x [|y l] IH]; intros Ha; [constructor|by repeat constructor|].
  cbn [ascending] in Ha. apply andb_true_iff in Ha as [Hxy%Z.ltb_lt Ha]. constructor; [by apply IH|by constructor].
Qed.
Lemma check_sub_keys_NoDup seen l :
  check_sub_keys seen l = Ok tt → NoDup l ∧ ∀ x, x ∈ l → x ∉ seen.
Proof.
  revert seen. induction l as [|raw l IH]; intros seen; cbn.
  { intros _. split; [constructor|]. intros x Hx. by apply not_elem_of_nil in Hx. }
  destruct (negb _); [done|]. case_bool_decide as Hin; [done|]. intros Hl.
  destruct (IH _ Hl) as [Hnd Hs]. split.
  - constructor; [|done]. intros Hx. apply (Hs _ Hx). by left.
  - intros x [->|Hx]%elem_of_cons; [done|]. intros Hxs. apply (Hs _ Hx). by right.
Qed.

(** The keys at increasing positions of a list without repetition are distinct. *)
Lemma keys_at_NoDup (keys : list bytes) (idx : list Z) signers :
  NoDup keys → NoDup idx → Forall (λ i, 0 ≤ i) idx →
  Forall2 (λ i pk, keys !! Z.to_nat i = Some pk) idx signers → NoDup signers.
Proof.
  intros Hk Hi Hpos Hf. induction Hf as [|i pk idx signers Hpk Hf IH]; [constructor|].
  apply NoDup_cons in Hi as [Hni Hi]. apply Forall_cons in Hpos as [Hp Hpos]. constructor; [|by apply IH].
  intros Hin. apply list_elem_of_lookup in Hin as [j Hj].
  destruct (Forall2_lookup_r _ _ _ _ _ Hf Hj) as (i' & Hi' & Hpk').
  pose proof (NoDup_lookup _ _ _ _ Hk Hpk Hpk') as E.
  apply Hni. assert (i' ∈ idx) as Hin' by (by apply list_elem_of_lookup; eexists).
  pose proof (proj1 (Forall_forall _ _) Hpos _ Hin'). cbn in *. assert (i = i') by lia. by subst.
Qed.

Lemma verify_sub_signed payload m ty i idx :
  verify_sub payload m ty i idx = Ok tt →
  ∃ pk, mp_SubPubKeys m !! Z.to_nat idx = Some pk ∧
    ∃ sig, signed ty pk (key_Address ty pk) payload sig (mp_SigFormat m).
Proof.
  unfold verify_sub. destruct (mp_SubPubKeys m !! Z.to_nat idx) as [pk|]; [|done].
  destruct (mp_SubSignatures m !! i) as [sig|]; [|done].
  destruct (verify_signature _ _ _ _ _ _) as [[]|] eqn:Hv; [|done]. intros _.
  exists pk. split; [done|]. exists sig. by apply verify_signature_signed.
Qed.
Lemma verify_subs_signed payload m ty :
  first_error (imap (verify_sub payload m ty) (mp_SignerIndices m)) = Ok tt →
  ∃ signers, Forall2 (λ i pk, mp_SubPubKeys m !! Z.to_nat i = Some pk) (mp_SignerIndices m) signers ∧
    Forall (λ pk, ∃ sig, signed ty pk (key_Address ty pk) payload sig (mp_SigFormat m)) signers.
Proof.
  intros Hf%first_error_Ok.
  assert (Forall (λ idx, ∃ pk, mp_SubPubKeys m !! Z.to_nat idx = Some pk ∧
            ∃ sig, signed ty pk (key_Address ty pk) payload sig (mp_SigFormat m)) (mp_SignerIndices m)) as Hall.
  { apply Forall_lookup. intros i idx Hi. rewrite Forall_lookup in Hf.
    apply (verify_sub_signed payload m ty i), (Hf i). by rewrite list_lookup_imap, Hi. }
  clear Hf. induction Hall as [|idx l (pk & Hpk & Hs) _ (signers & H1' & H2')]; [by exists []|].
  exists (pk :: signers). by repeat constructor.
Qed.

Lemma Forall2_keys_subseteq (keys : list bytes) (idx : list Z) signers :
  Forall2 (λ i pk, keys !! Z.to_nat i = Some pk) idx signers → signers ⊆ keys.
Proof.
  induction 1 as [|i pk idx signers Hpk _ IH]; [apply list_subseteq_nil|].
  intros x [->|Hx]%elem_of_cons; [|by apply IH]. apply list_elem_of_lookup. by eexists.
Qed.

Lemma multisig_authorised side ty payload addr m :
  multisig_validateBasic side (Some m) = Ok tt → proof_sized (MigrationProof_Multisig (Some m)) →
  verifyMultisigProofSide payload addr m ty = Ok tt →
  authorised ty payload addr (MigrationProof_Multisig (Some m)).
Proof.
  intros Hval [Hlen Hpos] Hver.
  apply first_error_Ok in Hval. rewrite !Forall_cons in Hval. destruct Hval as (_ & Hst & Hk & _ & _).
  apply check_sub_keys_NoDup in Hk as [Hk _].
  apply first_error_Ok in Hst. rewrite !Forall_cons in Hst. destruct Hst as (_ & Ht & Hn & _ & Ha & _).
  apply check_Ok, andb_true_iff in Ht as [Ht%Z.leb_le _]. apply check_Ok, Z.eqb_eq in Hn.
  apply check_Ok, ascending_NoDup in Ha.
  unfold verifyMultisigProofSide, multisig_Address in Hver.
  destruct (negb (forallb _ _)); [done|]. destruct (_ || _); [done|].
  destruct (bool_decide (LegacyAmino_Address ty (mp_Threshold m) (mp_SubPubKeys m) = addr)) eqn:Haddr;
    [|done]. apply bool_decide_eq_true in Haddr. cbn [negb] in Hver.
  destruct (verify_subs_signed _ _ _ Hver) as (signers & Hf & Hsig).
  apply (authorised_multisig _ _ _ m signers); try done.
  - by eapply keys_at_NoDup.
  - by eapply Forall2_keys_subseteq.
  - unfold zlen in *. rewrite <- (Forall2_length _ _ _ Hf), <- Hn. apply u32_small. unfold in_u32. lia.
Qed.

(** A proof that verifies authorises the payload for the address. *)
Lemma verified_authorised chainID evmChainID kind legacy new addr proof ty :
  proof_sized proof →
  VerifyMigrationProof chainID evmChainID kind legacy new addr proof ty = Ok tt →
  authorised ty (migrationPayload chainID evmChainID kind legacy new) addr proof.
Proof.
  intros Hsz. unfold VerifyMigrationProof.
  destruct (proof_ValidateBasic (side_of ty) proof) as [[]|] eqn:Hval; [|done].
  destruct proof as [|[p|]|[m|]]; try done.
  - unfold verifySingleKeyProofSide. destruct (negb (_ =? _)); [done|].
    case_bool_decide as Ha; [|done]. cbn [negb]. intros Hv%verify_signature_signed. by constructor.
  - intros Hv. by eapply multisig_authorised.
Qed.

(** The payload determines the kind and the two addresses. *)
Lemma migrationPayload_inj `{!AccTextLaws} chainID evmChainID kind kind' l n l' n' :
  no_colon kind = true → no_colon kind' = true →
  is_address l → is_address n → is_address l' → is_address n' →
  migrationPayload chainID evmChainID kind l n = migrationPayload chainID evmChainID kind' l' n' →
  kind = kind' ∧ l = l' ∧ n = n'.
Proof.
  intros Hk Hk' Hl Hn Hl' Hn' E. unfold migrationPayload in E. apply string_bytes_inj in E.
  apply (inj (String.append "lumera-evm-migration:")) in E.
  apply (inj (String.append chainID)) in E. apply (inj (String.append ":")) in E.
  apply (inj (String.append (FormatInt evmChainID))) in E. apply (inj (String.append ":")) in E.
  apply colon_split in E as [<- E]; [|done..].
  assert (∀ a, is_address a → no_colon (AccAddress_String a) = true) as Hc by (intros a [s Ha]; by eapply acc_no_colon).
  apply colon_split in E as [E1 E2]; [|by apply Hc..].
  split_and!; [done|by apply AccAddress_String_inj..].
Qed.
End Proofs.
