(* ===== verification/EvRun.v ===== *)
(** * x/evmigration: the run of a migration

    What the steps of a migration touch, who authorises it, and the records over
    sequences of migrations. *)
From Stdlib Require Import ZArith Lia.
From stdpp Require Import base numbers strings list gmap relations.
From S2P Require Import Prelude Sdk Bank GoTime SupernodeTypes Supernode ActionTypes ActionStore Reward.
From S2P Require Import EvProof EvKeepers EvMigrate EvValidator EvThm.
Open Scope Z_scope.

Lemma keeps_lift {S T A} (I : S → Prop) (get : S → T) put (op : T → result A * T) :
  (∀ s t, I s → I (put t s)) → keeps I (lift get put op).
Proof. intros HI s Hs. unfold lift. destruct (op _) as [r t]. by apply HI. Qed.
Lemma keeps_lift_op {S T A} (I : S → Prop) (J : T → Prop) (get : S → T) put (op : T → result A * T) :
  (∀ s, I s → J (get s)) → (∀ t, J t → J (op t).2) → (∀ s t, I s → J t → I (put t s)) →
  keeps I (lift get put op).
Proof.
  intros HJ Hop HI s Hs. unfold lift. specialize (Hop _ (HJ _ Hs)). destruct (op _) as [r t]. by apply HI.
Qed.

Section Steps.
Context `{MigrationKeys} `{AccAddressText} `{SdkAddress}.
Context `{Hd : LegacyDecOps} `{!DecFractions} `{Hb : BankKeeper} `{!AuditKeeper} `{!PayoutBank}.
Context `{Hat : AccTypes} `{!AccOps} `{!Auth} `{!CoinSender}.
Context `{Hst : !StakingTypes} `{!StakingStore} `{!ValidatorStore}.
Context `{!Distribution} `{!ValidatorDistribution} `{Hz : Authz} `{!Feegrant}.

(** ** Frames

    [framed I]: a property that does not look at some of the stores. *)
Section Frames.
Context (I : mig_store → Prop).
Definition frame_auth : Prop := ∀ s a, I s → I (put_auth a s).
Definition frame_staking : Prop := ∀ s x, I s → I (put_staking x s).
Definition frame_distr : Prop := ∀ s x, I s → I (put_distr x s).
Definition frame_authz : Prop := ∀ s x, I s → I (put_authz x s).
Definition frame_feegrant : Prop := ∀ s x, I s → I (put_feegrant x s).
Definition frame_bank : Prop := ∀ s x, I s → I (put_mbank x s).
Definition frame_sn : Prop := ∀ s x, I s → I (put_sn_store x s).
Definition frame_act : Prop := ∀ s x, I s → I (put_act x s).

Lemma keeps_on_staking {A} (op : staking → result A * staking) : frame_staking → keeps I (on_staking op).
Proof. intros HI. by apply keeps_lift. Qed.
Lemma keeps_on_distr {A} (op : distr → result A * distr) : frame_distr → keeps I (on_distr op).
Proof. intros HI. by apply keeps_lift. Qed.
Lemma keeps_on_authz {A} (op : authz → result A * authz) : frame_authz → keeps I (on_authz op).
Proof. intros HI. by apply keeps_lift. Qed.
Lemma keeps_on_feegrant {A} (op : feegrant → result A * feegrant) : frame_feegrant → keeps I (on_feegrant op).
Proof. intros HI. by apply keeps_lift. Qed.
Lemma keeps_on_bank_auth {A} (op : bank * auth → result A * (bank * auth)) :
  frame_bank → frame_auth → keeps I (on_bank_auth op).
Proof. intros H1' H2'. apply keeps_lift. intros s [b a] Hs. by apply H2', H1'. Qed.
Lemma keeps_on_feegrant_auth {A} (op : feegrant * auth → result A * (feegrant * auth)) :
  frame_feegrant → frame_auth → keeps I (on_feegrant_auth op).
Proof. intros H1' H2'. apply keeps_lift. intros s [b a] Hs. by apply H2', H1'. Qed.
Lemma keeps_on_rewards {A} (op : distr * (bank * auth) → result A * (distr * (bank * auth))) :
  frame_distr → frame_bank → frame_auth → keeps I (on_rewards op).
Proof. intros H1' H2' H3'. apply keeps_lift. intros s [d [b a]] Hs. by apply H1', H3', H2'. Qed.
Lemma keeps_set_auth f : frame_auth → keeps I (modify (λ s, put_auth (f s) s)).
Proof. intros HI. apply keeps_modify. intros s Hs. by apply HI. Qed.

Lemma keeps_adjust v p d r : frame_distr → keeps I (adjustHistoricalRewardsReferenceCount v p d r).
Proof. intros HI. unfold adjustHistoricalRewardsReferenceCount. keeps_steps. by apply keeps_on_distr. Qed.
Lemma keeps_MigrateDistribution l :
  frame_distr → frame_bank → frame_auth → keeps I (MigrateDistribution l).
Proof.
  intros H1' H2' H3'. unfold MigrateDistribution, redirectWithdrawAddrIfMigrated, ensureDelegatorStartingInfoReferenceCount.
  keeps_steps; auto using keeps_on_distr, keeps_on_rewards, keeps_adjust.
Qed.
Lemma keeps_migrateActiveDelegations ctx l n :
  frame_distr → frame_staking → keeps I (migrateActiveDelegations ctx l n).
Proof.
  intros H1' H2'. unfold migrateActiveDelegations, incrementHistoricalRewardsReferenceCount.
  keeps_steps; auto using keeps_on_distr, keeps_on_staking, keeps_adjust.
Qed.
Lemma keeps_migrateUnbondingDelegations l n : frame_staking → keeps I (migrateUnbondingDelegations l n).
Proof. intros H1'. unfold migrateUnbondingDelegations. keeps_steps; auto using keeps_on_staking. Qed.
Lemma keeps_migrateRedelegations l n : frame_staking → keeps I (migrateRedelegations l n).
Proof. intros H1'. unfold migrateRedelegations. keeps_steps; auto using keeps_on_staking. Qed.
Lemma keeps_migrateWithdrawAddress l n o : frame_distr → keeps I (migrateWithdrawAddress l n o).
Proof. intros H1'. unfold migrateWithdrawAddress. keeps_steps; auto using keeps_on_distr. Qed.
Lemma keeps_MigrateStaking ctx l n o : frame_distr → frame_staking → keeps I (MigrateStaking ctx l n o).
Proof.
  intros H1' H2'. unfold MigrateStaking. keeps_steps;
    auto using keeps_migrateActiveDelegations, keeps_migrateUnbondingDelegations, keeps_migrateRedelegations,
      keeps_migrateWithdrawAddress.
Qed.
Lemma keeps_MigrateAuth l n p : frame_auth → keeps I (MigrateAuth l n p).
Proof.
  intros HI. unfold MigrateAuth. keeps_steps; auto using keeps_set_auth. by apply keeps_lift.
Qed.
Lemma keeps_MigrateBank l n : frame_bank → frame_auth → keeps I (MigrateBank l n).
Proof. intros H1' H2'. unfold MigrateBank. keeps_steps. by apply keeps_on_bank_auth. Qed.
Lemma keeps_FinalizeVestingAccount n vi : frame_auth → keeps I (FinalizeVestingAccount n vi).
Proof. intros HI. unfold FinalizeVestingAccount. keeps_steps; auto using keeps_set_auth. Qed.
Lemma keeps_MigrateAuthz ctx l n : frame_authz → keeps I (MigrateAuthz ctx l n).
Proof. intros HI. unfold MigrateAuthz. keeps_steps; auto using keeps_on_authz. Qed.
Lemma keeps_MigrateFeegrant ctx l n : frame_feegrant → frame_auth → keeps I (MigrateFeegrant ctx l n).
Proof. intros H1' H2'. unfold MigrateFeegrant. keeps_steps; auto using keeps_on_feegrant, keeps_on_feegrant_auth. Qed.
Lemma keeps_MigrateSupernode ctx l n : frame_sn → keeps I (MigrateSupernode ctx l n).
Proof. intros HI. by apply keeps_zoom_frame. Qed.
Lemma keeps_MigrateActions l n : frame_act → keeps I (MigrateActions l n).
Proof. intros HI. unfold MigrateActions. keeps_steps. by apply keeps_zoom_frame. Qed.

(** The steps of a validator *)
Lemma keeps_set_distr f : frame_distr → keeps I (modify (λ s, put_distr (f s) s)).
Proof. intros HI. apply keeps_modify. intros s Hs. by apply HI. Qed.
Lemma keeps_withdraw_all ctx v val ds :
  frame_distr → frame_bank → frame_auth → keeps I (withdraw_all ctx v val ds).
Proof.
  intros H1' H2' H3'. unfold withdraw_all, repairLegacyRawShareStartingInfo, temporaryRedirectWithdrawAddr.
  keeps_steps; auto using keeps_on_distr, keeps_on_rewards.
Qed.
Lemma keeps_MigrateValidatorRecord v w : frame_staking → keeps I (MigrateValidatorRecord v w).
Proof. intros HI. unfold MigrateValidatorRecord. keeps_steps; auto using keeps_on_staking. Qed.
Lemma keeps_MigrateValidatorDistribution v w : frame_distr → keeps I (MigrateValidatorDistribution v w).
Proof.
  intros HI. unfold MigrateValidatorDistribution, move_row. keeps_steps; auto using keeps_on_distr, keeps_set_distr.
Qed.
Lemma keeps_MigrateValidatorDelegations ctx v w ds us rs :
  frame_distr → frame_staking → keeps I (MigrateValidatorDelegations ctx v w ds us rs).
Proof.
  intros H1' H2'. unfold MigrateValidatorDelegations, delegations_target, setHistoricalRewardsReferenceCount,
    rekey_delegation, rekey_unbonding, rekey_redelegation.
  keeps_steps; auto using keeps_on_distr, keeps_on_staking.
Qed.
Lemma keeps_MigrateValidatorSupernode ctx v w l n : frame_sn → keeps I (MigrateValidatorSupernode ctx v w l n).
Proof. intros HI. by apply keeps_zoom_frame. Qed.
Lemma keeps_DeleteValidatorRecordNoHooks v w : frame_staking → keeps I (DeleteValidatorRecordNoHooks v w).
Proof. intros HI. unfold DeleteValidatorRecordNoHooks. keeps_steps; auto using keeps_on_staking. Qed.
End Frames.
End Steps.

(** A migration keeps what does not depend on the stores it writes. *)
Ltac keeps_migration :=
  keeps_steps;
  first [apply keeps_MigrateDistribution | apply keeps_MigrateStaking | apply keeps_MigrateAuth
        | apply keeps_MigrateBank | apply keeps_FinalizeVestingAccount | apply keeps_MigrateAuthz
        | apply keeps_MigrateFeegrant | apply keeps_MigrateSupernode | apply keeps_MigrateActions
        | apply keeps_withdraw_all | apply keeps_MigrateValidatorRecord | apply keeps_MigrateValidatorDistribution
        | apply keeps_MigrateValidatorDelegations | apply keeps_MigrateValidatorSupernode
        | apply keeps_DeleteValidatorRecordNoHooks].
Ltac keeps_own :=
  keeps_migration;
  let t := fresh in let y := fresh in let Ht := fresh in intros t y Ht; exact Ht.

Section Run.
Context `{MigrationKeys} `{AccAddressText} `{SdkAddress}.
Context `{Hd : LegacyDecOps} `{!DecFractions} `{Hb : BankKeeper} `{!AuditKeeper} `{!PayoutBank}.
Context `{Hat : AccTypes} `{!AccOps} `{!Auth} `{!CoinSender}.
Context `{Hst : !StakingTypes} `{!StakingStore} `{!ValidatorStore}.
Context `{!Distribution} `{!ValidatorDistribution} `{Hz : Authz} `{!Feegrant}.

(** ** The checks of a migration *)
(** What the staking module must say of the two addresses *)
Definition operator_checked (msg : MigrationMsg) (s : mig_store) (l n : bytes) : Prop :=
  match msg with
  | MigrationMsg_Claim _ => st_GetValidator (mg_staking s) l = Err ErrNoValidatorFound
  | MigrationMsg_Validator _ =>
      (∃ val, st_GetValidator (mg_staking s) l = Ok val ∧ v_Jailed val = false ∧ v_Status val ≠ Unbonding) ∧
      st_GetValidator (mg_staking s) n = Err ErrNoValidatorFound
  end.
Record admitted (ctx : MigCtx) (msg : MigrationMsg) (s : mig_store) (l n : bytes) (p : MParams) : Prop := {
  ad_legacy : AccAddressFromBech32 (msg_legacyAddress msg) = Some l;
  ad_new : AccAddressFromBech32 (msg_newAddress msg) = Some n;
  ad_params : mg_params s = Some p;
  ad_enabled : EnableMigration p = true;
  ad_open : (0 <? MigrationEndTime p) && After (mc_BlockTime ctx) (time_Unix (MigrationEndTime p) 0) = false;
  ad_room : default 0 (mg_block s !! mc_BlockHeight ctx) < MaxMigrationsPerBlock p;
  ad_distinct : l ≠ n;
  ad_fresh_legacy : mg_records s !! AccAddress_String l = None;
  ad_not_migrated : mg_records s !! AccAddress_String n = None;
  ad_fresh_new : mg_by_new s !! AccAddress_String n = None;
  ad_account : ∃ acc, auth_GetAccount (mg_auth s) l = Some acc ∧ is_module acc = false;
  ad_validator : operator_checked msg s l n;
  ad_pair : ValidateProofPair (msg_legacyProof msg) (msg_newProof msg) = Ok tt;
  ad_legacy_proof : VerifyMigrationProof (mc_ChainID ctx) EVMChainID (msg_kind msg) l n l
                      (msg_legacyProof msg) SubKeyTypeCosmosSecp256k1 = Ok tt;
  ad_new_proof : VerifyMigrationProof (mc_ChainID ctx) EVMChainID (msg_kind msg) l n n
                   (msg_newProof msg) SubKeyTypeEthSecp256k1 = Ok tt
}.
Definition is_validator_msg (msg : MigrationMsg) : bool :=
  match msg with MigrationMsg_Claim _ => false | MigrationMsg_Validator _ => true end.
(** The steps between the checks and the record *)
Definition steps_run (ctx : MigCtx) (msg : MigrationMsg) (l n : bytes) (s s1 : st mig_store) : Prop :=
  match msg with
  | MigrationMsg_Claim m => migrateAccount ctx l n (cl_NewProof m) s = (Ok tt, s1)
  | MigrationMsg_Validator m => ∃ records, migrate_validator_steps ctx l n (mv_NewProof m) records s = (Ok tt, s1)
  end.
Ltac clean_checks :=
  repeat match goal with
         | Hx : negb _ = true |- _ => apply negb_true_iff in Hx
         | Hx : bool_decide _ = true |- _ => apply bool_decide_eq_true in Hx
         | Hx : bool_decide _ = false |- _ => apply bool_decide_eq_false in Hx
         | x : () |- _ => destruct x
         end.

Lemma claim_admitted ctx m (s s' : st mig_store) :
  ClaimLegacyAccount ctx m s = (Ok tt, s') →
  ∃ l n p s1, admitted ctx (MigrationMsg_Claim m) (store s) l n p ∧
    migrateAccount ctx l n (cl_NewProof m) s = (Ok tt, s1) ∧ finalizeMigration ctx l n false s1 = (Ok tt, s').
Proof.
  intros Hrun.
  cut (wp (ClaimLegacyAccount ctx m) s (λ x t, x = Ok tt →
        ∃ l n p s1, admitted ctx (MigrationMsg_Claim m) (store s) l n p ∧
          migrateAccount ctx l n (cl_NewProof m) s = (Ok tt, s1) ∧ finalizeMigration ctx l n false s1 = (Ok tt, t))).
  { unfold wp. rewrite Hrun. cbn. auto. }
  unfold ClaimLegacyAccount, preChecks, Params_Get, check_window, check_addresses, check_proofs.
  repeat first [done | lazymatch goal with |- wp (migrateAccount _ _ _ _ ≫= _) _ _ => fail | _ => wp_step end].
  unfold wp, mbind, M_bind. intros Hok.
  match goal with |- context [migrateAccount ctx ?l ?n _ s] => rename l into la, n into na end.
  destruct (migrateAccount ctx la na (cl_NewProof m) s) as [[[]|] s1] eqn:Hm; [|done].
  destruct (finalizeMigration ctx la na false s1) as [x t] eqn:Hf. cbn in Hok. subst x.
  simplify_eq. match goal with Hp : mg_params (store s) = Some ?p |- _ => exists la, na, p, s1 end.
  split; [|by rewrite Hf]. clean_checks. subst.
  constructor; try done; [by apply Z.leb_gt|by eexists].
Qed.
Lemma validator_admitted ctx m (s s' : st mig_store) :
  MigrateValidator ctx m s = (Ok tt, s') →
  ∃ l n p records s1, admitted ctx (MigrationMsg_Validator m) (store s) l n p ∧
    migrate_validator_steps ctx l n (mv_NewProof m) records s = (Ok tt, s1) ∧
    finalizeMigration ctx l n true s1 = (Ok tt, s').
Proof.
  intros Hrun.
  cut (wp (MigrateValidator ctx m) s (λ x t, x = Ok tt →
        ∃ l n p records s1, admitted ctx (MigrationMsg_Validator m) (store s) l n p ∧
          migrate_validator_steps ctx l n (mv_NewProof m) records s = (Ok tt, s1) ∧
          finalizeMigration ctx l n true s1 = (Ok tt, t))).
  { unfold wp. rewrite Hrun. cbn. auto. }
  unfold MigrateValidator, preChecks, validator_checks, Params_Get, check_window, check_addresses, check_proofs.
  repeat first [done | lazymatch goal with |- wp (migrate_validator_steps _ _ _ _ _ ≫= _) _ _ => fail | _ => wp_step end].
  unfold wp, mbind, M_bind. intros Hok.
  match goal with |- context [migrate_validator_steps ctx ?l ?n _ ?rs s] => rename l into la, n into na; set (recs := rs) in * end.
  destruct (migrate_validator_steps ctx la na (mv_NewProof m) recs s) as [[[]|] s1] eqn:Hm; [|done].
  destruct (finalizeMigration ctx la na true s1) as [x t] eqn:Hf. cbn in Hok. subst x.
  simplify_eq. match goal with Hp : mg_params (store s) = Some ?p |- _ => exists la, na, p, recs, s1 end.
  split; [|by rewrite Hf]. clean_checks. subst.
  constructor; try done; [by apply Z.leb_gt|by eexists|]. split; [by eexists|done].
Qed.
Lemma handle_admitted ctx msg (s s' : st mig_store) :
  handle_migration ctx msg s = (Ok tt, s') →
  ∃ l n p s1, admitted ctx msg (store s) l n p ∧ steps_run ctx msg l n s s1 ∧
    finalizeMigration ctx l n (is_validator_msg msg) s1 = (Ok tt, s').
Proof.
  destruct msg as [m|m].
  - intros (l & n & p & s1 & ? & ? & ?)%claim_admitted. eauto 10.
  - intros (l & n & p & rs & s1 & ? & ? & ?)%validator_admitted. exists l, n, p, s1. split_and!; [done|by exists rs|done].
Qed.

(** ** The module's own records *)
Definition own (s : mig_store) := (mg_params s, mg_records s, mg_by_new s, mg_count s, mg_val_count s, mg_block s).
Lemma steps_run_own ctx msg l n (s s1 : st mig_store) : steps_run ctx msg l n s s1 → own (store s1) = own (store s).
Proof.
  destruct msg as [m|m]; cbn.
  - intros Hrun. assert (keeps (λ t, own t = own (store s)) (migrateAccount ctx l n (cl_NewProof m))) as Hk.
    { unfold migrateAccount. keeps_own. }
    specialize (Hk s eq_refl). by rewrite Hrun in Hk.
  - intros [[[[val ds] us] rs] Hrun].
    assert (keeps (λ t, own t = own (store s)) (migrate_validator_steps ctx l n (mv_NewProof m) (val, ds, us, rs))) as Hk.
    { unfold migrate_validator_steps, migrateOperatorAccount, MigrateValidatorActions. keeps_own. }
    specialize (Hk s eq_refl). by rewrite Hrun in Hk.
Qed.

Definition record_of (ctx : MigCtx) (l n : bytes) : MigrationRecord :=
  mkMigrationRecord (AccAddress_String l) (AccAddress_String n) (t_sec (mc_BlockTime ctx)) (mc_BlockHeight ctx).

(** Both proofs are of the same shape, with the same threshold and the same signers. *)
Definition same_quorum (p q : MigrationProof) : Prop :=
  match p, q with
  | MigrationProof_Single _, MigrationProof_Single _ => True
  | MigrationProof_Multisig (Some m), MigrationProof_Multisig (Some m') =>
      mp_Threshold m = mp_Threshold m' ∧ mp_SignerIndices m = mp_SignerIndices m' ∧
      length (mp_SubPubKeys m) = length (mp_SubPubKeys m')
  | _, _ => False
  end.
Lemma ValidateProofPair_quorum p q : ValidateProofPair p q = Ok tt → same_quorum p q.
Proof.
  destruct p as [|p|[m|]], q as [|q|[m'|]]; try done. cbn [ValidateProofPair]. intros Hf%first_error_Ok.
  rewrite !Forall_cons in Hf. destruct Hf as (H1'%check_Ok%Z.eqb_eq & H2'%check_Ok%Z.eqb_eq & H3'%check_Ok & _).
  apply bool_decide_eq_true in H3'. unfold zlen in H2'. cbn. split_and!; [done..|lia].
Qed.

(** C9. A migration, of an account or of a validator, that succeeds was authorised by both
    sides: the key of the legacy address, or the threshold of distinct keys of it, and
    likewise that of the new address, signed a text that determines the kind of
    migration, the legacy and the new address, so that no signature of another migration
    is accepted.  Two threshold accounts have the same threshold and the same signers.
    It happens only while migrations are enabled, in the window, and is recorded once. *)
Theorem migration_authorised `{!AccTextLaws} ctx msg (s s' : st mig_store) :
  proof_sized (msg_legacyProof msg) → proof_sized (msg_newProof msg) →
  handle_migration ctx msg s = (Ok tt, s') →
  ∃ l n p, let payload := migrationPayload (mc_ChainID ctx) EVMChainID (msg_kind msg) l n in
    AccAddressFromBech32 (msg_legacyAddress msg) = Some l ∧ AccAddressFromBech32 (msg_newAddress msg) = Some n ∧ l ≠ n ∧
    authorised SubKeyTypeCosmosSecp256k1 payload l (msg_legacyProof msg) ∧
    authorised SubKeyTypeEthSecp256k1 payload n (msg_newProof msg) ∧
    same_quorum (msg_legacyProof msg) (msg_newProof msg) ∧
    (∀ kind l' n', no_colon kind = true → is_address l' → is_address n' →
       migrationPayload (mc_ChainID ctx) EVMChainID kind l' n' = payload →
       kind = msg_kind msg ∧ l' = l ∧ n' = n) ∧
    mg_params (store s) = Some p ∧ EnableMigration p = true ∧
    ((0 < MigrationEndTime p) → After (mc_BlockTime ctx) (time_Unix (MigrationEndTime p) 0) = false) ∧
    mg_records (store s) !! AccAddress_String l = None ∧
    mg_records (store s') = <[AccAddress_String l := record_of ctx l n]> (mg_records (store s)).
Proof.
  intros Hsl Hsn Hrun.
  destruct (handle_admitted _ _ _ _ Hrun) as (l & n & p & s1 & Ha & Hm & Hf).
  apply steps_run_own in Hm. injection Hm as _ Hr _ _ _ _. injection Hf as <-.
  exists l, n, p. destruct Ha. cbv zeta. split_and!; try done.
  - by apply verified_authorised.
  - by apply verified_authorised.
  - by apply ValidateProofPair_quorum.
  - intros kind l' n' Hk Hl' Hn' E. apply migrationPayload_inj in E; try done; [by destruct msg|by eexists..].
  - intros Hend. apply andb_false_iff in ad_open0 as [Ho|Ho]; [|done]. apply Z.ltb_ge in Ho. lia.
  - cbn. by rewrite Hr.
Qed.

(** ** The record of migrations is one to one *)
Definition one_to_one (R : gmap string MigrationRecord) (B : gmap string string) : Prop :=
  (∀ l r, R !! l = Some r → mr_LegacyAddress r = l ∧ B !! mr_NewAddress r = Some l) ∧
  (∀ n l, B !! n = Some l → ∃ r, R !! l = Some r ∧ mr_NewAddress r = n).
Definition records_one_to_one (s : mig_store) : Prop := one_to_one (mg_records s) (mg_by_new s).

Lemma one_to_one_insert R B r :
  one_to_one R B → R !! mr_LegacyAddress r = None → B !! mr_NewAddress r = None →
  one_to_one (<[mr_LegacyAddress r := r]> R) (<[mr_NewAddress r := mr_LegacyAddress r]> B).
Proof.
  intros [HR HB] Hl Hn. split.
  - intros l r' [[<- <-]|[Hne Hr']]%lookup_insert_Some; [by rewrite lookup_insert_eq|].
    destruct (HR _ _ Hr') as [? Hbn]. split; [done|]. rewrite lookup_insert_ne; [done|]. intros E. congruence.
  - intros n l [[<- <-]|[Hne Hbn]]%lookup_insert_Some; [exists r; by rewrite lookup_insert_eq|].
    destruct (HB _ _ Hbn) as (r' & Hr' & ?). exists r'. rewrite lookup_insert_ne; [done|]. congruence.
Qed.
(** The second index is determined by the records. *)
Lemma one_to_one_unique R B B' : one_to_one R B → one_to_one R B' → B = B'.
Proof.
  intros [H1' H2'] [H3' H4']. apply map_eq. intros n. apply option_eq. intros l. split; intros Hbn.
  - destruct (H2' _ _ Hbn) as (r & Hr & <-). by apply H3'.
  - destruct (H4' _ _ Hbn) as (r & Hr & <-). by apply H1'.
Qed.

(** *** Genesis *)
Definition genesis_records_ok (rs : list MigrationRecord) : Prop :=
  NoDup (mr_LegacyAddress <$> rs) ∧ NoDup (mr_NewAddress <$> rs).
Definition import_record (record : MigrationRecord) : M mig_store unit := modify (λ s,
  put_migrated (<[mr_LegacyAddress record := record]> (mg_records s))
    (<[mr_NewAddress record := mr_LegacyAddress record]> (mg_by_new s)) s).

Lemma import_records rs (s : st mig_store) :
  genesis_records_ok rs →
  (∀ r, r ∈ rs → mg_records (store s) !! mr_LegacyAddress r = None ∧ mg_by_new (store s) !! mr_NewAddress r = None) →
  records_one_to_one (store s) →
  ∃ s' : st mig_store, for_each import_record rs s = (Ok tt, s') ∧ records_one_to_one (store s') ∧
    mg_params (store s') = mg_params (store s) ∧ mg_block (store s') = mg_block (store s) ∧
    size (mg_records (store s')) = (length rs + size (mg_records (store s)))%nat ∧
    ∀ l r, mg_records (store s') !! l = Some r ↔
      mg_records (store s) !! l = Some r ∨ (r ∈ rs ∧ mr_LegacyAddress r = l).
Proof.
  revert s. induction rs as [|r rs IH]; intros s [Hl Hn] Hfresh Hok.
  { exists s. split_and!; try done. intros l r. split; [by left|]. intros [?|[Hr _]]; [done|].
    by apply not_elem_of_nil in Hr. }
  cbn in Hl, Hn. apply NoDup_cons in Hl as [Hl Hls]. apply NoDup_cons in Hn as [Hn Hns].
  destruct (Hfresh r) as [Hfl Hfn]; [by left|].
  set (s1 := St (put_migrated (<[mr_LegacyAddress r := r]> (mg_records (store s)))
                  (<[mr_NewAddress r := mr_LegacyAddress r]> (mg_by_new (store s))) (store s)) (events s)).
  destruct (IH s1) as (s' & Hrun & Hok' & Hp & Hbl & Hsz & Hlk); [done| |by apply one_to_one_insert|].
  { intros r' Hr'. destruct (Hfresh r') as [Hfl' Hfn']; [by right|]. cbn.
    rewrite !lookup_insert_ne; [done|..]; intros E.
    - apply Hn. rewrite E. by apply list_elem_of_fmap_2.
    - apply Hl. rewrite E. by apply list_elem_of_fmap_2. }
  exists s'. split_and!; try done.
  - rewrite Hsz. cbn. rewrite map_size_insert_None by done. lia.
  - intros l r'. rewrite Hlk. cbn. rewrite elem_of_cons. split.
    + intros [[[<- <-]|[_ ?]]%lookup_insert_Some|[? ?]]; auto.
    + intros [Hr'|[[->|Hr'] <-]]; [left|left; by rewrite lookup_insert_eq|by right].
      rewrite lookup_insert_ne; [done|]. intros <-. congruence.
Qed.

(** A store before genesis *)
Definition mig_fresh (s : mig_store) : Prop := mg_records s = ∅ ∧ mg_by_new s = ∅.
Lemma fresh_one_to_one s : mig_fresh s → records_one_to_one s.
Proof. intros [Hr Hbn]. unfold records_one_to_one. rewrite Hr, Hbn. by split. Qed.
Lemma InitGenesis_records g (s : st mig_store) :
  mig_fresh (store s) → genesis_records_ok (gm_MigrationRecords g) →
  ∃ s' : st mig_store, mig_InitGenesis g s = (Ok tt, s') ∧ records_one_to_one (store s') ∧
    mg_params (store s') = Some (gm_Params g) ∧ mg_count (store s') = Some (gm_TotalMigrated g) ∧
    mg_val_count (store s') = Some (gm_TotalValidatorsMigrated g) ∧
    size (mg_records (store s')) = length (gm_MigrationRecords g) ∧
    ∀ l r, mg_records (store s') !! l = Some r ↔ r ∈ gm_MigrationRecords g ∧ mr_LegacyAddress r = l.
Proof.
  intros Hf Hg. set (s1 := St (put_mparams (gm_Params g) (store s)) (events s)).
  destruct (import_records (gm_MigrationRecords g) s1 Hg) as (s2 & Hrun & Hok & Hp & _ & Hsz & Hlk).
  { intros r _. cbn. destruct Hf as [-> ->]. by rewrite !lookup_empty. }
  { by apply (fresh_one_to_one (store s1)). }
  eexists. unfold mig_InitGenesis. rewrite bind_modify. fold s1.
  change (for_each _ (gm_MigrationRecords g)) with (for_each import_record (gm_MigrationRecords g)).
  rewrite (bind_ok _ _ _ _ _ Hrun).
  split; [reflexivity|]. cbn. split_and!; try done.
  - rewrite Hsz. cbn. destruct Hf as [-> _]. rewrite map_size_empty. lia.
  - intros l r. rewrite Hlk. cbn. destruct Hf as [-> _]. rewrite lookup_empty. naive_solver.
Qed.

(** *** Sequences of migrations

    Migrations of accounts and of validators, updates of the parameters, and anything
    the other modules do to their own stores. *)
Inductive mig_step : mig_store → mig_store → Prop :=
| mig_step_migrate ctx msg (s : st mig_store) :
    mig_step (store s) (store (run_tx (handle_migration ctx msg) s).2)
| mig_step_params authority req p (s : st mig_store) :
    mig_step (store s) (store (run_tx (mig_UpdateParams authority req p) s).2)
| mig_step_world a x d z f act s : mig_step s (put_world a x d z f act s).

(** The counter of migrations, up to its width *)
Definition counted (s : mig_store) : Prop := mg_count s = Some (u64 (Z.of_nat (size (mg_records s)))).
Lemma u64_succ n : u64 (u64 (Z.of_nat n) + 1) = u64 (Z.of_nat (S n)).
Proof. unfold u64. rewrite Zplus_mod_idemp_l. f_equal. lia. Qed.

Lemma handle_tx ctx msg (s : st mig_store) :
  (run_tx (handle_migration ctx msg) s).2 = s ∨
  ∃ l n p s' b vc, handle_migration ctx msg s = (Ok tt, s') ∧ (run_tx (handle_migration ctx msg) s).2 = s' ∧
    admitted ctx msg (store s) l n p ∧
    own (store s') = (mg_params (store s), <[AccAddress_String l := record_of ctx l n]> (mg_records (store s)),
      <[AccAddress_String n := AccAddress_String l]> (mg_by_new (store s)),
      Some (u64 (default 0 (mg_count (store s)) + 1)), vc, b).
Proof.
  unfold run_tx. destruct (handle_migration ctx msg s) as [[[]|e] s'] eqn:Hrun; [right|by left].
  destruct (handle_admitted _ _ _ _ Hrun) as (l & n & p & s1 & Ha & Hm & Hf).
  apply steps_run_own in Hm. injection Hm as Hp Hr Hn Hc Hv Hbl. injection Hf as <-.
  exists l, n, p. eexists _, _, _. split_and!; [done..|]. unfold own. cbn. by rewrite Hp, Hr, Hn, Hc.
Qed.

Lemma mig_step_own s s' : mig_step s s' → records_one_to_one s → counted s →
  records_one_to_one s' ∧ counted s' ∧ mg_records s ⊆ mg_records s'.
Proof.
  intros [ctx msg s1|authority req p s1|a x d z f act s1] Hok Hc.
  - destruct (handle_tx ctx msg s1) as [->|(l & n & p & s2 & b & vc & _ & -> & Ha & Ho)]; [done|].
    injection Ho as _ Hr Hn Hcnt _ _. unfold records_one_to_one, counted. rewrite Hr, Hn, Hcnt, Hc.
    split_and!.
    + apply (one_to_one_insert _ _ (record_of ctx l n)); [done|apply Ha..].
    + cbn. f_equal. rewrite map_size_insert_None by apply Ha. apply u64_succ.
    + by apply insert_subseteq, Ha.
  - apply (wp_run_tx _ _ (λ t : st mig_store, records_one_to_one (store t) ∧ counted (store t) ∧
      mg_records (store s1) ⊆ mg_records (store t))); [|done].
    unfold mig_UpdateParams. by repeat first [done | wp_step].
  - done.
Qed.
Lemma mig_run_own s s' : rtc mig_step s s' → records_one_to_one s → counted s →
  records_one_to_one s' ∧ counted s' ∧ mg_records s ⊆ mg_records s'.
Proof.
  induction 1 as [|s s1 s' Hstep _ IH]; [done|]. intros Hok Hc.
  destruct (mig_step_own _ _ Hstep Hok Hc) as (Hok1 & Hc1 & Hsub). destruct (IH Hok1 Hc1) as (? & ? & ?).
  split_and!; [done..|by etrans].
Qed.

(** C8. From a genesis without repeated addresses on, whatever sequence of migrations and
    parameter updates follows and whatever the rest of the chain does: every migrated
    address has one new address and every new address comes from one legacy address,
    the two indices agree, a record is never changed or removed, and the counter is
    the number of records. *)
Theorem migrations_injective g (s0 s1 : st mig_store) s s' :
  mig_fresh (store s0) → genesis_records_ok (gm_MigrationRecords g) →
  gm_TotalMigrated g = u64 (zlen (gm_MigrationRecords g)) →
  mig_InitGenesis g s0 = (Ok tt, s1) → rtc mig_step (store s1) s → rtc mig_step s s' →
  records_one_to_one s' ∧ counted s' ∧ mg_records s ⊆ mg_records s' ∧
  ∀ l1 l2 r1 r2, mg_records s' !! l1 = Some r1 → mg_records s' !! l2 = Some r2 →
    mr_NewAddress r1 = mr_NewAddress r2 → l1 = l2.
Proof.
  intros Hf Hg Hcnt Hi H1' H2'.
  destruct (InitGenesis_records g s0 Hf Hg) as (t & Ht & Hok & _ & Hc & _ & Hsz & _).
  rewrite Hi in Ht. simplify_eq.
  assert (counted (store t)) as Hct by (unfold counted; by rewrite Hc, Hsz, Hcnt).
  destruct (mig_run_own _ _ H1' Hok Hct) as (Hok1 & Hc1 & _).
  destruct (mig_run_own _ _ H2' Hok1 Hc1) as (Hok2 & Hc2 & Hsub).
  split_and!; [done..|]. intros l1 l2 r1 r2 Hr1 Hr2 E.
  destruct Hok2 as [HR _]. destruct (HR _ _ Hr1) as [_ Hn1], (HR _ _ Hr2) as [_ Hn2]. congruence.
Qed.

(** *** The genesis round trip *)
Lemma exported_ok s : records_one_to_one s → genesis_records_ok (kv_iter string_bytes (mg_records s)).*2.
Proof.
  intros [HR HB].
  assert (∀ f, (∀ k1 k2 r1 r2, mg_records s !! k1 = Some r1 → mg_records s !! k2 = Some r2 → f r1 = f r2 → k1 = k2) →
    NoDup ((f : _ → string) <$> (kv_iter string_bytes (mg_records s)).*2)) as Hnd.
  { intros f Hf. rewrite <- list_fmap_compose. apply NoDup_fmap_2_strong.
    - intros [k1 r1] [k2 r2] Hi1%elem_of_kv_iter Hi2%elem_of_kv_iter E. cbn in E.
      pose proof (Hf _ _ _ _ Hi1 Hi2 E) as ->. congruence.
    - by apply (NoDup_fmap_1 fst), NoDup_kv_iter_keys. }
  split; apply Hnd; intros k1 k2 r1 r2 Hr1 Hr2 E; destruct (HR _ _ Hr1) as [<- Hn1], (HR _ _ Hr2) as [<- Hn2]; congruence.
Qed.

(** C40. A migration record store that is one to one survives the export and the import of
    the genesis: what is exported can be imported into an empty module, and gives back the
    parameters, the records, the index by new address and both counters. *)
Theorem migration_genesis_roundtrip s g (t : st mig_store) :
  records_one_to_one s → mig_ExportGenesis s = Ok g → mig_fresh (store t) →
  ∃ t' : st mig_store, mig_InitGenesis g t = (Ok tt, t') ∧
    (mg_params (store t'), mg_records (store t'), mg_by_new (store t'), mg_count (store t'), mg_val_count (store t')) =
    (mg_params s, mg_records s, mg_by_new s, mg_count s, mg_val_count s).
Proof.
  intros Hok Hex Hf. unfold mig_ExportGenesis in Hex.
  destruct (mg_params s) as [p|], (mg_count s) as [c|], (mg_val_count s) as [v|]; try done. injection Hex as <-.
  match goal with |- context [mig_InitGenesis ?g t] => set (gs := g) end.
  destruct (InitGenesis_records gs t Hf (exported_ok s Hok)) as (t' & Hi & Hok' & Hp & Hc & Hv & _ & Hlk).
  exists t'. split; [done|]. cbn in Hp, Hc, Hv, Hlk.
  assert (mg_records (store t') = mg_records s) as Hr.
  { apply map_eq. intros l. apply option_eq. intros r. rewrite Hlk, list_elem_of_fmap. split.
    - intros [([k r0] & -> & Hin%elem_of_kv_iter) <-]. cbn. destruct Hok as [HR _]. by destruct (HR _ _ Hin) as [<- _].
    - intros Hr. split; [by exists (l, r); rewrite elem_of_kv_iter|]. by apply Hok. }
  assert (mg_by_new (store t') = mg_by_new s) as ->; [|by rewrite Hp, Hc, Hv, Hr].
  unfold records_one_to_one in Hok'. rewrite Hr in Hok'. by eapply one_to_one_unique.
Qed.
End Run.
