(* ===== verification/EvStake.v ===== *)
(** * x/evmigration: what a migration does to the stake

    The delegations, unbonding delegations and redelegations as one table of positions
    by delegator and slot, the laws of the staking keeper on it, and the table after the
    migration of an account. *)
From Stdlib Require Import ZArith Lia.
From stdpp Require Import base numbers strings list gmap.
From S2P Require Import Prelude Sdk Bank GoTime SupernodeTypes Supernode ActionTypes ActionStore Reward.
From S2P Require Import EvProof EvKeepers EvMigrate EvValidator EvThm EvRun.
Open Scope Z_scope.

Lemma bind_inv {S A B} (m : M S A) (k : A → M S B) s b s' :
  (m ≫= k) s = (Ok b, s') → ∃ a s1, m s = (Ok a, s1) ∧ k a s1 = (Ok b, s').
Proof. unfold mbind, M_bind. destruct (m s) as [[a|] s1]; [|done]. eauto. Qed.
Lemma bind_option_inv {S A B} e (o : option A) (k : A → M S B) s b s' :
  (of_option e o ≫= k) s = (Ok b, s') → ∃ a, o = Some a ∧ k a s = (Ok b, s').
Proof. destruct o; [|done]. eauto. Qed.
Lemma bind_result_inv {S A B} (r : result A) (k : A → M S B) s b s' :
  (of_result r ≫= k) s = (Ok b, s') → ∃ a, r = Ok a ∧ k a s = (Ok b, s').
Proof. destruct r; [|done]. eauto. Qed.
Lemma bind_ensure_inv {S B} c e (k : unit → M S B) s b s' :
  (ensure c e ≫= k) s = (Ok b, s') → c = true ∧ k tt s = (Ok b, s').
Proof. by destruct c. Qed.
Lemma bind_read_inv {S A B} (f : S → result A) (k : A → M S B) s b s' :
  (r ← gets f; x ← of_result r; k x) s = (Ok b, s') → ∃ a, f (store s) = Ok a ∧ k a s = (Ok b, s').
Proof. rewrite bind_gets. destruct (f (store s)); [|done]. eauto. Qed.
Lemma lift_inv {S T A} (get : S → T) put (op : T → result A * T) (s s' : st S) a :
  lift get put op s = (Ok a, s') → ∃ t, op (get (store s)) = (Ok a, t) ∧ s' = St (put t (store s)) (events s).
Proof. unfold lift. destruct (op _) as [r t]. intros [= -> <-]. eauto. Qed.

(** ** Positions *)
Inductive slot := Delegated (v : bytes) | UnbondingFrom (v : bytes) | Redelegating (src dst : bytes).
#[export] Instance slot_eq_dec : EqDecision slot.
Proof. solve_decision. Defined.
Definition is_delegated (k : slot) : bool := match k with Delegated _ => true | _ => false end.
Definition is_unbonding (k : slot) : bool := match k with UnbondingFrom _ => true | _ => false end.
Definition is_redelegating (k : slot) : bool := match k with Redelegating _ _ => true | _ => false end.

Section Positions.
Context `{SdkAddress} `{Hd : LegacyDecOps} `{Hst : !StakingTypes}.
Inductive position := PShares (sh : Dec) | PUnbonding (es : list UBDEntry) | PRedelegating (es : list REDEntry).
Definition table : Type := bytes → slot → option position.

(** A record: whose it is, its slot and what it holds *)
Definition row : Type := string * option slot * position.
Definition del_row (d : Delegation) : row :=
  (del_DelegatorAddress d, Delegated <$> ValAddressFromBech32 (del_ValidatorAddress d), PShares (del_Shares d)).
Definition ubd_row (u : UnbondingDelegation) : row :=
  (ubd_DelegatorAddress u, UnbondingFrom <$> ValAddressFromBech32 (ubd_ValidatorAddress u), PUnbonding (ubd_Entries u)).
Definition red_row (r : Redelegation) : row :=
  (red_DelegatorAddress r,
   src ← ValAddressFromBech32 (red_ValidatorSrcAddress r); dst ← ValAddressFromBech32 (red_ValidatorDstAddress r);
   Some (Redelegating src dst), PRedelegating (red_Entries r)).

(** [t'] is [t] with the slot of the record holding [p]. *)
Definition written (r : row) (p : option position) (t t' : table) : Prop :=
  ∃ a k, AccAddressFromBech32 r.1.1 = Some a ∧ r.1.2 = Some k ∧
    ∀ b j, t' b j = if decide (b = a ∧ j = k) then p else t b j.
(** [rows] are records of [a] of one kind in [t], all of them if [all]. *)
Definition listed (a : bytes) (kind : slot → bool) (all : bool) (rows : list row) (t : table) : Prop :=
  (∀ r, r ∈ rows → AccAddressFromBech32 r.1.1 = Some a ∧
     ∃ k, r.1.2 = Some k ∧ kind k = true ∧ t a k = Some r.2) ∧
  NoDup (rows.*1).*2 ∧
  (all = true → ∀ k p, kind k = true → t a k = Some p → ∃ r, r ∈ rows ∧ r.1.2 = Some k).

(** Everything of [l] is at [n]; what [n] had in the same slot is gone. *)
Definition taken (l n : bytes) (t : table) : table := λ b k,
  if decide (b = l) then None else
  if decide (b = n) then (match t l k with Some p => Some p | None => t n k end) else t b k.
Definition taken_kind (kind : slot → bool) (l n : bytes) (t : table) : table := λ b k,
  if kind k then taken l n t b k else t b k.

(** One record of [l] becomes one of [n]. *)
Definition row_moved (l n : bytes) (k : slot) (p : position) (t t' : table) : Prop := ∀ b j,
  t' b j = if decide (j = k) then (if decide (b = n) then Some p else if decide (b = l) then None else t b j)
           else t b j.
Lemma written_moved l n k r r' p t t1 t2 :
  written r None t t1 → written r' (Some p) t1 t2 →
  AccAddressFromBech32 r.1.1 = Some l → r.1.2 = Some k → AccAddressFromBech32 r'.1.1 = Some n → r'.1.2 = Some k →
  row_moved l n k p t t2.
Proof.
  intros (a & j & Ha & Hj & H1') (a' & j' & Ha' & Hj' & H2') Hl Hk Hn Hk' b i. simplify_eq.
  rewrite H2', H1'. repeat case_decide; naive_solver.
Qed.

Lemma row_moved_listed l n kind k p (rows : list row) t t' :
  l ≠ n → row_moved l n k p t t' → (∀ r, r ∈ rows → r.1.2 ≠ Some k) →
  (∀ r, r ∈ rows → AccAddressFromBech32 r.1.1 = Some l ∧ ∃ k, r.1.2 = Some k ∧ kind k = true ∧ t l k = Some r.2) →
  (∀ r, r ∈ rows → AccAddressFromBech32 r.1.1 = Some l ∧ ∃ k, r.1.2 = Some k ∧ kind k = true ∧ t' l k = Some r.2).
Proof.
  intros Hne Hm Hk Hrows r Hr. destruct (Hrows r Hr) as (? & j & Hj & ? & Ht). split; [done|]. exists j.
  split_and!; [done..|]. rewrite Hm. case_decide as E; [|done]. subst. by destruct (Hk r Hr).
Qed.

(** A loop that moves the records one by one moves them all. *)
Lemma rows_taken {S A} (f : A → M S unit) (view : S → table) (row_of : A → row) kind l n ds (s s' : st S) :
  l ≠ n →
  (∀ d (s s' : st S) k, d ∈ ds → f d s = (Ok tt, s') → AccAddressFromBech32 (row_of d).1.1 = Some l → (row_of d).1.2 = Some k →
     row_moved l n k (row_of d).2 (view (store s)) (view (store s'))) →
  listed l kind true (row_of <$> ds) (view (store s)) → for_each f ds s = (Ok tt, s') →
  ∀ b k, view (store s') b k = taken_kind kind l n (view (store s)) b k.
Proof.
  intros Hne. revert s. induction ds as [|d ds IH]; intros s Hf (Hin & Hnd & Hall) Hrun b k.
  - injection Hrun as <-. unfold taken_kind, taken. destruct (kind k) eqn:Hk; [|done].
    assert (view (store s) l k = None) as Hnone.
    { destruct (view (store s) l k) as [p|] eqn:E; [|done].
      destruct (Hall eq_refl k p Hk E) as (r & Hr & _). by apply not_elem_of_nil in Hr. }
    repeat case_decide; subst; by rewrite ?Hnone.
  - apply bind_inv in Hrun as ([] & s1 & H1' & H2'). cbn in Hnd. apply NoDup_cons in Hnd as [Hfresh Hnd].
    destruct (Hin (row_of d)) as (Hl & k0 & Hk0 & Hkind & Hp); [by left|].
    pose proof (Hf d s s1 k0 (list_elem_of_here _ _) H1' Hl Hk0) as Hmv.
    assert (∀ r, r ∈ row_of <$> ds → r.1.2 ≠ Some k0) as Hother.
    { intros r Hr E. apply Hfresh. rewrite Hk0, <- E. by apply (list_elem_of_fmap_2 snd), (list_elem_of_fmap_2 fst). }
    rewrite (IH s1); [| |split_and!|done].
    + unfold taken_kind. destruct (kind k) eqn:Hk; [|rewrite Hmv; case_decide; congruence].
      unfold taken. rewrite !Hmv. repeat case_decide; subst; congruence || by rewrite ?Hp.
    + intros d' s2 s3 k' Hd'. apply Hf. by right.
    + eapply row_moved_listed; [done|exact Hmv|done|]. intros r Hr. apply Hin. by right.
    + done.
    + intros _ k' p Hk' Ht. rewrite Hmv in Ht. case_decide as E; [by rewrite decide_False, decide_True in Ht|].
      destruct (Hall eq_refl k' p Hk' Ht) as (r & [->|Hr]%elem_of_cons & Hrk); [congruence|by exists r].
Qed.
End Positions.

(** ** The staking keeper *)
Class StakingLaws `{SdkAddress} `{StakingStore} := {
  staked : staking → table;
  set_delegation d st st' : SetDelegation d st = (Ok tt, st') →
    written (del_row d) (Some (PShares (del_Shares d))) (staked st) (staked st');
  remove_delegation d st st' : RemoveDelegation d st = (Ok tt, st') → written (del_row d) None (staked st) (staked st');
  set_unbonding u st st' : SetUnbondingDelegation u st = (Ok tt, st') →
    written (ubd_row u) (Some (PUnbonding (ubd_Entries u))) (staked st) (staked st');
  remove_unbonding u st st' : RemoveUnbondingDelegation u st = (Ok tt, st') →
    written (ubd_row u) None (staked st) (staked st');
  set_redelegation r st st' : SetRedelegation r st = (Ok tt, st') →
    written (red_row r) (Some (PRedelegating (red_Entries r))) (staked st) (staked st');
  remove_redelegation r st st' : RemoveRedelegation r st = (Ok tt, st') →
    written (red_row r) None (staked st) (staked st');
  (** the queues and the index by id are kept apart *)
  ubd_queue u t st : staked (InsertUBDQueue u t st).2 = staked st;
  ubd_id u i st : staked (SetUnbondingDelegationByUnbondingID u i st).2 = staked st;
  red_queue r t st : staked (InsertRedelegationQueue r t st).2 = staked st;
  red_id r i st : staked (SetRedelegationByUnbondingID r i st).2 = staked st;
  (** a read returns at most so many records, and all of them if there are fewer *)
  list_delegations a max st ds : GetDelegatorDelegations a max st = Ok ds →
    listed a is_delegated (zlen ds <? max) (del_row <$> ds) (staked st);
  list_unbondings a max st us : GetUnbondingDelegations a max st = Ok us →
    listed a is_unbonding (zlen us <? max) (ubd_row <$> us) (staked st);
  list_redelegations a max st rs : GetRedelegations a max st = Ok rs →
    listed a is_redelegating (zlen rs <? max) (red_row <$> rs) (staked st)
}.

(** Fewer positions than one read returns *)
Definition few `{Hst : StakingTypes} (l : bytes) (t : table) : Prop :=
  ∃ ks : list slot, zlen ks < maxRetrieve ∧ ∀ k, is_Some (t l k) → k ∈ ks.

Section Stake.
Context `{MigrationKeys} `{AccAddressText} `{SdkAddress}.
Context `{Hd : LegacyDecOps} `{!DecFractions} `{Hb : BankKeeper} `{!AuditKeeper} `{!PayoutBank}.
Context `{Hat : AccTypes} `{!AccOps} `{!Auth} `{!CoinSender}.
Context `{Hst : !StakingTypes} `{!StakingStore} `{!ValidatorStore}.
Context `{!Distribution} `{!ValidatorDistribution} `{Hz : Authz} `{!Feegrant}.
Context `{!AccTextLaws} `{!StakingLaws}.
Implicit Types (s : st mig_store).
Definition stake (s : mig_store) : table := staked (mg_staking s).

Lemma few_listed {A} (row_of : A → row) l kind ds t :
  few l t → listed l kind (zlen ds <? maxRetrieve) (row_of <$> ds) t → listed l kind true (row_of <$> ds) t.
Proof.
  intros (ks & Hlt & Hks) (Hin & Hnd & Hall). split_and!; [done..|]. intros _. apply Hall, Z.ltb_lt.
  assert (length ((row_of <$> ds).*1).*2 ≤ length (Some <$> ks))%nat as Hlen.
  { apply submseteq_length, NoDup_submseteq; [done|]. intros o Ho.
    apply list_elem_of_fmap in Ho as ([x o'] & -> & Ho). apply list_elem_of_fmap in Ho as (r & E & Hr).
    destruct (Hin r Hr) as (_ & k & Hk & _ & Hp). rewrite <- E in Hk. cbn in Hk |- *. subst o'.
    apply list_elem_of_fmap_2, Hks. by eexists. }
  rewrite !length_fmap in Hlen. unfold zlen in *. lia.
Qed.
Lemma few_taken kind l n (t t' : table) :
  l ≠ n → few l t → (∀ b k, t' b k = taken_kind kind l n t b k) → few l t'.
Proof.
  intros Hne (ks & Hlt & Hks) Ht. exists ks. split; [done|]. intros k. rewrite Ht. unfold taken_kind, taken.
  destruct (kind k); [|apply Hks]. rewrite decide_True by done. by intros [? ?].
Qed.

Lemma keeps_on_staking_view {A} T (op : staking → result A * staking) :
  (∀ st, staked (op st).2 = staked st) → keeps (λ x, stake x = T) (on_staking op).
Proof. intros Hop. apply (keeps_lift_op _ (λ st, staked st = T)); [done| |done]. intros st <-. apply Hop. Qed.
Lemma frame_stake_distr T : frame_distr (λ x, stake x = T).
Proof. intros x d Hx. exact Hx. Qed.

(** A slot of [l] that is removed and set for [n] *)
Lemma rekeyed l n (rm set : staking → result unit * staking) r r' s s1 s2 :
  (∀ st st', rm st = (Ok tt, st') → written r None (staked st) (staked st')) →
  (∀ st st', set st = (Ok tt, st') → written r' (Some r.2) (staked st) (staked st')) →
  r'.1.2 = r.1.2 → AccAddressFromBech32 r'.1.1 = Some n →
  on_staking rm s = (Ok tt, s1) → on_staking set s1 = (Ok tt, s2) →
  ∀ k, AccAddressFromBech32 r.1.1 = Some l → r.1.2 = Some k → row_moved l n k r.2 (stake (store s)) (stake (store s2)).
Proof.
  intros Hrm Hset Hslot Hn (t1 & H1' & ->)%lift_inv (t2 & H2' & ->)%lift_inv k Hl Hk.
  eapply written_moved; [by apply Hrm|by apply Hset|done..|by rewrite Hslot].
Qed.

(** A command after the two that does not look at the positions *)
Lemma stake_keeps {A} (m : M mig_store A) s s' a :
  keeps (λ x, stake x = stake (store s)) m → m s = (Ok a, s') → stake (store s') = stake (store s).
Proof. intros Hk E. specialize (Hk s eq_refl). by rewrite E in Hk. Qed.

Lemma migrateActiveDelegations_taken ctx l n s s' :
  l ≠ n → is_address n → few l (stake (store s)) → migrateActiveDelegations ctx l n s = (Ok tt, s') →
  ∀ b k, stake (store s') b k = taken_kind is_delegated l n (stake (store s)) b k.
Proof.
  intros Hne Hn Hfew Hrun. apply bind_read_inv in Hrun as (ds & Hds & Hrun).
  eapply rows_taken; [done| |eapply few_listed, list_delegations; done|exact Hrun].
  clear Hrun. intros d s1 s2 k _ Hrun Hl Hk.
  apply bind_option_inv in Hrun as (v & Hv & Hrun).
  apply bind_inv in Hrun as ([] & s4 & H1' & Hrun). apply bind_inv in Hrun as ([] & s5 & H2' & Hrun).
  apply bind_inv in Hrun as ([] & s6 & H3' & Hrun).
  pose proof (stake_keeps _ _ _ _ (keeps_on_distr _ _ (frame_stake_distr _)) H1') as <-.
  assert (stake (store s2) = stake (store s6)) as ->.
  { eapply stake_keeps; [|exact Hrun]. unfold incrementHistoricalRewardsReferenceCount.
    keeps_steps; auto using keeps_adjust, keeps_on_distr, frame_stake_distr. }
  destruct Hn as [text Hn]. set (d' := mkDelegation _ _ _) in H3'.
  apply (rekeyed l n (RemoveDelegation d) (SetDelegation d') (del_row d) (del_row d') s4 s5 s6); try done;
    [apply remove_delegation|exact (set_delegation d')|by eapply acc_roundtrip].
Qed.
Lemma migrateUnbondingDelegations_taken l n s s' :
  l ≠ n → is_address n → few l (stake (store s)) → migrateUnbondingDelegations l n s = (Ok tt, s') →
  ∀ b k, stake (store s') b k = taken_kind is_unbonding l n (stake (store s)) b k.
Proof.
  intros Hne [text Hn] Hfew Hrun. apply bind_read_inv in Hrun as (us & Hus & Hrun).
  eapply rows_taken; [done| |eapply few_listed, list_unbondings; done|exact Hrun].
  clear Hrun. intros u s1 s2 k _ Hrun Hl Hk.
  apply bind_inv in Hrun as ([] & s3 & H1' & Hrun). apply bind_inv in Hrun as ([] & s4 & H2' & Hrun).
  set (u' := mkUBD _ _ _) in *.
  assert (stake (store s2) = stake (store s4)) as ->.
  { eapply stake_keeps; [|exact Hrun]. keeps_steps; apply keeps_on_staking_view; intros; [apply ubd_queue|apply ubd_id]. }
  apply (rekeyed l n (RemoveUnbondingDelegation u) (SetUnbondingDelegation u') (ubd_row u) (ubd_row u') s1 s3 s4); try done;
    [apply remove_unbonding|exact (set_unbonding u')|by eapply acc_roundtrip].
Qed.
Lemma migrateRedelegations_taken l n s s' :
  l ≠ n → is_address n → few l (stake (store s)) → migrateRedelegations l n s = (Ok tt, s') →
  ∀ b k, stake (store s') b k = taken_kind is_redelegating l n (stake (store s)) b k.
Proof.
  intros Hne [text Hn] Hfew Hrun. apply bind_read_inv in Hrun as (rs & Hrs & Hrun).
  eapply rows_taken; [done| |eapply few_listed, list_redelegations; done|exact Hrun].
  clear Hrun. intros r s1 s2 k _ Hrun Hl Hk.
  apply bind_inv in Hrun as ([] & s3 & H1' & Hrun). apply bind_inv in Hrun as ([] & s4 & H2' & Hrun).
  set (r' := mkRED _ _ _ _) in *.
  assert (stake (store s2) = stake (store s4)) as ->.
  { eapply stake_keeps; [|exact Hrun]. keeps_steps; apply keeps_on_staking_view; intros; [apply red_queue|apply red_id]. }
  apply (rekeyed l n (RemoveRedelegation r) (SetRedelegation r') (red_row r) (red_row r') s1 s3 s4); try done;
    [apply remove_redelegation|exact (set_redelegation r')|by eapply acc_roundtrip].
Qed.

Lemma MigrateStaking_taken ctx l n o s s' :
  l ≠ n → is_address n → few l (stake (store s)) → MigrateStaking ctx l n o s = (Ok tt, s') →
  ∀ b k, stake (store s') b k = taken l n (stake (store s)) b k.
Proof.
  intros Hne Hn Hfew Hrun.
  apply bind_inv in Hrun as ([] & s1 & H1' & Hrun). apply bind_inv in Hrun as ([] & s2 & H2' & Hrun).
  apply bind_inv in Hrun as ([] & s3 & H3' & Hrun).
  pose proof (migrateActiveDelegations_taken _ _ _ _ _ Hne Hn Hfew H1') as T1.
  pose proof (few_taken _ _ _ _ _ Hne Hfew T1) as Hfew1.
  pose proof (migrateUnbondingDelegations_taken _ _ _ _ Hne Hn Hfew1 H2') as T2.
  pose proof (few_taken _ _ _ _ _ Hne Hfew1 T2) as Hfew2.
  pose proof (migrateRedelegations_taken _ _ _ _ Hne Hn Hfew2 H3') as T3.
  assert (stake (store s') = stake (store s3)) as ->.
  { eapply stake_keeps; [|exact Hrun]. apply keeps_migrateWithdrawAddress, frame_stake_distr. }
  intros b k. rewrite T3. destruct k; unfold taken_kind, taken; cbn; rewrite ?T2; unfold taken_kind, taken; cbn;
    rewrite ?T1; reflexivity.
Qed.

(** The rest of the migration of an account leaves the stake alone. *)
Lemma migrateAccount_stake ctx l n p s s' :
  l ≠ n → is_address n → few l (stake (store s)) → migrateAccount ctx l n p s = (Ok tt, s') →
  ∀ b k, stake (store s') b k = taken l n (stake (store s)) b k.
Proof.
  intros Hne Hn Hfew Hrun. unfold migrateAccount in Hrun. rewrite bind_gets in Hrun.
  apply bind_inv in Hrun as ([] & s1 & H1' & Hrun). apply bind_inv in Hrun as ([] & s2 & H2' & Hrun).
  assert (stake (store s1) = stake (store s)) as E1.
  { eapply stake_keeps; [|exact H1']. apply keeps_MigrateDistribution; intros x y Hx; exact Hx. }
  assert (stake (store s') = stake (store s2)) as ->.
  { eapply stake_keeps; [|exact Hrun]. keeps_own. }
  rewrite <- E1 in Hfew |- *. by eapply MigrateStaking_taken.
Qed.

(** C12. The stake follows the account: after the migration of an account with fewer than
    65535 positions, the legacy address has no delegation, unbonding delegation or
    redelegation left, each of them is at the new address with the same shares or
    entries, and no other delegator is affected.  A position that the new address already
    had in the same slot, with the same validator, is overwritten. *)
Theorem stake_moved ctx m s s' :
  (∀ l, AccAddressFromBech32 (cl_LegacyAddress m) = Some l → few l (stake (store s))) →
  ClaimLegacyAccount ctx m s = (Ok tt, s') →
  ∃ l n, AccAddressFromBech32 (cl_LegacyAddress m) = Some l ∧ AccAddressFromBech32 (cl_NewAddress m) = Some n ∧
    (∀ k, stake (store s') l k = None) ∧
    (∀ k p, stake (store s) l k = Some p → stake (store s') n k = Some p) ∧
    (∀ k, stake (store s) l k = None → stake (store s') n k = stake (store s) n k) ∧
    (∀ b k, b ≠ l → b ≠ n → stake (store s') b k = stake (store s) b k).
Proof.
  intros Hfew Hrun. destruct (claim_admitted _ _ _ _ Hrun) as (l & n & p & s1 & Ha & Hm & Hf).
  assert (stake (store s') = stake (store s1)) as -> by (by injection Hf as <-). destruct Ha as [Hl Hn _ _ _ _ Hne _ _ _ _ _ _ _ _].
  assert (is_address n) as Hna by by eexists.
  pose proof (migrateAccount_stake _ _ _ _ _ _ Hne Hna (Hfew _ Hl) Hm) as Ht. exists l, n. split_and!; [done..| | | |].
  - intros k. rewrite Ht. unfold taken. by rewrite decide_True.
  - intros k q Hq. rewrite Ht. unfold taken. by rewrite decide_False, decide_True, Hq.
  - intros k Hk. rewrite Ht. unfold taken. by rewrite decide_False, decide_True, Hk.
  - intros b k Hbl Hbn. rewrite Ht. unfold taken. by rewrite !decide_False.
Qed.
End Stake.
