(* ===== verification/EvRefs.v ===== *)
(** * x/evmigration: the references to a migrated account

    The actions it created or finalized and the supernode it runs name the new address
    after the migration, and both modules keep their invariants. *)
From Stdlib Require Import ZArith Lia.
From stdpp Require Import base numbers strings list gmap.
From S2P Require Import Prelude Sdk Bank GoTime SupernodeTypes Supernode RegistryClients SupernodeMsg SupernodeInv ActionTypes ActionStore.
From S2P Require Import ActionKeeper ActionIndex ActionInv Reward EvProof EvKeepers EvMigrate EvValidator EvThm EvRun EvStake.
Open Scope Z_scope.

(** ** What it means that a reference follows

    A text that was the legacy address is the new one, every other text is as it was;
    the rest of a record does not change. *)
Record text_follows (l n x y : string) : Prop := {
  tf_legacy : x = l → y = n;
  tf_other : x ≠ l → y = x
}.
Record action_follows (l n : string) (a a' : Action) : Prop := {
  af_creator : text_follows l n (a_Creator a) (a_Creator a');
  af_supernodes : Forall2 (text_follows l n) (a_SuperNodes a) (a_SuperNodes a');
  af_id : a_ActionID a' = a_ActionID a;
  af_type : a_ActionType a' = a_ActionType a;
  af_metadata : a_Metadata a' = a_Metadata a;
  af_price : a_Price a' = a_Price a;
  af_expiration : a_ExpirationTime a' = a_ExpirationTime a;
  af_state : a_State a' = a_State a;
  af_height : a_BlockHeight a' = a_BlockHeight a;
  af_size : a_FileSizeKbs a' = a_FileSizeKbs a;
  af_pubkey : a_AppPubkey a' = a_AppPubkey a
}.
(** The account of a supernode, with its history, to which the migration adds an entry *)
Record account_follows (height : Z) (l n : string) (sn sn' : SuperNode) : Prop := {
  xf_legacy : SupernodeAccount sn = l →
    SupernodeAccount sn' = n ∧
    ∃ history, PrevSupernodeAccounts sn' = history ++ [AccountHistory n height] ∧
      Forall2 (λ x y, text_follows l n (ah_Account x) (ah_Account y) ∧ ah_Height y = ah_Height x)
        (PrevSupernodeAccounts sn) history;
  xf_other : SupernodeAccount sn ≠ l →
    SupernodeAccount sn' = SupernodeAccount sn ∧ PrevSupernodeAccounts sn' = PrevSupernodeAccounts sn;
  xf_states : States sn' = States sn;
  xf_ips : PrevIpAddresses sn' = PrevIpAddresses sn;
  xf_note : Note sn' = Note sn;
  xf_metrics : AggregateMetrics sn' = AggregateMetrics sn;
  xf_port : P2PPort sn' = P2PPort sn
}.
(** The evidence against a validator that migrates *)
Record evidence_follows (l n : string) (e e' : Evidence) : Prop := {
  ef_validator : text_follows l n (ev_ValidatorAddress e) (ev_ValidatorAddress e');
  ef_same : ev_ReporterAddress e' = ev_ReporterAddress e ∧ ev_ActionId e' = ev_ActionId e ∧
    ev_EvidenceType e' = ev_EvidenceType e ∧ ev_Description e' = ev_Description e ∧
    ev_Severity e' = ev_Severity e ∧ ev_Height e' = ev_Height e
}.
(** An account migrates: its supernode stays with its validator. *)
Definition registry_follows (height : Z) (l n : string) (m m' : gmap bytes SuperNode) : Prop :=
  ∀ v, option_Forall2 (λ sn sn', account_follows height l n sn sn' ∧
         ValidatorAddress sn' = ValidatorAddress sn ∧ EvidenceList sn' = EvidenceList sn) (m !! v) (m' !! v).
(** The validator [l] migrates to [n]: its supernode is registered under [n]. *)
Definition registry_rekeyed (height : Z) (lv nv la na : string) (l n : bytes) (m m' : gmap bytes SuperNode) : Prop :=
  (∀ v, v ≠ l → v ≠ n → m' !! v = m !! v) ∧
  match m !! l with
  | None => m' = m
  | Some sn => m' !! l = None ∧ ∃ sn', m' !! n = Some sn' ∧ account_follows height la na sn sn' ∧
      ValidatorAddress sn' = nv ∧ Forall2 (evidence_follows lv nv) (EvidenceList sn) (EvidenceList sn')
  end.

(** ** Renaming *)
Lemma renamed_follows l n x : text_follows l n x (renamed_text l n x).
Proof. unfold renamed_text. by case_bool_decide; split. Qed.
Lemma rename_action_follows l n a : action_follows l n a (rename_action l n a).
Proof.
  split; try done; [apply renamed_follows|]. cbn. apply Forall2_fmap_r, Forall_Forall2_diag, Forall_true.
  intros x. apply renamed_follows.
Qed.
Lemma migrate_account_follows height l n sn :
  SupernodeAccount sn = l → account_follows height l n sn (migrate_record_account height l n sn).
Proof.
  intros Hacc. split; try done. intros _. split; [done|]. eexists. split; [done|].
  apply Forall2_fmap_r, Forall_Forall2_diag, Forall_true. intros x. split; [apply renamed_follows|done].
Qed.
Lemma same_account_follows height l n sn : SupernodeAccount sn ≠ l → account_follows height l n sn sn.
Proof. intros Hne. by split. Qed.
Lemma rekey_follows height lv nv la na sn :
  let sn' := rekey_supernode height lv nv la na sn in
  account_follows height la na sn sn' ∧ ValidatorAddress sn' = nv ∧
  Forall2 (evidence_follows lv nv) (EvidenceList sn) (EvidenceList sn').
Proof.
  assert (Forall2 (evidence_follows lv nv) (EvidenceList sn) (rename_evidence lv nv <$> EvidenceList sn)) as Hev.
  { apply Forall2_fmap_r, Forall_Forall2_diag, Forall_true. intros x. split; [apply renamed_follows|done]. }
  unfold rekey_supernode. case_bool_decide as Hacc; [|by split_and!].
  split; [|done]. by destruct (migrate_account_follows height la na
    (with_ValidatorAddress sn nv (rename_evidence lv nv <$> EvidenceList sn)) Hacc).
Qed.
Lemma renamed_text_other l n x : x ≠ l → renamed_text l n x = x.
Proof. intros Hx. unfold renamed_text. by rewrite bool_decide_false. Qed.
Lemma rename_action_id l n a : a_Creator a ≠ l → l ∉ a_SuperNodes a → rename_action l n a = a.
Proof.
  intros Hc Hs. unfold rename_action. rewrite renamed_text_other by done.
  assert (renamed_text l n <$> a_SuperNodes a = a_SuperNodes a) as ->; [|by destruct a].
  rewrite <- (list_fmap_id (a_SuperNodes a)) at 2. apply list_fmap_ext. intros i x Hx.
  cbn. apply renamed_text_other. intros ->. by eapply Hs, list_elem_of_lookup_2.
Qed.
Lemma dedupe_spec seen l :
  (∀ a, a ∈ dedupe_actions seen l → a ∈ l ∧ a_ActionID a ∉ seen) ∧ NoDup (a_ActionID <$> dedupe_actions seen l) ∧
  (∀ a, a ∈ l → a_ActionID a ∉ seen → a_ActionID a ∈ a_ActionID <$> dedupe_actions seen l).
Proof.
  revert seen. induction l as [|b l IH]; intros seen; cbn.
  { split_and!; [by intros a Ha%not_elem_of_nil|constructor|by intros a Ha%not_elem_of_nil]. }
  case_bool_decide as Hb.
  - destruct (IH seen) as (H1 & H2 & H3). split_and!; [|done|].
    + intros a [? ?]%H1. by split; [right|].
    + intros a [->|Ha]%elem_of_cons Hs; [done|auto].
  - destruct (IH (a_ActionID b :: seen)) as (H1 & H2 & H3). split_and!.
    + intros a [->|Ha]%elem_of_cons; [by split; [left|]|]. apply H1 in Ha as [? Hn].
      split; [by right|]. intros Hs. apply Hn. by right.
    + cbn. apply NoDup_cons. split; [|done]. intros (a & E & [_ Hn]%H1)%list_elem_of_fmap. apply Hn. rewrite E. by left.
    + intros a Ha Hs. cbn. apply elem_of_cons. destruct (decide (a_ActionID a = a_ActionID b)) as [|Hne]; [by left|right].
      apply elem_of_cons in Ha as [->|Ha]; [done|]. apply H3; [done|]. by intros [?|?]%elem_of_cons.
Qed.

(** The address of an account prints as that of an operator, and decodes again. *)
Class OperatorText `{SdkAddress} : Prop := {
  operator_roundtrip s a : AccAddressFromBech32 s = Some a → ValAddressFromBech32 (ValAddress_String a) = Some a
}.

Section Refs.
Context `{MigrationKeys} `{AccAddressText} `{SdkAddress}.
Context `{Hd : LegacyDecOps} `{!DecFractions} `{Hb : BankKeeper} `{!AuditKeeper} `{!PayoutBank}.
Context `{Hat : AccTypes} `{!AccOps} `{!Auth} `{!CoinSender}.
Context `{Hst : !StakingTypes} `{!StakingStore} `{!ValidatorStore}.
Context `{!Distribution} `{!ValidatorDistribution} `{Hz : Authz} `{!Feegrant}.
Context `{!CoinParser} `{!LegacyDecLaws} `{!AccTextLaws} `{!OperatorText}.

(** ** Actions *)
Lemma action_ok_renamed l n count id a :
  is_address n → n ≠ ModuleAccountAddress →
  action_ok count id a → action_ok count id (rename_action l (AccAddress_String n) a).
Proof.
  intros [text Hn] Hne (Hid & Hnum & Hlife & Hprice & Hcr & Hty). split_and!; try done.
  - unfold life_ok in *. cbn. destruct Hlife as [[? ->]|[[? ->]|[? [sn ->]]]]; eauto 10.
  - cbn. unfold renamed_text. case_bool_decide; [|done]. exists n. split; [by eapply acc_roundtrip|done].
Qed.

(** The loop over distinct stored actions *)
Lemma set_actions_run l n (L : list Action) (s : st mig_store) :
  is_address n → n ≠ ModuleAccountAddress → store_ok (mg_act (store s)) →
  NoDup (a_ActionID <$> L) → (∀ a, a ∈ L → act_actions (mg_act (store s)) !! a_ActionID a = Some a) →
  ∃ s' : st mig_store,
    for_each (λ action, zoom mg_act put_act (SetAction (rename_action l (AccAddress_String n) action))) L s = (Ok tt, s') ∧
    store_ok (mg_act (store s')) ∧ act_bank (mg_act (store s')) = act_bank (mg_act (store s)) ∧
    act_sn (mg_act (store s')) = act_sn (mg_act (store s)) ∧
    ∀ id, act_actions (mg_act (store s')) !! id =
      (λ a, if decide (id ∈ a_ActionID <$> L) then rename_action l (AccAddress_String n) a else a)
        <$> act_actions (mg_act (store s)) !! id.
Proof.
  intros Hna Hne. revert s. induction L as [|a L IH]; intros s Hok Hnd Hstored.
  { exists s. split_and!; try done. intros id. destruct (act_actions _ !! id); [|done]. cbn.
    rewrite decide_False; [done|]. apply not_elem_of_nil. }
  cbn in Hnd. apply NoDup_cons in Hnd as [Hfresh Hnd].
  assert (act_actions (mg_act (store s)) !! a_ActionID a = Some a) as Ha by (apply Hstored; left).
  set (a' := rename_action l (AccAddress_String n) a).
  set (s1 := St (put_act (put_action a' (mg_act (store s))) (store s)) (events s)).
  destruct (IH s1) as (s' & Hrun & Hok' & Hbk & Hsn & Hlk).
  - cbn. apply put_action_ok; [done|]. apply action_ok_renamed; [done..|]. by apply Hok.
  - done.
  - intros b Hin. cbn. rewrite put_action_actions, lookup_insert_ne; [apply Hstored; by right|].
    intros E. apply Hfresh. cbn in E. rewrite E. by apply list_elem_of_fmap_2.
  - exists s'. cbn in Hbk, Hsn, Hlk. rewrite put_action_bank in Hbk. rewrite put_action_sn in Hsn.
    split_and!; try done.
    + cbn [for_each]. erewrite bind_ok; [exact Hrun|]. unfold zoom. by rewrite SetAction_run.
    + intros id. rewrite Hlk, put_action_actions. cbn. destruct (decide (id = a_ActionID a)) as [->|Hid].
      * rewrite lookup_insert_eq, Ha. cbn. by rewrite (decide_False _ _ Hfresh), decide_True by by left.
      * rewrite lookup_insert_ne by done. destruct (act_actions _ !! id) as [b|]; [|done]. cbn. f_equal.
        destruct (decide (id ∈ a_ActionID <$> L)) as [Hin|Hin].
        { by rewrite decide_True by by right. }
        rewrite decide_False; [done|]. by intros [?|?]%elem_of_cons.
Qed.

Lemma MigrateActions_run l n (s : st mig_store) :
  is_address n → n ≠ ModuleAccountAddress → store_ok (mg_act (store s)) →
  ∃ s' : st mig_store, MigrateActions l n s = (Ok tt, s') ∧ store_ok (mg_act (store s')) ∧
    act_bank (mg_act (store s')) = act_bank (mg_act (store s)) ∧ act_sn (mg_act (store s')) = act_sn (mg_act (store s)) ∧
    act_actions (mg_act (store s')) =
      rename_action (AccAddress_String l) (AccAddress_String n) <$> act_actions (mg_act (store s)).
Proof.
  intros Hna Hne Hok. unfold MigrateActions. rewrite !bind_gets.
  set (ls := AccAddress_String l). set (L := GetActionsByCreator ls _ ++ _).
  pose proof (store_ok_ids _ Hok) as Hids. destruct (Hok) as (_ & Hact & (_ & Hcr & _ & _ & Hsn) & _).
  assert (∀ a, a ∈ L ↔ ∃ id, act_actions (mg_act (store s)) !! id = Some a ∧ (ls = a_Creator a ∨ ls ∈ a_SuperNodes a)) as HL.
  { intros a. unfold L. rewrite elem_of_app. unfold GetActionsByCreator, GetActionsBySuperNode.
    rewrite (elem_of_index_read _ _ _ _ _ Hids Hcr), (elem_of_index_read _ _ _ _ _ Hids Hsn).
    setoid_rewrite list_elem_of_singleton. naive_solver. }
  destruct (dedupe_spec [] L) as (Hin & Hnd & Hall).
  destruct (set_actions_run ls n (dedupe_actions [] L) s Hna Hne Hok Hnd) as (s' & Hrun & Hok' & Hbk & Hsn' & Hlk).
  { intros a [Ha _]%Hin. apply HL in Ha as (id & Hid & _). by destruct (Hact _ _ Hid) as [-> _]. }
  exists s'. split_and!; try done. apply map_eq. intros id. rewrite Hlk, lookup_fmap.
  destruct (act_actions (mg_act (store s)) !! id) as [a|] eqn:Ha; [|done]. cbn. f_equal.
  destruct (Hact _ _ Ha) as [Hid _]. case_decide as Hd'; [done|]. symmetry.
  assert (a ∉ L) as Hnot.
  { intros HaL. apply Hd'. rewrite <- Hid. by apply Hall; [|apply not_elem_of_nil]. }
  rewrite HL in Hnot. apply rename_action_id; [intros E|intros E]; apply Hnot; eauto.
Qed.

(** ** The supernode of the account *)
Definition rename_supernode (height : Z) (l n : string) (sn : SuperNode) : SuperNode :=
  if bool_decide (SupernodeAccount sn = l) then migrate_record_account height l n sn else sn.
Definition sn_of (s : st mig_store) : sn_store := act_sn (mg_act (store s)).

Lemma with_defaults_same sn sn' :
  Note sn' = Note sn → P2PPort sn' = P2PPort sn → with_defaults sn = sn → with_defaults sn' = sn'.
Proof.
  unfold with_defaults, with_Note, with_P2PPort. destruct sn, sn'. cbn. intros -> ->. repeat case_decide; cbn in *; congruence.
Qed.
Lemma valid_defaults sn : SuperNode_Validate sn = Ok sn → with_defaults sn = sn.
Proof. by intros [_ <-]%SuperNode_Validate_Ok. Qed.

(** The one record with an account *)
Lemma by_account_Some a (s : sn_store) sn :
  sn_inv s → GetSuperNodeByAccount a s = Some sn →
  ∃ v, sn_records s !! v = Some sn ∧ SupernodeAccount sn = a ∧
    ∀ w sn', sn_records s !! w = Some sn' → SupernodeAccount sn' = a → w = v.
Proof.
  intros [_ Hi] Hg. unfold GetSuperNodeByAccount, QuerySuperNode in Hg.
  destruct (sn_accounts s !! a) as [v|] eqn:Hv; [|done]. destruct (sn_records s !! v) as [sn0|] eqn:Hs; [|done].
  case_decide as Ha; simplify_eq. exists v. split_and!; [done..|]. intros w sn' Hw Ha.
  assert (sn_accounts s !! SupernodeAccount sn = Some w) by (apply Hi; eauto). congruence.
Qed.
Lemma by_account_None a (s : sn_store) v sn :
  sn_inv s → GetSuperNodeByAccount a s = None → sn_records s !! v = Some sn → SupernodeAccount sn ≠ a.
Proof.
  intros [_ Hi] Hg Hv <-. unfold GetSuperNodeByAccount, QuerySuperNode in Hg.
  assert (sn_accounts s !! SupernodeAccount sn = Some v) as E by (apply Hi; eauto).
  by rewrite E, Hv, decide_True in Hg.
Qed.

Lemma SetSuperNode_inv sn (s s' : st sn_store) :
  SetSuperNode sn s = (Ok tt, s') →
  ∃ v sn', SuperNode_Validate sn = Ok sn' ∧ writable v sn' (store s) ∧ s' = St (put_sn v sn' (store s)) (events s).
Proof.
  intros E. pose proof (wp_SetSuperNode sn s (λ r t, r = Ok tt →
    ∃ v sn', SuperNode_Validate sn = Ok sn' ∧ writable v sn' (store s) ∧ t = St (put_sn v sn' (store s)) (events s))) as Hw.
  unfold wp in Hw. rewrite E in Hw. apply Hw; [done| |done]. eauto 10.
Qed.
Lemma zoom_inv {S T A} (get : S → T) put (m : M T A) (s s' : st S) a :
  zoom get put m s = (Ok a, s') →
  ∃ t, m (St (get (store s)) (events s)) = (Ok a, t) ∧ s' = St (put (store t) (store s)) (events t).
Proof. unfold zoom. destruct (m _) as [r t]. intros [= -> <-]. eauto. Qed.

Lemma migrate_account_refs height l n (s s' : st sn_store) :
  sn_inv (store s) → migrate_supernode_account height l n s = (Ok tt, s') →
  sn_inv (store s') ∧ sn_params (store s') = sn_params (store s) ∧
  sn_records (store s') = rename_supernode height l n <$> sn_records (store s).
Proof.
  intros Hinv Hrun. unfold migrate_supernode_account in Hrun. rewrite bind_gets in Hrun.
  destruct (GetSuperNodeByAccount _ _) as [sn|] eqn:Hg.
  - destruct (by_account_Some _ _ _ Hinv Hg) as (v & Hv & Hacc & Huniq). destruct (proj1 Hinv _ _ Hv) as [Hval Hva].
    apply SetSuperNode_inv in Hrun as (w & sn' & Hv' & Hw & ->).
    apply SuperNode_Validate_Ok in Hv' as [_ Hsn'].
    rewrite (with_defaults_same sn) in Hsn'; [|done|done|by apply valid_defaults]. subst sn'.
    assert (w = v) as -> by (destruct Hw as (_ & Hw & _); cbn in Hw; congruence).
    cbn [store]. split; [by apply put_sn_inv|]. split; [done|]. rewrite put_sn_records.
    apply map_eq. intros u. rewrite lookup_fmap. unfold rename_supernode. destruct (decide (u = v)) as [->|Hu].
    + rewrite lookup_insert_eq, Hv. cbn. by rewrite bool_decide_true.
    + rewrite lookup_insert_ne by done. destruct (sn_records (store s) !! u) as [x|] eqn:Hx; [|done]. cbn.
      rewrite bool_decide_false; [done|]. intros E. eauto.
  - injection Hrun as <-. split_and!; try done. apply map_eq. intros u. rewrite lookup_fmap.
    destruct (sn_records (store s) !! u) as [x|] eqn:Hx; [|done]. cbn.
    unfold rename_supernode. rewrite bool_decide_false; [done|]. by eapply by_account_None.
Qed.
Lemma renamed_registry_follows (height : Z) (l n : string) (m : gmap bytes SuperNode) :
  registry_follows height l n m (rename_supernode height l n <$> m).
Proof.
  intros v. rewrite lookup_fmap. destruct (m !! v) as [sn|]; [|constructor]. cbn. constructor.
  unfold rename_supernode. case_bool_decide; [|by split; [apply same_account_follows|]].
  split; [by apply migrate_account_follows|done].
Qed.
Lemma MigrateSupernode_refs ctx l n (s s' : st mig_store) :
  sn_inv (sn_of s) → MigrateSupernode ctx l n s = (Ok tt, s') →
  ∃ t, store s' = put_sn_store t (store s) ∧ sn_inv t ∧ sn_params t = sn_params (sn_of s) ∧
    registry_follows (mc_BlockHeight ctx) (AccAddress_String l) (AccAddress_String n)
      (sn_records (sn_of s)) (sn_records t).
Proof.
  intros Hinv (t & Ht & ->)%zoom_inv. exists (store t). split; [done|].
  apply migrate_account_refs in Ht as (Ht & Hp & Hr); [|done]. split_and!; [done..|].
  rewrite Hr. apply renamed_registry_follows.
Qed.

(** ** The supernode of a validator *)
Lemma DeleteSuperNode_run v sn (s : st sn_store) :
  sn_inv (store s) → sn_records (store s) !! v = Some sn →
  DeleteSuperNode v s = (Ok tt, St (del_sn v sn (store s)) (events s)).
Proof.
  intros [Hr _] Hv. destruct (Hr _ _ Hv) as [Hval _]. apply Validate_account_nonempty in Hval.
  unfold DeleteSuperNode. rewrite bind_gets. unfold QuerySuperNode. rewrite Hv, decide_False by done. done.
Qed.
Lemma rekey_defaults height lv nv la na sn : with_defaults sn = sn →
  with_defaults (rekey_supernode height lv nv la na sn) = rekey_supernode height lv nv la na sn.
Proof. apply with_defaults_same; unfold rekey_supernode; by case_bool_decide. Qed.

(** The metrics are apart from the records and the index. *)
Lemma migrate_metrics_run l nv (s s' : st sn_store) (m : option SupernodeMetricsState) :
  match m with
  | Some m => (_ ← SetMetricsState (with_metrics_address nv m); DeleteMetricsState l)
  | None => mret tt
  end s = (Ok tt, s') →
  ∃ mm, store s' = set_metrics (λ _, mm) (store s).
Proof.
  destruct m as [m|].
  - intros ([] & s1 & Ht & H2')%bind_inv. apply bind_option_inv in Ht as (v & _ & [= <-]).
    injection H2' as <-. by eexists.
  - intros [= <-]. exists (sn_metrics (store s)). by destruct (store s).
Qed.
Lemma migrate_validator_refs height l n nv lv la na (s s' : st sn_store) :
  l ≠ n → ValAddressFromBech32 nv = Some n → sn_inv (store s) →
  migrate_supernode_validator height l lv nv la na s = (Ok tt, s') →
  sn_inv (store s') ∧ sn_params (store s') = sn_params (store s) ∧
  registry_rekeyed height lv nv la na l n (sn_records (store s)) (sn_records (store s')).
Proof.
  intros Hne Hn Hinv Hrun. unfold migrate_supernode_validator in Hrun. rewrite bind_gets in Hrun.
  unfold QuerySuperNode, registry_rekeyed in *. destruct (sn_records (store s) !! l) as [sn|] eqn:Hsn.
  2:{ by injection Hrun as <-. }
  destruct (proj1 Hinv _ _ Hsn) as [Hval _]. rewrite (bind_ok _ _ _ _ _ (DeleteSuperNode_run l sn s Hinv Hsn)) in Hrun.
  rewrite bind_gets in Hrun. apply bind_inv in Hrun as ([] & s2 & H2' & Ht3). apply migrate_metrics_run in H2' as [mm Hs2].
  destruct (rekey_follows height lv nv la na sn) as (Hf & Hva & Hev).
  apply SetSuperNode_inv in Ht3 as (w & sn' & Hv' & Hw & ->). apply SuperNode_Validate_Ok in Hv' as [_ ->].
  rewrite rekey_defaults in * by by apply valid_defaults. rewrite Hs2 in *. cbn [store] in *.
  assert (w = n) as -> by (destruct Hw as (_ & Hw & _); rewrite Hva in Hw; congruence).
  split; [apply put_sn_inv; [done|]; by apply (del_sn_inv l sn (store s))|]. split; [done|].
  rewrite put_sn_records. cbn. split_and!.
  - intros v Hvl Hvn. by rewrite lookup_insert_ne, lookup_delete_ne by done.
  - by rewrite lookup_insert_ne, lookup_delete_eq by done.
  - rewrite lookup_insert_eq. eauto 10.
Qed.
Lemma MigrateValidatorSupernode_refs ctx l n (s s' : st mig_store) :
  l ≠ n → is_address n → sn_inv (sn_of s) → MigrateValidatorSupernode ctx l n l n s = (Ok tt, s') →
  ∃ t, store s' = put_sn_store t (store s) ∧ sn_inv t ∧ sn_params t = sn_params (sn_of s) ∧
    registry_rekeyed (mc_BlockHeight ctx) (ValAddress_String l) (ValAddress_String n)
      (AccAddress_String l) (AccAddress_String n) l n (sn_records (sn_of s)) (sn_records t).
Proof.
  intros Hne [text Hn] Hinv (t & Ht & ->)%zoom_inv. exists (store t). split; [done|].
  by apply (migrate_validator_refs _ _ n) in Ht; [|done|by eapply operator_roundtrip|].
Qed.

(** ** A whole migration *)
Lemma run_keeps {S A} (I : S → Prop) (m : M S A) (s s' : st S) a :
  keeps I m → m s = (Ok a, s') → I (store s) → I (store s').
Proof. intros Hk E Hs. specialize (Hk s Hs). by rewrite E in Hk. Qed.
(** The actions and the supernodes are as in [a]; the bank may have changed. *)
Definition upto_bank (a : act_store) (x : mig_store) : Prop := ∃ b, mg_act x = set_bank b a.
Lemma upto_bank_refl x : upto_bank (mg_act x) x.
Proof. exists (act_bank (mg_act x)). by destruct (mg_act x). Qed.
Lemma upto_bank_frame a x b : upto_bank a x → upto_bank a (put_mbank b x).
Proof. intros [b' E]. exists b. cbn. by rewrite E. Qed.
Lemma upto_bank_ok a x : upto_bank a x → store_ok a → store_ok (mg_act x).
Proof. intros [b ->] Hok. by apply store_ok_bank. Qed.
Lemma upto_bank_parts a x : upto_bank a x → act_actions (mg_act x) = act_actions a ∧ act_sn (mg_act x) = act_sn a.
Proof. by intros [b ->]. Qed.
Ltac keeps_upto_bank :=
  keeps_migration; let t := fresh in let y := fresh in let Ht := fresh in
  intros t y Ht; first [exact Ht | by apply upto_bank_frame].

(** The next command of the run [Hrun] keeps [J]. *)
Ltac upto_step J Hrun :=
  let a := fresh "a" in let s1 := fresh "s" in let E := fresh "E" in let J1 := fresh "J" in
  apply bind_inv in Hrun as (a & s1 & E & Hrun);
  assert (J (store s1)) as J1 by (eapply (run_keeps J); [|exact E|done]; keeps_upto_bank).

Lemma store_ok_sn (t : sn_store) (x : mig_store) :
  store_ok (mg_act x) → sn_params t = sn_params (act_sn (mg_act x)) → store_ok (mg_act (put_sn_store t x)).
Proof.
  intros (Hc & Ha & Hi & Hp1 & Hp2) E. split; [done|]. split; [done|]. split; [done|]. split; [done|].
  unfold GetRegistrationFeeShareBps in *. cbn. by rewrite E.
Qed.

(** What became of the actions and of the supernodes *)
Definition actions_follow (l n : string) (m m' : gmap string Action) : Prop :=
  ∀ id, option_Forall2 (action_follows l n) (m !! id) (m' !! id).
Lemma actions_follow_lookup l n m m' id a :
  actions_follow l n m m' → m !! id = Some a → ∃ a', m' !! id = Some a' ∧ action_follows l n a a'.
Proof. intros Hf Ha. specialize (Hf id). rewrite Ha in Hf. inversion Hf. eauto. Qed.
Lemma registry_follows_lookup height l n m m' v sn :
  registry_follows height l n m m' → m !! v = Some sn → ∃ sn', m' !! v = Some sn' ∧ account_follows height l n sn sn'.
Proof. intros Hf Ha. specialize (Hf v). rewrite Ha in Hf. inversion Hf. naive_solver. Qed.
Definition referred (R : gmap bytes SuperNode → gmap bytes SuperNode → Prop) (l n : bytes) (a a' : act_store) : Prop :=
  store_ok a' ∧ sn_inv (act_sn a') ∧
  actions_follow (AccAddress_String l) (AccAddress_String n) (act_actions a) (act_actions a') ∧
  R (sn_records (act_sn a)) (sn_records (act_sn a')).
Lemma referred_upto R l n a x y : referred R l n a (mg_act x) → upto_bank (mg_act x) y → referred R l n a (mg_act y).
Proof. intros (H1' & H2' & H3' & H4') [b ->]. split_and!; [by apply store_ok_bank|done..]. Qed.

(** The supernodes change, then the actions. *)
Lemma referred_steps R l n t a (s1 s2 s3 : st mig_store) :
  is_address n → n ≠ ModuleAccountAddress → store_ok a → upto_bank a (store s1) →
  store s2 = put_sn_store t (store s1) → sn_inv t → sn_params t = sn_params (sn_of s1) →
  R (sn_records (sn_of s1)) (sn_records t) → MigrateActions l n s2 = (Ok tt, s3) →
  referred R l n a (mg_act (store s3)).
Proof.
  intros Hna Hne Hok Hup Hs2 Hinv Hpar Hrec Hrun. destruct (upto_bank_parts _ _ Hup) as [Ea Es].
  destruct (MigrateActions_run l n s2) as (s3' & Hrun' & Hok' & _ & Hsn & Hact); [done|done| |].
  { rewrite Hs2. apply store_ok_sn; [by eapply upto_bank_ok|done]. }
  rewrite Hrun in Hrun'. simplify_eq. unfold referred, sn_of in *. rewrite Hsn, Hs2. cbn. rewrite <- Es.
  split_and!; [done|done| |done]. intros id. rewrite Hact, Hs2, lookup_fmap. cbn. rewrite Ea.
  destruct (act_actions a !! id); [|constructor]. cbn. constructor. apply rename_action_follows.
Qed.

Lemma claim_referred ctx l n p (s s' : st mig_store) :
  is_address n → n ≠ ModuleAccountAddress → store_ok (mg_act (store s)) → sn_inv (sn_of s) →
  migrateAccount ctx l n p s = (Ok tt, s') →
  referred (registry_follows (mc_BlockHeight ctx) (AccAddress_String l) (AccAddress_String n)) l n
    (mg_act (store s)) (mg_act (store s')).
Proof.
  intros Hna Hne Hok Hinv Hrun. unfold migrateAccount in Hrun. rewrite bind_gets in Hrun.
  set (J := upto_bank (mg_act (store s))). assert (J (store s)) as J0 by apply upto_bank_refl.
  do 7 upto_step J Hrun. apply bind_inv in Hrun as ([] & x2 & E8 & Hrun).
  match goal with Hj : J (store ?x), _ : MigrateSupernode _ _ _ ?x = _ |- _ =>
    destruct (upto_bank_parts _ _ Hj) as [_ Es] end.
  apply MigrateSupernode_refs in E8 as (t & Hs8 & Hinvt & Hpar & Hrec); [|unfold sn_of; by rewrite Es].
  by eapply referred_steps.
Qed.
Lemma validator_referred ctx l n p records (s s' : st mig_store) :
  l ≠ n → is_address n → n ≠ ModuleAccountAddress → store_ok (mg_act (store s)) → sn_inv (sn_of s) →
  migrate_validator_steps ctx l n p records s = (Ok tt, s') →
  referred (registry_rekeyed (mc_BlockHeight ctx) (ValAddress_String l) (ValAddress_String n)
              (AccAddress_String l) (AccAddress_String n) l n) l n (mg_act (store s)) (mg_act (store s')).
Proof.
  intros Hln Hna Hne Hok Hinv Hrun. destruct records as [[[val ds] us] rs]. unfold migrate_validator_steps in Hrun.
  set (J := upto_bank (mg_act (store s))). assert (J (store s)) as J0 by apply upto_bank_refl.
  do 4 upto_step J Hrun. apply bind_inv in Hrun as ([] & x2 & E5 & Hrun).
  match goal with Hj : J (store ?x), _ : MigrateValidatorSupernode _ _ _ _ _ ?x = _ |- _ =>
    destruct (upto_bank_parts _ _ Hj) as [_ Es] end.
  apply MigrateValidatorSupernode_refs in E5 as (t & Hs5 & Hinvt & Hpar & Hrec); [|done|done|unfold sn_of; by rewrite Es].
  apply bind_inv in Hrun as ([] & x3 & E6 & Hrun). eapply referred_upto; [by eapply referred_steps|].
  eapply (run_keeps (upto_bank (mg_act (store x3)))); [|exact Hrun|apply upto_bank_refl].
  unfold migrateOperatorAccount. keeps_upto_bank.
Qed.

(** The registry after a migration *)
Definition supernodes_follow (ctx : MigCtx) (msg : MigrationMsg) (l n : bytes) : gmap bytes SuperNode → gmap bytes SuperNode → Prop :=
  match msg with
  | MigrationMsg_Claim _ => registry_follows (mc_BlockHeight ctx) (AccAddress_String l) (AccAddress_String n)
  | MigrationMsg_Validator _ =>
      registry_rekeyed (mc_BlockHeight ctx) (ValAddress_String l) (ValAddress_String n)
        (AccAddress_String l) (AccAddress_String n) l n
  end.

(** C17. The references to a migrated address follow it, when the new address is not the
    account of the action module: after a migration there are the same actions, each
    with the new address where its creator or a supernode was the legacy address and
    with every other field as before.  The supernode whose account was the legacy
    address has the new one, also in its history, which gets an entry at the height of
    the migration, and keeps everything else; every other supernode is untouched.  When
    a validator migrates, its supernode is registered under the new operator and no
    longer under the old one, the evidence in it names the new operator, and its account
    changes only if it was the legacy address.  The action store, with its indexes,
    and the registry, with its account index, keep their invariants. *)
Theorem references_follow ctx msg (s s' : st mig_store) :
  (∀ n, AccAddressFromBech32 (msg_newAddress msg) = Some n → n ≠ ModuleAccountAddress) →
  store_ok (mg_act (store s)) → sn_inv (sn_of s) → handle_migration ctx msg s = (Ok tt, s') →
  ∃ l n, AccAddressFromBech32 (msg_legacyAddress msg) = Some l ∧ AccAddressFromBech32 (msg_newAddress msg) = Some n ∧
    store_ok (mg_act (store s')) ∧ sn_inv (sn_of s') ∧
    actions_follow (AccAddress_String l) (AccAddress_String n)
      (act_actions (mg_act (store s))) (act_actions (mg_act (store s'))) ∧
    supernodes_follow ctx msg l n (sn_records (sn_of s)) (sn_records (sn_of s')).
Proof.
  intros Hmod Hok Hinv Hrun. destruct (handle_admitted _ _ _ _ Hrun) as (l & n & p & s1 & Ha & Hm & Hf).
  assert (mg_act (store s') = mg_act (store s1)) as E by (by injection Hf as <-).
  destruct Ha as [Hl Hn _ _ _ _ Hln _ _ _ _ _ _ _ _]. exists l, n. split; [done|]. split; [done|].
  unfold sn_of. rewrite E. assert (is_address n) as Hna by by eexists. destruct msg as [m|m]; cbn in Hm.
  - by apply (claim_referred ctx l n (cl_NewProof m)); auto.
  - destruct Hm as [records Hm]. by eapply validator_referred; auto.
Qed.
End Refs.
