(* ===== verification/EvAccount.v ===== *)
(** * x/evmigration: the account and its coins

    After the migration of an account, the legacy address has no account and no coins;
    the new one has the coins and, if the account was vesting, the same schedule. *)
From Stdlib Require Import ZArith Lia.
From stdpp Require Import base numbers strings list gmap.
From S2P Require Import Prelude Sdk Bank GoTime SupernodeTypes Supernode ActionTypes ActionStore ActionIndex Reward.
From S2P Require Import EvProof EvKeepers EvMigrate EvValidator EvThm EvRun EvStake EvRefs.
Open Scope Z_scope.

(** ** Laws of x/auth and of what the other modules do to accounts *)
Definition is_base `{AccTypes} (acc : Acc) : bool := match acc with ABase _ => true | _ => false end.
(** The amounts and the end of a vesting account *)
Record same_amounts `{AccTypes} (v w : BaseVesting) : Prop := {
  sa_original : bv_OriginalVesting w = bv_OriginalVesting v;
  sa_free : bv_DelegatedFree w = bv_DelegatedFree v;
  sa_vesting : bv_DelegatedVesting w = bv_DelegatedVesting v;
  sa_end : bv_EndTime w = bv_EndTime v
}.
(** A vesting account is replaced by one of its kind, with its amounts and times; any
    other account by a base account. *)
Definition same_schedule `{AccTypes} (acc0 acc : Acc) : Prop :=
  match acc0, acc with
  | AContinuous v start, AContinuous w start' => same_amounts v w ∧ start' = start
  | ADelayed v, ADelayed w => same_amounts v w
  | APeriodic v start periods, APeriodic w start' periods' =>
      same_amounts v w ∧ start' = start ∧ periods' = periods
  | APermanentLocked v, APermanentLocked w => same_amounts v w
  | (ABase _ | AModule _ | AOther _), ABase _ => True
  | _, _ => False
  end.
Lemma same_info_schedule `{AccTypes} acc0 acc :
  vesting_info acc = vesting_info acc0 → (vesting_info acc0 = None → is_base acc = true) → same_schedule acc0 acc.
Proof.
  destruct acc0, acc; cbn; intros E Hb; try done; try (by specialize (Hb eq_refl));
    injection E; intros; subst; by repeat split.
Qed.
(** Accounts that are there stay as they are, and none appears at [c]. *)
Definition accounts_kept `{Auth} (c : bytes → Prop) (a a' : auth) : Prop :=
  (∀ b acc, auth_GetAccount a b = Some acc → auth_GetAccount a' b = Some acc) ∧
  (∀ b, c b → auth_GetAccount a b = None → auth_GetAccount a' b = None).

Class AccLaws `{Hat : AccTypes} `{!AccOps} `{!Auth} := {
  acc_Address : Acc → bytes;
  base_Address : BaseAcc → bytes;
  address_base b : acc_Address (ABase b) = base_Address b;
  address_continuous v t : acc_Address (AContinuous v t) = base_Address (bv_Base v);
  address_delayed v : acc_Address (ADelayed v) = base_Address (bv_Base v);
  address_periodic v t p : acc_Address (APeriodic v t p) = base_Address (bv_Base v);
  address_locked v : acc_Address (APermanentLocked v) = base_Address (bv_Base v);
  (** an account is stored under its address *)
  get_address a b acc : auth_GetAccount a b = Some acc → acc_Address acc = b;
  get_set acc a b : auth_GetAccount (auth_SetAccount acc a) b =
    if decide (b = acc_Address acc) then Some acc else auth_GetAccount a b;
  get_remove acc a b : auth_GetAccount (auth_RemoveAccount acc a) b =
    if decide (b = acc_Address acc) then None else auth_GetAccount a b;
  (** a new account is a base account that is not stored yet *)
  new_account b a : acc_Address (auth_NewAccountWithAddress b a).1 = b ∧
    is_base (auth_NewAccountWithAddress b a).1 = true ∧
    ∀ c, auth_GetAccount (auth_NewAccountWithAddress b a).2 c = auth_GetAccount a c;
  set_pubkey k ks acc acc' : acc_SetPubKey k ks acc = Ok acc' →
    acc_Address acc' = acc_Address acc ∧ is_base acc' = is_base acc;
  new_base_vesting b cs t v : vest_NewBase b cs t = Ok v →
    bv_Base v = b ∧ bv_OriginalVesting v = cs ∧ bv_EndTime v = t;
  new_locked b cs v : vest_NewPermanentLocked b cs = Ok v →
    bv_Base v = b ∧ bv_OriginalVesting v = cs ∧ bv_EndTime v = 0
}.
(** A permanently locked account has no end. *)
Definition end_valid `{AccTypes} (acc : Acc) : Prop :=
  match acc with APermanentLocked v => bv_EndTime v = 0 | _ => True end.
Class CoinLaws `{Hb : BankKeeper} `{!PayoutBank} `{Hat : AccTypes} `{!Auth} `{!CoinSender} : Prop := {
  all_balances b a d : AmountOf (GetAllBalances b a) d = GetBalance b a d;
  send_coins from to cs b a b' a' : SendCoins from to cs (b, a) = (Ok tt, (b', a')) → moved from to cs b b';
  send_accounts from to cs b a : accounts_kept (λ c, c ≠ to) a (SendCoins from to cs (b, a)).2.2
}.
Class OtherModulesLaws `{Hd : LegacyDecOps} `{Hb : BankKeeper} `{Hat : AccTypes} `{!Auth} `{Hst : !StakingTypes}
    `{!StakingStore} `{!Distribution} `{!Feegrant} : Prop := {
  grant_accounts now granter grantee al f a :
    accounts_kept (λ c, c ≠ grantee) a (GrantAllowance now granter grantee al (f, a)).2.2;
  withdraw_accounts st del v d b a : accounts_kept (λ _, False) a (WithdrawDelegationRewards st del v (d, (b, a))).2.2.2
}.

Section Account.
Context `{MigrationKeys} `{AccAddressText} `{SdkAddress}.
Context `{Hd : LegacyDecOps} `{!DecFractions} `{Hb : BankKeeper} `{!AuditKeeper} `{!PayoutBank}.
Context `{Hat : AccTypes} `{!AccOps} `{!Auth} `{!CoinSender}.
Context `{Hst : !StakingTypes} `{!StakingStore} `{!ValidatorStore}.
Context `{!Distribution} `{!ValidatorDistribution} `{Hz : Authz} `{!Feegrant}.
Context `{!AccLaws} `{!CoinLaws} `{!OtherModulesLaws}.
Implicit Types (s : st mig_store).
Definition account (s : mig_store) (b : bytes) : option Acc := auth_GetAccount (mg_auth s) b.
Definition balance (s : mig_store) (b : bytes) (d : string) : Z := GetBalance (act_bank (mg_act s)) b d.

(** *** The rewards leave the accounts alone *)
Lemma keeps_account_rewards st l v b acc :
  keeps (λ x, account x b = Some acc) (on_rewards (WithdrawDelegationRewards st l v)).
Proof.
  unfold on_rewards. apply (keeps_lift_op _ (λ p, auth_GetAccount p.2.2 b = Some acc)); [done| |done].
  intros [d [bk a]] Ha. by apply withdraw_accounts.
Qed.
Lemma keeps_account_MigrateDistribution l b acc : keeps (λ x, account x b = Some acc) (MigrateDistribution l).
Proof.
  unfold MigrateDistribution, redirectWithdrawAddrIfMigrated, ensureDelegatorStartingInfoReferenceCount.
  keeps_steps; auto using keeps_account_rewards; first [apply keeps_on_distr | apply keeps_adjust];
    intros ?t ?y ?Hx; assumption.
Qed.

(** *** MigrateAuth *)
Lemma MigrateAuth_accounts l n p s s' vi :
  l ≠ n → MigrateAuth l n p s = (Ok vi, s') →
  ∃ acc0 acc, account (store s) l = Some acc0 ∧ vi = vesting_info acc0 ∧
    account (store s') l = None ∧ account (store s') n = Some acc ∧ is_base acc = true ∧
    mg_act (store s') = mg_act (store s).
Proof.
  intros Hne Hrun. unfold MigrateAuth in Hrun.
  apply bind_result_inv in Hrun as ([] & _ & Hrun). rewrite bind_gets in Hrun.
  apply bind_result_inv in Hrun as ([] & Hdest & Hrun). apply bind_result_inv in Hrun as (mk & _ & Hrun).
  rewrite bind_gets in Hrun. apply bind_option_inv in Hrun as (acc0 & Hacc0 & Hrun).
  apply bind_ensure_inv in Hrun as [_ Hrun].
  rewrite bind_modify in Hrun. apply bind_inv in Hrun as (acc1 & s2 & E2 & Hrun).
  assert (acc_Address acc1 = n ∧ is_base acc1 = true ∧ mg_act (store s2) = mg_act (store s) ∧
    ∀ c, account (store s2) c = auth_GetAccount (auth_RemoveAccount acc0 (mg_auth (store s))) c) as (Hn1 & Hb1 & Hact & Hget).
  { destruct (auth_GetAccount (mg_auth (store s)) n) as [a|] eqn:Hex.
    - injection E2 as <- <-. split; [by eapply get_address|]. split; [by destruct a|done].
    - destruct (new_account n (auth_RemoveAccount acc0 (mg_auth (store s)))) as (Hna & Hnb & Hnc).
      apply lift_inv in E2 as (a' & E2 & ->). cbn in E2.
      destruct (auth_NewAccountWithAddress _ _) as [x y]. injection E2 as <- <-. done. }
  apply bind_inv in Hrun as (acc2 & s3 & E3 & Hrun).
  assert (s3 = s2 ∧ acc_Address acc2 = n ∧ is_base acc2 = true) as (-> & Hn2 & Hb2).
  { destruct mk as [[k ks]|]; [|by injection E3 as <- <-].
    destruct (acc_SetPubKey k ks acc1) as [acc3|] eqn:Hset; [|done]. injection E3 as <- <-.
    destruct (set_pubkey _ _ _ _ Hset) as [-> ->]. done. }
  injection Hrun as <- <-. pose proof (get_address _ _ _ Hacc0) as Hl.
  exists acc0, acc2. unfold account. cbn. rewrite !get_set, Hn2, decide_False, decide_True by done.
  split_and!; try done. unfold account in Hget. by rewrite Hget, get_remove, decide_True.
Qed.

(** *** MigrateBank *)
Lemma AmountOf_zero cs d : Coins_IsZero cs = true → AmountOf cs d = 0.
Proof.
  induction cs as [|c cs IH]; [done|]. cbn. intros [Hc%Z.eqb_eq Hcs]%andb_true_iff. specialize (IH Hcs). unfold AmountOf in IH. rewrite IH, Hc. by case_decide.
Qed.
Lemma MigrateBank_coins l n s s' :
  l ≠ n → MigrateBank l n s = (Ok tt, s') →
  (∀ d, balance (store s') l d = 0) ∧
  (∀ d, balance (store s') n d = balance (store s) n d + balance (store s) l d) ∧
  (∀ b d, b ≠ l → b ≠ n → balance (store s') b d = balance (store s) b d) ∧
  accounts_kept (λ c, c ≠ n) (mg_auth (store s)) (mg_auth (store s')).
Proof.
  intros Hne Hrun. unfold MigrateBank in Hrun. rewrite bind_gets in Hrun.
  destruct (Coins_IsZero _) eqn:Hz'.
  - injection Hrun as <-. assert (∀ d, balance (store s) l d = 0) as Hl0.
    { intros d. unfold balance. rewrite <- all_balances. by apply AmountOf_zero. }
    split_and!; [done| |done|by split]. intros d. rewrite Hl0. lia.
  - apply lift_inv in Hrun as ([b a] & Hs & ->). cbn in Hs.
    pose proof (send_accounts l n (GetAllBalances (act_bank (mg_act (store s))) l) (act_bank (mg_act (store s)))
      (mg_auth (store s))) as Hacc. rewrite Hs in Hacc. cbn in Hacc.
    apply send_coins in Hs as [_ Hmv]. unfold balance. cbn. split_and!; [..|done].
    + intros d. rewrite Hmv, all_balances, decide_True, decide_False by done. lia.
    + intros d. rewrite Hmv, all_balances, decide_False, decide_True by done. lia.
    + intros c d Hcl Hcn. rewrite Hmv, !decide_False by done. lia.
Qed.

(** *** FinalizeVestingAccount *)
Lemma vesting_account_info b vi acc :
  vesting_account b vi = Ok acc → (vi_Type vi = VestingTypePermanentLocked → vi_EndTime vi = 0) →
  (vi_Type vi = VestingTypeContinuous ∨ vi_Type vi = VestingTypePeriodic ∨ vi_StartTime vi = 0) →
  (vi_Type vi = VestingTypePeriodic ∨ vi_Periods vi = []) →
  acc_Address acc = base_Address b ∧ vesting_info acc = Some vi.
Proof.
  destruct vi as [ty ov df dv et start ps]. unfold vesting_account. cbn. intros Hacc Hend Hstart Hps.
  destruct ty; cbn in *; [destruct (vest_NewBase b ov et) as [v|] eqn:Hv; [|done]; apply new_base_vesting in Hv as (<- & <- & <-)..|];
    [..|destruct (vest_NewPermanentLocked b ov) as [v|] eqn:Hv; [|done]; apply new_locked in Hv as (<- & <- & Hv0)];
    injection Hacc as <-.
  - rewrite address_continuous. split; [done|]. cbn. destruct Hps as [?| ->]; done.
  - rewrite address_delayed. split; [done|]. cbn. destruct Hstart as [?|[?| ->]], Hps as [?| ->]; done.
  - by rewrite address_periodic.
  - rewrite address_locked. split; [done|]. cbn. rewrite Hv0, Hend by done.
    destruct Hstart as [?|[?| ->]], Hps as [?| ->]; done.
Qed.
Lemma vesting_info_wf acc vi :
  vesting_info acc = Some vi →
  (vi_Type vi = VestingTypeContinuous ∨ vi_Type vi = VestingTypePeriodic ∨ vi_StartTime vi = 0) ∧
  (vi_Type vi = VestingTypePeriodic ∨ vi_Periods vi = []) ∧
  (vi_Type vi = VestingTypePermanentLocked → ∃ v, acc = APermanentLocked v ∧ vi_EndTime vi = bv_EndTime v).
Proof. destruct acc; cbn; intros [= <-]; cbn; split_and!; eauto; by intros. Qed.

Lemma FinalizeVestingAccount_info n vi s s' acc acc0 :
  account (store s) n = Some acc → is_base acc = true → end_valid acc0 → vesting_info acc0 = Some vi →
  FinalizeVestingAccount n vi s = (Ok tt, s') →
  ∃ acc', account (store s') n = Some acc' ∧ vesting_info acc' = Some vi ∧
    mg_act (store s') = mg_act (store s) ∧ ∀ c, c ≠ n → account (store s') c = account (store s) c.
Proof.
  intros Hacc Hbase H0' Hvi Hrun. unfold FinalizeVestingAccount in Hrun. rewrite bind_gets in Hrun. fold (account (store s) n) in Hrun.
  rewrite Hacc in Hrun. apply bind_option_inv in Hrun as (x & [= <-] & Hrun). destruct acc as [b| | | | | |]; try done.
  apply bind_result_inv in Hrun as (acc' & Hv & Hrun). injection Hrun as <-.
  destruct (vesting_info_wf _ _ Hvi) as (Hw1 & Hw2 & Hw3).
  apply vesting_account_info in Hv as [Ha Hi]; [| |done..].
  2:{ by intros (v & -> & ->)%Hw3. }
  pose proof (get_address _ _ _ Hacc) as Hn. rewrite address_base in Hn. exists acc'. unfold account. cbn.
  rewrite get_set, decide_True by congruence. split_and!; try done. intros c Hc. rewrite get_set, decide_False; congruence.
Qed.

(** *** The steps that both migrations have *)
Definition settled (l n : bytes) (acc : Acc) (B : bank) (x : mig_store) : Prop :=
  account x l = None ∧ account x n = Some acc ∧ act_bank (mg_act x) = B.
Lemma keeps_settled_grant l n acc B now g al e :
  e ≠ l → keeps (settled l n acc B) (on_feegrant_auth (GrantAllowance now g e al)).
Proof.
  intros He. unfold on_feegrant_auth.
  apply (keeps_lift_op _ (λ p, auth_GetAccount p.2 l = None ∧ auth_GetAccount p.2 n = Some acc)).
  - by intros x (? & ? & ?).
  - intros [f a] [Hl Hn]. destruct (grant_accounts now g e al f a) as [Hkeep Hnone]. cbn in *. auto.
  - intros x [f a] (? & ? & ?) [? ?]. done.
Qed.
Lemma renamed_not l n a : l ≠ n → renamed l n a ≠ l.
Proof. intros Hne. unfold renamed. by case_bool_decide. Qed.
Lemma keeps_settled_MigrateFeegrant ctx l n acc B :
  l ≠ n → keeps (settled l n acc B) (MigrateFeegrant ctx l n).
Proof.
  intros Hne. unfold MigrateFeegrant. keeps_steps; [by apply keeps_settled_grant, renamed_not|].
  apply keeps_on_feegrant. intros t y Ht. exact Ht.
Qed.

Lemma core_moved ctx l n p s s' acc0 :
  l ≠ n → account (store s) l = Some acc0 → end_valid acc0 → migrateOperatorAccount ctx l n p s = (Ok tt, s') →
  ∃ s1 acc, MigrateDistribution l s = (Ok tt, s1) ∧ same_schedule acc0 acc ∧
    settled l n acc (act_bank (mg_act (store s'))) (store s') ∧
    (∀ d, balance (store s') l d = 0) ∧
    (∀ d, balance (store s') n d = balance (store s1) n d + balance (store s1) l d) ∧
    (∀ b d, b ≠ l → b ≠ n → balance (store s') b d = balance (store s1) b d).
Proof.
  intros Hne Hacc0 Hev Hrun. unfold migrateOperatorAccount in Hrun. rewrite bind_gets in Hrun.
  apply bind_inv in Hrun as ([] & s1 & E1 & Hrun). apply bind_inv in Hrun as ([] & s2 & E2 & Hrun).
  apply bind_inv in Hrun as (vi & s3 & E3 & Hrun). apply bind_inv in Hrun as ([] & s4 & E4 & Hrun).
  apply bind_inv in Hrun as ([] & s5 & E5 & Hrun). apply bind_inv in Hrun as ([] & s6 & E6 & E7).
  assert (account (store s1) l = Some acc0) as Ha1
    by (eapply (run_keeps (λ x, account x l = Some acc0)); [apply keeps_account_MigrateDistribution|done|done]).
  assert (mg_auth (store s2) = mg_auth (store s1) ∧ mg_act (store s2) = mg_act (store s1)) as [Hau2 Hac2].
  { eapply (run_keeps (λ x, mg_auth x = mg_auth (store s1) ∧ mg_act x = mg_act (store s1))); [|exact E2|done].
    apply keeps_MigrateStaking; intros t y Ht; exact Ht. }
  destruct (MigrateAuth_accounts _ _ _ _ _ _ Hne E3) as (acc0' & acc & Hacc0' & -> & Hl3 & Hn3 & Hbase & Hac3).
  assert (acc0' = acc0) as -> by (unfold account in *; rewrite Hau2 in Hacc0'; congruence).
  destruct (MigrateBank_coins _ _ _ _ Hne E4) as (Hl0 & Hnd & Hother & Hkeep & Hnone).
  assert (account (store s4) l = None) as Hl4 by (by apply Hnone).
  assert (account (store s4) n = Some acc) as Hn4 by (by apply Hkeep).
  assert (∃ acc', same_schedule acc0 acc' ∧ settled l n acc' (act_bank (mg_act (store s4))) (store s5))
    as (acc' & Hvi & Hset5).
  { destruct (vesting_info acc0) as [vi|] eqn:Hv.
    - destruct (FinalizeVestingAccount_info n vi s4 s5 acc acc0 Hn4 Hbase Hev Hv E5)
        as (acc' & Hn5 & Hvi & Hact & Hc). exists acc'.
      split; [by apply same_info_schedule; rewrite Hv|]. split; [by rewrite Hc|]. by rewrite Hact.
    - injection E5 as <-. exists acc. split; [|done]. apply same_info_schedule; [|done]. rewrite Hv. by destruct acc. }
  assert (settled l n acc' (act_bank (mg_act (store s4))) (store s')) as Hset.
  { set (J := settled l n acc' (act_bank (mg_act (store s4)))) in *.
    eapply (run_keeps J); [by apply keeps_settled_MigrateFeegrant|exact E7|].
    eapply (run_keeps J); [|exact E6|done]. apply keeps_MigrateAuthz. intros t y Ht. exact Ht. }
  exists s1, acc'. split; [done|]. split; [done|]. pose proof Hset as (_ & _ & Hbk). unfold balance in *. rewrite Hbk.
  split; [done|]. rewrite Hac3, Hac2 in *. done.
Qed.

(** The migration of an account runs those steps, then the supernode and the actions. *)
Lemma migrateAccount_core ctx l n p s s' :
  migrateAccount ctx l n p s = (Ok tt, s') →
  ∃ s1 s2, migrateOperatorAccount ctx l n p s = (Ok tt, s1) ∧ MigrateSupernode ctx l n s1 = (Ok tt, s2) ∧
    MigrateActions l n s2 = (Ok tt, s').
Proof.
  unfold migrateAccount, migrateOperatorAccount. rewrite !bind_gets. intros Hrun.
  apply bind_inv in Hrun as ([] & s1 & E1 & Hrun). rewrite (bind_ok _ _ _ _ _ E1).
  apply bind_inv in Hrun as ([] & s2 & E2 & Hrun). rewrite (bind_ok _ _ _ _ _ E2).
  apply bind_inv in Hrun as (vi & s3 & E3 & Hrun). rewrite (bind_ok _ _ _ _ _ E3).
  apply bind_inv in Hrun as ([] & s4 & E4 & Hrun). rewrite (bind_ok _ _ _ _ _ E4).
  apply bind_inv in Hrun as ([] & s5 & E5 & Hrun). rewrite (bind_ok _ _ _ _ _ E5).
  apply bind_inv in Hrun as ([] & s6 & E6 & Hrun). rewrite (bind_ok _ _ _ _ _ E6).
  apply bind_inv in Hrun as ([] & s7 & E7 & Hrun). apply bind_inv in Hrun as ([] & s8 & E8 & Hrun). eauto.
Qed.
Lemma keeps_settled_refs ctx l n acc B :
  keeps (settled l n acc B) (MigrateSupernode ctx l n) ∧ keeps (settled l n acc B) (MigrateActions l n).
Proof.
  split; [apply keeps_MigrateSupernode; intros t y Ht; exact Ht|].
  unfold MigrateActions. keeps_steps.
  apply (keeps_zoom _ (λ a, act_bank a = B)); [by intros ? (? & ? & ?)|by intros ? ? (? & ? & ?)|].
  intros t Ht. by rewrite SetAction_run; cbn; rewrite put_action_bank.
Qed.

(** C16. The account and its coins move: after the migration of an account nothing is stored
    under the legacy address and it holds no coin; the new address has a vesting account
    of the same kind if the legacy one was vesting, with the same original and delegated
    amounts, start, end and periods, and a base account otherwise (a permanently locked
    account is taken to have end time zero, as x/auth creates it); it holds what both
    held once the rewards were paid, to the last coin of every denomination; nobody
    else's balance changes after that. *)
Theorem account_moved ctx m s s' :
  (∀ l acc, AccAddressFromBech32 (cl_LegacyAddress m) = Some l → account (store s) l = Some acc → end_valid acc) →
  ClaimLegacyAccount ctx m s = (Ok tt, s') →
  ∃ l n acc0 acc s1,
    AccAddressFromBech32 (cl_LegacyAddress m) = Some l ∧ AccAddressFromBech32 (cl_NewAddress m) = Some n ∧
    account (store s) l = Some acc0 ∧ account (store s') l = None ∧
    account (store s') n = Some acc ∧ same_schedule acc0 acc ∧
    MigrateDistribution l s = (Ok tt, s1) ∧
    (∀ d, balance (store s') l d = 0) ∧
    (∀ d, balance (store s') n d = balance (store s1) n d + balance (store s1) l d) ∧
    (∀ b d, b ≠ l → b ≠ n → balance (store s') b d = balance (store s1) b d).
Proof.
  intros Hev Hrun. destruct (claim_admitted _ _ _ _ Hrun) as (l & n & p & s9 & Ha & Hm & Hf).
  destruct Ha as [Hl Hn _ _ _ _ Hne _ _ _ (acc0 & Hacc0 & _) _ _ _ _].
  apply migrateAccount_core in Hm as (s7 & s8 & Hcore & Hsn & Hact).
  destruct (core_moved _ _ _ _ _ _ _ Hne Hacc0 (Hev _ _ Hl Hacc0) Hcore) as (s1 & acc & Hd1 & Hvi & Hset & Hl0 & Hnd & Hother).
  set (J := settled l n acc (act_bank (mg_act (store s7)))) in *.
  destruct (keeps_settled_refs ctx l n acc (act_bank (mg_act (store s7)))) as [K1 K2].
  assert (J (store s9)) as (Hln & Hna & Hbk)
    by (eapply (run_keeps J); [exact K2|exact Hact|]; by eapply (run_keeps J); [exact K1|exact Hsn|]).
  exists l, n, acc0, acc, s1. injection Hf as <-. unfold balance in *. cbn. rewrite Hbk. done.
Qed.
End Account.
