(* ===== verification/EvExamples.v ===== *)
(** * Instances of the migration interfaces and theorems

    Addresses without a colon, signatures that copy the message, accounts and positions in
    finite maps, and a chain on which a vesting account that delegates, runs a supernode
    and has an action migrates. *)
From Stdlib Require Import ZArith Lia Ascii.
From stdpp Require Import base numbers strings list gmap relations.
From S2P Require Import Prelude Sdk Bank GoTime SupernodeTypes Supernode SupernodeMsg SupernodeInv SupernodeThm.
From S2P Require Import ActionTypes ActionStore.
From S2P Require Import ActionKeeper ActionIndex ActionInv Reward RewardExamples EvProof EvKeepers EvMigrate EvValidator.
From S2P Require Import EvThm EvRun EvStake EvRefs EvAccount.
Open Scope Z_scope.
Module Migrating.
#[local] Existing Instance Concrete.dec.
#[local] Existing Instance Concrete.dec_laws.
#[local] Existing Instance Ledger.ledger_bank.
#[local] Existing Instance Ledger.ulume_parser.

(** ** Addresses and keys *)
#[export] Instance address : SdkAddress := {
  ValAddressFromBech32 := Concrete.decode_with "v"%char "V"%char;
  AccAddressFromBech32 s := if no_colon s then Concrete.decode_with "a"%char "A"%char s else None;
  ValAddress_String a := String "v"%char (bytes_string a)
}.
#[export] Instance text : AccAddressText := { AccAddress_String a := String "a"%char (bytes_string a) }.
Lemma decoded s a : AccAddressFromBech32 s = Some a → ∃ d r, a = string_bytes (String d r) ∧ no_colon (String d r) = true.
Proof.
  cbn. destruct (no_colon s) eqn:Hs; [|done]. destruct s as [|c [|d r]]; try done. cbn [Concrete.decode_with].
  case_decide; [|done]. intros [= <-]. exists d, r. split; [done|]. cbn in Hs |- *. by apply andb_true_iff in Hs as [_ Hs].
Qed.
#[export] Instance text_laws : AccTextLaws.
Proof.
  split; intros s a (d & r & -> & Hn)%decoded; cbn [AccAddress_String text]; rewrite string_bytes_string; [|done].
  cbn [AccAddressFromBech32 address]. replace (no_colon (String "a" (String d r))) with true by (symmetry; exact Hn). done.
Qed.
#[export] Instance operator_text : OperatorText.
Proof.
  split. intros s a (d & r & -> & _)%decoded. cbn [ValAddress_String address]. by rewrite string_bytes_string.
Qed.
(** The last three bytes of a key are its address; a signature is a copy of the end of
    the message and of the key. *)
Definition sign (pk msg : bytes) : bytes := take 61 (reverse msg ++ replicate 61 0) ++ drop 30 pk.
#[export] Instance keys : MigrationKeys := {
  key_Address _ pk := drop 30 pk;
  key_VerifySignature _ pk msg sig := bool_decide (sig = sign pk msg);
  LegacyAmino_Address _ _ ks := mjoin (drop 32 <$> ks)
}.

(** ** Accounts *)
#[export] Instance acc_types : AccTypes := { BaseAcc := bytes * Z; ModuleAcc := bytes; OtherAcc := bytes; Period := Z }.
#[export] Instance acc_ops : AccOps := {
  acc_PubKey _ := None;
  multisig_Bytes _ ks := mjoin ks;
  acc_SetPubKey _ _ acc := Ok acc;
  vest_NewBase b cs t :=
    if t <? 0 then Err (ErrOther "end time cannot be negative") else
    Ok {| bv_Base := b; bv_OriginalVesting := cs; bv_DelegatedFree := []; bv_DelegatedVesting := []; bv_EndTime := t |};
  vest_NewPermanentLocked b cs :=
    Ok {| bv_Base := b; bv_OriginalVesting := cs; bv_DelegatedFree := []; bv_DelegatedVesting := []; bv_EndTime := 0 |};
  base_part b _ := (b, 0)
}.
Definition address_of (acc : Acc) : bytes :=
  match acc with
  | ABase b => b.1
  | AContinuous v _ | ADelayed v | APeriodic v _ _ | APermanentLocked v => (bv_Base v).1
  | AModule m | AOther m => m
  end.
#[export] Instance accounts : Auth := {
  auth := gmap (list Z) Acc;
  auth_GetAccount a b := acc ← a !! b; if decide (address_of acc = b) then Some acc else None;
  auth_SetAccount acc a := <[address_of acc := acc]> a;
  auth_RemoveAccount acc a := delete (address_of acc) a;
  auth_NewAccountWithAddress b a := (ABase (b, Z.of_nat (size a)), a)
}.
#[export] Instance acc_laws : AccLaws.
Proof.
  refine {| acc_Address := address_of; base_Address := λ b : @BaseAcc acc_types, b.1 |}; try done.
  - intros a b acc. cbn. destruct (_ !! b); cbn; [|done]. case_decide; [|done]. by intros [= <-].
  - intros acc a b. cbn. case_decide as Hb; [subst; rewrite lookup_insert_eq; cbn; by rewrite decide_True|].
    by rewrite lookup_insert_ne.
  - intros acc a b. cbn. case_decide as Hb; [subst; by rewrite lookup_delete_eq|]. by rewrite lookup_delete_ne.
  - intros k ks acc acc' [= <-]. done.
  - intros b cs t v. cbn. destruct (t <? 0); [done|]. by intros [= <-].
  - by intros b cs v [= <-].
Defined.
#[export] Instance payout : PayoutBank := { GetAllBalances := Ledger.spendable }.
#[export] Instance sender : CoinSender := {
  SendCoins from to cs p :=
    match Ledger.transfer from to cs p.1 with
    | (Ok _, b) =>
        (Ok tt, (b, match auth_GetAccount p.2 to with Some _ => p.2 | None => auth_SetAccount (ABase (to, 0)) p.2 end))
    | (Err e, b) => (Err e, (b, p.2))
    end
}.
Lemma kept_refl c (a : auth) : accounts_kept c a a.
Proof. by split. Qed.
#[export] Instance coin_laws : CoinLaws.
Proof.
  split.
  - apply Vault.spendable_all.
  - intros from to cs b a b' a'. cbn. destruct (Ledger.transfer from to cs b) as [[[]|] b1] eqn:E; [|done].
    intros [= <- _]. assert (length cs ≤ 1)%nat as Hl by (destruct cs as [|? [|]]; cbn in *; [lia|lia|done]).
    pose proof (Ledger.transfer_ok from to cs Hl b) as Ht. by rewrite E in Ht.
  - intros from to cs b a. cbn -[auth_GetAccount auth_SetAccount].
    destruct (Ledger.transfer from to cs b) as [[[]|] b1]; [|apply kept_refl].
    cbn -[auth_GetAccount auth_SetAccount]. destruct (auth_GetAccount a to) eqn:E; [apply kept_refl|].
    split; intros c; rewrite get_set; cbn -[auth_GetAccount].
    + intros acc Hc. case_decide; [congruence|done].
    + intros Hc Hn. by rewrite decide_False.
Qed.

(** ** Positions *)
Definition slot_code (k : slot) : Z * list Z * list Z :=
  match k with Delegated v => (0, v, []) | UnbondingFrom v => (1, v, []) | Redelegating a b => (2, a, b) end.
Definition slot_of_code (c : Z * list Z * list Z) : option slot :=
  match c with
  | (0, v, _) => Some (Delegated v)
  | (1, v, _) => Some (UnbondingFrom v)
  | (2, a, b) => Some (Redelegating a b)
  | _ => None
  end.
#[export] Instance slot_countable : Countable slot.
Proof. apply (inj_countable slot_code slot_of_code). by intros []. Defined.

(** A validator has the address of its operator, and as many tokens as shares. *)
#[export] Instance staking_types : StakingTypes := {
  SValidator := string;
  TokensFromSharesTruncated _ sh := sh;
  UBDEntry := Time * Z; ubd_CompletionTime := fst; ubd_UnbondingId := snd;
  REDEntry := Time * Z; red_CompletionTime := fst; red_UnbondingId := snd
}.
Abbreviation positions := (gmap (list Z * slot) position) (only parsing).
Definition is_acc (a : bytes) : bool := bool_decide (AccAddressFromBech32 (AccAddress_String a) = Some a).
Definition is_val (v : bytes) : bool := bool_decide (ValAddressFromBech32 (ValAddress_String v) = Some v).
(** A position is kept under decodable addresses, in a slot of its kind. *)
Definition fits (a : bytes) (k : slot) (p : position) : bool :=
  is_acc a && match k, p with
              | Delegated v, PShares _ => is_val v
              | UnbondingFrom v, PUnbonding _ => is_val v
              | Redelegating v w, PRedelegating _ => is_val v && is_val w
              | _, _ => false
              end.
Definition view (t : positions) : table := λ a k, p ← t !! (a, k); if fits a k p then Some p else None.
Definition rows_of (a : bytes) (kind : slot → bool) (t : positions) : list (slot * position) :=
  omap (λ e : (list Z * slot) * position,
    if bool_decide (e.1.1 = a) && kind e.1.2 && fits a e.1.2 e.2 then Some (e.1.2, e.2) else None) (map_to_list t).
Lemma elem_of_rows_of a kind t k p : (k, p) ∈ rows_of a kind t ↔ kind k = true ∧ view t a k = Some p.
Proof.
  unfold rows_of, view. rewrite list_elem_of_omap. split.
  - intros ([[b j] q] & Hin%elem_of_map_to_list & E). cbn in E. destruct (bool_decide _) eqn:Hb; [|done].
    apply bool_decide_eq_true in Hb as ->. destruct (kind j) eqn:Hk; [|done]. destruct (fits a j q) eqn:Hf; [|done].
    injection E as -> ->. rewrite Hin. cbn. by rewrite Hf.
  - intros [Hk Hv]. destruct (t !! (a, k)) as [q|] eqn:Hq; cbn in Hv; [|done]. destruct (fits a k q) eqn:Hf; simplify_eq.
    exists ((a, k), p). split; [by apply elem_of_map_to_list|]. cbn. by rewrite bool_decide_true, Hk, Hf.
Qed.
Lemma NoDup_rows_of a kind t : NoDup (rows_of a kind t).*1.
Proof.
  unfold rows_of. generalize (NoDup_fst_map_to_list t). induction (map_to_list t) as [|[[b k] p] l IH]; [constructor|].
  cbn. intros [Hni Hnd]%NoDup_cons. case_bool_decide as Hb; [|by apply IH]. cbn. destruct (kind k && fits a k p); [|by apply IH].
  cbn. apply NoDup_cons. split; [|by apply IH].
  intros ([j q] & -> & Hin)%list_elem_of_fmap. apply list_elem_of_omap in Hin as ([[b' j'] q'] & Hin & E). cbn in E.
  case_bool_decide; [|done]. destruct (kind j'); [|done]. destruct (fits a j' q'); simplify_eq/=.
  apply Hni, list_elem_of_fmap. eexists. by split; [|exact Hin].
Qed.
(** Records read from the table *)
Lemma rows_listed {A} (row_of : A → row) (mk : slot * position → A) a kind max t :
  (∀ k p, kind k = true → fits a k p = true → row_of (mk (k, p)) = (AccAddress_String a, Some k, p)) →
  listed a kind (zlen (take (Z.to_nat max) (mk <$> rows_of a kind t)) <? max)
    (row_of <$> take (Z.to_nat max) (mk <$> rows_of a kind t)) (view t).
Proof.
  intros Hmk. assert (∀ k p, view t a k = Some p → fits a k p = true) as Hfits.
  { unfold view. intros k p. destruct (t !! (a, k)) as [q|]; cbn; [|done]. destruct (fits a k q) eqn:E; [|done]. by intros [= <-]. }
  assert (row_of <$> (mk <$> rows_of a kind t) = (λ e : slot * position, (AccAddress_String a, Some e.1, e.2)) <$> rows_of a kind t) as Hrows.
  { rewrite <- list_fmap_compose. apply list_fmap_ext. intros i [k p] Hi%list_elem_of_lookup_2%elem_of_rows_of.
    cbn. apply Hmk; [apply Hi|]. apply Hfits, Hi. }
  split_and!.
  - intros r Hr. rewrite fmap_take, Hrows in Hr. apply elem_of_take in Hr as (i & Hr & _).
    apply list_elem_of_lookup_2, list_elem_of_fmap in Hr as ([k p] & -> & Hin%elem_of_rows_of). cbn [fst snd].
    destruct Hin as [Hk Hv]. pose proof (Hfits _ _ Hv) as Hf. apply andb_true_iff in Hf as [Ha%bool_decide_eq_true _].
    split; [done|]. by exists k.
  - rewrite fmap_take, Hrows, !fmap_take. rewrite <- !list_fmap_compose. eapply sublist_NoDup; [|apply sublist_take].
    change (NoDup ((Some ∘ fst) <$> rows_of a kind t)).
    rewrite (list_fmap_compose fst Some). apply NoDup_fmap_2; [apply _|apply NoDup_rows_of].
  - intros Hlt%Z.ltb_lt k p Hk Hv. rewrite take_ge in Hlt |- *.
    + rewrite Hrows. exists (AccAddress_String a, Some k, p). split; [|done].
      apply list_elem_of_fmap. exists (k, p). by rewrite elem_of_rows_of.
    + unfold zlen in Hlt. rewrite length_take in Hlt. lia.
    + unfold zlen in Hlt. rewrite length_take in Hlt. lia.
Qed.

Definition put_pos (r : row) (p : option position) (st : positions * gmap (list Z) string)
    : result unit * (positions * gmap (list Z) string) :=
  match AccAddressFromBech32 r.1.1, r.1.2 with
  | Some a, Some k => (Ok tt, (partial_alter (λ _, p) (a, k) st.1, st.2))
  | _, _ => (Err ErrInvalidAddress, st)
  end.
Lemma put_written r p st st' :
  put_pos r p st = (Ok tt, st') →
  (∀ a k q, p = Some q → AccAddressFromBech32 r.1.1 = Some a → r.1.2 = Some k → fits a k q = true) →
  written r p (view st.1) (view st'.1).
Proof.
  unfold put_pos. destruct (AccAddressFromBech32 r.1.1) as [a|] eqn:Ha; [|done]. destruct r.1.2 as [k|] eqn:Hk; [|done].
  intros [= <-] Hf. exists a, k. split_and!; [done..|]. intros b j. unfold view. cbn [fst]. case_decide as Hd.
  - destruct Hd as [-> ->]. rewrite lookup_partial_alter_eq. destruct p as [q|]; [|done]. cbn. by rewrite (Hf a k q).
  - rewrite lookup_partial_alter_ne; [done|]. naive_solver.
Qed.
Lemma acc_fits s a : AccAddressFromBech32 s = Some a → is_acc a = true.
Proof. intros Ha. apply bool_decide_eq_true. by eapply acc_roundtrip. Qed.
Lemma val_fits s v : ValAddressFromBech32 s = Some v → is_val v = true.
Proof. intros Hv. apply bool_decide_eq_true. by eapply (val_roundtrip (SdkAddressLaws := Concrete.address_laws)). Qed.

Definition mk_del (a : bytes) (e : slot * position) : Delegation :=
  match e with
  | (Delegated v, PShares sh) => mkDelegation (AccAddress_String a) (ValAddress_String v) sh
  | _ => mkDelegation "" "" 0
  end.
Definition mk_ubd (a : bytes) (e : slot * position) : UnbondingDelegation :=
  match e with
  | (UnbondingFrom v, PUnbonding es) => mkUBD (AccAddress_String a) (ValAddress_String v) es
  | _ => mkUBD "" "" []
  end.
Definition mk_red (a : bytes) (e : slot * position) : Redelegation :=
  match e with
  | (Redelegating v w, PRedelegating es) => mkRED (AccAddress_String a) (ValAddress_String v) (ValAddress_String w) es
  | _ => mkRED "" "" "" []
  end.
#[export] Instance staking_store : StakingStore := {
  staking := positions * gmap (list Z) string;
  st_GetValidator st v := match st.2 !! v with Some val => Ok val | None => Err ErrNoValidatorFound end;
  GetDelegatorDelegations a max st := Ok (take (Z.to_nat max) (mk_del a <$> rows_of a is_delegated st.1));
  GetUnbondingDelegations a max st := Ok (take (Z.to_nat max) (mk_ubd a <$> rows_of a is_unbonding st.1));
  GetRedelegations a max st := Ok (take (Z.to_nat max) (mk_red a <$> rows_of a is_redelegating st.1));
  SetDelegation d := put_pos (del_row d) (Some (PShares (del_Shares d)));
  RemoveDelegation d := put_pos (del_row d) None;
  SetUnbondingDelegation u := put_pos (ubd_row u) (Some (PUnbonding (ubd_Entries u)));
  RemoveUnbondingDelegation u := put_pos (ubd_row u) None;
  InsertUBDQueue _ _ st := (Ok tt, st);
  SetUnbondingDelegationByUnbondingID _ _ st := (Ok tt, st);
  SetRedelegation r := put_pos (red_row r) (Some (PRedelegating (red_Entries r)));
  RemoveRedelegation r := put_pos (red_row r) None;
  InsertRedelegationQueue _ _ st := (Ok tt, st);
  SetRedelegationByUnbondingID _ _ st := (Ok tt, st)
}.
#[export] Instance staking_laws : StakingLaws.
Proof.
  refine {| staked st := view st.1 |}; try done.
  - intros d st st' E. eapply put_written; [exact E|]. intros a k q [= <-] Ha Hk. cbn -[AccAddressFromBech32 ValAddressFromBech32] in Ha, Hk.
    apply fmap_Some in Hk as (v & Hv & ->). unfold fits. by rewrite (acc_fits _ _ Ha), (val_fits _ _ Hv).
  - intros d st st' E. by eapply put_written; [exact E|].
  - intros u st st' E. eapply put_written; [exact E|]. intros a k q [= <-] Ha Hk. cbn -[AccAddressFromBech32 ValAddressFromBech32] in Ha, Hk.
    apply fmap_Some in Hk as (v & Hv & ->). unfold fits. by rewrite (acc_fits _ _ Ha), (val_fits _ _ Hv).
  - intros u st st' E. by eapply put_written; [exact E|].
  - intros r st st' E. eapply put_written; [exact E|]. intros a k q [= <-] Ha Hk. cbn -[AccAddressFromBech32 ValAddressFromBech32] in Ha, Hk.
    apply bind_Some in Hk as (v & Hv & (w & Hw & [= <-])%bind_Some). unfold fits.
    by rewrite (acc_fits _ _ Ha), (val_fits _ _ Hv), (val_fits _ _ Hw).
  - intros r st st' E. by eapply put_written; [exact E|].
  - intros a max st ds [= <-]. apply rows_listed. intros [v|v|v w] [sh|es|es] Hk Hf; try done; unfold fits in Hf;
      rewrite ?andb_false_r in Hf; try done. apply andb_true_iff in Hf as [_ Hv%bool_decide_eq_true].
    unfold del_row. cbn -[ValAddress_String ValAddressFromBech32 AccAddress_String]. by rewrite Hv.
  - intros a max st us [= <-]. apply rows_listed. intros [v|v|v w] [sh|es|es] Hk Hf; try done; unfold fits in Hf;
      rewrite ?andb_false_r in Hf; try done. apply andb_true_iff in Hf as [_ Hv%bool_decide_eq_true].
    unfold ubd_row. cbn -[ValAddress_String ValAddressFromBech32 AccAddress_String]. by rewrite Hv.
  - intros a max st rs [= <-]. apply rows_listed. intros [v|v|v w] [sh|es|es] Hk Hf; try done; unfold fits in Hf;
      rewrite ?andb_false_r in Hf; try done. apply andb_true_iff in Hf as [_ Hv]. apply andb_true_iff in Hv as [Hv Hw].
    apply bool_decide_eq_true in Hv, Hw.
    unfold red_row. cbn -[ValAddress_String ValAddressFromBech32 AccAddress_String]. by rewrite Hv, Hw.
Defined.

(** ** The other modules *)
#[export] Instance fractions : DecFractions := {
  dec_Sub := Z.sub; dec_LT := Z.ltb; dec_LTE := Z.leb;
  dec_MulTruncate x y := Z.quot (x * y) decPrecision;
  dec_QuoTruncate x y := Z.quot (x * decPrecision) y;
  dec_Smallest n := n
}.
#[export] Instance validator_store : ValidatorStore := {
  v_Jailed _ := false; v_Status _ := Bonded; v_DelegatorShares _ := Some (1 * decPrecision); v_TokensFromShares _ sh := sh;
  v_SetOperatorAddress a _ := a;
  GetValidatorDelegations _ _ := Ok []; GetUnbondingDelegationsFromValidator _ _ := Ok [];
  REDsFromValSrc _ _ := []; REDsToValDst _ _ := []; RED_row _ _ := Ok None;
  SetValidator a st :=
    match ValAddressFromBech32 a with
    | Some v => (Ok tt, (st.1, <[v := a]> st.2))
    | None => (Err ErrInvalidAddress, st)
    end;
  DeleteValidatorByPowerIndex _ st := (Ok tt, st); SetValidatorByPowerIndex _ st := (Ok tt, st);
  SetValidatorByConsAddr _ st := (Ok tt, st); GetLastValidatorPower _ _ := Ok 0;
  DeleteLastValidatorPower _ st := (Ok tt, st); SetLastValidatorPower _ _ st := (Ok tt, st);
  DeleteValidatorRow v st := (Ok tt, (st.1, delete v st.2))
}.
(** The starting points of delegations; there are no rewards. *)
#[export] Instance distribution : Distribution := {
  distr := gmap (list Z * list Z) StartingInfo;
  HistoricalRewards := Z; ReferenceCount := id; set_ReferenceCount n _ := n;
  GetDelegatorWithdrawAddr _ a := Ok a; SetDelegatorWithdrawAddr _ _ d := (Ok tt, d);
  GetDelegatorStartingInfo d v a := match d !! (v, a) with Some i => Ok i | None => Err ErrNotFound end;
  SetDelegatorStartingInfo v a i d := (Ok tt, <[(v, a) := i]> d);
  DeleteDelegatorStartingInfo v a d := (Ok tt, delete (v, a) d);
  CurrentRewards := Z; cr_Period := id; GetValidatorCurrentRewards _ _ := Ok 2;
  distr_HistoricalReward _ _ _ := Ok (Some 1); SetValidatorHistoricalRewards _ _ _ d := (Ok tt, d);
  WithdrawDelegationRewards _ _ _ x := (Ok tt, x)
}.
#[export] Instance validator_distribution : ValidatorDistribution := {
  Commission := Z; Outstanding := Z; SlashEvent := Z * Z; se_ValidatorPeriod := fst; se_Fraction := snd;
  ErrNoValidatorCommission := ErrOther "no validator commission to withdraw";
  WithdrawValidatorCommission _ x := (Err (ErrOther "no validator commission to withdraw"), x);
  DeleteValidatorCurrentRewards _ d := (Ok tt, d); SetValidatorCurrentRewards _ _ d := (Ok tt, d);
  GetValidatorAccumulatedCommission _ _ := Ok 0; DeleteValidatorAccumulatedCommission _ d := (Ok tt, d);
  SetValidatorAccumulatedCommission _ _ d := (Ok tt, d);
  GetValidatorOutstandingRewards _ _ := Ok 0; DeleteValidatorOutstandingRewards _ d := (Ok tt, d);
  SetValidatorOutstandingRewards _ _ d := (Ok tt, d);
  HistoricalRewards_rows _ _ := Ok []; DeleteValidatorHistoricalRewards _ d := d;
  SlashEvent_rows _ _ := Ok []; DeleteValidatorSlashEvents _ d := d; SetValidatorSlashEvent _ _ _ _ d := (Ok tt, d)
}.
(** Grants of one kind, from granter to grantee *)
#[export] Instance grants : Authz := {
  authz := gmap (list Z * list Z) string; Grant := string; Authorization := string;
  GetAuthorization g := Ok g; MsgTypeURL := id; Grant_Expiration _ := None;
  IterateGrants z := (λ e : (list Z * list Z) * string, (e.1.1, e.1.2, e.2)) <$> map_to_list z;
  DeleteGrant e r _ z := (Ok tt, delete (r, e) z);
  SaveGrant _ e r au _ z := (Ok tt, <[(r, e) := au]> z)
}.
#[export] Instance allowances : Feegrant := {
  feegrant := unit; FeeGrant := string * string * Z; Allowance := Z;
  fg_Granter g := g.1.1; fg_Grantee g := g.1.2; GetGrant g := Ok g.2;
  IterateAllFeeAllowances _ := Ok [];
  GrantAllowance _ _ _ _ x := (Ok tt, x); RevokeAllowance _ _ f := (Ok tt, f)
}.
#[export] Instance other_laws : OtherModulesLaws.
Proof. split; intros; apply kept_refl. Qed.
#[export] Instance audit_keeper : AuditKeeper := {
  audit := Z; CreateEvidence _ _ _ _ _ _ n := (Ok (n + 1), n + 1);
  SetStorageTruthTicketArtifactCounts _ _ _ _ n := (Ok tt, n)
}.

(** ** The chain *)
Definition leg : bytes := string_bytes "leg".
Definition new : bytes := string_bytes "new".
Definition val : bytes := string_bytes "val".
Definition pk_of (a : bytes) : bytes := replicate 30 2 ++ a.
Definition ctx : MigCtx := {| mc_ChainID := "lumera"; mc_BlockTime := mkTime 1000 0; mc_BlockHeight := 7 |}.
Definition payload : bytes := migrationPayload "lumera" EVMChainID migrationPayloadKindClaim leg new.
Definition legacy_proof : MigrationProof := MigrationProof_Single (Some
  {| sp_PubKey := pk_of leg; sp_SigFormat := SIG_FORMAT_ADR036;
     sp_Signature := sign (pk_of leg) (ADR036SignDoc (AccAddress_String leg) payload) |}).
Definition new_proof : MigrationProof := MigrationProof_Single (Some
  {| sp_PubKey := pk_of new; sp_SigFormat := SIG_FORMAT_EIP191;
     sp_Signature := sign (pk_of new) (EIP191PersonalSignPayload payload) ++ [27] |}).
Definition msg : MsgClaimLegacyAccount :=
  {| cl_NewAddress := "anew"; cl_LegacyAddress := "aleg"; cl_LegacyProof := legacy_proof; cl_NewProof := new_proof |}.

Definition vesting : Acc := AContinuous
  {| bv_Base := (leg, 4); bv_OriginalVesting := [mkCoin "ulume" 100]; bv_DelegatedFree := [];
     bv_DelegatedVesting := [mkCoin "ulume" 50]; bv_EndTime := 2000 |} 500.
Definition stakes : positions :=
  <[(leg, Delegated val) := PShares 50]> (<[(new, Delegated val) := PShares 7]>
    {[ (leg, UnbondingFrom val) := PUnbonding [(mkTime 5000 0, 3)] ]}).
Definition purse : Ledger.ledger := <[(leg, "ulume"%string) := 90%N]> {[ (new, "ulume"%string) := 5%N ]}.
Definition node : SuperNode :=
  mkSuperNode "vval" [StateRecord SuperNodeStateActive 1 ""] [] [IPHistory "10.0.0.1" 1] "1.0.0" None "aleg" "4445"
    [AccountHistory "aleg" 1].
Definition registry : sn_store := put_sn val node (SnStore ∅ ∅ ∅ (sn_params (store SupernodeThm.Examples.st1))).
Definition requested : Action :=
  mkAction "aleg" "1" ActionTypeSense None "10ulume" 9000 ActionStatePending 2 [] 1 [].
Definition finished : Action :=
  mkAction "aother" "2" ActionTypeSense None "10ulume" 9000 ActionStateDone 3 ["aleg"%string] 1 [].
Definition no_actions : act_store := ActStore ∅ 2 ∅ ∅ ∅ ∅ ∅ None purse registry 0.
Definition actions : act_store := store (SetAction finished (SetAction requested (St no_actions [])).2).2.
Definition s0 : st mig_store :=
  St (MigStore (Some MDefaultParams) ∅ ∅ (Some 0) (Some 0) ∅ {[ leg := vesting ]} (stakes, {[ val := "vval"%string ]}) ∅
        {[ (leg, val) := "/cosmos.bank.v1beta1.MsgSend"%string ]} tt actions) [].
Definition s1 : st mig_store := (ClaimLegacyAccount ctx msg s0).2.
Lemma claimed : ClaimLegacyAccount ctx msg s0 = (Ok tt, s1).
Proof.
  assert ((ClaimLegacyAccount ctx msg s0).1 = Ok tt) as E by (vm_compute; reflexivity).
  unfold s1. rewrite <- E. apply surjective_pairing.
Qed.

(** ** Instances of the theorems *)
Lemma migration_authorised_witness :
  authorised SubKeyTypeCosmosSecp256k1 payload leg legacy_proof ∧ authorised SubKeyTypeEthSecp256k1 payload new new_proof ∧
  mg_records (store s1) = {[ "aleg"%string := record_of ctx leg new ]}.
Proof.
  destruct (migration_authorised ctx (MigrationMsg_Claim msg) s0 s1 I I claimed)
    as (l & n & p & Hl & Hn & _ & H1 & H2 & _ & _ & _ & _ & _ & _ & Hr).
  injection Hl as <-. injection Hn as <-. split; [exact H1|]. split; [exact H2|]. exact Hr.
Defined.

Definition one_migrated : MigGenesis :=
  {| gm_Params := MDefaultParams; gm_MigrationRecords := [mkMigrationRecord "aold" "ayoung" 900 6];
     gm_TotalMigrated := 1; gm_TotalValidatorsMigrated := 0 |}.
Definition g1 : st mig_store := (mig_InitGenesis one_migrated s0).2.
Lemma one_migrated_ok : genesis_records_ok (gm_MigrationRecords one_migrated).
Proof. split; apply NoDup_singleton. Qed.
Lemma migrations_injective_witness :
  let s2 := store (run_tx (handle_migration ctx (MigrationMsg_Claim msg)) g1).2 in
  records_one_to_one s2 ∧ counted s2 ∧ mg_records (store g1) ⊆ mg_records s2 ∧ size (mg_records s2) = 2%nat.
Proof.
  intros s2. assert (mig_InitGenesis one_migrated s0 = (Ok tt, g1)) as Hg by reflexivity.
  destruct (migrations_injective one_migrated s0 g1 (store g1) s2 (conj eq_refl eq_refl) one_migrated_ok eq_refl Hg)
    as (H1 & H2 & H3 & _); [apply rtc_refl|apply rtc_once, mig_step_migrate|].
  split; [exact H1|]. split; [exact H2|]. split; [exact H3|]. vm_compute. reflexivity.
Defined.
Lemma migration_genesis_roundtrip_witness :
  ∃ t' : st mig_store, mig_InitGenesis one_migrated s0 = (Ok tt, t') ∧ mg_by_new (store t') = mg_by_new (store g1).
Proof.
  destruct (InitGenesis_records one_migrated s0 (conj eq_refl eq_refl) one_migrated_ok) as (t & Ht & Hok & _).
  assert (mig_InitGenesis one_migrated s0 = (Ok tt, g1)) as Hg by reflexivity. rewrite Hg in Ht. injection Ht as <-.
  destruct (migration_genesis_roundtrip (store g1) one_migrated s0 Hok eq_refl (conj eq_refl eq_refl)) as (t' & Hi & E).
  exists t'. split; [exact Hi|]. by injection E as _ _ E _ _.
Defined.

Lemma few_stakes : few leg (stake (store s0)).
Proof.
  exists [Delegated val; UnbondingFrom val]. split; [done|]. intros k [p Hp]. cbn in Hp. unfold view in Hp.
  apply bind_Some in Hp as (q & Hq & _). unfold stakes in Hq.
  apply lookup_insert_Some in Hq as [[E _]|[_ Hq]]; [injection E as <-; by left|].
  apply lookup_insert_Some in Hq as [[E _]|[_ Hq]]; [done|].
  apply lookup_singleton_Some in Hq as [E _]. injection E as <-. right. by left.
Qed.
(** The shares that the new address had are lost. *)
Lemma stake_moved_witness :
  stake (store s0) new (Delegated val) = Some (PShares 7) ∧
  stake (store s1) new (Delegated val) = Some (PShares 50) ∧
  stake (store s1) new (UnbondingFrom val) = Some (PUnbonding [(mkTime 5000 0, 3)]) ∧
  stake (store s1) leg (Delegated val) = None.
Proof.
  assert (∀ l, AccAddressFromBech32 (cl_LegacyAddress msg) = Some l → few l (stake (store s0))) as Hfew.
  { intros l [= <-]. apply few_stakes. }
  destruct (stake_moved ctx msg s0 s1 Hfew claimed) as (l & n & Hl & Hn & H1 & H2 & _ & _).
  injection Hl as <-. injection Hn as <-. split; [reflexivity|].
  split; [apply H2; reflexivity|]. split; [apply H2; reflexivity|]. apply H1.
Defined.

Lemma registry_inv : sn_inv registry.
Proof.
  apply put_sn_inv; [split_and!; [reflexivity|reflexivity|intros w; cbn [sn_accounts]; by rewrite lookup_empty]|].
  split; [intros v sn; cbn [sn_records]; by rewrite lookup_empty|]. intros a v. cbn [sn_accounts sn_records].
  rewrite lookup_empty. split; [done|]. intros (sn & Hsn & _). by rewrite lookup_empty in Hsn.
Qed.
Lemma no_actions_ok : store_ok no_actions.
Proof.
  split; [done|]. split; [intros id a; cbn [act_actions no_actions]; by rewrite lookup_empty|]. split.
  - split_and!; intros k; (split; [by intros ?%elem_of_empty|intros (id & a & f & Ha & _); cbn [act_actions no_actions] in Ha; by rewrite lookup_empty in Ha]).
  - split; [right; exists (0 : @Dec Concrete.dec); split; [reflexivity|vm_compute; split; discriminate]|
      vm_compute; split; discriminate].
Qed.
Lemma actions_ok : store_ok actions.
Proof.
  unfold actions. rewrite !SetAction_run. cbn [store snd events]. apply put_action_ok; [apply put_action_ok; [apply no_actions_ok|]|].
  - split; [done|]. split; [by exists 1|]. split; [by left|]. split; [by eexists|]. split; [|done]. by exists leg.
  - rewrite put_action_count. split; [done|]. split; [by exists 2|]. split; [right; right; split; [by left|by eexists]|].
    split; [by eexists|]. split; [|done]. by exists (string_bytes "other").
Qed.
Lemma references_follow_witness :
  store_ok (mg_act (store s1)) ∧ sn_inv (sn_of s1) ∧
  (∃ a, act_actions (mg_act (store s1)) !! "1" = Some a ∧ a_Creator a = "anew")%string ∧
  (∃ sn, sn_records (sn_of s1) !! val = Some sn ∧ SupernodeAccount sn = "anew")%string.
Proof.
  assert (∀ n, AccAddressFromBech32 (msg_newAddress (MigrationMsg_Claim msg)) = Some n → n ≠ ModuleAccountAddress) as Hmod
    by by intros n [= <-].
  destruct (references_follow ctx (MigrationMsg_Claim msg) s0 s1 Hmod actions_ok registry_inv claimed)
    as (l & n & Hl & Hn & H1 & H2 & H3 & H4).
  injection Hl as <-. injection Hn as <-. split; [exact H1|]. split; [exact H2|]. split.
  - destruct (act_actions (mg_act (store s0)) !! "1"%string) as [a0|] eqn:E0; [|vm_compute in E0; discriminate E0].
    destruct (actions_follow_lookup _ _ _ _ _ _ H3 E0) as (a & E1 & Hf). exists a. split; [exact E1|].
    apply (tf_legacy _ _ _ _ (af_creator _ _ _ _ Hf)). vm_compute in E0. injection E0 as <-. reflexivity.
  - destruct (sn_records (sn_of s0) !! val) as [sn0|] eqn:E0; [|vm_compute in E0; discriminate E0].
    destruct (registry_follows_lookup _ _ _ _ _ _ _ H4 E0) as (sn & E1 & Hf). exists sn. split; [exact E1|].
    apply (xf_legacy _ _ _ _ _ Hf). vm_compute in E0. injection E0 as <-. reflexivity.
Defined.

Lemma account_moved_witness :
  account (store s1) leg = None ∧ balance (store s1) leg "ulume" = 0 ∧ balance (store s1) new "ulume" = 95 ∧
  ∃ acc, account (store s1) new = Some acc ∧ same_schedule vesting acc.
Proof.
  assert (∀ l acc, AccAddressFromBech32 (cl_LegacyAddress msg) = Some l → account (store s0) l = Some acc → end_valid acc) as Hev
    by by intros l acc [= <-] [= <-].
  destruct (account_moved ctx msg s0 s1 Hev claimed)
    as (l & n & acc0 & acc & x & Hl & Hn & Ha0 & Ha1 & Han & Hv & Hx & Hb0 & Hbn & _).
  injection Hl as <-. injection Hn as <-. split; [exact Ha1|]. split; [exact (Hb0 "ulume")|]. split.
  - etransitivity; [exact (Hbn "ulume"%string)|]. change (MigrateDistribution leg s0 = (Ok tt, x)) in Hx.
    assert (x = (MigrateDistribution leg s0).2) as -> by by rewrite Hx. reflexivity.
  - exists acc. split; [exact Han|]. injection Ha0 as <-. exact Hv.
Defined.
End Migrating.
